(* ===== verification/_CoqProject ===== *)
-Q . S2P
Prelude.v
UtilsCommon.v
Base64.v
Rc4.v
AesWrap.v
AesTables.v
Aes.v
AesProps.v
AesFips.v
AesModes.v
HashMd.v
HashSha1.v
HashMd5.v
HashMd4.v
Des.v
DesProps.v
MsFuncs.v
Crypto.v
CryptoDemo.v
Wpabuf.v
HashSha2.v
HashFips.v
HashHmac.v
Kdf.v
HashKat.v
AesSiv.v
AesCcm.v
AesGcm.v
AesKat.v
EapCommon.v
EapPeer.v
EapMschapv2.v
EapPeerDemo.v
EapMschapv2Props.v
EapServer.v
EapServerMethods.v
EapInterop.v
EapServerProps.v
EapPeerProps.v
EapPeerNak.v
EapPeerFrame.v
EapolSupp.v
EapolDemo.v
EapolProps.v
EapolTimers.v
EapolKeys.v
WpaDefs.v
WpaCommon.v
RsnIe.v
KeyData.v
WpaTypes.v
Eloop.v
EloopProps.v
DlList.v
Pmksa.v
PmksaProps.v
PmksaSpec.v
WpaDemo.v
PmksaSafe.v
WpaSm.v
WpaHandshake.v
WpaOps.v
WpaFrame.v
WpaSteps.v
WpaSession.v
WpaKrack.v
WpaSafe.v
WpaRx.v
WpaMsgs.v
WpaForge.v
WpaBeacon.v
EapolClosed.v
WpaCalm.v
WpaSupplicant.v
WpaEapol.v
WpaBigtk.v
