(* ===== verification/Prelude.v ===== *)
(** * wpa_supplicant 2.10: a verification development of the supplicant and the EAP server

    This file is the root of the development and its prelude: bytes, machine
    integers, byte order, buffers and the record-update and option notations that
    all other files share.  The header describes the whole development.  Source
    files are named relative to src/wpa_supplicant-2.10/.

    ** The program and its parts

    wpa_supplicant keeps a station associated to a network.  The development covers
    the part that decides who is trusted and with which keys:

    - the EAP peer (src/eap_peer/eap.c), a state machine of 13 states that runs an
      authentication method and ends in SUCCESS or FAILURE, with its password methods
      EAP-MSCHAPv2 and EAP-MD5 (eap_mschapv2.c, eap_md5.c);
    - the EAP server (src/eap_server/eap_server.c), the authenticator of RFC 4137 with
      the pass-through to an AAA server, and its methods EAP-Identity, EAP-MD5 and
      EAP-MSCHAPv2: the other end of the conversation;
    - the EAPOL supplicant (src/eapol_supp/eapol_supp_sm.c), three IEEE 802.1X
      machines around it, which own the controlled port and receive EAPOL frames;
    - the WPA state machine (src/rsn_supp/wpa.c, wpa_ie.c) which runs the 4-way and
      group key handshakes, with its PMKSA cache (src/rsn_supp/pmksa_cache.c);
    - what these call: EAP messages, RSN elements, Key Data, key derivation, wpabuf,
      and Base64 of the configuration parser;
    - the internal cryptography (src/crypto/): AES with its modes, DES, MD4, MD5, SHA-1,
      SHA-2, HMAC, the PRFs and KDFs on top of them, RC4, the MS-CHAPv2 functions;
    - the event loop (src/utils/eloop.c) that calls all of it, with its lists (list.h).

    The EAP peer reads and writes the variables of its lower layer through struct
    eapol_callbacks; the EAPOL machine steps the peer from its own step function;
    the WPA state machine takes the master session key from the EAPOL machine
    (eapol_sm_get_key) and tells it when the key handshake is done
    (eapol_sm_notify_portValid).  Each of these borders is a type class in the
    client's file, with the laws its theorems need; the other side is an instance:
    [EapolCallbacks] (EapPeer.v) is discharged in EapolSupp.v and EapolProps.v,
    [EapolOps] (WpaSm.v) in WpaSupplicant.v, [EapMethods] (EapPeer.v) in EapMschapv2.v,
    [ServerMethods] (EapServer.v) in EapServerMethods.v and its laws in EapServerProps.v.

    ** Files

    Vocabulary and helpers
    - Prelude.v: src/utils/common.h byte order, buffers, [wrap], memcmp().
    - UtilsCommon.v: os_memcmp_const() and hexadecimal text of src/utils/common.c.
    - Base64.v: src/utils/base64.c.   Wpabuf.v: src/utils/wpabuf.c.
    - DlList.v: src/utils/list.h, circular lists on a heap of nodes.

    Event loop
    - Eloop.v: src/utils/eloop.c with select(); the global eloop is [eloop_data],
      eloop_run() is [eloop_run] over [run_once].  EloopProps.v: its theorems.

    Cryptography (src/crypto/)
    - Rc4.v: rc4.c.  AesWrap.v: aes-wrap.c, aes-unwrap.c over any block cipher.
    - AesTables.v, Aes.v: aes-internal.c, aes-internal-enc.c, aes-internal-dec.c;
      AesProps.v: decryption inverts encryption; AesFips.v: the cipher of FIPS-197 and
      the proof that they compute it.
    - AesModes.v: aes-encblock.c, aes-ctr.c, aes-cbc.c, aes-omac1.c.  AesSiv.v: aes-siv.c.
      aes-eax.c.  AesCcm.v: aes-ccm.c.  AesGcm.v: aes-gcm.c.  AesKat.v: published test
      vectors and the witnesses with the internal AES.
    - Des.v: des-internal.c; DesProps.v: DES of FIPS 46-3 and the proof that the
      combined tables compute it.  HashMd4.v: md4-internal.c.
    - MsFuncs.v: ms_funcs.c over the class [MsCrypto] of the functions it calls, with
      the internal crypto as the instance.
    - HashMd.v: block hashes in general, the streaming interface against the padded
      message.  HashSha1.v, HashMd5.v, HashSha2.v: sha1-internal.c, md5-internal.c,
      sha256-internal.c, sha384-internal.c, sha512-internal.c.  HashFips.v: FIPS 180-4 and
      RFC 1321, and the proof that they compute their hash functions.
    - HashHmac.v: md5.c, sha1.c, sha256.c, sha384.c (HMAC).  Crypto.v: sha1-prf.c,
      sha256-prf.c, sha384-prf.c.  Kdf.v: sha1-pbkdf2.c, sha1-tprf.c, the TLS PRFs and
      sha256-kdf.c, sha384-kdf.c.  HashKat.v: test vectors and the instances.

    EAP and EAPOL
    - EapCommon.v: src/eap_common/eap_common.c.
    - EapPeer.v: src/eap_peer/eap.c, eap_methods.c; struct eap_sm is the record
      [eap_sm], SM_STATE(EAP, X) is [EAP_X_Enter], SM_STEP(EAP) is [EAP_Step].
    - EapolSupp.v: src/eapol_supp/eapol_supp_sm.c; struct eapol_sm is [eapol_sm],
      and a [world] is the machine together with the EAP peer inside it.
    - EapMschapv2.v: src/eap_peer/eap_mschapv2.c, mschapv2.c, eap_md5.c and chap.c; the
      instance [password_methods].  EapMschapv2Props.v: its theorems.
    - EapServer.v: src/eap_server/eap_server.c; struct eap_sm of the server is
      [EapServer.eap_sm], with the same naming of states and steps as the peer.
      EapServerMethods.v: eap_server_methods.c, eap_server_identity.c, eap_server_md5.c,
      eap_server_mschapv2.c; the instance [password_server_methods].
      EapServerProps.v: theorems of the server.  EapInterop.v: peer and server together.
    - EapPeerProps.v, EapPeerNak.v, EapPeerFrame.v, EapolProps.v, EapolTimers.v,
      EapolKeys.v, EapolClosed.v: their theorems.

    WPA and RSN
    - WpaDefs.v: src/common/defs.h, wpa_common.h.  WpaCommon.v: src/common/wpa_common.c.
    - RsnIe.v: RSN and WPA elements.  KeyData.v: wpa_parse_kde_ies().
    - WpaTypes.v, Pmksa.v: the PMKSA cache, on an explicit heap of entries;
      PmksaProps.v, PmksaSpec.v, PmksaSafe.v: its invariant and its refinement.
    - WpaSm.v: struct wpa_sm and the EAPOL-Key messages it sends.
    - WpaHandshake.v: wpa_sm_rx_eapol() and the handshakes.  WpaOps.v: the entry
      points the rest of the program calls, and [wpa_op], any one of them.
    - WpaFrame.v, WpaSteps.v: what each function leaves alone, and every operation
      as a sequence of elementary steps ([prim]) on which invariants are proved once.
    - WpaSafe.v, WpaKrack.v, WpaRx.v, WpaBeacon.v, WpaMsgs.v, WpaForge.v, WpaBigtk.v:
      theorems.
    - WpaSupplicant.v: wpa_supplicant_rx_eapol() (wpa_supplicant/wpa_supplicant.c) and
      the WPA and EAPOL machines put together; WpaCalm.v, WpaEapol.v: its theorems.

    CryptoDemo.v, EapPeerDemo.v, EapolDemo.v, WpaDemo.v and WpaSession.v hold
    concrete environments, on which the witnesses run the definitions.

    ** How the code is modelled

    A C function is a Rocq function on records with the fields of the C structure,
    of the same name; a function that changes the structure returns the new one.
    Integers are Z, wrapped to their width where the code can wrap ([u8], [u16],
    [u32], [wrap]); buffers are lists of bytes with the size the code gives them,
    and a pointer into a received buffer is the rest of the buffer or an offset.
    Calls out of a component (driver, user interface, event loop, L2 socket) are
    events appended to a log in order, with their answers taken from an environment
    indexed by the number of the question, so that any sequence of answers is
    covered.  Allocation can fail, and so can every call that the code checks.
    The PMKSA cache keeps its pointers: [None] is an access to freed memory.

    The protocols use block cipher, keyed hashes and digests through the classes
    [AesCipher], [Hmac] and [Sha1] with the laws of their documentation (block and
    digest sizes, decryption inverts encryption), which the internal implementations
    discharge (AesKat.v, HashKat.v, MsFuncs.v).  EAP methods are the classes [EapMethods]
    and [ServerMethods].  The EAP server makes a NULL pointer that the code follows and a
    loop that does not end values of its [result] type.
    In the event loop the code of a handler is the list of eloop calls it makes.

    ** Theorems

    - Functional correctness and safety of the 4-way handshake: keys are installed
      only from authentic and fresh frames (WpaRx.v), never twice from the same
      nonces (WpaKrack.v), after the Beacon elements were confirmed (WpaBeacon.v);
      message 2/4 is the one the authenticator accepts (WpaMsgs.v, WpaCommon.v).
    - Types and memory safety: WpaSafe.v (where an allocation failure leaves the one
      unsafe state of the operations, which is singled out), PmksaSafe.v, KeyData.v, RsnIe.v, Base64.v,
      EapCommon.v.
    - Refinement: the PMKSA cache implements a sorted list (PmksaSafe.v).
    - Composition: in the combined program a closed port opens only for frames that
      prove knowledge of the PTK (WpaEapol.v).
    - The controlled port and the timers in every reachable state: EapolProps.v,
      EapolTimers.v, EapolKeys.v, EapolClosed.v.
    - EAP: what justifies SUCCESS, termination of the step function, answers to
      duplicates, Identity and Nak: EapPeerProps.v, EapPeerNak.v.
    - EAP-MSCHAPv2: in any run of the peer keys come only from a server that knows the
      password (EapMschapv2Props.v); peer and server of the repository agree on the MSK
      (EapInterop.v, with a whole conversation of the two machines evaluated).
    - EAP server: in every run it follows no NULL pointer, and its step function ends
      (EapServerProps.v); what a Nak leaves of the methods of a user.
    - Round trips: Base64, EAP messages, RSN elements, AES key wrap; CCM, GCM and SIV
      accept exactly what they produced (AesCcm.v, AesGcm.v, AesSiv.v).
    - Cryptography against its standards: AES is FIPS-197 (AesFips.v), OMAC1 is CMAC
      (AesModes.v), DES is FIPS 46-3 (DesProps.v), MD5 is RFC 1321 and SHA-1, SHA-256 and
      SHA-384 are FIPS 180-4 (HashFips.v), HMAC is RFC 2104 over them, HKDF and PBKDF2
      (HashKat.v), PTK derivation (WpaCommon.v).  MD4 and RC4 have test vectors only.
    - The event loop: invariant, fairness to due timeouts, safety (EloopProps.v); its
      pointer rings implement the list it is modelled with (DlList.v).
    - Defects found: WpaForge.v (group key from unauthenticated frames in WPA
      version 1), WpaSafe.v (a copy from NULL after an allocation failure), WpaBigtk.v (a Beacon protection key that is not given to the driver
      again), EapolKeys.v (a WEP key from uninitialised memory,
      a failed HMAC not noticed), PmksaSafe.v
      (an entry cloned for roaming breaks the order of expiration), EloopProps.v (an
      event of a closed descriptor delivered to the handler of its successor),
      HashSha2.v (a hash reported although memory ran out), AesModes.v (a read
      outside the buffers), EapServerProps.v (a NULL pointer followed after
      EAP-Initiate/Re-auth-Start), EapMschapv2Props.v (a valid Success request ignored).

    ** Bounds and fuel

    eap_peer_sm_step() loops until nothing changes: [EAP_STEP_FUEL] passes are
    enough (eap_peer_sm_step_terminates).  eapol_sm_step() stops after 100 passes by
    itself.  The Key Data and ERP parsers run on fuel equal to the length of their
    input, and their theorems include that it is not used up.  The fuel of
    [eloop_run] is a number of iterations: the loop runs as long as there is
    something to wait for, and its theorems hold after any number.  The step function of
    the EAP server has [SERVER_STEP_FUEL] passes and its rank is at most 100; its loop over
    the methods of a user has two rounds more than the user has methods, which is enough
    if the data of EAP-Identity can be allocated.  [carry_usec] has
    one unit for each second it carries, the loops over a ring one more than its length.

    ** Build options and assumptions

    EAP and EAPOL: CONFIG_ERP, PCSC_FUNCS, CONFIG_EAP_PROXY, CONFIG_MACSEC,
    CONFIG_FIPS and CONFIG_NO_RC4 off; CONFIG_CTRL_IFACE, CONFIG_WPS, CONFIG_WEP on.
    EAP server: CONFIG_ERP and CONFIG_TESTING_OPTIONS off.
    WPA: CONFIG_SAE, CONFIG_SUITEB, CONFIG_SUITEB192, CONFIG_WNM on; IEEE80211R,
    FILS, OCV, P2P, OWE, DPP, TDLS, HS20, SAE_PK, PASN, MESH, TESTING_OPTIONS,
    NO_TKIP, NO_RC4 and FIPS off.  Cryptography: AES_SMALL_TABLES, no FULL_UNROLL,
    CONFIG_CRYPTO_INTERNAL, a little-endian machine, TEST_FAIL() off.  Event loop: select(),
    a 64-bit long.  [sm->eapol] is set.  The callbacks of struct
    wpa_sm_ctx and struct eapol_ctx do not re-enter the machine that calls them
    (ctx->deauthenticate() is taken to act after the current frame).

    ** Not modelled

    Drivers, L2 sockets, os_unix.c and the control interfaces (I/O); network
    selection and configuration text (wpa_supplicant/); the other EAP methods, TLS, SAE, DPP,
    WPS, P2P and the rest of the hostapd side, which are protocols of their own, each of the size
    of what is modelled here; public-key cryptography, which is bound to foreign
    libraries; pre-authentication, FT and TDLS of src/rsn_supp, which run on the L2
    layer or are off in the modelled build; text output of the modelled parts. *)

From stdpp Require Export prelude.
From Stdlib Require Export ZArith Lia.
From Stdlib Require Import Btauto.

#[global] Open Scope Z_scope.

(** ** Notation scope of the development *)

Declare Scope wpa_scope.
Delimit Scope wpa_scope with wpa.

(** [s ▸ f] applies the next statement of a C function body to the state. *)
Notation "s '▸' f" := (f s) (at level 61, left associativity, only parsing) : wpa_scope.

(** Early return of a NULL / negative result. *)
Notation "'let?' x ':=' o 'in' k" :=
  (match o with Some x => k | None => None end)
  (at level 10, x pattern, k at level 200) : wpa_scope.

(** [guard! b; k]: the C idiom [if (!b) return NULL; ...]. *)
Notation "'guard!' b ';' k" := (if b then k else None)
  (at level 10, k at level 200) : wpa_scope.

#[global] Open Scope wpa_scope.

(** ** Record update

    C code assigns to the fields of one large struct.  [r <| f := v |>] is the
    record [r] with field [f] replaced.  A record type provides its
    eta-expansion ([Eta]); the setter of each projection is derived from it. *)

Class Eta (R : Type) := eta : R -> R.
Class Setter {R E : Type} (proj : R -> E) := over : (E -> E) -> R -> R.
#[global] Arguments over {R E} proj {_} f r.

Ltac derive_setter :=
  lazymatch goal with
  | |- @Setter ?R ?E ?proj =>
    let i := constr:(_ : Eta R) in
    let b := eval red in i in
    let upd := fresh "upd" in let r := fresh "r" in
    unfold Setter; intros upd r;
    let t := eval cbv beta in (b r) in
    lazymatch eval pattern (proj r) in t with
    | ?F _ => let v := eval cbv beta in (F (upd (proj r))) in exact v
    end
  end.

#[export] Hint Extern 1 (Setter _) => derive_setter : typeclass_instances.

Notation "r '<|' f ':=' v '|>'" := (over f (fun _ => v) r)
  (at level 12, left associativity, format "r  '<|'  f  ':='  v  '|>'") : wpa_scope.

(** Reduces projections of updated records. *)
Ltac simpl_rec := cbn [over] in *; cbv beta in *; cbn in *.

(** ** Machine integers and bytes

    A [w]-bit unsigned integer is a [Z] in [0 .. 2^w); C arithmetic that wraps
    is written with [wrap w].  A byte buffer is a [list Z] of bytes. *)

Definition wrap (w n : Z) : Z := n mod 2 ^ w.
Abbreviation u8 n := (wrap 8 n) (only parsing).
Abbreviation u16 n := (wrap 16 n) (only parsing).
Abbreviation u32 n := (wrap 32 n) (only parsing).
Abbreviation u64 n := (wrap 64 n) (only parsing).

Definition is_uint (w n : Z) : Prop := 0 <= n < 2 ^ w.
Abbreviation is_byte := (is_uint 8).
Abbreviation bytes := (list Z).
Definition bytes_ok (l : bytes) : Prop := Forall is_byte l.

#[global] Instance is_uint_dec w n : Decision (is_uint w n).
Proof. unfold is_uint. apply _. Defined.
#[global] Instance bytes_ok_dec l : Decision (bytes_ok l).
Proof. unfold bytes_ok. apply _. Defined.

(** Length of a buffer as a C [size_t]. *)
Definition zlen {A} (l : list A) : Z := Z.of_nat (length l).

(** Reading a byte inside a buffer whose bounds the caller has checked. *)
Definition byte_at (l : bytes) (i : nat) : Z := nth i l 0.

Create HintDb wpa discriminated.
#[export] Hint Constructors Forall : wpa.

(** *** Bounds *)

Lemma wrap_range w n : 0 <= w -> is_uint w (wrap w n).
Proof. intros. unfold is_uint, wrap. apply Z.mod_pos_bound. lia. Qed.

Lemma wrap_small w n : is_uint w n -> wrap w n = n.
Proof. apply Z.mod_small. Qed.

#[export] Hint Resolve wrap_range : wpa.

Lemma bytes_ok_app l k : bytes_ok (l ++ k) <-> bytes_ok l /\ bytes_ok k.
Proof. apply Forall_app. Qed.

Lemma bytes_ok_take n l : bytes_ok l -> bytes_ok (take n l).
Proof. apply Forall_take. Qed.

Lemma bytes_ok_drop n l : bytes_ok l -> bytes_ok (drop n l).
Proof. apply Forall_drop. Qed.

Lemma bytes_ok_replicate n x : is_byte x -> bytes_ok (replicate n x).
Proof. apply Forall_replicate. Qed.

#[export] Hint Resolve bytes_ok_take bytes_ok_drop bytes_ok_replicate : wpa.

Lemma zlen_app {A} (l k : list A) : zlen (l ++ k) = zlen l + zlen k.
Proof. unfold zlen. rewrite length_app. lia. Qed.

Lemma zlen_cons {A} (x : A) l : zlen (x :: l) = zlen l + 1.
Proof. unfold zlen. simpl. lia. Qed.

Lemma zlen_nil {A} : zlen (@nil A) = 0.
Proof. reflexivity. Qed.

Lemma zlen_nonneg {A} (l : list A) : 0 <= zlen l.
Proof. unfold zlen. lia. Qed.

Create Rewrite HintDb zlen.
#[export] Hint Rewrite @zlen_app @zlen_cons @zlen_nil : zlen.
#[export] Hint Resolve zlen_nonneg : wpa.

Lemma byte_at_ok l i : bytes_ok l -> is_byte (byte_at l i).
Proof.
  intros H. unfold byte_at. destruct (nth_in_or_default i l 0) as [Hi | ->].
  - rewrite <- list_elem_of_In in Hi. exact (proj1 (Forall_forall _ _) H _ Hi).
  - unfold is_uint. lia.
Qed.
#[export] Hint Resolve byte_at_ok : wpa.

(** *** Bitwise reasoning *)

Lemma testbit_uint_high w n i : is_uint w n -> 0 <= w <= i -> Z.testbit n i = false.
Proof.
  intros Hn Hi. rewrite <- (wrap_small w n Hn). unfold wrap.
  apply Z.mod_pow2_bits_high. lia.
Qed.

Lemma uint_of_testbit w n :
  0 <= w -> 0 <= n -> (forall i, w <= i -> Z.testbit n i = false) -> is_uint w n.
Proof.
  intros Hw Hn H. enough (n = wrap w n) as -> by auto with wpa.
  apply Z.bits_inj'. intros i Hi. unfold wrap.
  destruct (Z.lt_ge_cases i w).
  - now rewrite Z.mod_pow2_bits_low.
  - rewrite Z.mod_pow2_bits_high, H; lia || auto.
Qed.

Lemma is_uint_lor w a b : 0 <= w -> is_uint w a -> is_uint w b -> is_uint w (Z.lor a b).
Proof.
  intros Hw Ha Hb. apply uint_of_testbit; [done| |].
  - apply Z.lor_nonneg. unfold is_uint in *. lia.
  - intros i Hi. rewrite Z.lor_spec, !(testbit_uint_high w); auto; lia.
Qed.

Lemma is_uint_lxor w a b : 0 <= w -> is_uint w a -> is_uint w b -> is_uint w (Z.lxor a b).
Proof.
  intros Hw Ha Hb. apply uint_of_testbit; [done| |].
  - apply Z.lxor_nonneg. unfold is_uint in *. lia.
  - intros i Hi. rewrite Z.lxor_spec, !(testbit_uint_high w); auto; lia.
Qed.

Lemma is_uint_land_l w a b : 0 <= w -> is_uint w a -> is_uint w (Z.land a b).
Proof.
  intros Hw Ha. apply uint_of_testbit; [done| |].
  - apply Z.land_nonneg. unfold is_uint in *. lia.
  - intros i Hi. rewrite Z.land_spec, (testbit_uint_high w a); auto; lia.
Qed.

Lemma is_uint_shiftr w a k : 0 <= k -> is_uint w a -> is_uint w (Z.shiftr a k).
Proof.
  intros Hk [Ha Hb]. split; [now apply Z.shiftr_nonneg|].
  rewrite Z.shiftr_div_pow2 by lia. apply Z.le_lt_trans with a; [|done].
  apply Z.div_le_upper_bound; [lia|].
  assert (1 <= 2 ^ k) by (apply (Z.pow_le_mono_r 2 0); lia). nia.
Qed.

#[export] Hint Resolve is_uint_lor is_uint_lxor is_uint_land_l is_uint_shiftr : wpa.

Lemma uint_eq_bits w a b :
  0 <= w -> is_uint w a -> is_uint w b ->
  (forall i, 0 <= i < w -> Z.testbit a i = Z.testbit b i) -> a = b.
Proof.
  intros Hw Ha Hb H. apply Z.bits_inj'. intros i Hi.
  destruct (Z.lt_ge_cases i w); [auto|].
  rewrite !(testbit_uint_high w); auto; lia.
Qed.

Create Rewrite HintDb zbits.
#[global] Hint Rewrite Z.land_spec Z.lor_spec Z.lxor_spec Z.ldiff_spec : zbits.

(** Pushes [Z.testbit _ k] at a literal [k] down to the variables. *)
Ltac literal_bits :=
  unfold wrap;
  repeat first
    [ rewrite Z.mod_pow2_bits_high by lia
    | rewrite Z.mod_pow2_bits_low by lia
    | rewrite Z.shiftr_spec by lia
    | rewrite Z.shiftl_spec_low by lia
    | rewrite Z.shiftl_spec_high by lia
    | progress autorewrite with zbits
    | match goal with
      | |- context [Z.testbit ?a (?i + ?j)] =>
          let k := eval vm_compute in (i + j) in change (i + j) with k
      | |- context [Z.testbit ?a (?i - ?j)] =>
          let k := eval vm_compute in (i - j) in change (i - j) with k
      | |- context [Z.testbit (Zpos ?p) ?k] =>
          let v := eval vm_compute in (Z.testbit (Zpos p) k) in
          change (Z.testbit (Zpos p) k) with v
      | |- context [Z.testbit ?a ?k] =>
          rewrite (testbit_uint_high 8 a k) by (assumption || lia)
      end ];
  rewrite ?Z.testbit_0_l, ?andb_true_r, ?andb_false_r, ?orb_false_r, ?orb_false_l,
    ?andb_true_l, ?andb_false_l.

(** Proves an equation between bytes by comparing the eight bits. *)
Ltac byte_bits :=
  apply (uint_eq_bits 8); [lia | eauto with wpa lia | eauto with wpa lia |];
  let i := fresh "i" in let Hi := fresh "Hi" in
  intros i Hi;
  assert (i = 0 \/ i = 1 \/ i = 2 \/ i = 3 \/ i = 4 \/ i = 5 \/ i = 6 \/ i = 7) by lia;
  destruct_or!; subst i; clear Hi; literal_bits; try reflexivity; try btauto.

(** *** Statements about all bytes, by computation *)

Definition bytes256 : list Z := Z.of_nat <$> seq 0 256.

Lemma bytes256_in b : is_byte b -> b ∈ bytes256.
Proof.
  unfold is_uint. change (2 ^ 8) with 256. intros Hb. unfold bytes256. apply list_elem_of_fmap.
  exists (Z.to_nat b). split; [lia|]. apply elem_of_seq. lia.
Qed.

Lemma forall_byte (P : Z -> bool) :
  forallb P bytes256 = true -> forall b, is_byte b -> P b = true.
Proof.
  intros H b Hb. rewrite forallb_forall in H. apply H, list_elem_of_In, bytes256_in, Hb.
Qed.

(** [f] on bytes is [g] on bytes. *)
Ltac by_bytes b Hb :=
  apply Z.eqb_eq; revert b Hb; refine (forall_byte _ _); vm_compute; reflexivity.

Definition uint_bool (w n : Z) : bool := (0 <=? n) && (n <? 2 ^ w).

Lemma is_uint_bool w n : uint_bool w n = true -> is_uint w n.
Proof. unfold uint_bool, is_uint. intros [?%Z.leb_le ?%Z.ltb_lt]%andb_true_iff. lia. Qed.

Ltac byte_range b Hb :=
  apply is_uint_bool; revert b Hb; refine (forall_byte _ _); vm_compute; reflexivity.

(** *** Big-endian fields *)

(* utils/common.h WPA_GET_BE16 *)
Definition get_be16 (l : bytes) : Z := byte_at l 0 * 256 + byte_at l 1.
(* utils/common.h WPA_GET_BE24 *)
Definition get_be24 (l : bytes) : Z := (byte_at l 0 * 256 + byte_at l 1) * 256 + byte_at l 2.
(* utils/common.h WPA_GET_BE32 *)
Definition get_be32 (l : bytes) : Z := get_be16 l * 65536 + get_be16 (drop 2 l).
(* utils/common.h WPA_PUT_BE16 *)
Definition put_be16 (n : Z) : bytes := [u8 (n / 256); u8 n].
(* utils/common.h WPA_PUT_BE24 *)
Definition put_be24 (n : Z) : bytes := [u8 (n / 65536); u8 (n / 256); u8 n].
(* utils/common.h WPA_PUT_BE32 *)
Definition put_be32 (n : Z) : bytes := [u8 (n / 16777216); u8 (n / 65536); u8 (n / 256); u8 n].

(* utils/common.h WPA_PUT_BE64 *)
Definition put_be64 (n : Z) : bytes := put_be32 (n / 2 ^ 32) ++ put_be32 n.

(** *** Little-endian fields *)

(* utils/common.h WPA_GET_LE16 *)
Definition get_le16 (l : bytes) : Z := byte_at l 1 * 256 + byte_at l 0.
(* utils/common.h WPA_PUT_LE16 *)
Definition put_le16 (n : Z) : bytes := [u8 n; u8 (n / 256)].

Lemma byte_at_app_l (l k : bytes) i : (i < length l)%nat -> byte_at (l ++ k) i = byte_at l i.
Proof. intros. unfold byte_at. now apply app_nth1. Qed.

Lemma is_uint_wrap8 n : is_byte (u8 n).
Proof. apply wrap_range. lia. Qed.

Lemma put_be16_ok n : bytes_ok (put_be16 n).
Proof. repeat constructor; apply is_uint_wrap8. Qed.
Lemma put_be24_ok n : bytes_ok (put_be24 n).
Proof. repeat constructor; apply is_uint_wrap8. Qed.
Lemma put_be32_ok n : bytes_ok (put_be32 n).
Proof. repeat constructor; apply is_uint_wrap8. Qed.
Lemma put_le16_ok n : bytes_ok (put_le16 n).
Proof. repeat constructor; apply is_uint_wrap8. Qed.
#[export] Hint Resolve is_uint_wrap8 put_be16_ok put_be24_ok put_be32_ok put_le16_ok : wpa.

Lemma get_put_be16 n l : is_uint 16 n -> get_be16 (put_be16 n ++ l) = n.
Proof.
  unfold is_uint, get_be16, put_be16, byte_at, wrap. cbn -[Z.mul Z.add Z.div Z.modulo].
  intros. Z.div_mod_to_equations. lia.
Qed.

Lemma get_put_be16_wrap n l : get_be16 (put_be16 n ++ l) = u16 n.
Proof.
  unfold get_be16, put_be16, byte_at, wrap. cbn -[Z.mul Z.add Z.div Z.modulo].
  Z.div_mod_to_equations. lia.
Qed.

Lemma get_put_be24 n l : is_uint 24 n -> get_be24 (put_be24 n ++ l) = n.
Proof.
  unfold is_uint, get_be24, put_be24, byte_at, wrap. cbn -[Z.mul Z.add Z.div Z.modulo].
  intros. Z.div_mod_to_equations. lia.
Qed.

Lemma get_put_be32 n l : is_uint 32 n -> get_be32 (put_be32 n ++ l) = n.
Proof.
  unfold is_uint, get_be32, get_be16, put_be32, byte_at, wrap.
  cbn -[Z.mul Z.add Z.div Z.modulo]. intros. Z.div_mod_to_equations. lia.
Qed.

Lemma get_put_le16 n l : is_uint 16 n -> get_le16 (put_le16 n ++ l) = n.
Proof.
  unfold is_uint, get_le16, put_le16, byte_at, wrap. cbn -[Z.mul Z.add Z.div Z.modulo].
  intros. Z.div_mod_to_equations. lia.
Qed.

Lemma get_be16_range l : bytes_ok l -> is_uint 16 (get_be16 l).
Proof.
  intros H. unfold get_be16.
  pose proof (byte_at_ok l 0 H). pose proof (byte_at_ok l 1 H). unfold is_uint in *. lia.
Qed.
#[export] Hint Resolve get_be16_range : wpa.

(** *** Fixed-size arrays

    [memcpy(dst, src, len)] into an array: the rest of the array keeps its
    contents. *)

Definition overwrite (dst src : bytes) : bytes := src ++ drop (length src) dst.

Lemma length_overwrite dst src :
  (length src <= length dst)%nat -> length (overwrite dst src) = length dst.
Proof. intros. unfold overwrite. rewrite length_app, length_drop. lia. Qed.

Lemma take_overwrite dst src : take (length src) (overwrite dst src) = src.
Proof. unfold overwrite. now rewrite take_app_length. Qed.

Lemma take_overwrite' n dst src : n = length src -> take n (overwrite dst src) = src.
Proof. intros ->. apply take_overwrite. Qed.

(** A part of a buffer whose bounds the caller has checked. *)
Definition slice (off len : nat) (l : bytes) : bytes := take len (drop off l).

Lemma length_slice off len l : (off + len <= length l)%nat -> length (slice off len l) = len.
Proof. intros. unfold slice. rewrite length_take, length_drop. lia. Qed.

Lemma slice_ok off len l : bytes_ok l -> bytes_ok (slice off len l).
Proof. intros. unfold slice. auto with wpa. Qed.
#[export] Hint Resolve slice_ok : wpa.

Lemma slice_split n off len l :
  (n <= len)%nat -> slice off len l = slice off n l ++ slice (off + n) (len - n) l.
Proof.
  intros. unfold slice. rewrite <- (take_drop n (take len (drop off l))) at 1.
  rewrite take_take, Nat.min_l by lia. f_equal.
  rewrite skipn_firstn_comm, drop_drop. done.
Qed.

(** A buffer is its four consecutive parts. *)
Lemma cut4 n1 n2 n3 n4 l :
  length l = (n1 + n2 + n3 + n4)%nat ->
  l = slice 0 n1 l ++ slice n1 n2 l ++ slice (n1 + n2) n3 l ++ slice (n1 + n2 + n3) n4 l.
Proof.
  intros Hl. assert (l = slice 0 (n1 + n2 + n3 + n4) l) as Hall.
  { unfold slice. rewrite drop_0, <- Hl, firstn_all. done. }
  rewrite Hall at 1. rewrite (slice_split n1) by lia. f_equal.
  rewrite (slice_split n2) by lia. f_equal.
  rewrite (slice_split n3) by lia. f_equal; f_equal; lia.
Qed.

Lemma slice_middle a q m :
  slice (length (a ++ q ++ m) - (length q + length m)) (length q) (a ++ q ++ m) = q.
Proof.
  unfold slice. rewrite !length_app, drop_app_length' by lia. now rewrite take_app_length.
Qed.

(** memcmp() on buffers of equal length: sign of the lexicographic comparison. *)
Fixpoint memcmp (a b : bytes) : Z :=
  match a, b with
  | x :: a', y :: b' => if x =? y then memcmp a' b' else x - y
  | _, _ => 0
  end.

Lemma memcmp_refl a : memcmp a a = 0.
Proof. induction a as [|x a IH]; simpl; [done|]. now rewrite Z.eqb_refl. Qed.

(** *** Sequences given by a recurrence

    [extend step n l] is [l] with [n] more elements, each one made by [step] of those
    before it: the schedules of the ciphers and of the hash functions. *)
Section Extend.
Context {A : Type} (step : list A -> A) (d : A).

Definition extend (n : nat) (l : list A) : list A := Nat.iter n (fun l => l ++ [step l]) l.

Lemma extend_S n l : extend (S n) l = extend n l ++ [step (extend n l)].
Proof. reflexivity. Qed.

Lemma length_extend n l : length (extend n l) = (length l + n)%nat.
Proof. induction n as [|n IH]; [simpl; lia|]. rewrite extend_S, length_app, IH. simpl. lia. Qed.

Lemma nth_take_lt (l : list A) i j : (j < i)%nat -> nth j (take i l) d = nth j l d.
Proof. intros H. rewrite !nth_lookup. now rewrite lookup_take_lt. Qed.

Lemma extend_old n l i : (i < length l)%nat -> nth i (extend n l) d = nth i l d.
Proof.
  intros Hi. induction n as [|n IH]; [done|].
  rewrite extend_S, app_nth1, IH; [done|]. rewrite length_extend. lia.
Qed.

Lemma extend_new n l i : (length l <= i < length l + n)%nat ->
  nth i (extend n l) d = step (take i (extend n l)).
Proof.
  induction n as [|n IH]; [lia|]. intros Hi. rewrite extend_S.
  pose proof (length_extend n l) as Hl. destruct (Nat.eq_dec i (length l + n)) as [-> | Hn].
  - rewrite <- Hl, nth_middle, take_app_length. done.
  - rewrite app_nth1, take_app_le by lia. apply IH. lia.
Qed.
End Extend.

(** A loop over [0], ..., [n - 1] that keeps an invariant with its index. *)
Lemma fold_seq_inv {A} (P : nat -> A -> Prop) (f : A -> nat -> A) n s :
  (forall i s, (i < n)%nat -> P i s -> P (S i) (f s i)) -> P 0%nat s -> P n (fold_left f (seq 0 n) s).
Proof.
  intros Hf H. induction n as [|n IH]; [done|].
  rewrite seq_S, fold_left_app. apply Hf; [lia|]. apply IH. intros i s' Hi. apply Hf. lia.
Qed.
