(* ===== verification/UtilsCommon.v ===== *)
(** * Small helpers (src/utils/common.c, os_unix.c)

    Comparison in constant time and hexadecimal text.  A C string is the list of its
    bytes without the terminating NUL, which is what reading past the list gives. *)

From S2P Require Import Prelude.

(** Not zero when the bytes differ. *)
(* utils/os_unix.c os_memcmp_const *)
Definition os_memcmp_const (a b : bytes) : Z :=
  fold_left (fun res p => u8 (Z.lor res (Z.lxor p.1 p.2))) (zip a b) 0.

(** ** Constant-time comparison *)

Lemma lor_lxor_zero r x y : is_byte r -> is_byte x -> is_byte y ->
  is_byte (u8 (Z.lor r (Z.lxor x y))) /\ (u8 (Z.lor r (Z.lxor x y)) = 0 <-> r = 0 /\ x = y).
Proof.
  intros Hr Hx Hy. split; [auto with wpa|].
  rewrite wrap_small by (apply is_uint_lor, is_uint_lxor; auto; lia).
  rewrite Z.lor_eq_0_iff, Z.lxor_eq_0_iff. done.
Qed.

Lemma os_memcmp_const_zero a b :
  length a = length b -> bytes_ok a -> bytes_ok b -> (os_memcmp_const a b = 0 <-> a = b).
Proof.
  intros Hl Ha Hb. unfold os_memcmp_const.
  assert (forall r, is_byte r ->
    (fold_left (fun res p => u8 (Z.lor res (Z.lxor p.1 p.2))) (zip a b) r = 0 <-> r = 0 /\ a = b)) as G.
  { revert b Hl Hb. induction Ha as [|x a Hx Ha IH]; intros [|y b] Hl Hb r Hr; try discriminate; cbn.
    - tauto.
    - apply Forall_cons in Hb as [Hy Hb]. injection Hl as Hl.
      destruct (lor_lxor_zero r x y Hr Hx Hy) as [B Z]. rewrite IH, Z by done.
      split; [intros [[-> ->] ->]; done | intros [-> [= -> ->]]; done]. }
  rewrite G by (unfold is_uint; lia). tauto.
Qed.

(** ** Hexadecimal text *)

(* utils/common.c hex2num *)
Definition hex2num (c : Z) : Z :=
  if (48 <=? c) && (c <=? 57) then c - 48
  else if (97 <=? c) && (c <=? 102) then c - 97 + 10
  else if (65 <=? c) && (c <=? 70) then c - 65 + 10
  else -1.

(* utils/common.c hex2byte *)
Definition hex2byte (hex : bytes) : Z :=
  let a := hex2num (byte_at hex 0) in
  if a <? 0 then -1 else
  let b := hex2num (byte_at hex 1) in
  if b <? 0 then -1 else Z.lor (Z.shiftl a 4) b.

(** [len] is the number of bytes to read from twice as many characters. *)
(* utils/common.c hexstr2bin *)
Fixpoint hexstr2bin (len : nat) (hex : bytes) : option bytes :=
  match len with
  | O => Some []
  | S len =>
      let a := hex2byte hex in
      if a <? 0 then None else
      let? l := hexstr2bin len (drop 2 hex) in Some (a :: l)
  end.

(** The bytes hexstr2bin() has written when it meets what is not a digit. *)
(* utils/common.c hexstr2bin *)
Fixpoint hex_prefix (len : nat) (hex : bytes) : bytes :=
  match len with
  | O => []
  | S len => let a := hex2byte hex in if a <? 0 then [] else a :: hex_prefix len (drop 2 hex)
  end.

(** %02X and %02x *)
Definition hex_digit (n : Z) : Z := if n <? 10 then 48 + n else 55 + n.
Definition hex_digit_lower (n : Z) : Z := if n <? 10 then 48 + n else 87 + n.

(** The returned number of characters and the text in the buffer, up to the NUL: when there is no
    room for a byte, os_snprintf() has written what fits and the function ends. *)
(* utils/common.c _wpa_snprintf_hex *)
Fixpoint _wpa_snprintf_hex (buf_size : Z) (data : bytes) (uppercase : bool) : Z * bytes :=
  match data with
  | [] => (0, [])
  | b :: data =>
      let digit := if uppercase then hex_digit else hex_digit_lower in
      let text := [digit (b / 16); digit (b mod 16)] in
      if buf_size <=? 2 then (0, take (Z.to_nat (buf_size - 1)) text)
      else let '(n, rest) := _wpa_snprintf_hex (buf_size - 2) data uppercase in (n + 2, text ++ rest)
  end.
(* utils/common.c wpa_snprintf_hex *)
Definition wpa_snprintf_hex (buf_size : Z) (data : bytes) : Z * bytes := _wpa_snprintf_hex buf_size data false.
(* utils/common.c wpa_snprintf_hex_uppercase *)
Definition wpa_snprintf_hex_uppercase (buf_size : Z) (data : bytes) : Z * bytes := _wpa_snprintf_hex buf_size data true.

(** As reference: upper case, two characters a byte. *)
Definition hex_text (l : bytes) : bytes := concat ((fun b => [hex_digit (b / 16); hex_digit (b mod 16)]) <$> l).

Lemma wpa_snprintf_hex_uppercase_text l n : 2 * zlen l < n -> wpa_snprintf_hex_uppercase n l = (2 * zlen l, hex_text l).
Proof.
  unfold wpa_snprintf_hex_uppercase. revert n. induction l as [|b l IH]; intros n Hn; [done|].
  unfold zlen in *. cbn [length] in Hn. cbn [_wpa_snprintf_hex].
  destruct (Z.leb_spec n 2); [lia|]. rewrite IH by lia. f_equal. cbn [length]. lia.
Qed.

Lemma hex_text_ok l : bytes_ok l -> length (hex_text l) = (2 * length l)%nat /\ bytes_ok (hex_text l).
Proof.
  induction 1 as [|b l Hb Hl [IHn IHb]]; [split; [done | constructor]|].
  change (hex_text (b :: l)) with (hex_digit (b / 16) :: hex_digit (b mod 16) :: hex_text l).
  split; [cbn [length]; lia|].
  assert (forall n, 0 <= n < 16 -> is_byte (hex_digit n)) as Hd
    by (intros n Hn; unfold hex_digit, is_uint; destruct (Z.ltb_spec n 10); change (2 ^ 8) with 256; lia).
  unfold is_uint in Hb. change (2 ^ 8) with 256 in Hb.
  pose proof (Z.mod_pos_bound b 16 ltac:(lia)). pose proof (Z.div_lt_upper_bound b 16 16 ltac:(lia) ltac:(lia)).
  pose proof (Z.div_pos b 16 ltac:(lia) ltac:(lia)).
  constructor; [apply Hd; lia|]. constructor; [apply Hd; lia | exact IHb].
Qed.

Lemma hex2byte_hex b rest : is_byte b -> hex2byte (hex_digit (b / 16) :: hex_digit (b mod 16) :: rest) = b.
Proof. intros Hb. unfold hex2byte, byte_at. cbn [nth]. by_bytes b Hb. Qed.

Lemma hexstr2bin_hex_text l rest : bytes_ok l -> hexstr2bin (length l) (hex_text l ++ rest) = Some l.
Proof.
  intros Hl. induction Hl as [|b l Hb Hl IH]; [done|].
  change (hex_text (b :: l) ++ rest) with (hex_digit (b / 16) :: hex_digit (b mod 16) :: (hex_text l ++ rest)).
  cbn [length hexstr2bin]. rewrite hex2byte_hex by done.
  destruct (Z.ltb_spec b 0); [unfold is_uint in Hb; lia|].
  change (drop 2 (_ :: _ :: ?l)) with l. now rewrite IH.
Qed.

Lemma hex2num_nibble c : is_byte c -> hex2num c < 0 \/ 0 <= hex2num c < 16.
Proof. intros _. unfold hex2num. repeat case_match; lia. Qed.

Lemma hex2byte_byte hex : bytes_ok hex -> 0 <= hex2byte hex -> is_byte (hex2byte hex).
Proof.
  intros Hh. unfold hex2byte. destruct (hex2num_nibble (byte_at hex 0) ltac:(auto with wpa)) as [Ha | Ha].
  { rewrite (proj2 (Z.ltb_lt _ _)) by done. lia. }
  rewrite (proj2 (Z.ltb_ge _ _)) by lia.
  destruct (hex2num_nibble (byte_at hex 1) ltac:(auto with wpa)) as [Hb | Hb].
  { rewrite (proj2 (Z.ltb_lt _ _)) by done. lia. }
  rewrite (proj2 (Z.ltb_ge _ _)) by lia. intros _.
  apply is_uint_lor; [lia | | unfold is_uint; lia]. rewrite Z.shiftl_mul_pow2 by lia. unfold is_uint. lia.
Qed.

Lemma hexstr2bin_ok len hex l : bytes_ok hex -> hexstr2bin len hex = Some l -> length l = len /\ bytes_ok l.
Proof.
  revert hex l. induction len as [|len IH]; intros hex l Hh E; cbn [hexstr2bin] in E.
  - injection E as <-. split; [done | constructor].
  - destruct (Z.ltb_spec (hex2byte hex) 0) as [|Hp]; [discriminate|].
    destruct (hexstr2bin len (drop 2 hex)) as [k|] eqn:Ek; [|discriminate]. injection E as <-.
    destruct (IH (drop 2 hex) k (bytes_ok_drop 2 hex Hh) Ek) as [<- Hk]. split; [done|]. constructor; [|done].
    now apply hex2byte_byte.
Qed.
