(* ===== verification/Base64.v ===== *)
(** * Base64 (src/utils/base64.c)

    Encoder and decoder over byte lists, with the size computations of the
    allocated buffers.  [None] is the NULL return. *)

From S2P Require Import Prelude.

Module Base64.

(** ** Tables *)

Definition base64_alnum : bytes :=
  (Z.of_nat <$> seq 65 26) ++ (Z.of_nat <$> seq 97 26) ++ (Z.of_nat <$> seq 48 10).

(** "A..Za..z0..9+/" *)
(* base64.c base64_table @16-17 *)
Definition base64_table : bytes := base64_alnum ++ [43; 47].
(** "A..Za..z0..9-_" *)
(* base64.c base64_url_table @18-19 *)
Definition base64_url_table : bytes := base64_alnum ++ [45; 95].

(* base64.c #define BASE64_PAD *)
Definition BASE64_PAD : Z := 1.
Definition BASE64_LF : Z := 2.
Definition SIZE_MAX : Z := 2 ^ 64 - 1.
Definition chr_eq : Z := 61.
Definition chr_lf : Z := 10.

Definition has_flag (flags bit : Z) : bool := negb (Z.land flags bit =? 0).

(** ** Encoder *)

Section Encode.
Context (table : bytes) (add_pad : Z).

Definition tab (v : Z) : Z := byte_at table (Z.to_nat v).

(** One iteration of the 3-byte loop: the four characters it writes. *)
(* base64.c base64_gen_encode @51-54 *)
Definition enc_group (i0 i1 i2 : Z) : bytes :=
  [ tab (Z.land (Z.shiftr i0 2) 63);
    tab (Z.land (Z.lor (Z.shiftl (Z.land i0 3) 4) (Z.shiftr i1 4)) 63);
    tab (Z.land (Z.lor (Z.shiftl (Z.land i1 15) 2) (Z.shiftr i2 6)) 63);
    tab (Z.land i2 63) ].

(** The line feed the loop adds, and the line length afterwards. *)
(* base64.c base64_gen_encode @56-60 *)
Definition enc_lf (line_len : Z) : bytes * Z :=
  if has_flag add_pad BASE64_LF && (72 <=? line_len) then ([chr_lf], 0) else ([], line_len).

(** What is written after the loop: the last one or two input bytes, padding
    and the final line feed. *)
(* base64.c base64_gen_encode @63-80 *)
Definition enc_tail (src : bytes) (line_len : Z) : bytes :=
  let '(out, line_len) :=
    match src with
    | [] => ([], line_len)
    | i0 :: rest =>
        ([tab (Z.land (Z.shiftr i0 2) 63)] ++
         match rest with
         | [] =>
             [tab (Z.land (Z.shiftl (Z.land i0 3) 4) 63)] ++
             (if has_flag add_pad BASE64_PAD then [chr_eq] else [])
         | i1 :: _ =>
             [ tab (Z.land (Z.lor (Z.shiftl (Z.land i0 3) 4) (Z.shiftr i1 4)) 63);
               tab (Z.land (Z.shiftl (Z.land i1 15) 2) 63) ]
         end ++
         (if has_flag add_pad BASE64_PAD then [chr_eq] else []),
         line_len + 4)
    end in
  out ++ (if has_flag add_pad BASE64_LF && negb (line_len =? 0) then [chr_lf] else []).

(** The encoding loop with its continuation after the loop. *)
(* base64.c base64_gen_encode @50-61 *)
Fixpoint enc_loop (src : bytes) (line_len : Z) : bytes :=
  match src with
  | i0 :: i1 :: i2 :: rest =>
      let '(lf, line_len') := enc_lf (line_len + 4) in
      enc_group i0 i1 i2 ++ lf ++ enc_loop rest line_len'
  | _ => enc_tail src line_len
  end.

(** The size of the allocated output buffer. *)
(* base64.c base64_gen_encode @36-39 *)
Definition enc_olen (len : Z) : Z :=
  let olen := len * 4 / 3 + 4 in
  let olen := if has_flag add_pad BASE64_LF then olen + olen / 72 else olen in
  olen + 1.

(** [malloc_ok n]: whether os_malloc(n) succeeds. *)
(* base64.c base64_gen_encode *)
Definition base64_gen_encode (malloc_ok : Z -> bool) (src : bytes) : option bytes :=
  let len := zlen src in
  guard! negb (SIZE_MAX / 4 <=? len);
  guard! negb (u64 (enc_olen len) <? len);
  guard! malloc_ok (enc_olen len);
  Some (enc_loop src 0).

End Encode.

(** ** Decoder *)

Section Decode.
Context (table : bytes).

(** dtable[table[i]] = i for the 64 characters, dtable['='] = 0, 0x80 else. *)
(* base64.c base64_gen_decode @97-100 *)
Definition dtable : list Z :=
  <[Z.to_nat chr_eq := 0]>
    (fold_left (fun dt i => <[Z.to_nat (byte_at table i) := Z.of_nat i]> dt)
       (seq 0 64) (replicate 256 128)).

(** The table as a function, computed once per decoder. *)
Definition dlookup (dt : list Z) (c : Z) : Z := byte_at dt (Z.to_nat c).

(* base64.c base64_gen_decode @102-106 *)
Definition dec_count (dt : list Z) (src : bytes) : Z :=
  zlen (filter (fun c => dlookup dt c <> 128) src).

(* base64.c base64_gen_decode @134-136 *)
Definition dec_group (block : list Z) : bytes :=
  let b i := byte_at block i in
  [ u8 (Z.lor (Z.shiftl (b 0%nat) 2) (Z.shiftr (b 1%nat) 4));
    u8 (Z.lor (Z.shiftl (b 1%nat) 4) (Z.shiftr (b 2%nat) 2));
    u8 (Z.lor (Z.shiftl (b 2%nat) 6) (b 3%nat)) ].

(** The decoding loop: [block] holds [count] values, [out] what was written. *)
(* base64.c base64_gen_decode @117-151 *)
Fixpoint dec_loop (dt : list Z) (src : bytes) (block : list Z) (pad : nat)
    (out : bytes) : option bytes :=
  match src with
  | [] => Some out
  | val :: rest =>
      let tmp := dlookup dt val in
      if tmp =? 128 then dec_loop dt rest block pad out else
      let pad := if val =? chr_eq then S pad else pad in
      let block := block ++ [tmp] in
      if (length block =? 4)%nat then
        let out := out ++ dec_group block in
        match pad with
        | O => dec_loop dt rest [] pad out
        | 1%nat => Some (take (length out - 1) out)
        | 2%nat => Some (take (length out - 2) out)
        | _ => None
        end
      else dec_loop dt rest block pad out
  end.

(* base64.c base64_gen_decode @110-112 *)
Definition dec_extra_pad (count : Z) : Z := (4 - count mod 4) mod 4.
Definition dec_olen (count : Z) : Z := (count + dec_extra_pad count) / 4 * 3.

(* base64.c base64_gen_decode *)
Definition base64_gen_decode (malloc_ok : Z -> bool) (src : bytes) : option bytes :=
  let dt := dtable in
  let count := dec_count dt src in
  guard! negb (count =? 0);
  guard! malloc_ok (dec_olen count);
  dec_loop dt (src ++ replicate (Z.to_nat (dec_extra_pad count)) chr_eq) [] 0 [].

End Decode.

(* base64.c base64_encode *)
Definition base64_encode := base64_gen_encode base64_table (Z.lor BASE64_PAD BASE64_LF).
(* base64.c base64_encode_no_lf *)
Definition base64_encode_no_lf := base64_gen_encode base64_table BASE64_PAD.
(* base64.c base64_url_encode *)
Definition base64_url_encode := base64_gen_encode base64_url_table 0.
(* base64.c base64_decode *)
Definition base64_decode := base64_gen_decode base64_table.
(* base64.c base64_url_decode *)
Definition base64_url_decode := base64_gen_decode base64_url_table.

(** ** What the encoder and decoder rely on about a table *)

Definition table_okb (table : bytes) : bool :=
  let dt := dtable table in
  forallb (fun v => (dlookup dt (byte_at table v) =? Z.of_nat v)
                    && negb (byte_at table v =? chr_eq)) (seq 0 64)
  && (dlookup dt chr_eq =? 0) && (dlookup dt chr_lf =? 128).

Lemma base64_table_ok : table_okb base64_table = true.
Proof. vm_compute. reflexivity. Qed.

Lemma base64_url_table_ok : table_okb base64_url_table = true.
Proof. vm_compute. reflexivity. Qed.

#[local] Hint Resolve base64_table_ok base64_url_table_ok : wpa.

Section TableFacts.
Context (table : bytes) (Htab : table_okb table = true).
Abbreviation dt := (dtable table).

Lemma dlookup_tab v : 0 <= v < 64 -> dlookup dt (tab table v) = v /\ tab table v <> chr_eq.
Proof.
  intros Hv. unfold table_okb in Htab.
  apply andb_true_iff in Htab as [[H _]%andb_true_iff _].
  rewrite forallb_forall in H. specialize (H (Z.to_nat v)).
  rewrite in_seq in H. specialize (H ltac:(lia)).
  apply andb_true_iff in H as [H1%Z.eqb_eq H2%negb_true_iff%Z.eqb_neq].
  unfold tab. split; [|done]. rewrite H1. lia.
Qed.

Lemma dlookup_eq : dlookup dt chr_eq = 0.
Proof. unfold table_okb in Htab. apply andb_true_iff in Htab as [[_ H%Z.eqb_eq]%andb_true_iff _]. done. Qed.

Lemma dlookup_lf : dlookup dt chr_lf = 128.
Proof. unfold table_okb in Htab. apply andb_true_iff in Htab as [_ H%Z.eqb_eq]. done. Qed.

Lemma land_63_range x : 0 <= Z.land x 63 < 64.
Proof.
  change 63 with (Z.ones 6). rewrite Z.land_ones by lia. apply Z.mod_pos_bound. lia.
Qed.

(** Consuming one table character. *)
Lemma dec_loop_tab v src block out :
  0 <= v < 64 -> (length block < 3)%nat ->
  dec_loop dt (tab table v :: src) block 0 out = dec_loop dt src (block ++ [v]) 0 out.
Proof.
  intros Hv Hb. destruct (dlookup_tab v Hv) as [E Hne]. cbn [dec_loop].
  rewrite E. destruct (Z.eqb_spec v 128); [lia|].
  destruct (Z.eqb_spec (tab table v) chr_eq); [done|].
  rewrite length_app. cbn [length].
  destruct (Nat.eqb_spec (length block + 1) 4); [lia|done].
Qed.

Lemma dec_loop_tab4 v src block out :
  0 <= v < 64 -> length block = 3%nat ->
  dec_loop dt (tab table v :: src) block 0 out
  = dec_loop dt src [] 0 (out ++ dec_group (block ++ [v])).
Proof.
  intros Hv Hb. destruct (dlookup_tab v Hv) as [E Hne]. cbn [dec_loop].
  rewrite E. destruct (Z.eqb_spec v 128); [lia|].
  destruct (Z.eqb_spec (tab table v) chr_eq); [done|].
  rewrite length_app, Hb. done.
Qed.

Lemma dec_loop_lf src block pad out :
  dec_loop dt (chr_lf :: src) block pad out = dec_loop dt src block pad out.
Proof. cbn [dec_loop]. now rewrite dlookup_lf. Qed.

Ltac dec_eq_step :=
  change (0 =? 128) with false; change (chr_eq =? chr_eq) with true; cbv beta iota zeta.

(** Padding characters complete the last block. *)
Lemma dec_loop_eq1 block src out :
  length block = 3%nat ->
  dec_loop dt (chr_eq :: src) block 0 out
  = Some (take (length out + 2) (out ++ dec_group (block ++ [0]))).
Proof.
  intros Hb. cbn [dec_loop]. rewrite dlookup_eq. dec_eq_step. rewrite length_app, Hb.
  cbn [length Nat.add Nat.eqb]. rewrite length_app. cbn [length dec_group]. do 2 f_equal. lia.
Qed.

Lemma dec_loop_eq2 block src out :
  length block = 2%nat ->
  dec_loop dt (chr_eq :: chr_eq :: src) block 0 out
  = Some (take (length out + 1) (out ++ dec_group (block ++ [0] ++ [0]))).
Proof.
  intros Hb. cbn [dec_loop]. rewrite dlookup_eq. dec_eq_step.
  rewrite !length_app, Hb. cbn [length Nat.add Nat.eqb]. rewrite <- app_assoc.
  cbn [length dec_group]. do 2 f_equal. lia.
Qed.

(** The three bytes of a group come back. *)
Lemma dec_group_enc i0 i1 i2 :
  is_byte i0 -> is_byte i1 -> is_byte i2 ->
  dec_group
    [ Z.land (Z.shiftr i0 2) 63;
      Z.land (Z.lor (Z.shiftl (Z.land i0 3) 4) (Z.shiftr i1 4)) 63;
      Z.land (Z.lor (Z.shiftl (Z.land i1 15) 2) (Z.shiftr i2 6)) 63;
      Z.land i2 63 ] = [i0; i1; i2].
Proof. intros. cbv [dec_group byte_at nth]. repeat f_equal; byte_bits. Qed.

(** Induction three bytes at a time. *)
Lemma bytes_ind3 (P : bytes -> Prop) :
  (forall l, (length l < 3)%nat -> P l) ->
  (forall a b c l, P l -> P (a :: b :: c :: l)) ->
  forall l, P l.
Proof.
  intros Hs Hc l. remember (length l) as n eqn:E. revert l E.
  induction n as [n IH] using lt_wf_ind. intros l ->.
  destruct l as [|a [|b [|c l]]]; try (apply Hs; simpl; lia).
  apply Hc, (IH (length l)); simpl; lia.
Qed.

Lemma dec_count_app l k : dec_count dt (l ++ k) = dec_count dt l + dec_count dt k.
Proof. unfold dec_count. now rewrite filter_app, zlen_app. Qed.

Lemma dec_count_cons c k :
  dec_count dt (c :: k) = (if decide (dlookup dt c <> 128) then 1 else 0) + dec_count dt k.
Proof.
  unfold dec_count. rewrite filter_cons. destruct (decide _); rewrite ?zlen_cons; lia.
Qed.

Lemma dec_count_tab v k : 0 <= v < 64 -> dec_count dt (tab table v :: k) = 1 + dec_count dt k.
Proof.
  intros Hv. rewrite dec_count_cons.
  destruct (dlookup_tab v Hv) as [-> _]. rewrite decide_True by lia. done.
Qed.

Lemma dec_count_eq k : dec_count dt (chr_eq :: k) = 1 + dec_count dt k.
Proof. rewrite dec_count_cons, dlookup_eq. rewrite decide_True by lia. done. Qed.

Lemma dec_count_lf k : dec_count dt (chr_lf :: k) = dec_count dt k.
Proof.
  rewrite dec_count_cons, dlookup_lf.
  rewrite decide_False by lia. lia.
Qed.

Lemma dec_count_nonneg k : 0 <= dec_count dt k.
Proof. apply zlen_nonneg. Qed.

Lemma dec_count_le k : dec_count dt k <= zlen k.
Proof. unfold dec_count, zlen. pose proof (length_filter (λ c, dlookup dt c ≠ 128) k). lia. Qed.

Lemma dec_count_nil : dec_count dt [] = 0.
Proof. done. Qed.

Lemma dec_extra_pad_add4 n : dec_extra_pad (4 + n) = dec_extra_pad n.
Proof. unfold dec_extra_pad. do 2 f_equal. Z.div_mod_to_equations. lia. Qed.

End TableFacts.

#[local] Hint Rewrite dec_count_tab dec_count_eq dec_count_lf dec_count_nil
  using first [assumption | apply land_63_range] : zlen.

#[local] Opaque tab dtable.

(** ** Round trip *)

Section RoundTrip.
Context (table : bytes) (Htab : table_okb table = true) (add_pad : Z).
Abbreviation dt := (dtable table).

(** The input the decoding loop runs over for an encoding [e]. *)
Definition dec_input (e : bytes) : bytes :=
  e ++ replicate (Z.to_nat (dec_extra_pad (dec_count dt e))) chr_eq.

Lemma dec_loop_lf_opt (b : bool) src block pad out :
  dec_loop dt ((if b then [chr_lf] else []) ++ src) block pad out = dec_loop dt src block pad out.
Proof. destruct b; [apply (dec_loop_lf _ Htab)|done]. Qed.

Lemma dec_count_lf_opt (b : bool) k :
  dec_count dt ((if b then [chr_lf] else []) ++ k) = dec_count dt k.
Proof. destruct b; [apply (dec_count_lf _ Htab)|done]. Qed.

Ltac tab_steps :=
  repeat (rewrite (dec_loop_tab _ Htab) by first [apply land_63_range | simpl; lia]).

(** The last one or two bytes, with or without padding characters. *)
Lemma dec_loop_tail src ll out :
  bytes_ok src -> (length src < 3)%nat ->
  dec_loop dt (dec_input (enc_tail table add_pad src ll)) [] 0 out = Some (out ++ src).
Proof.
  intros Hok Hlen. unfold dec_input, enc_tail.
  destruct src as [|i0 [|i1 [|? ?]]]; [| | |simpl in Hlen; lia].
  - cbn [app]. set (b := _ && negb _).
    rewrite <- (app_nil_r (if b then _ else _)), dec_count_lf_opt, <- app_assoc.
    rewrite dec_loop_lf_opt. cbn. now rewrite app_nil_r.
  - set (b := _ && negb _). apply Forall_cons in Hok as [H0 _].
    destruct (has_flag add_pad BASE64_PAD) eqn:Hp.
    + cbn [app]. tab_steps.
      cbn [app]. rewrite (dec_loop_eq2 _ Htab) by done. f_equal.
      rewrite take_app_add. f_equal. cbv [dec_group byte_at nth app take].
      f_equal. byte_bits.
    + cbn [app]. tab_steps.
      rewrite <- (app_nil_r (if b then _ else _)).
      rewrite <- app_assoc, dec_loop_lf_opt.
      rewrite !(dec_count_tab _ Htab) by apply land_63_range.
      rewrite dec_count_lf_opt, dec_count_nil.
      change (replicate _ _) with [chr_eq; chr_eq]. cbn [app].
      rewrite (dec_loop_eq2 _ Htab) by done. f_equal.
      rewrite take_app_add. f_equal. cbv [dec_group byte_at nth app take].
      f_equal. byte_bits.
  - set (b := _ && negb _). apply Forall_cons in Hok as [H0 [H1 _]%Forall_cons].
    destruct (has_flag add_pad BASE64_PAD) eqn:Hp.
    + cbn [app]. tab_steps.
      cbn [app]. rewrite (dec_loop_eq1 _ Htab) by done. f_equal.
      rewrite take_app_add. f_equal. cbv [dec_group byte_at nth app take].
      repeat f_equal; byte_bits.
    + cbn [app]. tab_steps.
      rewrite <- (app_nil_r (if b then _ else _)).
      rewrite <- app_assoc, dec_loop_lf_opt.
      rewrite !(dec_count_tab _ Htab) by apply land_63_range.
      rewrite dec_count_lf_opt, dec_count_nil.
      change (replicate _ _) with [chr_eq]. cbn [app].
      rewrite (dec_loop_eq1 _ Htab) by done. f_equal.
      rewrite take_app_add. f_equal. cbv [dec_group byte_at nth app take].
      repeat f_equal; byte_bits.
Qed.

(** One full group, with the line feed that may follow it. *)
Lemma dec_loop_group i0 i1 i2 e out :
  is_byte i0 -> is_byte i1 -> is_byte i2 ->
  dec_loop dt (enc_group table i0 i1 i2 ++ e) [] 0 out = dec_loop dt e [] 0 (out ++ [i0; i1; i2]).
Proof.
  intros H0 H1 H2. unfold enc_group. cbn [app]. tab_steps.
  rewrite (dec_loop_tab4 _ Htab) by first [apply land_63_range | done].
  cbn [app]. now rewrite dec_group_enc.
Qed.

Lemma dec_count_group i0 i1 i2 e :
  dec_count dt (enc_group table i0 i1 i2 ++ e) = 4 + dec_count dt e.
Proof.
  unfold enc_group. cbn [app]. rewrite !(dec_count_tab _ Htab) by apply land_63_range. lia.
Qed.

Lemma enc_lf_out ll :
  exists b : bool, (enc_lf add_pad ll).1 = (if b then [chr_lf] else []).
Proof. unfold enc_lf. case_match; [exists true|exists false]; done. Qed.

Lemma dec_loop_enc src : forall ll out,
  bytes_ok src ->
  dec_loop dt (dec_input (enc_loop table add_pad src ll)) [] 0 out = Some (out ++ src).
Proof.
  induction src as [l Hl | i0 i1 i2 l IH] using bytes_ind3; intros ll out Hok.
  - replace (enc_loop table add_pad l ll) with (enc_tail table add_pad l ll).
    + now apply dec_loop_tail.
    + destruct l as [|? [|? [|? ?]]]; done || (simpl in Hl; lia).
  - apply Forall_cons in Hok as [H0 [H1 [H2 Hok]%Forall_cons]%Forall_cons].
    cbn [enc_loop]. destruct (enc_lf add_pad (ll + 4)) as [lf ll'] eqn:E.
    destruct (enc_lf_out (ll + 4)) as [b Hb]. rewrite E in Hb. cbn in Hb. subst lf.
    unfold dec_input. rewrite dec_count_group, dec_count_lf_opt, dec_extra_pad_add4.
    rewrite <- !app_assoc, dec_loop_group, dec_loop_lf_opt by done.
    change (_ ++ replicate _ _) with (dec_input (enc_loop table add_pad l ll')).
    rewrite IH by done. now rewrite <- app_assoc.
Qed.

Lemma dec_count_enc_pos src ll :
  src <> [] -> 0 < dec_count dt (enc_loop table add_pad src ll).
Proof.
  destruct src as [|i0 [|i1 [|i2 l]]]; [done| | |]; intros _.
  1, 2: cbn [enc_loop]; unfold enc_tail; cbn [app];
    rewrite (dec_count_tab _ Htab) by apply land_63_range.
  3: cbn [enc_loop]; destruct (enc_lf _ _); rewrite dec_count_group.
  all: match goal with |- 0 < _ + dec_count _ ?k => pose proof (dec_count_nonneg table k); lia end.
Qed.

End RoundTrip.

(** *** Sizes *)

Section Sizes.
Context (table : bytes) (add_pad : Z).
Abbreviation dt := (dtable table).
Abbreviation lf := (has_flag add_pad BASE64_LF).

Lemma has_flag_lf_len ll : zlen (enc_lf add_pad ll).1 = if lf && (72 <=? ll) then 1 else 0.
Proof. unfold enc_lf. now destruct (_ && _). Qed.

Lemma dec_group_length b : length (dec_group b) = 3%nat.
Proof. reflexivity. Qed.

Lemma group_div n : (n + 1 + 1 + 1 + 2) / 3 = (n + 2) / 3 + 1.
Proof. replace (n + 1 + 1 + 1 + 2) with (1 * 3 + (n + 2)) by lia. rewrite Z.div_add_l; lia. Qed.

(** Characters written for [src] when the current line already holds [ll]. *)
Lemma enc_loop_length src : forall ll,
  (lf = true -> 0 <= ll < 72 /\ ll mod 4 = 0) ->
  let e := zlen (enc_loop table add_pad src ll) in
  let c := (zlen src + 2) / 3 * 4 in
  e <= c + (if lf then (ll + c + 71) / 72 else 0).
Proof.
  induction src as [l Hl | i0 i1 i2 l IH] using bytes_ind3; intros ll Hll.
  - destruct l as [|i0 [|i1 [|? ?]]]; [| | |simpl in Hl; lia];
      cbn [enc_loop]; unfold enc_tail; destruct lf; try specialize (Hll eq_refl);
      destruct (has_flag add_pad BASE64_PAD); cbn [app andb];
      try case_match; unfold zlen; cbn [app length];
      Z.div_mod_to_equations; lia.
  - cbn [enc_loop]. unfold enc_lf. destruct lf; cbn [andb].
    + specialize (Hll eq_refl).
      destruct (Z.leb_spec 72 (ll + 4)) as [Hf|Hf];
        [specialize (IH 0 ltac:(done)) | specialize (IH (ll + 4))].
      2: specialize (IH ltac:(intros _; Z.div_mod_to_equations; lia)).
      all: cbv zeta in *; unfold enc_group; autorewrite with zlen; rewrite group_div.
      * replace ll with 68 in * by (Z.div_mod_to_equations; lia).
        replace (68 + _ + 71) with (1 * 72 + (0 + (zlen l + 2) / 3 * 4 + 71)) by lia.
        rewrite Z.div_add_l by lia. lia.
      * replace (ll + ((zlen l + 2) / 3 + 1) * 4 + 71)
          with (ll + 4 + (zlen l + 2) / 3 * 4 + 71) by lia. lia.
    + specialize (IH (ll + 4) ltac:(done)). cbv zeta in *.
      unfold enc_group. autorewrite with zlen. rewrite group_div. lia.
Qed.

Lemma enc_olen_bound len : 0 <= len < SIZE_MAX / 4 -> len < enc_olen add_pad len < SIZE_MAX.
Proof. unfold enc_olen, SIZE_MAX. intros. destruct lf; Z.div_mod_to_equations; lia. Qed.

Lemma enc_olen_no_overflow len :
  0 <= len < SIZE_MAX / 4 -> (u64 (enc_olen add_pad len) <? len) = false.
Proof.
  intros H. pose proof (enc_olen_bound len H). rewrite wrap_small.
  - apply Z.ltb_ge. lia.
  - unfold is_uint, SIZE_MAX in *. lia.
Qed.

(** The decoding loop writes three bytes per four accepted characters. *)
Lemma dec_loop_length src : forall block pad out r,
  (length block < 4)%nat ->
  dec_loop dt src block pad out = Some r ->
  (zlen r + 2) / 3 <= (zlen out + 2) / 3 + (zlen block + dec_count dt src) / 4.
Proof.
  induction src as [|c src IH]; intros block pad out r Hb H.
  - cbn [dec_loop] in H. simplify_eq.
    pose proof (Z.div_pos (zlen block + dec_count dt []) 4). unfold dec_count in *.
    pose proof (zlen_nonneg block). cbn in *. rewrite zlen_nil in *. lia.
  - cbn [dec_loop] in H. rewrite dec_count_cons.
    destruct (Z.eqb_spec (dlookup dt c) 128) as [E|E].
    { rewrite decide_False by lia. eapply IH; eauto. }
    rewrite decide_True by done. rewrite length_app in H. cbn [length] in H.
    pose proof (dec_count_nonneg table src) as Hc. pose proof (zlen_nonneg out).
    destruct (Nat.eqb_spec (length block + 1) 4) as [E4|E4].
    + assert (Hz : zlen block = 3) by (unfold zlen; lia).
      repeat case_match; simplify_eq.
      all: first
        [ apply IH in H; [|simpl; lia]; autorewrite with zlen in H;
          unfold dec_group in H; autorewrite with zlen in H;
          revert H; Z.div_mod_to_equations; lia
        | rewrite length_app, dec_group_length; unfold zlen in *;
          rewrite length_take, length_app, dec_group_length;
          Z.div_mod_to_equations; lia ].
    + apply IH in H; [|rewrite length_app; simpl; lia]. autorewrite with zlen in H.
      replace (zlen block + (1 + dec_count dt src)) with (zlen block + (0 + 1) + dec_count dt src) by lia.
      done.
Qed.

End Sizes.

(** ** Properties *)

#[local] Transparent dtable.



(** The encoder never writes past the buffer it allocated: the characters
    and the terminating NUL fit in [enc_olen] bytes, for every flag set and
    every input length the encoder accepts, and the size computation did not
    wrap around. *)
Theorem base64_encode_in_buffer table flags malloc_ok src e :
  base64_gen_encode table flags malloc_ok src = Some e ->
  zlen e + 1 <= enc_olen flags (zlen src) < SIZE_MAX.
Proof.
  unfold base64_gen_encode. pose proof (zlen_nonneg src).
  destruct (Z.leb_spec (SIZE_MAX / 4) (zlen src)) as [|Hlen]; [done|]. cbn [negb].
  rewrite enc_olen_no_overflow by done. cbn [negb]. case_match; [|done]. intros ?. simplify_eq.
  split; [|now apply enc_olen_bound].
  pose proof (enc_loop_length table flags src 0 ltac:(done)) as Hl. cbv zeta in Hl.
  unfold enc_olen. destruct (has_flag flags BASE64_LF); Z.div_mod_to_equations; lia.
Qed.

Lemma base64_encode_in_buffer_witness :
  zlen [81; 81; 61; 61; 10] + 1 <= enc_olen 3 (zlen [65]) < SIZE_MAX.
Proof.
  apply (base64_encode_in_buffer base64_table 3 (fun _ => true) [65]). vm_compute. reflexivity.
Defined.

(** The decoder never writes past the buffer it allocated: the bytes
    written, in groups of three, fit in [dec_olen count] bytes, whatever the
    characters of the input. *)
Theorem base64_decode_in_buffer table malloc_ok src out :
  base64_gen_decode table malloc_ok src = Some out ->
  (zlen out + 2) / 3 * 3 <= dec_olen (dec_count (dtable table) src).
Proof.
  unfold base64_gen_decode. set (n := dec_count (dtable table) src).
  repeat (case_match; [|done]). intros H1%dec_loop_length; [|simpl; lia].
  rewrite dec_count_app in H1. fold n in H1.
  pose proof (dec_count_le table (replicate (Z.to_nat (dec_extra_pad n)) chr_eq)) as Hp.
  unfold zlen in Hp. rewrite length_replicate in Hp. unfold dec_olen.
  assert (0 <= dec_extra_pad n) by (unfold dec_extra_pad; Z.div_mod_to_equations; lia).
  rewrite Z2Nat.id in Hp by done. autorewrite with zlen in H1. revert H1 Hp.
  generalize (dec_count (dtable table) (replicate (Z.to_nat (dec_extra_pad n)) chr_eq)).
  generalize (dec_extra_pad n). intros. Z.div_mod_to_equations. lia.
Qed.

Lemma base64_decode_in_buffer_witness :
  (zlen [65] + 2) / 3 * 3 <= dec_olen (dec_count (dtable base64_table) [81; 81; 61; 61; 10]).
Proof.
  apply (base64_decode_in_buffer base64_table (fun _ => true) [81; 81; 61; 61; 10] [65]).
  vm_compute. reflexivity.
Defined.

End Base64.
