(* ===== verification/Rc4.v ===== *)
(** * RC4 (src/crypto/rc4.c)

    The key schedule and the stream of rc4_skip() as written, with the state
    array [S] as a list of 256 bytes.  The functional properties: encryption is
    an involution, the state array stays a permutation of 0..255, and the
    [skip] argument discards key stream. *)

From S2P Require Import Prelude.

(** [S[a]] for a byte index that the code has masked with [& 0xff]. *)
Definition s_at (S : bytes) (a : Z) : Z := byte_at S (Z.to_nat a).

(* rc4.c S_SWAP *)
Definition S_SWAP (a b : Z) (S : bytes) : bytes :=
  let t := s_at S a in
  let S := <[Z.to_nat a := s_at S b]> S in
  <[Z.to_nat b := t]> S.

(** The variables [i], [j] and [S] of the function. *)
Record rc4_state := Rc4State { rc4_i : Z; rc4_j : Z; rc4_S : bytes }.

(** [for (i = 0; i < 256; i++) S[i] = i;] *)
Definition rc4_identity : bytes := Z.of_nat <$> seq 0 256.

(** The key schedule: [n] rounds are left, [kpos] walks over the key. *)
Fixpoint rc4_schedule (n : nat) (key : bytes) (i j : Z) (kpos : nat) (S : bytes) : bytes :=
  match n with
  | O => S
  | Datatypes.S n =>
      let j := Z.land (j + s_at S i + byte_at key kpos) 0xff in
      let kpos := Datatypes.S kpos in
      let kpos := if (length key <=? kpos)%nat then O else kpos in
      rc4_schedule n key (i + 1) j kpos (S_SWAP i j S)
  end.

(* rc4.c rc4_skip @24-36 *)
Definition rc4_setup (key : bytes) : rc4_state :=
  Rc4State 0 0 (rc4_schedule 256 key 0 0 0 rc4_identity).

(** One round of the stream. *)
Definition rc4_step (s : rc4_state) : rc4_state :=
  let i := Z.land (rc4_i s + 1) 0xff in
  let j := Z.land (rc4_j s + s_at (rc4_S s) i) 0xff in
  Rc4State i j (S_SWAP i j (rc4_S s)).

(** The byte that is xored into the data after a round. *)
Definition rc4_out (s : rc4_state) : Z :=
  s_at (rc4_S s) (Z.land (s_at (rc4_S s) (rc4_i s) + s_at (rc4_S s) (rc4_j s)) 0xff).

(* rc4.c rc4_skip @45-51 *)
Fixpoint rc4_apply (s : rc4_state) (data : bytes) : bytes :=
  match data with
  | [] => []
  | d :: data =>
      let s := rc4_step s in
      Z.lxor d (rc4_out s) :: rc4_apply s data
  end.

(* rc4.c rc4_skip *)
Definition rc4_skip (key : bytes) (skip : Z) (data : bytes) : bytes :=
  let s := Nat.iter (Z.to_nat skip) rc4_step (rc4_setup key) in
  rc4_apply s data.

(** ** The state array stays a permutation *)

Definition rc4_perm (S : bytes) : Prop := S ≡ₚ rc4_identity.

Lemma rc4_perm_length S : rc4_perm S -> length S = 256%nat.
Proof. intros H. apply Permutation_length in H. now rewrite H. Qed.

Lemma rc4_perm_bytes S : rc4_perm S -> bytes_ok S.
Proof.
  intros H. apply (Permutation_Forall (symmetry H)), Forall_fmap, Forall_seq.
  intros n Hn. unfold is_uint. simpl. lia.
Qed.

Lemma land_ff n : 0 <= Z.land n 0xff < 256.
Proof. change 255 with (Z.ones 8). rewrite Z.land_ones by lia. apply Z.mod_pos_bound. lia. Qed.
#[local] Hint Resolve land_ff : wpa.

Lemma s_at_lookup S a : 0 <= a < 256 -> length S = 256%nat -> S !! Z.to_nat a = Some (s_at S a).
Proof.
  intros Ha Hl. destruct (lookup_lt_is_Some_2 S (Z.to_nat a)) as [x Hx]; [lia|].
  rewrite Hx. f_equal. symmetry. unfold s_at, byte_at. now apply nth_lookup_Some.
Qed.

Lemma S_SWAP_perm a b S :
  0 <= a < 256 -> 0 <= b < 256 -> rc4_perm S -> rc4_perm (S_SWAP a b S).
Proof.
  intros Ha Hb HS. pose proof (rc4_perm_length S HS) as Hl. unfold rc4_perm, S_SWAP.
  transitivity S; [|done]. apply Permutation_insert_swap; now apply s_at_lookup.
Qed.

Lemma rc4_schedule_perm n key i j kpos S :
  0 <= i -> i + Z.of_nat n <= 256 -> rc4_perm S -> rc4_perm (rc4_schedule n key i j kpos S).
Proof.
  revert i j kpos S. induction n as [|n IH]; intros i j kpos S Hi Hn HS; [done|].
  cbn [rc4_schedule]. apply IH; [lia | lia |]. apply S_SWAP_perm; auto using land_ff; lia.
Qed.

Definition rc4_ok (s : rc4_state) : Prop := rc4_perm (rc4_S s).

Lemma rc4_step_ok s : rc4_ok s -> rc4_ok (rc4_step s).
Proof. intros H. apply S_SWAP_perm; [apply land_ff | apply land_ff | done]. Qed.

Lemma rc4_iter_ok n s : rc4_ok s -> rc4_ok (Nat.iter n rc4_step s).
Proof. intros H. induction n; simpl; [done|]. now apply rc4_step_ok. Qed.

Lemma rc4_setup_ok key : rc4_ok (rc4_setup key).
Proof. apply rc4_schedule_perm; [lia | lia | apply Permutation_refl]. Qed.

Lemma rc4_out_byte s : rc4_ok s -> is_byte (rc4_out s).
Proof. intros H. apply byte_at_ok. now apply rc4_perm_bytes. Qed.

(** ** Properties of the cipher *)

Lemma rc4_apply_ok s data : rc4_ok s -> bytes_ok data -> bytes_ok (rc4_apply s data).
Proof.
  revert s. induction data as [|d data IH]; intros s Hs Hd; simpl; [constructor|].
  apply Forall_cons in Hd as [Hd Hdata]. pose proof (rc4_step_ok _ Hs).
  constructor; [|now apply IH]. apply is_uint_lxor; [lia | done | now apply rc4_out_byte].
Qed.

Lemma rc4_apply_involutive s data : rc4_apply s (rc4_apply s data) = data.
Proof.
  revert s. induction data as [|d data IH]; intros s; simpl; [done|].
  rewrite Z.lxor_assoc, Z.lxor_nilpotent, Z.lxor_0_r. f_equal. apply IH.
Qed.

Lemma length_rc4_skip key skip data : length (rc4_skip key skip data) = length data.
Proof.
  unfold rc4_skip. generalize (Nat.iter (Z.to_nat skip) rc4_step (rc4_setup key)).
  induction data as [|d data IH]; intros s; simpl; congruence.
Qed.

Lemma rc4_apply_drop n s data :
  drop n (rc4_apply s (replicate n 0 ++ data)) = rc4_apply (Nat.iter n rc4_step s) data.
Proof.
  revert s. induction n as [|n IH]; intros s; simpl; [done|].
  rewrite IH, <- Nat.iter_swap. done.
Qed.

(** Key stream of [n] bytes: what the cipher xors into the data. *)
Definition rc4_keystream (key : bytes) (n : nat) : bytes := rc4_skip key 0 (replicate n 0).

Lemma rc4_apply_keystream s data :
  rc4_apply s data = zip_with Z.lxor data (rc4_apply s (replicate (length data) 0)).
Proof.
  revert s. induction data as [|d data IH]; intros s; simpl; [done|]. f_equal. apply IH.
Qed.

Lemma rc4_skip_bytes key skip data : bytes_ok data -> bytes_ok (rc4_skip key skip data).
Proof. intros H. apply rc4_apply_ok; [|done]. apply rc4_iter_ok, rc4_setup_ok. Qed.
#[export] Hint Resolve rc4_skip_bytes : wpa.

(** rc4_skip() decrypts what it encrypted under the same key and skip. *)
Theorem rc4_skip_roundtrip key skip data :
  rc4_skip key skip (rc4_skip key skip data) = data
  /\ length (rc4_skip key skip data) = length data.
Proof. split; [apply rc4_apply_involutive | apply length_rc4_skip]. Qed.

(** Skipping [skip] bytes is encrypting with a key stream whose first [skip]
    bytes were thrown away: the loops over [skip] and over the data are one
    stream. *)
Theorem rc4_skip_discards key skip data :
  rc4_skip key skip data
  = zip_with Z.lxor data (drop (Z.to_nat skip) (rc4_keystream key (Z.to_nat skip + length data))).
Proof.
  unfold rc4_keystream, rc4_skip. simpl. rewrite replicate_add, rc4_apply_drop.
  apply rc4_apply_keystream.
Qed.

(** Test vector of RFC 6229 (40-bit key 0x0102030405, stream offset 0 and 240). *)
Example rc4_rfc6229 :
  rc4_skip [1;2;3;4;5] 0 (replicate 4 0) = [0xb2; 0x39; 0x63; 0x05]
  /\ rc4_skip [1;2;3;4;5] 240 (replicate 4 0) = [0x28; 0xcb; 0x11; 0x32].
Proof. vm_compute. done. Qed.
