(* ===== verification/AesWrap.v ===== *)
(** * AES key wrap (src/crypto/aes-wrap.c, aes-unwrap.c)

    RFC 3394 key wrap over the block cipher of the crypto library, which is a
    parameter: [aes_encrypt_init]/[aes_encrypt] and their decryption
    counterparts, with the law that decryption inverts encryption on 16-byte
    blocks.  The in-place loops over [r] are recursions over the list of
    8-byte blocks that [r] walks over. *)

From S2P Require Import Prelude.

(* aes.h AES_BLOCK_SIZE *)
Definition AES_BLOCK_SIZE : nat := 16.

(** A block cipher context made by the init functions; [None] is a NULL
    context (unsupported key length or out of memory). *)
Class AesCipher := {
  aes_ctx : Type;
  aes_encrypt_init : bytes -> option aes_ctx;
  aes_decrypt_init : bytes -> option aes_ctx;
  aes_encrypt : aes_ctx -> bytes -> bytes;
  aes_decrypt : aes_ctx -> bytes -> bytes
}.

(** What a block cipher is: both directions map blocks to blocks, and under one
    key each inverts the other. *)
Definition is_block (b : bytes) : Prop := length b = AES_BLOCK_SIZE /\ bytes_ok b.

Class AesLaws `{AesCipher} := {
  aes_encrypt_block k c b :
    bytes_ok k -> aes_encrypt_init k = Some c -> is_block b -> is_block (aes_encrypt c b);
  aes_decrypt_block k c b :
    bytes_ok k -> aes_decrypt_init k = Some c -> is_block b -> is_block (aes_decrypt c b);
  aes_decrypt_encrypt k e d b :
    bytes_ok k -> aes_encrypt_init k = Some e -> aes_decrypt_init k = Some d -> is_block b ->
    aes_decrypt d (aes_encrypt e b) = b;
  aes_encrypt_decrypt k e d b :
    bytes_ok k -> aes_encrypt_init k = Some e -> aes_decrypt_init k = Some d -> is_block b ->
    aes_encrypt e (aes_decrypt d b) = b
}.

Section Wrap.
Context `{AesCipher}.

(** [a[7] ^= t; a[6] ^= t >> 8; a[5] ^= t >> 16; a[4] ^= t >> 24;] *)
Definition xor_t (a : bytes) (t : Z) : bytes :=
  take 4 a ++ zip_with Z.lxor (drop 4 a) (put_be32 t).

(* aes-wrap.c aes_wrap @50-59 *)
Definition wrap_block (ctx : aes_ctx) (t : Z) (a r : bytes) : bytes * bytes :=
  let b := aes_encrypt ctx (a ++ r) in
  (xor_t (take 8 b) t, drop 8 b).

(** [for (i = 1; i <= n; i++)]: one pass over the blocks from [r] on. *)
Fixpoint wrap_pass (ctx : aes_ctx) (nj i : Z) (a : bytes) (rs : list bytes) : bytes * list bytes :=
  match rs with
  | [] => (a, [])
  | r :: rs =>
      let '(a, r) := wrap_block ctx (u32 (nj + i)) a r in
      let '(a, rs) := wrap_pass ctx nj (i + 1) a rs in
      (a, r :: rs)
  end.

(** [for (j = 0; j <= 5; j++)], [k] passes starting with [j]. *)
Fixpoint wrap_passes (ctx : aes_ctx) (k : nat) (n j : Z) (a : bytes) (rs : list bytes)
  : bytes * list bytes :=
  match k with
  | O => (a, rs)
  | S k =>
      let '(a, rs) := wrap_pass ctx (n * j) 1 a rs in
      wrap_passes ctx k n (j + 1) a rs
  end.

(** The [n] 8-byte blocks at the start of a buffer. *)
Fixpoint blocks8 (n : nat) (l : bytes) : list bytes :=
  match n with
  | O => []
  | S n => take 8 l :: blocks8 n (drop 8 l)
  end.

(* aes-wrap.c aes_wrap *)
Definition aes_wrap (kek : bytes) (n : nat) (plain : bytes) : option bytes :=
  let a := replicate 8 0xa6 in
  let r := blocks8 n plain in
  let? ctx := aes_encrypt_init kek in
  let '(a, r) := wrap_passes ctx 6 (Z.of_nat n) 0 a r in
  Some (a ++ concat r).

(* aes-unwrap.c aes_unwrap @49-62 *)
Definition unwrap_block (ctx : aes_ctx) (t : Z) (a r : bytes) : bytes * bytes :=
  let b := aes_decrypt ctx (xor_t a t ++ r) in
  (take 8 b, drop 8 b).

(** [for (i = n; i >= 1; i--)]: the last block first. *)
Fixpoint unwrap_pass (ctx : aes_ctx) (nj i : Z) (a : bytes) (rs : list bytes) : bytes * list bytes :=
  match rs with
  | [] => (a, [])
  | r :: rs =>
      let '(a, rs) := unwrap_pass ctx nj (i + 1) a rs in
      let '(a, r) := unwrap_block ctx (u32 (nj + i)) a r in
      (a, r :: rs)
  end.

(** [for (j = 5; j >= 0; j--)], [k] passes ending with [j]. *)
Fixpoint unwrap_passes (ctx : aes_ctx) (k : nat) (n j : Z) (a : bytes) (rs : list bytes)
  : bytes * list bytes :=
  match k with
  | O => (a, rs)
  | S k =>
      let '(a, rs) := unwrap_passes ctx k n (j + 1) a rs in
      unwrap_pass ctx (n * j) 1 a rs
  end.

(* aes-unwrap.c aes_unwrap *)
Definition aes_unwrap (kek : bytes) (n : nat) (cipher : bytes) : option bytes :=
  let a := take 8 cipher in
  let r := blocks8 n (drop 8 cipher) in
  let? ctx := aes_decrypt_init kek in
  let '(a, r) := unwrap_passes ctx 6 (Z.of_nat n) 0 a r in
  guard! bool_decide (a = replicate 8 0xa6); Some (concat r).

(** ** Halves of a block *)

Definition is_half (a : bytes) : Prop := length a = 8%nat /\ bytes_ok a.

Lemma is_half_app a r : is_half a -> is_half r -> is_block (a ++ r).
Proof.
  intros [La Ba] [Lr Br]. split; [rewrite length_app; unfold AES_BLOCK_SIZE; lia|].
  now apply bytes_ok_app.
Qed.

Lemma is_block_take b : is_block b -> is_half (take 8 b).
Proof. intros [L B]. split; [rewrite length_take, L; done | auto with wpa]. Qed.
Lemma is_block_drop b : is_block b -> is_half (drop 8 b).
Proof. intros [L B]. split; [rewrite length_drop, L; done | auto with wpa]. Qed.
#[local] Hint Resolve is_half_app is_block_take is_block_drop : wpa.

Lemma zip_lxor_involutive (l k : bytes) :
  length l = length k -> zip_with Z.lxor (zip_with Z.lxor l k) k = l.
Proof.
  revert k. induction l as [|x l IH]; intros [|y k] Hl; simpl in *; try discriminate; [done|].
  rewrite Z.lxor_assoc, Z.lxor_nilpotent, Z.lxor_0_r. f_equal. auto.
Qed.

Lemma xor_t_involutive a t : is_half a -> xor_t (xor_t a t) t = a.
Proof.
  intros [La _]. unfold xor_t.
  rewrite take_app_length', drop_app_length' by (rewrite length_take; lia).
  rewrite zip_lxor_involutive; [apply take_drop | rewrite length_drop, La; done].
Qed.

Lemma zip_lxor_ok (l k : bytes) : bytes_ok l -> bytes_ok k -> bytes_ok (zip_with Z.lxor l k).
Proof.
  revert k. induction l as [|x l IH]; intros [|y k] Hl Hk; simpl; try constructor.
  - apply is_uint_lxor; [lia | now apply Forall_inv in Hl | now apply Forall_inv in Hk].
  - apply IH; [now apply Forall_inv_tail in Hl | now apply Forall_inv_tail in Hk].
Qed.

Lemma xor_t_half a t : is_half a -> is_half (xor_t a t).
Proof.
  intros [La Ba]. unfold xor_t. split.
  - rewrite length_app, length_zip_with, length_take, length_drop, La. done.
  - apply bytes_ok_app. split; [auto with wpa|]. apply zip_lxor_ok; auto with wpa.
Qed.
#[local] Hint Resolve xor_t_half : wpa.

Lemma take_drop_app (a r : bytes) : is_half a -> take 8 (a ++ r) = a /\ drop 8 (a ++ r) = r.
Proof. intros [La _]. now rewrite take_app_length', drop_app_length'. Qed.

Lemma length_blocks8 n l : length (blocks8 n l) = n.
Proof. revert l. induction n; intros l; simpl; auto. Qed.

Lemma blocks8_ok n l : length l = (8 * n)%nat -> bytes_ok l -> Forall is_half (blocks8 n l).
Proof.
  revert l. induction n as [|n IH]; intros l Hl Hb; simpl; constructor.
  - split; [rewrite length_take; lia | auto with wpa].
  - apply IH; [rewrite length_drop; lia | auto with wpa].
Qed.

Lemma concat_blocks8 n l : length l = (8 * n)%nat -> concat (blocks8 n l) = l.
Proof.
  revert l. induction n as [|n IH]; intros l Hl; simpl.
  - destruct l; [done | discriminate].
  - rewrite IH by (rewrite length_drop; lia). apply take_drop.
Qed.

Lemma blocks8_concat rs : Forall is_half rs -> blocks8 (length rs) (concat rs) = rs.
Proof.
  induction 1 as [|r rs Hr _ IH]; simpl; [done|].
  destruct (take_drop_app r (concat rs) Hr) as [-> ->]. now rewrite IH.
Qed.

(** ** Inverse passes *)

Context {LAWS : AesLaws}.
Context (kek : bytes) (e d : aes_ctx) (Hk : bytes_ok kek)
  (He : aes_encrypt_init kek = Some e) (Hd : aes_decrypt_init kek = Some d).

Lemma wrap_block_half t a r :
  is_half a -> is_half r ->
  is_half (wrap_block e t a r).1 /\ is_half (wrap_block e t a r).2.
Proof.
  intros Ha Hr. pose proof (aes_encrypt_block kek e _ Hk He (is_half_app _ _ Ha Hr)).
  unfold wrap_block; simpl; auto with wpa.
Qed.

Lemma unwrap_block_half t a r :
  is_half a -> is_half r ->
  is_half (unwrap_block d t a r).1 /\ is_half (unwrap_block d t a r).2.
Proof.
  intros Ha Hr.
  pose proof (aes_decrypt_block kek d _ Hk Hd (is_half_app _ _ (xor_t_half _ t Ha) Hr)).
  unfold unwrap_block; simpl; auto with wpa.
Qed.

Lemma unwrap_wrap_block t a r :
  is_half a -> is_half r ->
  unwrap_block d t (wrap_block e t a r).1 (wrap_block e t a r).2 = (a, r).
Proof.
  intros Ha Hr. pose proof (is_half_app _ _ Ha Hr) as Hb.
  pose proof (aes_encrypt_block kek e _ Hk He Hb) as Heb.
  unfold unwrap_block, wrap_block; simpl. rewrite xor_t_involutive by auto with wpa.
  rewrite take_drop, (aes_decrypt_encrypt kek e d) by done.
  now destruct (take_drop_app a r Ha) as [-> ->].
Qed.

Lemma wrap_unwrap_block t a r :
  is_half a -> is_half r ->
  wrap_block e t (unwrap_block d t a r).1 (unwrap_block d t a r).2 = (a, r).
Proof.
  intros Ha Hr. pose proof (is_half_app _ _ (xor_t_half _ t Ha) Hr) as Hb.
  unfold unwrap_block, wrap_block; simpl.
  rewrite take_drop, (aes_encrypt_decrypt kek e d) by done.
  destruct (take_drop_app (xor_t a t) r (xor_t_half _ t Ha)) as [-> ->].
  now rewrite xor_t_involutive.
Qed.

Lemma wrap_pass_spec nj i a rs :
  is_half a -> Forall is_half rs ->
  let '(a', rs') := wrap_pass e nj i a rs in
  is_half a' /\ Forall is_half rs' /\ length rs' = length rs
  /\ unwrap_pass d nj i a' rs' = (a, rs).
Proof.
  revert i a. induction rs as [|r rs IH]; intros i a Ha Hrs; [done|].
  apply Forall_cons in Hrs as [Hr Hrs]. cbn [wrap_pass unwrap_pass].
  destruct (wrap_block_half (u32 (nj + i)) a r Ha Hr) as [Ha1 Hr1].
  pose proof (unwrap_wrap_block (u32 (nj + i)) a r Ha Hr) as Hinv.
  destruct (wrap_block e (u32 (nj + i)) a r) as [a1 r1]. simpl in *.
  specialize (IH (i + 1) a1 Ha1 Hrs).
  destruct (wrap_pass e nj (i + 1) a1 rs) as [a2 rs2].
  destruct IH as (Ha2 & Hrs2 & Hl & IH). cbn [unwrap_pass]. rewrite IH, Hinv. naive_solver.
Qed.

Lemma unwrap_pass_spec nj i a rs :
  is_half a -> Forall is_half rs ->
  let '(a', rs') := unwrap_pass d nj i a rs in
  is_half a' /\ Forall is_half rs' /\ length rs' = length rs
  /\ wrap_pass e nj i a' rs' = (a, rs).
Proof.
  revert i. induction rs as [|r rs IH]; intros i Ha Hrs; [done|].
  apply Forall_cons in Hrs as [Hr Hrs]. cbn [unwrap_pass].
  specialize (IH (i + 1) Ha Hrs).
  destruct (unwrap_pass d nj (i + 1) a rs) as [a1 rs1].
  destruct IH as (Ha1 & Hrs1 & Hl & IH).
  destruct (unwrap_block_half (u32 (nj + i)) a1 r Ha1 Hr) as [Ha2 Hr2].
  pose proof (wrap_unwrap_block (u32 (nj + i)) a1 r Ha1 Hr) as Hinv.
  destruct (unwrap_block d (u32 (nj + i)) a1 r) as [a2 r2]. cbn -[wrap_block] in *.
  rewrite Hinv, IH. naive_solver.
Qed.

Lemma wrap_passes_spec k n j a rs :
  is_half a -> Forall is_half rs ->
  let '(a', rs') := wrap_passes e k n j a rs in
  is_half a' /\ Forall is_half rs' /\ length rs' = length rs
  /\ unwrap_passes d k n j a' rs' = (a, rs).
Proof.
  revert j a rs. induction k as [|k IH]; intros j a rs Ha Hrs; [done|]. cbn [wrap_passes].
  pose proof (wrap_pass_spec (n * j) 1 a rs Ha Hrs) as Hp.
  destruct (wrap_pass e (n * j) 1 a rs) as [a1 rs1]. destruct Hp as (Ha1 & Hrs1 & Hl1 & Hp).
  specialize (IH (j + 1) a1 rs1 Ha1 Hrs1).
  destruct (wrap_passes e k n (j + 1) a1 rs1) as [a2 rs2].
  destruct IH as (Ha2 & Hrs2 & Hl2 & IH). cbn [unwrap_passes]. rewrite IH.
  split_and!; auto; congruence.
Qed.

Lemma unwrap_passes_spec k n j a rs :
  is_half a -> Forall is_half rs ->
  let '(a', rs') := unwrap_passes d k n j a rs in
  is_half a' /\ Forall is_half rs' /\ length rs' = length rs
  /\ wrap_passes e k n j a' rs' = (a, rs).
Proof.
  revert j a rs. induction k as [|k IH]; intros j a rs Ha Hrs; [done|]. cbn [unwrap_passes].
  specialize (IH (j + 1) a rs Ha Hrs).
  destruct (unwrap_passes d k n (j + 1) a rs) as [a1 rs1].
  destruct IH as (Ha1 & Hrs1 & Hl1 & IH).
  pose proof (unwrap_pass_spec (n * j) 1 a1 rs1 Ha1 Hrs1) as Hp.
  destruct (unwrap_pass d (n * j) 1 a1 rs1) as [a2 rs2]. destruct Hp as (Ha2 & Hrs2 & Hl2 & Hp).
  cbn [wrap_passes]. rewrite Hp, IH. split_and!; auto; congruence.
Qed.

Lemma iv_half : is_half (replicate 8 0xa6).
Proof. split; [done|]. apply bytes_ok_replicate. unfold is_uint. lia. Qed.

Lemma concat_half_length rs : Forall is_half rs -> length (concat rs) = (8 * length rs)%nat.
Proof.
  induction 1 as [|r rs [Hr _] _ IH]; simpl; [done|]. rewrite length_app, Hr, IH. lia.
Qed.

Lemma concat_half_ok rs : Forall is_half rs -> bytes_ok (concat rs).
Proof. induction 1 as [|r rs [_ Hr] _ IH]; simpl; [constructor|]. now apply bytes_ok_app. Qed.

Lemma aes_unwrap_wrap n plain :
  length plain = (8 * n)%nat -> bytes_ok plain ->
  exists c, aes_wrap kek n plain = Some c /\ length c = (8 * n + 8)%nat
       /\ aes_unwrap kek n c = Some plain.
Proof.
  intros Hl Hb. unfold aes_wrap. rewrite He.
  pose proof (wrap_passes_spec 6 (Z.of_nat n) 0 _ _ iv_half (blocks8_ok n plain Hl Hb)) as Hw.
  destruct (wrap_passes e 6 (Z.of_nat n) 0 (replicate 8 0xa6) (blocks8 n plain)) as [a r].
  destruct Hw as (Ha & Hr & Hlr & Hw). rewrite length_blocks8 in Hlr.
  eexists. split; [done|]. split.
  { destruct Ha as [Ha _]. rewrite length_app, concat_half_length, Ha by done. lia. }
  unfold aes_unwrap. destruct (take_drop_app a (concat r) Ha) as [-> ->].
  rewrite Hd, <- Hlr, blocks8_concat, Hlr, Hw by done.
  rewrite bool_decide_true by done. f_equal. now apply concat_blocks8.
Qed.

Lemma aes_wrap_unwrap n c plain :
  length c = (8 * n + 8)%nat -> bytes_ok c -> aes_unwrap kek n c = Some plain ->
  aes_wrap kek n plain = Some c /\ length plain = (8 * n)%nat /\ bytes_ok plain.
Proof.
  intros Hl Hb. unfold aes_unwrap. rewrite Hd.
  assert (is_half (take 8 c)) as Ha by (split; [rewrite length_take; lia | auto with wpa]).
  assert (length (drop 8 c) = (8 * n)%nat) as Hld by (rewrite length_drop; lia).
  pose proof (unwrap_passes_spec 6 (Z.of_nat n) 0 _ _ Ha
                (blocks8_ok n _ Hld (bytes_ok_drop 8 c Hb))) as Hw.
  destruct (unwrap_passes d 6 (Z.of_nat n) 0 (take 8 c) (blocks8 n (drop 8 c))) as [a r].
  destruct Hw as (_ & Hr & Hlr & Hw). rewrite length_blocks8 in Hlr.
  case_bool_decide as Hiv; [|discriminate]. intros [= <-].
  unfold aes_wrap. rewrite He, <- Hlr, blocks8_concat, Hlr, <- Hiv, Hw by done.
  rewrite concat_blocks8, take_drop, concat_half_length, Hlr by done.
  split_and!; auto using concat_half_ok.
Qed.
End Wrap.

(** What aes_wrap() produced, aes_unwrap() opens again: for every KEK the
    cipher accepts, wrapping succeeds, adds 8 bytes, and unwrapping the result
    passes the integrity check and gives the plain text back. *)
Theorem aes_wrap_roundtrip `{AesLaws} kek e d n plain :
  bytes_ok kek -> aes_encrypt_init kek = Some e -> aes_decrypt_init kek = Some d ->
  length plain = (8 * n)%nat -> bytes_ok plain ->
  exists c, aes_wrap kek n plain = Some c /\ length c = (8 * n + 8)%nat
       /\ aes_unwrap kek n c = Some plain.
Proof. intros. now apply (aes_unwrap_wrap kek e d). Qed.

(** C37. aes_unwrap() accepts exactly the outputs of aes_wrap(): a cipher text that
    passes the integrity check is the wrapping of the plain text it returns, so
    two accepted cipher texts with the same plain text are equal. *)
Theorem aes_unwrap_only_wrapped `{AesLaws} kek e d n c plain :
  bytes_ok kek -> aes_encrypt_init kek = Some e -> aes_decrypt_init kek = Some d ->
  length c = (8 * n + 8)%nat -> bytes_ok c ->
  (aes_unwrap kek n c = Some plain <->
   aes_wrap kek n plain = Some c /\ length plain = (8 * n)%nat /\ bytes_ok plain).
Proof.
  intros Hk He Hd Hl Hb. split.
  - now apply (aes_wrap_unwrap kek e d).
  - intros (Hw & Hlp & Hbp). destruct (aes_unwrap_wrap kek e d Hk He Hd n plain Hlp Hbp)
      as (c' & Hc & _ & Hu). congruence.
Qed.
