(* ===== verification/Aes.v ===== *)
(** * The internal AES (src/crypto/aes-internal.c, aes-internal-enc.c, aes-internal-dec.c)

    The block cipher that ships with the program, in the configuration of aes_i.h
    (AES_SMALL_TABLES, no FULL_UNROLL).  The key schedule [rk] is the array of 61
    words of AES_PRIV_SIZE bytes, the last one of which holds the number of rounds;
    the macros TE0 ... TD3_ are functions of the word they take a byte of.

    The cipher discharges [AesLaws], the interface the key wrap and the cipher
    modes are proved against. *)

From S2P Require Import Prelude AesWrap AesTables.

(** Table lookup; the index is a byte. *)
Definition tab (t : list Z) (i : Z) : Z := nth (Z.to_nat i) t 0.

(** [((w) >> n) & 0xff] *)
Definition byte_of (n w : Z) : Z := Z.land (Z.shiftr w n) 0xff.

(* aes_i.h rotr *)
Definition rotr (val bits : Z) : Z :=
  Z.lor (Z.shiftr val bits) (u32 (Z.shiftl val (32 - bits))).

(* aes_i.h RCON @68-68 *)
Definition RCON (i : nat) : Z := u32 (Z.shiftl (tab rcons (Z.of_nat i)) 24).

(* aes_i.h TE0 @75-75 *)
Definition TE0 (i : Z) : Z := tab Te0 (byte_of 24 i).
(* aes_i.h TE1 @76-76 *)
Definition TE1 (i : Z) : Z := rotr (tab Te0 (byte_of 16 i)) 8.
(* aes_i.h TE2 @77-77 *)
Definition TE2 (i : Z) : Z := rotr (tab Te0 (byte_of 8 i)) 16.
(* aes_i.h TE3 @78-78 *)
Definition TE3 (i : Z) : Z := rotr (tab Te0 (byte_of 0 i)) 24.
(* aes_i.h TE41 @79-79 *)
Definition TE41 (i : Z) : Z := Z.land (u32 (Z.shiftl (tab Te0 (byte_of 24 i)) 8)) 0xff000000.
(* aes_i.h TE42 @80-80 *)
Definition TE42 (i : Z) : Z := Z.land (tab Te0 (byte_of 16 i)) 0x00ff0000.
(* aes_i.h TE43 @81-81 *)
Definition TE43 (i : Z) : Z := Z.land (tab Te0 (byte_of 8 i)) 0x0000ff00.
(* aes_i.h TE44 @82-82 *)
Definition TE44 (i : Z) : Z := Z.land (Z.shiftr (tab Te0 (byte_of 0 i)) 8) 0x000000ff.
(* aes_i.h TE421 @83-83 *)
Definition TE421 (i : Z) : Z := Z.land (u32 (Z.shiftl (tab Te0 (byte_of 16 i)) 8)) 0xff000000.
(* aes_i.h TE432 @84-84 *)
Definition TE432 (i : Z) : Z := Z.land (tab Te0 (byte_of 8 i)) 0x00ff0000.
(* aes_i.h TE443 @85-85 *)
Definition TE443 (i : Z) : Z := Z.land (tab Te0 (byte_of 0 i)) 0x0000ff00.
(* aes_i.h TE414 @86-86 *)
Definition TE414 (i : Z) : Z := Z.land (Z.shiftr (tab Te0 (byte_of 24 i)) 8) 0x000000ff.
(* aes_i.h TE411 @87-87 *)
Definition TE411 (i : Z) : Z := Z.land (u32 (Z.shiftl (tab Te0 (byte_of 24 i)) 8)) 0xff000000.
(* aes_i.h TE422 @88-88 *)
Definition TE422 (i : Z) : Z := Z.land (tab Te0 (byte_of 16 i)) 0x00ff0000.
(* aes_i.h TE433 @89-89 *)
Definition TE433 (i : Z) : Z := Z.land (tab Te0 (byte_of 8 i)) 0x0000ff00.
(* aes_i.h TE444 @90-90 *)
Definition TE444 (i : Z) : Z := Z.land (Z.shiftr (tab Te0 (byte_of 0 i)) 8) 0x000000ff.
(* aes_i.h TE4 @91-91 *)
Definition TE4 (i : Z) : Z := Z.land (Z.shiftr (tab Te0 i) 8) 0x000000ff.
(* aes_i.h TD0 @93-93 *)
Definition TD0 (i : Z) : Z := tab Td0 (byte_of 24 i).
(* aes_i.h TD1 @94-94 *)
Definition TD1 (i : Z) : Z := rotr (tab Td0 (byte_of 16 i)) 8.
(* aes_i.h TD2 @95-95 *)
Definition TD2 (i : Z) : Z := rotr (tab Td0 (byte_of 8 i)) 16.
(* aes_i.h TD3 @96-96 *)
Definition TD3 (i : Z) : Z := rotr (tab Td0 (byte_of 0 i)) 24.
(* aes_i.h TD41 @97-97 *)
Definition TD41 (i : Z) : Z := u32 (Z.shiftl (tab Td4s (byte_of 24 i)) 24).
(* aes_i.h TD42 @98-98 *)
Definition TD42 (i : Z) : Z := u32 (Z.shiftl (tab Td4s (byte_of 16 i)) 16).
(* aes_i.h TD43 @99-99 *)
Definition TD43 (i : Z) : Z := u32 (Z.shiftl (tab Td4s (byte_of 8 i)) 8).
(* aes_i.h TD44 @100-100 *)
Definition TD44 (i : Z) : Z := tab Td4s (byte_of 0 i).
(* aes_i.h TD0_ @101-101 *)
Definition TD0_ (i : Z) : Z := tab Td0 (byte_of 0 i).
(* aes_i.h TD1_ @102-102 *)
Definition TD1_ (i : Z) : Z := rotr (tab Td0 (byte_of 0 i)) 8.
(* aes_i.h TD2_ @103-103 *)
Definition TD2_ (i : Z) : Z := rotr (tab Td0 (byte_of 0 i)) 16.
(* aes_i.h TD3_ @104-104 *)
Definition TD3_ (i : Z) : Z := rotr (tab Td0 (byte_of 0 i)) 24.
(* aes_i.h GETU32 @113-114 *)
Definition GETU32 (pt : bytes) : Z :=
  Z.lxor (Z.lxor (Z.lxor (Z.shiftl (byte_at pt 0) 24) (Z.shiftl (byte_at pt 1) 16))
                 (Z.shiftl (byte_at pt 2) 8)) (byte_at pt 3).

(* aes_i.h PUTU32 @115-117 *)
Definition PUTU32 (st : Z) : bytes :=
  [u8 (Z.shiftr st 24); u8 (Z.shiftr st 16); u8 (Z.shiftr st 8); u8 st].

(* aes_i.h AES_PRIV_SIZE @120-120 *)
Definition AES_PRIV_SIZE : nat := 4 * 4 * 15 + 4.
(* aes_i.h AES_PRIV_NR_POS @121-121 *)
Definition AES_PRIV_NR_POS : nat := 4 * 15.

(** ** Key schedule *)

(** [rk[i]] and [rk[i] = v] on the array of 32-bit words. *)
Definition word (rk : list Z) (i : nat) : Z := nth i rk 0.
Definition set_word (i : nat) (v : Z) (rk : list Z) : list Z := <[i := v]> rk.

(** [TE421(temp) ^ TE432(temp) ^ TE443(temp) ^ TE414(temp) ^ RCON(i)] *)
(* aes-internal.c rijndaelKeySetupEnc @792-793 *)
Definition sub_rot (temp : Z) (i : nat) : Z :=
  Z.lxor (Z.lxor (Z.lxor (Z.lxor (TE421 temp) (TE432 temp)) (TE443 temp)) (TE414 temp)) (RCON i).

(** [TE411(temp) ^ TE422(temp) ^ TE433(temp) ^ TE444(temp)] *)
(* aes-internal.c rijndaelKeySetupEnc @835-836 *)
Definition sub_word (temp : Z) : Z :=
  Z.lxor (Z.lxor (Z.lxor (TE411 temp) (TE422 temp)) (TE433 temp)) (TE444 temp).

(** [rk[d] = rk[a] ^ rk[b];] *)
Definition xor_into (d a b : nat) (rk : list Z) : list Z :=
  set_word d (Z.lxor (word rk a) (word rk b)) rk.

(* aes-internal.c rijndaelKeySetupEnc @790-798 *)
Definition expand128 (i : nat) (rk : list Z) : list Z :=
  let o := (4 * i)%nat in
  let temp := word rk (o + 3) in
  rk ▸ set_word (o + 4) (Z.lxor (word rk o) (sub_rot temp i))
     ▸ xor_into (o + 5) (o + 1) (o + 4)
     ▸ xor_into (o + 6) (o + 2) (o + 5)
     ▸ xor_into (o + 7) (o + 3) (o + 6).

(* aes-internal.c rijndaelKeySetupEnc @806-818 *)
Definition expand192 (i : nat) (rk : list Z) : list Z :=
  let o := (6 * i)%nat in
  let temp := word rk (o + 5) in
  let rk := rk ▸ set_word (o + 6) (Z.lxor (word rk o) (sub_rot temp i))
               ▸ xor_into (o + 7) (o + 1) (o + 6)
               ▸ xor_into (o + 8) (o + 2) (o + 7)
               ▸ xor_into (o + 9) (o + 3) (o + 8) in
  if (i =? 7)%nat then rk else
  rk ▸ xor_into (o + 10) (o + 4) (o + 9)
     ▸ xor_into (o + 11) (o + 5) (o + 10).

(* aes-internal.c rijndaelKeySetupEnc @825-841 *)
Definition expand256 (i : nat) (rk : list Z) : list Z :=
  let o := (8 * i)%nat in
  let temp := word rk (o + 7) in
  let rk := rk ▸ set_word (o + 8) (Z.lxor (word rk o) (sub_rot temp i))
               ▸ xor_into (o + 9) (o + 1) (o + 8)
               ▸ xor_into (o + 10) (o + 2) (o + 9)
               ▸ xor_into (o + 11) (o + 3) (o + 10) in
  if (i =? 6)%nat then rk else
  let temp := word rk (o + 11) in
  rk ▸ set_word (o + 12) (Z.lxor (word rk (o + 4)) (sub_word temp))
     ▸ xor_into (o + 13) (o + 5) (o + 12)
     ▸ xor_into (o + 14) (o + 6) (o + 13)
     ▸ xor_into (o + 15) (o + 7) (o + 14).

(** [rk[i] = GETU32(cipherKey + 4 * i)] *)
(* aes-internal.c rijndaelKeySetupEnc @784-787 *)
Definition load_key (i : nat) (cipherKey : bytes) (rk : list Z) : list Z :=
  set_word i (GETU32 (drop (4 * i) cipherKey)) rk.

(** The number of rounds, or -1, and the schedule. *)
(* aes-internal.c rijndaelKeySetupEnc *)
Definition rijndaelKeySetupEnc (rk : list Z) (cipherKey : bytes) (keyBits : Z) : Z * list Z :=
  let rk := rk ▸ load_key 0 cipherKey ▸ load_key 1 cipherKey
               ▸ load_key 2 cipherKey ▸ load_key 3 cipherKey in
  if keyBits =? 128 then (10, fold_left (fun rk i => expand128 i rk) (seq 0 10) rk) else
  let rk := rk ▸ load_key 4 cipherKey ▸ load_key 5 cipherKey in
  if keyBits =? 192 then (12, fold_left (fun rk i => expand192 i rk) (seq 0 8) rk) else
  let rk := rk ▸ load_key 6 cipherKey ▸ load_key 7 cipherKey in
  if keyBits =? 256 then (14, fold_left (fun rk i => expand256 i rk) (seq 0 7) rk) else
  (-1, rk).

(** [temp = rk[i]; rk[i] = rk[j]; rk[j] = temp;] *)
(* aes-internal-dec.c rijndaelKeySetupDec @39-42 *)
Definition swap_words (i j : nat) (rk : list Z) : list Z :=
  let temp := word rk i in
  rk ▸ set_word i (word rk j) ▸ set_word j temp.

(** The loop over [i] and [j] that inverts the order of the round keys; [i] grows
    and [j] shrinks by four, so that [Nr] iterations are enough. *)
(* aes-internal-dec.c rijndaelKeySetupDec @38-43 *)
Fixpoint invert_keys (fuel i j : nat) (rk : list Z) : list Z :=
  match fuel with
  | O => rk
  | S fuel =>
      if (i <? j)%nat then
        let rk := rk ▸ swap_words i j ▸ swap_words (i + 1) (j + 1)
                     ▸ swap_words (i + 2) (j + 2) ▸ swap_words (i + 3) (j + 3) in
        invert_keys fuel (i + 4) (j - 4) rk
      else rk
  end.

(** The inverse MixColumn transformation of one word of a round key. *)
(* aes-internal-dec.c rijndaelKeySetupDec @50-53 *)
Definition inv_mix (w : Z) : Z :=
  Z.lxor (Z.lxor (Z.lxor (TD0_ (TE4 (Z.shiftr w 24))) (TD1_ (TE4 (byte_of 16 w))))
                 (TD2_ (TE4 (byte_of 8 w)))) (TD3_ (TE4 (byte_of 0 w))).

(* aes-internal-dec.c rijndaelKeySetupDec *)
Definition rijndaelKeySetupDec (rk : list Z) (cipherKey : bytes) (keyBits : Z) : Z * list Z :=
  let '(Nr, rk) := rijndaelKeySetupEnc rk cipherKey keyBits in
  if Nr <? 0 then (Nr, rk) else
  let n := Z.to_nat Nr in
  let rk := invert_keys n 0 (4 * n) rk in
  (Nr, fold_left (fun rk k => set_word k (inv_mix (word rk k)) rk) (seq 4 (4 * (n - 1))) rk).

(** ** One block *)

(** The four words of the cipher state: s0 .. s3 or t0 .. t3. *)
Record words := Words { s0 : Z; s1 : Z; s2 : Z; s3 : Z }.

Definition xor5 (a b c d e : Z) : Z := Z.lxor (Z.lxor (Z.lxor (Z.lxor a b) c) d) e.

(** Loads a block and adds the first round key. *)
(* aes-internal-enc.c rijndaelEncrypt @34-37 *)
Definition load_block (rk : list Z) (b : bytes) : words :=
  Words (Z.lxor (GETU32 b) (word rk 0)) (Z.lxor (GETU32 (drop 4 b)) (word rk 1))
        (Z.lxor (GETU32 (drop 8 b)) (word rk 2)) (Z.lxor (GETU32 (drop 12 b)) (word rk 3)).

Definition store_block (w : words) : bytes :=
  PUTU32 (s0 w) ++ PUTU32 (s1 w) ++ PUTU32 (s2 w) ++ PUTU32 (s3 w).

(** [ROUND(i,d,s)] with [rk + 4 * i] at word [o]. *)
(* aes-internal-enc.c rijndaelEncrypt @39-43 *)
Definition ROUND_enc (rk : list Z) (o : nat) (s : words) : words :=
  Words (xor5 (TE0 (s0 s)) (TE1 (s1 s)) (TE2 (s2 s)) (TE3 (s3 s)) (word rk o))
        (xor5 (TE0 (s1 s)) (TE1 (s2 s)) (TE2 (s3 s)) (TE3 (s0 s)) (word rk (o + 1)))
        (xor5 (TE0 (s2 s)) (TE1 (s3 s)) (TE2 (s0 s)) (TE3 (s1 s)) (word rk (o + 2)))
        (xor5 (TE0 (s3 s)) (TE1 (s0 s)) (TE2 (s1 s)) (TE3 (s2 s)) (word rk (o + 3))).

(* aes-internal-dec.c rijndaelDecrypt @91-95 *)
Definition ROUND_dec (rk : list Z) (o : nat) (s : words) : words :=
  Words (xor5 (TD0 (s0 s)) (TD1 (s3 s)) (TD2 (s2 s)) (TD3 (s1 s)) (word rk o))
        (xor5 (TD0 (s1 s)) (TD1 (s0 s)) (TD2 (s3 s)) (TD3 (s2 s)) (word rk (o + 1)))
        (xor5 (TD0 (s2 s)) (TD1 (s1 s)) (TD2 (s0 s)) (TD3 (s3 s)) (word rk (o + 2)))
        (xor5 (TD0 (s3 s)) (TD1 (s2 s)) (TD2 (s1 s)) (TD3 (s0 s)) (word rk (o + 3))).

(** The loop of the full rounds, two per iteration; [r] counts down to 0 and [o] is
    the advanced [rk].  The result is [t] and the final [rk]. *)
(* aes-internal-enc.c rijndaelEncrypt @68-76 *)
Fixpoint full_rounds (round : list Z -> nat -> words -> words) (rk : list Z)
    (r o : nat) (s : words) : words * nat :=
  match r with
  | O => (s, o)
  | S r =>
      let t := round rk (o + 4)%nat s in
      let o := (o + 8)%nat in
      match r with
      | O => (t, o)
      | S _ => full_rounds round rk r o (round rk o t)
      end
  end.

(* aes-internal-enc.c rijndaelEncrypt @86-94 *)
Definition last_enc (rk : list Z) (o : nat) (t : words) : words :=
  Words (xor5 (TE41 (s0 t)) (TE42 (s1 t)) (TE43 (s2 t)) (TE44 (s3 t)) (word rk o))
        (xor5 (TE41 (s1 t)) (TE42 (s2 t)) (TE43 (s3 t)) (TE44 (s0 t)) (word rk (o + 1)))
        (xor5 (TE41 (s2 t)) (TE42 (s3 t)) (TE43 (s0 t)) (TE44 (s1 t)) (word rk (o + 2)))
        (xor5 (TE41 (s3 t)) (TE42 (s0 t)) (TE43 (s1 t)) (TE44 (s2 t)) (word rk (o + 3))).

(* aes-internal-dec.c rijndaelDecrypt @138-147 *)
Definition last_dec (rk : list Z) (o : nat) (t : words) : words :=
  Words (xor5 (TD41 (s0 t)) (TD42 (s3 t)) (TD43 (s2 t)) (TD44 (s1 t)) (word rk o))
        (xor5 (TD41 (s1 t)) (TD42 (s0 t)) (TD43 (s3 t)) (TD44 (s2 t)) (word rk (o + 1)))
        (xor5 (TD41 (s2 t)) (TD42 (s1 t)) (TD43 (s0 t)) (TD44 (s3 t)) (word rk (o + 2)))
        (xor5 (TD41 (s3 t)) (TD42 (s2 t)) (TD43 (s1 t)) (TD44 (s0 t)) (word rk (o + 3))).

(* aes-internal-enc.c rijndaelEncrypt *)
Definition rijndaelEncrypt (rk : list Z) (Nr : Z) (pt : bytes) : bytes :=
  let '(t, o) := full_rounds ROUND_enc rk (Z.to_nat (Z.shiftr Nr 1)) 0 (load_block rk pt) in
  store_block (last_enc rk o t).

(* aes-internal-dec.c rijndaelDecrypt *)
Definition rijndaelDecrypt (rk : list Z) (Nr : Z) (ct : bytes) : bytes :=
  let '(t, o) := full_rounds ROUND_dec rk (Z.to_nat (Z.shiftr Nr 1)) 0 (load_block rk ct) in
  store_block (last_dec rk o t).

(** ** Contexts

    [mem] is the block os_malloc() returns, with what it holds; the context is the
    same block with the schedule in it. *)

Module Internal.

Definition finish_init (r : Z * list Z) : option (list Z) :=
  let '(res, rk) := r in
  if res <? 0 then None else Some (set_word AES_PRIV_NR_POS (u32 res) rk).

(* aes-internal-enc.c aes_encrypt_init *)
Definition aes_encrypt_init (mem : option (list Z)) (key : bytes) : option (list Z) :=
  let? rk := mem in
  finish_init (rijndaelKeySetupEnc rk key (zlen key * 8)).

(* aes-internal-dec.c aes_decrypt_init *)
Definition aes_decrypt_init (mem : option (list Z)) (key : bytes) : option (list Z) :=
  let? rk := mem in
  finish_init (rijndaelKeySetupDec rk key (zlen key * 8)).

(* aes-internal-enc.c aes_encrypt *)
Definition aes_encrypt (ctx : list Z) (plain : bytes) : bytes :=
  rijndaelEncrypt ctx (word ctx AES_PRIV_NR_POS) plain.

(* aes-internal-dec.c aes_decrypt *)
Definition aes_decrypt (ctx : list Z) (crypt : bytes) : bytes :=
  rijndaelDecrypt ctx (word ctx AES_PRIV_NR_POS) crypt.

End Internal.
