(* ===== verification/AesProps.v ===== *)
(** * The internal AES is a block cipher

    Decryption inverts encryption and encryption inverts decryption, for every key
    length, key and block, whatever the memory held before: the internal cipher is
    an instance of [AesLaws].  The proof is the argument of the equivalent inverse
    cipher: the MixColumn transformation and its inverse are linear over xor, the
    tables of both directions are inverse to each other (checked on all bytes), and
    the decryption schedule is the encryption schedule backwards through the
    inverse MixColumn transformation. *)

From S2P Require Import Prelude AesWrap AesTables Aes.
From Stdlib Require Import Btauto.

(** ** Words and bytes *)

Abbreviation is_word := (is_uint 32).

Lemma byte_of_testbit n w i :
  0 <= n -> 0 <= i -> Z.testbit (byte_of n w) i = (i <? 8) && Z.testbit w (i + n).
Proof.
  intros Hn Hi. unfold byte_of. rewrite Z.land_spec, Z.shiftr_spec by lia.
  change 255 with (Z.ones 8). rewrite Z.testbit_ones by lia.
  rewrite (proj2 (Z.leb_le 0 i)) by lia. now rewrite andb_comm.
Qed.

Lemma byte_of_range n w : is_byte (byte_of n w).
Proof.
  unfold byte_of. rewrite Z.land_comm. apply is_uint_land_l; [lia|].
  unfold is_uint. lia.
Qed.

Lemma byte_of_lxor n x y : byte_of n (Z.lxor x y) = Z.lxor (byte_of n x) (byte_of n y).
Proof.
  unfold byte_of. apply Z.bits_inj. intros i. destruct (Z.lt_ge_cases i 0).
  - now rewrite !Z.testbit_neg_r by done.
  - rewrite Z.land_spec, !Z.lxor_spec, !Z.land_spec, Z.shiftr_lxor, Z.lxor_spec.
    now destruct (Z.testbit (Z.shiftr x n) i), (Z.testbit (Z.shiftr y n) i), (Z.testbit 255 i).
Qed.

(** A word from its four bytes, and back. *)
Definition pack (a b c d : Z) : Z :=
  Z.lxor (Z.lxor (Z.lxor (Z.shiftl a 24) (Z.shiftl b 16)) (Z.shiftl c 8)) d.

Lemma testbit_shl a n i : 0 <= i -> Z.testbit (Z.shiftl a n) i = Z.testbit a (i - n).
Proof. apply Z.shiftl_spec. Qed.

Lemma pack_bytes w : is_word w -> pack (byte_of 24 w) (byte_of 16 w) (byte_of 8 w) (byte_of 0 w) = w.
Proof.
  intros Hw. apply Z.bits_inj'. intros i Hi. unfold pack.
  rewrite !Z.lxor_spec, !testbit_shl by done.
  assert (forall n, 0 <= n -> Z.testbit (byte_of n w) (i - n)
                    = (n <=? i) && (i <? n + 8) && Z.testbit w i) as B.
  { intros n Hn. destruct (Z.leb_spec n i).
    - rewrite byte_of_testbit by lia. replace (i - n + n) with i by lia. simpl.
      destruct (Z.ltb_spec (i - n) 8), (Z.ltb_spec i (n + 8)); try lia; done.
    - now rewrite Z.testbit_neg_r by lia. }
  rewrite !B by lia. replace (Z.testbit (byte_of 0 w) i) with (Z.testbit (byte_of 0 w) (i - 0)) by (f_equal; lia).
  rewrite B by lia.
  destruct (Z.leb_spec 24 i), (Z.leb_spec 16 i), (Z.leb_spec 8 i), (Z.leb_spec 0 i); try lia;
    destruct (Z.ltb_spec i (24 + 8)), (Z.ltb_spec i (16 + 8)), (Z.ltb_spec i (8 + 8)),
      (Z.ltb_spec i (0 + 8)); try lia; simpl;
    rewrite ?xorb_false_r, ?xorb_false_l; try done.
  symmetry. apply (testbit_uint_high 32); [done | lia].
Qed.

Lemma byte_of_word n w : is_word w -> 0 <= n -> byte_of n w = u8 (Z.shiftr w n).
Proof.
  intros _ Hn. unfold byte_of, wrap. change 255 with (Z.ones 8).
  now rewrite Z.land_ones by lia.
Qed.

Lemma PUTU32_ok w : bytes_ok (PUTU32 w).
Proof. repeat constructor; apply is_uint_wrap8. Qed.

Lemma GETU32_pack a b c d l : GETU32 (a :: b :: c :: d :: l) = pack a b c d.
Proof. reflexivity. Qed.

Lemma GETU32_PUTU32 w l : is_word w -> GETU32 (PUTU32 w ++ l) = w.
Proof.
  intros Hw. unfold PUTU32. simpl app. rewrite GETU32_pack.
  rewrite <- !(byte_of_word _ w Hw) by lia.
  replace (u8 w) with (byte_of 0 w) by (rewrite byte_of_word by (done || lia); now rewrite Z.shiftr_0_r).
  now apply pack_bytes.
Qed.

(** ** Linear functions of bytes and of words *)

Definition linear (f : Z -> Z) : Prop :=
  forall a b, is_byte a -> is_byte b -> f (Z.lxor a b) = Z.lxor (f a) (f b).

(** The sum of [f (2 ^ i)] over the bits of [b]. *)
Definition by_bits (f : Z -> Z) (b : Z) : Z :=
  fold_right (fun i acc => Z.lxor (if Z.testbit b i then f (2 ^ i) else 0) acc) 0
    [0; 1; 2; 3; 4; 5; 6; 7].

Lemma xorb_lxor (p q : bool) x :
  (if xorb p q then x else 0) = Z.lxor (if p then x else 0) (if q then x else 0).
Proof. destruct p, q; simpl; now rewrite ?Z.lxor_nilpotent, ?Z.lxor_0_r. Qed.

Lemma lxor_swap a b c d : Z.lxor (Z.lxor a b) (Z.lxor c d) = Z.lxor (Z.lxor a c) (Z.lxor b d).
Proof. apply Z.bits_inj. intros i. rewrite !Z.lxor_spec. btauto. Qed.

Lemma by_bits_lxor f a b : by_bits f (Z.lxor a b) = Z.lxor (by_bits f a) (by_bits f b).
Proof.
  unfold by_bits. induction [0; 1; 2; 3; 4; 5; 6; 7] as [|i l IH]; [done|]. cbn [fold_right].
  now rewrite IH, Z.lxor_spec, xorb_lxor, lxor_swap.
Qed.

Lemma linear_by_bits f : forallb (fun b => f b =? by_bits f b) bytes256 = true -> linear f.
Proof.
  intros H a b Ha Hb. assert (forall x, is_byte x -> f x = by_bits f x) as E.
  { intros x Hx. apply Z.eqb_eq. revert x Hx. now apply forall_byte. }
  rewrite !E by (try apply is_uint_lxor; done || lia). apply by_bits_lxor.
Qed.

Ltac by_linear := apply linear_by_bits; vm_compute; reflexivity.

(** A function that is a sum of functions of the four bytes of a word. *)
Definition bytewise (f0 f1 f2 f3 : Z -> Z) (w : Z) : Z :=
  Z.lxor (Z.lxor (Z.lxor (f0 (byte_of 24 w)) (f1 (byte_of 16 w))) (f2 (byte_of 8 w))) (f3 (byte_of 0 w)).

Lemma bytewise_lxor f0 f1 f2 f3 x y :
  linear f0 -> linear f1 -> linear f2 -> linear f3 ->
  bytewise f0 f1 f2 f3 (Z.lxor x y) = Z.lxor (bytewise f0 f1 f2 f3 x) (bytewise f0 f1 f2 f3 y).
Proof.
  intros H0 H1 H2 H3. unfold bytewise. rewrite !byte_of_lxor.
  rewrite H0, H1, H2, H3 by apply byte_of_range.
  generalize (f0 (byte_of 24 x)) (f1 (byte_of 16 x)) (f2 (byte_of 8 x)) (f3 (byte_of 0 x))
    (f0 (byte_of 24 y)) (f1 (byte_of 16 y)) (f2 (byte_of 8 y)) (f3 (byte_of 0 y)).
  intros. apply Z.bits_inj. intros i. rewrite !Z.lxor_spec. btauto.
Qed.

(** The inverse MixColumn transformation of a byte in each position ... *)
Definition I0 (b : Z) : Z := TD0_ (TE4 b).
Definition I1 (b : Z) : Z := TD1_ (TE4 b).
Definition I2 (b : Z) : Z := TD2_ (TE4 b).
Definition I3 (b : Z) : Z := TD3_ (TE4 b).
(** ... and the MixColumn transformation. *)
Definition M0 (b : Z) : Z := tab Te0 (tab Td4s b).
Definition M1 (b : Z) : Z := rotr (tab Te0 (tab Td4s b)) 8.
Definition M2 (b : Z) : Z := rotr (tab Te0 (tab Td4s b)) 16.
Definition M3 (b : Z) : Z := rotr (tab Te0 (tab Td4s b)) 24.

Definition imix : Z -> Z := bytewise I0 I1 I2 I3.
Definition mix : Z -> Z := bytewise M0 M1 M2 M3.

Lemma I0_linear : linear I0. Proof. by_linear. Qed.
Lemma I1_linear : linear I1. Proof. by_linear. Qed.
Lemma I2_linear : linear I2. Proof. by_linear. Qed.
Lemma I3_linear : linear I3. Proof. by_linear. Qed.
Lemma M0_linear : linear M0. Proof. by_linear. Qed.
Lemma M1_linear : linear M1. Proof. by_linear. Qed.
Lemma M2_linear : linear M2. Proof. by_linear. Qed.
Lemma M3_linear : linear M3. Proof. by_linear. Qed.

Lemma imix_lxor x y : imix (Z.lxor x y) = Z.lxor (imix x) (imix y).
Proof. apply bytewise_lxor; [apply I0_linear | apply I1_linear | apply I2_linear | apply I3_linear]. Qed.

Lemma mix_lxor x y : mix (Z.lxor x y) = Z.lxor (mix x) (mix y).
Proof. apply bytewise_lxor; [apply M0_linear | apply M1_linear | apply M2_linear | apply M3_linear]. Qed.

Lemma inv_mix_imix w : is_word w -> inv_mix w = imix w.
Proof.
  intros Hw. unfold inv_mix, imix, bytewise, I0, I1, I2, I3.
  replace (byte_of 24 w) with (Z.shiftr w 24); [done|].
  rewrite (byte_of_word _ _ Hw) by lia. symmetry. apply wrap_small. unfold is_uint in *.
  rewrite Z.shiftr_div_pow2 by lia. Z.div_mod_to_equations. lia.
Qed.

(** *** On single bytes the transformations are inverse *)

Lemma imix_M0 b : is_byte b -> imix (M0 b) = Z.shiftl b 24. Proof. intros Hb. by_bytes b Hb. Qed.
Lemma imix_M1 b : is_byte b -> imix (M1 b) = Z.shiftl b 16. Proof. intros Hb. by_bytes b Hb. Qed.
Lemma imix_M2 b : is_byte b -> imix (M2 b) = Z.shiftl b 8. Proof. intros Hb. by_bytes b Hb. Qed.
Lemma imix_M3 b : is_byte b -> imix (M3 b) = b. Proof. intros Hb. by_bytes b Hb. Qed.
Lemma mix_I0 b : is_byte b -> mix (I0 b) = Z.shiftl b 24. Proof. intros Hb. by_bytes b Hb. Qed.
Lemma mix_I1 b : is_byte b -> mix (I1 b) = Z.shiftl b 16. Proof. intros Hb. by_bytes b Hb. Qed.
Lemma mix_I2 b : is_byte b -> mix (I2 b) = Z.shiftl b 8. Proof. intros Hb. by_bytes b Hb. Qed.
Lemma mix_I3 b : is_byte b -> mix (I3 b) = b. Proof. intros Hb. by_bytes b Hb. Qed.

Lemma imix_mix w : is_word w -> imix (mix w) = w.
Proof.
  intros Hw. unfold mix, bytewise. rewrite !imix_lxor, imix_M0, imix_M1, imix_M2, imix_M3 by apply byte_of_range.
  now apply pack_bytes.
Qed.

Lemma mix_imix w : is_word w -> mix (imix w) = w.
Proof.
  intros Hw. unfold imix, bytewise. rewrite !mix_lxor, mix_I0, mix_I1, mix_I2, mix_I3 by apply byte_of_range.
  now apply pack_bytes.
Qed.

(** ** S-boxes *)

Definition sbox (b : Z) : Z := TE4 b.
Definition isbox (b : Z) : Z := tab Td4s b.

Lemma sbox_range b : is_byte b -> is_byte (sbox b). Proof. intros Hb. byte_range b Hb. Qed.
Lemma isbox_range b : is_byte b -> is_byte (isbox b). Proof. intros Hb. byte_range b Hb. Qed.
Lemma sbox_isbox b : is_byte b -> sbox (isbox b) = b. Proof. intros Hb. by_bytes b Hb. Qed.
Lemma isbox_sbox b : is_byte b -> isbox (sbox b) = b. Proof. intros Hb. by_bytes b Hb. Qed.

(** The table entries of a round, of encryption ... *)
Lemma Te0_sbox b : is_byte b -> tab Te0 b = M0 (sbox b). Proof. intros Hb. by_bytes b Hb. Qed.
Lemma Td0_isbox b : is_byte b -> tab Td0 b = I0 (isbox b). Proof. intros Hb. by_bytes b Hb. Qed.
Lemma Te0_sub3 b : is_byte b -> Z.land (u32 (Z.shiftl (tab Te0 b) 8)) 0xff000000 = Z.shiftl (sbox b) 24.
Proof. intros Hb. by_bytes b Hb. Qed.
Lemma Te0_sub2 b : is_byte b -> Z.land (tab Te0 b) 0x00ff0000 = Z.shiftl (sbox b) 16.
Proof. intros Hb. by_bytes b Hb. Qed.
Lemma Te0_sub1 b : is_byte b -> Z.land (tab Te0 b) 0x0000ff00 = Z.shiftl (sbox b) 8.
Proof. intros Hb. by_bytes b Hb. Qed.
Lemma Te0_sub0 b : is_byte b -> Z.land (Z.shiftr (tab Te0 b) 8) 0x000000ff = sbox b.
Proof. intros Hb. by_bytes b Hb. Qed.
Lemma Td4s_sub3 b : is_byte b -> u32 (Z.shiftl (tab Td4s b) 24) = Z.shiftl (isbox b) 24.
Proof. intros Hb. by_bytes b Hb. Qed.
Lemma Td4s_sub2 b : is_byte b -> u32 (Z.shiftl (tab Td4s b) 16) = Z.shiftl (isbox b) 16.
Proof. intros Hb. by_bytes b Hb. Qed.
Lemma Td4s_sub1 b : is_byte b -> u32 (Z.shiftl (tab Td4s b) 8) = Z.shiftl (isbox b) 8.
Proof. intros Hb. by_bytes b Hb. Qed.

(** The words of the program, as mixed or plain S-box words. *)
Definition sub_pack (w0 w1 w2 w3 : Z) : Z :=
  pack (sbox (byte_of 24 w0)) (sbox (byte_of 16 w1)) (sbox (byte_of 8 w2)) (sbox (byte_of 0 w3)).
Definition isub_pack (w0 w1 w2 w3 : Z) : Z :=
  pack (isbox (byte_of 24 w0)) (isbox (byte_of 16 w1)) (isbox (byte_of 8 w2)) (isbox (byte_of 0 w3)).

(** The bytes of a packed word. *)
Lemma byte_of_pack a b c d :
  is_byte a -> is_byte b -> is_byte c -> is_byte d ->
  byte_of 24 (pack a b c d) = a /\ byte_of 16 (pack a b c d) = b
  /\ byte_of 8 (pack a b c d) = c /\ byte_of 0 (pack a b c d) = d.
Proof.
  intros Ha Hb Hc Hd. unfold pack. rewrite !byte_of_lxor.
  assert (byte_of 24 (Z.shiftl a 24) = a) as -> by by_bytes a Ha.
  assert (byte_of 24 (Z.shiftl b 16) = 0) as -> by by_bytes b Hb.
  assert (byte_of 24 (Z.shiftl c 8) = 0) as -> by by_bytes c Hc.
  assert (byte_of 24 d = 0) as -> by by_bytes d Hd.
  assert (byte_of 16 (Z.shiftl a 24) = 0) as -> by by_bytes a Ha.
  assert (byte_of 16 (Z.shiftl b 16) = b) as -> by by_bytes b Hb.
  assert (byte_of 16 (Z.shiftl c 8) = 0) as -> by by_bytes c Hc.
  assert (byte_of 16 d = 0) as -> by by_bytes d Hd.
  assert (byte_of 8 (Z.shiftl a 24) = 0) as -> by by_bytes a Ha.
  assert (byte_of 8 (Z.shiftl b 16) = 0) as -> by by_bytes b Hb.
  assert (byte_of 8 (Z.shiftl c 8) = c) as -> by by_bytes c Hc.
  assert (byte_of 8 d = 0) as -> by by_bytes d Hd.
  assert (byte_of 0 (Z.shiftl a 24) = 0) as -> by by_bytes a Ha.
  assert (byte_of 0 (Z.shiftl b 16) = 0) as -> by by_bytes b Hb.
  assert (byte_of 0 (Z.shiftl c 8) = 0) as -> by by_bytes c Hc.
  assert (byte_of 0 d = d) as -> by by_bytes d Hd.
  rewrite ?Z.lxor_0_r, ?Z.lxor_0_l. auto.
Qed.

Lemma pack_range a b c d :
  is_byte a -> is_byte b -> is_byte c -> is_byte d -> is_word (pack a b c d).
Proof.
  intros Ha Hb Hc Hd. unfold pack.
  repeat apply is_uint_lxor; try lia; [byte_range a Ha | byte_range b Hb | byte_range c Hc | byte_range d Hd].
Qed.

(** ** Rounds *)

Definition wf (s : words) : Prop := is_word (s0 s) /\ is_word (s1 s) /\ is_word (s2 s) /\ is_word (s3 s).
Ltac wf_split := split; [|split; [|split]].

Definition map_words (f : Z -> Z) (s : words) : words := Words (f (s0 s)) (f (s1 s)) (f (s2 s)) (f (s3 s)).
Definition xor_words (s k : words) : words :=
  Words (Z.lxor (s0 s) (s0 k)) (Z.lxor (s1 s) (s1 k)) (Z.lxor (s2 s) (s2 k)) (Z.lxor (s3 s) (s3 k)).

(** The round key at word [o]. *)
Definition key_at (rk : list Z) (o : nat) : words :=
  Words (word rk o) (word rk (o + 1)) (word rk (o + 2)) (word rk (o + 3)).

(** SubBytes with ShiftRows, and their inverses. *)
Definition sub_shift (s : words) : words :=
  Words (sub_pack (s0 s) (s1 s) (s2 s) (s3 s)) (sub_pack (s1 s) (s2 s) (s3 s) (s0 s))
        (sub_pack (s2 s) (s3 s) (s0 s) (s1 s)) (sub_pack (s3 s) (s0 s) (s1 s) (s2 s)).
Definition isub_shift (s : words) : words :=
  Words (isub_pack (s0 s) (s3 s) (s2 s) (s1 s)) (isub_pack (s1 s) (s0 s) (s3 s) (s2 s))
        (isub_pack (s2 s) (s1 s) (s0 s) (s3 s)) (isub_pack (s3 s) (s2 s) (s1 s) (s0 s)).

#[local] Hint Resolve byte_of_range sbox_range isbox_range : aes.

Lemma bytewise_pack f0 f1 f2 f3 a b c d :
  is_byte a -> is_byte b -> is_byte c -> is_byte d ->
  bytewise f0 f1 f2 f3 (pack a b c d) = Z.lxor (Z.lxor (Z.lxor (f0 a) (f1 b)) (f2 c)) (f3 d).
Proof.
  intros Ha Hb Hc Hd. destruct (byte_of_pack a b c d Ha Hb Hc Hd) as (Ea & Eb & Ec & Ed).
  unfold bytewise. now rewrite Ea, Eb, Ec, Ed.
Qed.

Lemma sub_pack_range a b c d : is_word (sub_pack a b c d).
Proof. unfold sub_pack. apply pack_range; auto with aes. Qed.
Lemma isub_pack_range a b c d : is_word (isub_pack a b c d).
Proof. unfold isub_pack. apply pack_range; auto with aes. Qed.

Lemma sub_shift_wf s : wf (sub_shift s).
Proof. wf_split; apply sub_pack_range. Qed.
Lemma isub_shift_wf s : wf (isub_shift s).
Proof. wf_split; apply isub_pack_range. Qed.

Lemma mix_sub_pack a b c d :
  mix (sub_pack a b c d) = Z.lxor (Z.lxor (Z.lxor (TE0 a) (TE1 b)) (TE2 c)) (TE3 d).
Proof.
  unfold mix, sub_pack. rewrite bytewise_pack by auto with aes.
  unfold TE0, TE1, TE2, TE3. rewrite !Te0_sbox by auto with aes. reflexivity.
Qed.

Lemma imix_isub_pack a b c d :
  imix (isub_pack a b c d) = Z.lxor (Z.lxor (Z.lxor (TD0 a) (TD1 b)) (TD2 c)) (TD3 d).
Proof.
  unfold imix, isub_pack. rewrite bytewise_pack by auto with aes.
  unfold TD0, TD1, TD2, TD3. rewrite !Td0_isbox by auto with aes.
  unfold I0, I1, I2, I3, TD0_, TD1_, TD2_, TD3_.
  fold (sbox (isbox (byte_of 24 a))) (sbox (isbox (byte_of 16 b)))
    (sbox (isbox (byte_of 8 c))) (sbox (isbox (byte_of 0 d))).
  rewrite !sbox_isbox by auto with aes.
  assert (forall x, is_byte x -> byte_of 0 x = x) as B by (intros x Hx; by_bytes x Hx).
  now rewrite !B by auto with aes.
Qed.

Lemma sub_pack_TE4 a b c d :
  sub_pack a b c d = Z.lxor (Z.lxor (Z.lxor (TE41 a) (TE42 b)) (TE43 c)) (TE44 d).
Proof.
  unfold sub_pack, pack, TE41, TE42, TE43, TE44.
  now rewrite Te0_sub3, Te0_sub2, Te0_sub1, Te0_sub0 by auto with aes.
Qed.

Lemma isub_pack_TD4 a b c d :
  isub_pack a b c d = Z.lxor (Z.lxor (Z.lxor (TD41 a) (TD42 b)) (TD43 c)) (TD44 d).
Proof.
  unfold isub_pack, pack, TD41, TD42, TD43, TD44.
  now rewrite Td4s_sub3, Td4s_sub2, Td4s_sub1 by auto with aes.
Qed.

Lemma ROUND_enc_spec rk o s :
  ROUND_enc rk o s = xor_words (map_words mix (sub_shift s)) (key_at rk o).
Proof.
  unfold ROUND_enc, xor_words, map_words, sub_shift, key_at, xor5. cbn [s0 s1 s2 s3].
  now rewrite !mix_sub_pack.
Qed.

Lemma ROUND_dec_spec rk o s :
  ROUND_dec rk o s = xor_words (map_words imix (isub_shift s)) (key_at rk o).
Proof.
  unfold ROUND_dec, xor_words, map_words, isub_shift, key_at, xor5. cbn [s0 s1 s2 s3].
  now rewrite !imix_isub_pack.
Qed.

Lemma last_enc_spec rk o s : last_enc rk o s = xor_words (sub_shift s) (key_at rk o).
Proof.
  unfold last_enc, xor_words, sub_shift, key_at, xor5. cbn [s0 s1 s2 s3].
  now rewrite !sub_pack_TE4.
Qed.

Lemma last_dec_spec rk o s : last_dec rk o s = xor_words (isub_shift s) (key_at rk o).
Proof.
  unfold last_dec, xor_words, isub_shift, key_at, xor5. cbn [s0 s1 s2 s3].
  now rewrite !isub_pack_TD4.
Qed.

(** Each substitution undoes the other. *)
Lemma byte_of_sub_pack a b c d :
  byte_of 24 (sub_pack a b c d) = sbox (byte_of 24 a) /\ byte_of 16 (sub_pack a b c d) = sbox (byte_of 16 b)
  /\ byte_of 8 (sub_pack a b c d) = sbox (byte_of 8 c) /\ byte_of 0 (sub_pack a b c d) = sbox (byte_of 0 d).
Proof. apply byte_of_pack; auto with aes. Qed.

Lemma byte_of_isub_pack a b c d :
  byte_of 24 (isub_pack a b c d) = isbox (byte_of 24 a) /\ byte_of 16 (isub_pack a b c d) = isbox (byte_of 16 b)
  /\ byte_of 8 (isub_pack a b c d) = isbox (byte_of 8 c) /\ byte_of 0 (isub_pack a b c d) = isbox (byte_of 0 d).
Proof. apply byte_of_pack; auto with aes. Qed.

Lemma isub_pack_sub a b c d b0 b2 b3 c0 c1 c3 d0 d1 d2 :
  is_word a ->
  isub_pack (sub_pack a b c d) (sub_pack b0 a b2 b3) (sub_pack c0 c1 a c3) (sub_pack d0 d1 d2 a) = a.
Proof.
  intros Ha.
  destruct (byte_of_sub_pack a b c d) as (E1 & _), (byte_of_sub_pack b0 a b2 b3) as (_ & E2 & _),
    (byte_of_sub_pack c0 c1 a c3) as (_ & _ & E3 & _), (byte_of_sub_pack d0 d1 d2 a) as (_ & _ & _ & E4).
  unfold isub_pack. rewrite E1, E2, E3, E4, !isbox_sbox by auto with aes. now apply pack_bytes.
Qed.

Lemma sub_pack_isub a b c d b0 b2 b3 c0 c1 c3 d0 d1 d2 :
  is_word a ->
  sub_pack (isub_pack a b c d) (isub_pack b0 a b2 b3) (isub_pack c0 c1 a c3) (isub_pack d0 d1 d2 a) = a.
Proof.
  intros Ha.
  destruct (byte_of_isub_pack a b c d) as (E1 & _), (byte_of_isub_pack b0 a b2 b3) as (_ & E2 & _),
    (byte_of_isub_pack c0 c1 a c3) as (_ & _ & E3 & _), (byte_of_isub_pack d0 d1 d2 a) as (_ & _ & _ & E4).
  unfold sub_pack. rewrite E1, E2, E3, E4, !sbox_isbox by auto with aes. now apply pack_bytes.
Qed.

Lemma isub_sub s : wf s -> isub_shift (sub_shift s) = s.
Proof.
  intros (H0 & H1 & H2 & H3). destruct s as [a b c d]. cbn [s0 s1 s2 s3] in *.
  unfold isub_shift, sub_shift. cbn [s0 s1 s2 s3].
  now rewrite !isub_pack_sub.
Qed.

Lemma sub_isub s : wf s -> sub_shift (isub_shift s) = s.
Proof.
  intros (H0 & H1 & H2 & H3). destruct s as [a b c d]. cbn [s0 s1 s2 s3] in *.
  unfold isub_shift, sub_shift. cbn [s0 s1 s2 s3].
  now rewrite !sub_pack_isub.
Qed.

(** ** Runs of rounds *)

Definition enc_step (s k : words) : words := xor_words (map_words mix (sub_shift s)) k.
Definition dec_step (s k : words) : words := xor_words (map_words imix (isub_shift s)) k.

Lemma xor_words_cancel s k : xor_words (xor_words s k) k = s.
Proof.
  destruct s, k. unfold xor_words. cbn.
  now rewrite !Z.lxor_assoc, !Z.lxor_nilpotent, !Z.lxor_0_r.
Qed.

Lemma xor_words_wf s k : wf s -> wf k -> wf (xor_words s k).
Proof. intros (?&?&?&?) (?&?&?&?). wf_split; cbn; apply is_uint_lxor; auto; lia. Qed.

Lemma map_words_lxor f s k :
  (forall x y, f (Z.lxor x y) = Z.lxor (f x) (f y)) ->
  map_words f (xor_words s k) = xor_words (map_words f s) (map_words f k).
Proof. intros H. unfold map_words, xor_words. cbn. now rewrite !H. Qed.

Lemma map_words_inverse f g s :
  (forall x, is_word x -> f (g x) = x) -> wf s -> map_words f (map_words g s) = s.
Proof. intros H (?&?&?&?). destruct s. unfold map_words. cbn in *. now rewrite !H. Qed.

Lemma M_range b : is_byte b -> is_word (M0 b) /\ is_word (M1 b) /\ is_word (M2 b) /\ is_word (M3 b).
Proof. intros Hb. wf_split; byte_range b Hb. Qed.
Lemma I_range b : is_byte b -> is_word (I0 b) /\ is_word (I1 b) /\ is_word (I2 b) /\ is_word (I3 b).
Proof. intros Hb. wf_split; byte_range b Hb. Qed.

Lemma bytewise_range f0 f1 f2 f3 w :
  (forall b, is_byte b -> is_word (f0 b) /\ is_word (f1 b) /\ is_word (f2 b) /\ is_word (f3 b)) ->
  is_word (bytewise f0 f1 f2 f3 w).
Proof.
  intros H. unfold bytewise.
  destruct (H _ (byte_of_range 24 w)) as (H0 & _), (H _ (byte_of_range 16 w)) as (_ & H1 & _),
    (H _ (byte_of_range 8 w)) as (_ & _ & H2 & _), (H _ (byte_of_range 0 w)) as (_ & _ & _ & H3).
  auto using is_uint_lxor with lia.
Qed.

Lemma mix_range w : is_word (mix w).
Proof. apply bytewise_range, M_range. Qed.
Lemma imix_range w : is_word (imix w).
Proof. apply bytewise_range, I_range. Qed.

Lemma enc_step_wf s k : wf k -> wf (enc_step s k).
Proof. intros. apply xor_words_wf; [|done]. wf_split; apply mix_range. Qed.
Lemma dec_step_wf s k : wf k -> wf (dec_step s k).
Proof. intros. apply xor_words_wf; [|done]. wf_split; apply imix_range. Qed.

Lemma enc_run_wf ks s : Forall wf ks -> wf s -> wf (fold_left enc_step ks s).
Proof. intros H. revert s. induction H; simpl; auto using enc_step_wf. Qed.
Lemma dec_run_wf ks s : Forall wf ks -> wf s -> wf (fold_left dec_step ks s).
Proof. intros H. revert s. induction H; simpl; auto using dec_step_wf. Qed.

(** One round of decryption undoes one of encryption, between the substitutions ... *)
Lemma dec_enc_step s k :
  wf k -> dec_step (sub_shift (enc_step s k)) (map_words imix k) = sub_shift s.
Proof.
  intros Hk. unfold dec_step. rewrite (isub_sub (enc_step s k)) by now apply enc_step_wf.
  unfold enc_step. rewrite (map_words_lxor imix) by apply imix_lxor.
  rewrite xor_words_cancel. apply map_words_inverse; [apply imix_mix | apply sub_shift_wf].
Qed.

(** ... and the other way round. *)
Lemma enc_dec_step s k :
  wf k -> enc_step (isub_shift (dec_step s (map_words imix k))) k = isub_shift s.
Proof.
  intros Hk. unfold enc_step. rewrite (sub_isub (dec_step _ _)) by (apply dec_step_wf; wf_split; apply imix_range).
  unfold dec_step. rewrite (map_words_lxor mix) by apply mix_lxor.
  rewrite (map_words_inverse mix imix k), (map_words_inverse mix imix (isub_shift s))
    by (apply mix_imix || apply isub_shift_wf || exact Hk).
  apply xor_words_cancel.
Qed.

(** If every step of one direction is undone by the other, with its key
    transformed, then a run is undone by the run over the reversed keys. *)
Section Runs.
Context {W : Type} (enc dec : W -> W -> W) (sub isub im : W -> W) (good : W -> Prop).

Lemma run_backward ks s :
  (forall s k, good k -> dec (sub (enc s k)) (im k) = sub s) ->
  Forall good ks ->
  fold_left dec (rev (im <$> ks)) (sub (fold_left enc ks s)) = sub s.
Proof.
  intros H Hk. induction ks as [|k ks IH] using rev_ind; [reflexivity|].
  apply Forall_app in Hk as [Hks Hk]. apply Forall_inv in Hk.
  rewrite fold_left_app, fmap_app, rev_app_distr. simpl. rewrite H by done. auto.
Qed.

Lemma run_forward ks s :
  (forall s k, good k -> enc (isub (dec s (im k))) k = isub s) ->
  Forall good ks ->
  fold_left enc ks (isub (fold_left dec (rev (im <$> ks)) s)) = isub s.
Proof.
  intros H Hk. induction Hk as [|k ks Hk Hks IH]; [reflexivity|].
  simpl. rewrite fold_left_app. simpl. rewrite H by done. auto.
Qed.
End Runs.

(** ** The loop of the source as a run of rounds *)

Definition keys_from (rk : list Z) (m n : nat) : list words := (fun i => key_at rk (4 * i)) <$> seq m n.

Lemma full_rounds_spec step round rk r m s :
  (forall o x, round rk o x = step x (key_at rk o)) ->
  full_rounds round rk (S r) (4 * m) s
  = (fold_left step (keys_from rk (S m) (2 * r + 1)) s, (4 * (m + 2 * r + 2))%nat).
Proof.
  intros Hr. revert m s. induction r as [|r IH]; intros m s.
  - cbn [full_rounds]. rewrite Hr. unfold keys_from.
    replace (4 * m + 4)%nat with (4 * S m)%nat by lia. cbn -[Nat.mul Nat.add]. f_equal. lia.
  - change (full_rounds round rk (S (S r)) (4 * m) s) with
      (full_rounds round rk (S r) (4 * m + 8) (round rk (4 * m + 8)%nat (round rk (4 * m + 4)%nat s))).
    replace (4 * m + 8)%nat with (4 * (S (S m)))%nat by lia. rewrite IH, !Hr.
    replace (2 * S r + 1)%nat with (S (S (2 * r + 1))) by lia.
    replace (4 * m + 4)%nat with (4 * S m)%nat by lia.
    unfold keys_from. cbn [seq fmap list_fmap fold_left]. f_equal. lia.
Qed.

(** ** Blocks *)

Definition get_block (b : bytes) : words :=
  Words (GETU32 b) (GETU32 (drop 4 b)) (GETU32 (drop 8 b)) (GETU32 (drop 12 b)).

Lemma load_block_spec rk b : load_block rk b = xor_words (get_block b) (key_at rk 0).
Proof. reflexivity. Qed.

Lemma GETU32_range b : bytes_ok b -> is_word (GETU32 b).
Proof. intros Hb. apply (pack_range (byte_at b 0)); now apply byte_at_ok. Qed.

Lemma get_block_wf b : bytes_ok b -> wf (get_block b).
Proof. intros Hb. wf_split; apply GETU32_range; auto with wpa. Qed.

Lemma get_store_block w : wf w -> get_block (store_block w) = w.
Proof.
  intros (H0 & H1 & H2 & H3). destruct w as [a b c d]. cbn [s0 s1 s2 s3] in *.
  unfold get_block, store_block. cbn [s0 s1 s2 s3].
  f_equal; [exact (GETU32_PUTU32 a _ H0) | exact (GETU32_PUTU32 b _ H1)
           | exact (GETU32_PUTU32 c _ H2) | exact (GETU32_PUTU32 d [] H3)].
Qed.

Lemma PUTU32_pack a b c d :
  is_byte a -> is_byte b -> is_byte c -> is_byte d -> PUTU32 (pack a b c d) = [a; b; c; d].
Proof.
  intros Ha Hb Hc Hd. pose proof (pack_range a b c d Ha Hb Hc Hd) as Hw.
  destruct (byte_of_pack a b c d Ha Hb Hc Hd) as (Ea & Eb & Ec & Ed).
  unfold PUTU32. rewrite <- !(byte_of_word _ _ Hw) by lia.
  replace (u8 (pack a b c d)) with (byte_of 0 (pack a b c d))
    by (rewrite byte_of_word by (done || lia); now rewrite Z.shiftr_0_r).
  now rewrite Ea, Eb, Ec, Ed.
Qed.

Lemma store_get_block b : is_block b -> store_block (get_block b) = b.
Proof.
  intros [Hl Hb]. unfold AES_BLOCK_SIZE in Hl.
  do 16 (destruct b as [|? b]; [discriminate|]). destruct b; [|discriminate].
  repeat (apply Forall_cons in Hb as [? Hb]).
  unfold get_block, store_block. cbn [s0 s1 s2 s3 drop].
  rewrite !GETU32_pack. now rewrite !PUTU32_pack.
Qed.

Lemma store_block_ok w : is_block (store_block w).
Proof.
  split; [reflexivity|]. unfold store_block. rewrite !bytes_ok_app. auto using PUTU32_ok.
Qed.

(** ** The whole cipher as a run of rounds *)

Definition rounds_ok (n : nat) : Prop := n = 10%nat \/ n = 12%nat \/ n = 14%nat.

Lemma half_rounds n : rounds_ok n ->
  exists r, Z.to_nat (Z.shiftr (Z.of_nat n) 1) = S r /\ n = (2 * r + 2)%nat.
Proof. intros [-> | [-> | ->]]; [exists 4%nat | exists 5%nat | exists 6%nat]; done. Qed.

Lemma rijndaelEncrypt_spec rk n pt : rounds_ok n ->
  rijndaelEncrypt rk (Z.of_nat n) pt
  = store_block (xor_words (sub_shift (fold_left enc_step (keys_from rk 1 (n - 1))
                   (xor_words (get_block pt) (key_at rk 0)))) (key_at rk (4 * n))).
Proof.
  intros Hn. destruct (half_rounds n Hn) as (r & Er & En). unfold rijndaelEncrypt. rewrite Er.
  pose proof (full_rounds_spec enc_step ROUND_enc rk r 0 (load_block rk pt) (ROUND_enc_spec rk)) as E.
  change (4 * 0)%nat with 0%nat in E. rewrite E, last_enc_spec, load_block_spec.
  now replace (2 * r + 1)%nat with (n - 1)%nat by lia; replace (0 + 2 * r + 2)%nat with n by lia.
Qed.

Lemma rijndaelDecrypt_spec rk n ct : rounds_ok n ->
  rijndaelDecrypt rk (Z.of_nat n) ct
  = store_block (xor_words (isub_shift (fold_left dec_step (keys_from rk 1 (n - 1))
                   (xor_words (get_block ct) (key_at rk 0)))) (key_at rk (4 * n))).
Proof.
  intros Hn. destruct (half_rounds n Hn) as (r & Er & En). unfold rijndaelDecrypt. rewrite Er.
  pose proof (full_rounds_spec dec_step ROUND_dec rk r 0 (load_block rk ct) (ROUND_dec_spec rk)) as E.
  change (4 * 0)%nat with 0%nat in E. rewrite E, last_dec_spec, load_block_spec.
  now replace (2 * r + 1)%nat with (n - 1)%nat by lia; replace (0 + 2 * r + 2)%nat with n by lia.
Qed.

(** Two schedules of which one is the other backwards, through the inverse
    MixColumn transformation. *)
Record inverse_keys (n : nat) (ek dk : list Z) : Prop := {
  ik_first : key_at dk 0 = key_at ek (4 * n);
  ik_last : key_at dk (4 * n) = key_at ek 0;
  ik_middle : keys_from dk 1 (n - 1) = rev (map_words imix <$> keys_from ek 1 (n - 1));
  ik_wf : forall i, (i <= n)%nat -> wf (key_at ek (4 * i))
}.

Lemma keys_from_wf n ek : (forall i, (i <= n)%nat -> wf (key_at ek (4 * i))) ->
  Forall wf (keys_from ek 1 (n - 1)).
Proof.
  intros H. apply Forall_fmap, Forall_forall. intros i Hi. apply elem_of_seq in Hi.
  apply H. lia.
Qed.

Lemma decrypt_encrypt n ek dk b :
  rounds_ok n -> inverse_keys n ek dk -> is_block b ->
  rijndaelDecrypt dk (Z.of_nat n) (rijndaelEncrypt ek (Z.of_nat n) b) = b.
Proof.
  intros Hn [H0 H1 Hm Hw] Hb.
  assert (wf (get_block b)) as Wb by apply get_block_wf, Hb.
  pose proof (keys_from_wf n ek Hw) as Wk.
  rewrite rijndaelDecrypt_spec, rijndaelEncrypt_spec by done.
  rewrite get_store_block by (apply xor_words_wf; [apply sub_shift_wf | now apply Hw]).
  rewrite H0, xor_words_cancel, Hm, H1.
  rewrite (run_backward enc_step dec_step sub_shift (map_words imix) wf) by (apply dec_enc_step || done).
  rewrite isub_sub by (apply xor_words_wf; [done | apply (Hw 0%nat); lia]).
  rewrite xor_words_cancel. now apply store_get_block.
Qed.

Lemma encrypt_decrypt n ek dk b :
  rounds_ok n -> inverse_keys n ek dk -> is_block b ->
  rijndaelEncrypt ek (Z.of_nat n) (rijndaelDecrypt dk (Z.of_nat n) b) = b.
Proof.
  intros Hn [H0 H1 Hm Hw] Hb.
  assert (wf (get_block b)) as Wb by apply get_block_wf, Hb.
  pose proof (keys_from_wf n ek Hw) as Wk.
  rewrite rijndaelEncrypt_spec, rijndaelDecrypt_spec by done.
  rewrite H1, get_store_block by (apply xor_words_wf; [apply isub_shift_wf | apply (Hw 0%nat); lia]).
  rewrite xor_words_cancel, H0, Hm.
  rewrite (run_forward enc_step dec_step isub_shift (map_words imix) wf) by (apply enc_dec_step || done).
  rewrite sub_isub by (apply xor_words_wf; [done | apply (Hw n); lia]).
  rewrite xor_words_cancel. now apply store_get_block.
Qed.

(** ** The key schedules *)

Definition sched_ok (rk : list Z) : Prop := length rk = 61%nat /\ Forall is_word rk.

Lemma word_range rk i : sched_ok rk -> is_word (word rk i).
Proof.
  intros [_ H]. unfold word. destruct (nth_in_or_default i rk 0) as [Hi | ->].
  - rewrite <- list_elem_of_In in Hi. exact (proj1 (Forall_forall _ _) H _ Hi).
  - unfold is_uint. lia.
Qed.

Lemma set_word_sched i v rk : sched_ok rk -> is_word v -> sched_ok (set_word i v rk).
Proof.
  intros [Hl H] Hv. split; unfold set_word; [now rewrite length_insert | now apply Forall_insert].
Qed.

Lemma xor_into_sched d a b rk : sched_ok rk -> sched_ok (xor_into d a b rk).
Proof. intros H. apply set_word_sched; [done|]. apply is_uint_lxor; auto using word_range with lia. Qed.

Lemma land_word a m : is_word m -> is_word (Z.land a m).
Proof. intros Hm. rewrite Z.land_comm. apply is_uint_land_l; [lia | done]. Qed.

Lemma sub_rot_range t i : is_word (sub_rot t i).
Proof.
  unfold sub_rot, TE421, TE432, TE443, TE414, RCON.
  repeat apply is_uint_lxor; try lia; try (apply land_word; unfold is_uint; lia).
  apply wrap_range. lia.
Qed.

Lemma sub_word_range t : is_word (sub_word t).
Proof.
  unfold sub_word, TE411, TE422, TE433, TE444.
  repeat apply is_uint_lxor; try lia; apply land_word; unfold is_uint; lia.
Qed.

#[local] Hint Resolve xor_into_sched word_range sub_rot_range sub_word_range : sched.

Lemma expand128_sched i rk : sched_ok rk -> sched_ok (expand128 i rk).
Proof.
  intros H. unfold expand128. do 3 apply xor_into_sched. apply set_word_sched; [done|].
  apply is_uint_lxor; auto with sched lia.
Qed.

Lemma expand192_sched i rk : sched_ok rk -> sched_ok (expand192 i rk).
Proof.
  intros H. unfold expand192.
  match goal with |- context [if _ then ?r else _] => assert (sched_ok r) as H' end.
  { do 3 apply xor_into_sched. apply set_word_sched; [done|]. apply is_uint_lxor; auto with sched lia. }
  destruct (i =? 7)%nat; auto with sched.
Qed.

Lemma expand256_sched i rk : sched_ok rk -> sched_ok (expand256 i rk).
Proof.
  intros H. unfold expand256.
  match goal with |- context [if _ then ?r else _] => set (rk' := r) in *; assert (sched_ok rk') as H' end.
  { do 3 apply xor_into_sched. apply set_word_sched; [done|]. apply is_uint_lxor; auto with sched lia. }
  clearbody rk'. destruct (i =? 6)%nat; [done|].
  do 3 apply xor_into_sched. apply set_word_sched; [done|]. apply is_uint_lxor; auto with sched lia.
Qed.

Lemma load_key_sched i key rk : bytes_ok key -> sched_ok rk -> sched_ok (load_key i key rk).
Proof. intros Hk H. apply set_word_sched; [done|]. apply GETU32_range. auto with wpa. Qed.

Lemma fold_sched (f : list Z -> nat -> list Z) l rk :
  (forall rk i, sched_ok rk -> sched_ok (f rk i)) -> sched_ok rk -> sched_ok (fold_left f l rk).
Proof. intros Hf. revert rk. induction l; simpl; auto. Qed.

Lemma key_setup_sched rk key bits res rk' :
  bytes_ok key -> sched_ok rk -> rijndaelKeySetupEnc rk key bits = (res, rk') ->
  sched_ok rk' /\ (res = -1 \/ exists n, rounds_ok n /\ res = Z.of_nat n).
Proof.
  intros Hk H. unfold rijndaelKeySetupEnc, rounds_ok.
  set (rk4 := load_key 3 _ _). assert (sched_ok rk4) as H4 by (do 4 (apply load_key_sched; [done|]); done).
  clearbody rk4. destruct (bits =? 128).
  { rewrite pair_equal_spec. intros [<- <-]. split; [apply fold_sched; auto using expand128_sched | eauto]. }
  set (rk6 := load_key 5 _ _). assert (sched_ok rk6) as H6 by (do 2 (apply load_key_sched; [done|]); done).
  clearbody rk6. destruct (bits =? 192).
  { rewrite pair_equal_spec. intros [<- <-]. split; [apply fold_sched; auto using expand192_sched | right; exists 12%nat; auto]. }
  set (rk8 := load_key 7 _ _). assert (sched_ok rk8) as H8 by (do 2 (apply load_key_sched; [done|]); done).
  clearbody rk8. destruct (bits =? 256).
  { rewrite pair_equal_spec. intros [<- <-]. split; [apply fold_sched; auto using expand256_sched | right; exists 14%nat; auto]. }
  rewrite pair_equal_spec. intros [<- <-]. auto.
Qed.

(** The loops of rijndaelKeySetupDec(), for any transformation of the words. *)
Definition transform_keys (f : Z -> Z) (n : nat) (rk : list Z) : list Z :=
  fold_left (fun rk k => set_word k (f (word rk k)) rk) (seq 4 (4 * (n - 1))) (invert_keys n 0 (4 * n) rk).

Lemma transform_keys_spec f n rk : rounds_ok n -> length rk = 61%nat ->
  key_at (transform_keys f n rk) 0 = key_at rk (4 * n)
  /\ key_at (transform_keys f n rk) (4 * n) = key_at rk 0
  /\ keys_from (transform_keys f n rk) 1 (n - 1) = rev (map_words f <$> keys_from rk 1 (n - 1))
  /\ word (transform_keys f n rk) AES_PRIV_NR_POS = word rk AES_PRIV_NR_POS.
Proof.
  intros Hn Hl. do 61 (destruct rk as [|? rk]; [discriminate|]). destruct rk; [|discriminate].
  destruct Hn as [-> | [-> | ->]]; repeat split.
Qed.

Lemma word_set_word i j v rk : word (set_word i v rk) j = if decide (i = j /\ (j < length rk)%nat) then v else word rk j.
Proof.
  unfold word, set_word. rewrite !nth_lookup. destruct (decide _) as [[-> Hl] | Hn].
  - now rewrite list_lookup_insert_eq.
  - destruct (decide (i = j)) as [-> | Hij]; [|now rewrite list_lookup_insert_ne].
    now rewrite list_insert_ge by (destruct (decide (j < length rk)%nat); [tauto | lia]).
Qed.

Lemma key_at_set_nr v rk o : (o + 3 < AES_PRIV_NR_POS)%nat -> key_at (set_word AES_PRIV_NR_POS v rk) o = key_at rk o.
Proof.
  intros Ho. unfold key_at. rewrite !word_set_word.
  now rewrite !decide_False by (intros [? _]; lia).
Qed.

Lemma keys_from_set_nr v rk n : rounds_ok n ->
  keys_from (set_word AES_PRIV_NR_POS v rk) 1 (n - 1) = keys_from rk 1 (n - 1).
Proof.
  intros Hn. apply list_fmap_ext. intros k i Hi. apply lookup_seq in Hi.
  apply key_at_set_nr. unfold AES_PRIV_NR_POS, rounds_ok in *. lia.
Qed.

(** What the two init functions make of a key and of allocated memory. *)
Lemma encrypt_init_inv mem key e :
  bytes_ok key -> (forall m, mem = Some m -> sched_ok m) ->
  Internal.aes_encrypt_init mem key = Some e ->
  exists m rk n, mem = Some m /\ rijndaelKeySetupEnc m key (zlen key * 8) = (Z.of_nat n, rk)
    /\ sched_ok rk /\ rounds_ok n /\ e = set_word AES_PRIV_NR_POS (Z.of_nat n) rk.
Proof.
  intros Hk Hm. unfold Internal.aes_encrypt_init. destruct mem as [m|]; [|discriminate].
  destruct (rijndaelKeySetupEnc m key (zlen key * 8)) as [res rk] eqn:E.
  destruct (key_setup_sched m key _ res rk Hk (Hm _ eq_refl) E) as [Hrk [-> | (n & Hn & ->)]]; [discriminate|].
  unfold Internal.finish_init. rewrite (proj2 (Z.ltb_ge _ 0)) by lia. intros [= <-].
  exists m, rk, n. split_and!; auto. now rewrite wrap_small by (unfold is_uint, rounds_ok in *; lia).
Qed.

(** The result of the key setup does not depend on the memory it is written to. *)
Lemma key_setup_rounds m key bits :
  (rijndaelKeySetupEnc m key bits).1
  = if bits =? 128 then 10 else if bits =? 192 then 12 else if bits =? 256 then 14 else -1.
Proof. unfold rijndaelKeySetupEnc. now destruct (bits =? 128), (bits =? 192), (bits =? 256). Qed.

(** The words written so far agree. *)
Definition agree (k : nat) (r r' : list Z) : Prop :=
  length r = length r' /\ forall i, (i < k)%nat -> word r i = word r' i.

Lemma agree_set k v v' r r' : agree k r r' -> v = v' -> agree (S k) (set_word k v r) (set_word k v' r').
Proof.
  intros [Hl H] ->. split; [unfold set_word; now rewrite !length_insert|].
  intros i Hi. rewrite !word_set_word, Hl. destruct (decide _) as [_ | Hn]; [done|].
  destruct (decide (i = k)) as [-> | Hik]; [|apply H; lia].
  unfold word. rewrite !nth_overflow by (destruct (decide (k < length r')%nat); [tauto | lia]). done.
Qed.

Lemma agree_xor k a b r r' : agree k r r' -> (a < k)%nat -> (b < k)%nat ->
  agree (S k) (xor_into k a b r) (xor_into k a b r').
Proof. intros H Ha Hb. apply agree_set; [done|]. destruct H as [_ H]. now rewrite !H. Qed.

Lemma agree_fold (f : list Z -> nat -> list Z) (K : nat -> nat) n r r' :
  (forall i s s', (i < n)%nat -> agree (K i) s s' -> agree (K (S i)) (f s i) (f s' i)) ->
  agree (K 0%nat) r r' -> agree (K n) (fold_left f (seq 0 n) r) (fold_left f (seq 0 n) r').
Proof.
  intros Hf H. induction n as [|n IH]; [done|].
  rewrite seq_S, !fold_left_app. apply Hf; [lia|]. apply IH. intros i s s' Hi. apply Hf. lia.
Qed.

Ltac agree_step :=
  match goal with
  | |- agree ?k (xor_into ?d _ _ _) _ =>
      replace k with (S d) by lia; apply agree_xor; [|lia|lia]
  | |- agree ?k (set_word ?d _ _) _ => replace k with (S d) by lia; apply agree_set
  end.

Lemma agree_expand128 i r r' : agree (4 * i + 4) r r' -> agree (4 * S i + 4) (expand128 i r) (expand128 i r').
Proof.
  intros H. unfold expand128. repeat agree_step; [exact H|].
  destruct H as [_ H]. now rewrite !H by lia.
Qed.

Lemma agree_expand192 i r r' : (i < 8)%nat ->
  agree (6 * i + 6) r r' ->
  agree (if (i =? 7)%nat then 52 else 6 * S i + 6) (expand192 i r) (expand192 i r').
Proof.
  intros Hi H. unfold expand192. destruct (Nat.eqb_spec i 7) as [-> | Hn];
    repeat agree_step; try exact H; destruct H as [_ H]; now rewrite !H by lia.
Qed.

Lemma agree_expand256 i r r' : (i < 7)%nat ->
  agree (8 * i + 8) r r' ->
  agree (if (i =? 6)%nat then 60 else 8 * S i + 8) (expand256 i r) (expand256 i r').
Proof.
  intros Hi H. unfold expand256.
  set (a := xor_into (8 * i + 11) _ _ _). set (a' := xor_into (8 * i + 11) _ _ (xor_into _ _ _ (xor_into _ _ _ (set_word _ (Z.lxor (word r' _) _) r')))).
  assert (agree (8 * i + 12) a a') as Ha.
  { unfold a, a'. repeat agree_step; [exact H|]. destruct H as [_ H]. now rewrite !H by lia. }
  clearbody a a'. destruct (Nat.eqb_spec i 6) as [-> | Hn]; [exact Ha|].
  repeat agree_step; [exact Ha|]. destruct Ha as [_ Ha]. now rewrite !Ha by lia.
Qed.

Lemma key_setup_agree m m' key bits n rk rk' :
  length m = length m' -> rounds_ok n ->
  rijndaelKeySetupEnc m key bits = (Z.of_nat n, rk) ->
  rijndaelKeySetupEnc m' key bits = (Z.of_nat n, rk') ->
  agree (4 * n + 4) rk rk'.
Proof.
  intros Hl Hn. unfold rijndaelKeySetupEnc.
  set (rk4 := load_key 3 key (load_key 2 key (load_key 1 key (load_key 0 key m)))).
  set (rk4' := load_key 3 key (load_key 2 key (load_key 1 key (load_key 0 key m')))).
  assert (agree 4 rk4 rk4') as H4.
  { unfold rk4, rk4', load_key. repeat agree_step; try done. split; [done | lia]. }
  clearbody rk4 rk4'. destruct (bits =? 128).
  { rewrite !pair_equal_spec. intros [E <-] [_ <-]. replace n with 10%nat by lia.
    apply (agree_fold _ (fun i => 4 * i + 4)%nat); [|exact H4]. intros i s s' _. apply agree_expand128. }
  set (rk6 := load_key 5 key (load_key 4 key rk4)). set (rk6' := load_key 5 key (load_key 4 key rk4')).
  assert (agree 6 rk6 rk6') as H6 by (unfold rk6, rk6', load_key; repeat agree_step; done).
  clearbody rk6 rk6'. destruct (bits =? 192).
  { rewrite !pair_equal_spec. intros [E <-] [_ <-]. replace n with 12%nat by lia.
    apply (agree_fold _ (fun i => if (i =? 8)%nat then 52 else 6 * i + 6)%nat 8); [|exact H6].
    intros i s s' Hi. rewrite (proj2 (Nat.eqb_neq i 8)) by lia.
    change (S i =? 8)%nat with (i =? 7)%nat. now apply agree_expand192. }
  set (rk8 := load_key 7 key (load_key 6 key rk6)). set (rk8' := load_key 7 key (load_key 6 key rk6')).
  assert (agree 8 rk8 rk8') as H8 by (unfold rk8, rk8', load_key; repeat agree_step; done).
  clearbody rk8 rk8'. destruct (bits =? 256); [|rewrite pair_equal_spec; intros [E _]; lia].
  rewrite !pair_equal_spec. intros [E <-] [_ <-]. replace n with 14%nat by lia.
  apply (agree_fold _ (fun i => if (i =? 7)%nat then 60 else 8 * i + 8)%nat 7); [|exact H8].
  intros i s s' Hi. rewrite (proj2 (Nat.eqb_neq i 7)) by lia.
  change (S i =? 7)%nat with (i =? 6)%nat. now apply agree_expand256.
Qed.

Lemma agree_key_at k r r' o : agree k r r' -> (o + 3 < k)%nat -> key_at r o = key_at r' o.
Proof. intros [_ H] Ho. unfold key_at. now rewrite !H by lia. Qed.

Lemma key_at_wf rk o : sched_ok rk -> wf (key_at rk o).
Proof. intros H. wf_split; apply word_range, H. Qed.

Lemma decrypt_init_inv mem key d :
  bytes_ok key -> (forall m, mem = Some m -> sched_ok m) ->
  Internal.aes_decrypt_init mem key = Some d ->
  exists m rk n, mem = Some m /\ rijndaelKeySetupEnc m key (zlen key * 8) = (Z.of_nat n, rk)
    /\ sched_ok rk /\ rounds_ok n
    /\ d = set_word AES_PRIV_NR_POS (Z.of_nat n) (transform_keys inv_mix n rk).
Proof.
  intros Hk Hm. unfold Internal.aes_decrypt_init. destruct mem as [m|]; [|discriminate].
  unfold rijndaelKeySetupDec.
  destruct (rijndaelKeySetupEnc m key (zlen key * 8)) as [res rk] eqn:E.
  destruct (key_setup_sched m key _ res rk Hk (Hm _ eq_refl) E) as [Hrk [-> | (n & Hn & ->)]]; [discriminate|].
  rewrite (proj2 (Z.ltb_ge _ 0)), Nat2Z.id by lia. unfold Internal.finish_init.
  rewrite (proj2 (Z.ltb_ge _ 0)) by lia. intros Hd. exists m, rk, n. split_and!; auto.
  rewrite wrap_small in Hd by (unfold is_uint, rounds_ok in *; lia). injection Hd as <-. reflexivity.
Qed.

Lemma length_transform_keys f n rk : rounds_ok n -> length rk = 61%nat -> length (transform_keys f n rk) = 61%nat.
Proof.
  intros Hn Hl. do 61 (destruct rk as [|? rk]; [discriminate|]). destruct rk; [|discriminate].
  destruct Hn as [-> | [-> | ->]]; reflexivity.
Qed.

Lemma map_words_inv_mix rk n : sched_ok rk ->
  map_words inv_mix <$> keys_from rk 1 n = map_words imix <$> keys_from rk 1 n.
Proof.
  intros H. unfold keys_from. rewrite <- !list_fmap_compose. apply list_fmap_ext.
  intros _ i _. unfold map_words, key_at. cbn. now rewrite !inv_mix_imix by now apply word_range.
Qed.

Lemma nr_pos v rk : length rk = 61%nat -> word (set_word AES_PRIV_NR_POS v rk) AES_PRIV_NR_POS = v.
Proof. intros Hl. rewrite word_set_word. apply decide_True. rewrite Hl. unfold AES_PRIV_NR_POS. lia. Qed.

(** Two contexts made from one key, whatever the memory held: the same number of
    rounds and inverse schedules. *)
Lemma contexts_inverse m1 m2 key e d :
  bytes_ok key -> (forall m, m1 = Some m -> sched_ok m) -> (forall m, m2 = Some m -> sched_ok m) ->
  Internal.aes_encrypt_init m1 key = Some e -> Internal.aes_decrypt_init m2 key = Some d ->
  exists n, rounds_ok n /\ word e AES_PRIV_NR_POS = Z.of_nat n /\ word d AES_PRIV_NR_POS = Z.of_nat n
    /\ inverse_keys n e d.
Proof.
  intros Hk Hm1 Hm2 He Hd.
  destruct (encrypt_init_inv m1 key e Hk Hm1 He) as (a & rk & n & -> & Ea & Hrk & Hn & ->).
  destruct (decrypt_init_inv m2 key d Hk Hm2 Hd) as (b & rk' & n' & -> & Eb & Hrk' & Hn' & ->).
  assert (n' = n) as -> by (pose proof (key_setup_rounds a key (zlen key * 8)) as Ra;
    rewrite <- (key_setup_rounds b key), Ea, Eb in Ra; simpl in Ra; lia).
  assert (agree (4 * n + 4) rk rk') as G.
  { apply (key_setup_agree a b key (zlen key * 8)); try done.
    now rewrite (proj1 (Hm1 _ eq_refl)), (proj1 (Hm2 _ eq_refl)). }
  destruct (transform_keys_spec inv_mix n rk' Hn (proj1 Hrk')) as (T0 & T1 & T2 & _).
  exists n. split; [done|].
  rewrite !nr_pos by (apply Hrk || apply length_transform_keys; apply Hrk' || done).
  split; [done|]. split; [done|].
  assert (4 * n + 3 < AES_PRIV_NR_POS)%nat as Hp by (unfold AES_PRIV_NR_POS, rounds_ok in *; lia).
  split; [..|intros i Hi]; rewrite ?keys_from_set_nr, ?key_at_set_nr by (done || lia).
  - rewrite T0. symmetry. apply (agree_key_at _ _ _ _ G). lia.
  - rewrite T1. symmetry. apply (agree_key_at _ _ _ _ G). lia.
  - rewrite T2, (map_words_inv_mix rk') by done. do 2 f_equal. apply list_fmap_ext.
    intros j i Hi. symmetry. apply lookup_seq in Hi. apply (agree_key_at _ _ _ _ G). lia.
  - now apply key_at_wf.
Qed.

Lemma internal_encrypt_block c b : is_block (Internal.aes_encrypt c b).
Proof.
  unfold Internal.aes_encrypt, rijndaelEncrypt. destruct (full_rounds _ _ _ _ _). apply store_block_ok.
Qed.

Lemma internal_decrypt_block c b : is_block (Internal.aes_decrypt c b).
Proof.
  unfold Internal.aes_decrypt, rijndaelDecrypt. destruct (full_rounds _ _ _ _ _). apply store_block_ok.
Qed.

Lemma internal_inverse m1 m2 key e d b :
  bytes_ok key -> (forall m, m1 = Some m -> sched_ok m) -> (forall m, m2 = Some m -> sched_ok m) ->
  Internal.aes_encrypt_init m1 key = Some e -> Internal.aes_decrypt_init m2 key = Some d -> is_block b ->
  Internal.aes_decrypt d (Internal.aes_encrypt e b) = b
  /\ Internal.aes_encrypt e (Internal.aes_decrypt d b) = b.
Proof.
  intros Hk H1 H2 He Hd Hb. destruct (contexts_inverse _ _ key e d Hk H1 H2 He Hd) as (n & Hn & En & Dn & Hi).
  unfold Internal.aes_encrypt, Internal.aes_decrypt. rewrite En, Dn.
  split; [now apply decrypt_encrypt | now apply encrypt_decrypt].
Qed.

(** The init functions accept the three key lengths of AES and no other. *)
Lemma init_key_lengths m key :
  (exists e, Internal.aes_encrypt_init (Some m) key = Some e)
  <-> length key = 16%nat \/ length key = 24%nat \/ length key = 32%nat.
Proof.
  pose proof (key_setup_rounds m key (zlen key * 8)) as R. unfold Internal.aes_encrypt_init, Internal.finish_init.
  destruct (rijndaelKeySetupEnc m key (zlen key * 8)) as [res rk]. cbn [fst] in R. unfold zlen in R. subst res.
  destruct (Z.eqb_spec (Z.of_nat (length key) * 8) 128), (Z.eqb_spec (Z.of_nat (length key) * 8) 192),
    (Z.eqb_spec (Z.of_nat (length key) * 8) 256); cbn; split; intros Hx; try lia; eauto;
    try (destruct Hx as [e He]; discriminate).
Qed.

Lemma decrypt_init_same m m' key e :
  Internal.aes_encrypt_init (Some m) key = Some e -> exists d, Internal.aes_decrypt_init (Some m') key = Some d.
Proof.
  pose proof (key_setup_rounds m key (zlen key * 8)) as R.
  pose proof (key_setup_rounds m' key (zlen key * 8)) as R'.
  unfold Internal.aes_encrypt_init, Internal.aes_decrypt_init, rijndaelKeySetupDec, Internal.finish_init.
  destruct (rijndaelKeySetupEnc m key (zlen key * 8)) as [res rk].
  destruct (rijndaelKeySetupEnc m' key (zlen key * 8)) as [res' rk']. cbn [fst] in *. rewrite <- R in R'. subst res'.
  destruct (res <? 0) eqn:E; [discriminate|]. intros _. rewrite E. eauto.
Qed.

(** ** The instance *)

Section Instance.
(** What os_malloc() returns to the two init functions, with its old contents. *)
Context (mem_enc mem_dec : option (list Z)).

Definition internal_aes : AesCipher := {|
  aes_ctx := list Z;
  aes_encrypt_init := Internal.aes_encrypt_init mem_enc;
  aes_decrypt_init := Internal.aes_decrypt_init mem_dec;
  aes_encrypt := Internal.aes_encrypt;
  aes_decrypt := Internal.aes_decrypt
|}.

Lemma internal_aes_laws :
  (forall m, mem_enc = Some m -> sched_ok m) -> (forall m, mem_dec = Some m -> sched_ok m) ->
  @AesLaws internal_aes.
Proof.
  intros H1 H2. split.
  - intros k c b _ _ _. apply internal_encrypt_block.
  - intros k c b _ _ _. apply internal_decrypt_block.
  - intros k e d b Hk He Hd Hb. now apply (internal_inverse mem_enc mem_dec k).
  - intros k e d b Hk He Hd Hb. now apply (internal_inverse mem_enc mem_dec k).
Qed.
End Instance.

(** ** Known answers *)

(** Allocated memory, not cleared. *)
Definition some_memory : option (list Z) := Some (replicate 61 0xdeadbeef).

Lemma some_memory_ok m : some_memory = Some m -> sched_ok m.
Proof. intros [= <-]. split; [reflexivity|]. apply (Forall_replicate is_word 61). unfold is_uint. lia. Qed.

Definition bytes_upto (n : nat) : bytes := Z.of_nat <$> seq 0 n.

(** FIPS 197, appendix C: the three key lengths. *)
Definition fips197_plain : bytes := (fun i => 17 * i) <$> bytes_upto 16.

Example fips197_c1 :
  (let? c := Internal.aes_encrypt_init some_memory (bytes_upto 16) in Some (Internal.aes_encrypt c fips197_plain))
  = Some [0x69; 0xc4; 0xe0; 0xd8; 0x6a; 0x7b; 0x04; 0x30; 0xd8; 0xcd; 0xb7; 0x80; 0x70; 0xb4; 0xc5; 0x5a].
Proof. vm_compute. reflexivity. Qed.

Example fips197_c2 :
  (let? c := Internal.aes_encrypt_init some_memory (bytes_upto 24) in Some (Internal.aes_encrypt c fips197_plain))
  = Some [0xdd; 0xa9; 0x7c; 0xa4; 0x86; 0x4c; 0xdf; 0xe0; 0x6e; 0xaf; 0x70; 0xa0; 0xec; 0x0d; 0x71; 0x91].
Proof. vm_compute. reflexivity. Qed.

Example fips197_c3 :
  (let? c := Internal.aes_encrypt_init some_memory (bytes_upto 32) in Some (Internal.aes_encrypt c fips197_plain))
  = Some [0x8e; 0xa2; 0xb7; 0xca; 0x51; 0x67; 0x45; 0xbf; 0xea; 0xfc; 0x49; 0x90; 0x4b; 0x49; 0x60; 0x89].
Proof. vm_compute. reflexivity. Qed.
