(* ===== verification/AesFips.v ===== *)
(** * The internal AES is the cipher of FIPS 197

    The standard, without the tables: bytes are the field GF(2^8), the S-box is the
    inverse in the field followed by an affine map, the state is an array of four
    rows and four columns, and the key schedule is the recurrence over words of four
    bytes.  Nothing of src/ is used in [Fips197].  The cipher of the source computes
    it, and its decryption inverts it. *)

From S2P Require Import Prelude AesWrap AesTables Aes AesProps.
From Stdlib Require Import Btauto.

Module Fips197.

(** ** The field (section 4)

    A byte is a polynomial over GF(2); multiplication is modulo
    x^8 + x^4 + x^3 + x + 1. *)
Definition poly_mul (a b : Z) : Z :=
  fold_right (fun i acc => Z.lxor (if Z.testbit b i then Z.shiftl a i else 0) acc) 0 [0; 1; 2; 3; 4; 5; 6; 7].
Definition poly_mod (p : Z) : Z :=
  fold_left (fun p i => if Z.testbit p i then Z.lxor p (Z.shiftl 0x11b (i - 8)) else p)
    [14; 13; 12; 11; 10; 9; 8] p.
Definition gmul (a b : Z) : Z := poly_mod (poly_mul a b).

(** The inverse; that of 0 is 0. *)
Definition ginv (b : Z) : Z := default 0 (List.find (fun c => gmul b c =? 1) bytes256).

(** ** The transformations (section 5.1) *)

(** The affine map of the S-box: bit [i] is the sum of the bits [i], [i + 4], ... [i + 7]
    modulo 8 and of bit [i] of 0x63. *)
Definition affine (b : Z) : Z :=
  fold_right (fun i acc =>
    let bit := fold_right xorb (Z.testbit 0x63 i)
                 ((fun j => Z.testbit b ((i + j) mod 8)) <$> [0; 4; 5; 6; 7]) in
    Z.lor (Z.shiftl (Z.b2z bit) i) acc) 0 [0; 1; 2; 3; 4; 5; 6; 7].
Definition Sbox (b : Z) : Z := affine (ginv b).

(** The byte in row [r] and column [c]; the input fills the columns one by one. *)
Definition cell (s : bytes) (r c : nat) : Z := nth (r + 4 * c) s 0.
Definition of_cells (f : nat -> nat -> Z) : bytes := (fun i => f (i mod 4)%nat (i / 4)%nat) <$> seq 0 16.

Definition SubBytes (s : bytes) : bytes := Sbox <$> s.
Definition ShiftRows (s : bytes) : bytes := of_cells (fun r c => cell s r ((c + r) mod 4)).

(** The columns are multiplied by 3 x^3 + x^2 + x + 2 modulo x^4 + 1. *)
Definition mix_poly : list Z := [2; 1; 1; 3].
Definition MixColumns (s : bytes) : bytes :=
  of_cells (fun r c =>
    fold_right Z.lxor 0 ((fun k => gmul (nth ((4 + r - k) mod 4) mix_poly 0) (cell s k c)) <$> seq 0 4)).

Definition xor_bytes (a b : bytes) : bytes := zip_with Z.lxor a b.
Definition AddRoundKey (s k : bytes) : bytes := xor_bytes s k.

(** ** The key expansion (section 5.2) *)

Definition RotWord (w : bytes) : bytes := drop 1 w ++ take 1 w.
Definition SubWord (w : bytes) : bytes := Sbox <$> w.
(** The power [x ^ (i - 1)] in the first byte. *)
Definition Rcon (i : nat) : bytes := [Nat.iter (i - 1) (gmul 2) 1; 0; 0; 0].

Definition key_temp (Nk i : nat) (temp : bytes) : bytes :=
  if (i mod Nk =? 0)%nat then xor_bytes (SubWord (RotWord temp)) (Rcon (i / Nk))
  else if (6 <? Nk)%nat && (i mod Nk =? 4)%nat then SubWord temp
  else temp.

Definition next_word (Nk : nat) (w : list bytes) : bytes :=
  let i := length w in
  xor_bytes (nth (i - Nk) w []) (key_temp Nk i (nth (i - 1) w [])).

(** [Nk] words of key, [Nr = Nk + 6] rounds. *)
Definition key_words (Nk : nat) (key : bytes) : list bytes := (fun i => slice (4 * i) 4 key) <$> seq 0 Nk.
Definition KeyExpansion (Nk : nat) (key : bytes) : list bytes :=
  extend (next_word Nk) (4 * (Nk + 6 + 1) - Nk) (key_words Nk key).

Definition round_key (w : list bytes) (round : nat) : bytes := concat (take 4 (drop (4 * round) w)).

(** ** The cipher (section 5.1, figure 5) *)

Definition full_round (w : list bytes) (state : bytes) (round : nat) : bytes :=
  AddRoundKey (MixColumns (ShiftRows (SubBytes state))) (round_key w round).

Definition Cipher (key : bytes) (input : bytes) : bytes :=
  let Nk := (length key / 4)%nat in
  let Nr := (Nk + 6)%nat in
  let w := KeyExpansion Nk key in
  let state := AddRoundKey input (round_key w 0) in
  let state := fold_left (full_round w) (seq 1 (Nr - 1)) state in
  AddRoundKey (ShiftRows (SubBytes state)) (round_key w Nr).
End Fips197.
Import Fips197.

(** ** The rounds *)

Lemma sbox_fips b : is_byte b -> sbox b = Sbox b.
Proof. intros Hb. by_bytes b Hb. Qed.

(** The sixteen products of the MixColumns matrix. *)
Lemma M0_fips b : is_byte b -> byte_of 24 (M0 b) = gmul 2 b /\ byte_of 16 (M0 b) = gmul 1 b
  /\ byte_of 8 (M0 b) = gmul 1 b /\ byte_of 0 (M0 b) = gmul 3 b.
Proof. intros Hb. split_and!; by_bytes b Hb. Qed.
Lemma M1_fips b : is_byte b -> byte_of 24 (M1 b) = gmul 3 b /\ byte_of 16 (M1 b) = gmul 2 b
  /\ byte_of 8 (M1 b) = gmul 1 b /\ byte_of 0 (M1 b) = gmul 1 b.
Proof. intros Hb. split_and!; by_bytes b Hb. Qed.
Lemma M2_fips b : is_byte b -> byte_of 24 (M2 b) = gmul 1 b /\ byte_of 16 (M2 b) = gmul 3 b
  /\ byte_of 8 (M2 b) = gmul 2 b /\ byte_of 0 (M2 b) = gmul 1 b.
Proof. intros Hb. split_and!; by_bytes b Hb. Qed.
Lemma M3_fips b : is_byte b -> byte_of 24 (M3 b) = gmul 1 b /\ byte_of 16 (M3 b) = gmul 1 b
  /\ byte_of 8 (M3 b) = gmul 3 b /\ byte_of 0 (M3 b) = gmul 2 b.
Proof. intros Hb. split_and!; by_bytes b Hb. Qed.

Lemma PUTU32_bytes w : PUTU32 w = [byte_of 24 w; byte_of 16 w; byte_of 8 w; byte_of 0 w].
Proof.
  unfold PUTU32, byte_of, wrap. rewrite Z.shiftr_0_r. change 255 with (Z.ones 8).
  now rewrite !Z.land_ones by lia.
Qed.

Lemma store_bytes s : store_block s =
  [byte_of 24 (s0 s); byte_of 16 (s0 s); byte_of 8 (s0 s); byte_of 0 (s0 s);
   byte_of 24 (s1 s); byte_of 16 (s1 s); byte_of 8 (s1 s); byte_of 0 (s1 s);
   byte_of 24 (s2 s); byte_of 16 (s2 s); byte_of 8 (s2 s); byte_of 0 (s2 s);
   byte_of 24 (s3 s); byte_of 16 (s3 s); byte_of 8 (s3 s); byte_of 0 (s3 s)].
Proof. unfold store_block. now rewrite !PUTU32_bytes. Qed.

Lemma store_xor s k : store_block (xor_words s k) = AddRoundKey (store_block s) (store_block k).
Proof.
  rewrite !store_bytes. unfold xor_words. cbn [s0 s1 s2 s3]. now rewrite !byte_of_lxor.
Qed.

(** The two rearrangements on a state of sixteen variables. *)
Lemma shift_rows_cells (f : Z -> Z) a0 a1 a2 a3 b0 b1 b2 b3 c0 c1 c2 c3 d0 d1 d2 d3 :
  ShiftRows (f <$> [a0; a1; a2; a3; b0; b1; b2; b3; c0; c1; c2; c3; d0; d1; d2; d3])
  = [f a0; f b1; f c2; f d3; f b0; f c1; f d2; f a3; f c0; f d1; f a2; f b3; f d0; f a1; f b2; f c3].
Proof. reflexivity. Qed.

Lemma store_sub_shift s : store_block (sub_shift s) = ShiftRows (SubBytes (store_block s)).
Proof.
  unfold SubBytes. rewrite !store_bytes, shift_rows_cells. unfold sub_shift. cbn [s0 s1 s2 s3].
  repeat match goal with |- context [sub_pack ?a ?b ?c ?d] =>
    destruct (byte_of_sub_pack a b c d) as (-> & -> & -> & ->) end.
  now rewrite !sbox_fips by apply byte_of_range.
Qed.

(** One column. *)
Definition mix_column (a b c d : Z) : bytes :=
  [Z.lxor (gmul 2 a) (Z.lxor (gmul 3 b) (Z.lxor (gmul 1 c) (Z.lxor (gmul 1 d) 0)));
   Z.lxor (gmul 1 a) (Z.lxor (gmul 2 b) (Z.lxor (gmul 3 c) (Z.lxor (gmul 1 d) 0)));
   Z.lxor (gmul 1 a) (Z.lxor (gmul 1 b) (Z.lxor (gmul 2 c) (Z.lxor (gmul 3 d) 0)));
   Z.lxor (gmul 3 a) (Z.lxor (gmul 1 b) (Z.lxor (gmul 1 c) (Z.lxor (gmul 2 d) 0)))].

Lemma mix_columns_cells a0 a1 a2 a3 b0 b1 b2 b3 c0 c1 c2 c3 d0 d1 d2 d3 :
  MixColumns [a0; a1; a2; a3; b0; b1; b2; b3; c0; c1; c2; c3; d0; d1; d2; d3]
  = mix_column a0 a1 a2 a3 ++ mix_column b0 b1 b2 b3 ++ mix_column c0 c1 c2 c3 ++ mix_column d0 d1 d2 d3.
Proof. reflexivity. Qed.

Lemma PUTU32_mix w :
  PUTU32 (mix w) = mix_column (byte_of 24 w) (byte_of 16 w) (byte_of 8 w) (byte_of 0 w).
Proof.
  rewrite PUTU32_bytes. unfold mix, bytewise, mix_column.
  destruct (M0_fips _ (byte_of_range 24 w)) as (A0 & A1 & A2 & A3), (M1_fips _ (byte_of_range 16 w)) as (B0 & B1 & B2 & B3),
    (M2_fips _ (byte_of_range 8 w)) as (C0 & C1 & C2 & C3), (M3_fips _ (byte_of_range 0 w)) as (D0 & D1 & D2 & D3).
  rewrite !byte_of_lxor, A0, A1, A2, A3, B0, B1, B2, B3, C0, C1, C2, C3, D0, D1, D2, D3.
  now rewrite !Z.lxor_0_r, !Z.lxor_assoc.
Qed.

Lemma store_mix s : store_block (map_words mix s) = MixColumns (store_block s).
Proof.
  rewrite (store_bytes s), mix_columns_cells. unfold store_block, map_words. cbn [s0 s1 s2 s3].
  now rewrite !PUTU32_mix.
Qed.

Lemma store_enc_step s k :
  store_block (enc_step s k) = AddRoundKey (MixColumns (ShiftRows (SubBytes (store_block s)))) (store_block k).
Proof. unfold enc_step. now rewrite store_xor, store_mix, store_sub_shift. Qed.

#[local] Opaque Sbox gmul.

(** ** The key schedule *)

(** A word of the standard. *)
Definition is_word4 (l : bytes) : Prop := length l = 4%nat /\ bytes_ok l.

Lemma word4_cases l : is_word4 l -> exists a b c d, l = [a; b; c; d] /\ is_byte a /\ is_byte b /\ is_byte c /\ is_byte d.
Proof.
  intros [Hl Hb]. do 4 (destruct l as [|? l]; [discriminate|]). destruct l; [|discriminate].
  repeat (apply Forall_cons in Hb as [? Hb]). eauto 10.
Qed.

Lemma PUTU32_GETU32 l : is_word4 l -> PUTU32 (GETU32 l) = l.
Proof. intros (a & b & c & d & -> & Ha & Hb & Hc & Hd)%word4_cases. rewrite GETU32_pack. now apply PUTU32_pack. Qed.

Lemma pack_lxor a b c d a' b' c' d' :
  pack (Z.lxor a a') (Z.lxor b b') (Z.lxor c c') (Z.lxor d d') = Z.lxor (pack a b c d) (pack a' b' c' d').
Proof.
  unfold pack. rewrite !Z.shiftl_lxor. apply Z.bits_inj. intros i. rewrite !Z.lxor_spec. btauto.
Qed.

Lemma GETU32_xor x y : is_word4 x -> is_word4 y -> GETU32 (xor_bytes x y) = Z.lxor (GETU32 x) (GETU32 y).
Proof.
  intros (a & b & c & d & -> & _)%word4_cases (a' & b' & c' & d' & -> & _)%word4_cases.
  cbn [xor_bytes zip_with]. rewrite !GETU32_pack. apply pack_lxor.
Qed.

Lemma xor_word4 x y : is_word4 x -> is_word4 y -> is_word4 (xor_bytes x y).
Proof.
  intros (a & b & c & d & -> & ?&?&?&?)%word4_cases (a' & b' & c' & d' & -> & ?&?&?&?)%word4_cases.
  split; [reflexivity|]. cbn [xor_bytes zip_with]. unfold bytes_ok. rewrite !Forall_cons.
  split_and!; [apply is_uint_lxor; done || lia .. | constructor].
Qed.

Lemma Sbox_range b : is_byte b -> is_byte (Sbox b).
Proof. intros Hb. rewrite <- sbox_fips by done. now apply sbox_range. Qed.

Lemma sub_word4 w : is_word4 w -> is_word4 (SubWord w).
Proof.
  intros [Hl Hb]. split; [unfold SubWord; now rewrite length_fmap|]. apply Forall_fmap.
  eapply Forall_impl; [exact Hb|]. exact Sbox_range.
Qed.

Lemma rot_word4 w : is_word4 w -> is_word4 (RotWord w).
Proof.
  intros (a & b & c & d & -> & ?&?&?&?)%word4_cases. split; [reflexivity|]. change (bytes_ok [b; c; d; a]). unfold bytes_ok. rewrite !Forall_cons. auto using Forall_nil_2.
Qed.

Lemma gmul2_range b : is_byte b -> is_byte (gmul 2 b).
Proof. intros Hb. byte_range b Hb. Qed.

Lemma rcon_word4 i : is_word4 (Rcon i).
Proof.
  split; [reflexivity|]. unfold Rcon, bytes_ok. rewrite !Forall_cons.
  split_and!; try (unfold is_uint; lia); [|constructor].
  induction (i - 1)%nat as [|n IH]; [unfold is_uint; simpl; lia | now apply gmul2_range].
Qed.

Lemma key_temp_word4 Nk i w : is_word4 w -> is_word4 (key_temp Nk i w).
Proof.
  intros Hw. unfold key_temp. destruct (_ =? 0)%nat; [auto using xor_word4, sub_word4, rot_word4, rcon_word4|].
  destruct (_ && _); [now apply sub_word4 | done].
Qed.

(** RotWord with SubWord and the round constant, and SubWord, in the macros of the source. *)
Lemma RCON_fips i : (i < 10)%nat -> RCON i = Z.shiftl (Nat.iter i (gmul 2) 1) 24.
Proof.
  intros Hi. assert (forallb (fun i => RCON i =? Z.shiftl (Nat.iter i (gmul 2) 1) 24) (seq 0 10) = true) as H
    by (vm_compute; reflexivity).
  rewrite forallb_forall in H. apply Z.eqb_eq, H, in_seq. lia.
Qed.

Lemma sub_rot_fips w i : is_word4 w -> (i < 10)%nat ->
  sub_rot (GETU32 w) i = GETU32 (xor_bytes (SubWord (RotWord w)) (Rcon (S i))).
Proof.
  intros (a & b & c & d & -> & Ha & Hb & Hc & Hd)%word4_cases Hi.
  unfold sub_rot, TE421, TE432, TE443, TE414. rewrite GETU32_pack.
  destruct (byte_of_pack a b c d Ha Hb Hc Hd) as (-> & -> & -> & ->).
  rewrite Te0_sub3, Te0_sub2, Te0_sub1, Te0_sub0, !sbox_fips, RCON_fips by done.
  unfold RotWord, SubWord, Rcon. cbn [drop take app fmap list_fmap xor_bytes zip_with].
  rewrite GETU32_pack, !Z.lxor_0_r. unfold pack. rewrite Z.shiftl_lxor.
  replace (S i - 1)%nat with i by lia.
  apply Z.bits_inj. intros n. rewrite !Z.lxor_spec. btauto.
Qed.

Lemma sub_word_fips w : is_word4 w -> sub_word (GETU32 w) = GETU32 (SubWord w).
Proof.
  intros (a & b & c & d & -> & Ha & Hb & Hc & Hd)%word4_cases.
  unfold sub_word, TE411, TE422, TE433, TE444. rewrite GETU32_pack.
  destruct (byte_of_pack a b c d Ha Hb Hc Hd) as (-> & -> & -> & ->).
  rewrite Te0_sub3, Te0_sub2, Te0_sub1, Te0_sub0, !sbox_fips by done.
  unfold SubWord. cbn [fmap list_fmap]. now rewrite GETU32_pack.
Qed.

(** *** The expansion of the standard *)

Section Expansion.
Context (Nk : nat) (key : bytes).
Context (HNk : (0 < Nk)%nat) (Hlen : length key = (4 * Nk)%nat) (Hkey : bytes_ok key).

Abbreviation w := (KeyExpansion Nk key).

Lemma key_words_length : length (key_words Nk key) = Nk.
Proof using. unfold key_words. now rewrite length_fmap, length_seq. Qed.

Lemma expansion_length : length w = (Nk + (4 * (Nk + 6 + 1) - Nk))%nat.
Proof using. unfold KeyExpansion. now rewrite length_extend, key_words_length. Qed.

Lemma expansion_key i : (i < Nk)%nat -> nth i w [] = slice (4 * i) 4 key.
Proof using.
  intros Hi. unfold KeyExpansion. rewrite extend_old by now rewrite key_words_length.
  rewrite nth_lookup. unfold key_words. rewrite list_lookup_fmap, lookup_seq_lt by done. done.
Qed.

Lemma expansion_next i : (Nk <= i < length w)%nat ->
  nth i w [] = xor_bytes (nth (i - Nk) w []) (key_temp Nk i (nth (i - 1) w [])).
Proof using HNk Hlen.
  intros Hi. rewrite expansion_length in Hi. pose proof key_words_length as Hk.
  unfold KeyExpansion at 1. rewrite extend_new by (rewrite Hk; lia). fold w. unfold next_word.
  rewrite length_take, expansion_length, Nat.min_l by lia. now rewrite !nth_take_lt by lia.
Qed.

Lemma expansion_word4 i : (i < length w)%nat -> is_word4 (nth i w []).
Proof using HNk Hlen Hkey.
  induction i as [i IH] using lt_wf_ind. intros Hi. destruct (Nat.lt_ge_cases i Nk) as [H | H].
  - rewrite expansion_key by done. split; [apply length_slice; lia | now apply slice_ok].
  - rewrite expansion_next by lia. apply xor_word4; [apply IH; lia|]. apply key_temp_word4, IH; lia.
Qed.

(** The first [k] words of the schedule are those of the standard. *)
Definition sched_is (k : nat) (rk : list Z) : Prop :=
  length rk = 61%nat /\ forall i, (i < k)%nat -> word rk i = GETU32 (nth i w []).

Lemma is_set k v rk : sched_is k rk -> (k < 61)%nat -> v = GETU32 (nth k w []) -> sched_is (S k) (set_word k v rk).
Proof using HNk Hlen.
  intros [Hl H] Hk ->. split; [unfold set_word; now rewrite length_insert|]. intros i Hi. rewrite word_set_word, Hl.
  destruct (decide _) as [[-> _] | Hn]; [done|]. apply H. destruct (decide (i = k)); [subst; tauto | lia].
Qed.

Lemma is_next k temp rk : sched_is k rk -> (Nk <= k < length w)%nat -> (k < 61)%nat ->
  temp = GETU32 (key_temp Nk k (nth (k - 1) w [])) ->
  sched_is (S k) (set_word k (Z.lxor (word rk (k - Nk)) temp) rk).
Proof using HNk Hlen Hkey.
  intros H Hk Hk' ->. apply is_set; [exact H | exact Hk'|]. destruct H as [_ H].
  rewrite H, (expansion_next k), GETU32_xor by (try apply key_temp_word4; try apply expansion_word4; lia). done.
Qed.

(** The words between the round constants. *)
Lemma is_xor k a b rk : sched_is k rk -> (Nk <= k < length w)%nat -> (k < 61)%nat ->
  (k mod Nk =? 0)%nat = false -> (6 <? Nk)%nat && (k mod Nk =? 4)%nat = false -> a = (k - Nk)%nat ->
  b = (k - 1)%nat -> sched_is (S k) (xor_into k a b rk).
Proof using HNk Hlen Hkey.
  intros H Hk Hk' Hm H4 -> ->. apply (is_next k); [exact H | exact Hk | exact Hk'|].
  unfold key_temp. rewrite Hm, H4. apply H. lia.
Qed.

(** The words with a round constant, and with SubWord alone. *)
Lemma is_const i rk : sched_is (Nk * i + Nk) rk -> (i < 10)%nat -> (Nk * i + Nk < length w)%nat ->
  (Nk * i + Nk < 61)%nat ->
  sched_is (S (Nk * i + Nk))
    (set_word (Nk * i + Nk) (Z.lxor (word rk (Nk * i)) (sub_rot (word rk (Nk * i + Nk - 1)) i)) rk).
Proof using HNk Hlen Hkey.
  intros H Hi Hk Hk'. replace (word rk (Nk * i)) with (word rk (Nk * i + Nk - Nk)) by (f_equal; lia).
  apply is_next; [exact H | lia | lia|]. unfold key_temp.
  assert (Nk * i + Nk = S i * Nk)%nat as E by lia.
  assert ((Nk * i + Nk) mod Nk = 0)%nat as -> by (rewrite E; apply Nat.Div0.mod_mul).
  assert ((Nk * i + Nk) / Nk = S i)%nat as -> by (rewrite E; apply Nat.div_mul; lia). cbn [Nat.eqb].
  rewrite (proj2 H) by lia. apply sub_rot_fips; [apply expansion_word4; lia | done].
Qed.

Lemma is_sub k rk : sched_is k rk -> (Nk <= k < length w)%nat -> (k < 61)%nat -> (6 < Nk)%nat ->
  (k mod Nk = 4)%nat ->
  sched_is (S k) (set_word k (Z.lxor (word rk (k - Nk)) (sub_word (word rk (k - 1)))) rk).
Proof using HNk Hlen Hkey.
  intros H Hk Hk' H6 H4. apply is_next; [exact H | exact Hk | exact Hk'|]. unfold key_temp.
  rewrite H4, (proj2 (Nat.ltb_lt 6 Nk)) by done. cbn [Nat.eqb andb].
  rewrite (proj2 H) by lia. apply sub_word_fips, expansion_word4; lia.
Qed.

Lemma is_load i rk : sched_is i rk -> (i < Nk)%nat -> (i < 61)%nat -> sched_is (S i) (load_key i key rk).
Proof using HNk Hlen.
  intros H Hi Hi'. apply is_set; [exact H | exact Hi'|]. rewrite expansion_key by done.
  unfold GETU32, slice, byte_at. now rewrite !nth_take_lt by lia.
Qed.

(** A round key of the schedule. *)
Lemma store_key_at rk k r : sched_is k rk -> (4 * r + 3 < k)%nat -> (k <= length w)%nat ->
  store_block (key_at rk (4 * r)) = round_key w r.
Proof using HNk Hlen Hkey.
  intros [_ H] Hr Hk. unfold store_block, key_at, round_key. cbn [s0 s1 s2 s3].
  rewrite !H, !PUTU32_GETU32 by (try apply expansion_word4; lia).
  assert (take 4 (drop (4 * r) w) = [nth (4 * r) w []; nth (4 * r + 1) w []; nth (4 * r + 2) w []; nth (4 * r + 3) w []]) as ->.
  { apply (nth_ext _ _ [] []); [rewrite length_take, length_drop; cbn [length]; lia|].
    intros n Hn. rewrite length_take, length_drop in Hn. rewrite nth_take_lt by lia.
    rewrite nth_lookup, lookup_drop, <- nth_lookup.
    do 4 (destruct n as [|n]; [cbn [nth]; f_equal; lia|]). lia. }
  cbn [concat]. now rewrite app_nil_r.
Qed.
End Expansion.

(** *** The loops of the source *)

Ltac mod_lia :=
  lazymatch goal with |- context [(?k mod ?n)%nat] =>
    pose proof (Nat.div_mod_eq k n); pose proof (Nat.mod_upper_bound k n ltac:(lia)); lia end.

(** The last word written, of the kind that takes no constant, is right if those before it are. *)
Ltac plain_word Hl Hk :=
  lazymatch goal with
  | |- sched_is ?Nk ?key ?k (xor_into ?d ?a ?b _) =>
      replace k with (S d) by lia;
      apply (is_xor Nk key);
        [lia | exact Hl | exact Hk | | rewrite expansion_length; lia | lia | apply Nat.eqb_neq; mod_lia
        | try reflexivity; apply Nat.eqb_neq; mod_lia | lia | lia]
  end.

Lemma is_expand128 key i rk : length key = (4 * 4)%nat -> bytes_ok key -> (i < 10)%nat ->
  sched_is 4 key (4 * i + 4) rk -> sched_is 4 key (4 * S i + 4) (expand128 i rk).
Proof.
  intros Hl Hk Hi H. unfold expand128. do 3 plain_word Hl Hk.
  pose proof (is_const 4 key ltac:(lia) Hl Hk i rk H Hi ltac:(rewrite expansion_length; lia) ltac:(lia)) as Hc.
  replace (4 * i + 4 - 1)%nat with (4 * i + 3)%nat in Hc by lia.
  replace (4 * i + 5)%nat with (S (4 * i + 4)) by lia. exact Hc.
Qed.

Lemma is_expand192 key i rk : length key = (4 * 6)%nat -> bytes_ok key -> (i < 8)%nat ->
  sched_is 6 key (6 * i + 6) rk ->
  sched_is 6 key (if (i =? 7)%nat then 52 else 6 * S i + 6) (expand192 i rk).
Proof.
  intros Hl Hk Hi H. unfold expand192.
  pose proof (is_const 6 key ltac:(lia) Hl Hk i rk H ltac:(lia) ltac:(rewrite expansion_length; lia) ltac:(lia)) as Hc.
  replace (6 * i + 6 - 1)%nat with (6 * i + 5)%nat in Hc by lia. set (r1 := set_word (6 * i + 6) _ rk) in *.
  clearbody r1. destruct (Nat.eqb_spec i 7) as [-> | Hn].
  - do 3 plain_word Hl Hk. exact Hc.
  - do 5 plain_word Hl Hk. replace (6 * i + 7)%nat with (S (6 * i + 6)) by lia. exact Hc.
Qed.

Lemma is_expand256 key i rk : length key = (4 * 8)%nat -> bytes_ok key -> (i < 7)%nat ->
  sched_is 8 key (8 * i + 8) rk ->
  sched_is 8 key (if (i =? 6)%nat then 60 else 8 * S i + 8) (expand256 i rk).
Proof.
  intros Hl Hk Hi H. unfold expand256.
  pose proof (is_const 8 key ltac:(lia) Hl Hk i rk H ltac:(lia) ltac:(rewrite expansion_length; lia) ltac:(lia)) as Hc.
  replace (8 * i + 8 - 1)%nat with (8 * i + 7)%nat in Hc by lia. set (r1 := set_word (8 * i + 8) _ rk) in *.
  clearbody r1. set (r2 := xor_into (8 * i + 11) _ _ _).
  assert (sched_is 8 key (8 * i + 12) r2) as H2.
  { unfold r2. do 3 plain_word Hl Hk. replace (8 * i + 9)%nat with (S (8 * i + 8)) by lia. exact Hc. }
  clearbody r2. destruct (Nat.eqb_spec i 6) as [-> | Hn]; [exact H2|].
  do 3 plain_word Hl Hk.
  pose proof (is_sub 8 key ltac:(lia) Hl Hk (8 * i + 12) r2 H2 ltac:(rewrite expansion_length; lia)
    ltac:(lia) ltac:(lia) ltac:(mod_lia)) as Hs.
  replace (8 * i + 12 - 8)%nat with (8 * i + 4)%nat in Hs by lia.
  replace (8 * i + 12 - 1)%nat with (8 * i + 11)%nat in Hs by lia.
  replace (8 * i + 13)%nat with (S (8 * i + 12)) by lia. exact Hs.
Qed.

(** The schedule for encryption. *)
Lemma key_setup_fips m key n rk : length m = 61%nat -> bytes_ok key -> rounds_ok n ->
  rijndaelKeySetupEnc m key (zlen key * 8) = (Z.of_nat n, rk) ->
  exists Nk, length key = (4 * Nk)%nat /\ n = (Nk + 6)%nat /\ (0 < Nk)%nat /\ sched_is Nk key (4 * n + 4) rk.
Proof.
  intros Hm Hk Hn. pose proof (key_setup_rounds m key (zlen key * 8)) as R. unfold rijndaelKeySetupEnc in *.
  destruct (Z.eqb_spec (zlen key * 8) 128) as [E | E].
  { rewrite pair_equal_spec. intros [En <-]. assert (length key = 4 * 4)%nat as Hl by (unfold zlen in E; lia).
    exists 4%nat. split; [exact Hl|]. split; [lia|]. split; [lia|]. replace (4 * n + 4)%nat with 44%nat by lia.
    apply (fold_seq_inv (fun i => sched_is 4 key (4 * i + 4)) (fun rk i => expand128 i rk) 10);
      [intros i s Hi; now apply is_expand128|].
    do 4 (apply is_load; [lia | exact Hl | | lia | lia]). split; [exact Hm | lia]. }
  destruct (Z.eqb_spec (zlen key * 8) 192) as [E' | E'].
  { rewrite pair_equal_spec. intros [En <-]. assert (length key = 4 * 6)%nat as Hl by (unfold zlen in E'; lia).
    exists 6%nat. split; [exact Hl|]. split; [lia|]. split; [lia|]. replace (4 * n + 4)%nat with 52%nat by lia.
    apply (fold_seq_inv (fun i => sched_is 6 key (if (i =? 8)%nat then 52 else 6 * i + 6)) (fun rk i => expand192 i rk) 8).
    { intros i s Hi. rewrite (proj2 (Nat.eqb_neq i 8)) by lia. change (S i =? 8)%nat with (i =? 7)%nat.
      now apply is_expand192. }
    do 6 (apply is_load; [lia | exact Hl | | lia | lia]). split; [exact Hm | lia]. }
  destruct (Z.eqb_spec (zlen key * 8) 256) as [E'' | E''];
    [|rewrite pair_equal_spec; intros [En _]; unfold rounds_ok in Hn; lia].
  rewrite pair_equal_spec. intros [En <-]. assert (length key = 4 * 8)%nat as Hl by (unfold zlen in E''; lia).
  exists 8%nat. split; [exact Hl|]. split; [lia|]. split; [lia|]. replace (4 * n + 4)%nat with 60%nat by lia.
  apply (fold_seq_inv (fun i => sched_is 8 key (if (i =? 7)%nat then 60 else 8 * i + 8)) (fun rk i => expand256 i rk) 7).
  { intros i s Hi. rewrite (proj2 (Nat.eqb_neq i 7)) by lia. change (S i =? 7)%nat with (i =? 6)%nat.
    now apply is_expand256. }
  do 8 (apply is_load; [lia | exact Hl | | lia | lia]). split; [exact Hm | lia].
Qed.

(** ** The cipher *)

Lemma store_rounds rk w l : (forall i, In i l -> store_block (key_at rk (4 * i)) = round_key w i) ->
  forall s, store_block (fold_left enc_step ((fun i => key_at rk (4 * i)) <$> l) s)
            = fold_left (full_round w) l (store_block s).
Proof.
  induction l as [|i l IH]; intros Hk s; [done|]. cbn [fmap list_fmap fold_left].
  rewrite IH by (intros j Hj; apply Hk; now right).
  rewrite store_enc_step, (Hk i) by now left. done.
Qed.

(** The schedule of the standard makes the cipher of the standard. *)
Lemma encrypt_fips Nk key rk n pt :
  (0 < Nk)%nat -> length key = (4 * Nk)%nat -> bytes_ok key -> n = (Nk + 6)%nat -> rounds_ok n ->
  sched_is Nk key (4 * n + 4) rk -> is_block pt ->
  rijndaelEncrypt rk (Z.of_nat n) pt = Cipher key pt.
Proof.
  intros HNk Hl Hk En Hn Hs Hp. rewrite rijndaelEncrypt_spec by done.
  assert (forall r, (r <= n)%nat -> store_block (key_at rk (4 * r)) = round_key (KeyExpansion Nk key) r) as Hr.
  { intros r Hr. apply (store_key_at Nk key HNk Hl Hk rk (4 * n + 4)); [exact Hs | lia|].
    rewrite expansion_length. lia. }
  unfold Cipher. replace (length key / 4)%nat with Nk by (rewrite Hl, Nat.mul_comm; symmetry; now apply Nat.div_mul).
  rewrite store_xor, store_sub_shift, (Hr n) by lia. unfold keys_from.
  rewrite (store_rounds rk (KeyExpansion Nk key))
    by (intros i Hi; apply in_seq in Hi; apply Hr; lia).
  pose proof (Hr 0%nat ltac:(lia)) as H0. change (4 * 0)%nat with 0%nat in H0.
  rewrite store_xor, store_get_block, H0 by done. now subst n.
Qed.

(** C29. The internal AES is the block cipher of FIPS 197: for every key of 16, 24 or 32
    bytes, whatever the allocated memory held before, the contexts for encryption and
    for decryption are made, aes_encrypt() is the Cipher of the standard under this key,
    and aes_decrypt() inverts it on both sides; keys of other lengths are refused. *)
Theorem internal_aes_is_fips197 m1 m2 key b :
  sched_ok m1 -> sched_ok m2 -> bytes_ok key -> is_block b ->
  ((exists e, Internal.aes_encrypt_init (Some m1) key = Some e)
   <-> length key = 16%nat \/ length key = 24%nat \/ length key = 32%nat)
  /\ (forall e, Internal.aes_encrypt_init (Some m1) key = Some e ->
      Internal.aes_encrypt e b = Cipher key b
      /\ exists d, Internal.aes_decrypt_init (Some m2) key = Some d
          /\ Internal.aes_decrypt d (Cipher key b) = b /\ Cipher key (Internal.aes_decrypt d b) = b).
Proof.
  intros H1 H2 Hk Hb. split; [apply init_key_lengths|]. intros e He.
  assert (forall x, is_block x -> Internal.aes_encrypt e x = Cipher key x) as Hc.
  { intros x Hx. destruct (encrypt_init_inv (Some m1) key e Hk) as (m & rk & n & [= <-] & E & Hs & Hn & ->);
      [now intros ? [= <-] | done|].
    destruct (key_setup_fips _ _ _ _ (proj1 H1) Hk Hn E) as (Nk & Hl & En & HN & Hw).
    unfold Internal.aes_encrypt. rewrite nr_pos by apply Hs.
    apply (encrypt_fips Nk); try done. split; [unfold set_word; rewrite length_insert; apply Hw|].
    intros i Hi. rewrite word_set_word, decide_False; [now apply Hw|].
    unfold AES_PRIV_NR_POS, rounds_ok in *. lia. }
  split; [now apply Hc|]. destruct (decrypt_init_same m1 m2 key e He) as [d Hd]. exists d. split; [exact Hd|].
  destruct (internal_inverse (Some m1) (Some m2) key e d b) as [E1 E2]; auto; try (now intros ? [= <-]).
  rewrite <- (Hc b Hb), <- Hc by apply internal_decrypt_block. auto.
Qed.

Lemma internal_aes_is_fips197_witness :
  ((exists e, Internal.aes_encrypt_init (Some (replicate 61 0xdeadbeef)) (bytes_upto 16) = Some e)
   <-> length (bytes_upto 16) = 16%nat \/ length (bytes_upto 16) = 24%nat \/ length (bytes_upto 16) = 32%nat)
  /\ (forall e, Internal.aes_encrypt_init (Some (replicate 61 0xdeadbeef)) (bytes_upto 16) = Some e ->
      Internal.aes_encrypt e (bytes_upto 16) = Cipher (bytes_upto 16) (bytes_upto 16)
      /\ exists d, Internal.aes_decrypt_init (Some (replicate 61 0)) (bytes_upto 16) = Some d
          /\ Internal.aes_decrypt d (Cipher (bytes_upto 16) (bytes_upto 16)) = bytes_upto 16
          /\ Cipher (bytes_upto 16) (Internal.aes_decrypt d (bytes_upto 16)) = bytes_upto 16).
Proof.
  apply internal_aes_is_fips197.
  - exact (some_memory_ok _ eq_refl).
  - split; [reflexivity|]. apply (Forall_replicate is_word 61). unfold is_uint. lia.
  - apply (bool_decide_unpack _). vm_compute. exact I.
  - split; [reflexivity | apply (bool_decide_unpack _); vm_compute; exact I].
Defined.

(** The example of FIPS 197, appendix B. *)
Example fips197_b :
  Cipher [0x2b; 0x7e; 0x15; 0x16; 0x28; 0xae; 0xd2; 0xa6; 0xab; 0xf7; 0x15; 0x88; 0x09; 0xcf; 0x4f; 0x3c]
         [0x32; 0x43; 0xf6; 0xa8; 0x88; 0x5a; 0x30; 0x8d; 0x31; 0x31; 0x98; 0xa2; 0xe0; 0x37; 0x07; 0x34]
  = [0x39; 0x25; 0x84; 0x1d; 0x02; 0xdc; 0x09; 0xfb; 0xdc; 0x11; 0x85; 0x97; 0x19; 0x6a; 0x0b; 0x32].
Proof. vm_compute. reflexivity. Qed.
