(* ===== verification/AesModes.v ===== *)
(** * Block cipher modes (src/crypto/aes-ctr.c, aes-cbc.c, aes-omac1.c, aes-encblock.c)

    The modes over the block cipher interface.  [None] is the return value -1; a
    buffer that a function changes in place is its result.  A key argument is the
    buffer the caller passes, of which the first [key_len] bytes are used. *)

From S2P Require Import Prelude AesWrap.

(** [dst ^= src] on buffers of one length. *)
Definition xor_bytes (dst src : bytes) : bytes := zip_with Z.lxor dst src.

(** Calls that can fail, in code that can also read out of bounds: [None] is the
    access out of bounds, [Some None] a failure that the caller passes on. *)
Notation "'let!' x ':=' e 'in' k" :=
  (match e with None => None | Some None => Some None | Some (Some x) => k end)
  (at level 10, x pattern, k at level 200) : wpa_scope.

Section Modes.
Context `{AesCipher}.

(** ** CTR *)

(** [for (i = ...; i >= 0; i--) { counter[i]++; if (counter[i]) break; }] *)
(* aes-ctr.c aes_ctr_encrypt @48-52 *)
Fixpoint ctr_inc (i : nat) (counter : bytes) : bytes :=
  let v := u8 (byte_at counter i + 1) in
  let counter := <[i := v]> counter in
  match i with
  | S i => if v =? 0 then ctr_inc i counter else counter
  | O => counter
  end.

(** The loop over [left]; every iteration takes at least one byte. *)
(* aes-ctr.c aes_ctr_encrypt @39-53 *)
Fixpoint ctr_loop (ctx : aes_ctx) (fuel : nat) (counter pos : bytes) : bytes :=
  match fuel with
  | O => []
  | S fuel =>
      if (length pos =? 0)%nat then [] else
      let buf := aes_encrypt ctx counter in
      let len := if (length pos <? AES_BLOCK_SIZE)%nat then length pos else AES_BLOCK_SIZE in
      xor_bytes (take len pos) (take len buf)
      ++ ctr_loop ctx fuel (ctr_inc (AES_BLOCK_SIZE - 1) counter) (drop len pos)
  end.

(* aes-ctr.c aes_ctr_encrypt *)
Definition aes_ctr_encrypt (key : bytes) (key_len : nat) (nonce data : bytes) : option bytes :=
  let? ctx := aes_encrypt_init (take key_len key) in
  Some (ctr_loop ctx (length data) (take AES_BLOCK_SIZE nonce) data).

(* aes-ctr.c aes_128_ctr_encrypt *)
Definition aes_128_ctr_encrypt (key nonce data : bytes) : option bytes :=
  aes_ctr_encrypt key 16 nonce data.

(** ** CBC *)

(* aes-cbc.c aes_128_cbc_encrypt @40-46 *)
Fixpoint cbc_encrypt_loop (ctx : aes_ctx) (blocks : nat) (cbc pos : bytes) : bytes :=
  match blocks with
  | O => pos
  | S blocks =>
      let cbc := aes_encrypt ctx (xor_bytes cbc (take AES_BLOCK_SIZE pos)) in
      cbc ++ cbc_encrypt_loop ctx blocks cbc (drop AES_BLOCK_SIZE pos)
  end.

(* aes-cbc.c aes_128_cbc_encrypt *)
Definition aes_128_cbc_encrypt (key iv data : bytes) : option bytes :=
  let? ctx := aes_encrypt_init (take 16 key) in
  Some (cbc_encrypt_loop ctx (length data / AES_BLOCK_SIZE) (take AES_BLOCK_SIZE iv) data).

(* aes-cbc.c aes_128_cbc_decrypt @76-83 *)
Fixpoint cbc_decrypt_loop (ctx : aes_ctx) (blocks : nat) (cbc pos : bytes) : bytes :=
  match blocks with
  | O => pos
  | S blocks =>
      let tmp := take AES_BLOCK_SIZE pos in
      xor_bytes (aes_decrypt ctx tmp) cbc
      ++ cbc_decrypt_loop ctx blocks tmp (drop AES_BLOCK_SIZE pos)
  end.

(* aes-cbc.c aes_128_cbc_decrypt *)
Definition aes_128_cbc_decrypt (key iv data : bytes) : option bytes :=
  let? ctx := aes_decrypt_init (take 16 key) in
  Some (cbc_decrypt_loop ctx (length data / AES_BLOCK_SIZE) (take AES_BLOCK_SIZE iv) data).

(* aes-encblock.c aes_128_encrypt_block *)
Definition aes_128_encrypt_block (key inb : bytes) : option bytes :=
  let? ctx := aes_encrypt_init (take 16 key) in
  Some (aes_encrypt ctx inb).

(** ** OMAC1 (CMAC)

    The message is a vector of buffers.  [cur] is what is left of the current one
    from [pos] to [end], [rest] the buffers after it; a read through [pos] when
    nothing is left, or an [addr] entry past the last one, is an access out of
    bounds: the result [None] of these functions. *)

(** [pad[i] = (pad[i] << 1) | (pad[i + 1] >> 7)], the last byte shifted only. *)
(* aes-omac1.c gf_mulx *)
Fixpoint shift_left_bytes (pad : bytes) : bytes :=
  match pad with
  | [] => []
  | [b] => [u8 (Z.shiftl b 1)]
  | b :: (b' :: _) as rest => u8 (Z.lor (Z.shiftl b 1) (Z.shiftr b' 7)) :: shift_left_bytes rest
  end.

(* aes-omac1.c gf_mulx *)
Definition gf_mulx (pad : bytes) : bytes :=
  let carry := Z.land (byte_at pad 0) 0x80 in
  let pad := shift_left_bytes pad in
  if carry =? 0 then pad
  else <[(AES_BLOCK_SIZE - 1)%nat := Z.lxor (byte_at pad (AES_BLOCK_SIZE - 1)) 0x87]> pad.

(** The inner loop: xors [n] more bytes into [cbc] from index [i] on; [last] tells
    that the message ends with them. *)
(* aes-omac1.c omac1_aes_vector @69-82 *)
Fixpoint omac1_absorb (last : bool) (n i : nat) (cbc cur : bytes) (rest : list bytes)
  : option (bytes * bytes * list bytes) :=
  match n with
  | O => Some (cbc, cur, rest)
  | S n =>
      match cur with
      | [] => None
      | b :: cur =>
          let cbc := <[i := Z.lxor (byte_at cbc i) b]> cbc in
          match cur with
          | _ :: _ => omac1_absorb last n (S i) cbc cur rest
          | [] =>
              if (n =? 0)%nat && last then Some (cbc, [], rest) else
              match rest with
              | [] => None
              | cur :: rest => omac1_absorb last n (S i) cbc cur rest
              end
          end
      end
  end.

(** [while (left >= AES_BLOCK_SIZE)]; [left] shrinks by a block each time. *)
(* aes-omac1.c omac1_aes_vector @68-86 *)
Fixpoint omac1_blocks (ctx : aes_ctx) (fuel left : nat) (cbc cur : bytes) (rest : list bytes)
  : option (nat * bytes * bytes * list bytes) :=
  match fuel with
  | O => Some (left, cbc, cur, rest)
  | S fuel =>
      if (left <? AES_BLOCK_SIZE)%nat then Some (left, cbc, cur, rest) else
      let? (cbc, cur, rest) := omac1_absorb (left =? AES_BLOCK_SIZE)%nat AES_BLOCK_SIZE 0 cbc cur rest in
      let cbc := if (AES_BLOCK_SIZE <? left)%nat then aes_encrypt ctx cbc else cbc in
      omac1_blocks ctx fuel (left - AES_BLOCK_SIZE) cbc cur rest
  end.

(** The outer [None] is an access out of bounds, the inner one the return value -1. *)
(* aes-omac1.c omac1_aes_vector *)
Definition omac1_aes_vector (key : bytes) (key_len : nat) (addr : list bytes) : option (option bytes) :=
  match aes_encrypt_init (take key_len key) with
  | None => Some None
  | Some ctx =>
      let cbc := replicate AES_BLOCK_SIZE 0 in
      let total_len := sum_list (length <$> addr) in
      let? (cur, rest) := match addr with [] => None | cur :: rest => Some (cur, rest) end in
      let? (left_, cbc, cur, rest) := omac1_blocks ctx (S total_len) total_len cbc cur rest in
      let pad := gf_mulx (aes_encrypt ctx (replicate AES_BLOCK_SIZE 0)) in
      let? (cbc, pad) :=
        if negb (left_ =? 0)%nat || (total_len =? 0)%nat then
          let? (cbc, _, _) := omac1_absorb true left_ 0 cbc cur rest in
          Some (<[left_ := Z.lxor (byte_at cbc left_) 0x80]> cbc, gf_mulx pad)
        else Some (cbc, pad) in
      Some (Some (aes_encrypt ctx (xor_bytes pad cbc)))
  end.

(** omac1_aes_128_vector(), omac1_aes_128() and omac1_aes_256(). *)
(* aes-omac1.c omac1_aes_128_vector *)
Definition omac1_128_vector (key : bytes) (addr : list bytes) : option (option bytes) :=
  omac1_aes_vector key 16 addr.
(* aes-omac1.c omac1_aes_128 *)
Definition omac1_128 (key data : bytes) : option (option bytes) := omac1_128_vector key [data].
(* aes-omac1.c omac1_aes_256 *)
Definition omac1_aes_256 (key data : bytes) : option (option bytes) := omac1_aes_vector key 32 [data].

End Modes.

(** ** Round trips of CTR and CBC *)

Section RoundTrips.
Context `{AesLaws}.

Lemma xor_bytes_length a b : length a = length b -> length (xor_bytes a b) = length a.
Proof. intros E. unfold xor_bytes. rewrite length_zip_with. lia. Qed.

Lemma xor_bytes_involutive a b : length a = length b -> xor_bytes (xor_bytes a b) b = a.
Proof. apply zip_lxor_involutive. Qed.

Lemma xor_bytes_comm a b : xor_bytes a b = xor_bytes b a.
Proof.
  unfold xor_bytes. revert b. induction a as [|x a IH]; intros [|y b]; simpl; try done.
  now rewrite Z.lxor_comm, IH.
Qed.

Lemma xor_bytes_block a b : is_block a -> is_block b -> is_block (xor_bytes a b).
Proof.
  intros [La Ba] [Lb Bb]. split; [rewrite xor_bytes_length; congruence | now apply zip_lxor_ok].
Qed.

Lemma ctr_inc_block i c : is_block c -> is_block (ctr_inc i c).
Proof.
  revert c. induction i as [|i IH]; intros c [Lc Bc];
    (assert (forall j v, is_byte v -> is_block (<[j := v]> c)) as Hi
      by (intros j v Hv; split; [now rewrite length_insert | now apply Forall_insert])); cbn [ctr_inc].
  - apply Hi. auto with wpa.
  - destruct (_ =? 0); [apply IH|]; apply Hi; auto with wpa.
Qed.

Section Ctx.
Context (key : bytes) (e : aes_ctx) (Hk : bytes_ok key) (He : aes_encrypt_init key = Some e).

Lemma encrypt_is_block b : is_block b -> is_block (aes_encrypt e b).
Proof. exact (aes_encrypt_block key e b Hk He). Qed.

Lemma ctr_loop_length fuel c d :
  is_block c -> (length d <= fuel)%nat -> length (ctr_loop e fuel c d) = length d.
Proof.
  revert c d. induction fuel as [|fuel IH]; intros c d Hc Hl; cbn [ctr_loop]; [destruct d; simpl in *; lia|].
  destruct (Nat.eqb_spec (length d) 0) as [Hd | Hd]; [destruct d; simpl in *; lia|].
  destruct (encrypt_is_block c Hc) as [Lb _]. unfold AES_BLOCK_SIZE in *.
  rewrite length_app, IH, xor_bytes_length, !length_take, !length_drop;
    rewrite ?length_take, ?length_drop, ?Lb; try apply ctr_inc_block, Hc;
    destruct (Nat.ltb_spec (length d) 16); lia.
Qed.

(** Applying the key stream twice gives the data back. *)
Lemma ctr_loop_involutive fuel c d :
  is_block c -> (length d <= fuel)%nat -> ctr_loop e fuel c (ctr_loop e fuel c d) = d.
Proof.
  revert c d. induction fuel as [|fuel IH]; intros c d Hc Hl; [destruct d; simpl in *; [done | lia]|].
  pose proof (ctr_loop_length (S fuel) c d Hc Hl) as L.
  cbn [ctr_loop] in *. destruct (Nat.eqb_spec (length d) 0) as [Hd | Hd]; [now destruct d|].
  destruct (encrypt_is_block c Hc) as [Lb _]. unfold AES_BLOCK_SIZE in *.
  set (len := if (length d <? 16)%nat then length d else 16%nat) in *.
  assert (length (xor_bytes (take len d) (take len (aes_encrypt e c))) = len) as Lx.
  { rewrite xor_bytes_length; rewrite !length_take, ?Lb; unfold len;
      destruct (Nat.ltb_spec (length d) 16); lia. }
  rewrite L. destruct (Nat.eqb_spec (length d) 0); [done|]. fold len.
  rewrite take_app_length', drop_app_length' by done.
  rewrite IH by (apply ctr_inc_block, Hc || (rewrite length_drop; unfold len;
    destruct (Nat.ltb_spec (length d) 16); lia)).
  rewrite xor_bytes_involutive; [apply take_drop|].
  rewrite !length_take, Lb. unfold len. destruct (Nat.ltb_spec (length d) 16); lia.
Qed.

Lemma ctr_loop_ok fuel c d : is_block c -> bytes_ok d -> bytes_ok (ctr_loop e fuel c d).
Proof.
  revert c d. induction fuel as [|fuel IH]; intros c d Hc Hd; cbn [ctr_loop]; [constructor|].
  destruct (_ =? 0)%nat; [constructor|]. apply bytes_ok_app.
  destruct (encrypt_is_block c Hc) as [_ Bb].
  split; [apply zip_lxor_ok; auto with wpa | apply IH; auto using ctr_inc_block with wpa].
Qed.

Context (d : aes_ctx) (Hd : aes_decrypt_init key = Some d).

Lemma cbc_loop_inverse n iv data :
  is_block iv -> (16 * n <= length data)%nat -> bytes_ok data ->
  cbc_decrypt_loop d n iv (cbc_encrypt_loop e n iv data) = data
  /\ length (cbc_encrypt_loop e n iv data) = length data.
Proof.
  revert iv data. induction n as [|n IH]; intros iv data Hiv Hl Hb; [done|]. cbn [cbc_encrypt_loop cbc_decrypt_loop].
  assert (is_block (take AES_BLOCK_SIZE data)) as Ht
    by (split; [rewrite length_take; unfold AES_BLOCK_SIZE; lia | auto with wpa]).
  pose proof (xor_bytes_block iv _ Hiv Ht) as Hx. pose proof (encrypt_is_block _ Hx) as Hc.
  destruct (IH (aes_encrypt e (xor_bytes iv (take AES_BLOCK_SIZE data))) (drop AES_BLOCK_SIZE data)) as [E1 E2];
    [done | rewrite length_drop; unfold AES_BLOCK_SIZE; lia | auto with wpa |].
  rewrite take_app_length', drop_app_length' by (now destruct Hc). rewrite E1.
  rewrite (aes_decrypt_encrypt key e d) by done. split.
  - rewrite (xor_bytes_comm iv), xor_bytes_involutive by (destruct Ht, Hiv; congruence). apply take_drop.
  - rewrite length_app, E2. destruct Hc as [-> _]. rewrite length_drop. unfold AES_BLOCK_SIZE. lia.
Qed.
End Ctx.
End RoundTrips.

(** ** OMAC1 against RFC 4493 *)

(** The value of a buffer as a big-endian number. *)
Definition be_val (l : bytes) : Z := fold_left (fun v b => v * 256 + b) l 0.

(** Multiplication by x in GF(2^128). *)
Definition gf_dbl (v : Z) : Z :=
  let v2 := wrap 128 (2 * v) in
  if 2 ^ 127 <=? v then Z.lxor v2 0x87 else v2.

(** [n] bytes of a number. *)
Fixpoint be_bytes (n : nat) (v : Z) : bytes :=
  match n with O => [] | S n => be_bytes n (v / 256) ++ [v mod 256] end.

Section Reference.
Context `{AesCipher}.

(** The last block of a message, complete or padded with 10...0. *)
Definition cmac_final (ctx : aes_ctx) (k1 k2 x m : bytes) : bytes :=
  if (length m =? 16)%nat then aes_encrypt ctx (xor_bytes k1 (xor_bytes x m))
  else aes_encrypt ctx (xor_bytes k2 (xor_bytes x (m ++ 0x80 :: replicate (15 - length m) 0))).

(** The chain over the blocks before the last one. *)
Fixpoint cmac_chain (ctx : aes_ctx) (k1 k2 : bytes) (fuel : nat) (x m : bytes) : bytes :=
  match fuel with
  | O => cmac_final ctx k1 k2 x m
  | S fuel =>
      if (length m <=? 16)%nat then cmac_final ctx k1 k2 x m
      else cmac_chain ctx k1 k2 fuel (aes_encrypt ctx (xor_bytes x (take 16 m))) (drop 16 m)
  end.

Definition cmac_with (dbl : bytes -> bytes) (ctx : aes_ctx) (m : bytes) : bytes :=
  let k1 := dbl (aes_encrypt ctx (replicate 16 0)) in
  cmac_chain ctx k1 (dbl k1) (length m) (replicate 16 0) m.

(** AES-CMAC: the subkeys are multiples in the field, as numbers. *)
Definition cmac : aes_ctx -> bytes -> bytes := cmac_with (fun b => be_bytes 16 (gf_dbl (be_val b))).
End Reference.

(** *** Absorbing bytes *)

(** [cbc[i..] ^= l] *)
Fixpoint xor_at (i : nat) (cbc l : bytes) : bytes :=
  match l with
  | [] => cbc
  | b :: l => xor_at (S i) (<[i := Z.lxor (byte_at cbc i) b]> cbc) l
  end.

Lemma xor_at_length i cbc l : length (xor_at i cbc l) = length cbc.
Proof. revert i cbc. induction l as [|b l IH]; intros; simpl; [done|]. now rewrite IH, length_insert. Qed.

Lemma xor_at_app a c l : (length l <= length c)%nat ->
  xor_at (length a) (a ++ c) l = a ++ xor_bytes (take (length l) c) l ++ drop (length l) c.
Proof.
  revert a c. induction l as [|b l IH]; intros a c Hl; [done|].
  destruct c as [|x c]; simpl in Hl; [lia|]. cbn [xor_at].
  replace (byte_at (a ++ x :: c) (length a)) with x by (unfold byte_at; rewrite app_nth2 by lia; now rewrite Nat.sub_diag).
  replace (<[length a:=Z.lxor x b]> (a ++ x :: c)) with ((a ++ [Z.lxor x b]) ++ c)
    by (rewrite insert_app_r_alt by lia; rewrite Nat.sub_diag, <- app_assoc; done).
  replace (S (length a)) with (length (a ++ [Z.lxor x b])) by (rewrite length_app; simpl; lia).
  rewrite IH by lia. rewrite <- app_assoc. reflexivity.
Qed.

(** A whole block is a plain xor, and a shorter end with the marker of the padding
    is the xor of the padded block. *)
Lemma xor_at_block cbc l : length l = length cbc -> xor_at 0 cbc l = xor_bytes cbc l.
Proof.
  intros Hl. pose proof (xor_at_app [] cbc l ltac:(lia)) as E. simpl in E. rewrite E.
  rewrite Hl, firstn_all, drop_all. apply app_nil_r.
Qed.

Lemma xor_bytes_zeros c : xor_bytes c (replicate (length c) 0) = c.
Proof. unfold xor_bytes. induction c as [|x c IH]; simpl; [done|]. now rewrite Z.lxor_0_r, IH. Qed.

Lemma xor_at_pad cbc l : length cbc = 16%nat -> (length l < 16)%nat ->
  let c := xor_at 0 cbc l in
  <[length l := Z.lxor (byte_at c (length l)) 0x80]> c
  = xor_bytes cbc (l ++ 0x80 :: replicate (15 - length l) 0).
Proof.
  intros Hc Hl. cbn zeta. pose proof (xor_at_app [] cbc l ltac:(lia)) as E. simpl in E. rewrite E. clear E.
  assert (length (xor_bytes (take (length l) cbc) l) = length l) as Lx
    by (unfold xor_bytes; rewrite length_zip_with, length_take; lia).
  destruct (drop (length l) cbc) as [|x r] eqn:Ed; [apply (f_equal length) in Ed; rewrite length_drop in Ed; simpl in Ed; lia|].
  unfold byte_at. rewrite app_nth2, Lx, Nat.sub_diag by lia. cbn [nth].
  rewrite insert_app_r_alt by lia. rewrite Lx, Nat.sub_diag. cbn [insert list_insert].
  rewrite <- (take_drop (length l) cbc) at 2. rewrite Ed. unfold xor_bytes at 2.
  rewrite zip_with_app by (rewrite length_take; lia). f_equal. cbn [zip_with]. f_equal.
  assert (15 - length l = length r)%nat as ->
    by (apply (f_equal length) in Ed; rewrite length_drop in Ed; simpl in Ed; lia).
  symmetry. apply xor_bytes_zeros.
Qed.

(** What is left to read, at a place where something can be read next. *)
Definition readable (cur : bytes) (rest : list bytes) : Prop := Forall (fun l => l <> []) (cur :: rest).

Lemma omac1_absorb_spec n i cbc cur rest :
  readable cur rest -> (n <= length (concat (cur :: rest)))%nat ->
  exists cur' rest',
    omac1_absorb (n =? length (concat (cur :: rest)))%nat n i cbc cur rest
    = Some (xor_at i cbc (take n (concat (cur :: rest))), cur', rest')
    /\ concat (cur' :: rest') = drop n (concat (cur :: rest))
    /\ ((n < length (concat (cur :: rest)))%nat -> readable cur' rest').
Proof.
  revert i cbc cur rest. induction n as [|n IH]; intros i cbc cur rest Hr Hn.
  { exists cur, rest. auto. }
  destruct cur as [|b cur]; [now apply Forall_inv in Hr|]. apply Forall_inv_tail in Hr.
  cbn [omac1_absorb concat app length take drop xor_at Nat.eqb] in *.
  destruct cur as [|b' cur]; [cbn [app] in *|].
  - destruct rest as [|c rest].
    + destruct n; [|simpl in *; lia]. exists [], []. split_and!; [done|done|simpl; lia].
    + assert (0 < length (concat (c :: rest)))%nat as Hc
        by (apply Forall_inv in Hr; destruct c; [done | simpl; lia]).
      replace ((n =? 0)%nat && _) with false
        by (symmetry; apply andb_false_iff; destruct (Nat.eqb_spec n 0); [right; apply Nat.eqb_neq; lia | now left]).
      cbn [concat] in *.
      destruct (IH (S i) (<[i:=Z.lxor (byte_at cbc i) b]> cbc) c rest Hr ltac:(lia)) as (cur' & rest' & E & Ec & Hw).
      exists cur', rest'. split; [exact E|]. split; [exact Ec|]. intros. apply Hw. lia.
  - destruct (IH (S i) (<[i:=Z.lxor (byte_at cbc i) b]> cbc) (b' :: cur) rest) as (cur' & rest' & E & Ec & Hw);
      [now constructor | cbn [concat app length] in *; lia|].
    exists cur', rest'. split; [exact E|]. split; [exact Ec|]. intros. apply Hw. cbn [concat app length] in *. lia.
Qed.

Section Omac.
Context `{AesLaws}.
Context (key : bytes) (e : aes_ctx) (Hk : bytes_ok key) (He : aes_encrypt_init key = Some e).

(** What the rest of omac1_aes_vector() does after the loop over whole blocks. *)
Definition omac1_finish (total_len lft : nat) (cbc cur : bytes) (rest : list bytes) : option bytes :=
  let pad := gf_mulx (aes_encrypt e (replicate AES_BLOCK_SIZE 0)) in
  let? (cbc, pad) :=
    if negb (lft =? 0)%nat || (total_len =? 0)%nat then
      let? (cbc, _, _) := omac1_absorb true lft 0 cbc cur rest in
      Some (<[lft := Z.lxor (byte_at cbc lft) 0x80]> cbc, gf_mulx pad)
    else Some (cbc, pad) in
  Some (aes_encrypt e (xor_bytes pad cbc)).

Abbreviation K1 := (gf_mulx (aes_encrypt e (replicate 16 0))).

Lemma omac1_loop_spec fuel total cbc cur rest :
  length cbc = 16%nat -> bytes_ok cbc -> (0 < total)%nat ->
  readable cur rest -> bytes_ok (concat (cur :: rest)) -> (length (concat (cur :: rest)) <= fuel)%nat ->
  (let? (lft, cbc, cur, rest) := omac1_blocks e (S fuel) (length (concat (cur :: rest))) cbc cur rest in
   omac1_finish total lft cbc cur rest)
  = Some (cmac_chain e K1 (gf_mulx K1) fuel cbc (concat (cur :: rest))).
Proof.
  revert cbc cur rest. induction fuel as [|fuel IH]; intros cbc cur rest Hc Bc Ht Hr Hb Hf.
  { destruct cur; [now apply Forall_inv in Hr | simpl in Hf; lia]. }
  set (m := concat (cur :: rest)) in *.
  assert (0 < length m)%nat as Hm
    by (unfold m; apply Forall_inv in Hr; destruct cur; [done | simpl; lia]).
  cbn [omac1_blocks cmac_chain]. unfold AES_BLOCK_SIZE.
  destruct (Nat.ltb_spec (length m) 16) as [Hs | Hs].
  - rewrite (proj2 (Nat.leb_le _ _)) by lia. unfold omac1_finish, cmac_final, AES_BLOCK_SIZE.
    destruct (omac1_absorb_spec (length m) 0 cbc cur rest Hr ltac:(done)) as (cur' & rest' & E & _).
    fold m in E. rewrite Nat.eqb_refl in E.
    destruct (Nat.eqb_spec (length m) 0), (Nat.eqb_spec (length m) 16); try lia. cbn [negb orb].
    rewrite E, firstn_all. do 3 f_equal. apply xor_at_pad; lia.
  - destruct (omac1_absorb_spec 16 0 cbc cur rest Hr Hs) as (cur' & rest' & E & Ec & Hw). fold m in E, Ec, Hw.
    assert (length (take 16 m) = length cbc) as Lt by (rewrite length_take; lia).
    replace (length m =? 16)%nat with (16 =? length m)%nat by apply Nat.eqb_sym.
    rewrite E, xor_at_block by done. destruct (Nat.ltb_spec 16 (length m)) as [H16 | H16].
    + rewrite (proj2 (Nat.leb_gt _ _)) by lia.
      replace (length m - 16)%nat with (length (concat (cur' :: rest'))) by (rewrite Ec, length_drop; lia).
      rewrite <- Ec. assert (is_block (xor_bytes cbc (take 16 m))) as Bx
        by (apply xor_bytes_block; split; auto with wpa; rewrite Lt; done).
      destruct (encrypt_is_block key e Hk He _ Bx) as [Le Be].
      apply IH; auto; rewrite Ec; [auto with wpa | rewrite length_drop; lia].
    + rewrite (proj2 (Nat.leb_le _ _)) by lia. replace (length m - 16)%nat with 0%nat by lia.
      unfold omac1_finish, cmac_final. cbn [omac1_blocks].
      destruct (Nat.eqb_spec total 0), (Nat.eqb_spec (length m) 16); try lia. cbn.
      rewrite (firstn_all2 m) by lia. reflexivity.
Qed.

Lemma omac1_aes_vector_nonempty key' key_len addr :
  take key_len key' = key -> addr <> [] -> Forall (fun l => l <> []) addr -> bytes_ok (concat addr) ->
  omac1_aes_vector key' key_len addr = Some (Some (cmac_with gf_mulx e (concat addr))).
Proof.
  intros Ek Hne Hr Hb. unfold omac1_aes_vector. rewrite Ek, He.
  destruct addr as [|cur rest]; [done|].
  assert (sum_list (length <$> (cur :: rest)) = length (concat (cur :: rest))) as ->.
  { clear. induction (cur :: rest) as [|x l IH]; [done|]. cbn [concat]. rewrite length_app, <- IH. reflexivity. }
  set (m := concat (cur :: rest)) in *. cbn [mbind option_bind].
  assert (0 < length m)%nat as Hm
    by (unfold m; apply Forall_inv in Hr; destruct cur; [done | simpl; lia]).
  pose proof (omac1_loop_spec (length m) (length m) (replicate 16 0) cur rest eq_refl
    ltac:(apply bytes_ok_replicate; unfold is_uint; lia) Hm Hr Hb ltac:(done)) as E.
  fold m in E. unfold AES_BLOCK_SIZE in *.
  destruct (omac1_blocks e (S (length m)) (length m) (replicate 16 0) cur rest) as [[[[l c] cu] re]|]; [|discriminate].
  unfold omac1_finish, AES_BLOCK_SIZE in E. unfold cmac_with. rewrite <- E. cbn.
  destruct (negb (l =? 0)%nat || _); [|done].
  now destruct (omac1_absorb true l 0 c cu re) as [[[? ?] ?]|].
Qed.

(** A message without bytes, in one empty buffer. *)
Lemma omac1_aes_vector_nil key' key_len :
  take key_len key' = key -> omac1_aes_vector key' key_len [[]] = Some (Some (cmac_with gf_mulx e [])).
Proof.
  intros Ek. unfold omac1_aes_vector. rewrite Ek, He. cbn -[gf_mulx]. unfold cmac_with, cmac_chain, cmac_final.
  cbn -[gf_mulx]. reflexivity.
Qed.

(** An empty buffer before other bytes is read out of bounds. *)
Lemma omac1_aes_vector_out_of_bounds key' key_len x m :
  take key_len key' = key -> omac1_aes_vector key' key_len [[]; x :: m] = None.
Proof.
  intros Ek. unfold omac1_aes_vector. rewrite Ek, He.
  replace (sum_list (length <$> [[]; x :: m])) with (S (length m)) by (cbn; lia).
  cbn [omac1_blocks]. destruct (Nat.ltb_spec (S (length m)) AES_BLOCK_SIZE).
  - reflexivity.
  - reflexivity.
Qed.
End Omac.

(** *** Doubling *)

Lemma be_val_fold l v : fold_left (fun v b => v * 256 + b) l v = v * 2 ^ (8 * zlen l) + be_val l.
Proof.
  unfold be_val. revert v. induction l as [|b l IH]; intros v; cbn [fold_left].
  - unfold zlen. simpl. lia.
  - rewrite IH, (IH (0 * 256 + b)), zlen_cons.
    replace (8 * (zlen l + 1)) with (8 * zlen l + 8) by lia.
    rewrite Z.pow_add_r by (pose proof (zlen_nonneg l); lia). lia.
Qed.

Lemma be_val_cons b l : be_val (b :: l) = b * 2 ^ (8 * zlen l) + be_val l.
Proof. unfold be_val at 1. cbn [fold_left]. rewrite be_val_fold. lia. Qed.

Lemma be_val_snoc l b : be_val (l ++ [b]) = be_val l * 256 + b.
Proof. unfold be_val. now rewrite fold_left_app. Qed.

Lemma be_val_range l : bytes_ok l -> is_uint (8 * zlen l) (be_val l).
Proof.
  intros H. induction H as [|b l Hb Hl IH]; [done|].
  rewrite be_val_cons, zlen_cons. unfold is_uint in *.
  replace (8 * (zlen l + 1)) with (8 * zlen l + 8) by lia.
  rewrite Z.pow_add_r by (pose proof (zlen_nonneg l); lia). change (2 ^ 8) with 256 in *. nia.
Qed.

Lemma length_shift_left l : length (shift_left_bytes l) = length l.
Proof. induction l as [|b [|b' l] IH]; [done..|]. cbn [shift_left_bytes length] in *. now rewrite IH. Qed.

Lemma shift_or b c : is_byte b -> 0 <= c < 2 -> u8 (Z.lor (Z.shiftl b 1) c) = u8 (2 * b + c).
Proof.
  intros Hb Hc. rewrite Z.shiftl_mul_pow2 by lia. f_equal.
  assert (Z.land (b * 2 ^ 1) c = 0) as Hz.
  { apply Z.bits_inj'. intros i Hi. rewrite Z.land_spec, Z.bits_0, Z.mul_pow2_bits by lia.
    destruct (Z.eq_dec i 0) as [-> | Hn]; [now rewrite Z.testbit_neg_r by lia|].
    rewrite (testbit_uint_high 1 c) by (unfold is_uint; lia). apply andb_false_r. }
  pose proof (Z.add_lor_land (b * 2 ^ 1) c) as E. rewrite Hz in E. lia.
Qed.

Lemma shift_carry q b c w :
  0 < q -> 0 <= 2 * w - c * q < q -> 0 <= b ->
  (2 * b + c) mod 256 * q + (2 * w) mod q = (2 * (b * q + w)) mod (q * 256).
Proof.
  intros Hq Hr Hb.
  replace (2 * (b * q + w)) with (q * (2 * b + c) + (2 * w - c * q)) by lia.
  replace ((2 * w) mod q) with (2 * w - c * q).
  - rewrite (Z.mul_comm _ q), (Z.rem_mul_r _ q 256) by lia.
    set (r := 2 * w - c * q) in *. clearbody r.
    replace ((q * (2 * b + c) + r) / q) with (2 * b + c) by (Z.div_mod_to_equations; nia).
    replace ((q * (2 * b + c) + r) mod q) with r by (apply (Z.mod_unique_pos _ _ (2 * b + c)); lia). lia.
  - apply (Z.mod_unique_pos _ _ c); lia.
Qed.

Lemma shift_left_val l : bytes_ok l -> l <> [] ->
  be_val (shift_left_bytes l) = wrap (8 * zlen l) (2 * be_val l).
Proof.
  intros Hl. induction Hl as [|b l Hb Hl IH]; intros Hn; [done|]. destruct l as [|b' l].
  - cbn [shift_left_bytes]. unfold be_val. cbn [fold_left]. unfold zlen, wrap. simpl length.
    change (8 * Z.of_nat 1) with 8. rewrite Z.shiftl_mul_pow2 by lia.
    now replace (2 * (0 * 256 + b)) with (b * 2 ^ 1) by lia.
  - specialize (IH ltac:(done)). inversion Hl as [|? ? Hb' Hl']; subst.
    change (shift_left_bytes (b :: b' :: l)) with
      (u8 (Z.lor (Z.shiftl b 1) (Z.shiftr b' 7)) :: shift_left_bytes (b' :: l)).
    rewrite be_val_cons, IH. unfold zlen at 1. rewrite length_shift_left. fold (zlen (b' :: l)).
    rewrite (be_val_cons b), (zlen_cons b).
    pose proof (be_val_range l Hl') as Hv. rewrite (be_val_cons b' l), (zlen_cons b').
    pose proof (zlen_nonneg l) as H0. set (n := zlen l) in *. set (v := be_val l) in *. clearbody n v.
    assert (0 <= Z.shiftr b' 7 < 2) as Hc.
    { rewrite Z.shiftr_div_pow2 by lia. unfold is_uint in Hb'. change (2 ^ 8) with 256 in Hb'.
      change (2 ^ 7) with 128. Z.div_mod_to_equations. lia. }
    rewrite (shift_or b _ Hb Hc). rewrite Z.shiftr_div_pow2 in * by lia.
    unfold wrap, is_uint in *. replace (8 * (n + 1 + 1)) with (8 * n + 16) by lia.
    replace (8 * (n + 1)) with (8 * n + 8) by lia. rewrite !Z.pow_add_r by lia.
    change (2 ^ 8) with 256 in *. change (2 ^ 16) with (256 * 256). change (2 ^ 7) with 128 in *.
    set (p := 2 ^ (8 * n)) in *. assert (0 < p) by (apply Z.pow_pos_nonneg; lia). clearbody p.
    rewrite (Z.mul_assoc p 256 256). apply shift_carry; [lia | | lia]. Z.div_mod_to_equations. nia.
Qed.

Lemma byte_top b : is_byte b -> (Z.land b 0x80 =? 0) = (b <? 128).
Proof. intros Hb. apply eqb_prop. revert b Hb. refine (forall_byte _ _). vm_compute. reflexivity. Qed.

Lemma lxor_low a b : is_byte b -> Z.lxor (a * 256 + b) 0x87 = a * 256 + Z.lxor b 0x87.
Proof.
  intros Hb. assert (is_byte (Z.lxor b 0x87)) as Hx by (apply is_uint_lxor; unfold is_uint in *; lia).
  apply Z.bits_inj'. intros i Hi. rewrite Z.lxor_spec.
  assert (forall c, is_byte c -> Z.testbit (a * 256 + c) i = if i <? 8 then Z.testbit c i else Z.testbit a (i - 8)) as E.
  { intros c Hc. change 256 with (2 ^ 8). destruct (Z.ltb_spec i 8).
    - rewrite <- (Z.mod_pow2_bits_low _ 8) by done. f_equal. unfold is_uint in Hc.
      rewrite Z.add_comm, Z.mod_add, Z.mod_small by lia. done.
    - replace i with (i - 8 + 8) at 1 by lia. rewrite <- Z.div_pow2_bits by lia. f_equal.
      rewrite Z.div_add_l, Z.div_small by (unfold is_uint in Hc; lia). lia. }
  rewrite !E by done. destruct (Z.ltb_spec i 8); [now rewrite Z.lxor_spec|].
  rewrite (testbit_uint_high 8 0x87) by (unfold is_uint; lia). apply xorb_false_r.
Qed.

Lemma shift_left_ok l : bytes_ok (shift_left_bytes l).
Proof.
  induction l as [|b [|b' l] IH]; [constructor | repeat constructor; apply is_uint_wrap8|].
  cbn [shift_left_bytes] in *. constructor; [apply is_uint_wrap8 | exact IH].
Qed.

(** gf_mulx() multiplies by x in GF(2^128). *)
Lemma gf_mulx_spec l : is_block l -> be_val (gf_mulx l) = gf_dbl (be_val l) /\ is_block (gf_mulx l).
Proof.
  intros [Hl Hb]. unfold AES_BLOCK_SIZE in Hl. unfold gf_mulx, gf_dbl.
  assert (wrap 128 (2 * be_val l) = be_val (shift_left_bytes l)) as E.
  { rewrite shift_left_val by (done || now destruct l). unfold zlen. now rewrite Hl. }
  rewrite E, byte_top by now apply byte_at_ok.
  assert ((byte_at l 0 <? 128) = negb (2 ^ 127 <=? be_val l)) as ->.
  { destruct l as [|b l]; [discriminate|]. inversion Hb as [|? ? Hx Hr]; subst.
    rewrite be_val_cons. pose proof (be_val_range l Hr) as R. unfold byte_at, zlen, is_uint in *.
    injection Hl as Hl. rewrite Hl in *. change (8 * Z.of_nat 15) with 120 in *.
    change (2 ^ 127) with (128 * 2 ^ 120). cbn [nth].
    destruct (Z.ltb_spec b 128), (Z.leb_spec (128 * 2 ^ 120) (b * 2 ^ 120 + be_val l)); simpl; try done; nia. }
  pose proof (length_shift_left l) as Ls. pose proof (shift_left_ok l) as Bs. rewrite Hl in Ls.
  destruct (2 ^ 127 <=? be_val l); cbn [negb]; [|now split; [|split]].
  destruct (shift_left_bytes l) as [|x r _] using rev_ind; [discriminate|].
  rewrite length_app in Ls. simpl in Ls. apply bytes_ok_app in Bs as [Br Bx]. apply Forall_inv in Bx.
  unfold byte_at. unfold AES_BLOCK_SIZE. rewrite app_nth2 by lia.
  replace (16 - 1 - length r)%nat with 0%nat by lia. cbn [nth].
  rewrite insert_app_r_alt by lia. replace (16 - 1 - length r)%nat with 0%nat by lia. cbn [insert list_insert].
  rewrite !be_val_snoc, lxor_low by done. split; [done|]. split; [rewrite length_app; cbn; unfold AES_BLOCK_SIZE; lia|].
  apply bytes_ok_app. split; [done|]. apply Forall_singleton. apply is_uint_lxor; unfold is_uint in *; lia.
Qed.

Lemma be_bytes_val l : bytes_ok l -> be_bytes (length l) (be_val l) = l.
Proof.
  induction l as [|b l IH] using rev_ind; intros Hl; [done|]. apply bytes_ok_app in Hl as [Hl Hb].
  apply Forall_inv in Hb. unfold is_uint in Hb. rewrite length_app, Nat.add_comm, be_val_snoc.
  cbn [length Nat.add be_bytes]. rewrite Z.div_add_l, Z.div_small, Z.add_0_r by lia.
  rewrite Z.add_comm, Z.mod_add, Z.mod_small by lia. now rewrite IH.
Qed.

Lemma gf_mulx_dbl l : is_block l -> gf_mulx l = be_bytes 16 (gf_dbl (be_val l)).
Proof.
  intros H. destruct (gf_mulx_spec l H) as [E [L B]]. rewrite <- E. symmetry.
  unfold AES_BLOCK_SIZE in L. rewrite <- L. now apply be_bytes_val.
Qed.

Lemma zero_block : is_block (replicate 16 0).
Proof. split; [done|]. apply bytes_ok_replicate. unfold is_uint. lia. Qed.

(** The subkeys of the code are those of the RFC. *)
Lemma cmac_mulx `{AesLaws} key e m : bytes_ok key -> aes_encrypt_init key = Some e ->
  cmac_with gf_mulx e m = cmac e m.
Proof.
  intros Hk He. unfold cmac, cmac_with. cbn zeta.
  pose proof (encrypt_is_block key e Hk He _ zero_block) as B0.
  pose proof (proj2 (gf_mulx_spec _ B0)) as B1. now rewrite (gf_mulx_dbl _ B1), (gf_mulx_dbl _ B0).
Qed.

(** Every vector of buffers that are not empty, and the empty message, are read in
    bounds and give the MAC of RFC 4493 over their concatenation. *)
Lemma omac1_aes_vector_spec `{AesLaws} key key_len e addr :
  bytes_ok key -> bytes_ok (concat addr) -> aes_encrypt_init (take key_len key) = Some e ->
  (addr <> [] /\ Forall (fun l => l <> []) addr) \/ addr = [[]] ->
  omac1_aes_vector key key_len addr = Some (Some (cmac e (concat addr))).
Proof.
  intros Hk Hb He Hc. rewrite <- (cmac_mulx (take key_len key)) by (done || now apply bytes_ok_take).
  destruct Hc as [[Hn Hf] | ->].
  - now apply (omac1_aes_vector_nonempty (take key_len key) e (bytes_ok_take _ _ Hk) He).
  - now apply (omac1_aes_vector_nil (take key_len key) e He).
Qed.

(** One buffer is always read in bounds. *)
Lemma omac1_one `{AesLaws} key key_len e data :
  bytes_ok key -> bytes_ok data -> aes_encrypt_init (take key_len key) = Some e ->
  omac1_aes_vector key key_len [data] = Some (Some (cmac e data)).
Proof.
  intros Hk Hb He. replace (cmac e data) with (cmac e (concat [data])) by (simpl; now rewrite app_nil_r).
  apply omac1_aes_vector_spec; auto; simpl; rewrite ?app_nil_r; auto.
  destruct data; [now right | left]. split; [done | now repeat constructor].
Qed.

Lemma omac1_one_none `{AesCipher} key key_len data :
  aes_encrypt_init (take key_len key) = None -> omac1_aes_vector key key_len [data] = Some None.
Proof. intros E. unfold omac1_aes_vector. now rewrite E. Qed.

(** The MAC is a block. *)
Section MacBlock.
Context `{AesLaws} (key : bytes) (e : aes_ctx) (Hk : bytes_ok key) (He : aes_encrypt_init key = Some e).

Lemma cmac_final_block k1 k2 x m : is_block k1 -> is_block k2 ->
  is_block x -> bytes_ok m -> (length m <= 16)%nat -> is_block (cmac_final e k1 k2 x m).
Proof.
  intros Hk1 Hk2 Hx Hm Hl. unfold cmac_final.
  destruct (Nat.eqb_spec (length m) 16) as [E | E].
  - apply (encrypt_is_block key e Hk He), xor_bytes_block; [done|]. now apply xor_bytes_block.
  - apply (encrypt_is_block key e Hk He), xor_bytes_block; [done|].
    apply xor_bytes_block; [done|]. split.
    + rewrite length_app. cbn [length]. rewrite length_replicate. unfold AES_BLOCK_SIZE. lia.
    + apply bytes_ok_app. split; [done|]. constructor; [unfold is_uint; lia|].
      apply bytes_ok_replicate. unfold is_uint. lia.
Qed.

Lemma cmac_block m : bytes_ok m -> is_block (cmac e m).
Proof.
  rewrite <- (cmac_mulx key) by done. unfold cmac_with. cbn zeta.
  pose proof (proj2 (gf_mulx_spec _ (encrypt_is_block key e Hk He _ zero_block))) as Hk1.
  pose proof (proj2 (gf_mulx_spec _ Hk1)) as Hk2. revert Hk1 Hk2.
  generalize (gf_mulx (gf_mulx (aes_encrypt e (replicate 16 0)))) as k2.
  generalize (gf_mulx (aes_encrypt e (replicate 16 0))) as k1. intros k1 k2 Hk1 Hk2.
  assert (length m <= length m)%nat as Hf by done. revert Hf.
  generalize (length m) at 2 3 as fuel. pose proof zero_block as Hx. revert Hx.
  generalize (replicate 16 0) as x. intros x Hx fuel Hf Hm. revert x m Hx Hf Hm.
  induction fuel as [|fuel IH]; intros x m Hx Hf Hm; cbn [cmac_chain].
  - apply cmac_final_block; auto. lia.
  - destruct (Nat.leb_spec (length m) 16); [now apply cmac_final_block|].
    apply IH; [|rewrite length_drop; lia | auto with wpa].
    apply (encrypt_is_block key e Hk He), xor_bytes_block; [done|].
    split; [rewrite length_take; unfold AES_BLOCK_SIZE; lia | auto with wpa].
Qed.
End MacBlock.

(** C33. omac1_aes_vector() computes AES-CMAC (RFC 4493) of the concatenation of its
    buffers, without reading outside them, for every vector of buffers that are
    not empty and for the empty message; an empty buffer in front of others is read
    out of bounds. *)
Theorem omac1_is_cmac `{AesLaws} key key_len e addr :
  bytes_ok key -> bytes_ok (concat addr) -> aes_encrypt_init (take key_len key) = Some e ->
  (addr <> [] /\ Forall (fun l => l <> []) addr) \/ addr = [[]] ->
  omac1_aes_vector key key_len addr = Some (Some (cmac e (concat addr))).
Proof. apply omac1_aes_vector_spec. Qed.
