(* ===== verification/HashMd.v ===== *)
(** * Iterated hash functions

    What the hash functions of src/crypto share: a compression function applied to
    the whole blocks of a message.  [absorb st l] is the reference definition, the
    state after the whole blocks of [l] and the bytes left over; a function that
    takes the message in pieces computes it whatever the pieces are. *)

From S2P Require Import Prelude.

(** [memcpy(&buf[i], src, n)] in an array. *)
Definition store_at (i : nat) (src buf : bytes) : bytes :=
  take i buf ++ src ++ drop (i + length src) buf.

Lemma length_store_at i src buf :
  (i + length src <= length buf)%nat -> length (store_at i src buf) = length buf.
Proof. intros. unfold store_at. rewrite !length_app, length_take, length_drop. lia. Qed.

Lemma take_store_at i src buf : (i + length src <= length buf)%nat ->
  take (i + length src) (store_at i src buf) = take i buf ++ src.
Proof.
  intros. unfold store_at. rewrite app_assoc, take_app_length'; [done|].
  rewrite length_app, length_take. lia.
Qed.

Lemma take_store_at_0 src buf : (length src <= length buf)%nat -> take (length src) (store_at 0 src buf) = src.
Proof. intros. exact (take_store_at 0 src buf H). Qed.

(** The bytes left over after more data. *)
Lemma mod_after B n len p :
  (0 < B)%nat -> p = (n mod B)%nat -> (B <= p + len)%nat -> ((len - (B - p)) mod B = (n + len) mod B)%nat.
Proof.
  intros HB -> Hl. pose proof (Nat.div_mod_eq n B). pose proof (Nat.mod_upper_bound n B ltac:(lia)).
  set (p := (n mod B)%nat) in *. set (q := (n / B)%nat) in *. clearbody p q.
  replace (n + len)%nat with (len - (B - p) + (q + 1) * B)%nat by nia. now rewrite Nat.Div0.mod_add.
Qed.

(** Rotation of a [w]-bit word to the left and to the right. *)
Definition rotl (w v n : Z) : Z := Z.lor (wrap w (Z.shiftl v n)) (Z.shiftr v (w - n)).
Definition rotr_w (w v n : Z) : Z := Z.lor (Z.shiftr v n) (wrap w (Z.shiftl v (w - n))).

Section Absorb.
Context {St : Type} (B : nat) (comp : St -> bytes -> St).

Fixpoint absorb_loop (fuel : nat) (st : St) (l : bytes) : St * bytes :=
  match fuel with
  | O => (st, l)
  | S fuel => if (length l <? B)%nat then (st, l) else absorb_loop fuel (comp st (take B l)) (drop B l)
  end.

Definition absorb (st : St) (l : bytes) : St * bytes := absorb_loop (length l) st l.

Hypothesis HB : (0 < B)%nat.

Lemma absorb_loop_fuel f1 f2 st l :
  (length l <= f1)%nat -> (length l <= f2)%nat -> absorb_loop f1 st l = absorb_loop f2 st l.
Proof.
  revert f2 st l. induction f1 as [|f1 IH]; intros f2 st l H1 H2.
  - destruct f2; cbn [absorb_loop]; [done|]. destruct (Nat.ltb_spec (length l) B); [done | lia].
  - destruct f2; cbn [absorb_loop]; destruct (Nat.ltb_spec (length l) B); try done; try lia.
    apply IH; rewrite length_drop; lia.
Qed.

Lemma absorb_short st l : (length l < B)%nat -> absorb st l = (st, l).
Proof.
  intros H. unfold absorb. destruct l as [|x l]; [done|]. cbn [length absorb_loop].
  now rewrite (proj2 (Nat.ltb_lt _ _)).
Qed.

Lemma absorb_block st l : (B <= length l)%nat ->
  absorb st l = absorb (comp st (take B l)) (drop B l).
Proof.
  intros H. unfold absorb. rewrite (absorb_loop_fuel (length l) (S (length l))) by lia. cbn [absorb_loop].
  rewrite (proj2 (Nat.ltb_ge _ _)) by done. apply absorb_loop_fuel; rewrite length_drop; lia.
Qed.

Lemma absorb_ind (P : St -> bytes -> Prop) :
  (forall st l, (length l < B)%nat -> P st l) ->
  (forall st l, (B <= length l)%nat -> P (comp st (take B l)) (drop B l) -> P st l) ->
  forall st l, P st l.
Proof.
  intros H0 H1 st l. remember (length l) as n eqn:E. revert st l E.
  induction n as [n IH] using lt_wf_ind. intros st l ->.
  destruct (Nat.lt_ge_cases (length l) B); [now apply H0|]. apply H1; [done|].
  apply (IH (length (drop B l))); [rewrite length_drop; lia | done].
Qed.

(** The bytes left over do not make a block. *)
Lemma absorb_rest st l : length (absorb st l).2 = (length l mod B)%nat.
Proof.
  revert st l. apply absorb_ind.
  - intros st l H. rewrite absorb_short by done. now rewrite Nat.mod_small.
  - intros st l H IH. rewrite absorb_block, IH, length_drop by done.
    replace (length l) with (length l - B + 1 * B)%nat at 2 by lia. now rewrite Nat.Div0.mod_add.
Qed.

(** A message may come in two pieces. *)
Lemma absorb_app st l k : absorb st (l ++ k) = absorb (absorb st l).1 ((absorb st l).2 ++ k).
Proof.
  revert st l. apply absorb_ind.
  - intros st l H. now rewrite (absorb_short st l).
  - intros st l H IH. rewrite (absorb_block st (l ++ k)) by (rewrite length_app; lia).
    rewrite take_app_le, drop_app_le by lia. rewrite IH. now rewrite (absorb_block st l).
Qed.

Lemma absorb_state (P : St -> Prop) st l : P st -> (forall st b, P (comp st b)) -> P (absorb st l).1.
Proof.
  intros H0 Hc. revert st l H0. apply (absorb_ind (fun st l => P st -> P (absorb st l).1)).
  - intros st l H. now rewrite absorb_short.
  - intros st l H IH _. rewrite absorb_block by done. apply IH, Hc.
Qed.

(** Whole blocks leave nothing over. *)
Lemma absorb_one st l : length l = B -> absorb st l = (comp st l, []).
Proof.
  intros H. rewrite absorb_block, absorb_short by (rewrite ?length_drop; lia).
  now rewrite take_ge, drop_ge by lia.
Qed.
End Absorb.

(** ** Padding

    A byte 0x80, zeros, and the length in bits at the end of a block. *)
Definition md_pad (B : nat) (len_bytes : bytes) (n : nat) : bytes :=
  0x80 :: replicate ((2 * B - 1 - length len_bytes - n mod B) mod B) 0 ++ len_bytes.

(** ** Lengths in 32-bit halves *)

Lemma u8_u32_div n p q : 0 < p -> 0 < q -> 2 ^ 32 = p * 256 * q -> u8 (u32 n / p) = u8 (n / p).
Proof.
  intros Hp Hq E. unfold wrap. rewrite E. change (2 ^ 8) with 256.
  rewrite <- Z.mul_assoc, Z.rem_mul_r by lia. rewrite (Z.mul_comm p), Z.div_add by lia.
  rewrite (Z.div_small (n mod p)) by (apply Z.mod_pos_bound; lia).
  rewrite Z.add_0_l, Z.rem_mul_r by lia. rewrite (Z.mul_comm 256), Z.mod_add by lia. apply Zmod_mod.
Qed.

Lemma put_be32_wrap n : put_be32 (u32 n) = put_be32 n.
Proof.
  unfold put_be32. rewrite (u8_u32_div n 16777216 1), (u8_u32_div n 65536 256), (u8_u32_div n 256 65536) by lia.
  pose proof (u8_u32_div n 1 16777216 ltac:(lia) ltac:(lia) ltac:(lia)) as E.
  rewrite !Z.div_1_r in E. now rewrite E.
Qed.

Lemma put_be64_wrap n : put_be64 (u64 n) = put_be64 n.
Proof.
  unfold put_be64. rewrite <- (put_be32_wrap (wrap 64 n / 2 ^ 32)), <- (put_be32_wrap (n / 2 ^ 32)),
    <- (put_be32_wrap (wrap 64 n)), <- (put_be32_wrap n).
  unfold wrap. change (2 ^ 64) with (2 ^ 32 * 2 ^ 32). f_equal; f_equal.
  - rewrite Z.rem_mul_r by lia. rewrite (Z.mul_comm (2 ^ 32) (_ mod _)), Z.div_add by lia.
    rewrite (Z.div_small (n mod 2 ^ 32)) by (apply Z.mod_pos_bound; lia). apply Zmod_mod.
  - rewrite Z.rem_mul_r by lia. rewrite (Z.mul_comm (2 ^ 32) (_ mod _)), Z.mod_add by lia. apply Zmod_mod.
Qed.

Lemma wrap_add_l w a b : 0 <= w -> wrap w (wrap w a + b) = wrap w (a + b).
Proof. intros. unfold wrap. apply Zplus_mod_idemp_l. Qed.

(** A sum of two words is smaller than one of them when it wraps. *)
Lemma carry_of_sum w a b : 0 <= w -> 0 <= a -> 0 <= b ->
  (a + b) / 2 ^ w = a / 2 ^ w + b / 2 ^ w
    + (if wrap w (wrap w a + wrap w b) <? wrap w b then 1 else 0).
Proof.
  intros Hw Ha Hb. unfold wrap. assert (0 < 2 ^ w) as HM by lia. set (M := 2 ^ w) in *. clearbody M. pose proof (Z.mod_pos_bound a M HM). pose proof (Z.mod_pos_bound b M HM).
  pose proof (Z.div_mod a M). pose proof (Z.div_mod b M).
  set (x := a mod M) in *. set (y := b mod M) in *. set (p := a / M) in *. set (q := b / M) in *.
  assert (a + b = (p + q) * M + (x + y)) as -> by lia. rewrite Z.div_add_l by lia. clearbody x y p q.
  destruct (Z.lt_ge_cases (x + y) M).
  - rewrite Z.div_small, Z.mod_small by lia. destruct (Z.ltb_spec (x + y) y); lia.
  - replace (x + y) with (x + y - M + 1 * M) by lia. rewrite Z.div_add, Z.mod_add by lia.
    rewrite Z.div_small, Z.mod_small by lia. destruct (Z.ltb_spec (x + y - M) y); lia.
Qed.

(** The bit count of [n] bytes in two words, after [len] more. *)
Lemma bit_count_add n len :
  0 <= n -> 0 <= len ->
  let bits := u32 (Z.shiftl len 3) in
  let c0 := u32 (u32 (8 * n) + bits) in
  c0 = u32 (8 * (n + len))
  /\ u32 ((if c0 <? bits then u32 (u32 (8 * n / 2 ^ 32) + 1) else u32 (8 * n / 2 ^ 32)) + Z.shiftr len 29)
     = u32 (8 * (n + len) / 2 ^ 32).
Proof.
  intros Hn Hl. cbn zeta. rewrite Z.shiftl_mul_pow2, Z.shiftr_div_pow2 by lia.
  replace (len * 2 ^ 3) with (8 * len) by lia.
  assert (len / 2 ^ 29 = 8 * len / 2 ^ 32) as ->.
  { change (2 ^ 32) with (8 * 2 ^ 29). now rewrite Z.div_mul_cancel_l by lia. }
  split; [unfold wrap; rewrite <- Zplus_mod; f_equal; lia|].
  replace (8 * (n + len)) with (8 * n + 8 * len) by lia.
  rewrite (carry_of_sum 32) by lia.
  destruct (_ <? _); rewrite ?(wrap_add_l 32 (8 * n / 2 ^ 32) 1), wrap_add_l by lia; f_equal; lia.
Qed.

Lemma bit_count_index n : 0 <= n -> Z.land (Z.shiftr (u32 (8 * n)) 3) 63 = n mod 64.
Proof.
  intros Hn. change 63 with (Z.ones 6). rewrite Z.land_ones, Z.shiftr_div_pow2 by lia. unfold wrap.
  change (2 ^ 3) with 8. change (2 ^ 6) with 64. change (2 ^ 32) with 4294967296.
  Z.div_mod_to_equations. lia.
Qed.

Lemma land_shifted x m k : 0 <= k -> Z.land x (Z.shiftl m k) = Z.shiftl (Z.land (Z.shiftr x k) m) k.
Proof.
  intros Hk. apply Z.bits_inj'. intros i Hi. rewrite Z.land_spec, !Z.shiftl_spec by lia.
  destruct (Z.lt_ge_cases i k).
  - rewrite !(Z.testbit_neg_r _ (i - k)) by lia. apply andb_false_r.
  - rewrite Z.land_spec, Z.shiftr_spec by lia. now replace (i - k + k) with i by lia.
Qed.

(** The test of the padding loops on the bit count. *)
Lemma bit_count_56 n : (Z.land (u32 (8 * Z.of_nat n)) 504 =? 448) = (n mod 64 =? 56)%nat.
Proof.
  change 504 with (Z.shiftl 63 3). rewrite land_shifted, bit_count_index, Z.shiftl_mul_pow2 by lia.
  change 64 with (Z.of_nat 64). rewrite <- Nat2Z.inj_mod.
  destruct (Z.eqb_spec (Z.of_nat (n mod 64) * 2 ^ 3) 448), (Nat.eqb_spec (n mod 64) 56); lia.
Qed.

(** The zeros leave [L] bytes to the end of a block. *)
Lemma pad_zeros B L n z : (L < B)%nat -> z = ((2 * B - 1 - L - n mod B) mod B)%nat ->
  (z < B)%nat /\ ((n + 1 + z + L) mod B = 0)%nat.
Proof.
  intros HB ->. pose proof (Nat.div_mod_eq n B). pose proof (Nat.mod_upper_bound n B ltac:(lia)).
  set (p := (n mod B)%nat) in *. set (q := (n / B)%nat) in *. clearbody p q.
  split; [apply Nat.mod_upper_bound; lia|].
  destruct (Nat.le_gt_cases p (B - 1 - L)).
  - replace (2 * B - 1 - L - p)%nat with (B - 1 - L - p + 1 * B)%nat by lia.
    rewrite Nat.Div0.mod_add, (Nat.mod_small (B - 1 - L - p)) by lia.
    replace (n + 1 + (B - 1 - L - p) + L)%nat with ((q + 1) * B)%nat by nia. apply Nat.Div0.mod_mul.
  - rewrite (Nat.mod_small (2 * B - 1 - L - p)) by lia.
    replace (n + 1 + (2 * B - 1 - L - p) + L)%nat with ((q + 2) * B)%nat by nia. apply Nat.Div0.mod_mul.
Qed.

(** Digests made of words. *)
Lemma digest_words (f : Z -> bytes) k l :
  (forall w, length (f w) = k /\ bytes_ok (f w)) ->
  length (concat (f <$> l)) = (k * length l)%nat /\ bytes_ok (concat (f <$> l)).
Proof.
  intros Hf. induction l as [|w l [IH1 IH2]]; [split; [simpl; lia | constructor]|].
  cbn [fmap list_fmap concat length]. destruct (Hf w) as [L B].
  split; [rewrite length_app, L, IH1; lia | now apply bytes_ok_app].
Qed.

Lemma put_be32_word w : length (put_be32 w) = 4%nat /\ bytes_ok (put_be32 w).
Proof. split; [reflexivity | apply put_be32_ok]. Qed.
