(* ===== verification/HashSha1.v ===== *)
(** * The internal SHA-1 (src/crypto/sha1-internal.c)

    The context is the structure of sha1_i.h; the block of the transformation is an
    array of sixteen words, read from the buffer in big-endian order (blk0).  The
    macros R0 to R4 become one turn of a fold that also rotates the five working
    variables, as the arguments of the unrolled calls do. *)

From S2P Require Import Prelude HashMd.

(* sha1_i.h struct SHA1Context *)
Record SHA1_CTX := Sha1Ctx {
  sha1_state : list Z;
  count0 : Z;
  count1 : Z;
  sha1_buffer : bytes
}.
#[export] Instance eta_SHA1_CTX : Eta SHA1_CTX :=
  fun c => Sha1Ctx (sha1_state c) (count0 c) (count1 c) (sha1_buffer c).

(* sha1-internal.c rol @130-130 *)
Definition rol (value bits : Z) : Z := rotl 32 value bits.

(** The five working variables in the order of the macro arguments, and the block. *)
Definition sha1_vars : Type := Z * Z * Z * Z * Z.

Definition wordl (l : list Z) (i : nat) : Z := nth i l 0.

(** blk0() and blk(): the word of round [i], stored back into the block. *)
(* sha1-internal.c blk @135-141 *)
Definition blk (i : nat) (l : list Z) : list Z :=
  if (i <? 16)%nat then l else
  <[(i mod 16)%nat := rol (Z.lxor (Z.lxor (Z.lxor (wordl l ((i + 13) mod 16)) (wordl l ((i + 8) mod 16)))
                                          (wordl l ((i + 2) mod 16))) (wordl l (i mod 16))) 1]> l.

(** The mixing function and the constant of R0/R1, R2, R3 and R4. *)
(* sha1-internal.c R0 @144-157 *)
Definition sha1_f (i : nat) (w x y : Z) : Z :=
  if (i <? 20)%nat then Z.lxor (Z.land w (Z.lxor x y)) y
  else if (i <? 40)%nat then Z.lxor (Z.lxor w x) y
  else if (i <? 60)%nat then Z.lor (Z.land (Z.lor w x) y) (Z.land w x)
  else Z.lxor (Z.lxor w x) y.
(* sha1-internal.c R0 @144-157 *)
Definition sha1_k (i : nat) : Z :=
  if (i <? 20)%nat then 0x5A827999 else if (i <? 40)%nat then 0x6ED9EBA1
  else if (i <? 60)%nat then 0x8F1BBCDC else 0xCA62C1D6.

(** One macro call; the next call names the variables one place further. *)
(* sha1-internal.c R0 @144-157 *)
Definition sha1_round (s : sha1_vars * list Z) (i : nat) : sha1_vars * list Z :=
  let '((v, w, x, y, z), l) := s in
  let l := blk i l in
  let z := u32 (z + (sha1_f i w x y + wordl l (i mod 16) + sha1_k i + rol v 5)) in
  let w := rol w 30 in
  ((z, v, w, x, y), l).

(* sha1-internal.c SHA1Transform *)
Definition SHA1Transform (state : list Z) (buffer : bytes) : list Z :=
  let block := (fun i => get_be32 (drop (4 * i) buffer)) <$> seq 0 16 in
  let a := wordl state 0 in let b := wordl state 1 in let c := wordl state 2 in
  let d := wordl state 3 in let e := wordl state 4 in
  let '((a', b', c', d', e'), _) := fold_left sha1_round (seq 0 80) ((a, b, c, d, e), block) in
  [u32 (a + a'); u32 (b + b'); u32 (c + c'); u32 (d + d'); u32 (e + e')].

(** The buffer of a context on the stack holds what was there before. *)
(* sha1-internal.c SHA1Init *)
Definition SHA1Init (buffer : bytes) : SHA1_CTX :=
  Sha1Ctx [0x67452301; 0xEFCDAB89; 0x98BADCFE; 0x10325476; 0xC3D2E1F0] 0 0 buffer.

(** [for ( ; i + 63 < len; i += 64)]: the state, and the data from [i] on. *)
(* sha1-internal.c SHA1Update @263-265 *)
Fixpoint sha1_blocks (fuel : nat) (state : list Z) (data : bytes) : list Z * bytes :=
  match fuel with
  | O => (state, data)
  | S fuel =>
      if (63 <? length data)%nat then sha1_blocks fuel (SHA1Transform state (take 64 data)) (drop 64 data)
      else (state, data)
  end.

(** [len] is a u32; callers pass less than 4 GiB. *)
(* sha1-internal.c SHA1Update *)
Definition SHA1Update (context : SHA1_CTX) (data : bytes) : SHA1_CTX :=
  let len := zlen data in
  let j := Z.land (Z.shiftr (count0 context) 3) 63 in
  let bits := u32 (Z.shiftl len 3) in
  let c0 := u32 (count0 context + bits) in
  let c1 := if c0 <? bits then u32 (count1 context + 1) else count1 context in
  let c1 := u32 (c1 + Z.shiftr len 29) in
  let context := context <| count0 := c0 |> <| count1 := c1 |> in
  if 63 <? u32 (j + len) then
    let i := Z.to_nat (64 - j) in
    let buffer := store_at (Z.to_nat j) (take i data) (sha1_buffer context) in
    let state := SHA1Transform (sha1_state context) buffer in
    let '(state, rest) := sha1_blocks (length data) state (drop i data) in
    context <| sha1_state := state |> <| sha1_buffer := store_at 0 rest buffer |>
  else context <| sha1_buffer := store_at (Z.to_nat j) data (sha1_buffer context) |>.

(** [while ((context->count[0] & 504) != 448)]: at most 63 zeros. *)
(* sha1-internal.c SHA1Final @289-291 *)
Fixpoint sha1_zeros (fuel : nat) (context : SHA1_CTX) : SHA1_CTX :=
  match fuel with
  | O => context
  | S fuel =>
      if Z.land (count0 context) 504 =? 448 then context
      else sha1_zeros fuel (SHA1Update context [0])
  end.

(* sha1-internal.c SHA1Final *)
Definition SHA1Final (context : SHA1_CTX) : bytes :=
  let finalcount := put_be32 (count1 context) ++ put_be32 (count0 context) in
  let context := SHA1Update context [0x80] in
  let context := sha1_zeros 64 context in
  let context := SHA1Update context finalcount in
  concat (put_be32 <$> sha1_state context).

(** [stack] is the old contents of the buffer. *)
(* sha1-internal.c sha1_vector *)
Definition sha1_vector (stack : bytes) (addr : list bytes) : bytes :=
  SHA1Final (fold_left SHA1Update addr (SHA1Init stack)).

(** ** The transformation over the blocks of a whole padded message

    HashFips.v proves it to be SHA-1 of FIPS 180. *)

Definition sha1_init_state : list Z := [0x67452301; 0xEFCDAB89; 0x98BADCFE; 0x10325476; 0xC3D2E1F0].

Definition sha1_absorb (m : bytes) : bytes :=
  let len := put_be32 (8 * zlen m / 2 ^ 32) ++ put_be32 (8 * zlen m) in
  concat (put_be32 <$> (absorb 64 SHA1Transform sha1_init_state (m ++ md_pad 64 len (length m))).1).

Example sha1_abc : sha1_vector (replicate 64 7) [[0x61]; [0x62; 0x63]]
  = [0xA9; 0x99; 0x3E; 0x36; 0x47; 0x06; 0x81; 0x6A; 0xBA; 0x3E; 0x25; 0x71; 0x78; 0x50; 0xC2; 0x6C;
     0x9C; 0xD0; 0xD8; 0x9D].
Proof. vm_compute. reflexivity. Qed.

(** ** The streaming interface computes it *)

(** A context that has seen [n] bytes, of which [part] are not compressed yet. *)
Record sha1_rep (c : SHA1_CTX) (st : list Z) (part : bytes) (n : nat) : Prop := {
  rep_state : sha1_state c = st;
  rep_buffer : length (sha1_buffer c) = 64%nat;
  rep_part : take (length part) (sha1_buffer c) = part;
  rep_length : length part = (n mod 64)%nat;
  rep_count0 : count0 c = u32 (8 * Z.of_nat n);
  rep_count1 : count1 c = u32 (8 * Z.of_nat n / 2 ^ 32)
}.

#[local] Opaque SHA1Transform.

Lemma sha1_blocks_absorb fuel st data :
  (length data <= fuel)%nat -> sha1_blocks fuel st data = absorb 64 SHA1Transform st data.
Proof.
  intros Hf. unfold absorb. rewrite (absorb_loop_fuel 64 SHA1Transform ltac:(lia) (length data) fuel) by done.
  clear Hf. revert st data. induction fuel as [|fuel IH]; intros st data; [done|]. cbn [sha1_blocks absorb_loop].
  destruct (Nat.ltb_spec 63 (length data)), (Nat.ltb_spec (length data) 64); try lia; [apply IH | done].
Qed.

Lemma sha1_index c st part n : sha1_rep c st part n ->
  Z.to_nat (Z.land (Z.shiftr (count0 c) 3) 63) = length part
  /\ Z.land (Z.shiftr (count0 c) 3) 63 = Z.of_nat (length part).
Proof.
  intros [_ _ _ Hl H0 _]. rewrite H0, bit_count_index, Hl by lia.
  change 64 with (Z.of_nat 64). rewrite <- Nat2Z.inj_mod. split; [apply Nat2Z.id | done].
Qed.

Lemma SHA1Update_counts c st part n len :
  sha1_rep c st part n -> 0 <= len ->
  let bits := u32 (Z.shiftl len 3) in
  let c0 := u32 (count0 c + bits) in
  c0 = u32 (8 * (Z.of_nat n + len))
  /\ u32 ((if c0 <? bits then u32 (count1 c + 1) else count1 c) + Z.shiftr len 29)
     = u32 (8 * (Z.of_nat n + len) / 2 ^ 32).
Proof.
  intros [_ _ _ _ H0 H1] Hlen. rewrite H0, H1. apply bit_count_add; lia.
Qed.

Lemma SHA1Update_rep c st part n data :
  sha1_rep c st part n -> zlen data < 2 ^ 31 ->
  let '(st', part') := absorb 64 SHA1Transform st (part ++ data) in
  sha1_rep (SHA1Update c data) st' part' (n + length data).
Proof.
  intros Hr Hd. pose proof (sha1_index c st part n Hr) as [Hj Hj'].
  pose proof (SHA1Update_counts c st part n (zlen data) Hr (zlen_nonneg _)) as [H0 H1].
  destruct Hr as [Hs Hb Hp Hl _ _]. unfold SHA1Update. cbn zeta in *. rewrite H1, H0, Hj, Hj'.
  pose proof (Nat.mod_upper_bound n 64 ltac:(lia)) as Hm.
  assert (8 * (Z.of_nat n + zlen data) = 8 * Z.of_nat (n + length data)) as En by (unfold zlen; lia).
  rewrite wrap_small by (unfold is_uint, zlen in *; lia).
  destruct (Z.ltb_spec 63 (Z.of_nat (length part) + zlen data)) as [Hbig | Hsmall].
  - unfold zlen in Hbig. cbn [sha1_buffer sha1_state over].
    replace (Z.to_nat (64 - Z.of_nat (length part))) with (64 - length part)%nat by lia.
    set (i := (64 - length part)%nat).
    assert (store_at (length part) (take i data) (sha1_buffer c) = part ++ take i data) as Eb.
    { rewrite <- (take_ge (store_at _ _ _) (length part + length (take i data))).
      - rewrite take_store_at by (rewrite length_take; unfold i; lia). now rewrite Hp.
      - rewrite length_store_at by (rewrite length_take; unfold i; lia). rewrite length_take. unfold i. lia. }
    rewrite Eb. rewrite sha1_blocks_absorb by (rewrite length_drop; lia).
    rewrite absorb_block by (rewrite ?length_app; lia).
    assert (take 64 (part ++ data) = part ++ take i data) as -> by (rewrite take_app_ge by lia; reflexivity).
    assert (drop 64 (part ++ data) = drop i data) as -> by (rewrite drop_app_ge by lia; reflexivity).
    rewrite Hs. pose proof (absorb_rest 64 SHA1Transform ltac:(lia) (SHA1Transform st (part ++ take i data)) (drop i data)) as Lr.
    destruct (absorb 64 SHA1Transform _ (drop i data)) as [st' r]. cbn [snd] in Lr.
    assert (length (part ++ take i data) = 64%nat) as L64 by (rewrite length_app, length_take; unfold i; lia).
    rewrite length_drop in Lr. unfold i in Lr. rewrite (mod_after 64 n (length data) (length part)) in Lr by (done || lia).
    pose proof (Nat.mod_upper_bound (n + length data) 64 ltac:(lia)).
    split; cbn -[Nat.modulo]; try done; try (rewrite En; done).
    + rewrite length_store_at; lia.
    + apply take_store_at_0. lia.
  - unfold zlen in Hsmall. rewrite absorb_short by (rewrite length_app; lia).
    split; cbn -[Nat.modulo]; try done; try (rewrite En; done).
    + rewrite length_store_at; lia.
    + rewrite length_app, take_store_at by lia. now rewrite Hp.
    + rewrite length_app, Hl.
      rewrite <- (Nat.Div0.add_mod_idemp_l n). symmetry. apply Nat.mod_small. lia.
Qed.

(** The zeros of the padding: as many as bring the length to 56 modulo 64. *)
Lemma sha1_zeros_rep fuel c st part n z :
  sha1_rep c st part n -> (z < fuel)%nat -> (z < 64)%nat -> ((n + z) mod 64 = 56)%nat ->
  let '(st', part') := absorb 64 SHA1Transform st (part ++ replicate z 0) in
  sha1_rep (sha1_zeros fuel c) st' part' (n + z).
Proof.
  revert c st part n z. induction fuel as [|fuel IH]; intros c st part n z Hr Hf Hz Hm; [lia|]. cbn [sha1_zeros].
  rewrite (rep_count0 _ _ _ _ Hr), bit_count_56. destruct (Nat.eqb_spec (n mod 64) 56) as [E | E].
  - assert (z = 0%nat) as ->.
    { rewrite <- Nat.Div0.add_mod_idemp_l, E in Hm. destruct (Nat.lt_ge_cases z 8).
      - rewrite Nat.mod_small in Hm; lia.
      - replace (56 + z)%nat with (z - 8 + 1 * 64)%nat in Hm by lia.
        rewrite Nat.Div0.mod_add, Nat.mod_small in Hm; lia. }
    rewrite app_nil_r, Nat.add_0_r. rewrite absorb_short; [done | rewrite (rep_length _ _ _ _ Hr); lia].
  - destruct z as [|z]; [rewrite Nat.add_0_r in Hm; lia|].
    pose proof (SHA1Update_rep c st part n [0] Hr ltac:(done)) as Hu.
    change (replicate (S z) 0) with ([0] ++ replicate z 0). rewrite app_assoc, absorb_app by lia.
    destruct (absorb 64 SHA1Transform st (part ++ [0])) as [st' part']. cbn [fst snd].
    replace (n + S z)%nat with (n + length [0%Z] + z)%nat in * by (simpl; lia). apply IH; [done | lia | lia | done].
Qed.

Lemma SHA1Init_rep stack : length stack = 64%nat -> sha1_rep (SHA1Init stack) sha1_init_state [] 0.
Proof. intros H. now split. Qed.

Lemma sha1_updates addr c st part n :
  sha1_rep c st part n -> Forall (fun l => zlen l < 2 ^ 31) addr ->
  let '(st', part') := absorb 64 SHA1Transform st (part ++ concat addr) in
  sha1_rep (fold_left SHA1Update addr c) st' part' (n + length (concat addr)).
Proof.
  intros Hr Ha. revert c st part n Hr. induction Ha as [|a addr Ha _ IH]; intros c st part n Hr.
  - cbn [concat fold_left length]. rewrite app_nil_r, Nat.add_0_r, absorb_short; [done|].
    rewrite (rep_length _ _ _ _ Hr). apply Nat.mod_upper_bound. lia.
  - cbn [concat fold_left]. pose proof (SHA1Update_rep c st part n a Hr Ha) as Hu.
    rewrite app_assoc, absorb_app by lia. destruct (absorb 64 SHA1Transform st (part ++ a)) as [st' part'].
    cbn [fst snd]. rewrite length_app, Nat.add_assoc. now apply IH.
Qed.

Lemma SHA1Final_rep c st part n :
  sha1_rep c st part n ->
  SHA1Final c = concat (put_be32 <$> (absorb 64 SHA1Transform st (part ++
    md_pad 64 (put_be32 (8 * Z.of_nat n / 2 ^ 32) ++ put_be32 (8 * Z.of_nat n)) n)).1).
Proof.
  intros Hr. unfold SHA1Final, md_pad.
  rewrite (rep_count0 _ _ _ _ Hr), (rep_count1 _ _ _ _ Hr), !put_be32_wrap.
  set (len := put_be32 _ ++ put_be32 _). assert (length len = 8%nat) as Ll by done. clearbody len.
  pose proof (SHA1Update_rep c st part n [0x80] Hr ltac:(done)) as H1.
  rewrite Ll. set (z := ((2 * 64 - 1 - 8 - n mod 64) mod 64)%nat).
  destruct (pad_zeros 64 8 n z ltac:(lia) eq_refl) as [Hz Hmod]. clearbody z.
  assert ((n + length [0x80%Z] + z) mod 64 = 56)%nat as H56.
  { cbn [length]. pose proof (Nat.mod_upper_bound (n + 1 + z) 64 ltac:(lia)) as Hu.
    rewrite <- Nat.Div0.add_mod_idemp_l in Hmod. set (r := ((n + 1 + z) mod 64)%nat) in *. clearbody r.
    destruct (Nat.lt_ge_cases r 56); [rewrite Nat.mod_small in Hmod; lia|].
    replace (r + 8)%nat with (r - 56 + 1 * 64)%nat in Hmod by lia.
    rewrite Nat.Div0.mod_add, Nat.mod_small in Hmod; lia. }
  change (0x80 :: replicate z 0 ++ len) with ([0x80] ++ replicate z 0 ++ len).
  rewrite app_assoc, absorb_app by lia.
  destruct (absorb 64 SHA1Transform st (part ++ [0x80])) as [st1 part1]. cbn [fst snd].
  pose proof (sha1_zeros_rep 64 _ st1 part1 _ z H1 Hz Hz H56) as H2.
  rewrite app_assoc, absorb_app by lia.
  destruct (absorb 64 SHA1Transform st1 (part1 ++ replicate z 0)) as [st2 part2]. cbn [fst snd].
  pose proof (SHA1Update_rep _ st2 part2 _ len H2) as H3. unfold zlen in H3; rewrite Ll in H3.
  destruct (absorb 64 SHA1Transform st2 (part2 ++ len)) as [st3 part3].
  specialize (H3 ltac:(done)). now rewrite (rep_state _ _ _ _ H3).
Qed.

(** sha1_vector() is SHA-1 of the concatenation of its buffers. *)
Lemma sha1_vector_absorb stack addr :
  length stack = 64%nat -> Forall (fun l => zlen l < 2 ^ 31) addr ->
  sha1_vector stack addr = sha1_absorb (concat addr).
Proof.
  intros Hs Ha. unfold sha1_vector, sha1_absorb.
  pose proof (sha1_updates addr _ _ _ _ (SHA1Init_rep stack Hs) Ha) as H. cbn [app] in H.
  rewrite absorb_app by lia. destruct (absorb 64 SHA1Transform sha1_init_state (concat addr)) as [st part].
  rewrite (SHA1Final_rep _ st part _ H). reflexivity.
Qed.

Lemma sha1_absorb_digest m : length (sha1_absorb m) = 20%nat /\ bytes_ok (sha1_absorb m).
Proof.
  unfold sha1_absorb. cbn zeta.
  destruct (digest_words put_be32 4 (absorb 64 SHA1Transform sha1_init_state
    (m ++ md_pad 64 (put_be32 (8 * zlen m / 2 ^ 32) ++ put_be32 (8 * zlen m)) (length m))).1 put_be32_word) as [-> B].
  split; [|exact B]. rewrite (absorb_state 64 SHA1Transform ltac:(lia) (fun st => length st = 5%nat)); [done|done|].
  intros st b. #[local] Transparent SHA1Transform. unfold SHA1Transform.
  now destruct (fold_left sha1_round (seq 0 80) _) as [[[[[? ?] ?] ?] ?] ?].
Qed.

(** Whatever was hashed, and however much, the result is a digest. *)
Lemma SHA1Transform_length st b : length (SHA1Transform st b) = 5%nat.
Proof. unfold SHA1Transform. now destruct (fold_left sha1_round (seq 0 80) _) as [[[[[? ?] ?] ?] ?] ?]. Qed.

#[local] Opaque SHA1Transform.

Lemma sha1_blocks_length fuel st data : length st = 5%nat -> length (sha1_blocks fuel st data).1 = 5%nat.
Proof.
  revert st data. induction fuel as [|fuel IH]; intros st data H; [done|]. cbn [sha1_blocks].
  destruct (63 <? length data)%nat; [apply IH, SHA1Transform_length | done].
Qed.

Lemma SHA1Update_length c data : length (sha1_state c) = 5%nat -> length (sha1_state (SHA1Update c data)) = 5%nat.
Proof.
  intros H. unfold SHA1Update. cbn zeta. destruct (63 <? _); [|done]. cbn [sha1_state sha1_buffer over].
  set (st := SHA1Transform _ _). set (i := drop _ data).
  pose proof (sha1_blocks_length (length data) st i (SHA1Transform_length _ _)) as L.
  now destruct (sha1_blocks (length data) st i) as [st' rest].
Qed.

Lemma sha1_zeros_length fuel c : length (sha1_state c) = 5%nat -> length (sha1_state (sha1_zeros fuel c)) = 5%nat.
Proof.
  revert c. induction fuel as [|fuel IH]; intros c H; [done|]. cbn [sha1_zeros].
  destruct (_ =? _); [done|]. apply IH. now apply SHA1Update_length.
Qed.

Lemma sha1_vector_digest stack addr : length (sha1_vector stack addr) = 20%nat /\ bytes_ok (sha1_vector stack addr).
Proof.
  unfold sha1_vector. assert (length (sha1_state (SHA1Init stack)) = 5%nat) as L by done.
  revert L. generalize (SHA1Init stack). induction addr as [|a addr IH]; intros c L.
  - cbn [fold_left]. unfold SHA1Final.
    set (c' := SHA1Update _ _). assert (length (sha1_state c') = 5%nat) as L'
      by (apply SHA1Update_length, sha1_zeros_length, SHA1Update_length, L).
    clearbody c'. destruct (digest_words put_be32 4 (sha1_state c') put_be32_word) as [-> B]. split; [lia | exact B].
  - apply IH. now apply SHA1Update_length.
Qed.
