(* ===== verification/HashMd5.v ===== *)
(** * The internal MD5 (src/crypto/md5-internal.c)

    The context is the structure of md5_i.h, on a little-endian machine: byteReverse()
    does nothing and the block of the transformation is an array of sixteen
    little-endian words.  The sixty-four MD5STEP calls are a table (index into the block, constant,
    shift) and a fold that rotates the four working variables as their arguments do. *)

From S2P Require Import Prelude HashMd.

(* md5_i.h struct MD5Context *)
Record MD5_CTX := Md5Ctx {
  md5_buf : list Z;
  bits0 : Z;
  bits1 : Z;
  md5_in : bytes
}.
#[export] Instance eta_MD5_CTX : Eta MD5_CTX := fun c => Md5Ctx (md5_buf c) (bits0 c) (bits1 c) (md5_in c).

(** A word in the memory of a little-endian machine. *)
Definition get_le32 (l : bytes) : Z :=
  byte_at l 3 * 16777216 + byte_at l 2 * 65536 + byte_at l 1 * 256 + byte_at l 0.
Definition put_le32 (n : Z) : bytes := [u8 n; u8 (n / 256); u8 (n / 65536); u8 (n / 16777216)].

(* md5-internal.c F1 @193-193 *)
Definition F1 (x y z : Z) : Z := Z.lxor z (Z.land x (Z.lxor y z)).
(* md5-internal.c F2 @195-195 *)
Definition F2 (x y z : Z) : Z := F1 z x y.
(* md5-internal.c F3 @196-196 *)
Definition F3 (x y z : Z) : Z := Z.lxor (Z.lxor x y) z.
(** [~z] on 32 bits. *)
(* md5-internal.c F4 @197-197 *)
Definition F4 (x y z : Z) : Z := Z.lxor y (Z.lor x (Z.lxor z 0xffffffff)).

(** The function of round [i]. *)
(* md5-internal.c MD5Transform @217-283 *)
Definition md5_f (i : nat) : Z -> Z -> Z -> Z :=
  if (i <? 16)%nat then F1 else if (i <? 32)%nat then F2 else if (i <? 48)%nat then F3 else F4.

(** The arguments of the calls of MD5STEP: [(k, c, s)] stands for [in[k] + c] and the shift [s]. *)
(* md5-internal.c MD5Transform @217-283 *)
Definition md5_steps : list (nat * Z * Z) := Eval cbv in
  map (fun '(k, c, s) => (Z.to_nat k, c, s))
  [
   (0, 0xd76aa478, 7); (1, 0xe8c7b756, 12); (2, 0x242070db, 17); (3, 0xc1bdceee, 22);
   (4, 0xf57c0faf, 7); (5, 0x4787c62a, 12); (6, 0xa8304613, 17); (7, 0xfd469501, 22);
   (8, 0x698098d8, 7); (9, 0x8b44f7af, 12); (10, 0xffff5bb1, 17); (11, 0x895cd7be, 22);
   (12, 0x6b901122, 7); (13, 0xfd987193, 12); (14, 0xa679438e, 17); (15, 0x49b40821, 22);
   (1, 0xf61e2562, 5); (6, 0xc040b340, 9); (11, 0x265e5a51, 14); (0, 0xe9b6c7aa, 20);
   (5, 0xd62f105d, 5); (10, 0x02441453, 9); (15, 0xd8a1e681, 14); (4, 0xe7d3fbc8, 20);
   (9, 0x21e1cde6, 5); (14, 0xc33707d6, 9); (3, 0xf4d50d87, 14); (8, 0x455a14ed, 20);
   (13, 0xa9e3e905, 5); (2, 0xfcefa3f8, 9); (7, 0x676f02d9, 14); (12, 0x8d2a4c8a, 20);
   (5, 0xfffa3942, 4); (8, 0x8771f681, 11); (11, 0x6d9d6122, 16); (14, 0xfde5380c, 23);
   (1, 0xa4beea44, 4); (4, 0x4bdecfa9, 11); (7, 0xf6bb4b60, 16); (10, 0xbebfbc70, 23);
   (13, 0x289b7ec6, 4); (0, 0xeaa127fa, 11); (3, 0xd4ef3085, 16); (6, 0x04881d05, 23);
   (9, 0xd9d4d039, 4); (12, 0xe6db99e5, 11); (15, 0x1fa27cf8, 16); (2, 0xc4ac5665, 23);
   (0, 0xf4292244, 6); (7, 0x432aff97, 10); (14, 0xab9423a7, 15); (5, 0xfc93a039, 21);
   (12, 0x655b59c3, 6); (3, 0x8f0ccc92, 10); (10, 0xffeff47d, 15); (1, 0x85845dd1, 21);
   (8, 0x6fa87e4f, 6); (15, 0xfe2ce6e0, 10); (6, 0xa3014314, 15); (13, 0x4e0811a1, 21);
   (4, 0xf7537e82, 6); (11, 0xbd3af235, 10); (2, 0x2ad7d2bb, 15); (9, 0xeb86d391, 21)].

Definition md5_vars : Type := Z * Z * Z * Z.

(** MD5STEP(f, w, x, y, z, data, s), and the names of the next call. *)
(* md5-internal.c MD5STEP @200-201 *)
Definition MD5STEP (f : Z -> Z -> Z -> Z) (v : md5_vars) (data s : Z) : md5_vars :=
  let '(w, x, y, z) := v in
  let w := u32 (w + (f x y z + data)) in
  let w := rotl 32 w s in
  let w := u32 (w + x) in
  (z, w, x, y).

Definition md5_word (l : list Z) (k : nat) : Z := nth k l 0.

(* md5-internal.c MD5Transform @217-283 *)
Definition md5_round (inw : list Z) (v : md5_vars) (i : nat) : md5_vars :=
  let '(k, c, s) := nth i md5_steps (0%nat, 0, 0) in
  MD5STEP (md5_f i) v (md5_word inw k + c) s.

(** [in] is the buffer of 64 bytes seen as words. *)
(* md5-internal.c MD5Transform *)
Definition MD5Transform (buf : list Z) (in_ : bytes) : list Z :=
  let inw := (fun k => get_le32 (drop (4 * k) in_)) <$> seq 0 16 in
  let a := md5_word buf 0 in let b := md5_word buf 1 in
  let c := md5_word buf 2 in let d := md5_word buf 3 in
  let '(a', b', c', d') := fold_left (md5_round inw) (seq 0 64) (a, b, c, d) in
  [u32 (a + a'); u32 (b + b'); u32 (c + c'); u32 (d + d')].

(** [in_] is the old contents of the buffer. *)
(* md5-internal.c MD5Init *)
Definition MD5Init (in_ : bytes) : MD5_CTX :=
  Md5Ctx [0x67452301; 0xefcdab89; 0x98badcfe; 0x10325476] 0 0 in_.

(** [while (len >= 64)], and the bytes of data left. *)
(* md5-internal.c MD5Update @133-139 *)
Fixpoint md5_blocks (fuel : nat) (ctx : MD5_CTX) (buf : bytes) : MD5_CTX * bytes :=
  match fuel with
  | O => (ctx, buf)
  | S fuel =>
      if (64 <=? length buf)%nat then
        let in_ := take 64 buf in
        md5_blocks fuel (ctx <| md5_buf := MD5Transform (md5_buf ctx) in_ |> <| md5_in := in_ |>) (drop 64 buf)
      else (ctx, buf)
  end.

(** [len] is unsigned; callers pass less than 4 GiB. *)
(* md5-internal.c MD5Update *)
Definition MD5Update (ctx : MD5_CTX) (buf : bytes) : MD5_CTX :=
  let len := zlen buf in
  let t := bits0 ctx in
  let b0 := u32 (t + u32 (Z.shiftl len 3)) in
  let b1 := if b0 <? t then u32 (bits1 ctx + 1) else bits1 ctx in
  let b1 := u32 (b1 + Z.shiftr len 29) in
  let ctx := ctx <| bits0 := b0 |> <| bits1 := b1 |> in
  let t := Z.land (Z.shiftr t 3) 0x3f in
  let rest ctx buf :=
    let '(ctx, buf) := md5_blocks (length buf) ctx buf in
    ctx <| md5_in := store_at 0 buf (md5_in ctx) |> in
  if t =? 0 then rest ctx buf else
  let room := 64 - t in
  if len <? room then ctx <| md5_in := store_at (Z.to_nat t) buf (md5_in ctx) |> else
  let in_ := store_at (Z.to_nat t) (take (Z.to_nat room) buf) (md5_in ctx) in
  rest (ctx <| md5_in := in_ |> <| md5_buf := MD5Transform (md5_buf ctx) in_ |>) (drop (Z.to_nat room) buf).

(* md5-internal.c MD5Final *)
Definition MD5Final (ctx : MD5_CTX) : bytes :=
  let count := Z.land (Z.shiftr (bits0 ctx) 3) 0x3F in
  let p := (Z.to_nat count + 1)%nat in
  let in_ := store_at (Z.to_nat count) [0x80] (md5_in ctx) in
  let count := 64 - 1 - count in
  let '(buf, in_) :=
    if count <? 8 then
      let in_ := store_at p (replicate (Z.to_nat count) 0) in_ in
      (MD5Transform (md5_buf ctx) in_, store_at 0 (replicate 56 0) in_)
    else (md5_buf ctx, store_at p (replicate (Z.to_nat (count - 8)) 0) in_) in
  let in_ := store_at 56 (put_le32 (bits0 ctx)) in_ in
  let in_ := store_at 60 (put_le32 (bits1 ctx)) in_ in
  concat (put_le32 <$> MD5Transform buf in_).

(** [stack] is the old contents of the buffer. *)
(* md5-internal.c md5_vector *)
Definition md5_vector (stack : bytes) (addr : list bytes) : bytes :=
  MD5Final (fold_left MD5Update addr (MD5Init stack)).

Example md5_abc : md5_vector (replicate 64 7) [[0x61]; [0x62; 0x63]]
  = [0x90; 0x01; 0x50; 0x98; 0x3c; 0xd2; 0x4f; 0xb0; 0xd6; 0x96; 0x3f; 0x7d; 0x28; 0xe1; 0x7f; 0x72].
Proof. vm_compute. reflexivity. Qed.

(** ** The transformation over the blocks of a whole padded message

    HashFips.v proves it to be MD5 of RFC 1321. *)

Definition md5_init_state : list Z := [0x67452301; 0xefcdab89; 0x98badcfe; 0x10325476].

Definition md5_absorb (m : bytes) : bytes :=
  let len := put_le32 (8 * zlen m) ++ put_le32 (8 * zlen m / 2 ^ 32) in
  concat (put_le32 <$> (absorb 64 MD5Transform md5_init_state (m ++ md_pad 64 len (length m))).1).

(** ** The streaming interface computes it *)

(** A context that has seen [n] bytes, of which [part] are not compressed yet. *)
Record md5_rep (c : MD5_CTX) (st : list Z) (part : bytes) (n : nat) : Prop := {
  mrep_state : md5_buf c = st;
  mrep_in : length (md5_in c) = 64%nat;
  mrep_part : take (length part) (md5_in c) = part;
  mrep_length : length part = (n mod 64)%nat;
  mrep_bits0 : bits0 c = u32 (8 * Z.of_nat n);
  mrep_bits1 : bits1 c = u32 (8 * Z.of_nat n / 2 ^ 32)
}.

#[local] Opaque MD5Transform.

Lemma md5_blocks_absorb fuel ctx buf :
  (length buf <= fuel)%nat -> length (md5_in ctx) = 64%nat ->
  let '(ctx', rest) := md5_blocks fuel ctx buf in
  (md5_buf ctx', rest) = absorb 64 MD5Transform (md5_buf ctx) buf
  /\ length (md5_in ctx') = 64%nat /\ bits0 ctx' = bits0 ctx /\ bits1 ctx' = bits1 ctx.
Proof.
  revert ctx buf. induction fuel as [|fuel IH]; intros ctx buf Hf Hi; cbn [md5_blocks].
  { destruct buf; [now rewrite absorb_short by (simpl; lia) | simpl in Hf; lia]. }
  destruct (Nat.leb_spec 64 (length buf)) as [H | H]; [|now rewrite absorb_short by lia].
  rewrite absorb_block by lia. cbn zeta.
  set (c := ctx <| md5_buf := _ |> <| md5_in := _ |>).
  specialize (IH c (drop 64 buf)). rewrite length_drop in IH.
  specialize (IH ltac:(lia) ltac:(unfold c; cbn -[take]; rewrite length_take; lia)).
  destruct (md5_blocks fuel c (drop 64 buf)) as [ctx' rest]. exact IH.
Qed.

(** The carry test compares with the other summand. *)
Lemma md5_carry n b : 0 <= b < 2 ^ 32 -> 0 <= n < 2 ^ 32 -> (u32 (n + b) <? n) = (u32 (n + b) <? b).
Proof.
  intros Hb Hn. unfold wrap. destruct (Z.lt_ge_cases (n + b) (2 ^ 32)).
  - rewrite Z.mod_small by lia. destruct (Z.ltb_spec (n + b) n), (Z.ltb_spec (n + b) b); lia.
  - replace (n + b) with (n + b - 2 ^ 32 + 1 * 2 ^ 32) by lia. rewrite Z.mod_add, Z.mod_small by lia.
    destruct (Z.ltb_spec (n + b - 2 ^ 32) n), (Z.ltb_spec (n + b - 2 ^ 32) b); lia.
Qed.

(** The bytes that follow a full buffer. *)
Lemma md5_rest_rep ctx st n n' buf :
  md5_buf ctx = st -> length (md5_in ctx) = 64%nat ->
  (length buf mod 64 = n' mod 64)%nat ->
  bits0 ctx = u32 (8 * Z.of_nat n') -> bits1 ctx = u32 (8 * Z.of_nat n' / 2 ^ 32) ->
  n = n' ->
  let '(st', part') := absorb 64 MD5Transform st buf in
  md5_rep (let '(ctx, buf) := md5_blocks (length buf) ctx buf in
           ctx <| md5_in := store_at 0 buf (md5_in ctx) |>) st' part' n.
Proof.
  intros <- Hi Hl H0 H1 ->. pose proof (md5_blocks_absorb (length buf) ctx buf ltac:(lia) Hi) as H.
  pose proof (absorb_rest 64 MD5Transform ltac:(lia) (md5_buf ctx) buf) as Lr.
  destruct (md5_blocks (length buf) ctx buf) as [ctx' rest]. destruct H as (E & Hi' & E0 & E1).
  destruct (absorb 64 MD5Transform (md5_buf ctx) buf) as [st' part']. injection E as <- <-. cbn [snd] in Lr.
  pose proof (Nat.mod_upper_bound n' 64 ltac:(lia)).
  split; cbn -[Nat.modulo]; try done; try congruence.
  - rewrite length_store_at; lia.
  - apply take_store_at_0. lia.
Qed.

Lemma MD5Update_counts c st part n len :
  md5_rep c st part n -> 0 <= len ->
  let b0 := u32 (bits0 c + u32 (Z.shiftl len 3)) in
  b0 = u32 (8 * (Z.of_nat n + len))
  /\ u32 ((if b0 <? bits0 c then u32 (bits1 c + 1) else bits1 c) + Z.shiftr len 29)
     = u32 (8 * (Z.of_nat n + len) / 2 ^ 32).
Proof.
  intros [_ _ _ _ H0 H1] Hlen. cbn zeta. rewrite md5_carry.
  - rewrite H0, H1. apply bit_count_add; lia.
  - unfold wrap. apply Z.mod_pos_bound. lia.
  - rewrite H0. unfold wrap. apply Z.mod_pos_bound. lia.
Qed.

Lemma md5_index c st part n : md5_rep c st part n -> Z.land (Z.shiftr (bits0 c) 3) 63 = Z.of_nat (length part).
Proof.
  intros [_ _ _ Hl H0 _]. rewrite H0, bit_count_index, Hl by lia.
  change 64 with (Z.of_nat 64). now rewrite <- Nat2Z.inj_mod.
Qed.

Lemma MD5Update_rep c st part n data :
  md5_rep c st part n ->
  let '(st', part') := absorb 64 MD5Transform st (part ++ data) in
  md5_rep (MD5Update c data) st' part' (n + length data).
Proof.
  intros Hr. pose proof (md5_index c st part n Hr) as Hj.
  pose proof (MD5Update_counts c st part n (zlen data) Hr (zlen_nonneg _)) as [H0 H1].
  destruct Hr as [Hs Hb Hp Hl _ _]. unfold MD5Update. cbn zeta in *. rewrite H1, H0, Hj.
  pose proof (Nat.mod_upper_bound n 64 ltac:(lia)) as Hm.
  assert (8 * (Z.of_nat n + zlen data) = 8 * Z.of_nat (n + length data)) as -> by (unfold zlen; lia).
  destruct (Z.eqb_spec (Z.of_nat (length part)) 0) as [E | E].
  - destruct part; [|simpl in E; lia]. cbn [app]. apply (md5_rest_rep _ _ _ (n + length data)); try done.
    cbn [length] in Hl. rewrite <- Nat.Div0.add_mod_idemp_l, <- Hl. reflexivity.
  - unfold zlen. destruct (Z.ltb_spec (Z.of_nat (length data)) (64 - Z.of_nat (length part))) as [Hlt | Hge].
    + rewrite absorb_short by (rewrite length_app; lia). rewrite Nat2Z.id.
      split; cbn -[Nat.modulo]; try done.
      * rewrite length_store_at; lia.
      * rewrite length_app, take_store_at by lia. now rewrite Hp.
      * rewrite length_app, Hl, <- (Nat.Div0.add_mod_idemp_l n). symmetry. apply Nat.mod_small. lia.
    + rewrite Nat2Z.id. replace (Z.to_nat (64 - Z.of_nat (length part))) with (64 - length part)%nat by lia.
      set (i := (64 - length part)%nat) in *. cbn [md5_in md5_buf over].
      assert (length (store_at (length part) (take i data) (md5_in c)) = 64%nat) as L64
        by (rewrite length_store_at; rewrite ?length_take; lia).
      assert (store_at (length part) (take i data) (md5_in c) = part ++ take i data) as Eb.
      { rewrite <- (take_ge (store_at _ _ _) (length part + length (take i data))) by (rewrite length_take; lia).
        rewrite take_store_at by (rewrite length_take; lia). now rewrite Hp. }
      rewrite Eb in *. rewrite absorb_block by (rewrite ?length_app; lia).
      assert (take 64 (part ++ data) = part ++ take i data) as -> by (rewrite take_app_ge by lia; reflexivity).
      assert (drop 64 (part ++ data) = drop i data) as -> by (rewrite drop_app_ge by lia; reflexivity).
      rewrite <- Hs. apply (md5_rest_rep _ _ _ (n + length data)); try done.
      rewrite length_drop. apply mod_after; [lia | done | lia].
Qed.

Lemma md5_updates addr c st part n :
  md5_rep c st part n ->
  let '(st', part') := absorb 64 MD5Transform st (part ++ concat addr) in
  md5_rep (fold_left MD5Update addr c) st' part' (n + length (concat addr)).
Proof.
  revert c st part n. induction addr as [|a addr IH]; intros c st part n Hr.
  - cbn [concat fold_left length]. rewrite app_nil_r, Nat.add_0_r, absorb_short; [done|].
    rewrite (mrep_length _ _ _ _ Hr). apply Nat.mod_upper_bound. lia.
  - cbn [concat fold_left]. pose proof (MD5Update_rep c st part n a Hr) as Hu.
    rewrite app_assoc, absorb_app by lia. destruct (absorb 64 MD5Transform st (part ++ a)) as [st' part'].
    cbn [fst snd]. rewrite length_app, Nat.add_assoc. now apply IH.
Qed.

Lemma put_le32_wrap n : put_le32 (u32 n) = put_le32 n.
Proof. pose proof (put_be32_wrap n) as E. injection E as E1 E2 E3 E4. unfold put_le32. congruence. Qed.

(** Writing one piece after another. *)
Lemma take_store_next i p src buf : take i buf = p -> length p = i -> (i + length src <= length buf)%nat ->
  take (length (p ++ src)) (store_at i src buf) = p ++ src.
Proof. intros <- L H. rewrite length_app, L. now apply take_store_at. Qed.

(** The bit count goes to the end of the block. *)
Lemma store_bit_count p buf lo hi : take 56 buf = p -> length p = 56%nat -> length buf = 64%nat ->
  store_at 60 (put_le32 hi) (store_at 56 (put_le32 lo) buf) = p ++ put_le32 lo ++ put_le32 hi.
Proof.
  intros E Lp Lb. set (b := put_le32 hi). set (a := put_le32 lo).
  assert (length a = 4%nat /\ length b = 4%nat) as [La Lc] by done. clearbody a b.
  pose proof (take_store_next 56 p a buf E Lp ltac:(lia)) as E1. rewrite length_app, Lp, La in E1.
  pose proof (take_store_next 60 (p ++ a) b (store_at 56 a buf) E1 ltac:(rewrite length_app; lia)) as E2.
  rewrite !length_app, (length_store_at 56), Lp, La, Lc in E2 by lia. specialize (E2 ltac:(lia)).
  rewrite take_ge in E2 by (rewrite !length_store_at; rewrite ?length_store_at; lia).
  now rewrite E2, <- app_assoc.
Qed.

Lemma MD5Final_blocks c st part n :
  md5_rep c st part n ->
  let len := put_le32 (8 * Z.of_nat n) ++ put_le32 (8 * Z.of_nat n / 2 ^ 32) in
  MD5Final c = concat (put_le32 <$>
    (if (length part <? 56)%nat then MD5Transform st (part ++ 0x80 :: replicate (55 - length part) 0 ++ len)
     else MD5Transform (MD5Transform st (part ++ 0x80 :: replicate (63 - length part) 0)) (replicate 56 0 ++ len))).
Proof.
  intros Hr len. unfold MD5Final. rewrite (md5_index _ _ _ _ Hr), Nat2Z.id, (mrep_bits0 _ _ _ _ Hr),
    (mrep_bits1 _ _ _ _ Hr), !put_le32_wrap. pose proof (Nat.mod_upper_bound n 64 ltac:(lia)) as Hm.
  rewrite <- (mrep_length _ _ _ _ Hr) in Hm. rewrite (mrep_state _ _ _ _ Hr). cbn zeta.
  pose proof (mrep_in _ _ _ _ Hr) as Hi.
  pose proof (take_store_next _ part [0x80] _ (mrep_part _ _ _ _ Hr) eq_refl ltac:(simpl; lia)) as E80.
  assert (length (store_at (length part) [0x80] (md5_in c)) = 64%nat) as L80 by (rewrite length_store_at; simpl; lia).
  set (b80 := store_at (length part) [0x80] (md5_in c)) in *. clearbody b80.
  assert (length (part ++ [0x80%Z]) = length part + 1)%nat as Lp by (rewrite length_app; done).
  rewrite Lp in E80.
  destruct (Nat.ltb_spec (length part) 56).
  - rewrite (proj2 (Z.ltb_ge _ _)) by lia.
    replace (Z.to_nat (64 - 1 - Z.of_nat (length part) - 8)) with (55 - length part)%nat by lia.
    pose proof (take_store_next _ _ (replicate (55 - length part) 0) _ E80 Lp
      ltac:(rewrite length_replicate; lia)) as Ez.
    rewrite length_app, Lp, length_replicate in Ez. replace (length part + 1 + (55 - length part))%nat with 56%nat in Ez by lia.
    rewrite (store_bit_count _ _ _ _ Ez).
    2: { rewrite !length_app, length_replicate. cbn [length]. lia. }
    2: { rewrite length_store_at; rewrite ?length_replicate; lia. }
    now rewrite <- !app_assoc.
  - rewrite (proj2 (Z.ltb_lt _ _)) by lia.
    replace (Z.to_nat (64 - 1 - Z.of_nat (length part))) with (63 - length part)%nat by lia.
    pose proof (take_store_next _ _ (replicate (63 - length part) 0) _ E80 Lp
      ltac:(rewrite length_replicate; lia)) as Ez.
    rewrite take_ge in Ez by (rewrite length_app, Lp, length_store_at; rewrite ?length_replicate; lia).
    rewrite Ez, <- app_assoc. cbn [app].
    rewrite (store_bit_count (replicate 56 0)); [| apply (take_store_at_0 (replicate 56 0)) | done | rewrite length_store_at; [|rewrite length_replicate]];
      try (rewrite length_app, length_cons, !length_replicate; lia). done.
Qed.

Lemma MD5Final_rep c st part n :
  md5_rep c st part n ->
  MD5Final c = concat (put_le32 <$> (absorb 64 MD5Transform st (part ++
    md_pad 64 (put_le32 (8 * Z.of_nat n) ++ put_le32 (8 * Z.of_nat n / 2 ^ 32)) n)).1).
Proof.
  intros Hr. rewrite (MD5Final_blocks _ _ _ _ Hr). unfold md_pad.
  pose proof (Nat.mod_upper_bound n 64 ltac:(lia)) as Hm. rewrite <- (mrep_length _ _ _ _ Hr) in *.
  set (len := put_le32 _ ++ put_le32 _). assert (length len = 8%nat) as Ll by done. clearbody len. rewrite Ll.
  set (p := length part) in *. do 2 f_equal. destruct (Nat.ltb_spec p 56).
  - replace ((2 * 64 - 1 - 8 - p) mod 64)%nat with (55 - p)%nat.
    + rewrite absorb_one; [done | lia | rewrite length_app, length_cons, length_app, length_replicate; fold p; lia].
    + replace (2 * 64 - 1 - 8 - p)%nat with (55 - p + 1 * 64)%nat by lia. now rewrite Nat.Div0.mod_add, Nat.mod_small by lia.
  - rewrite (Nat.mod_small (2 * 64 - 1 - 8 - p)) by lia.
    replace (2 * 64 - 1 - 8 - p)%nat with (63 - p + 56)%nat by lia. rewrite replicate_add, <- app_assoc.
    rewrite app_comm_cons, app_assoc, absorb_app by lia.
    rewrite (absorb_one 64 MD5Transform ltac:(lia) st) by (rewrite ?length_app, ?length_cons, ?length_replicate; fold p; lia). cbn [fst snd app].
    rewrite absorb_one by (rewrite ?length_app, ?length_replicate, ?Ll; lia). done.
Qed.

(** md5_vector() is MD5 of the concatenation of its buffers. *)
Lemma md5_vector_absorb stack addr : length stack = 64%nat -> md5_vector stack addr = md5_absorb (concat addr).
Proof.
  intros Hs. unfold md5_vector, md5_absorb.
  assert (md5_rep (MD5Init stack) md5_init_state [] 0) as Hi by now split.
  pose proof (md5_updates addr _ _ _ _ Hi) as H. cbn [app] in H.
  rewrite absorb_app by lia. destruct (absorb 64 MD5Transform md5_init_state (concat addr)) as [st part].
  rewrite (MD5Final_rep _ st part _ H). reflexivity.
Qed.

Lemma put_le32_word w : length (put_le32 w) = 4%nat /\ bytes_ok (put_le32 w).
Proof. split; [reflexivity | repeat constructor; apply is_uint_wrap8]. Qed.

Lemma md5_absorb_digest m : length (md5_absorb m) = 16%nat /\ bytes_ok (md5_absorb m).
Proof.
  unfold md5_absorb. cbn zeta.
  destruct (digest_words put_le32 4 (absorb 64 MD5Transform md5_init_state
    (m ++ md_pad 64 (put_le32 (8 * zlen m) ++ put_le32 (8 * zlen m / 2 ^ 32)) (length m))).1 put_le32_word) as [-> B].
  split; [|exact B]. rewrite (absorb_state 64 MD5Transform ltac:(lia) (fun st => length st = 4%nat)); [done|done|].
  intros st b. #[local] Transparent MD5Transform. unfold MD5Transform.
  now destruct (fold_left (md5_round _) (seq 0 64) _) as [[[? ?] ?] ?].
Qed.
