(* ===== verification/HashMd4.v ===== *)
(** * The internal MD4 (src/crypto/md4-internal.c)

    MD4 serves the NT password hash of MS-CHAP.  The streaming interface is compared with
    the hash of the whole message, as for the other hash functions (HashMd.v).  The
    machine is little-endian, so that the words of a block are read by a memcpy(). *)

From S2P Require Import Prelude HashMd HashMd5.

(* md4-internal.c MD4_CTX @17-21 *)
Record MD4_CTX := Md4Ctx { md4_state : list Z; md4_count : Z; md4_buffer : bytes }.
#[export] Instance eta_MD4_CTX : Eta MD4_CTX := fun c => Md4Ctx (md4_state c) (md4_count c) (md4_buffer c).

(* md4-internal.c F1 *)
Definition F1 (x y z : Z) : Z := Z.lxor z (Z.land x (Z.lxor y z)).
(* md4-internal.c F2 *)
Definition F2 (x y z : Z) : Z := Z.lor (Z.lor (Z.land x y) (Z.land x z)) (Z.land y z).
(* md4-internal.c F3 *)
Definition F3 (x y z : Z) : Z := Z.lxor (Z.lxor x y) z.

(** The function and the constant of the three rounds. *)
(* md4-internal.c MD4Transform @219-268 *)
Definition md4_f (i : nat) : (Z -> Z -> Z -> Z) * Z :=
  if (i <? 16)%nat then (F1, 0) else if (i <? 32)%nat then (F2, 0x5a827999) else (F3, 0x6ed9eba1).

(** The word of the block and the shift of each MD4STEP. *)
(* md4-internal.c MD4Transform @219-268 *)
Definition md4_steps : list (nat * Z) :=
  combine [0; 1; 2; 3; 4; 5; 6; 7; 8; 9; 10; 11; 12; 13; 14; 15;
           0; 4; 8; 12; 1; 5; 9; 13; 2; 6; 10; 14; 3; 7; 11; 15;
           0; 8; 4; 12; 2; 10; 6; 14; 1; 9; 5; 13; 3; 11; 7; 15]%nat
    (concat (replicate 4 [3; 7; 11; 19]) ++ concat (replicate 4 [3; 5; 9; 13])
     ++ concat (replicate 4 [3; 9; 11; 15])).

Definition md4_vars : Type := Z * Z * Z * Z.

(** MD4STEP(f, w, x, y, z, data, s), and the names of the next call. *)
(* md4-internal.c #define MD4STEP *)
Definition MD4STEP (f : Z -> Z -> Z -> Z) (v : md4_vars) (data s : Z) : md4_vars :=
  let '(w, x, y, z) := v in
  let w := u32 (w + (f x y z + data)) in
  let w := rotl 32 w s in
  (z, w, x, y).

(* md4-internal.c MD4Transform @219-268 *)
Definition md4_round (inw : list Z) (v : md4_vars) (i : nat) : md4_vars :=
  let '(k, s) := nth i md4_steps (0%nat, 0) in
  let '(f, c) := md4_f i in
  MD4STEP f v (nth k inw 0 + c) s.

(* md4-internal.c MD4Transform *)
Definition MD4Transform (state : list Z) (block : bytes) : list Z :=
  let in_ := (fun k => get_le32 (drop (4 * k) block)) <$> seq 0 16 in
  let '(a, b, c, d) := (nth 0 state 0, nth 1 state 0, nth 2 state 0, nth 3 state 0) in
  let '(a', b', c', d') := fold_left (md4_round in_) (seq 0 48) (a, b, c, d) in
  [u32 (a + a'); u32 (b + b'); u32 (c + c'); u32 (d + d')].

(** [stack] is the old contents of the buffer. *)
(* md4-internal.c MD4Init *)
Definition MD4Init (stack : bytes) : MD4_CTX :=
  Md4Ctx [0x67452301; 0xefcdab89; 0x98badcfe; 0x10325476] 0 stack.

(** [while (len >= MD4_BLOCK_LENGTH)], and the bytes of data left. *)
(* md4-internal.c MD4Update @131-136 *)
Fixpoint md4_blocks (fuel : nat) (st : list Z) (input : bytes) : list Z * bytes :=
  match fuel with
  | O => (st, input)
  | S fuel =>
      if (64 <=? length input)%nat then md4_blocks fuel (MD4Transform st (take 64 input)) (drop 64 input)
      else (st, input)
  end.

(* md4-internal.c MD4Update *)
Definition MD4Update (ctx : MD4_CTX) (input : bytes) : MD4_CTX :=
  let len := zlen input in
  let have := Z.land (Z.shiftr (md4_count ctx) 3) (64 - 1) in
  let need := 64 - have in
  let ctx := ctx <| md4_count := u64 (md4_count ctx + u64 (Z.shiftl len 3)) |> in
  let '(ctx, input, have) :=
    if need <=? len then
      let '(ctx, input) :=
        if have =? 0 then (ctx, input) else
        let b := store_at (Z.to_nat have) (take (Z.to_nat need) input) (md4_buffer ctx) in
        (ctx <| md4_buffer := b |> <| md4_state := MD4Transform (md4_state ctx) b |>, drop (Z.to_nat need) input) in
      let '(st, input) := md4_blocks (length input) (md4_state ctx) input in
      (ctx <| md4_state := st |>, input, 0)
    else (ctx, input, have) in
  if zlen input =? 0 then ctx
  else ctx <| md4_buffer := store_at (Z.to_nat have) input (md4_buffer ctx) |>.

(* md4-internal.c PUT_64BIT_LE @72-80 *)
Definition put_le64 (n : Z) : bytes := put_le32 n ++ put_le32 (n / 2 ^ 32).

(* md4-internal.c MD4Pad *)
Definition MD4Pad (ctx : MD4_CTX) : MD4_CTX :=
  let count := put_le64 (md4_count ctx) in
  let padlen := 64 - Z.land (Z.shiftr (md4_count ctx) 3) (64 - 1) in
  let padlen := if padlen <? 1 + 8 then padlen + 64 else padlen in
  let ctx := MD4Update ctx (take (Z.to_nat (padlen - 8)) (0x80 :: replicate 63 0)) in
  MD4Update ctx count.

(* md4-internal.c MD4Final *)
Definition MD4Final (ctx : MD4_CTX) : bytes := concat (put_le32 <$> md4_state (MD4Pad ctx)).

(* md4-internal.c md4_vector *)
Definition md4_vector (stack : bytes) (addr : list bytes) : bytes :=
  MD4Final (fold_left MD4Update addr (MD4Init stack)).

Example md4_abc : md4_vector (replicate 64 7) [[0x61]; [0x62; 0x63]]
  = [0xa4; 0x48; 0x01; 0x7a; 0xaf; 0x21; 0xd8; 0x52; 0x5f; 0xc1; 0x0a; 0xe8; 0x7a; 0xa6; 0x72; 0x9d].
Proof. vm_compute. reflexivity. Qed.

(** ** The compression function over the blocks of a whole padded message *)

Definition md4_absorb (m : bytes) : bytes :=
  concat (put_le32 <$> (absorb 64 MD4Transform (md4_state (MD4Init []))
                          (m ++ md_pad 64 (put_le64 (8 * zlen m)) (length m))).1).

(** A context that has seen [n] bytes, of which [part] are not compressed yet. *)
Record md4_rep (c : MD4_CTX) (st : list Z) (part : bytes) (n : nat) : Prop := {
  r4_state : md4_state c = st;
  r4_buffer : length (md4_buffer c) = 64%nat;
  r4_part : take (length part) (md4_buffer c) = part;
  r4_length : length part = (n mod 64)%nat;
  r4_count : md4_count c = u64 (8 * Z.of_nat n)
}.

#[local] Opaque MD4Transform.

Lemma md4_blocks_absorb fuel st input :
  (length input <= fuel)%nat -> md4_blocks fuel st input = absorb 64 MD4Transform st input.
Proof.
  revert st input. induction fuel as [|fuel IH]; intros st input Hf; cbn [md4_blocks].
  { destruct input; [now rewrite absorb_short by (simpl; lia) | simpl in Hf; lia]. }
  destruct (Nat.leb_spec 64 (length input)); [|now rewrite absorb_short by lia].
  rewrite absorb_block by lia. apply IH. rewrite length_drop. lia.
Qed.

Lemma md4_index c st part n : md4_rep c st part n -> Z.land (Z.shiftr (md4_count c) 3) (64 - 1) = Z.of_nat (length part).
Proof.
  intros [_ _ _ Hl H0]. rewrite H0, Hl. change (64 - 1) with (Z.ones 6).
  rewrite Z.land_ones, Z.shiftr_div_pow2 by lia. unfold wrap.
  change (2 ^ 3) with 8. change (2 ^ 6) with 64. change (2 ^ 64) with 18446744073709551616.
  rewrite Nat2Z.inj_mod. Z.div_mod_to_equations. lia.
Qed.

Lemma md4_count_add n len :
  u64 (u64 (8 * Z.of_nat n) + u64 (Z.shiftl (Z.of_nat len) 3)) = u64 (8 * Z.of_nat (n + len)).
Proof.
  rewrite Z.shiftl_mul_pow2 by lia. unfold wrap. rewrite <- Zplus_mod. f_equal. lia.
Qed.

(** Copying what is left into an empty buffer. *)
Lemma md4_store_rep c st part n :
  md4_state c = st -> length (md4_buffer c) = 64%nat -> length part = (n mod 64)%nat ->
  md4_count c = u64 (8 * Z.of_nat n) ->
  md4_rep (if zlen part =? 0 then c
           else c <| md4_buffer := store_at (Z.to_nat 0) part (md4_buffer c) |>) st part n.
Proof.
  intros Hs Hb Hl Hc. pose proof (Nat.mod_upper_bound n 64 ltac:(lia)). unfold zlen.
  destruct (Z.eqb_spec (Z.of_nat (length part)) 0) as [E | E].
  - destruct part; [split; done | simpl in E; lia].
  - split; cbn -[Nat.modulo]; try done.
    + rewrite length_store_at; lia.
    + apply take_store_at_0. lia.
Qed.

Lemma MD4Update_rep c st part n data :
  md4_rep c st part n ->
  let '(st', part') := absorb 64 MD4Transform st (part ++ data) in
  md4_rep (MD4Update c data) st' part' (n + length data).
Proof.
  intros Hr. pose proof (md4_index c st part n Hr) as Hj. destruct Hr as [Hs Hb Hp Hl Hc].
  unfold MD4Update. cbn zeta. rewrite Hj. unfold zlen. rewrite Hc, md4_count_add.
  pose proof (Nat.mod_upper_bound n 64 ltac:(lia)) as Hm.
  destruct (Z.leb_spec (64 - Z.of_nat (length part)) (Z.of_nat (length data))) as [Hge | Hlt].
  - destruct (Z.eqb_spec (Z.of_nat (length part)) 0) as [E | E].
    + destruct part; [|simpl in E; lia]. cbn [app]. cbn [md4_state over].
      rewrite md4_blocks_absorb by lia. rewrite Hs.
      pose proof (absorb_rest 64 MD4Transform ltac:(lia) st data) as Lr.
      destruct (absorb 64 MD4Transform st data) as [st' part']. cbn [snd] in Lr.
      apply md4_store_rep; cbn -[Nat.modulo]; try done.
      rewrite Lr, <- Nat.Div0.add_mod_idemp_l, <- Hl. reflexivity.
    + rewrite Nat2Z.id. replace (Z.to_nat (64 - Z.of_nat (length part))) with (64 - length part)%nat by lia.
      set (i := (64 - length part)%nat) in *. cbn [md4_buffer md4_state over].
      assert (store_at (length part) (take i data) (md4_buffer c) = part ++ take i data) as Eb.
      { rewrite <- (take_ge (store_at _ _ _) (length part + length (take i data)))
          by (rewrite length_store_at; rewrite ?length_take; lia).
        rewrite take_store_at by (rewrite length_take; lia). now rewrite Hp. }
      rewrite Eb in *. rewrite (absorb_block 64 MD4Transform ltac:(lia) st (part ++ data)) by (rewrite ?length_app; lia).
      assert (take 64 (part ++ data) = part ++ take i data) as -> by (rewrite take_app_ge by lia; reflexivity).
      assert (drop 64 (part ++ data) = drop i data) as -> by (rewrite drop_app_ge by lia; reflexivity).
      rewrite md4_blocks_absorb by lia. rewrite Hs.
      pose proof (absorb_rest 64 MD4Transform ltac:(lia) (MD4Transform st (part ++ take i data)) (drop i data)) as Lr.
      destruct (absorb 64 MD4Transform _ (drop i data)) as [st' part']. cbn [snd] in Lr.
      apply md4_store_rep; cbn -[Nat.modulo]; try done.
      * rewrite length_app, length_take. lia.
      * rewrite Lr, length_drop. apply mod_after; [lia | done | lia].
  - rewrite absorb_short by (rewrite length_app; lia). unfold zlen.
    destruct (Z.eqb_spec (Z.of_nat (length data)) 0) as [E | E].
    + destruct data; [|simpl in E; lia]. rewrite app_nil_r. cbn [length]. rewrite Nat.add_0_r. now split.
    + rewrite Nat2Z.id. split; cbn -[Nat.modulo]; try done.
      * rewrite length_store_at; lia.
      * rewrite length_app, take_store_at by lia. now rewrite Hp.
      * rewrite length_app, Hl, <- (Nat.Div0.add_mod_idemp_l n). symmetry. apply Nat.mod_small. lia.
Qed.

Lemma md4_updates addr c st part n :
  md4_rep c st part n ->
  let '(st', part') := absorb 64 MD4Transform st (part ++ concat addr) in
  md4_rep (fold_left MD4Update addr c) st' part' (n + length (concat addr)).
Proof.
  revert c st part n. induction addr as [|a addr IH]; intros c st part n Hr.
  - cbn [concat fold_left length]. rewrite app_nil_r, Nat.add_0_r, absorb_short; [done|].
    rewrite (r4_length _ _ _ _ Hr). apply Nat.mod_upper_bound. lia.
  - cbn [concat fold_left]. pose proof (MD4Update_rep c st part n a Hr) as Hu.
    rewrite app_assoc, absorb_app by lia. destruct (absorb 64 MD4Transform st (part ++ a)) as [st' part'].
    cbn [fst snd]. rewrite length_app, Nat.add_assoc. now apply IH.
Qed.

(** The constant PADDING is long enough, and its part makes the padding of RFC 1320. *)
Lemma md4_padding p :
  (p < 64)%nat ->
  let padlen := 64 - Z.of_nat p in
  let padlen := if padlen <? 1 + 8 then padlen + 64 else padlen in
  take (Z.to_nat (padlen - 8)) (0x80 :: replicate 63 0)
  = 0x80 :: replicate ((2 * 64 - 1 - 8 - p) mod 64) 0.
Proof.
  intros Hp. cbn zeta. destruct (Z.ltb_spec (64 - Z.of_nat p) (1 + 8)).
  - replace (Z.to_nat (64 - Z.of_nat p + 64 - 8)) with (S (119 - p)) by lia. cbn [firstn].
    rewrite take_replicate. do 2 f_equal. rewrite Nat.mod_small by lia. lia.
  - replace (Z.to_nat (64 - Z.of_nat p - 8)) with (S (55 - p)) by lia. cbn [firstn].
    rewrite take_replicate. do 2 f_equal.
    replace (2 * 64 - 1 - 8 - p)%nat with (55 - p + 1 * 64)%nat by lia.
    rewrite Nat.Div0.mod_add, Nat.mod_small by lia. lia.
Qed.

Lemma put_le64_wrap n : put_le64 (u64 n) = put_le64 n.
Proof.
  unfold put_le64. rewrite <- (put_le32_wrap (wrap 64 n)), <- (put_le32_wrap (wrap 64 n / _)),
    <- (put_le32_wrap n), <- (put_le32_wrap (n / _)).
  unfold wrap. change (2 ^ 64) with (2 ^ 32 * 2 ^ 32). f_equal; f_equal.
  - rewrite Z.rem_mul_r by lia. rewrite (Z.mul_comm (2 ^ 32) (_ mod _)), Z.mod_add by lia. apply Zmod_mod.
  - rewrite Z.rem_mul_r by lia. rewrite (Z.mul_comm (2 ^ 32) (_ mod _)), Z.div_add by lia.
    rewrite (Z.div_small (n mod 2 ^ 32)) by (apply Z.mod_pos_bound; lia). apply Zmod_mod.
Qed.

Lemma MD4Pad_rep c st part n :
  md4_rep c st part n ->
  md4_state (MD4Pad c) = (absorb 64 MD4Transform st (part ++ md_pad 64 (put_le64 (8 * Z.of_nat n)) n)).1.
Proof.
  intros Hr. unfold MD4Pad. cbn zeta. rewrite (md4_index c st part n Hr), (r4_count _ _ _ _ Hr), put_le64_wrap.
  pose proof (r4_length _ _ _ _ Hr) as Hl. pose proof (Nat.mod_upper_bound n 64 ltac:(lia)) as Hm.
  rewrite md4_padding by lia. unfold md_pad.
  set (cnt := put_le64 _). assert (length cnt = 8%nat) as Lc by done. clearbody cnt. rewrite Lc, <- Hl.
  set (pad := 0x80 :: replicate _ _).
  pose proof (MD4Update_rep c st part n pad Hr) as Hu.
  replace (part ++ 0x80 :: replicate ((2 * 64 - 1 - 8 - length part) mod 64) 0 ++ cnt)
    with ((part ++ pad) ++ cnt) by (unfold pad; now rewrite <- app_assoc).
  rewrite absorb_app by lia. destruct (absorb 64 MD4Transform st (part ++ pad)) as [st' part'].
  pose proof (MD4Update_rep _ _ _ _ cnt Hu) as Hv. cbn [fst snd].
  destruct (absorb 64 MD4Transform st' (part' ++ cnt)) as [st'' part'']. exact (r4_state _ _ _ _ Hv).
Qed.

(** md4_vector() depends on the concatenation of its buffers only. *)
Lemma md4_vector_absorb stack addr : length stack = 64%nat -> md4_vector stack addr = md4_absorb (concat addr).
Proof.
  intros Hs. unfold md4_vector, md4_absorb, MD4Final.
  assert (md4_rep (MD4Init stack) (md4_state (MD4Init [])) [] 0) as Hi by now split.
  pose proof (md4_updates addr _ _ _ _ Hi) as H. cbn [app] in H.
  rewrite absorb_app by lia. destruct (absorb 64 MD4Transform _ (concat addr)) as [st part].
  rewrite (MD4Pad_rep _ st part _ H). reflexivity.
Qed.

Lemma md4_absorb_digest m : length (md4_absorb m) = 16%nat /\ bytes_ok (md4_absorb m).
Proof.
  unfold md4_absorb.
  destruct (digest_words put_le32 4 (absorb 64 MD4Transform (md4_state (MD4Init []))
    (m ++ md_pad 64 (put_le64 (8 * zlen m)) (length m))).1 put_le32_word) as [-> B].
  split; [|exact B]. rewrite (absorb_state 64 MD4Transform ltac:(lia) (fun st => length st = 4%nat)); [done|done|].
  intros st b. #[local] Transparent MD4Transform. unfold MD4Transform.
  now destruct (fold_left (md4_round _) (seq 0 48) _) as [[[? ?] ?] ?].
Qed.
