(* ===== verification/Des.v ===== *)
(** * The internal DES (src/crypto/des-internal.c)

    DES and 3DES-EDE, table driven: the halves of the block are 32-bit words
    rotated by one bit, an S-box and the permutation after it are one table of words, and the key
    schedule arranges a round key in the same way.  Arithmetic is on u32 unless the source casts to a long. *)

From S2P Require Import Prelude.

(* des-internal.c ROLc *)
Definition ROLc (x y : Z) : Z :=
  Z.land (Z.lor (Z.shiftl x (Z.land y 31)) (Z.shiftr (Z.land x 0xFFFFFFFF) (32 - Z.land y 31))) 0xFFFFFFFF.
(* des-internal.c RORc *)
Definition RORc (x y : Z) : Z :=
  Z.land (Z.lor (Z.shiftr (Z.land x 0xFFFFFFFF) (Z.land y 31)) (Z.shiftl x (32 - Z.land y 31))) 0xFFFFFFFF.

(* des-internal.c bytebit @49-52 *)
Definition bytebit : list Z :=
  [128; 64; 32; 16; 8; 4; 2; 1].

(* des-internal.c bigbyte @54-62 *)
Definition bigbyte : list Z :=
  [0x00800000; 0x00400000; 0x00200000; 0x00100000;
   0x00080000; 0x00040000; 0x00020000; 0x00010000;
   0x00008000; 0x00004000; 0x00002000; 0x00001000;
   0x00000800; 0x00000400; 0x00000200; 0x00000100;
   0x00000080; 0x00000040; 0x00000020; 0x00000010;
   0x00000008; 0x00000004; 0x00000002; 0x00000001].

(* des-internal.c pc1 @66-71 *)
Definition pc1 : list Z :=
  [56; 48; 40; 32; 24; 16; 8; 0; 57; 49; 41; 33; 25; 17;
   9; 1; 58; 50; 42; 34; 26; 18; 10; 2; 59; 51; 43; 35;
   62; 54; 46; 38; 30; 22; 14; 6; 61; 53; 45; 37; 29; 21;
   13; 5; 60; 52; 44; 36; 28; 20; 12; 4; 27; 19; 11; 3].

(* des-internal.c totrot @73-78 *)
Definition totrot : list Z :=
  [1; 2; 4; 6; 8; 10; 12; 14; 15; 17; 19; 21; 23; 25; 27; 28].

(* des-internal.c pc2 @80-85 *)
Definition pc2 : list Z :=
  [13; 16; 10; 23; 0; 4; 2; 27; 14; 5; 20; 9;
   22; 18; 11; 3; 25; 7; 15; 6; 26; 19; 12; 1;
   40; 51; 30; 36; 46; 54; 29; 39; 50; 44; 32; 47;
   43; 48; 38; 55; 33; 52; 45; 41; 49; 35; 28; 31].

(* des-internal.c SP1 @88-106 *)
Definition SP1 : list Z :=
  [0x01010400; 0x00000000; 0x00010000; 0x01010404; 0x01010004; 0x00010404;
   0x00000004; 0x00010000; 0x00000400; 0x01010400; 0x01010404; 0x00000400;
   0x01000404; 0x01010004; 0x01000000; 0x00000004; 0x00000404; 0x01000400;
   0x01000400; 0x00010400; 0x00010400; 0x01010000; 0x01010000; 0x01000404;
   0x00010004; 0x01000004; 0x01000004; 0x00010004; 0x00000000; 0x00000404;
   0x00010404; 0x01000000; 0x00010000; 0x01010404; 0x00000004; 0x01010000;
   0x01010400; 0x01000000; 0x01000000; 0x00000400; 0x01010004; 0x00010000;
   0x00010400; 0x01000004; 0x00000400; 0x00000004; 0x01000404; 0x00010404;
   0x01010404; 0x00010004; 0x01010000; 0x01000404; 0x01000004; 0x00000404;
   0x00010404; 0x01010400; 0x00000404; 0x01000400; 0x01000400; 0x00000000;
   0x00010004; 0x00010400; 0x00000000; 0x01010004].

(* des-internal.c SP2 @108-126 *)
Definition SP2 : list Z :=
  [0x80108020; 0x80008000; 0x00008000; 0x00108020; 0x00100000; 0x00000020;
   0x80100020; 0x80008020; 0x80000020; 0x80108020; 0x80108000; 0x80000000;
   0x80008000; 0x00100000; 0x00000020; 0x80100020; 0x00108000; 0x00100020;
   0x80008020; 0x00000000; 0x80000000; 0x00008000; 0x00108020; 0x80100000;
   0x00100020; 0x80000020; 0x00000000; 0x00108000; 0x00008020; 0x80108000;
   0x80100000; 0x00008020; 0x00000000; 0x00108020; 0x80100020; 0x00100000;
   0x80008020; 0x80100000; 0x80108000; 0x00008000; 0x80100000; 0x80008000;
   0x00000020; 0x80108020; 0x00108020; 0x00000020; 0x00008000; 0x80000000;
   0x00008020; 0x80108000; 0x00100000; 0x80000020; 0x00100020; 0x80008020;
   0x80000020; 0x00100020; 0x00108000; 0x00000000; 0x80008000; 0x00008020;
   0x80000000; 0x80100020; 0x80108020; 0x00108000].

(* des-internal.c SP3 @128-146 *)
Definition SP3 : list Z :=
  [0x00000208; 0x08020200; 0x00000000; 0x08020008; 0x08000200; 0x00000000;
   0x00020208; 0x08000200; 0x00020008; 0x08000008; 0x08000008; 0x00020000;
   0x08020208; 0x00020008; 0x08020000; 0x00000208; 0x08000000; 0x00000008;
   0x08020200; 0x00000200; 0x00020200; 0x08020000; 0x08020008; 0x00020208;
   0x08000208; 0x00020200; 0x00020000; 0x08000208; 0x00000008; 0x08020208;
   0x00000200; 0x08000000; 0x08020200; 0x08000000; 0x00020008; 0x00000208;
   0x00020000; 0x08020200; 0x08000200; 0x00000000; 0x00000200; 0x00020008;
   0x08020208; 0x08000200; 0x08000008; 0x00000200; 0x00000000; 0x08020008;
   0x08000208; 0x00020000; 0x08000000; 0x08020208; 0x00000008; 0x00020208;
   0x00020200; 0x08000008; 0x08020000; 0x08000208; 0x00000208; 0x08020000;
   0x00020208; 0x00000008; 0x08020008; 0x00020200].

(* des-internal.c SP4 @148-166 *)
Definition SP4 : list Z :=
  [0x00802001; 0x00002081; 0x00002081; 0x00000080; 0x00802080; 0x00800081;
   0x00800001; 0x00002001; 0x00000000; 0x00802000; 0x00802000; 0x00802081;
   0x00000081; 0x00000000; 0x00800080; 0x00800001; 0x00000001; 0x00002000;
   0x00800000; 0x00802001; 0x00000080; 0x00800000; 0x00002001; 0x00002080;
   0x00800081; 0x00000001; 0x00002080; 0x00800080; 0x00002000; 0x00802080;
   0x00802081; 0x00000081; 0x00800080; 0x00800001; 0x00802000; 0x00802081;
   0x00000081; 0x00000000; 0x00000000; 0x00802000; 0x00002080; 0x00800080;
   0x00800081; 0x00000001; 0x00802001; 0x00002081; 0x00002081; 0x00000080;
   0x00802081; 0x00000081; 0x00000001; 0x00002000; 0x00800001; 0x00002001;
   0x00802080; 0x00800081; 0x00002001; 0x00002080; 0x00800000; 0x00802001;
   0x00000080; 0x00800000; 0x00002000; 0x00802080].

(* des-internal.c SP5 @168-186 *)
Definition SP5 : list Z :=
  [0x00000100; 0x02080100; 0x02080000; 0x42000100; 0x00080000; 0x00000100;
   0x40000000; 0x02080000; 0x40080100; 0x00080000; 0x02000100; 0x40080100;
   0x42000100; 0x42080000; 0x00080100; 0x40000000; 0x02000000; 0x40080000;
   0x40080000; 0x00000000; 0x40000100; 0x42080100; 0x42080100; 0x02000100;
   0x42080000; 0x40000100; 0x00000000; 0x42000000; 0x02080100; 0x02000000;
   0x42000000; 0x00080100; 0x00080000; 0x42000100; 0x00000100; 0x02000000;
   0x40000000; 0x02080000; 0x42000100; 0x40080100; 0x02000100; 0x40000000;
   0x42080000; 0x02080100; 0x40080100; 0x00000100; 0x02000000; 0x42080000;
   0x42080100; 0x00080100; 0x42000000; 0x42080100; 0x02080000; 0x00000000;
   0x40080000; 0x42000000; 0x00080100; 0x02000100; 0x40000100; 0x00080000;
   0x00000000; 0x40080000; 0x02080100; 0x40000100].

(* des-internal.c SP6 @188-206 *)
Definition SP6 : list Z :=
  [0x20000010; 0x20400000; 0x00004000; 0x20404010; 0x20400000; 0x00000010;
   0x20404010; 0x00400000; 0x20004000; 0x00404010; 0x00400000; 0x20000010;
   0x00400010; 0x20004000; 0x20000000; 0x00004010; 0x00000000; 0x00400010;
   0x20004010; 0x00004000; 0x00404000; 0x20004010; 0x00000010; 0x20400010;
   0x20400010; 0x00000000; 0x00404010; 0x20404000; 0x00004010; 0x00404000;
   0x20404000; 0x20000000; 0x20004000; 0x00000010; 0x20400010; 0x00404000;
   0x20404010; 0x00400000; 0x00004010; 0x20000010; 0x00400000; 0x20004000;
   0x20000000; 0x00004010; 0x20000010; 0x20404010; 0x00404000; 0x20400000;
   0x00404010; 0x20404000; 0x00000000; 0x20400010; 0x00000010; 0x00004000;
   0x20400000; 0x00404010; 0x00004000; 0x00400010; 0x20004010; 0x00000000;
   0x20404000; 0x20000000; 0x00400010; 0x20004010].

(* des-internal.c SP7 @208-226 *)
Definition SP7 : list Z :=
  [0x00200000; 0x04200002; 0x04000802; 0x00000000; 0x00000800; 0x04000802;
   0x00200802; 0x04200800; 0x04200802; 0x00200000; 0x00000000; 0x04000002;
   0x00000002; 0x04000000; 0x04200002; 0x00000802; 0x04000800; 0x00200802;
   0x00200002; 0x04000800; 0x04000002; 0x04200000; 0x04200800; 0x00200002;
   0x04200000; 0x00000800; 0x00000802; 0x04200802; 0x00200800; 0x00000002;
   0x04000000; 0x00200800; 0x04000000; 0x00200800; 0x00200000; 0x04000802;
   0x04000802; 0x04200002; 0x04200002; 0x00000002; 0x00200002; 0x04000000;
   0x04000800; 0x00200000; 0x04200800; 0x00000802; 0x00200802; 0x04200800;
   0x00000802; 0x04000002; 0x04200802; 0x04200000; 0x00200800; 0x00000000;
   0x00000002; 0x04200802; 0x00000000; 0x00200802; 0x04200000; 0x00000800;
   0x04000002; 0x04000800; 0x00000800; 0x00200002].

(* des-internal.c SP8 @228-246 *)
Definition SP8 : list Z :=
  [0x10001040; 0x00001000; 0x00040000; 0x10041040; 0x10000000; 0x10001040;
   0x00000040; 0x10000000; 0x00040040; 0x10040000; 0x10041040; 0x00041000;
   0x10041000; 0x00041040; 0x00001000; 0x00000040; 0x10040000; 0x10000040;
   0x10001000; 0x00001040; 0x00041000; 0x00040040; 0x10040040; 0x10041000;
   0x00001040; 0x00000000; 0x00000000; 0x10040040; 0x10000040; 0x10001000;
   0x00041040; 0x00040000; 0x00041040; 0x00040000; 0x10041000; 0x00001000;
   0x00000040; 0x10040040; 0x00001000; 0x00041040; 0x10001000; 0x00000040;
   0x10000040; 0x10040000; 0x10040040; 0x10000000; 0x00040000; 0x10001040;
   0x00000000; 0x10041040; 0x00040040; 0x10000040; 0x10040000; 0x10001000;
   0x10001040; 0x00000000; 0x10041040; 0x00041000; 0x00041000; 0x00001040;
   0x00001040; 0x00040040; 0x10000000; 0x10041000].


Definition zget (l : list Z) (i : Z) : Z := nth (Z.to_nat i) l 0.

(** The two words a pair of raw words is arranged into. *)
(* des-internal.c cookey @258-266 *)
Definition cook_pair (raw0 raw1 : Z) : list Z :=
  [u32 (Z.lor (Z.lor (Z.lor (Z.shiftl (Z.land raw0 0x00fc0000) 6) (Z.shiftl (Z.land raw0 0x00000fc0) 10))
                     (Z.shiftr (Z.land raw1 0x00fc0000) 10)) (Z.shiftr (Z.land raw1 0x00000fc0) 6));
   u32 (Z.lor (Z.lor (Z.lor (Z.shiftl (Z.land raw0 0x0003f000) 12) (Z.shiftl (Z.land raw0 0x0000003f) 16))
                     (Z.shiftr (Z.land raw1 0x0003f000) 4)) (Z.land raw1 0x0000003f))].

(* des-internal.c cookey *)
Definition cookey (raw1 : list Z) : list Z :=
  concat ((fun i => cook_pair (nth (2 * i) raw1 0) (nth (2 * i + 1) raw1 0)) <$> seq 0 16).

(** The 56 bits that PC-1 selects, one in each byte of an array. *)
(* des-internal.c deskey @278-283 *)
Definition pc1m (key : bytes) : list Z :=
  (fun l => let m := Z.land l 7 in
            if Z.land (byte_at key (Z.to_nat (Z.shiftr l 3))) (zget bytebit m) =? zget bytebit m then 1 else 0) <$> pc1.

(** The halves rotated for round [i]. *)
(* des-internal.c deskey @292-305 *)
Definition pcr (i : nat) (pc1m : list Z) : list Z :=
  (fun j => let l := Z.of_nat j + nth i totrot 0 in
            if (j <? 28)%nat then (if l <? 28 then zget pc1m l else zget pc1m (l - 28))
            else (if l <? 56 then zget pc1m l else zget pc1m (l - 28))) <$> seq 0 56.

(** The loop over [j] for one of the two words; [off] is 0 or 24. *)
(* des-internal.c deskey @306-311 *)
Definition kn_word (off : nat) (pcr : list Z) : Z :=
  fold_left (fun k j => if negb (zget pcr (nth (j + off) pc2 0) =? 0) then Z.lor k (nth j bigbyte 0) else k) (seq 0 24) 0.

(** Every element of [kn] is assigned. *)
(* des-internal.c deskey *)
Definition deskey (key : bytes) (decrypt : bool) : list Z :=
  let pc1m := pc1m key in
  let kn := fold_left (fun kn i =>
      let m := if decrypt then (2 * (15 - i))%nat else (2 * i)%nat in
      let n := (m + 1)%nat in
      let pcr := pcr i pc1m in
      <[n := kn_word 24 pcr]> (<[m := kn_word 0 pcr]> kn)) (seq 0 16) (replicate 32 0) in
  cookey kn.

(** [work = ((a >> k) ^ b) & m; b ^= work; a ^= (work << k);] *)
(* des-internal.c desfunc @326-328 *)
Definition bit_swap (k m a b : Z) : Z * Z :=
  let work := Z.land (Z.lxor (Z.shiftr a k) b) m in
  (Z.lxor a (u32 (Z.shiftl work k)), Z.lxor b work).

(** Half of the body of the loop over the rounds: the new value of the word [l]. *)
(* des-internal.c desfunc @350-359 *)
Definition des_half (l r k0 k1 : Z) : Z :=
  let work := Z.lxor (RORc r 4) k0 in
  let l := Z.lxor l (Z.lxor (Z.lxor (Z.lxor (zget SP7 (Z.land work 0x3f))
                                            (zget SP5 (Z.land (Z.shiftr work 8) 0x3f)))
                                    (zget SP3 (Z.land (Z.shiftr work 16) 0x3f)))
                            (zget SP1 (Z.land (Z.shiftr work 24) 0x3f))) in
  let work := Z.lxor r k1 in
  Z.lxor l (Z.lxor (Z.lxor (Z.lxor (zget SP8 (Z.land work 0x3f))
                                   (zget SP6 (Z.land (Z.shiftr work 8) 0x3f)))
                           (zget SP4 (Z.land (Z.shiftr work 16) 0x3f)))
                   (zget SP2 (Z.land (Z.shiftr work 24) 0x3f))).

(* des-internal.c desfunc @349-371 *)
Definition des_rounds (keys : list Z) (lr : Z * Z) (cur_round : nat) : Z * Z :=
  let '(leftt, rightt) := lr in
  let key n := nth (4 * cur_round + n) keys 0 in
  let leftt := des_half leftt rightt (key 0%nat) (key 1%nat) in
  let rightt := des_half rightt leftt (key 2%nat) (key 3%nat) in
  (leftt, rightt).

(* des-internal.c desfunc *)
Definition desfunc (block : Z * Z) (keys : list Z) : Z * Z :=
  let '(leftt, rightt) := block in
  let '(leftt, rightt) := bit_swap 4 0x0f0f0f0f leftt rightt in
  let '(leftt, rightt) := bit_swap 16 0x0000ffff leftt rightt in
  let '(rightt, leftt) := bit_swap 2 0x33333333 rightt leftt in
  let '(rightt, leftt) := bit_swap 8 0x00ff00ff rightt leftt in
  let rightt := ROLc rightt 1 in
  let '(leftt, rightt) := bit_swap 0 0xaaaaaaaa leftt rightt in
  let leftt := ROLc leftt 1 in
  let '(leftt, rightt) := fold_left (des_rounds keys) (seq 0 8) (leftt, rightt) in
  let rightt := RORc rightt 1 in
  let '(leftt, rightt) := bit_swap 0 0xaaaaaaaa leftt rightt in
  let leftt := RORc leftt 1 in
  let '(leftt, rightt) := bit_swap 8 0x00ff00ff leftt rightt in
  let '(leftt, rightt) := bit_swap 2 0x33333333 leftt rightt in
  let '(rightt, leftt) := bit_swap 16 0x0000ffff rightt leftt in
  let '(rightt, leftt) := bit_swap 4 0x0f0f0f0f rightt leftt in
  (rightt, leftt).

(** The key of 56 bits with a parity bit, always set, after every seven. *)
(* des-internal.c des_encrypt @405-412 *)
Fixpoint add_parity (i : Z) (next : Z) (key : bytes) : bytes :=
  match key with
  | [] => [Z.lor next 1]
  | tmp :: key => Z.lor (Z.lor (Z.shiftr tmp i) next) 1 :: add_parity (i + 1) (u8 (Z.shiftl tmp (7 - i))) key
  end.

(** What the functions for a block do between reading and writing it. *)
(* des-internal.c des_block_encrypt *)
Definition des_block (keys : list (list Z)) (plain : bytes) : bytes :=
  let work := (get_be32 plain, get_be32 (drop 4 plain)) in
  let work := fold_left desfunc keys work in
  put_be32 work.1 ++ put_be32 work.2.

(** [key] has seven bytes. *)
(* des-internal.c des_encrypt *)
Definition des_encrypt (clear key : bytes) : bytes :=
  des_block [deskey (add_parity 0 0 (take 7 key)) false] clear.

(* des-internal.c des_key_setup *)
Definition des_key_setup (key : bytes) : list Z * list Z := (deskey key false, deskey key true).
(* des-internal.c des_block_encrypt *)
Definition des_block_encrypt (plain : bytes) (ek : list Z) : bytes := des_block [ek] plain.
(* des-internal.c des_block_decrypt *)
Definition des_block_decrypt (crypt : bytes) (dk : list Z) : bytes := des_block [dk] crypt.

(* des_i.h struct des3_key_s *)
Record des3_key_s := Des3Key { ek : list (list Z); dk : list (list Z) }.

(* des-internal.c des3_key_setup *)
Definition des3_key_setup (key : bytes) : des3_key_s :=
  Des3Key [deskey key false; deskey (drop 8 key) true; deskey (drop 16 key) false]
          [deskey (drop 16 key) true; deskey (drop 8 key) false; deskey key true].
(* des-internal.c des3_encrypt *)
Definition des3_encrypt (plain : bytes) (key : des3_key_s) : bytes := des_block (ek key) plain.
(* des-internal.c des3_decrypt *)
Definition des3_decrypt (crypt : bytes) (key : des3_key_s) : bytes := des_block (dk key) crypt.

(** The example of the key 133457799BBCDFF1. *)
Example des_vector :
  des_block_encrypt [0x01; 0x23; 0x45; 0x67; 0x89; 0xab; 0xcd; 0xef]
    (deskey [0x13; 0x34; 0x57; 0x79; 0x9b; 0xbc; 0xdf; 0xf1] false)
  = [0x85; 0xe8; 0x13; 0x54; 0x0f; 0x0a; 0xb4; 0x05].
Proof. vm_compute. reflexivity. Qed.
