(* ===== verification/DesProps.v ===== *)
(** * DES as FIPS 46-3 defines it, and the proof that Des.v computes it

    The cipher of the standard works on lists of bits, the most significant first:
    the tables of the standard, sixteen rounds of the Feistel network and the key
    schedule.  [bits w x] is a word as such a list; the operations of the source on words become
    operations on lists of bits, which are compared with those of the standard on
    lists of variables. *)

From S2P Require Import Prelude Des.

(** ** The standard *)

Definition bits (w : nat) (x : Z) : list bool := (fun i => Z.testbit x (Z.of_nat (w - 1 - i))) <$> seq 0 w.
Definition to_bits (l : bytes) : list bool := concat (bits 8 <$> l).

Definition permute {A} (d : A) (t : list nat) (l : list A) : list A := (fun i => nth (i - 1) l d) <$> t.
Definition rot {A} (s : nat) (l : list A) : list A := drop s l ++ take s l.
Abbreviation xorl := (zip_with xorb).

Definition IP : list nat :=
  [58; 50; 42; 34; 26; 18; 10; 2; 60; 52; 44; 36; 28; 20; 12; 4; 62; 54; 46; 38; 30; 22; 14; 6;
   64; 56; 48; 40; 32; 24; 16; 8; 57; 49; 41; 33; 25; 17; 9; 1; 59; 51; 43; 35; 27; 19; 11; 3;
   61; 53; 45; 37; 29; 21; 13; 5; 63; 55; 47; 39; 31; 23; 15; 7]%nat.
Definition FP : list nat :=
  [40; 8; 48; 16; 56; 24; 64; 32; 39; 7; 47; 15; 55; 23; 63; 31; 38; 6; 46; 14; 54; 22; 62; 30;
   37; 5; 45; 13; 53; 21; 61; 29; 36; 4; 44; 12; 52; 20; 60; 28; 35; 3; 43; 11; 51; 19; 59; 27;
   34; 2; 42; 10; 50; 18; 58; 26; 33; 1; 41; 9; 49; 17; 57; 25]%nat.
Definition E_table : list nat :=
  [32; 1; 2; 3; 4; 5; 4; 5; 6; 7; 8; 9; 8; 9; 10; 11; 12; 13; 12; 13; 14; 15; 16; 17;
   16; 17; 18; 19; 20; 21; 20; 21; 22; 23; 24; 25; 24; 25; 26; 27; 28; 29; 28; 29; 30; 31; 32; 1]%nat.
Definition P_table : list nat :=
  [16; 7; 20; 21; 29; 12; 28; 17; 1; 15; 23; 26; 5; 18; 31; 10;
   2; 8; 24; 14; 32; 27; 3; 9; 19; 13; 30; 6; 22; 11; 4; 25]%nat.
Definition PC1 : list nat :=
  [57; 49; 41; 33; 25; 17; 9; 1; 58; 50; 42; 34; 26; 18; 10; 2; 59; 51; 43; 35; 27; 19; 11; 3;
   60; 52; 44; 36; 63; 55; 47; 39; 31; 23; 15; 7; 62; 54; 46; 38; 30; 22; 14; 6; 61; 53; 45; 37;
   29; 21; 13; 5; 28; 20; 12; 4]%nat.
Definition PC2 : list nat :=
  [14; 17; 11; 24; 1; 5; 3; 28; 15; 6; 21; 10; 23; 19; 12; 4; 26; 8; 16; 7; 27; 20; 13; 2;
   41; 52; 31; 37; 47; 55; 30; 40; 51; 45; 33; 48; 44; 49; 39; 56; 34; 53; 46; 42; 50; 36; 29; 32]%nat.
Definition shifts : list nat := [1; 1; 2; 2; 2; 2; 2; 2; 1; 2; 2; 2; 2; 2; 2; 1]%nat.

(** The eight S-boxes by rows. *)
Definition S_boxes : list (list Z) :=
  [[14; 4; 13; 1; 2; 15; 11; 8; 3; 10; 6; 12; 5; 9; 0; 7; 0; 15; 7; 4; 14; 2; 13; 1; 10; 6; 12; 11; 9; 5; 3; 8;
    4; 1; 14; 8; 13; 6; 2; 11; 15; 12; 9; 7; 3; 10; 5; 0; 15; 12; 8; 2; 4; 9; 1; 7; 5; 11; 3; 14; 10; 0; 6; 13];
   [15; 1; 8; 14; 6; 11; 3; 4; 9; 7; 2; 13; 12; 0; 5; 10; 3; 13; 4; 7; 15; 2; 8; 14; 12; 0; 1; 10; 6; 9; 11; 5;
    0; 14; 7; 11; 10; 4; 13; 1; 5; 8; 12; 6; 9; 3; 2; 15; 13; 8; 10; 1; 3; 15; 4; 2; 11; 6; 7; 12; 0; 5; 14; 9];
   [10; 0; 9; 14; 6; 3; 15; 5; 1; 13; 12; 7; 11; 4; 2; 8; 13; 7; 0; 9; 3; 4; 6; 10; 2; 8; 5; 14; 12; 11; 15; 1;
    13; 6; 4; 9; 8; 15; 3; 0; 11; 1; 2; 12; 5; 10; 14; 7; 1; 10; 13; 0; 6; 9; 8; 7; 4; 15; 14; 3; 11; 5; 2; 12];
   [7; 13; 14; 3; 0; 6; 9; 10; 1; 2; 8; 5; 11; 12; 4; 15; 13; 8; 11; 5; 6; 15; 0; 3; 4; 7; 2; 12; 1; 10; 14; 9;
    10; 6; 9; 0; 12; 11; 7; 13; 15; 1; 3; 14; 5; 2; 8; 4; 3; 15; 0; 6; 10; 1; 13; 8; 9; 4; 5; 11; 12; 7; 2; 14];
   [2; 12; 4; 1; 7; 10; 11; 6; 8; 5; 3; 15; 13; 0; 14; 9; 14; 11; 2; 12; 4; 7; 13; 1; 5; 0; 15; 10; 3; 9; 8; 6;
    4; 2; 1; 11; 10; 13; 7; 8; 15; 9; 12; 5; 6; 3; 0; 14; 11; 8; 12; 7; 1; 14; 2; 13; 6; 15; 0; 9; 10; 4; 5; 3];
   [12; 1; 10; 15; 9; 2; 6; 8; 0; 13; 3; 4; 14; 7; 5; 11; 10; 15; 4; 2; 7; 12; 9; 5; 6; 1; 13; 14; 0; 11; 3; 8;
    9; 14; 15; 5; 2; 8; 12; 3; 7; 0; 4; 10; 1; 13; 11; 6; 4; 3; 2; 12; 9; 5; 15; 10; 11; 14; 1; 7; 6; 0; 8; 13];
   [4; 11; 2; 14; 15; 0; 8; 13; 3; 12; 9; 7; 5; 10; 6; 1; 13; 0; 11; 7; 4; 9; 1; 10; 14; 3; 5; 12; 2; 15; 8; 6;
    1; 4; 11; 13; 12; 3; 7; 14; 10; 15; 6; 8; 0; 5; 9; 2; 6; 11; 13; 8; 1; 4; 10; 7; 9; 5; 0; 15; 14; 2; 3; 12];
   [13; 2; 8; 4; 6; 15; 11; 1; 10; 9; 3; 14; 5; 0; 12; 7; 1; 15; 13; 8; 10; 3; 7; 4; 12; 5; 6; 11; 0; 14; 9; 2;
    7; 11; 4; 1; 9; 12; 14; 2; 0; 6; 10; 13; 15; 3; 5; 8; 2; 1; 14; 7; 4; 10; 8; 13; 15; 12; 9; 0; 3; 5; 6; 11]].

Definition num (l : list bool) : Z := fold_left (fun n b => 2 * n + Z.b2z b) l 0.

(** The outer bits select the row, the others the column. *)
Definition sbox (t : list Z) (b : list bool) : list bool :=
  match b with
  | [b1; b2; b3; b4; b5; b6] => bits 4 (nth (Z.to_nat (16 * num [b1; b6] + num [b2; b3; b4; b5])) t 0)
  | _ => []
  end.

Definition chunk (j : nat) (l : list bool) : list bool := take 6 (drop (6 * j) l).

Definition feistel_f (r k : list bool) : list bool :=
  let x := xorl (permute false E_table r) k in
  permute false P_table (concat ((fun j => sbox (nth j S_boxes []) (chunk j x)) <$> seq 0 8)).

Definition feistel_round (lr : list bool * list bool) (k : list bool) : list bool * list bool :=
  (lr.2, xorl lr.1 (feistel_f lr.2 k)).

Definition des_bits (keys : list (list bool)) (block : list bool) : list bool :=
  let x := permute false IP block in
  let '(l, r) := fold_left feistel_round keys (take 32 x, drop 32 x) in
  permute false FP (r ++ l).

(** The halves of the key, rotated for every round. *)
Fixpoint schedule {A} (s : list nat) (c d : list A) : list (list A) :=
  match s with
  | [] => []
  | n :: s => (rot n c ++ rot n d) :: schedule s (rot n c) (rot n d)
  end.

Definition key_schedule (key : list bool) : list (list bool) :=
  let cd := permute false PC1 key in
  permute false PC2 <$> schedule shifts (take 28 cd) (drop 28 cd).

(** ** Words as lists of bits *)

Lemma length_bits w x : length (bits w x) = w.
Proof. unfold bits. now rewrite length_fmap, length_seq. Qed.

Lemma nth_bits w x i : (i < w)%nat -> nth i (bits w x) false = Z.testbit x (Z.of_nat (w - 1 - i)).
Proof.
  intros H. unfold bits. rewrite (nth_indep _ _ (Z.testbit x (Z.of_nat (w - 1 - 0))))
    by (rewrite length_fmap, length_seq; done).
  change (?f <$> ?l) with (map f l). rewrite (map_nth (fun i => Z.testbit x (Z.of_nat (w - 1 - i)))).
  now rewrite seq_nth.
Qed.

Lemma nth_fmap_seq {A} (f : nat -> A) d n i : (i < n)%nat -> nth i (f <$> seq 0 n) d = f i.
Proof.
  intros H. rewrite (nth_indep _ _ (f 0%nat)) by (rewrite length_fmap, length_seq; done).
  change (f <$> ?l) with (map f l). rewrite (map_nth f). now rewrite seq_nth.
Qed.

(** Comparing a word with a list bit by bit, from the left. *)
Lemma bits_eq w x l : length l = w ->
  (forall i, (i < w)%nat -> Z.testbit x (Z.of_nat (w - 1 - i)) = nth i l false) -> bits w x = l.
Proof.
  intros Hl H. apply (nth_ext _ _ false false); [now rewrite length_bits|].
  intros i Hi. rewrite length_bits in Hi. rewrite nth_bits by done. now apply H.
Qed.

Lemma bits_inj w x y : is_uint (Z.of_nat w) x -> is_uint (Z.of_nat w) y -> bits w x = bits w y -> x = y.
Proof.
  intros Hx Hy E. apply (uint_eq_bits (Z.of_nat w)); try done; [lia|]. intros i Hi.
  assert (nth (w - 1 - Z.to_nat i) (bits w x) false = nth (w - 1 - Z.to_nat i) (bits w y) false) as H by now rewrite E.
  rewrite !nth_bits in H by lia. now replace (Z.of_nat (w - 1 - (w - 1 - Z.to_nat i))) with i in H by lia.
Qed.

Lemma nth_zip_with (f : bool -> bool -> bool) l k i : (i < length l)%nat -> (i < length k)%nat ->
  nth i (zip_with f l k) false = f (nth i l false) (nth i k false).
Proof.
  revert k i. induction l as [|x l IH]; intros [|y k] [|i] Hl Hk; simpl in *; try lia; [done|]. apply IH; lia.
Qed.

Lemma bits_lxor w x y : bits w (Z.lxor x y) = xorl (bits w x) (bits w y).
Proof.
  apply bits_eq; [rewrite length_zip_with, !length_bits; lia|]. intros i Hi.
  rewrite nth_zip_with, !nth_bits, Z.lxor_spec by (rewrite ?length_bits; lia). done.
Qed.

Lemma land_ffffffff x i : 0 <= i < 32 -> Z.testbit (Z.land x 0xFFFFFFFF) i = Z.testbit x i.
Proof.
  intros. rewrite Z.land_spec. change 0xFFFFFFFF with (Z.ones 32). rewrite Z.ones_spec_low by lia. apply andb_true_r.
Qed.

Lemma land_ffffffff_high x i : 32 <= i -> Z.testbit (Z.land x 0xFFFFFFFF) i = false.
Proof.
  intros. rewrite Z.land_spec. change 0xFFFFFFFF with (Z.ones 32). rewrite Z.ones_spec_high by lia. apply andb_false_r.
Qed.

Lemma nth_rot {A} (d : A) s l i : (s <= length l)%nat -> (i < length l)%nat ->
  nth i (rot s l) d = nth (if (i + s <? length l)%nat then i + s else i + s - length l)%nat l d.
Proof.
  intros Hs Hi. unfold rot. destruct (Nat.ltb_spec (i + s) (length l)).
  - rewrite app_nth1 by (rewrite length_drop; lia). rewrite nth_skipn. f_equal. lia.
  - rewrite app_nth2 by (rewrite length_drop; lia). rewrite length_drop, nth_firstn.
    rewrite (proj2 (Nat.ltb_lt _ _)) by lia. f_equal. lia.
Qed.

Lemma length_rot {A} s (l : list A) : length (rot s l) = length l.
Proof. unfold rot. rewrite length_app, length_drop, length_take. lia. Qed.

Lemma bits_RORc x y : is_uint 32 x -> 0 < y < 32 -> bits 32 (RORc x y) = rot (Z.to_nat (32 - y)) (bits 32 x).
Proof.
  intros Hx Hy. apply bits_eq; [now rewrite length_rot, length_bits|]. intros i Hi.
  rewrite nth_rot, length_bits by (rewrite length_bits; lia).
  rewrite nth_bits by (destruct (Nat.ltb_spec (i + Z.to_nat (32 - y)) 32); lia).
  unfold RORc. replace (Z.land y 31) with y by (change 31 with (Z.ones 5); rewrite Z.land_ones, Z.mod_small; lia).
  rewrite land_ffffffff, Z.lor_spec, Z.shiftr_spec by lia.
  destruct (Nat.ltb_spec (i + Z.to_nat (32 - y)) 32).
  - rewrite land_ffffffff_high, orb_false_l, Z.shiftl_spec by lia. f_equal. lia.
  - rewrite land_ffffffff, Z.shiftl_spec, (Z.testbit_neg_r x (_ - _)), orb_false_r by lia. f_equal. lia.
Qed.

Lemma bits_ROLc x y : is_uint 32 x -> 0 < y < 32 -> bits 32 (ROLc x y) = rot (Z.to_nat y) (bits 32 x).
Proof.
  intros Hx Hy. pose proof (bits_RORc x (32 - y) Hx ltac:(lia)) as E.
  replace (32 - (32 - y)) with y in E by lia. rewrite <- E. f_equal. unfold ROLc, RORc.
  assert (forall z, 0 < z < 32 -> Z.land z 31 = z) as H31.
  { intros z Hz. change 31 with (Z.ones 5). rewrite Z.land_ones, Z.mod_small; lia. }
  rewrite !H31 by lia. replace (32 - (32 - y)) with y by lia. now rewrite Z.lor_comm.
Qed.

(** A swap of bits between two words. *)
Definition swap_bits (k : nat) (m : Z) (a b : list bool) : list bool * list bool :=
  ((fun i => if Z.testbit m (31 - Z.of_nat i - Z.of_nat k) then nth (i + k) b false else nth i a false) <$> seq 0 32,
   (fun i => if Z.testbit m (31 - Z.of_nat i) then nth (i - k) a false else nth i b false) <$> seq 0 32).

Lemma bits_bit_swap k m a b : is_uint 32 a -> is_uint 32 b -> (k < 32)%nat -> is_uint (32 - Z.of_nat k) m ->
  let '(a', b') := bit_swap (Z.of_nat k) m a b in
  (bits 32 a', bits 32 b') = swap_bits k m (bits 32 a) (bits 32 b) /\ is_uint 32 a' /\ is_uint 32 b'.
Proof.
  intros Ha Hb Hk Hm. unfold bit_swap. split; [|split].
  - unfold swap_bits. apply pair_equal_spec. split; apply bits_eq;
      try (now rewrite length_fmap, length_seq); intros i Hi; rewrite nth_fmap_seq by done.
    + rewrite Z.lxor_spec. unfold wrap. rewrite Z.mod_pow2_bits_low by lia.
      rewrite Z.shiftl_spec by lia. replace (Z.of_nat (32 - 1 - i) - Z.of_nat k) with (31 - Z.of_nat i - Z.of_nat k) by lia.
      rewrite (nth_bits 32 a) by done.
      destruct (Z.lt_ge_cases (31 - Z.of_nat i - Z.of_nat k) 0).
      { rewrite !(Z.testbit_neg_r _ (31 - _ - _)) by lia. apply xorb_false_r. }
      rewrite nth_bits, Z.land_spec, Z.lxor_spec, Z.shiftr_spec by lia.
      replace (31 - Z.of_nat i - Z.of_nat k + Z.of_nat k) with (Z.of_nat (32 - 1 - i)) by lia.
      replace (Z.of_nat (32 - 1 - (i + k))) with (31 - Z.of_nat i - Z.of_nat k) by lia.
      destruct (Z.testbit m _); [rewrite andb_true_r | rewrite andb_false_r, xorb_false_r; done].
      now rewrite <- xorb_assoc, xorb_nilpotent, xorb_false_l.
    + rewrite Z.lxor_spec, Z.land_spec, Z.lxor_spec, Z.shiftr_spec by lia.
      replace (Z.of_nat (32 - 1 - i)) with (31 - Z.of_nat i) by lia. rewrite (nth_bits 32 b) by done.
      replace (Z.of_nat (32 - 1 - i)) with (31 - Z.of_nat i) by lia.
      destruct (Z.testbit m (31 - Z.of_nat i)) eqn:Em; [|now rewrite andb_false_r, xorb_false_r].
      assert (31 - Z.of_nat i < 32 - Z.of_nat k).
      { destruct (Z.lt_ge_cases (31 - Z.of_nat i) (32 - Z.of_nat k)); [done|].
        rewrite (testbit_uint_high (32 - Z.of_nat k) m) in Em; [discriminate | done | lia]. }
      rewrite nth_bits by lia. rewrite andb_true_r.
      replace (Z.of_nat (32 - 1 - (i - k))) with (31 - Z.of_nat i + Z.of_nat k) by lia.
      rewrite (xorb_comm _ (Z.testbit b _)), <- xorb_assoc, xorb_nilpotent. apply xorb_false_l.
  - apply is_uint_lxor; [lia | done | apply wrap_range; lia].
  - apply is_uint_lxor; [lia | done |]. apply is_uint_land_l; [lia|]. apply is_uint_lxor; [lia| |done].
    apply is_uint_shiftr; [lia | done].
Qed.

(** ** The permutations at both ends *)

Definition is_word (x : Z) (l : list bool) : Prop := is_uint 32 x /\ bits 32 x = l.
#[export] Instance is_word_dec x l : Decision (is_word x l).
Proof. unfold is_word. apply _. Defined.

Lemma is_word_length x l : is_word x l -> length l = 32%nat.
Proof. intros [_ <-]. apply length_bits. Qed.

Lemma is_word_swap k m a b A B a' b' :
  is_word a A -> is_word b B -> (k < 32)%nat -> is_uint (32 - Z.of_nat k) m ->
  bit_swap (Z.of_nat k) m a b = (a', b') ->
  is_word a' (swap_bits k m A B).1 /\ is_word b' (swap_bits k m A B).2.
Proof.
  intros [Ha <-] [Hb <-] Hk Hm E. pose proof (bits_bit_swap k m a b Ha Hb Hk Hm) as H. rewrite E in H.
  destruct H as (E' & Ha' & Hb'). now rewrite <- E'.
Qed.

Lemma is_word_ROLc x l : is_word x l -> is_word (ROLc x 1) (rot 1 l).
Proof.
  intros [Hx <-]. split; [|now apply (bits_ROLc x 1)]. unfold ROLc. rewrite Z.land_comm. now apply is_uint_land_l.
Qed.

Lemma is_word_RORc x l : is_word x l -> is_word (RORc x 1) (rot 31 l).
Proof.
  intros [Hx <-]. split; [|now apply (bits_RORc x 1)]. unfold RORc. rewrite Z.land_comm. now apply is_uint_land_l.
Qed.

(** desfunc() in front of the rounds and behind them, on words and on lists of bits. *)
Definition des_in (block : Z * Z) : Z * Z :=
  let '(l, r) := bit_swap 4 0x0f0f0f0f block.1 block.2 in
  let '(l, r) := bit_swap 16 0x0000ffff l r in
  let '(r, l) := bit_swap 2 0x33333333 r l in
  let '(r, l) := bit_swap 8 0x00ff00ff r l in
  let '(l, r) := bit_swap 0 0xaaaaaaaa l (ROLc r 1) in
  (ROLc l 1, r).

Definition des_out (lr : Z * Z) : Z * Z :=
  let '(l, r) := bit_swap 0 0xaaaaaaaa lr.1 (RORc lr.2 1) in
  let '(l, r) := bit_swap 8 0x00ff00ff (RORc l 1) r in
  let '(l, r) := bit_swap 2 0x33333333 l r in
  let '(r, l) := bit_swap 16 0x0000ffff r l in
  bit_swap 4 0x0f0f0f0f r l.

Definition in_bits (A B : list bool) : list bool * list bool :=
  let '(l, r) := swap_bits 4 0x0f0f0f0f A B in
  let '(l, r) := swap_bits 16 0x0000ffff l r in
  let '(r, l) := swap_bits 2 0x33333333 r l in
  let '(r, l) := swap_bits 8 0x00ff00ff r l in
  let '(l, r) := swap_bits 0 0xaaaaaaaa l (rot 1 r) in
  (rot 1 l, r).

Definition out_bits (L R : list bool) : list bool * list bool :=
  let '(l, r) := swap_bits 0 0xaaaaaaaa L (rot 31 R) in
  let '(l, r) := swap_bits 8 0x00ff00ff (rot 31 l) r in
  let '(l, r) := swap_bits 2 0x33333333 l r in
  let '(r, l) := swap_bits 16 0x0000ffff r l in
  swap_bits 4 0x0f0f0f0f r l.

Lemma desfunc_parts block keys :
  desfunc block keys = des_out (fold_left (des_rounds keys) (seq 0 8) (des_in block)).
Proof.
  destruct block as [a b]. unfold desfunc, des_in. cbn [fst snd].
  destruct (bit_swap 4 _ a b) as [l1 r1]. destruct (bit_swap 16 _ l1 r1) as [l2 r2].
  destruct (bit_swap 2 _ r2 l2) as [r3 l3]. destruct (bit_swap 8 _ r3 l3) as [r4 l4].
  destruct (bit_swap 0 _ l4 _) as [l5 r5]. destruct (fold_left _ _ _) as [l6 r6].
  unfold des_out. cbn [fst snd]. destruct (bit_swap 0 _ l6 _) as [l7 r7]. destruct (bit_swap 8 _ _ r7) as [l8 r8].
  destruct (bit_swap 2 _ l8 r8) as [l9 r9]. destruct (bit_swap 16 _ r9 l9) as [ra la].
  now destruct (bit_swap 4 _ ra la).
Qed.

(** One swap of words and the same swap of lists. *)
Ltac next_swap k :=
  match goal with
  | Ha : is_word ?a ?A, Hb : is_word ?b ?B |- context [bit_swap ?k' ?m ?a ?b] =>
      let E := fresh "E" in
      destruct (bit_swap k' m a b) as [? ?] eqn:E;
      pose proof (is_word_swap k m a b A B _ _ Ha Hb ltac:(lia) ltac:(unfold is_uint; lia) E) as [? ?];
      clear E Ha Hb; destruct (swap_bits k m A B) as [? ?]; cbn [fst snd] in *
  end.

Lemma is_word_in a b A B : is_word a A -> is_word b B ->
  is_word (des_in (a, b)).1 (in_bits A B).1 /\ is_word (des_in (a, b)).2 (in_bits A B).2.
Proof.
  intros Ha Hb. unfold des_in, in_bits. cbn [fst snd].
  next_swap 4%nat. next_swap 16%nat. next_swap 2%nat. next_swap 8%nat.
  match goal with H : is_word ?r ?R |- context [ROLc ?r 1] => apply is_word_ROLc in H end.
  next_swap 0%nat. split; [now apply is_word_ROLc | done].
Qed.

Lemma is_word_out l r L R : is_word l L -> is_word r R ->
  is_word (des_out (l, r)).1 (out_bits L R).1 /\ is_word (des_out (l, r)).2 (out_bits L R).2.
Proof.
  intros Hl Hr. unfold des_out, out_bits. cbn [fst snd]. apply is_word_RORc in Hr.
  next_swap 0%nat.
  match goal with H : is_word ?r ?R |- context [RORc ?r 1] => apply is_word_RORc in H end.
  next_swap 8%nat. next_swap 2%nat. next_swap 16%nat. next_swap 4%nat. now split.
Qed.

(** A list of known length as a list of variables. *)
Ltac list_of_variables l :=
  repeat (destruct l as [|? l]; [discriminate|]); destruct l as [|? ?]; [|discriminate].

Lemma in_bits_IP A B : length A = 32%nat -> length B = 32%nat ->
  let x := permute false IP (A ++ B) in in_bits A B = (rot 1 (take 32 x), rot 1 (drop 32 x)).
Proof. intros HA HB. list_of_variables A. list_of_variables B. vm_compute. reflexivity. Qed.

Lemma out_bits_FP L R : length L = 32%nat -> length R = 32%nat ->
  (out_bits (rot 1 L) (rot 1 R)).1 ++ (out_bits (rot 1 L) (rot 1 R)).2 = permute false FP (R ++ L).
Proof. intros HL HR. list_of_variables L. list_of_variables R. vm_compute. reflexivity. Qed.

(** ** The rounds *)

Definition words64 : list Z := Z.of_nat <$> seq 0 64.

(** Where the output of an S-box goes before the permutation P. *)
Definition placed (j : nat) (s : list bool) : list bool := replicate (4 * j) false ++ s ++ replicate (28 - 4 * j) false.

Definition SP_table (j : nat) : list Z := nth j [SP1; SP2; SP3; SP4; SP5; SP6; SP7; SP8] [].

(** The tables of the source hold an S-box, the permutation P and a rotation. *)
Lemma SP_tables :
  forallb (fun j => forallb (fun x =>
    bool_decide (is_word (zget (SP_table j) x)
                   (rot 1 (permute false P_table (placed j (sbox (nth j S_boxes []) (bits 6 x))))))) words64)
    (seq 0 8) = true.
Proof. vm_compute. reflexivity. Qed.

Lemma SP_word j x : (j < 8)%nat -> 0 <= x < 64 ->
  is_word (zget (SP_table j) x) (rot 1 (permute false P_table (placed j (sbox (nth j S_boxes []) (bits 6 x))))).
Proof.
  intros Hj Hx. pose proof SP_tables as H. rewrite forallb_forall in H.
  specialize (H j ltac:(apply in_seq; lia)). rewrite forallb_forall in H.
  specialize (H x). apply (proj1 (bool_decide_eq_true _)), H. unfold words64. apply list_elem_of_In, list_elem_of_fmap.
  exists (Z.to_nat x). split; [lia|]. apply elem_of_seq. lia.
Qed.

Lemma xorl_take n l k : take n (xorl l k) = xorl (take n l) (take n k).
Proof. revert l k. induction n as [|n IH]; intros [|x l] [|y k]; cbn; try done. now rewrite IH. Qed.

Lemma xorl_drop n l k : length l = length k -> drop n (xorl l k) = xorl (drop n l) (drop n k).
Proof. revert l k. induction n as [|n IH]; intros [|x l] [|y k] H; cbn in *; try done. apply IH. lia. Qed.

Lemma is_word_lxor x y l k : is_word x l -> is_word y k -> is_word (Z.lxor x y) (xorl l k).
Proof. intros [Hx <-] [Hy <-]. split; [now apply is_uint_lxor | apply bits_lxor]. Qed.

(** Six bits of a word. *)
Lemma bits_group x s : (s <= 26)%nat -> 0 <= x ->
  bits 6 (Z.land (Z.shiftr x (Z.of_nat s)) 0x3f) = take 6 (drop (26 - s) (bits 32 x)).
Proof.
  intros Hs Hx. apply bits_eq; [rewrite length_take, length_drop, length_bits; lia|]. intros i Hi.
  rewrite nth_firstn, (proj2 (Nat.ltb_lt _ _)), nth_skipn, nth_bits by lia.
  rewrite Z.land_spec, Z.shiftr_spec by lia. change 0x3f with (Z.ones 6).
  rewrite Z.ones_spec_low, andb_true_r by lia. f_equal. lia.
Qed.

Lemma group_range x s : 0 <= Z.land (Z.shiftr x s) 0x3f < 64.
Proof. change 0x3f with (Z.ones 6). rewrite Z.land_ones by lia. apply Z.mod_pos_bound. lia. Qed.

(** The two words of a round key hold its odd and its even groups of six bits. *)
Record key_words (k0 k1 : Z) (K : list bool) : Prop := {
  kw_uint : is_uint 32 k0 /\ is_uint 32 k1;
  kw_length : length K = 48%nat;
  kw_k0 : Forall (fun j => take 6 (drop (2 + 8 * j) (bits 32 k0)) = chunk (2 * j) K) [0; 1; 2; 3]%nat;
  kw_k1 : Forall (fun j => take 6 (drop (2 + 8 * j) (bits 32 k1)) = chunk (2 * j + 1) K) [0; 1; 2; 3]%nat
}.

(** The groups of the expansion E, in a rotated word. *)
Lemma E_groups R : length R = 32%nat ->
  Forall (fun j => take 6 (drop (2 + 8 * j) (rot 28 (rot 1 R))) = chunk (2 * j) (permute false E_table R)
                   /\ take 6 (drop (2 + 8 * j) (rot 1 R)) = chunk (2 * j + 1) (permute false E_table R)) [0; 1; 2; 3]%nat.
Proof. intros HR. list_of_variables R. repeat constructor. Qed.

Lemma sbox_length t b : length b = 6%nat -> length (sbox t b) = 4%nat.
Proof. intros Hb. list_of_variables b. apply length_bits. Qed.

Lemma bits_RORc4 r R : is_word r (rot 1 R) -> bits 32 (RORc r 4) = rot 28 (rot 1 R).
Proof. intros [Hr <-]. now apply (bits_RORc r 4). Qed.

Lemma RORc_uint x y : is_uint 32 (RORc x y).
Proof. unfold RORc. rewrite Z.land_comm. now apply is_uint_land_l. Qed.

(** An index into a table is a group of the expansion with the group of the key added. *)
Lemma index_group w (W k : list bool) kw R K j i :
  bits 32 w = W -> is_uint 32 w -> is_uint 32 kw -> (j < 4)%nat ->
  take 6 (drop (2 + 8 * j) W) = chunk i (permute false E_table R) ->
  take 6 (drop (2 + 8 * j) (bits 32 kw)) = chunk i K ->
  length (permute false E_table R) = length K ->
  bits 6 (Z.land (Z.shiftr (Z.lxor w kw) (Z.of_nat (24 - 8 * j))) 0x3f) = chunk i (xorl (permute false E_table R) K).
Proof.
  intros EW Hw Hk Hj E1 E2 HL. rewrite bits_group by (lia || apply Z.lxor_nonneg; unfold is_uint in *; lia).
  replace (26 - (24 - 8 * j))%nat with (2 + 8 * j)%nat by lia. rewrite bits_lxor, EW.
  rewrite xorl_drop by (now rewrite <- EW, !length_bits). rewrite xorl_take, E1, E2.
  unfold chunk. now rewrite xorl_drop, xorl_take.
Qed.

(** What eight tables contribute is the function f. *)
Lemma contributions (L : list bool) (s : nat -> list bool) :
  length L = 32%nat -> (forall j, (j < 8)%nat -> length (s j) = 4%nat) ->
  let c j := rot 1 (permute false P_table (placed j (s j))) in
  xorl (xorl (rot 1 L) (xorl (xorl (xorl (c 6%nat) (c 4%nat)) (c 2%nat)) (c 0%nat)))
       (xorl (xorl (xorl (c 7%nat) (c 5%nat)) (c 3%nat)) (c 1%nat))
  = rot 1 (xorl L (permute false P_table (concat (s <$> seq 0 8)))).
Proof.
  intros HL Hs. cbn [seq fmap list_fmap].
  pose proof (Hs 0%nat ltac:(lia)) as H0. pose proof (Hs 1%nat ltac:(lia)) as H1.
  pose proof (Hs 2%nat ltac:(lia)) as H2. pose proof (Hs 3%nat ltac:(lia)) as H3.
  pose proof (Hs 4%nat ltac:(lia)) as H4. pose proof (Hs 5%nat ltac:(lia)) as H5.
  pose proof (Hs 6%nat ltac:(lia)) as H6. pose proof (Hs 7%nat ltac:(lia)) as H7. clear Hs.
  cbn beta zeta. generalize dependent (s 7%nat). generalize dependent (s 6%nat). generalize dependent (s 5%nat).
  generalize dependent (s 4%nat). generalize dependent (s 3%nat). generalize dependent (s 2%nat).
  generalize dependent (s 1%nat). generalize dependent (s 0%nat).
  intros s0 H0 s1 H1 s2 H2 s3 H3 s4 H4 s5 H5 s6 H6 s7 H7. clear s.
  list_of_variables s0. list_of_variables s1. list_of_variables s2. list_of_variables s3.
  list_of_variables s4. list_of_variables s5. list_of_variables s6. list_of_variables s7.
  list_of_variables L. clear.
  cbv -[xorb]. rewrite ?xorb_false_l, ?xorb_false_r. reflexivity.
Qed.

Lemma length_E R : length (permute false E_table R) = 48%nat.
Proof. reflexivity. Qed.

Lemma des_half_word l r k0 k1 L R K :
  is_word l (rot 1 L) -> is_word r (rot 1 R) -> length L = 32%nat -> length R = 32%nat -> key_words k0 k1 K ->
  is_word (des_half l r k0 k1) (rot 1 (xorl L (feistel_f R K))).
Proof.
  intros Hl Hr HL HR [[U0 U1] HK K0 K1]. pose proof (E_groups R HR) as HE.
  rewrite Forall_forall in HE, K0, K1.
  set (x := xorl (permute false E_table R) K).
  assert (forall j, (j < 4)%nat -> In j [0; 1; 2; 3]%nat) as Hin by (intros j Hj; simpl; lia).
  assert (forall j, (j < 4)%nat ->
    is_word (zget (SP_table (2 * j)) (Z.land (Z.shiftr (Z.lxor (RORc r 4) k0) (Z.of_nat (24 - 8 * j))) 0x3f))
      (rot 1 (permute false P_table (placed (2 * j) (sbox (nth (2 * j) S_boxes []) (chunk (2 * j) x)))))) as H0.
  { intros j Hj. specialize (HE j (proj2 (list_elem_of_In _ _) (Hin j Hj))).
    specialize (K0 j (proj2 (list_elem_of_In _ _) (Hin j Hj))). unfold x.
    rewrite <- (index_group (RORc r 4) _ [] k0 R K j (2 * j) (bits_RORc4 r R Hr)
      (RORc_uint r 4) U0 Hj (proj1 HE) K0 ltac:(now rewrite length_E)).
    apply SP_word; [lia | apply group_range]. }
  assert (forall j, (j < 4)%nat ->
    is_word (zget (SP_table (2 * j + 1)) (Z.land (Z.shiftr (Z.lxor r k1) (Z.of_nat (24 - 8 * j))) 0x3f))
      (rot 1 (permute false P_table (placed (2 * j + 1) (sbox (nth (2 * j + 1) S_boxes []) (chunk (2 * j + 1) x)))))) as H1.
  { intros j Hj. specialize (HE j (proj2 (list_elem_of_In _ _) (Hin j Hj))).
    specialize (K1 j (proj2 (list_elem_of_In _ _) (Hin j Hj))). unfold x.
    rewrite <- (index_group r _ [] k1 R K j (2 * j + 1) (proj2 Hr) (proj1 Hr) U1 Hj (proj2 HE) K1
      ltac:(now rewrite length_E)).
    apply SP_word; [lia | apply group_range]. }
  unfold feistel_f. fold x.
  rewrite <- (contributions L (fun j => sbox (nth j S_boxes []) (chunk j x)) HL).
  2: { intros j Hj. apply sbox_length. unfold chunk. rewrite length_take, length_drop.
       unfold x. rewrite length_zip_with, length_E, HK. lia. }
  unfold des_half.
  pose proof (H0 0%nat ltac:(lia)). pose proof (H0 1%nat ltac:(lia)). pose proof (H0 2%nat ltac:(lia)).
  pose proof (H0 3%nat ltac:(lia)). pose proof (H1 0%nat ltac:(lia)). pose proof (H1 1%nat ltac:(lia)).
  pose proof (H1 2%nat ltac:(lia)). pose proof (H1 3%nat ltac:(lia)).
  repeat apply is_word_lxor; assumption.
Qed.

Definition round_words (keys : list Z) (Ks : list (list bool)) : Prop :=
  length Ks = 16%nat
  /\ forall i, (i < 16)%nat -> key_words (nth (2 * i) keys 0) (nth (2 * i + 1) keys 0) (nth i Ks []).

Definition halves (lr : Z * Z) (LR : list bool * list bool) : Prop :=
  is_word lr.1 (rot 1 LR.1) /\ is_word lr.2 (rot 1 LR.2) /\ length LR.1 = 32%nat /\ length LR.2 = 32%nat.

Lemma length_feistel_f R K : length (feistel_f R K) = 32%nat.
Proof. reflexivity. Qed.

Lemma take_two {A} (d : A) n l : (n + 2 <= length l)%nat -> take (n + 2) l = take n l ++ [nth n l d; nth (n + 1) l d].
Proof.
  intros H. rewrite <- take_take_drop. f_equal.
  rewrite <- (Nat.add_0_r n) at 2. rewrite <- !nth_skipn. set (k := drop n l).
  assert (length k = length l - n)%nat by (unfold k; now rewrite length_drop).
  destruct k as [|a [|b k]]; simpl in *; try lia. done.
Qed.

Lemma des_rounds_halves keys Ks lr LR n : round_words keys Ks -> (n < 8)%nat -> halves lr LR ->
  halves (des_rounds keys lr n) (feistel_round (feistel_round LR (nth (2 * n) Ks [])) (nth (2 * n + 1) Ks [])).
Proof.
  intros [HL HK] Hn (Hl & Hr & LL & LR'). destruct lr as [l r], LR as [L R]. cbn [fst snd] in *.
  pose proof (HK (2 * n)%nat ltac:(lia)) as K1. pose proof (HK (2 * n + 1)%nat ltac:(lia)) as K2.
  replace (2 * (2 * n))%nat with (4 * n + 0)%nat in K1 by lia.
  replace (4 * n + 0 + 1)%nat with (4 * n + 1)%nat in K1 by lia.
  replace (2 * (2 * n + 1))%nat with (4 * n + 2)%nat in K2 by lia.
  replace (4 * n + 2 + 1)%nat with (4 * n + 3)%nat in K2 by lia.
  pose proof (des_half_word _ _ _ _ _ _ _ Hl Hr LL LR' K1) as Hl'.
  assert (length (xorl L (feistel_f R (nth (2 * n) Ks []))) = 32%nat) as LL'
    by (rewrite length_zip_with, length_feistel_f; lia).
  pose proof (des_half_word _ _ _ _ _ _ _ Hr Hl' LR' LL' K2) as Hr'.
  unfold des_rounds, feistel_round. cbn [fst snd].
  split; [exact Hl' | split; [exact Hr' | split; [exact LL' |]]]. cbn [snd]. rewrite length_zip_with, length_feistel_f. lia.
Qed.

Lemma des_rounds_fold keys Ks lr LR n : round_words keys Ks -> (n <= 8)%nat -> halves lr LR ->
  halves (fold_left (des_rounds keys) (seq 0 n) lr) (fold_left feistel_round (take (2 * n) Ks) LR).
Proof.
  intros HK Hn H. induction n as [|n IH]; [exact H|].
  rewrite seq_S, fold_left_app. replace (2 * S n)%nat with (2 * n + 2)%nat by lia.
  rewrite (take_two []) by (destruct HK; lia). rewrite fold_left_app. cbn [fold_left].
  apply des_rounds_halves; [done | lia |]. apply IH. lia.
Qed.

Lemma length_permute {A} (d : A) t l : length (permute d t l) = length t.
Proof. unfold permute. apply length_fmap. Qed.

(** desfunc() is the cipher of the standard on the round keys in its array. *)
Lemma desfunc_bits a b A B keys Ks : is_word a A -> is_word b B -> round_words keys Ks ->
  exists C D, is_word (desfunc (a, b) keys).1 C /\ is_word (desfunc (a, b) keys).2 D
              /\ C ++ D = des_bits Ks (A ++ B).
Proof.
  intros Ha Hb HK. pose proof (is_word_length _ _ Ha) as LA. pose proof (is_word_length _ _ Hb) as LB.
  destruct (is_word_in a b A B Ha Hb) as [Hl Hr]. rewrite (in_bits_IP A B LA LB) in Hl, Hr. cbn [fst snd] in Hl, Hr.
  rewrite desfunc_parts. unfold des_bits. set (x := permute false IP (A ++ B)) in *.
  pose proof (des_rounds_fold keys Ks (des_in (a, b)) (take 32 x, drop 32 x) 8 HK ltac:(lia)) as H.
  destruct H as (Hl' & Hr' & L32 & R32).
  { split; [exact Hl | split; [exact Hr |]]. unfold x. cbn [fst snd].
    rewrite length_take, length_drop, length_permute. done. }
  rewrite take_ge in Hl', Hr', L32, R32 by (destruct HK; lia).
  destruct (fold_left (des_rounds keys) (seq 0 8) _) as [l r]. destruct (fold_left feistel_round Ks _) as [L R].
  cbn [fst snd] in *. destruct (is_word_out l r _ _ Hl' Hr') as [HC HD].
  eexists _, _. split; [exact HC | split; [exact HD |]]. now apply out_bits_FP.
Qed.

(** ** Blocks and keys of bytes *)

Lemma to_bits_app l k : to_bits (l ++ k) = to_bits l ++ to_bits k.
Proof. unfold to_bits. now rewrite fmap_app, concat_app. Qed.

Lemma length_to_bits l : length (to_bits l) = (8 * length l)%nat.
Proof. induction l as [|x l IH]; [done|]. change (x :: l) with ([x] ++ l). rewrite to_bits_app, !length_app, IH.
  cbn [to_bits fmap list_fmap concat app]. rewrite app_nil_r, length_bits. simpl. lia. Qed.

Lemma bits_u8_div w k : (0 <= k) -> bits 8 (u8 (w / 2 ^ k)) = (fun i => Z.testbit w (k + Z.of_nat (7 - i))) <$> seq 0 8.
Proof.
  intros Hk. apply bits_eq; [done|]. intros i Hi. rewrite nth_fmap_seq by done. unfold wrap.
  rewrite Z.mod_pow2_bits_low, Z.div_pow2_bits by lia. f_equal. lia.
Qed.

Lemma to_bits_put_be32 w : to_bits (put_be32 w) = bits 32 w.
Proof.
  change (put_be32 w) with [u8 (w / 2 ^ 24); u8 (w / 2 ^ 16); u8 (w / 2 ^ 8); u8 w].
  unfold to_bits. cbn [fmap list_fmap concat].
  rewrite (bits_u8_div w 24), (bits_u8_div w 16), (bits_u8_div w 8) by lia.
  pose proof (bits_u8_div w 0 ltac:(lia)) as E. rewrite Z.div_1_r in E. rewrite E, app_nil_r. reflexivity.
Qed.

Lemma put_get_be32 a b c d : is_byte a -> is_byte b -> is_byte c -> is_byte d ->
  is_uint 32 (get_be32 [a; b; c; d]) /\ put_be32 (get_be32 [a; b; c; d]) = [a; b; c; d].
Proof.
  unfold is_uint, get_be32, get_be16, put_be32, byte_at, wrap. cbn [drop nth]. intros Ha Hb Hc Hd.
  change (2 ^ 8) with 256 in *. split; [lia|]. f_equal; [|f_equal; [|f_equal; [|f_equal]]]; Z.div_mod_to_equations; lia.
Qed.

Lemma is_word_get_be32 l : length l = 4%nat -> bytes_ok l -> is_word (get_be32 l) (to_bits l).
Proof.
  intros Hl Hb. destruct l as [|a [|b [|c [|d [|]]]]]; try discriminate.
  inversion Hb as [|? ? Ha Hb1]; subst. inversion Hb1 as [|? ? Hb' Hb2]; subst.
  inversion Hb2 as [|? ? Hc Hb3]; subst. inversion Hb3 as [|? ? Hd _]; subst.
  destruct (put_get_be32 a b c d Ha Hb' Hc Hd) as [Hu E]. split; [exact Hu|]. now rewrite <- to_bits_put_be32, E.
Qed.

Lemma get_be32_take l : get_be32 (take 4 l) = get_be32 l.
Proof. destruct l as [|? [|? [|? [|? ?]]]]; reflexivity. Qed.

#[local] Opaque desfunc des_bits.

(** Several ciphers on one block, as in 3DES, for any function that does what desfunc() does. *)
Lemma fold_cipher_bits (f : Z * Z -> list Z -> Z * Z) (g : list bool -> list (list bool) -> list bool) :
  (forall a b A B k Ks, is_word a A -> is_word b B -> round_words k Ks ->
     exists C D, is_word (f (a, b) k).1 C /\ is_word (f (a, b) k).2 D /\ C ++ D = g (A ++ B) Ks) ->
  forall keys Kss, Forall2 round_words keys Kss ->
  forall a b A B, is_word a A -> is_word b B ->
  exists C D, is_word (fold_left f keys (a, b)).1 C /\ is_word (fold_left f keys (a, b)).2 D
              /\ C ++ D = fold_left g Kss (A ++ B).
Proof.
  intros Hf keys Kss HK. induction HK as [|k Ks keys Kss H HK IH]; intros a b A B Ha Hb; [now exists A, B|].
  destruct (Hf a b A B k Ks Ha Hb H) as (C & D & HC & HD & E). cbn [fold_left]. rewrite <- E.
  destruct (f (a, b) k) as [c d]. exact (IH c d C D HC HD).
Qed.

Lemma des_block_bits keys Kss plain : length plain = 8%nat -> bytes_ok plain -> Forall2 round_words keys Kss ->
  to_bits (des_block keys plain) = fold_left (flip des_bits) Kss (to_bits plain).
Proof.
  intros Hl Hb HK. unfold des_block. cbn zeta.
  replace (to_bits plain) with (to_bits (take 4 plain) ++ to_bits (drop 4 plain))
    by now rewrite <- to_bits_app, take_drop.
  pose proof (is_word_get_be32 (take 4 plain) ltac:(rewrite length_take; lia) ltac:(auto with wpa)) as H1.
  pose proof (is_word_get_be32 (drop 4 plain) ltac:(rewrite length_drop; lia) ltac:(auto with wpa)) as H2.
  rewrite get_be32_take in H1.
  destruct (fold_cipher_bits desfunc (flip des_bits) desfunc_bits keys Kss HK _ _ _ _ H1 H2) as (C & D & [_ HC] & [_ HD] & E).
  now rewrite to_bits_app, !to_bits_put_be32, HC, HD, E.
Qed.

(** ** The key schedule *)

Lemma land_bit x n : 0 <= n -> (if Z.land x (2 ^ n) =? 2 ^ n then 1 else 0) = Z.b2z (Z.testbit x n).
Proof.
  intros Hn. destruct (Z.testbit x n) eqn:E.
  - replace (Z.land x (2 ^ n)) with (2 ^ n); [now rewrite Z.eqb_refl|]. apply Z.bits_inj'. intros i Hi.
    rewrite Z.land_spec, Z.pow2_bits_eqb by lia. destruct (Z.eqb_spec n i) as [<-|]; [now rewrite E | now rewrite andb_false_r].
  - replace (Z.land x (2 ^ n)) with 0; [destruct (Z.eqb_spec 0 (2 ^ n)); [lia | done]|].
    apply Z.bits_inj'. intros i Hi. rewrite Z.land_spec, Z.pow2_bits_eqb, Z.testbit_0_l by lia.
    destruct (Z.eqb_spec n i) as [<-|]; [now rewrite E | now rewrite andb_false_r].
Qed.

Lemma PC1_pc1 : PC1 = (fun l => (Z.to_nat l + 1)%nat) <$> pc1.
Proof. reflexivity. Qed.

Lemma pc1m_bits key : length key = 8%nat -> pc1m key = Z.b2z <$> permute false PC1 (to_bits key).
Proof.
  intros Hk. unfold permute, pc1m. rewrite PC1_pc1, <- !list_fmap_compose. list_of_variables key.
  repeat (apply (f_equal2 cons); [match goal with |- _ = ?r =>
    let r' := eval cbv -[Z.testbit] in r in
    lazymatch r' with context [Z.testbit ?x ?n] => exact (land_bit x n ltac:(lia)) end end |]).
  reflexivity.
Qed.

(** The half keys of round [i]. *)
Lemma pcr_schedule L : length L = 56%nat ->
  Forall (fun i => pcr i (Z.b2z <$> L) = Z.b2z <$> nth i (schedule shifts (take 28 L) (drop 28 L)) []) (seq 0 16).
Proof. intros HL. list_of_variables L. repeat (apply Forall_cons; split; [vm_compute; reflexivity|]). constructor. Qed.

Lemma schedule_lengths {A} s (c d : list A) : Forall (fun l => length l = length c + length d)%nat (schedule s c d).
Proof.
  revert c d. induction s as [|n s IH]; intros c d; cbn [schedule]; constructor.
  - now rewrite length_app, !length_rot.
  - specialize (IH (rot n c) (rot n d)). now rewrite !length_rot in IH.
Qed.

Lemma bigbyte_bits : Forall (fun j => nth j bigbyte 0 = 2 ^ Z.of_nat (23 - j)) (seq 0 24).
Proof. repeat constructor. Qed.

(** The loop that collects the bits of a word. *)
Lemma collect_bits (c : nat -> bool) n : (n <= 24)%nat ->
  let w := fold_left (fun k j => if c j then Z.lor k (nth j bigbyte 0) else k) (seq 0 n) 0 in
  0 <= w /\ forall i, (i < 24)%nat -> Z.testbit w (Z.of_nat (23 - i)) = if (i <? n)%nat then c i else false.
Proof.
  pose proof bigbyte_bits as HB. rewrite Forall_forall in HB. cbn zeta.
  induction n as [|n IH]; intros Hn; [split; [done|]; intros; apply Z.testbit_0_l|].
  destruct (IH ltac:(lia)) as [H0 H]. rewrite seq_S, fold_left_app. cbn [fold_left].
  set (w := fold_left _ (seq 0 n) 0) in *. clearbody w.
  assert (nth n bigbyte 0 = 2 ^ Z.of_nat (23 - n)) as En by (apply HB, list_elem_of_In, in_seq; lia).
  change (0 + n)%nat with n. rewrite En. split; [destruct (c n); [apply Z.lor_nonneg; lia | done]|].
  intros i Hi. destruct (Nat.eqb_spec i n) as [-> | Hne].
  - rewrite (proj2 (Nat.ltb_lt n (S n))) by lia. destruct (c n) eqn:Ec.
    + rewrite Z.lor_spec, Z.pow2_bits_true, orb_true_r; [done | lia].
    + rewrite H by done. now rewrite Nat.ltb_irrefl.
  - replace (i <? S n)%nat with (i <? n)%nat by (destruct (Nat.ltb_spec i n), (Nat.ltb_spec i (S n)); lia).
    rewrite <- H by done. destruct (c n); [|done].
    rewrite Z.lor_spec, Z.pow2_bits_false, orb_false_r; [done | lia].
Qed.

Lemma fold_left_ext_nat (f g : Z -> nat -> Z) l a : (forall x j, f x j = g x j) -> fold_left f l a = fold_left g l a.
Proof. intros H. revert a. induction l as [|j l IH]; intros a; [done|]. cbn. now rewrite H. Qed.

Lemma zget_b2z M p : negb (zget (Z.b2z <$> M) p =? 0) = nth (Z.to_nat p) M false.
Proof.
  unfold zget. change 0 with (Z.b2z false) at 1. change (Z.b2z <$> M) with (map Z.b2z M). rewrite map_nth.
  now destruct (nth (Z.to_nat p) M false).
Qed.

Lemma kn_word_bits off M :
  bits 24 (kn_word off (Z.b2z <$> M)) = (fun j => nth (Z.to_nat (nth (j + off) pc2 0)) M false) <$> seq 0 24.
Proof.
  set (c j := nth (Z.to_nat (nth (j + off) pc2 0)) M false).
  assert (kn_word off (Z.b2z <$> M)
          = fold_left (fun k j => if c j then Z.lor k (nth j bigbyte 0) else k) (seq 0 24) 0) as ->.
  { apply fold_left_ext_nat. intros x j. unfold c. now rewrite zget_b2z. }
  destruct (collect_bits c 24 ltac:(lia)) as [_ H]. apply bits_eq; [done|]. intros i Hi.
  rewrite nth_fmap_seq by done. replace (24 - 1 - i)%nat with (23 - i)%nat by lia. rewrite H by done.
  destruct (Nat.ltb_spec i 24); [done | lia].
Qed.

Definition spread (A B : list bool) : list bool :=
  [false; false] ++ take 6 A ++ [false; false] ++ take 6 (drop 12 A)
  ++ [false; false] ++ take 6 B ++ [false; false] ++ take 6 (drop 12 B).

Ltac bits_by_bits :=
  apply bits_eq; [reflexivity|]; intros i Hi;
  do 32 (destruct i as [|i]; [cbn [nth]; literal_bits; try reflexivity|]); lia.

Lemma cook_pair_bits a b :
  bits 32 (nth 0 (cook_pair a b) 0) = spread (bits 24 a) (bits 24 b)
  /\ bits 32 (nth 1 (cook_pair a b) 0) = spread (drop 6 (bits 24 a)) (drop 6 (bits 24 b)).
Proof.
  unfold cook_pair. cbn [nth]. split.
  - unfold bits at 2 3. cbn [seq fmap list_fmap]. unfold spread. cbn [take drop app]. bits_by_bits.
  - unfold bits at 2 3. cbn [seq fmap list_fmap]. unfold spread. cbn [take drop app]. bits_by_bits.
Qed.

Lemma cook_pair_words a b K :
  K = bits 24 a ++ bits 24 b -> key_words (nth 0 (cook_pair a b) 0) (nth 1 (cook_pair a b) 0) K.
Proof.
  intros ->. destruct (cook_pair_bits a b) as [E0 E1].
  split.
  - split; apply wrap_range; lia.
  - now rewrite length_app, !length_bits.
  - rewrite E0. pose proof (length_bits 24 a) as La. pose proof (length_bits 24 b) as Lb.
    clear E0 E1. generalize dependent (bits 24 a). generalize dependent (bits 24 b). intros B LB A LA.
    list_of_variables A. list_of_variables B. repeat constructor.
  - rewrite E1. pose proof (length_bits 24 a) as La. pose proof (length_bits 24 b) as Lb.
    clear E0 E1. generalize dependent (bits 24 a). generalize dependent (bits 24 b). intros B LB A LA.
    list_of_variables A. list_of_variables B. repeat constructor.
Qed.

(** The words deskey() collects, pair by pair; for decryption the other way round. *)
Definition key_pair (key : bytes) (i : nat) : list Z :=
  cook_pair (kn_word 0 (pcr i (pc1m key))) (kn_word 24 (pcr i (pc1m key))).

Lemma deskey_pairs key :
  deskey key false = concat (key_pair key <$> seq 0 16)
  /\ deskey key true = concat ((fun i => key_pair key (15 - i)) <$> seq 0 16).
Proof.
  unfold deskey, key_pair. generalize (pc1m key) as p. intros p.
  set (a i := kn_word 0 (pcr i p)). set (b i := kn_word 24 (pcr i p)).
  change (kn_word 0 (pcr ?i p)) with (a i). change (kn_word 24 (pcr ?i p)) with (b i).
  clearbody a b. split; reflexivity.
Qed.

Lemma nth_pairs (f : nat -> list Z) n i : (forall j, length (f j) = 2%nat) -> (i < n)%nat ->
  nth (2 * i) (concat (f <$> seq 0 n)) 0 = nth 0 (f i) 0
  /\ nth (2 * i + 1) (concat (f <$> seq 0 n)) 0 = nth 1 (f i) 0.
Proof.
  intros Hf. assert (forall s, (i < n)%nat ->
    nth (2 * i) (concat (f <$> seq s n)) 0 = nth 0 (f (s + i)%nat) 0
    /\ nth (2 * i + 1) (concat (f <$> seq s n)) 0 = nth 1 (f (s + i)%nat) 0) as H.
  { revert i. induction n as [|n IH]; intros i s Hi; [lia|]. cbn [seq fmap list_fmap concat].
    destruct i as [|i].
    - rewrite Nat.add_0_r, !app_nth1 by (rewrite Hf; lia). done.
    - rewrite !app_nth2 by (rewrite Hf; lia). rewrite Hf.
      replace (2 * S i - 2)%nat with (2 * i)%nat by lia. replace (2 * S i + 1 - 2)%nat with (2 * i + 1)%nat by lia.
      replace (s + S i)%nat with (S s + i)%nat by lia. apply IH. lia. }
  apply (H 0%nat).
Qed.

Lemma PC2_pc2 (M : list bool) :
  permute false PC2 M = ((fun j => nth (Z.to_nat (nth (j + 0) pc2 0)) M false) <$> seq 0 24)
                        ++ ((fun j => nth (Z.to_nat (nth (j + 24) pc2 0)) M false) <$> seq 0 24).
Proof. reflexivity. Qed.

Lemma length_key_schedule key : length (key_schedule key) = 16%nat.
Proof. reflexivity. Qed.

Lemma key_pair_words key i : length key = 8%nat -> (i < 16)%nat ->
  key_words (nth 0 (key_pair key i) 0) (nth 1 (key_pair key i) 0) (nth i (key_schedule (to_bits key)) []).
Proof.
  intros Hk Hi. unfold key_pair, key_schedule. rewrite (pc1m_bits key Hk).
  set (L := permute false PC1 (to_bits key)). assert (length L = 56%nat) as HL by done.
  pose proof (pcr_schedule L HL) as Hp. rewrite Forall_forall in Hp.
  rewrite Hp by (apply list_elem_of_In, in_seq; lia). apply cook_pair_words. rewrite !kn_word_bits, <- PC2_pc2.
  rewrite (nth_indep _ [] (permute false PC2 [])).
  - change (permute false PC2 <$> ?l) with (map (permute false PC2) l). now rewrite map_nth.
  - rewrite length_fmap. exact Hi.
Qed.

(** deskey() computes the key schedule of the standard. *)
Lemma deskey_words key : length key = 8%nat ->
  round_words (deskey key false) (key_schedule (to_bits key))
  /\ round_words (deskey key true) (rev (key_schedule (to_bits key))).
Proof.
  intros Hk. destruct (deskey_pairs key) as [-> ->].
  split; (split; [rewrite ?length_rev; apply length_key_schedule|]); intros i Hi.
  - destruct (nth_pairs (key_pair key) 16 i ltac:(reflexivity) Hi) as [-> ->]. now apply key_pair_words.
  - destruct (nth_pairs (fun i => key_pair key (15 - i)) 16 i ltac:(reflexivity) Hi) as [-> ->].
    rewrite rev_nth by (rewrite length_key_schedule; lia). rewrite length_key_schedule.
    replace (16 - S i)%nat with (15 - i)%nat by lia. apply key_pair_words; [done | lia].
Qed.

(** ** Decryption *)

Lemma feistel_fold_length Ks LR : length LR.1 = 32%nat -> length LR.2 = 32%nat ->
  length (fold_left feistel_round Ks LR).1 = 32%nat /\ length (fold_left feistel_round Ks LR).2 = 32%nat.
Proof.
  revert LR. induction Ks as [|K Ks IH]; intros LR H1 H2; [done|]. cbn [fold_left]. apply IH; [done|].
  unfold feistel_round. cbn [snd]. rewrite length_zip_with, length_feistel_f. lia.
Qed.

Lemma xorl_xorl a b : length a = length b -> xorl (xorl a b) b = a.
Proof.
  revert b. induction a as [|x a IH]; intros [|y b] H; cbn in *; try done.
  rewrite IH by lia. now rewrite xorb_assoc, xorb_nilpotent, xorb_false_r.
Qed.

(** A round undone on the exchanged halves. *)
Lemma feistel_undo K L R : length L = 32%nat -> length R = 32%nat ->
  let '(L', R') := feistel_round (L, R) K in feistel_round (R', L') K = (R, L).
Proof. intros HL HR. unfold feistel_round. cbn [fst snd]. now rewrite xorl_xorl by (rewrite length_feistel_f; lia). Qed.

Lemma feistel_fold_undo Ks L R : length L = 32%nat -> length R = 32%nat ->
  let '(L', R') := fold_left feistel_round Ks (L, R) in fold_left feistel_round (rev Ks) (R', L') = (R, L).
Proof.
  revert L R. induction Ks as [|K Ks IH]; intros L R HL HR; [done|]. cbn [fold_left rev].
  pose proof (feistel_undo K L R HL HR) as Hu.
  assert (length (feistel_round (L, R) K).1 = 32%nat /\ length (feistel_round (L, R) K).2 = 32%nat) as [H1 H2]
    by (apply (feistel_fold_length [K] (L, R)); done).
  destruct (feistel_round (L, R) K) as [L1 R1]. specialize (IH L1 R1 H1 H2).
  destruct (fold_left feistel_round Ks (L1, R1)) as [L' R']. rewrite fold_left_app, IH. exact Hu.
Qed.

Lemma IP_FP x : length x = 64%nat -> permute false IP (permute false FP x) = x /\ permute false FP (permute false IP x) = x.
Proof. intros Hx. list_of_variables x. split; reflexivity. Qed.

#[local] Transparent des_bits.

Lemma des_bits_inverse Ks x : length x = 64%nat -> des_bits (rev Ks) (des_bits Ks x) = x.
Proof.
  intros Hx. unfold des_bits. set (y := permute false IP x). assert (length y = 64%nat) as Hy by done.
  assert (length (take 32 y) = 32%nat /\ length (drop 32 y) = 32%nat) as [H1 H2]
    by (rewrite length_take, length_drop; lia).
  pose proof (feistel_fold_undo Ks _ _ H1 H2) as Hu.
  pose proof (feistel_fold_length Ks (take 32 y, drop 32 y) H1 H2) as [H3 H4].
  destruct (fold_left feistel_round Ks (take 32 y, drop 32 y)) as [L R]. cbn [fst snd] in *.
  rewrite (proj1 (IP_FP (R ++ L) ltac:(rewrite length_app; lia))).
  rewrite take_app_length', drop_app_length' by done. rewrite Hu, take_drop. unfold y. now apply IP_FP.
Qed.

#[local] Opaque des_bits key_schedule deskey.

(** ** The functions on bytes *)

Lemma to_bits_inj l k : bytes_ok l -> bytes_ok k -> length l = length k -> to_bits l = to_bits k -> l = k.
Proof.
  revert k. induction l as [|x l IH]; intros [|y k] Hl Hk HL E; try done.
  inversion Hl as [|? ? Hx Hl']; subst. inversion Hk as [|? ? Hy Hk']; subst.
  change (bits 8 x ++ to_bits l = bits 8 y ++ to_bits k) in E.
  apply app_inj_1 in E as [E1 E2]; [|now rewrite !length_bits].
  f_equal; [now apply (bits_inj 8) | apply IH; auto].
Qed.

Lemma des_block_ok keys plain : length (des_block keys plain) = 8%nat /\ bytes_ok (des_block keys plain).
Proof. unfold des_block. split; [reflexivity|]. apply bytes_ok_app. split; apply put_be32_ok. Qed.

(** Seven bits and a parity bit. *)
Definition with_parity (p : nat -> bool) (l : list bool) : list bool :=
  concat ((fun i => take 7 (drop (7 * i) l) ++ [p i]) <$> seq 0 8).

Lemma add_parity_bits key : length key = 7%nat -> bytes_ok key ->
  to_bits (add_parity 0 0 key) = with_parity (fun _ => true) (to_bits key) /\ length (add_parity 0 0 key) = 8%nat.
Proof.
  intros Hk Hb. unfold bytes_ok in Hb. list_of_variables key. split; [|reflexivity].
  repeat match goal with H : Forall _ (_ :: _) |- _ =>
    let H1 := fresh "Hz" in let H2 := fresh "Hr" in inversion H as [|? ? H1 H2]; subst; clear H end.
  unfold with_parity, to_bits. cbn [add_parity fmap list_fmap concat seq]. unfold bits. cbn [seq fmap list_fmap].
  cbn [app concat take drop].
  repeat (apply (f_equal2 cons); [cbn -[Z.testbit Z.lor Z.shiftr Z.shiftl wrap]; literal_bits; rewrite ?orb_true_r; try reflexivity |]).
  reflexivity.
Qed.

(** The parity bits take no part in the key schedule. *)
Lemma parity_ignored p q l : length l = 56%nat -> key_schedule (with_parity p l) = key_schedule (with_parity q l).
Proof.
  intros Hl. #[local] Transparent key_schedule. unfold key_schedule.
  enough (permute false PC1 (with_parity p l) = permute false PC1 (with_parity q l)) as -> by done.
  list_of_variables l. reflexivity.
Qed.
#[local] Opaque key_schedule.

Lemma pc1m_take key : (8 <= length key)%nat -> pc1m key = pc1m (take 8 key).
Proof. intros H. do 8 (destruct key as [|? key]; [cbn in H; lia|]). reflexivity. Qed.

Lemma deskey_take key decrypt : (8 <= length key)%nat -> deskey key decrypt = deskey (take 8 key) decrypt.
Proof. intros H. #[local] Transparent deskey. unfold deskey. now rewrite pc1m_take. Qed.
#[local] Opaque deskey.

Lemma enc_words key : length key = 8%nat -> round_words (deskey key false) (key_schedule (to_bits key)).
Proof. apply deskey_words. Qed.
Lemma dec_words key : length key = 8%nat -> round_words (deskey key true) (rev (key_schedule (to_bits key))).
Proof. apply deskey_words. Qed.

Lemma length_des_bits Ks x : length (des_bits Ks x) = 64%nat.
Proof. #[local] Transparent des_bits. unfold des_bits. now destruct (fold_left _ _ _). Qed.
#[local] Opaque des_bits.

Lemma des_bits_inverse' Ks x : length x = 64%nat -> des_bits Ks (des_bits (rev Ks) x) = x.
Proof. intros H. rewrite <- (rev_involutive Ks) at 1. now apply des_bits_inverse. Qed.

(** Round keys that undo others on lists of bits undo them on blocks. *)
Lemma des_block_undo keys keys' Kss Kss' plain :
  length plain = 8%nat -> bytes_ok plain -> Forall2 round_words keys Kss -> Forall2 round_words keys' Kss' ->
  (forall x, length x = 64%nat -> fold_left (flip des_bits) Kss' (fold_left (flip des_bits) Kss x) = x) ->
  des_block keys' (des_block keys plain) = plain.
Proof.
  intros Hl Hb HK HK' Hinv. destruct (des_block_ok keys plain) as [L1 B1].
  destruct (des_block_ok keys' (des_block keys plain)) as [L2 B2].
  apply to_bits_inj; [done | done | lia |].
  rewrite (des_block_bits keys' Kss') by done. rewrite (des_block_bits keys Kss) by done.
  apply Hinv. rewrite length_to_bits. lia.
Qed.

Ltac keys_ok := repeat (apply Forall2_cons_2; [eassumption|]); apply Forall2_nil_2.

(** C30. des_block_encrypt() and des_block_decrypt() with the key schedules of des_key_setup()
    compute the cipher of FIPS 46-3 and its inverse; des_encrypt() computes the cipher for a key
    of seven bytes, whatever the parity bits of the key of the standard are; and 3DES is
    encryption, decryption and encryption with three keys, undone by des3_decrypt(). *)
Theorem des_is_fips46 key key7 key24 p plain :
  length key = 8%nat -> length key7 = 7%nat -> bytes_ok key7 -> length key24 = 24%nat ->
  length plain = 8%nat -> bytes_ok plain ->
  let '(ek, dk) := des_key_setup key in
  let E k := des_bits (key_schedule (to_bits k)) in
  let D k := des_bits (rev (key_schedule (to_bits k))) in
  to_bits (des_block_encrypt plain ek) = E key (to_bits plain)
  /\ to_bits (des_block_decrypt plain dk) = D key (to_bits plain)
  /\ des_block_decrypt (des_block_encrypt plain ek) dk = plain
  /\ to_bits (des_encrypt plain key7) = des_bits (key_schedule (with_parity p (to_bits key7))) (to_bits plain)
  /\ to_bits (des3_encrypt plain (des3_key_setup key24))
     = E (drop 16 key24) (D (take 8 (drop 8 key24)) (E (take 8 key24) (to_bits plain)))
  /\ des3_decrypt (des3_encrypt plain (des3_key_setup key24)) (des3_key_setup key24) = plain.
Proof.
  intros Hk H7 B7 H24 Hl Hb. cbn [des_key_setup]. cbn zeta.
  pose proof (enc_words key Hk) as HE. pose proof (dec_words key Hk) as HD.
  assert (length (to_bits plain) = 64%nat) as H64 by (rewrite length_to_bits; lia).
  split; [exact (des_block_bits [deskey key false] [_] plain Hl Hb ltac:(keys_ok))|].
  split; [exact (des_block_bits [deskey key true] [_] plain Hl Hb ltac:(keys_ok))|].
  split.
  { apply (des_block_undo [deskey key false] [deskey key true] [_] [_] plain Hl Hb ltac:(keys_ok)
      ltac:(keys_ok)). intros x Hx. now apply des_bits_inverse. }
  split.
  { destruct (add_parity_bits key7 H7 B7) as [Ep Lp]. unfold des_encrypt. rewrite take_ge by lia.
    pose proof (enc_words _ Lp) as HP. rewrite Ep, (parity_ignored _ p) in HP by (rewrite length_to_bits; lia).
    exact (des_block_bits [deskey (add_parity 0 0 key7) false] [_] plain Hl Hb ltac:(keys_ok)). }
  unfold des3_encrypt, des3_decrypt, des3_key_setup. cbn [Des.ek Des.dk].
  rewrite !(deskey_take key24), !(deskey_take (drop 8 key24)), !(deskey_take (drop 16 key24)) by (rewrite ?length_drop; lia).
  rewrite !(take_ge (drop 16 key24)) by (rewrite length_drop; lia).
  set (k1 := take 8 key24). set (k2 := take 8 (drop 8 key24)). set (k3 := drop 16 key24).
  assert (length k1 = 8 /\ length k2 = 8 /\ length k3 = 8)%nat as (L1 & L2 & L3)
    by (unfold k1, k2, k3; rewrite ?length_take, ?length_drop; lia).
  pose proof (enc_words k1 L1). pose proof (dec_words k1 L1). pose proof (enc_words k2 L2).
  pose proof (dec_words k2 L2). pose proof (enc_words k3 L3). pose proof (dec_words k3 L3). split.
  - exact (des_block_bits [deskey k1 false; deskey k2 true; deskey k3 false] [_; _; _] plain Hl Hb ltac:(keys_ok)).
  - apply (des_block_undo [deskey k1 false; deskey k2 true; deskey k3 false] [deskey k3 true; deskey k2 false; deskey k1 true]
      [_; _; _] [_; _; _] plain Hl Hb ltac:(keys_ok)
      ltac:(keys_ok)).
    intros x Hx. cbn [fold_left flip].
    rewrite des_bits_inverse, des_bits_inverse', des_bits_inverse by (try apply length_des_bits; done). done.
Qed.

Lemma des_is_fips46_witness :
  let key := [0x13; 0x34; 0x57; 0x79; 0x9b; 0xbc; 0xdf; 0xf1] in
  let plain := [0x01; 0x23; 0x45; 0x67; 0x89; 0xab; 0xcd; 0xef] in
  des_bits (key_schedule (to_bits key)) (to_bits plain) = to_bits [0x85; 0xe8; 0x13; 0x54; 0x0f; 0x0a; 0xb4; 0x05]
  /\ to_bits (des_block_encrypt plain (deskey key false)) = des_bits (key_schedule (to_bits key)) (to_bits plain).
Proof.
  intros key plain. split; [vm_compute; reflexivity|].
  assert (bytes_ok plain) as Hp by (apply (bool_decide_unpack _); vm_compute; exact I).
  assert (bytes_ok (take 7 key)) as H7 by (apply (bool_decide_unpack _); vm_compute; exact I).
  exact (proj1 (des_is_fips46 key (take 7 key) (key ++ plain ++ key) (fun _ => false) plain
    eq_refl eq_refl H7 eq_refl eq_refl Hp)).
Defined.
