(* ===== verification/MsFuncs.v ===== *)
(** * Functions of MS-CHAPv2 (src/crypto/ms_funcs.c)

    RFC 2759 and RFC 3079 on top of SHA-1, MD4, DES and RC4, whose functions of the crypto
    library are the class [MsCrypto]; the internal implementations are an instance of
    it, and cannot fail, so that -1 comes from a password that is no UTF-8 of the Basic
    Multilingual Plane, or too long, and from the random number generator. *)

From S2P Require Import Prelude Rc4 HashMd HashMd5 HashMd4 HashSha1 Des DesProps.

(** crypto.h, as far as this component and the methods that use it need it. *)
Class MsCrypto := {
  sha1_vector : list bytes -> bytes;
  md4_vector : list bytes -> bytes;
  md5_vector : list bytes -> bytes;
  des_encrypt : bytes -> bytes -> bytes
}.

Class MsCryptoLaws `{MsCrypto} : Prop := {
  sha1_digest addr : length (sha1_vector addr) = 20%nat /\ bytes_ok (sha1_vector addr);
  md4_digest addr : length (md4_vector addr) = 16%nat /\ bytes_ok (md4_vector addr);
  md5_digest addr : length (md5_vector addr) = 16%nat /\ bytes_ok (md5_vector addr);
  des_output clear key : length (des_encrypt clear key) = 8%nat /\ bytes_ok (des_encrypt clear key)
}.

(** [stack] is what the buffers on the stack hold before. *)
Definition internal_ms_crypto (stack : bytes) : MsCrypto := {|
  sha1_vector := HashSha1.sha1_vector stack;
  md4_vector := HashMd4.md4_vector stack;
  md5_vector := HashMd5.md5_vector stack;
  des_encrypt := Des.des_encrypt
|}.

Lemma internal_ms_crypto_laws stack : length stack = 64%nat -> @MsCryptoLaws (internal_ms_crypto stack).
Proof.
  intros Hs. split.
  - intros addr. exact (sha1_vector_digest stack addr).
  - intros addr. cbn [md4_vector internal_ms_crypto]. rewrite md4_vector_absorb by done. apply md4_absorb_digest.
  - intros addr. cbn [md5_vector internal_ms_crypto]. rewrite md5_vector_absorb by done. apply md5_absorb_digest.
  - intros clear key. cbn [des_encrypt internal_ms_crypto]. unfold Des.des_encrypt. apply des_block_ok.
Qed.

(* ms_funcs.c magic1 @233-238 *)
Definition auth_magic1 : bytes :=
  [0x4d; 0x61; 0x67; 0x69; 0x63; 0x20; 0x73; 0x65; 0x72; 0x76; 0x65; 0x72; 0x20; 0x74; 0x6f; 0x20;
   0x63; 0x6c; 0x69; 0x65; 0x6e; 0x74; 0x20; 0x73; 0x69; 0x67; 0x6e; 0x69; 0x6e; 0x67; 0x20; 0x63;
   0x6f; 0x6e; 0x73; 0x74; 0x61; 0x6e; 0x74].

(* ms_funcs.c magic2 @239-245 *)
Definition auth_magic2 : bytes :=
  [0x50; 0x61; 0x64; 0x20; 0x74; 0x6f; 0x20; 0x6d; 0x61; 0x6b; 0x65; 0x20; 0x69; 0x74; 0x20; 0x64;
   0x6f; 0x20; 0x6d; 0x6f; 0x72; 0x65; 0x20; 0x74; 0x68; 0x61; 0x6e; 0x20; 0x6f; 0x6e; 0x65; 0x20;
   0x69; 0x74; 0x65; 0x72; 0x61; 0x74; 0x69; 0x6f; 0x6e].

(* ms_funcs.c magic1 @328-332 *)
Definition mk_magic1 : bytes :=
  [0x54; 0x68; 0x69; 0x73; 0x20; 0x69; 0x73; 0x20; 0x74; 0x68; 0x65; 0x20; 0x4d; 0x50; 0x50; 0x45;
   0x20; 0x4d; 0x61; 0x73; 0x74; 0x65; 0x72; 0x20; 0x4b; 0x65; 0x79].

(* ms_funcs.c magic2 @361-371 *)
Definition sk_magic2 : bytes :=
  [0x4f; 0x6e; 0x20; 0x74; 0x68; 0x65; 0x20; 0x63; 0x6c; 0x69; 0x65; 0x6e; 0x74; 0x20; 0x73; 0x69;
   0x64; 0x65; 0x2c; 0x20; 0x74; 0x68; 0x69; 0x73; 0x20; 0x69; 0x73; 0x20; 0x74; 0x68; 0x65; 0x20;
   0x73; 0x65; 0x6e; 0x64; 0x20; 0x6b; 0x65; 0x79; 0x3b; 0x20; 0x6f; 0x6e; 0x20; 0x74; 0x68; 0x65;
   0x20; 0x73; 0x65; 0x72; 0x76; 0x65; 0x72; 0x20; 0x73; 0x69; 0x64; 0x65; 0x2c; 0x20; 0x69; 0x74;
   0x20; 0x69; 0x73; 0x20; 0x74; 0x68; 0x65; 0x20; 0x72; 0x65; 0x63; 0x65; 0x69; 0x76; 0x65; 0x20;
   0x6b; 0x65; 0x79; 0x2e].

(* ms_funcs.c magic3 @372-382 *)
Definition sk_magic3 : bytes :=
  [0x4f; 0x6e; 0x20; 0x74; 0x68; 0x65; 0x20; 0x63; 0x6c; 0x69; 0x65; 0x6e; 0x74; 0x20; 0x73; 0x69;
   0x64; 0x65; 0x2c; 0x20; 0x74; 0x68; 0x69; 0x73; 0x20; 0x69; 0x73; 0x20; 0x74; 0x68; 0x65; 0x20;
   0x72; 0x65; 0x63; 0x65; 0x69; 0x76; 0x65; 0x20; 0x6b; 0x65; 0x79; 0x3b; 0x20; 0x6f; 0x6e; 0x20;
   0x74; 0x68; 0x65; 0x20; 0x73; 0x65; 0x72; 0x76; 0x65; 0x72; 0x20; 0x73; 0x69; 0x64; 0x65; 0x2c;
   0x20; 0x69; 0x74; 0x20; 0x69; 0x73; 0x20; 0x74; 0x68; 0x65; 0x20; 0x73; 0x65; 0x6e; 0x64; 0x20;
   0x6b; 0x65; 0x79; 0x2e].

(** [ucs2_buffer_size] bounds the output; the result is the part of the buffer that was written, [j] bytes.
    An odd size would let the first case write one byte more. *)
(* ms_funcs.c utf8_to_ucs2 @31-70 *)
Fixpoint ucs2_loop (ucs2_buffer_size : Z) (utf8_string out : bytes) : option bytes :=
  let j := zlen out in
  match utf8_string with
  | [] => Some out
  | c :: rest =>
      if ucs2_buffer_size <=? j then None (* input too long *)
      else if c <=? 0x7f then ucs2_loop ucs2_buffer_size rest (out ++ put_le16 c)
      else match rest with
           | [] => None (* incomplete surrogate *)
           | c2 :: rest =>
               if ucs2_buffer_size - 1 <=? j then None
               else if Z.land c 0xe0 =? 0xc0 then
                 ucs2_loop ucs2_buffer_size rest
                   (out ++ put_le16 (Z.lor (Z.shiftl (Z.land c 0x1f) 6) (Z.land c2 0x3f)))
               else match rest with
                    | [] => None
                    | c3 :: rest =>
                        if ucs2_buffer_size - 1 <=? j then None
                        else ucs2_loop ucs2_buffer_size rest
                               (out ++ put_le16 (Z.lor (Z.lor (Z.shiftl (Z.land c 0xf) 12)
                                                              (Z.shiftl (Z.land c2 0x3f) 6)) (Z.land c3 0x3f)))
                    end
           end
  end.

(* ms_funcs.c utf8_to_ucs2 *)
Definition utf8_to_ucs2 (utf8_string : bytes) (ucs2_buffer_size : Z) : option bytes :=
  ucs2_loop ucs2_buffer_size utf8_string [].

Section MsFuncs.
Context `{MsCrypto}.

(* ms_funcs.c challenge_hash *)
Definition challenge_hash (peer_challenge auth_challenge username : bytes) : bytes :=
  take 8 (sha1_vector [take 16 peer_challenge; take 16 auth_challenge; username]).

(* ms_funcs.c nt_password_hash *)
Definition nt_password_hash (password : bytes) : option bytes :=
  let? buf := utf8_to_ucs2 password 512 in Some (md4_vector [buf]).

(* ms_funcs.c hash_nt_password_hash *)
Definition hash_nt_password_hash (password_hash : bytes) : bytes := md4_vector [take 16 password_hash].

(* ms_funcs.c challenge_response *)
Definition challenge_response (challenge password_hash : bytes) : bytes :=
  let zpwd := [byte_at password_hash 14; byte_at password_hash 15] ++ replicate 5 0 in
  des_encrypt challenge password_hash ++ des_encrypt challenge (drop 7 password_hash) ++ des_encrypt challenge zpwd.

(* ms_funcs.c generate_nt_response_pwhash *)
Definition generate_nt_response_pwhash (auth_challenge peer_challenge username password_hash : bytes) : bytes :=
  challenge_response (challenge_hash peer_challenge auth_challenge username) password_hash.

(* ms_funcs.c generate_nt_response *)
Definition generate_nt_response (auth_challenge peer_challenge username password : bytes) : option bytes :=
  let challenge := challenge_hash peer_challenge auth_challenge username in
  let? password_hash := nt_password_hash password in
  Some (challenge_response challenge password_hash).

(* ms_funcs.c generate_authenticator_response_pwhash *)
Definition generate_authenticator_response_pwhash
    (password_hash peer_challenge auth_challenge username nt_response : bytes) : bytes :=
  let password_hash_hash := hash_nt_password_hash password_hash in
  let response := sha1_vector [password_hash_hash; take 24 nt_response; auth_magic1] in
  let challenge := challenge_hash peer_challenge auth_challenge username in
  sha1_vector [response; challenge; auth_magic2].

(* ms_funcs.c generate_authenticator_response *)
Definition generate_authenticator_response
    (password peer_challenge auth_challenge username nt_response : bytes) : option bytes :=
  let? password_hash := nt_password_hash password in
  Some (generate_authenticator_response_pwhash password_hash peer_challenge auth_challenge username nt_response).

(* ms_funcs.c nt_challenge_response *)
Definition nt_challenge_response (challenge password : bytes) : option bytes :=
  let? password_hash := nt_password_hash password in Some (challenge_response challenge password_hash).

(* ms_funcs.c get_master_key *)
Definition get_master_key (password_hash_hash nt_response : bytes) : bytes :=
  take 16 (sha1_vector [take 16 password_hash_hash; take 24 nt_response; mk_magic1]).

(* ms_funcs.c get_asymetric_start_key *)
Definition get_asymetric_start_key (master_key : bytes) (session_key_len : nat) (is_send is_server : bool) : bytes :=
  let magic :=
    if is_send then (if is_server then sk_magic3 else sk_magic2)
    else (if is_server then sk_magic2 else sk_magic3) in
  let digest := sha1_vector [take 16 master_key; replicate 40 0; magic; replicate 40 0xf2] in
  take (Nat.min session_key_len 20) digest.

(** [os_get_random n] is the answer of the random number generator to a request for [n] bytes. *)
(* ms_funcs.c encrypt_pw_block_with_password_hash *)
Definition encrypt_pw_block_with_password_hash (os_get_random : nat -> option bytes)
    (password password_hash : bytes) : option bytes :=
  let? pw := utf8_to_ucs2 password 512 in
  let ucs2_len := zlen pw / 2 in
  if 256 <? ucs2_len then None else
  let offset := (256 - ucs2_len) * 2 in
  let? filled := if offset =? 0 then Some pw
                 else let? r := os_get_random (Z.to_nat offset) in Some (r ++ pw) in
  let pw_block := filled ++ put_le16 (zlen password * 2) ++ [0; 0] in
  Some (rc4_skip (take 16 password_hash) 0 pw_block).

(* ms_funcs.c new_password_encrypted_with_old_nt_password_hash *)
Definition new_password_encrypted_with_old_nt_password_hash (os_get_random : nat -> option bytes)
    (new_password old_password : bytes) : option bytes :=
  let? password_hash := nt_password_hash old_password in
  encrypt_pw_block_with_password_hash os_get_random new_password password_hash.

(* ms_funcs.c nt_password_hash_encrypted_with_block *)
Definition nt_password_hash_encrypted_with_block (password_hash block : bytes) : bytes :=
  des_encrypt (take 8 password_hash) block ++ des_encrypt (take 8 (drop 8 password_hash)) (drop 7 block).

(* ms_funcs.c old_nt_password_hash_encrypted_with_new_nt_password_hash *)
Definition old_nt_password_hash_encrypted_with_new_nt_password_hash (new_password old_password : bytes) : option bytes :=
  let? old_password_hash := nt_password_hash old_password in
  let? new_password_hash := nt_password_hash new_password in
  Some (nt_password_hash_encrypted_with_block old_password_hash new_password_hash).

End MsFuncs.

(** ** The test vectors of RFC 2759 and RFC 3079 *)

Module Rfc2759.

#[local] Instance real : MsCrypto := internal_ms_crypto (replicate 64 7).

Definition UserName : bytes := [0x55; 0x73; 0x65; 0x72].
Definition Password : bytes := [0x63; 0x6c; 0x69; 0x65; 0x6e; 0x74; 0x50; 0x61; 0x73; 0x73].
Definition AuthenticatorChallenge : bytes :=
  [0x5b; 0x5d; 0x7c; 0x7d; 0x7b; 0x3f; 0x2f; 0x3e; 0x3c; 0x2c; 0x60; 0x21; 0x32; 0x26; 0x26; 0x28].
Definition PeerChallenge : bytes :=
  [0x21; 0x40; 0x23; 0x24; 0x25; 0x5e; 0x26; 0x2a; 0x28; 0x29; 0x5f; 0x2b; 0x3a; 0x33; 0x7c; 0x7e].
Definition NtResponse : bytes :=
  [0x82; 0x30; 0x9e; 0xcd; 0x8d; 0x70; 0x8b; 0x5e; 0xa0; 0x8f; 0xaa; 0x39;
   0x81; 0xcd; 0x83; 0x54; 0x42; 0x33; 0x11; 0x4a; 0x3d; 0x85; 0xd6; 0xdf].

Example password_hash_vector : nt_password_hash Password
  = Some [0x44; 0xeb; 0xba; 0x8d; 0x53; 0x12; 0xb8; 0xd6; 0x11; 0x47; 0x44; 0x11; 0xf5; 0x69; 0x89; 0xae].
Proof. vm_compute. reflexivity. Qed.

Example nt_response_vector :
  generate_nt_response AuthenticatorChallenge PeerChallenge UserName Password = Some NtResponse.
Proof. vm_compute. reflexivity. Qed.

Example auth_response_vector :
  generate_authenticator_response Password PeerChallenge AuthenticatorChallenge UserName NtResponse
  = Some [0x40; 0x7a; 0x55; 0x89; 0x11; 0x5f; 0xd0; 0xd6; 0x20; 0x9f; 0x51; 0x0f; 0xe9; 0xc0; 0x45; 0x66;
          0x93; 0x2c; 0xda; 0x56].
Proof. vm_compute. reflexivity. Qed.

(** The master key of RFC 3079 and the key the server receives with. *)
Example session_key_vector :
  (let? h := nt_password_hash Password in
   let master_key := get_master_key (hash_nt_password_hash h) NtResponse in
   Some (master_key, get_asymetric_start_key master_key 16 true true))
  = Some ([0xfd; 0xec; 0xe3; 0x71; 0x7a; 0x8c; 0x83; 0x8c; 0xb3; 0x88; 0xe5; 0x27; 0xae; 0x3c; 0xdd; 0x31],
          [0x8b; 0x7c; 0xdc; 0x14; 0x9b; 0x99; 0x3a; 0x1b; 0xa1; 0x18; 0xcb; 0x15; 0x3f; 0x56; 0xdc; 0xcb]).
Proof. vm_compute. reflexivity. Qed.

End Rfc2759.
