(* ===== verification/Crypto.v ===== *)
(** * Keyed hashes and pseudo-random functions (src/crypto)

    The HMAC and CMAC functions of the crypto backend are an interface: the
    [*_vector] functions take the list of buffers they hash and return the
    digest, or nothing when the backend fails.  Its law is that a digest has its
    length and is made of bytes; HashHmac.v has the implementation the source comes with.  On top of
    it: the one-buffer variants, the IEEE 802.11 PRF of sha1-prf.c and the KDF of
    sha256-prf.c and sha384-prf.c, as the loops of the source. *)

From S2P Require Import Prelude.

(* crypto/sha1.h SHA1_MAC_LEN *)
Definition SHA1_MAC_LEN : nat := 20.
(* crypto/sha256.h SHA256_MAC_LEN *)
Definition SHA256_MAC_LEN : nat := 32.
(* crypto/sha384.h SHA384_MAC_LEN *)
Definition SHA384_MAC_LEN : nat := 48.
(* crypto/md5.h MD5_MAC_LEN *)
Definition MD5_MAC_LEN : nat := 16.

Class Hmac := {
  hmac_md5_vector : bytes -> list bytes -> option bytes;
  hmac_sha1_vector : bytes -> list bytes -> option bytes;
  hmac_sha256_vector : bytes -> list bytes -> option bytes;
  hmac_sha384_vector : bytes -> list bytes -> option bytes;
  omac1_aes_128_vector : bytes -> list bytes -> option bytes;
  (** what a local hash buffer holds when the call that fills it failed *)
  hash_stack : bytes
}.

(** A digest has its length and is made of bytes. *)
Definition digest_law (n : nat) (h : bytes -> list bytes -> option bytes) : Prop :=
  forall k l d, h k l = Some d -> length d = n /\ bytes_ok d.

Class HmacLaws `{Hmac} := {
  hmac_md5_law : digest_law MD5_MAC_LEN hmac_md5_vector;
  hmac_sha1_law : digest_law SHA1_MAC_LEN hmac_sha1_vector;
  hmac_sha256_law : digest_law SHA256_MAC_LEN hmac_sha256_vector;
  hmac_sha384_law : digest_law SHA384_MAC_LEN hmac_sha384_vector;
  omac1_aes_128_law : digest_law 16 omac1_aes_128_vector
}.

Section Prf.
Context `{Hmac}.

(* crypto/md5.c hmac_md5 *)
Definition hmac_md5 (key data : bytes) : option bytes := hmac_md5_vector key [data].
(* crypto/sha1.c hmac_sha1 *)
Definition hmac_sha1 (key data : bytes) : option bytes := hmac_sha1_vector key [data].
(* crypto/sha256.c hmac_sha256 *)
Definition hmac_sha256 (key data : bytes) : option bytes := hmac_sha256_vector key [data].
(* crypto/sha384.c hmac_sha384 *)
Definition hmac_sha384 (key data : bytes) : option bytes := hmac_sha384_vector key [data].
(* crypto/aes-omac1.c omac1_aes_128 *)
Definition omac1_aes_128 (key data : bytes) : option bytes := omac1_aes_128_vector key [data].

(** ** The loops that fill the output block by block

    [next] computes the digest for a counter value, [left] is [buf_len - pos];
    [fuel] bounds the iterations, each of which writes at least one byte. *)

Fixpoint prf_loop (mac_len : nat) (next : Z -> option bytes) (counter_bits : Z)
    (fuel : nat) (counter : Z) (left : nat) : option bytes :=
  match fuel with
  | O => Some []
  | S fuel =>
      if (left =? 0)%nat then Some [] else
      let? hash := next counter in
      if (mac_len <=? left)%nat then
        let? rest := prf_loop mac_len next counter_bits fuel (wrap counter_bits (counter + 1))
                       (left - mac_len) in
        Some (hash ++ rest)
      else Some (take left hash)
  end.

(* sha1-prf.c sha1_prf *)
Definition sha1_prf (key label data : bytes) (buf_len : nat) : option bytes :=
  prf_loop SHA1_MAC_LEN
    (fun counter => hmac_sha1_vector key [label ++ [0]; data; [counter]])
    8 buf_len 0 buf_len.

(** Clears the unused low bits of the last byte. *)
Definition mask_last (bits : Z) (buf : bytes) : bytes :=
  if bits mod 8 =? 0 then buf else
  let mask := u8 (Z.shiftl 0xff (8 - bits mod 8)) in
  take (length buf - 1) buf ++ [Z.land (byte_at buf (length buf - 1)) mask].

(** The body sha256_prf_bits() and sha384_prf_bits() share. *)
Definition kdf_bits (mac_len : nat) (hmac : bytes -> list bytes -> option bytes)
    (key label data : bytes) (buf_len_bits : Z) : option bytes :=
  let buf_len := Z.to_nat ((buf_len_bits + 7) / 8) in
  let length_le := put_le16 buf_len_bits in
  let? buf := prf_loop mac_len
                (fun counter => hmac key [put_le16 counter; label; data; length_le])
                16 buf_len 1 buf_len in
  Some (mask_last buf_len_bits buf).

(* sha256-prf.c sha256_prf_bits *)
Definition sha256_prf_bits (key label data : bytes) (buf_len_bits : Z) : option bytes :=
  kdf_bits SHA256_MAC_LEN hmac_sha256_vector key label data buf_len_bits.
(* sha256-prf.c sha256_prf *)
Definition sha256_prf (key label data : bytes) (buf_len : nat) : option bytes :=
  sha256_prf_bits key label data (Z.of_nat buf_len * 8).
(* sha384-prf.c sha384_prf_bits *)
Definition sha384_prf_bits (key label data : bytes) (buf_len_bits : Z) : option bytes :=
  kdf_bits SHA384_MAC_LEN hmac_sha384_vector key label data buf_len_bits.
(* sha384-prf.c sha384_prf *)
Definition sha384_prf (key label data : bytes) (buf_len : nat) : option bytes :=
  sha384_prf_bits key label data (Z.of_nat buf_len * 8).

(** ** What the loops compute *)

Section Loop.
Context (mac_len : nat) (next : Z -> option bytes) (cb : Z).
Context (Hmac_len : (0 < mac_len)%nat).
Context (Hnext : forall c d, next c = Some d -> length d = mac_len /\ bytes_ok d).

Lemma prf_loop_spec fuel counter left r :
  (left <= fuel)%nat -> prf_loop mac_len next cb fuel counter left = Some r ->
  length r = left /\ bytes_ok r.
Proof.
  revert counter left r. induction fuel as [|fuel IH]; intros counter left r Hf; simpl.
  { intros [= <-]. split; [simpl; lia | constructor]. }
  destruct (Nat.eqb_spec left 0) as [-> | Hl]; [intros [= <-]; split; [done | constructor]|].
  destruct (next counter) as [hash|] eqn:Eh; [|discriminate].
  destruct (Hnext _ _ Eh) as [Lh Bh].
  destruct (Nat.leb_spec mac_len left).
  - destruct (prf_loop mac_len next cb fuel _ (left - mac_len)) as [rest|] eqn:Er; [|discriminate].
    intros [= <-]. apply IH in Er as [Lr Br]; [|lia].
    split; [rewrite length_app; lia | now apply bytes_ok_app].
  - intros [= <-]. split; [rewrite length_take; lia | auto with wpa].
Qed.

(** A shorter output is a prefix of a longer one. *)
Lemma prf_loop_prefix fuel fuel' counter m n r :
  (m <= n)%nat -> (n <= fuel)%nat -> (m <= fuel')%nat ->
  prf_loop mac_len next cb fuel counter n = Some r ->
  prf_loop mac_len next cb fuel' counter m = Some (take m r).
Proof.
  revert fuel' counter m n r.
  induction fuel as [|fuel IH]; intros fuel' counter m n r Hmn Hn Hm.
  { intros [= <-]. destruct m as [|m]; [|lia]. now destruct fuel'. }
  cbn [prf_loop]. destruct (Nat.eqb_spec n 0) as [-> | Hn0].
  { intros [= <-]. destruct m as [|m]; [|lia]. now destruct fuel'. }
  destruct m as [|m']; [intros _; now destruct fuel'|].
  destruct fuel' as [|fuel']; [lia|]. cbn [prf_loop Nat.eqb].
  destruct (next counter) as [hash|] eqn:Eh; [|discriminate].
  destruct (Hnext _ _ Eh) as [Lh _].
  destruct (Nat.leb_spec mac_len n) as [Hln|Hln], (Nat.leb_spec mac_len (S m')) as [Hlm|Hlm]; try lia.
  - destruct (prf_loop mac_len next cb fuel _ (n - mac_len)) as [rest|] eqn:Er; [|discriminate].
    intros [= <-]. rewrite (IH fuel' _ (S m' - mac_len)%nat (n - mac_len)%nat _ ltac:(lia) ltac:(lia) ltac:(lia) Er).
    f_equal. rewrite take_app, Lh, (take_ge hash) by (rewrite Lh; lia). done.
  - destruct (prf_loop mac_len next cb fuel _ (n - mac_len)) as [rest|]; [|discriminate].
    intros [= <-]. f_equal. now rewrite take_app_le by lia.
  - intros [= <-]. f_equal. rewrite take_take. f_equal. lia.
Qed.

Lemma prf_loop_total fuel counter left :
  (forall c, is_Some (next c)) -> is_Some (prf_loop mac_len next cb fuel counter left).
Proof.
  intros Hs. revert counter left. induction fuel as [|fuel IH]; intros counter left; simpl; [done|].
  destruct (left =? 0)%nat; [done|]. destruct (Hs counter) as [h ->].
  destruct (mac_len <=? left)%nat; [|done]. now destruct (IH (wrap cb (counter + 1)) (left - mac_len)%nat) as [r ->].
Qed.
End Loop.
End Prf.
