(* ===== verification/CryptoDemo.v ===== *)
(** * Concrete backends for the crypto interfaces

    Stand-ins that satisfy the laws of [HmacLaws] and [AesLaws] and evaluate, so
    that the theorems proved against the interfaces are seen to apply and the
    witnesses run.  They are not cryptography: the keyed hash is a polynomial
    checksum, the block cipher xors the key. *)

From S2P Require Import Prelude Crypto AesWrap.

(** ** A keyed checksum *)

Definition demo_mix (l : bytes) : Z := fold_left (fun h b => u64 (h * 257 + b + 1)) l 0.

Definition demo_digest (n : nat) (salt : Z) (key : bytes) (l : list bytes) : option bytes :=
  let h := demo_mix (salt :: key ++ [0] ++ concat l) in
  Some ((fun i => u8 (h / 2 ^ (8 * (Z.of_nat i mod 8)) + Z.of_nat i)) <$> seq 0 n).

Lemma demo_digest_law n salt : digest_law n (demo_digest n salt).
Proof.
  intros k l d [= <-]. split; [now rewrite length_fmap, length_seq|].
  apply Forall_fmap, Forall_true. intros i. apply is_uint_wrap8.
Qed.

#[export] Instance demo_hmac : Hmac := {|
  hmac_md5_vector := demo_digest MD5_MAC_LEN 1;
  hmac_sha1_vector := demo_digest SHA1_MAC_LEN 2;
  hmac_sha256_vector := demo_digest SHA256_MAC_LEN 3;
  hmac_sha384_vector := demo_digest SHA384_MAC_LEN 4;
  omac1_aes_128_vector := demo_digest 16 5;
  hash_stack := replicate 48 0
|}.

#[export] Instance demo_hmac_laws : HmacLaws.
Proof. split; apply demo_digest_law. Qed.

(** ** A block cipher *)

Definition demo_aes_init (key : bytes) : option bytes :=
  let c := take 16 key in
  guard! bool_decide (length c = 16%nat) && bool_decide (bytes_ok c); Some c.

#[export] Instance demo_aes : AesCipher := {|
  aes_ctx := bytes;
  aes_encrypt_init := demo_aes_init;
  aes_decrypt_init := demo_aes_init;
  aes_encrypt c b := zip_with Z.lxor b c;
  aes_decrypt c b := zip_with Z.lxor b c
|}.

Lemma demo_aes_init_spec k c : demo_aes_init k = Some c -> is_block c.
Proof.
  unfold demo_aes_init. destruct (bool_decide _) eqn:E1; [|discriminate].
  destruct (bool_decide (bytes_ok _)) eqn:E2; [|discriminate]. intros [= <-].
  split; [now apply bool_decide_eq_true in E1 | now apply bool_decide_eq_true in E2].
Qed.

Lemma demo_aes_block k c b : demo_aes_init k = Some c -> is_block b -> is_block (zip_with Z.lxor b c).
Proof.
  intros Hc [Lb Bb]. apply demo_aes_init_spec in Hc as [Lc Bc].
  split; [rewrite length_zip_with, Lb, Lc; done | now apply zip_lxor_ok].
Qed.

Lemma demo_aes_inverse k c d b :
  demo_aes_init k = Some c -> demo_aes_init k = Some d -> is_block b ->
  zip_with Z.lxor (zip_with Z.lxor b c) d = b.
Proof.
  intros Hc Hd [Lb Bb]. assert (d = c) as -> by congruence.
  apply demo_aes_init_spec in Hc as [Lc _]. apply zip_lxor_involutive. congruence.
Qed.

#[export] Instance demo_aes_laws : AesLaws.
Proof.
  split.
  - intros k c b _. apply demo_aes_block.
  - intros k c b _. apply demo_aes_block.
  - intros k e d b _. apply demo_aes_inverse.
  - intros k e d b _ He Hd. now apply demo_aes_inverse with k.
Qed.
