(* ===== verification/Wpabuf.v ===== *)
(** * Dynamic data buffers (src/utils/wpabuf.c, wpabuf.h)

    A wpabuf is its allocated size and the data put into it so far.  Writing
    past the size calls abort() in the code ([wpabuf_overflow]); the model
    records it in [wb_abort], so that a component can prove it never happens.
    Heap allocation is an environment class: [malloc_ok n] tells whether an
    allocation of [n] bytes succeeds. *)

From S2P Require Import Prelude.

Class OsAlloc := malloc_ok : Z -> bool.

(* wpabuf.h struct wpabuf *)
Record wpabuf := Wpabuf {
  wb_size : Z;     (* total size of the allocated buffer *)
  wb_buf : bytes;  (* data in the buffer; [used] is its length *)
  wb_abort : bool  (* wpabuf_overflow() was called *)
}.

#[export] Instance eta_wpabuf : Eta wpabuf :=
  fun b => Wpabuf (wb_size b) (wb_buf b) (wb_abort b).

#[export] Instance wpabuf_eq_dec : EqDecision wpabuf.
Proof. solve_decision. Defined.

(* wpabuf.h wpabuf_len *)
Definition wpabuf_len (b : wpabuf) : Z := zlen (wb_buf b).
(* wpabuf.h wpabuf_size *)
Definition wpabuf_size (b : wpabuf) : Z := wb_size b.
(* wpabuf.h wpabuf_tailroom *)
Definition wpabuf_tailroom (b : wpabuf) : Z := wb_size b - wpabuf_len b.
(* wpabuf.h wpabuf_head *)
Definition wpabuf_head (b : wpabuf) : bytes := wb_buf b.

Section Alloc.
Context `{OsAlloc}.

(* sizeof(struct wpabuf) on a 64-bit target *)
Definition sizeof_wpabuf : Z := 32.

(* wpabuf.c wpabuf_alloc *)
Definition wpabuf_alloc (len : Z) : option wpabuf :=
  guard! malloc_ok (sizeof_wpabuf + len); Some (Wpabuf len [] false).

(* wpabuf.c wpabuf_put *)
Definition wpabuf_put (b : wpabuf) (data : bytes) : wpabuf :=
  let b := b <| wb_buf := wb_buf b ++ data |> in
  if wb_size b <? wpabuf_len b then b <| wb_abort := true |> else b.

(* wpabuf.h wpabuf_put_data *)
Definition wpabuf_put_data (b : wpabuf) (data : bytes) : wpabuf := wpabuf_put b data.
(* wpabuf.h wpabuf_put_u8 *)
Definition wpabuf_put_u8 (b : wpabuf) (v : Z) : wpabuf := wpabuf_put b [u8 v].
(* wpabuf.h wpabuf_put_be16 *)
Definition wpabuf_put_be16 (b : wpabuf) (v : Z) : wpabuf := wpabuf_put b (put_be16 v).
(* wpabuf.h wpabuf_put_be24 *)
Definition wpabuf_put_be24 (b : wpabuf) (v : Z) : wpabuf := wpabuf_put b (put_be24 v).
(* wpabuf.h wpabuf_put_be32 *)
Definition wpabuf_put_be32 (b : wpabuf) (v : Z) : wpabuf := wpabuf_put b (put_be32 v).

(* wpabuf.c wpabuf_alloc_copy *)
Definition wpabuf_alloc_copy (data : bytes) : option wpabuf :=
  let? b := wpabuf_alloc (zlen data) in Some (wpabuf_put_data b data).

(* wpabuf.c wpabuf_dup *)
Definition wpabuf_dup (src : wpabuf) : option wpabuf :=
  let? b := wpabuf_alloc (wpabuf_len src) in
  Some (wpabuf_put_data b (wpabuf_head src)).

(* wpabuf.c wpabuf_resize *)
Definition wpabuf_resize (b : option wpabuf) (add_len : Z) : option wpabuf :=
  match b with
  | None => wpabuf_alloc add_len
  | Some b =>
      if wb_size b <? wpabuf_len b + add_len then
        guard! malloc_ok (sizeof_wpabuf + wpabuf_len b + add_len);
        Some (b <| wb_size := wpabuf_len b + add_len |>)
      else Some b
  end.

(* wpabuf.c wpabuf_concat *)
Definition wpabuf_concat (a b : option wpabuf) : option wpabuf :=
  match b with
  | None => a
  | Some b =>
      let len := match a with Some a => wpabuf_len a | None => 0 end + wpabuf_len b in
      let? n := wpabuf_alloc len in
      let n := match a with Some a => wpabuf_put_data n (wpabuf_head a) | None => n end in
      Some (wpabuf_put_data n (wpabuf_head b))
  end.

(* wpabuf.c wpabuf_zeropad *)
Definition wpabuf_zeropad (b : option wpabuf) (len : Z) : option wpabuf :=
  let? b := b in
  let blen := wpabuf_len b in
  if len <=? blen then Some b else
  let? ret := wpabuf_alloc len in
  let ret := wpabuf_put ret (replicate (Z.to_nat (len - blen)) 0) in
  Some (wpabuf_put_data ret (wpabuf_head b)).

(** ** Properties *)

(** The representation invariant: never overflowed, contents within the size
    and made of bytes. *)
Definition wpabuf_ok (b : wpabuf) : Prop :=
  wb_abort b = false /\ wpabuf_len b <= wb_size b /\ bytes_ok (wb_buf b).

Lemma wpabuf_put_len b d : wpabuf_len (wpabuf_put b d) = wpabuf_len b + zlen d.
Proof. unfold wpabuf_put, wpabuf_len. case_match; simpl_rec; now rewrite zlen_app. Qed.

Lemma wpabuf_put_size b d : wb_size (wpabuf_put b d) = wb_size b.
Proof. unfold wpabuf_put. case_match; done. Qed.

Lemma wpabuf_put_buf b d : wb_buf (wpabuf_put b d) = wb_buf b ++ d.
Proof. unfold wpabuf_put. case_match; done. Qed.

(** Room for the data is exactly what keeps a put from aborting. *)
Lemma wpabuf_put_ok b d :
  wpabuf_ok b -> bytes_ok d -> zlen d <= wpabuf_tailroom b -> wpabuf_ok (wpabuf_put b d).
Proof.
  intros (Ha & Hs & Hb) Hd Hr. unfold wpabuf_tailroom in Hr. unfold wpabuf_ok.
  rewrite wpabuf_put_len, wpabuf_put_size, wpabuf_put_buf, bytes_ok_app.
  repeat split; try done; [|lia]. unfold wpabuf_put, wpabuf_len in *. simpl_rec.
  rewrite zlen_app. case_match eqn:E; [lia|done].
Qed.

Lemma wpabuf_put_aborts b d :
  wb_size b < wpabuf_len b + zlen d -> wb_abort (wpabuf_put b d) = true.
Proof.
  intros Hr. unfold wpabuf_put, wpabuf_len in *. simpl_rec.
  rewrite zlen_app. case_match eqn:E; [done|lia].
Qed.

Lemma wpabuf_put_abort b d :
  wb_abort (wpabuf_put b d) = wb_abort b || (wb_size b <? wpabuf_len b + zlen d).
Proof.
  unfold wpabuf_put, wpabuf_len. simpl_rec. rewrite zlen_app. case_match; simpl_rec.
  - now rewrite orb_true_r.
  - now rewrite orb_false_r.
Qed.

Lemma wpabuf_eq b1 b2 :
  wb_size b1 = wb_size b2 -> wb_buf b1 = wb_buf b2 -> wb_abort b1 = wb_abort b2 -> b1 = b2.
Proof. destruct b1, b2. cbn. congruence. Qed.

(** Two consecutive puts are one put of both pieces of data. *)
Lemma wpabuf_put_put b x y : wpabuf_put (wpabuf_put b x) y = wpabuf_put b (x ++ y).
Proof.
  apply wpabuf_eq; rewrite ?wpabuf_put_size, ?wpabuf_put_buf, ?wpabuf_put_abort.
  - done.
  - now rewrite app_assoc.
  - rewrite wpabuf_put_size, wpabuf_put_len, zlen_app, <- orb_assoc. f_equal.
    pose proof (zlen_nonneg y).
    destruct (Z.ltb_spec (wb_size b) (wpabuf_len b + zlen x)),
      (Z.ltb_spec (wb_size b) (wpabuf_len b + zlen x + zlen y)),
      (Z.ltb_spec (wb_size b) (wpabuf_len b + (zlen x + zlen y))); lia || done.
Qed.

Lemma wpabuf_alloc_Some len b : wpabuf_alloc len = Some b -> b = Wpabuf len [] false.
Proof. unfold wpabuf_alloc. case_match; naive_solver. Qed.

Lemma wpabuf_alloc_ok len b : 0 <= len -> wpabuf_alloc len = Some b -> wpabuf_ok b.
Proof. intros ? ->%wpabuf_alloc_Some. repeat split; [done|constructor]. Qed.

Lemma wpabuf_dup_Some src b : wpabuf_dup src = Some b -> wb_buf b = wb_buf src.
Proof.
  unfold wpabuf_dup. destruct (wpabuf_alloc _) as [n|] eqn:E; [|done].
  intros [= <-]. apply wpabuf_alloc_Some in E as ->. unfold wpabuf_put_data.
  now rewrite wpabuf_put_buf.
Qed.

Lemma wpabuf_dup_ok src b : wpabuf_ok src -> wpabuf_dup src = Some b -> wpabuf_ok b.
Proof.
  unfold wpabuf_dup. intros (_ & _ & Hb). destruct (wpabuf_alloc _) as [n|] eqn:E; [|done].
  intros [= <-]. pose proof (wpabuf_alloc_Some _ _ E) as ->.
  apply wpabuf_put_ok; [|done|].
  - eapply wpabuf_alloc_ok; eauto. apply zlen_nonneg.
  - unfold wpabuf_tailroom, wpabuf_head, wpabuf_len, zlen. cbn. lia.
Qed.

End Alloc.

#[export] Hint Resolve wpabuf_put_ok wpabuf_alloc_ok wpabuf_dup_ok : wpa.
