(* ===== verification/HashSha2.v ===== *)
(** * The internal SHA-256, SHA-384 and SHA-512
    (src/crypto/sha256-internal.c, sha384-internal.c, sha512-internal.c)

    The three share the code that collects blocks; it is the section [Ltc] over the
    block size and the compression function, which for SHA-512 allocates its
    message schedule and can fail.  [None] is the return value -1. *)

From S2P Require Import Prelude HashMd Wpabuf.

(** struct sha256_state and struct sha512_state, which differ in the widths. *)
(* sha256_i.h struct sha256_state *)
Record sha_state := ShaState {
  md_length : Z;
  md_state : list Z;
  md_curlen : nat;
  md_buf : bytes
}.
#[export] Instance eta_sha_state : Eta sha_state :=
  fun m => ShaState (md_length m) (md_state m) (md_curlen m) (md_buf m).

Definition wordn (l : list Z) (i : nat) : Z := nth i l 0.

Section Ltc.
Context (B : nat) (compress : list Z -> bytes -> option (list Z)).

(** The branch that fills the buffer with [n] more bytes. *)
(* sha256-internal.c sha256_process @164-174 *)
Definition ltc_fill (n : nat) (md : sha_state) (inb : bytes) : option sha_state :=
  let md := md <| md_buf := store_at (md_curlen md) (take n inb) (md_buf md) |>
               <| md_curlen := (md_curlen md + n)%nat |> in
  if (md_curlen md =? B)%nat then
    let? st := compress (md_state md) (md_buf md) in
    Some (md <| md_state := st |>
             <| md_length := u64 (md_length md + 8 * Z.of_nat B) |>
             <| md_curlen := 0%nat |>)
  else Some md.

(** The loop over [inlen]; every turn takes at least one byte. *)
(* sha256-internal.c sha256_process @156-176 *)
Fixpoint ltc_loop (fuel : nat) (md : sha_state) (inb : bytes) : option sha_state :=
  match fuel with
  | O => Some md
  | S fuel =>
      if (length inb =? 0)%nat then Some md else
      if (md_curlen md =? 0)%nat && (B <=? length inb)%nat then
        let? st := compress (md_state md) (take B inb) in
        ltc_loop fuel (md <| md_state := st |> <| md_length := u64 (md_length md + Z.of_nat B * 8) |>)
          (drop B inb)
      else
        let n := Nat.min (length inb) (B - md_curlen md) in
        let? md := ltc_fill n md inb in
        ltc_loop fuel md (drop n inb)
  end.

(* sha256-internal.c sha256_process @148-179 *)
Definition ltc_process (md : sha_state) (inb : bytes) : option sha_state :=
  if (B <=? md_curlen md)%nat then None else ltc_loop (length inb) md inb.

(** [while (md->curlen < n) md->buf[md->curlen++] = 0;] *)
(* sha256-internal.c sha256_done @206-208 *)
Definition ltc_zeros (n : nat) (md : sha_state) : sha_state :=
  md <| md_buf := store_at (md_curlen md) (replicate (n - md_curlen md) 0) (md_buf md) |>
     <| md_curlen := Nat.max n (md_curlen md) |>.

(** The return value of this call of the compression function is not looked at. *)
(* sha256-internal.c sha256_done @209-209 *)
Definition ltc_compress_buf (md : sha_state) : sha_state :=
  md <| md_state := default (md_state md) (compress (md_state md) (md_buf md)) |>.

(** [limit] is 56 or 112, [upto] is 56 or 120: where the zeros of the last block
    end, and the length starts. *)
(* sha256-internal.c sha256_done *)
Definition ltc_done (limit upto : nat) (put : Z -> bytes) (md : sha_state) : option bytes :=
  if (B <=? md_curlen md)%nat then None else
  let md := md <| md_length := u64 (md_length md + Z.of_nat (md_curlen md) * 8) |> in
  let md := md <| md_buf := store_at (md_curlen md) [0x80] (md_buf md) |>
               <| md_curlen := S (md_curlen md) |> in
  let md := if (limit <? md_curlen md)%nat
            then ltc_compress_buf (ltc_zeros B md) <| md_curlen := 0%nat |> else md in
  let md := ltc_zeros upto md in
  let md := md <| md_buf := store_at upto (put_be64 (md_length md)) (md_buf md) |> in
  let md := ltc_compress_buf md in
  Some (concat (put <$> take 8 (md_state md))).

(** [for (i = 0; i < num_elem; i++) if (process(&ctx, addr[i], len[i])) return -1;] *)
(* sha256-internal.c sha256_vector *)
Fixpoint ltc_vector (md : sha_state) (addr : list bytes) : option sha_state :=
  match addr with
  | [] => Some md
  | a :: addr => let? md := ltc_process md a in ltc_vector md addr
  end.
End Ltc.

(** The [n] words of [w] bits of a number, the first one on top. *)
Fixpoint be_words (w : Z) (n : nat) (v : Z) : list Z :=
  match n with
  | O => []
  | S n => wrap w (Z.shiftr v (w * Z.of_nat n)) :: be_words w n v
  end.

(** The state of the buffer of a context before it is written. *)
Section Sha256.

(** The table, eight words to a number, and the words. *)
(* sha256-internal.c K @50-64 *)
Definition K256_rows : list Z := [
  0x428a2f98_71374491_b5c0fbcf_e9b5dba5_3956c25b_59f111f1_923f82a4_ab1c5ed5;
  0xd807aa98_12835b01_243185be_550c7dc3_72be5d74_80deb1fe_9bdc06a7_c19bf174;
  0xe49b69c1_efbe4786_0fc19dc6_240ca1cc_2de92c6f_4a7484aa_5cb0a9dc_76f988da;
  0x983e5152_a831c66d_b00327c8_bf597fc7_c6e00bf3_d5a79147_06ca6351_14292967;
  0x27b70a85_2e1b2138_4d2c6dfc_53380d13_650a7354_766a0abb_81c2c92e_92722c85;
  0xa2bfe8a1_a81a664b_c24b8b70_c76c51a3_d192e819_d6990624_f40e3585_106aa070;
  0x19a4c116_1e376c08_2748774c_34b0bcb5_391c0cb3_4ed8aa4a_5b9cca4f_682e6ff3;
  0x748f82ee_78a5636f_84c87814_8cc70208_90befffa_a4506ceb_bef9a3f7_c67178f2].
(* sha256-internal.c K @50-64 *)
Definition K256 : list Z := Eval vm_compute in K256_rows ≫= be_words 32 8.

(* sha256-internal.c Ch *)
Definition Ch (x y z : Z) : Z := Z.lxor z (Z.land x (Z.lxor y z)).
(* sha256-internal.c Maj *)
Definition Maj (x y z : Z) : Z := Z.lor (Z.land (Z.lor x y) z) (Z.land x y).
(* sha256-internal.c Sigma0 *)
Definition Sigma0_256 (x : Z) : Z := Z.lxor (Z.lxor (rotr_w 32 x 2) (rotr_w 32 x 13)) (rotr_w 32 x 22).
(* sha256-internal.c Sigma1 *)
Definition Sigma1_256 (x : Z) : Z := Z.lxor (Z.lxor (rotr_w 32 x 6) (rotr_w 32 x 11)) (rotr_w 32 x 25).
(* sha256-internal.c Gamma0 *)
Definition Gamma0_256 (x : Z) : Z := Z.lxor (Z.lxor (rotr_w 32 x 7) (rotr_w 32 x 18)) (Z.shiftr x 3).
(* sha256-internal.c Gamma1 *)
Definition Gamma1_256 (x : Z) : Z := Z.lxor (Z.lxor (rotr_w 32 x 17) (rotr_w 32 x 19)) (Z.shiftr x 10).

(** [W[i] = ...] for [i] from 16 on; the array grows at its end. *)
(* sha256-internal.c sha256_compress @100-103 *)
Definition w_next256 (W : list Z) : list Z :=
  let i := length W in
  W ++ [u32 (Gamma1_256 (wordn W (i - 2)) + wordn W (i - 7) + Gamma0_256 (wordn W (i - 15)) + wordn W (i - 16))].

(** RND and the shift of the eight working variables after it. *)
(* sha256-internal.c RND @106-117 *)
Definition rnd256 (W : list Z) (s : list Z) (i : nat) : list Z :=
  let t0 := u32 (wordn s 7 + Sigma1_256 (wordn s 4) + Ch (wordn s 4) (wordn s 5) (wordn s 6)
                 + wordn K256 i + wordn W i) in
  let t1 := u32 (Sigma0_256 (wordn s 0) + Maj (wordn s 0) (wordn s 1) (wordn s 2)) in
  [u32 (t0 + t1); wordn s 0; wordn s 1; wordn s 2; u32 (wordn s 3 + t0); wordn s 4; wordn s 5; wordn s 6].

(* sha256-internal.c sha256_compress *)
Definition sha256_compress (state : list Z) (buf : bytes) : list Z :=
  let W := (fun i => get_be32 (drop (4 * i) buf)) <$> seq 0 16 in
  let W := Nat.iter 48 w_next256 W in
  let s := fold_left (rnd256 W) (seq 0 64) state in
  (fun i => u32 (wordn state i + wordn s i)) <$> seq 0 8.

(* sha256-internal.c sha256_init *)
Definition sha256_init (stack : bytes) : sha_state :=
  ShaState 0 [0x6A09E667; 0xBB67AE85; 0x3C6EF372; 0xA54FF53A; 0x510E527F; 0x9B05688C; 0x1F83D9AB; 0x5BE0CD19]
    0 stack.

(* sha256-internal.c sha256_process *)
Definition sha256_process : sha_state -> bytes -> option sha_state :=
  ltc_process 64 (fun st b => Some (sha256_compress st b)).

(* sha256-internal.c sha256_done *)
Definition sha256_done : sha_state -> option bytes :=
  ltc_done 64 (fun st b => Some (sha256_compress st b)) 56 56 put_be32.

(* sha256-internal.c sha256_vector *)
Definition sha256_vector (stack : bytes) (addr : list bytes) : option bytes :=
  let? ctx := ltc_vector 64 (fun st b => Some (sha256_compress st b)) (sha256_init stack) addr in
  sha256_done ctx.

End Sha256.

Section Sha512.
Context `{OsAlloc}.

(* sha512-internal.c K @48-89 *)
Definition K512 : list Z :=
  [0x428a2f98d728ae22; 0x7137449123ef65cd; 0xb5c0fbcfec4d3b2f; 0xe9b5dba58189dbbc;
   0x3956c25bf348b538; 0x59f111f1b605d019; 0x923f82a4af194f9b; 0xab1c5ed5da6d8118;
   0xd807aa98a3030242; 0x12835b0145706fbe; 0x243185be4ee4b28c; 0x550c7dc3d5ffb4e2;
   0x72be5d74f27b896f; 0x80deb1fe3b1696b1; 0x9bdc06a725c71235; 0xc19bf174cf692694;
   0xe49b69c19ef14ad2; 0xefbe4786384f25e3; 0x0fc19dc68b8cd5b5; 0x240ca1cc77ac9c65;
   0x2de92c6f592b0275; 0x4a7484aa6ea6e483; 0x5cb0a9dcbd41fbd4; 0x76f988da831153b5;
   0x983e5152ee66dfab; 0xa831c66d2db43210; 0xb00327c898fb213f; 0xbf597fc7beef0ee4;
   0xc6e00bf33da88fc2; 0xd5a79147930aa725; 0x06ca6351e003826f; 0x142929670a0e6e70;
   0x27b70a8546d22ffc; 0x2e1b21385c26c926; 0x4d2c6dfc5ac42aed; 0x53380d139d95b3df;
   0x650a73548baf63de; 0x766a0abb3c77b2a8; 0x81c2c92e47edaee6; 0x92722c851482353b;
   0xa2bfe8a14cf10364; 0xa81a664bbc423001; 0xc24b8b70d0f89791; 0xc76c51a30654be30;
   0xd192e819d6ef5218; 0xd69906245565a910; 0xf40e35855771202a; 0x106aa07032bbd1b8;
   0x19a4c116b8d2d0c8; 0x1e376c085141ab53; 0x2748774cdf8eeb99; 0x34b0bcb5e19b48a8;
   0x391c0cb3c5c95a63; 0x4ed8aa4ae3418acb; 0x5b9cca4f7763e373; 0x682e6ff3d6b2b8a3;
   0x748f82ee5defb2fc; 0x78a5636f43172f60; 0x84c87814a1f0ab72; 0x8cc702081a6439ec;
   0x90befffa23631e28; 0xa4506cebde82bde9; 0xbef9a3f7b2c67915; 0xc67178f2e372532b;
   0xca273eceea26619c; 0xd186b8c721c0c207; 0xeada7dd6cde0eb1e; 0xf57d4f7fee6ed178;
   0x06f067aa72176fba; 0x0a637dc5a2c898a6; 0x113f9804bef90dae; 0x1b710b35131c471b;
   0x28db77f523047d84; 0x32caab7b40c72493; 0x3c9ebe0a15c9bebc; 0x431d67c49c100d4c;
   0x4cc5d4becb3e42b6; 0x597f299cfc657e2a; 0x5fcb6fab3ad6faec; 0x6c44198c4a475817].

Definition get_be64 (l : bytes) : Z := get_be32 l * 2 ^ 32 + get_be32 (drop 4 l).

(* sha512-internal.c Sigma0 *)
Definition Sigma0_512 (x : Z) : Z := Z.lxor (Z.lxor (rotr_w 64 x 28) (rotr_w 64 x 34)) (rotr_w 64 x 39).
(* sha512-internal.c Sigma1 *)
Definition Sigma1_512 (x : Z) : Z := Z.lxor (Z.lxor (rotr_w 64 x 14) (rotr_w 64 x 18)) (rotr_w 64 x 41).
(* sha512-internal.c Gamma0 *)
Definition Gamma0_512 (x : Z) : Z := Z.lxor (Z.lxor (rotr_w 64 x 1) (rotr_w 64 x 8)) (Z.shiftr x 7).
(* sha512-internal.c Gamma1 *)
Definition Gamma1_512 (x : Z) : Z := Z.lxor (Z.lxor (rotr_w 64 x 19) (rotr_w 64 x 61)) (Z.shiftr x 6).

(* sha512-internal.c sha512_compress @130-133 *)
Definition w_next512 (W : list Z) : list Z :=
  let i := length W in
  W ++ [u64 (Gamma1_512 (wordn W (i - 2)) + wordn W (i - 7) + Gamma0_512 (wordn W (i - 15)) + wordn W (i - 16))].

(* sha512-internal.c sha512_compress @136-147 *)
Definition rnd512 (W : list Z) (s : list Z) (i : nat) : list Z :=
  let t0 := u64 (wordn s 7 + Sigma1_512 (wordn s 4) + Ch (wordn s 4) (wordn s 5) (wordn s 6)
                 + wordn K512 i + wordn W i) in
  let t1 := u64 (Sigma0_512 (wordn s 0) + Maj (wordn s 0) (wordn s 1) (wordn s 2)) in
  [u64 (t0 + t1); wordn s 0; wordn s 1; wordn s 2; u64 (wordn s 3 + t0); wordn s 4; wordn s 5; wordn s 6].

(** What sha512_compress() computes when it got its memory. *)
(* sha512-internal.c sha512_compress @120-152 *)
Definition sha512_block (state : list Z) (buf : bytes) : list Z :=
  let W := (fun i => get_be64 (drop (8 * i) buf)) <$> seq 0 16 in
  let W := Nat.iter 64 w_next512 W in
  let s := fold_left (rnd512 W) (seq 0 80) state in
  (fun i => u64 (wordn state i + wordn s i)) <$> seq 0 8.

(* sha512-internal.c sha512_compress *)
Definition sha512_compress (state : list Z) (buf : bytes) : option (list Z) :=
  if malloc_ok (80 * 8) then Some (sha512_block state buf) else None.

(* sha512-internal.c sha512_init *)
Definition sha512_init (stack : bytes) : sha_state :=
  ShaState 0 [0x6a09e667f3bcc908; 0xbb67ae8584caa73b; 0x3c6ef372fe94f82b; 0xa54ff53a5f1d36f1;
    0x510e527fade682d1; 0x9b05688c2b3e6c1f; 0x1f83d9abfb41bd6b; 0x5be0cd19137e2179] 0 stack.

(* sha512-internal.c sha512_process *)
Definition sha512_process : sha_state -> bytes -> option sha_state := ltc_process 128 sha512_compress.

(* sha512-internal.c sha512_done *)
Definition sha512_done : sha_state -> option bytes := ltc_done 128 sha512_compress 112 120 put_be64.

(* sha512-internal.c sha512_vector *)
Definition sha512_vector (stack : bytes) (addr : list bytes) : option bytes :=
  let? ctx := ltc_vector 128 sha512_compress (sha512_init stack) addr in
  sha512_done ctx.

(* sha384-internal.c sha384_init *)
Definition sha384_init (stack : bytes) : sha_state :=
  ShaState 0 [0xcbbb9d5dc1059ed8; 0x629a292a367cd507; 0x9159015a3070dd17; 0x152fecd8f70e5939;
    0x67332667ffc00b31; 0x8eb44a8768581511; 0xdb0c2e0d64f98fa7; 0x47b5481dbefa4fa4] 0 stack.

(* sha384-internal.c sha384_done *)
Definition sha384_done (md : sha_state) : option bytes :=
  if (128 <=? md_curlen md)%nat then None else
  let? buf := sha512_done md in Some (take 48 buf).

(* sha384-internal.c sha384_vector *)
Definition sha384_vector (stack : bytes) (addr : list bytes) : option bytes :=
  let? ctx := ltc_vector 128 sha512_compress (sha384_init stack) addr in
  sha384_done ctx.

End Sha512.

(** ** The streaming interface computes the hash of the whole message *)

Section LtcSpec.
Context (B : nat) (comp : list Z -> bytes -> list Z).
Context (HB : (0 < B)%nat).
Abbreviation compress := (fun st b => Some (comp st b)).

(** A context that has seen [n] bytes, of which [part] are not compressed yet. *)
Record ltc_rep (md : sha_state) (st : list Z) (part : bytes) (n : nat) : Prop := {
  lr_state : md_state md = st;
  lr_buf : length (md_buf md) = B;
  lr_curlen : md_curlen md = length part;
  lr_part : take (length part) (md_buf md) = part;
  lr_short : (length part < B)%nat;
  lr_mod : (n mod B = length part)%nat;
  lr_length : md_length md = u64 (8 * Z.of_nat (n - length part))
}.

Lemma mod_add_block n k p : (n mod B = p)%nat -> (p + k = B)%nat -> ((n + k) mod B = 0)%nat /\ (p <= n)%nat.
Proof using HB.
  intros Hp Hk. pose proof (Nat.div_mod_eq n B). pose proof (Nat.mod_upper_bound n B ltac:(lia)).
  split; [|lia]. set (q := (n / B)%nat) in *. clearbody q.
  replace (n + k)%nat with ((q + 1) * B)%nat by nia. apply Nat.Div0.mod_mul.
Qed.

Lemma length_add_block n k p :
  (n mod B = p)%nat -> (p + k = B)%nat ->
  u64 (u64 (8 * Z.of_nat (n - p)) + Z.of_nat B * 8) = u64 (8 * Z.of_nat (n + k)).
Proof using HB.
  intros Hp Hk. destruct (mod_add_block n k p Hp Hk) as [_ Hn]. rewrite wrap_add_l by lia. f_equal. lia.
Qed.

(** A whole block has been compressed. *)
Lemma ltc_rep_block md md' st part n k b :
  ltc_rep md st part n -> (length part + k = B)%nat ->
  md_state md' = comp st b -> length (md_buf md') = B -> md_curlen md' = 0%nat ->
  md_length md' = u64 (md_length md + Z.of_nat B * 8) ->
  ltc_rep md' (comp st b) [] (n + k).
Proof using HB.
  intros [Hs Hb Hc Hp Hl Hm Hn] Hk E1 E2 E3 E4. destruct (mod_add_block n k _ Hm Hk) as [Hz _].
  split; auto. rewrite E4, Hn, (length_add_block n k (length part)) by done. do 2 f_equal. cbn. lia.
Qed.

Lemma ltc_fill_rep md st part n k inb :
  ltc_rep md st part n -> (k <= length inb)%nat -> (k <= B - length part)%nat ->
  exists md', ltc_fill B compress k md inb = Some md'
    /\ ltc_rep md' (absorb B comp st (part ++ take k inb)).1 (absorb B comp st (part ++ take k inb)).2 (n + k).
Proof using HB.
  intros Hr Hk Hkb. pose proof Hr as [Hs Hb Hc Hp Hl Hm Hn]. unfold ltc_fill. cbn [md_curlen over].
  assert (length (take k inb) = k) as Lk by (rewrite length_take; lia).
  assert (length (store_at (length part) (take k inb) (md_buf md)) = B) as Ls by (rewrite length_store_at; lia).
  rewrite Hc. destruct (Nat.eqb_spec (length part + k) B) as [E | E].
  - eexists. split; [reflexivity|].
    assert (store_at (length part) (take k inb) (md_buf md) = part ++ take k inb) as Eb.
    { rewrite <- (take_ge (store_at _ _ _) (length part + length (take k inb))) by lia.
      rewrite take_store_at by lia. now rewrite Hp. }
    rewrite absorb_one by (rewrite ?length_app; lia). cbn [fst snd].
    apply (ltc_rep_block md _ st part n k); try done.
    + cbn [md_state md_buf over]. now rewrite Hs, Eb.
    + cbn [md_length over]. f_equal. lia.
  - eexists. split; [reflexivity|]. rewrite absorb_short by (rewrite length_app; lia). cbn [fst snd].
    split; cbn [md_state md_buf md_curlen md_length over]; try done; rewrite ?length_app, ?Lk; try lia.
    + rewrite <- Lk at 1. rewrite take_store_at by lia. now rewrite Hp.
    + rewrite <- Nat.Div0.add_mod_idemp_l, Hm. apply Nat.mod_small. lia.
    + rewrite Hn. do 3 f_equal. lia.
Qed.

Lemma ltc_loop_rep fuel md st part n inb :
  ltc_rep md st part n -> (length inb <= fuel)%nat ->
  exists md', ltc_loop B compress fuel md inb = Some md'
    /\ ltc_rep md' (absorb B comp st (part ++ inb)).1 (absorb B comp st (part ++ inb)).2 (n + length inb).
Proof using HB.
  revert md st part n inb. induction fuel as [|fuel IH]; intros md st part n inb Hr Hf.
  { destruct inb; [|simpl in Hf; lia]. exists md. split; [done|].
    rewrite app_nil_r, absorb_short by (apply (lr_short _ _ _ _ Hr)). cbn. now rewrite Nat.add_0_r. }
  cbn [ltc_loop]. destruct (Nat.eqb_spec (length inb) 0) as [E | E].
  { destruct inb; [|done]. exists md. split; [done|].
    rewrite app_nil_r, absorb_short by (apply (lr_short _ _ _ _ Hr)). cbn. now rewrite Nat.add_0_r. }
  pose proof Hr as [Hs Hb Hc Hp Hl Hm Hn]. rewrite Hc.
  destruct ((length part =? 0)%nat && (B <=? length inb)%nat) eqn:Eb.
  - apply andb_true_iff in Eb as [Ep%Nat.eqb_eq Ei%Nat.leb_le].
    destruct part; [|done]. rewrite Hs. cbn [app]. rewrite absorb_block by done.
    edestruct (IH (md <| md_state := comp st (take B inb) |> <| md_length := u64 (md_length md + Z.of_nat B * 8) |>)
      (comp st (take B inb)) [] (n + B)%nat (drop B inb)) as (md' & El & Hr').
    + now apply (ltc_rep_block md _ st [] n B).
    + rewrite length_drop. lia.
    + exists md'. split; [exact El|]. rewrite length_drop in Hr'. now replace (n + length inb)%nat with (n + B + (length inb - B))%nat by lia.
  - clear Eb. set (k := Nat.min (length inb) (B - length part)).
    destruct (ltc_fill_rep md st part n k inb Hr) as (md1 & Ef & Hr1); [lia..|]. rewrite Ef.
    edestruct (IH md1 _ _ _ (drop k inb) Hr1) as (md' & El & Hr'); [rewrite length_drop; lia|].
    exists md'. split; [exact El|]. rewrite <- absorb_app in Hr' by done.
    rewrite <- app_assoc, take_drop, length_drop in Hr'.
    now replace (n + length inb)%nat with (n + k + (length inb - k))%nat by lia.
Qed.

Lemma ltc_vector_rep addr md st part n :
  ltc_rep md st part n ->
  exists md', ltc_vector B compress md addr = Some md'
    /\ ltc_rep md' (absorb B comp st (part ++ concat addr)).1 (absorb B comp st (part ++ concat addr)).2
         (n + length (concat addr)).
Proof using HB.
  revert md st part n. induction addr as [|a addr IH]; intros md st part n Hr.
  - exists md. split; [done|]. cbn [concat]. rewrite app_nil_r, absorb_short by apply (lr_short _ _ _ _ Hr).
    cbn. now rewrite Nat.add_0_r.
  - cbn [ltc_vector concat]. unfold ltc_process. rewrite (lr_curlen _ _ _ _ Hr).
    rewrite (proj2 (Nat.leb_gt _ _)) by apply (lr_short _ _ _ _ Hr).
    destruct (ltc_loop_rep (length a) md st part n a Hr) as (md1 & -> & Hr1); [done|].
    destruct (IH md1 _ _ _ Hr1) as (md' & El & Hr'). exists md'. split; [exact El|].
    rewrite <- absorb_app, <- app_assoc in Hr' by done. now rewrite length_app, Nat.add_assoc.
Qed.

(** The buffer starts with [l]. *)
Definition holds (buf l : bytes) : Prop := length buf = B /\ take (length l) buf = l.

Lemma holds_store buf l src i :
  holds buf l -> i = length l -> (length l + length src <= B)%nat -> holds (store_at i src buf) (l ++ src).
Proof using HB.
  intros [Hb Hl] -> Hs. split; [rewrite length_store_at; lia|].
  rewrite length_app, take_store_at by lia. now rewrite Hl.
Qed.

Lemma holds_all buf l : holds buf l -> length l = B -> buf = l.
Proof using HB. intros [Hb Hl] E. now rewrite take_ge in Hl by lia. Qed.

Lemma holds_nil buf l : holds buf l -> holds buf [].
Proof using HB. intros [Hb _]. now split. Qed.

Lemma pad_one_block limit upto p :
  (p < limit)%nat -> (limit <= upto)%nat -> (upto + 8 = B)%nat ->
  ((2 * B - 1 - (upto - limit + 8) - p) mod B = limit - 1 - p)%nat.
Proof using HB.
  intros Hp Hl Hu. replace (2 * B - 1 - (upto - limit + 8) - p)%nat with (limit - 1 - p + 1 * B)%nat by lia.
  rewrite Nat.Div0.mod_add. apply Nat.mod_small. lia.
Qed.

Lemma pad_two_blocks limit upto p :
  (limit <= p < B)%nat -> (limit <= upto)%nat -> (upto + 8 = B)%nat ->
  ((2 * B - 1 - (upto - limit + 8) - p) mod B = (B - 1 - p) + limit)%nat.
Proof using HB.
  intros Hp Hl Hu. replace (2 * B - 1 - (upto - limit + 8) - p)%nat with (B - 1 - p + limit)%nat by lia.
  apply Nat.mod_small. lia.
Qed.

Lemma ltc_done_spec limit upto put md st part n :
  ltc_rep md st part n -> (0 < limit)%nat -> (limit <= upto)%nat -> (upto + 8 = B)%nat ->
  ltc_done B compress limit upto put md
  = Some (concat (put <$> take 8 (absorb B comp st (part ++
      md_pad B (replicate (upto - limit) 0 ++ put_be64 (8 * Z.of_nat n)) n)).1)).
Proof using HB.
  intros [Hs Hb Hc Hp Hl Hm Hn] H0 Hlu Hu. unfold ltc_done. rewrite Hc.
  rewrite (proj2 (Nat.leb_gt _ _)) by done. cbn [md_length md_buf md_curlen md_state over]. rewrite ?Hc.
  assert (u64 (md_length md + Z.of_nat (length part) * 8) = u64 (8 * Z.of_nat n)) as ->.
  { rewrite Hn, wrap_add_l by lia. f_equal. pose proof (Nat.div_mod_eq n B). lia. }
  assert (holds (store_at (length part) [0x80] (md_buf md)) (part ++ [0x80])) as H1
    by (apply holds_store; [now split | done | simpl; lia]).
  set (b1 := store_at (length part) [0x80] (md_buf md)) in *. clearbody b1.
  unfold md_pad. rewrite length_app, length_replicate, Hm. change (length (put_be64 _)) with 8%nat.
  rewrite <- (put_be64_wrap (8 * Z.of_nat n)).
  destruct (Nat.ltb_spec limit (S (length part))) as [Hbig | Hsmall].
  - rewrite pad_two_blocks by lia. unfold ltc_zeros, ltc_compress_buf. cbn [md_length md_buf md_curlen md_state over default].
    set (len8 := put_be64 (u64 (8 * Z.of_nat n))). assert (length len8 = 8%nat) as L8 by done. clearbody len8.
    set (z1 := replicate (B - S (length part)) 0). set (z2 := replicate (upto - 0) 0).
    assert (length z1 = B - S (length part))%nat as Lz1 by apply length_replicate.
    assert (length z2 = upto)%nat as Lz2 by (unfold z2; rewrite length_replicate; lia).
    assert (holds (store_at (S (length part)) z1 b1) ((part ++ [0x80]) ++ z1)) as H2
      by (apply holds_store; [done | rewrite length_app; simpl; lia | rewrite length_app; simpl; lia]).
    set (b2 := store_at (S (length part)) z1 b1) in *. clearbody b2.
    assert (holds (store_at upto len8 (store_at 0 z2 b2)) (([] ++ z2) ++ len8)) as H3.
    { apply holds_store; [|simpl; lia|simpl; lia]. apply holds_store; [now apply (holds_nil _ _ H2) | done | simpl; lia]. }
    set (b3 := store_at upto len8 _) in *. clearbody b3.
    apply holds_all in H2; [|rewrite !length_app; simpl; lia]. apply holds_all in H3; [|rewrite !length_app; simpl; lia].
    subst b2 b3. rewrite Hs. do 3 f_equal.
    replace (part ++ 0x80 :: replicate (B - 1 - length part + limit) 0 ++ replicate (upto - limit) 0 ++ len8)
      with (((part ++ [0x80]) ++ z1) ++ (z2 ++ len8)).
    + rewrite absorb_app by done.
      rewrite (absorb_one B comp HB st ((part ++ [0x80]) ++ z1)) by (rewrite !length_app; simpl; lia).
      cbn [fst snd app].
      now rewrite absorb_one by (rewrite ?length_app; simpl; lia).
    + unfold z1, z2. rewrite Nat.sub_0_r, (replicate_add (B - 1 - length part) limit).
      replace (B - 1 - length part)%nat with (B - S (length part))%nat by lia.
      replace upto with (limit + (upto - limit))%nat at 1 by lia. rewrite replicate_add, <- !app_assoc. reflexivity.
  - rewrite pad_one_block by lia. unfold ltc_zeros, ltc_compress_buf. cbn [md_length md_buf md_curlen md_state over default].
    set (len8 := put_be64 (u64 (8 * Z.of_nat n))). assert (length len8 = 8%nat) as L8 by done. clearbody len8.
    set (z := replicate (upto - S (length part)) 0).
    assert (length z = upto - S (length part))%nat as Lz by apply length_replicate.
    assert (holds (store_at upto len8 (store_at (S (length part)) z b1)) (((part ++ [0x80]) ++ z) ++ len8)) as H2.
    { apply holds_store; [|rewrite !length_app; simpl; lia|rewrite !length_app; simpl; lia].
      apply holds_store; [done | rewrite length_app; simpl; lia | rewrite length_app; simpl; lia]. }
    set (b3 := store_at upto len8 _) in *. clearbody b3.
    apply holds_all in H2; [|rewrite !length_app; simpl; lia]. subst b3. rewrite Hs. do 3 f_equal.
    replace (part ++ 0x80 :: replicate (limit - 1 - length part) 0 ++ replicate (upto - limit) 0 ++ len8)
      with (((part ++ [0x80]) ++ z) ++ len8).
    + now rewrite absorb_one by (rewrite ?length_app; simpl; lia).
    + unfold z. replace (upto - S (length part))%nat with ((limit - 1 - length part) + (upto - limit))%nat by lia.
      rewrite replicate_add, <- !app_assoc. reflexivity.
Qed.
End LtcSpec.

(** A fresh context. *)
Lemma ltc_rep_init B iv stack : (0 < B)%nat -> length stack = B -> ltc_rep B (ShaState 0 iv 0 stack) iv [] 0.
Proof. intros HB Hs. split; cbn; auto. now rewrite Nat.Div0.mod_0_l. Qed.

(** The vector functions in one. *)
Lemma ltc_vector_done B comp limit upto put iv stack addr :
  (0 < limit)%nat -> (limit <= upto)%nat -> (upto + 8 = B)%nat -> length stack = B ->
  (let? ctx := ltc_vector B (fun st b => Some (comp st b)) (ShaState 0 iv 0 stack) addr in
   ltc_done B (fun st b => Some (comp st b)) limit upto put ctx)
  = Some (concat (put <$> take 8 (absorb B comp iv (concat addr ++
      md_pad B (replicate (upto - limit) 0 ++ put_be64 (8 * zlen (concat addr))) (length (concat addr)))).1)).
Proof.
  intros H0 Hl Hu Hs. assert (0 < B)%nat as HB by lia.
  destruct (ltc_vector_rep B comp HB addr _ _ _ _ (ltc_rep_init B iv stack HB Hs)) as (md & -> & Hr).
  cbn [app Nat.add] in Hr. rewrite (ltc_done_spec B comp HB limit upto put md _ _ _ Hr H0 Hl Hu).
  now rewrite <- absorb_app.
Qed.

(** The compression functions over the blocks of a whole padded message; HashFips.v proves
    them to be the hash functions of FIPS 180. *)
Definition sha2_absorb (B L : nat) (comp : list Z -> bytes -> list Z) (put : Z -> bytes) (iv : list Z) (m : bytes) : bytes :=
  concat (put <$> take 8 (absorb B comp iv (m ++
    md_pad B (replicate L 0 ++ put_be64 (8 * zlen m)) (length m))).1).

Definition sha256_iv : list Z := md_state (sha256_init []).
Definition sha384_iv `{OsAlloc} : list Z := md_state (sha384_init []).
Definition sha256_absorb : bytes -> bytes := sha2_absorb 64 0 sha256_compress put_be32 sha256_iv.
Definition sha384_absorb (m : bytes) : bytes :=
  take 48 (sha2_absorb 128 8 sha512_block put_be64 (md_state (sha384_init [])) m).

Lemma sha256_vector_absorb stack addr :
  length stack = 64%nat -> sha256_vector stack addr = Some (sha256_absorb (concat addr)).
Proof.
  intros Hs. unfold sha256_vector, sha256_done, sha256_init, sha256_absorb, sha2_absorb.
  now rewrite ltc_vector_done by lia.
Qed.

Lemma length_take_iota (f : nat -> Z) : length (take 8 (f <$> seq 0 8)) = 8%nat.
Proof. reflexivity. Qed.

Lemma sha2_absorb_digest B L comp put k iv m :
  (0 < B)%nat -> (forall w, length (put w) = k /\ bytes_ok (put w)) ->
  length iv = 8%nat -> (forall st b, length (comp st b) = 8%nat) ->
  length (sha2_absorb B L comp put iv m) = (k * 8)%nat /\ bytes_ok (sha2_absorb B L comp put iv m).
Proof.
  intros HB Hp Hi Hc. unfold sha2_absorb.
  set (x := (absorb B comp iv _).1). assert (length x = 8%nat) as Lx
    by (apply (absorb_state B comp HB (fun st => length st = 8%nat)); auto).
  clearbody x. destruct (digest_words put k (take 8 x) Hp) as [L1 B1]. split; [|exact B1].
  rewrite L1, length_take, Lx. lia.
Qed.

Lemma sha256_absorb_digest m : length (sha256_absorb m) = 32%nat /\ bytes_ok (sha256_absorb m).
Proof. apply (sha2_absorb_digest 64 0 sha256_compress put_be32 4); [lia | apply put_be32_word | done | done]. Qed.

Lemma put_be64_word w : length (put_be64 w) = 8%nat /\ bytes_ok (put_be64 w).
Proof. split; [reflexivity|]. unfold put_be64. apply bytes_ok_app. auto using put_be32_ok. Qed.

Lemma ltc_loop_nil B compress fuel md : ltc_loop B compress fuel md [] = Some md.
Proof. now destruct fuel. Qed.

(** Without a compression function that succeeds, a short message is only stored. *)
Lemma ltc_process_short B md m :
  md_curlen md = 0%nat -> (length m < B)%nat ->
  exists md', ltc_process B (fun _ _ => None) md m = Some md'
    /\ md_state md' = md_state md /\ md_curlen md' = length m.
Proof.
  intros Hc Hl. unfold ltc_process. rewrite Hc, (proj2 (Nat.leb_gt _ _)) by lia.
  destruct m as [|b m]; [exists md; auto|]. cbn [length ltc_loop Nat.eqb]. rewrite Hc.
  cbn [length] in Hl. rewrite (proj2 (Nat.leb_gt _ _)) by lia. cbn [Nat.eqb andb].
  rewrite Nat.sub_0_r, Nat.min_l by lia. unfold ltc_fill. cbn [md_curlen over]. rewrite Hc, Nat.add_0_l.
  rewrite (proj2 (Nat.eqb_neq _ _)) by lia. rewrite drop_ge by (simpl; lia).
  rewrite ltc_loop_nil. eexists. split; [reflexivity|]. cbn [md_state md_curlen over]. now rewrite ?Hc.
Qed.

Lemma sha384_absorb_digest m : length (sha384_absorb m) = 48%nat /\ bytes_ok (sha384_absorb m).
Proof.
  unfold sha384_absorb. destruct (sha2_absorb_digest 128 8 sha512_block put_be64 8 (md_state (sha384_init [])) m)
    as [L B]; [lia | apply put_be64_word | done | done |].
  split; [rewrite length_take, L; lia | auto with wpa].
Qed.

Section Sha512Spec.
Context `{OsAlloc}.

(** With memory for the message schedule ... *)
Lemma sha384_vector_absorb stack addr :
  malloc_ok (80 * 8) = true -> length stack = 128%nat ->
  sha384_vector stack addr = Some (sha384_absorb (concat addr)).
Proof.
  intros Hm Hs. assert (sha512_compress = (fun st b => Some (sha512_block st b))) as E.
  { unfold sha512_compress. now rewrite Hm. }
  unfold sha384_vector, sha384_init, sha384_done, sha512_done. rewrite E. assert (0 < 128)%nat as HB by lia.
  set (iv := [0xcbbb9d5dc1059ed8; _; _; _; _; _; _; _]).
  destruct (ltc_vector_rep 128 sha512_block HB addr _ _ _ _ (ltc_rep_init 128 iv stack HB Hs)) as (md & -> & Hr).
  rewrite (proj2 (Nat.leb_gt _ _)) by (rewrite (lr_curlen _ _ _ _ _ Hr); apply (lr_short _ _ _ _ _ Hr)).
  cbn [app Nat.add] in Hr. rewrite (ltc_done_spec 128 sha512_block HB 112 120 put_be64 md _ _ _ Hr) by lia.
  now rewrite <- absorb_app.
Qed.

(** ... and without: the failure of the compression function is noticed while data
    is added, and not at the end; a message of less than a block has the initial
    state as its hash. *)
Lemma sha512_vector_no_memory stack m :
  malloc_ok (80 * 8) = false -> length stack = 128%nat -> (length m < 128)%nat ->
  sha512_vector stack [m] = Some (concat (put_be64 <$> md_state (sha512_init []))).
Proof.
  intros Hm Hs Hl. assert (sha512_compress = (fun st b => None)) as E.
  { unfold sha512_compress. now rewrite Hm. }
  unfold sha512_vector, sha512_done. rewrite E. cbn [ltc_vector].
  destruct (ltc_process_short 128 (sha512_init stack) m) as (md & -> & Es & Ec); [done | exact Hl|].
  unfold ltc_done. rewrite Ec, (proj2 (Nat.leb_gt _ _)) by lia. cbn [md_state over ltc_zeros ltc_compress_buf default].
  destruct (_ <? _)%nat; cbn [md_state over ltc_zeros ltc_compress_buf default];
    unfold ltc_zeros, ltc_compress_buf; cbn [md_state over default id]; rewrite Es; reflexivity.
Qed.
End Sha512Spec.
