(* ===== verification/HashFips.v ===== *)
(** * The hash functions of FIPS 180-4 and RFC 1321

    The standards, written without the code: constants from the square and cube roots
    of primes and from the sine, message schedules as recurrences, padding as the
    smallest number of zeros, blocks as slices of the padded message.  The internal
    MD5, SHA-1, SHA-256, SHA-384 and SHA-512 of src/crypto compute them.

    Nothing of the models of the source is used in the Modules [Standard], [Fips180]
    and [Rfc1321]. *)

From S2P Require Import Prelude HashMd HashMd5 HashSha1 HashSha2 Wpabuf.
From Stdlib Require Import Btauto.

Module Standard.

(** ** Words *)

Definition add (w : Z) (l : list Z) : Z := fold_right Z.add 0 l mod 2 ^ w.
Definition ROTR (w n x : Z) : Z := Z.lor (Z.shiftr x n) (Z.shiftl x (w - n) mod 2 ^ w).
Definition ROTL (w n x : Z) : Z := Z.lor (Z.shiftl x n mod 2 ^ w) (Z.shiftr x (w - n)).

(** Words of [k] bytes in big-endian and in little-endian order. *)
Definition of_be (l : bytes) : Z := fold_left (fun acc b => 256 * acc + b) l 0.
Definition to_be (k : nat) (x : Z) : bytes := (fun i => x / 256 ^ Z.of_nat (k - 1 - i) mod 256) <$> seq 0 k.
Definition of_le (l : bytes) : Z := of_be (rev l).
Definition to_le (k : nat) (x : Z) : bytes := rev (to_be k x).

(** ** Messages

    One bit 1, the smallest number of zeros that makes the length with the [L] bytes of
    the length field a multiple of the block size [B], and the length field. *)
Definition pad (B : nat) (len : bytes) (m : bytes) : bytes :=
  m ++ [0x80] ++ replicate (Z.to_nat ((- (zlen m + 1 + zlen len)) mod Z.of_nat B)) 0 ++ len.

Definition blocks (B : nat) (m : bytes) : list bytes :=
  (fun i => slice (B * i) B m) <$> seq 0 (length m / B).

(** The words of a block. *)
Definition block_words (k : nat) (read : bytes -> Z) (b : bytes) : list Z :=
  (fun i => read (slice (k * i) k b)) <$> seq 0 16.

(** ** Constants *)

(** The greatest [r] below [2 ^ 80] with [r ^ k <= n]. *)
Definition root (k n : Z) : Z :=
  fold_left (fun r i => if (r + 2 ^ i) ^ k <=? n then r + 2 ^ i else r) (rev (Z.of_nat <$> seq 0 80)) 0.

Definition is_prime (n : Z) : bool :=
  (2 <=? n) && forallb (fun d => negb (n mod Z.of_nat d =? 0)) (seq 2 (Z.to_nat n - 2)).
(** The first 80 primes. *)
Definition primes : list Z := List.filter is_prime (Z.of_nat <$> seq 2 408).

(** The first [w] bits of the fractional part of the [k]-th root of [p]. *)
Definition root_bits (w k p : Z) : Z := root k (p * 2 ^ (k * w)) mod 2 ^ w.
End Standard.

Module Fips180.
Import Standard.

(** ** Functions (section 4.1) *)

Definition Ch (x y z : Z) : Z := Z.lxor (Z.land x y) (Z.land (Z.lnot x) z).
Definition Parity (x y z : Z) : Z := Z.lxor (Z.lxor x y) z.
Definition Maj (x y z : Z) : Z := Z.lxor (Z.lxor (Z.land x y) (Z.land x z)) (Z.land y z).

(** ** SHA-1 (section 6.1) *)

(** The constants are the square roots of 2, 3, 5 and 10, times [2 ^ 30]. *)
Definition sha1_K (t : nat) : Z :=
  root 2 (nth (t / 20) [2; 3; 5; 10] 0 * 2 ^ 60).
Definition sha1_f (t : nat) : Z -> Z -> Z -> Z := nth (t / 20) [Ch; Parity; Maj; Parity] Ch.

Definition sha1_next_W (W : list Z) : Z :=
  let t := length W in
  ROTL 32 1 (Z.lxor (Z.lxor (Z.lxor (nth (t - 3) W 0) (nth (t - 8) W 0)) (nth (t - 14) W 0)) (nth (t - 16) W 0)).

Definition sha1_step (W : list Z) (v : Z * Z * Z * Z * Z) (t : nat) : Z * Z * Z * Z * Z :=
  let '(a, b, c, d, e) := v in
  let T := add 32 [ROTL 32 5 a; sha1_f t b c d; e; sha1_K t; nth t W 0] in
  (T, a, ROTL 32 30 b, c, d).

Definition sha1_compress (H : list Z) (block : bytes) : list Z :=
  match H with
  | [H0; H1; H2; H3; H4] =>
      let W := extend sha1_next_W 64 (block_words 4 of_be block) in
      let '(a, b, c, d, e) := fold_left (sha1_step W) (seq 0 80) (H0, H1, H2, H3, H4) in
      [add 32 [a; H0]; add 32 [b; H1]; add 32 [c; H2]; add 32 [d; H3]; add 32 [e; H4]]
  | _ => H
  end.

Definition sha1_H0 : list Z := [0x67452301; 0xefcdab89; 0x98badcfe; 0x10325476; 0xc3d2e1f0].

Definition sha1_spec (m : bytes) : bytes :=
  concat (to_be 4 <$> fold_left sha1_compress (blocks 64 (pad 64 (to_be 8 (8 * zlen m)) m)) sha1_H0).

(** ** SHA-256, SHA-384 and SHA-512 (sections 6.2, 6.4 and 6.5) *)

(** What the two word sizes differ in: the rotations, the number of rounds. *)
Record sha2_params := {
  w : Z;
  Sigma0 : Z -> Z;
  Sigma1 : Z -> Z;
  sigma0 : Z -> Z;
  sigma1 : Z -> Z;
  rounds : nat
}.

Definition xor3 (a b c : Z) : Z := Z.lxor (Z.lxor a b) c.

Definition params32 : sha2_params := {|
  w := 32;
  Sigma0 x := xor3 (ROTR 32 2 x) (ROTR 32 13 x) (ROTR 32 22 x);
  Sigma1 x := xor3 (ROTR 32 6 x) (ROTR 32 11 x) (ROTR 32 25 x);
  sigma0 x := xor3 (ROTR 32 7 x) (ROTR 32 18 x) (Z.shiftr x 3);
  sigma1 x := xor3 (ROTR 32 17 x) (ROTR 32 19 x) (Z.shiftr x 10);
  rounds := 64
|}.

Definition params64 : sha2_params := {|
  w := 64;
  Sigma0 x := xor3 (ROTR 64 28 x) (ROTR 64 34 x) (ROTR 64 39 x);
  Sigma1 x := xor3 (ROTR 64 14 x) (ROTR 64 18 x) (ROTR 64 41 x);
  sigma0 x := xor3 (ROTR 64 1 x) (ROTR 64 8 x) (Z.shiftr x 7);
  sigma1 x := xor3 (ROTR 64 19 x) (ROTR 64 61 x) (Z.shiftr x 6);
  rounds := 80
|}.

Definition sha2_next_W (p : sha2_params) (W : list Z) : Z :=
  let t := length W in
  add (w p) [sigma1 p (nth (t - 2) W 0); nth (t - 7) W 0; sigma0 p (nth (t - 15) W 0); nth (t - 16) W 0].

(** The constants are the cube roots of the first primes. *)
Definition sha2_step (p : sha2_params) (K W : list Z) (v : list Z) (t : nat) : list Z :=
  match v with
  | [a; b; c; d; e; f; g; h] =>
      let T1 := add (w p) [h; Sigma1 p e; Ch e f g; nth t K 0; nth t W 0] in
      let T2 := add (w p) [Sigma0 p a; Maj a b c] in
      [add (w p) [T1; T2]; a; b; c; add (w p) [d; T1]; e; f; g]
  | _ => v
  end.

Definition sha2_K (p : sha2_params) : list Z := root_bits (w p) 3 <$> take (rounds p) primes.

Definition sha2_compress (p : sha2_params) (K : list Z) (k : nat) (H : list Z) (block : bytes) : list Z :=
  let W := extend (sha2_next_W p) (rounds p - 16) (block_words k of_be block) in
  zip_with (fun x y => add (w p) [x; y]) (fold_left (sha2_step p K W) (seq 0 (rounds p)) H) H.

(** The initial values are the square roots of the first eight primes, and of the next
    eight for SHA-384. *)
Definition sha256_H0 : list Z := root_bits 32 2 <$> take 8 primes.
Definition sha512_H0 : list Z := root_bits 64 2 <$> take 8 primes.
Definition sha384_H0 : list Z := root_bits 64 2 <$> take 8 (drop 8 primes).

Definition sha256_spec (m : bytes) : bytes :=
  concat (to_be 4 <$> fold_left (sha2_compress params32 (sha2_K params32) 4)
    (blocks 64 (pad 64 (to_be 8 (8 * zlen m)) m)) sha256_H0).

Definition sha2_64 (H0 : list Z) (m : bytes) : bytes :=
  concat (to_be 8 <$> fold_left (sha2_compress params64 (sha2_K params64) 8)
    (blocks 128 (pad 128 (to_be 16 (8 * zlen m)) m)) H0).
Definition sha512_spec : bytes -> bytes := sha2_64 sha512_H0.
Definition sha384_spec (m : bytes) : bytes := take 48 (sha2_64 sha384_H0 m).
End Fips180.

Module Rfc1321.
Import Standard.

(** ** MD5 (section 3.4) *)

(** The complement of a 32-bit word. *)
Definition not32 (z : Z) : Z := Z.lxor z 0xffffffff.

Definition F (x y z : Z) : Z := Z.lor (Z.land x y) (Z.land (Z.lnot x) z).
Definition G (x y z : Z) : Z := Z.lor (Z.land x z) (Z.land y (Z.lnot z)).
Definition H (x y z : Z) : Z := Z.lxor (Z.lxor x y) z.
Definition I (x y z : Z) : Z := Z.lxor y (Z.lor x (not32 z)).

(** [sin i] in units of [2 ^ -200], by 160 terms of its power series. *)
Definition sin_fix (i : Z) : Z :=
  fst (fold_left (fun '(sum, term) k => (sum + term, - (term * i * i) / ((2 * k + 2) * (2 * k + 3))))
         (Z.of_nat <$> seq 0 160) (0, i * 2 ^ 200)).
(** The integer part of [4294967296 * abs (sin i)]. *)
Definition T (i : nat) : Z := Z.abs (sin_fix (Z.of_nat i)) / 2 ^ 168.

(** Operation [i] of the four rounds: the function, the word of the block, the shift. *)
Definition md5_fun (i : nat) : Z -> Z -> Z -> Z := nth (i / 16) [F; G; H; I] F.
Definition md5_k (i : nat) : nat := (nth (i / 16) [i; 5 * i + 1; 3 * i + 5; 7 * i] 0 mod 16)%nat.
Definition md5_s (i : nat) : Z :=
  nth (i mod 4) (nth (i / 16) [[7; 12; 17; 22]; [5; 9; 14; 20]; [4; 11; 16; 23]; [6; 10; 15; 21]] []) 0.

Definition md5_step (X : list Z) (v : Z * Z * Z * Z) (i : nat) : Z * Z * Z * Z :=
  let '(a, b, c, d) := v in
  let a := add 32 [b; ROTL 32 (md5_s i) (add 32 [a; md5_fun i b c d; nth (md5_k i) X 0; T (i + 1)])] in
  (d, a, b, c).

Definition md5_compress (S : list Z) (block : bytes) : list Z :=
  match S with
  | [A; B; C; D] =>
      let X := block_words 4 of_le block in
      let '(a, b, c, d) := fold_left (md5_step X) (seq 0 64) (A, B, C, D) in
      [add 32 [a; A]; add 32 [b; B]; add 32 [c; C]; add 32 [d; D]]
  | _ => S
  end.

Definition md5_init : list Z := [0x67452301; 0xefcdab89; 0x98badcfe; 0x10325476].

Definition md5_spec (m : bytes) : bytes :=
  concat (to_le 4 <$> fold_left md5_compress (blocks 64 (pad 64 (to_le 8 (8 * zlen m)) m)) md5_init).
End Rfc1321.
Import Standard.

(** ** Facts about the standards *)

(** [root k n] is the integer [k]-th root. *)
Lemma root_spec k n : 0 < k -> 0 <= n < (2 ^ 80) ^ k -> root k n ^ k <= n < (root k n + 1) ^ k.
Proof.
  intros Hk Hn. unfold root. change (rev (Z.of_nat <$> seq 0 80)) with ((fun i => Z.of_nat (79 - i)) <$> seq 0 80).
  rewrite fold_left_map || idtac.
  set (f := fun r i => if (r + 2 ^ i) ^ k <=? n then r + 2 ^ i else r).
  assert (forall l r, fold_left f ((fun i => Z.of_nat (79 - i)) <$> l) r
          = fold_left (fun r i => f r (Z.of_nat (79 - i))) l r) as E
    by (induction l; intros r; cbn [fmap list_fmap fold_left]; auto).
  rewrite E. clear E.
  assert (0 <= fold_left (fun r i => f r (Z.of_nat (79 - i))) (seq 0 80) 0
    /\ let r := fold_left (fun r i => f r (Z.of_nat (79 - i))) (seq 0 80) 0 in
       r ^ k <= n < (r + 2 ^ Z.of_nat (80 - 80)) ^ k) as [_ H]; [|exact H].
  apply (fold_seq_inv (fun i r => 0 <= r /\ r ^ k <= n < (r + 2 ^ Z.of_nat (80 - i)) ^ k)).
  - intros i r Hi (H0 & H1 & H2). unfold f.
    replace (Z.of_nat (79 - i)) with (Z.of_nat (80 - S i)) by lia.
    assert (2 ^ Z.of_nat (80 - i) = 2 ^ Z.of_nat (80 - S i) + 2 ^ Z.of_nat (80 - S i)) as E.
    { replace (Z.of_nat (80 - i)) with (Z.of_nat (80 - S i) + 1) by lia. rewrite Z.pow_add_r by lia. lia. }
    rewrite E, Z.add_assoc in H2. destruct (Z.leb_spec ((r + 2 ^ Z.of_nat (80 - S i)) ^ k) n).
    + split; [|done]. pose proof (Z.pow_nonneg 2 (Z.of_nat (80 - S i))). lia.
    + split; [done|]. split; [done | lia].
  - split; [lia|]. rewrite Z.pow_0_l by done. change (Z.of_nat (80 - 0)) with 80. rewrite Z.add_0_l. lia.
Qed.

Lemma eighty_primes : length primes = 80%nat.
Proof. vm_compute. reflexivity. Qed.

(** ** Blocks *)

Lemma blocks_cons B l : (0 < B)%nat -> (B <= length l)%nat -> blocks B l = take B l :: blocks B (drop B l).
Proof.
  intros HB Hl. unfold blocks. rewrite length_drop.
  assert (length l / B = S ((length l - B) / B))%nat as ->.
  { replace (length l) with (length l - B + 1 * B)%nat at 1 by lia. rewrite Nat.div_add by lia. lia. }
  cbn [seq fmap list_fmap]. f_equal; [unfold slice; now rewrite Nat.mul_0_r, drop_0|].
  rewrite <- seq_shift, <- list_fmap_compose. apply list_fmap_ext. intros _ i _. unfold compose, slice.
  rewrite drop_drop. f_equal. f_equal. lia.
Qed.

Lemma blocks_nil B l : (length l < B)%nat -> blocks B l = [].
Proof. intros H. unfold blocks. now rewrite Nat.div_small. Qed.

(** Absorbing a message is folding over its blocks, with a function that agrees on states
    in [P] and whole blocks. *)
Lemma absorb_blocks {St} (P : St -> Prop) B comp comp' : (0 < B)%nat ->
  (forall st b, P st -> length b = B -> comp st b = comp' st b /\ P (comp st b)) ->
  forall st l, P st -> (absorb B comp st l).1 = fold_left comp' (blocks B l) st.
Proof.
  intros HB Hc. apply (absorb_ind B comp HB (fun st l => P st -> _)).
  - intros st l H _. now rewrite absorb_short, blocks_nil.
  - intros st l H IH Hst. rewrite absorb_block, blocks_cons by done. cbn [fold_left].
    destruct (Hc st (take B l) Hst) as [E HP]; [rewrite length_take; lia|].
    rewrite IH by exact HP. now rewrite <- E.
Qed.

Lemma pad_eq B len m : (length len < B)%nat -> m ++ md_pad B len (length m) = pad B len m.
Proof.
  intros HB. unfold md_pad, pad. cbn [app]. do 4 f_equal. 
  set (n := length m). unfold zlen. fold n. pose proof (Nat.div_mod_eq n B) as E.
  pose proof (Nat.mod_upper_bound n B ltac:(lia)) as Hr. set (q := (n / B)%nat) in *. set (r := (n mod B)%nat) in *.
  clearbody q r. rewrite <- (Nat2Z.id (_ mod B)), Nat2Z.inj_mod. f_equal.
  replace (- (Z.of_nat n + 1 + Z.of_nat (length len)))
    with (Z.of_nat (2 * B - 1 - length len - r) + (- Z.of_nat q - 2) * Z.of_nat B) by nia.
  now rewrite Z.mod_add by lia.
Qed.

(** ** Words *)

Lemma to_be_4 n : to_be 4 n = put_be32 n.
Proof. unfold to_be, put_be32. cbn [fmap list_fmap seq]. unfold wrap. cbn -[Z.modulo Z.div Z.pow]. now rewrite Z.div_1_r. Qed.

Lemma put_be32_high n : put_be32 (n / 2 ^ 32)
  = [u8 (n / 2 ^ 56); u8 (n / 2 ^ 48); u8 (n / 2 ^ 40); u8 (n / 2 ^ 32)].
Proof. unfold put_be32. now rewrite !Z.div_div by lia. Qed.

Lemma to_be_8 n : to_be 8 n = put_be64 n.
Proof.
  unfold put_be64. rewrite put_be32_high. rewrite <- to_be_4.
  unfold to_be. cbn [fmap list_fmap seq app]. unfold wrap. reflexivity.
Qed.

Lemma get_be32_slice l i : (4 * i + 4 <= length l)%nat -> get_be32 (drop (4 * i) l) = of_be (slice (4 * i) 4 l).
Proof.
  intros Hl. unfold slice. assert (4 <= length (drop (4 * i) l))%nat as H by (rewrite length_drop; lia).
  revert H. generalize (drop (4 * i) l). intros k Hk. do 4 (destruct k as [|? k]; [simpl in Hk; lia|]).
  unfold get_be32, get_be16, of_be. cbn -[Z.add Z.mul]. rewrite take_0. cbn [fold_left]. lia.
Qed.

Lemma fold_be l a : fold_left (fun acc b => 256 * acc + b) l a = a * 256 ^ zlen l + of_be l.
Proof.
  revert a. induction l as [|x l IH]; intros a.
  { cbn [fold_left]. change (zlen []) with 0. change (of_be []) with 0. rewrite Z.pow_0_r. lia. }
  unfold of_be. cbn [fold_left]. rewrite (IH (256 * a + x)), (IH (256 * 0 + x)), zlen_cons.
  rewrite Z.pow_add_r by (pose proof (zlen_nonneg l); lia). lia.
Qed.

Lemma of_be_app a b : of_be (a ++ b) = of_be a * 256 ^ zlen b + of_be b.
Proof. unfold of_be at 1. rewrite fold_left_app, fold_be. reflexivity. Qed.

Lemma get_be64_slice l i : (8 * i + 8 <= length l)%nat -> get_be64 (drop (8 * i) l) = of_be (slice (8 * i) 8 l).
Proof.
  intros Hl. unfold slice. assert (8 <= length (drop (8 * i) l))%nat as H by (rewrite length_drop; lia).
  revert H. generalize (drop (8 * i) l). intros k Hk. do 8 (destruct k as [|? k]; [simpl in Hk; lia|]).
  unfold get_be64, get_be32, get_be16, of_be. cbn -[Z.add Z.mul Z.pow]. rewrite take_0. cbn [fold_left]. lia.
Qed.

Lemma get_le32_slice l i : (4 * i + 4 <= length l)%nat -> get_le32 (drop (4 * i) l) = of_le (slice (4 * i) 4 l).
Proof.
  intros Hl. unfold slice. assert (4 <= length (drop (4 * i) l))%nat as H by (rewrite length_drop; lia).
  revert H. generalize (drop (4 * i) l). intros k Hk. do 4 (destruct k as [|? k]; [simpl in Hk; lia|]).
  unfold get_le32, of_le, of_be. cbn -[Z.add Z.mul take]. cbn [take]. rewrite take_0. cbn -[Z.add Z.mul]. lia.
Qed.

(** The words of a whole block, read in the way of the source. *)
Lemma block_words_eq k read get b :
  (forall i, (k * i + k <= length b)%nat -> get (drop (k * i) b) = read (slice (k * i) k b)) ->
  length b = (k * 16)%nat ->
  (fun i => get (drop (k * i) b)) <$> seq 0 16 = block_words k read b.
Proof.
  intros H Hb. apply list_fmap_ext. intros j i Hi. apply lookup_seq in Hi as [-> Hj]. apply H. rewrite Hb. nia.
Qed.

(** A property of the numbers below [n], by computation. *)
Lemma forall_below n (p : nat -> bool) i : forallb p (seq 0 n) = true -> (i < n)%nat -> p i = true.
Proof. intros H Hi. rewrite forallb_forall in H. apply H, in_seq. lia. Qed.

Ltac bit_identity := apply Z.bits_inj'; intros ? ?;
  repeat first [rewrite Z.lxor_spec | rewrite Z.land_spec | rewrite Z.lor_spec | rewrite Z.lnot_spec by done];
  btauto.

(** ** MD5 *)

Section Md5.
Import Rfc1321.

Lemma md5_table : md5_steps = (fun i => (md5_k i, T (i + 1), md5_s i)) <$> seq 0 64.
Proof. vm_compute. reflexivity. Qed.

Lemma F_eq x y z : F1 x y z = F x y z. Proof. unfold F1, F. bit_identity. Qed.
Lemma G_eq x y z : F2 x y z = G x y z. Proof. unfold F2, F1, G. bit_identity. Qed.

Lemma md5_fun_eq i x y z : (i < 64)%nat -> md5_f i x y z = md5_fun i x y z.
Proof.
  intros Hi. unfold md5_f, md5_fun.
  pose proof (forall_below 64 (fun i => i / 16 =? if i <? 16 then 0 else if i <? 32 then 1 else if i <? 48 then 2 else 3)%nat
    i eq_refl Hi) as ->%Nat.eqb_eq.
  destruct (i <? 16)%nat; [apply F_eq|]. destruct (i <? 32)%nat; [apply G_eq|].
  now destruct (i <? 48)%nat.
Qed.

Lemma md5_step_eq X v i : (i < 64)%nat -> md5_round X v i = md5_step X v i.
Proof.
  intros Hi. unfold md5_round. rewrite md5_table.
  rewrite nth_lookup, list_lookup_fmap, lookup_seq_lt by done. cbn [fmap option_fmap option_map default].
  destruct v as [[[a b] c] d]. unfold MD5STEP, md5_step, md5_word. rewrite md5_fun_eq by done.
  change (rotl 32) with (fun v n => ROTL 32 n v). cbn beta. unfold wrap, add. cbn [fold_right].
  cbn beta iota delta [id Nat.add]. rewrite !Z.add_0_r. now rewrite (Z.add_comm (ROTL _ _ _)).
Qed.

Lemma md5_compress_eq st b : length st = 4%nat -> length b = 64%nat ->
  MD5Transform st b = md5_compress st b /\ length (MD5Transform st b) = 4%nat.
Proof.
  intros Hs Hb. do 4 (destruct st as [|? st]; [discriminate|]). destruct st; [|discriminate].
  unfold MD5Transform, md5_compress, md5_word. cbn [nth].
  rewrite (block_words_eq 4 of_le get_le32) by (apply get_le32_slice || done).
  assert (forall v, fold_left (md5_round (block_words 4 of_le b)) (seq 0 64) v
    = fold_left (md5_step (block_words 4 of_le b)) (seq 0 64) v) as ->.
  { intros v. apply (fold_seq_inv (fun i s => s = fold_left (md5_step _) (seq 0 i) v)); [|done].
    intros i s Hi ->. rewrite seq_S, fold_left_app. now apply md5_step_eq. }
  destruct (fold_left _ _ _) as [[[a' b'] c'] d']. split; [|done].
  unfold add, wrap. cbn [fold_right]. rewrite !Z.add_0_r.
  now rewrite (Z.add_comm a'), (Z.add_comm b'), (Z.add_comm c'), (Z.add_comm d').
Qed.

Lemma to_le_8 n : to_le 8 n = put_le32 n ++ put_le32 (n / 2 ^ 32).
Proof.
  unfold to_le. rewrite to_be_8. unfold put_be64. rewrite rev_app_distr. reflexivity.
Qed.

Lemma to_le_4 n : to_le 4 n = put_le32 n.
Proof. unfold to_le. now rewrite to_be_4. Qed.

Lemma md5_absorb_spec m : md5_absorb m = md5_spec m.
Proof.
  unfold md5_absorb, md5_spec. cbv zeta. pose proof (zlen_nonneg m).
  rewrite pad_eq by (cbn; lia). rewrite <- to_le_8.
  rewrite (absorb_blocks (fun st => length st = 4%nat) 64 _ md5_compress) by (lia || done || apply md5_compress_eq).
  f_equal. apply list_fmap_ext. intros _ w _. symmetry. apply to_le_4.
Qed.
End Md5.

(** ** SHA-1 *)

Section Sha1.
Import Fips180.

Lemma maj_eq x y z : Z.lor (Z.land (Z.lor x y) z) (Z.land x y) = Maj x y z.
Proof. unfold Maj. bit_identity. Qed.
Lemma ch_eq x y z : Z.lxor (Z.land x (Z.lxor y z)) z = Ch x y z.
Proof. unfold Ch. bit_identity. Qed.

Lemma sha1_f_eq i x y z : (i < 80)%nat -> HashSha1.sha1_f i x y z = sha1_f i x y z.
Proof.
  intros Hi. unfold HashSha1.sha1_f, sha1_f.
  pose proof (forall_below 80 (fun i => i / 20 =? if i <? 20 then 0 else if i <? 40 then 1 else if i <? 60 then 2 else 3)%nat
    i eq_refl Hi) as ->%Nat.eqb_eq.
  destruct (i <? 20)%nat; [apply ch_eq|]. destruct (i <? 40)%nat; [done|].
  destruct (i <? 60)%nat; [apply maj_eq | done].
Qed.

Lemma sha1_k_eq i : (i < 80)%nat -> sha1_k i = sha1_K i.
Proof.
  intros Hi. assert (forallb (fun i => sha1_k i =? sha1_K i) (seq 0 80) = true) as H by (vm_compute; reflexivity).
  pose proof (forall_below 80 (fun i => sha1_k i =? sha1_K i) i H Hi) as E. now apply Z.eqb_eq in E.
Qed.

(** The block of the source before round [i]: the word with index [j mod 16] is the latest [W]. *)
Definition window (W : list Z) (i : nat) (l : list Z) : Prop :=
  length l = 16%nat /\ forall j, (i <= j + 16)%nat -> (j < Nat.max 16 i)%nat -> wordl l (j mod 16) = nth j W 0.

Lemma window_at W i l j k : window W i l -> (i <= j + 16)%nat -> (j < Nat.max 16 i)%nat -> k = (j mod 16)%nat ->
  wordl l k = nth j W 0.
Proof. intros [_ H] H1 H2 ->. now apply H. Qed.

Lemma mod16_back i k n : (16 <= i)%nat -> (k + n = 16)%nat -> ((i + k) mod 16 = (i - n) mod 16)%nat.
Proof. intros Hi Hk. replace (i + k)%nat with (i - n + 1 * 16)%nat by lia. apply Nat.Div0.mod_add. Qed.

(** The schedule of the standard over a block. *)
Definition schedule (M W : list Z) : Prop :=
  length W = 80%nat /\ (forall j, (j < 16)%nat -> nth j W 0 = nth j M 0) /\
  forall i, (16 <= i < 80)%nat -> nth i W 0 =
    ROTL 32 1 (Z.lxor (Z.lxor (Z.lxor (nth (i - 3) W 0) (nth (i - 8) W 0)) (nth (i - 14) W 0)) (nth (i - 16) W 0)).

Lemma schedule_extend M : length M = 16%nat -> schedule M (extend sha1_next_W 64 M).
Proof.
  intros HM. pose proof (length_extend sha1_next_W 64 M) as HW. rewrite HM in HW.
  split; [exact HW|]. split; [intros j Hj; apply extend_old; now rewrite HM|].
  intros i Hi. rewrite (extend_new _ _ 64 M i) by (rewrite HM; exact Hi).
  revert HW. generalize (extend sha1_next_W 64 M). intros W HW. unfold sha1_next_W.
  rewrite length_take, HW, Nat.min_l by lia. now rewrite !nth_take_lt by lia.
Qed.

Lemma blk_window M W i l : schedule M W -> (i < 80)%nat -> window W i l ->
  window W (S i) (blk i l) /\ wordl (blk i l) (i mod 16) = nth i W 0.
Proof.
  intros (HW & _ & HS) Hi H. unfold blk. destruct (Nat.ltb_spec i 16) as [Hs | Hb].
  { split; [|apply (window_at W i l); [exact H | lia | lia | done]].
    split; [apply H|]. intros j H1 H2. apply H; lia. }
  assert (rol (Z.lxor (Z.lxor (Z.lxor (wordl l ((i + 13) mod 16)) (wordl l ((i + 8) mod 16)))
                              (wordl l ((i + 2) mod 16))) (wordl l (i mod 16))) 1 = nth i W 0) as E.
  { rewrite (window_at W i l (i - 3)), (window_at W i l (i - 8)), (window_at W i l (i - 14)), (window_at W i l (i - 16))
      by (exact H || lia || (apply mod16_back; lia) || (rewrite <- (mod16_back i 0 16), Nat.add_0_r by lia; reflexivity)).
    rewrite (HS i) by lia. reflexivity. }
  rewrite E. clear E. destruct H as [Hl H]. pose proof (Nat.mod_upper_bound i 16 ltac:(lia)) as Hm.
  assert (forall j, wordl (<[(i mod 16)%nat := nth i W 0]> l) (j mod 16)
    = if decide (i mod 16 = j mod 16)%nat then nth i W 0 else wordl l (j mod 16)) as Hw.
  { intros j. unfold wordl. rewrite !nth_lookup. destruct (decide _) as [<- | Hn].
    - now rewrite list_lookup_insert_eq by lia.
    - now rewrite list_lookup_insert_ne by done. }
  split; [|rewrite Hw; now rewrite decide_True]. split; [now rewrite length_insert|]. intros j H1 H2. rewrite Hw.
  destruct (decide _) as [Heq | Hn]; [|apply H; [lia|]; destruct (Nat.eq_dec j i); [subst; done | lia]].
  f_equal. pose proof (Nat.div_mod_eq i 16). pose proof (Nat.div_mod_eq j 16). lia.
Qed.

Lemma sha1_round_eq M W i v l : schedule M W -> (i < 80)%nat -> window W i l ->
  exists l', sha1_round (v, l) i = (sha1_step W v i, l') /\ window W (S i) l'.
Proof.
  intros HS Hi H. destruct (blk_window M W i l HS Hi H) as [Hw Ew].
  exists (blk i l). split; [|exact Hw]. destruct v as [[[[a b] c] d] e]. unfold sha1_round, sha1_step.
  rewrite Ew, sha1_f_eq, sha1_k_eq by done. unfold rol. change (rotl 32) with (fun v n => ROTL 32 n v). cbn beta.
  unfold add, wrap. cbn [fold_right]. do 6 f_equal. lia.
Qed.

Lemma sha1_compress_eq st b : length st = 5%nat -> length b = 64%nat ->
  SHA1Transform st b = sha1_compress st b /\ length (SHA1Transform st b) = 5%nat.
Proof.
  intros Hs Hb. split; [|apply SHA1Transform_length].
  do 5 (destruct st as [|? st]; [discriminate|]). destruct st; [|discriminate].
  unfold SHA1Transform, sha1_compress. cbn [wordl nth].
  rewrite (block_words_eq 4 of_be get_be32) by (apply get_be32_slice || done).
  set (M := block_words 4 of_be b). assert (length M = 16%nat) as HM by done. clearbody M.
  pose proof (schedule_extend M HM) as HS. revert HS. generalize (extend sha1_next_W 64 M). intros W HS.
  set (v := (z, z0, z1, z2, z3)).
  assert (exists l', fold_left sha1_round (seq 0 80) (v, M) = (fold_left (sha1_step W) (seq 0 80) v, l') /\ window W 80 l')
    as (l' & -> & _).
  { apply (fold_seq_inv (fun i s => exists l', s = (fold_left (sha1_step W) (seq 0 i) v, l') /\ window W i l')).
    - intros i s Hi (l & -> & Hw). destruct (sha1_round_eq M W i (fold_left (sha1_step W) (seq 0 i) v) l HS Hi Hw) as (l' & E & Hw').
      exists l'. rewrite seq_S, fold_left_app. split; [exact E | exact Hw'].
    - exists M. split; [done|]. split; [done|]. intros j _ Hj. cbn [Nat.max] in Hj.
      unfold wordl. rewrite Nat.mod_small by lia. symmetry. now apply HS. }
  unfold v. destruct (fold_left _ _ _) as [[[[a b'] c] d] e].
  unfold add, wrap. cbn [fold_right]. rewrite !Z.add_0_r.
  now rewrite (Z.add_comm a), (Z.add_comm b'), (Z.add_comm c), (Z.add_comm d), (Z.add_comm e).
Qed.

Lemma sha1_absorb_spec m : sha1_absorb m = sha1_spec m.
Proof.
  unfold sha1_absorb, sha1_spec. cbv zeta. pose proof (zlen_nonneg m).
  rewrite pad_eq by (cbn; lia). change (put_be32 (8 * zlen m / 2 ^ 32) ++ put_be32 (8 * zlen m)) with (put_be64 (8 * zlen m)).
  rewrite <- to_be_8.
  rewrite (absorb_blocks (fun st => length st = 5%nat) 64 _ sha1_compress) by (lia || done || apply sha1_compress_eq).
  f_equal. apply list_fmap_ext. intros _ w _. symmetry. apply to_be_4.
Qed.
End Sha1.

(** ** SHA-256, SHA-384 and SHA-512 *)

Section Sha2.
Import Fips180.

Lemma K256_eq : K256 = sha2_K params32. Proof. vm_compute. reflexivity. Qed.
Lemma K512_eq : K512 = sha2_K params64. Proof. vm_compute. reflexivity. Qed.

Lemma ch2_eq x y z : HashSha2.Ch x y z = Ch x y z. Proof. unfold HashSha2.Ch, Ch. bit_identity. Qed.
Lemma maj2_eq x y z : HashSha2.Maj x y z = Maj x y z. Proof. apply maj_eq. Qed.

(** The schedule of the source grows at its end. *)
Lemma iter_extend (next : list Z -> list Z) (g : list Z -> Z) n M :
  (forall W, next W = W ++ [g W]) -> Nat.iter n next M = extend g n M.
Proof. intros H. induction n as [|n IH]; [done|]. cbn [Nat.iter nat_rect]. rewrite extend_S, H. unfold Nat.iter in IH. now rewrite IH. Qed.

Ltac sum_mod := unfold add, wrap; cbn [fold_right]; f_equal; lia.

Lemma w_next256_eq W : w_next256 W = W ++ [sha2_next_W params32 W].
Proof.
  unfold w_next256, sha2_next_W. cbv zeta. unfold wordn.
  change Gamma1_256 with (sigma1 params32). change Gamma0_256 with (sigma0 params32).
  change (w params32) with 32. do 2 f_equal. sum_mod.
Qed.
Lemma w_next512_eq W : w_next512 W = W ++ [sha2_next_W params64 W].
Proof.
  unfold w_next512, sha2_next_W. cbv zeta. unfold wordn.
  change Gamma1_512 with (sigma1 params64). change Gamma0_512 with (sigma0 params64).
  change (w params64) with 64. do 2 f_equal. sum_mod.
Qed.

Ltac eight v := do 8 (destruct v as [|? v]; [discriminate|]); destruct v; [|discriminate].

Lemma add_2 n a b : add n [a; b] = wrap n (a + b).
Proof. unfold add, wrap. cbn [fold_right]. now rewrite Z.add_0_r. Qed.
Lemma add_5 n a b c d e : add n [a; b; c; d; e] = wrap n (a + b + c + d + e).
Proof. sum_mod. Qed.

#[local] Opaque K256 K512.

Lemma rnd256_eq W v i : length v = 8%nat -> rnd256 W v i = sha2_step params32 K256 W v i.
Proof.
  intros Hv. eight v. unfold rnd256, sha2_step, wordn. cbn [nth]. cbv zeta. rewrite ch2_eq, maj2_eq.
  change Sigma1_256 with (Sigma1 params32). change Sigma0_256 with (Sigma0 params32). change (w params32) with 32.
  now rewrite !add_2, !add_5.
Qed.

Lemma rnd512_eq W v i : length v = 8%nat -> rnd512 W v i = sha2_step params64 K512 W v i.
Proof.
  intros Hv. eight v. unfold rnd512, sha2_step, wordn. cbn [nth]. cbv zeta. rewrite ch2_eq, maj2_eq.
  change Sigma1_512 with (Sigma1 params64). change Sigma0_512 with (Sigma0 params64). change (w params64) with 64.
  now rewrite !add_2, !add_5.
Qed.

Lemma length_sha2_step p K W v i : length v = 8%nat -> length (sha2_step p K W v i) = 8%nat.
Proof. intros Hv. now eight v. Qed.

Lemma rounds_eq p K W (rnd : list Z -> nat -> list Z) n v :
  (forall v i, length v = 8%nat -> rnd v i = sha2_step p K W v i) -> length v = 8%nat ->
  fold_left rnd (seq 0 n) v = fold_left (sha2_step p K W) (seq 0 n) v
  /\ length (fold_left (sha2_step p K W) (seq 0 n) v) = 8%nat.
Proof.
  intros Hr Hv.
  apply (fold_seq_inv (fun i s => s = fold_left (sha2_step p K W) (seq 0 i) v
    /\ length (fold_left (sha2_step p K W) (seq 0 i) v) = 8%nat)); [|done].
  intros i s Hi [-> Hl]. rewrite seq_S, fold_left_app. cbn [fold_left Nat.add].
  split; [now apply Hr | now apply length_sha2_step].
Qed.

Lemma final_sum n H s : length H = 8%nat -> length s = 8%nat ->
  (fun i => wrap n (wordn H i + wordn s i)) <$> seq 0 8 = zip_with (fun x y => add n [x; y]) s H.
Proof.
  intros HH Hs. assert (forall x y, add n [y; x] = wrap n (x + y)) as E by (intros; now rewrite add_2, Z.add_comm).
  eight H. eight s. cbn [seq fmap list_fmap zip_with wordn nth]. now rewrite !E.
Qed.

Lemma sha256_compress_eq st b : length st = 8%nat -> length b = 64%nat ->
  sha256_compress st b = sha2_compress params32 (sha2_K params32) 4 st b /\ length (sha256_compress st b) = 8%nat.
Proof.
  intros Hs Hb. split; [|done]. unfold sha256_compress, sha2_compress. cbv zeta.
  rewrite (block_words_eq 4 of_be get_be32) by (apply get_be32_slice || done).
  rewrite (iter_extend _ _ 48 _ w_next256_eq), <- K256_eq.
  change (rounds params32 - 16)%nat with 48%nat. change (rounds params32) with 64%nat.
  set (W := extend _ _ _). clearbody W. change (w params32) with 32.
  destruct (rounds_eq params32 K256 W (rnd256 W) 64 st) as [-> Hl]; [intros; now apply rnd256_eq | done|].
  now apply final_sum.
Qed.

Lemma sha512_block_eq st b : length st = 8%nat -> length b = 128%nat ->
  sha512_block st b = sha2_compress params64 (sha2_K params64) 8 st b /\ length (sha512_block st b) = 8%nat.
Proof.
  intros Hs Hb. split; [|done]. unfold sha512_block, sha2_compress. cbv zeta.
  rewrite (block_words_eq 8 of_be get_be64) by (apply get_be64_slice || done).
  rewrite (iter_extend _ _ 64 _ w_next512_eq), <- K512_eq.
  change (rounds params64 - 16)%nat with 64%nat. change (rounds params64) with 80%nat.
  set (W := extend _ _ _). clearbody W. change (w params64) with 64.
  destruct (rounds_eq params64 K512 W (rnd512 W) 80 st) as [-> Hl]; [intros; now apply rnd512_eq | done|].
  now apply final_sum.
Qed.

Lemma sha256_iv_eq : sha256_iv = sha256_H0. Proof. vm_compute. reflexivity. Qed.
Lemma sha384_iv_eq : md_state (sha384_init []) = sha384_H0. Proof. vm_compute. reflexivity. Qed.
Lemma sha512_iv_eq : md_state (sha512_init []) = sha512_H0. Proof. vm_compute. reflexivity. Qed.

(** The code hashes all words of the state. *)
Lemma take_8_state comp p K k B iv m : (0 < B)%nat -> length iv = 8%nat ->
  (forall st b, length st = 8%nat -> length b = B -> comp st b = sha2_compress p K k st b /\ length (comp st b) = 8%nat) ->
  take 8 (absorb B comp iv m).1 = fold_left (sha2_compress p K k) (blocks B m) iv.
Proof.
  intros HB Hi Hc. pose proof (absorb_blocks (fun st => length st = 8%nat) B comp _ HB Hc iv m Hi) as E.
  rewrite <- E. apply take_ge.
  assert (length (absorb B comp iv m).1 = 8%nat) as ->; [|done].
  revert Hi. apply (absorb_ind B comp HB (fun st l => length st = 8%nat -> length (absorb B comp st l).1 = 8%nat)).
  - intros st l Hs Hst. now rewrite absorb_short.
  - intros st l Hl IH Hst. rewrite absorb_block by done. apply IH. apply Hc; [done|]. rewrite length_take. lia.
Qed.

Lemma sha256_absorb_spec m : sha256_absorb m = sha256_spec m.
Proof.
  unfold sha256_absorb, sha2_absorb, sha256_spec. cbv zeta. pose proof (zlen_nonneg m).
  rewrite pad_eq by (cbn; lia). cbn [replicate app]. rewrite <- to_be_8. rewrite sha256_iv_eq.
  rewrite (take_8_state _ params32 (sha2_K params32) 4) by (lia || done || apply sha256_compress_eq).
  f_equal. apply list_fmap_ext. intros _ w _. symmetry. apply to_be_4.
Qed.

Lemma to_be_high k j n : 0 <= n < 256 ^ Z.of_nat k -> to_be (j + k) n = replicate j 0 ++ to_be k n.
Proof.
  intros Hn. unfold to_be. rewrite seq_app, fmap_app. f_equal.
  - assert (forall s n, (fun _ : nat => 0) <$> seq s n = replicate n 0) as Hz
      by (intros s n'; revert s; induction n' as [|n' IH]; intros s; [done | cbn; f_equal; apply IH]).
    rewrite <- (Hz 0%nat j). apply list_fmap_ext. intros i x Hx%lookup_seq. destruct Hx as [-> Hi].
    rewrite Z.div_small; [done|]. split; [lia|]. eapply Z.lt_le_trans; [apply Hn|]. apply Z.pow_le_mono_r; lia.
  - rewrite (Nat.add_comm 0 j), <- (fmap_add_seq j 0 k), <- list_fmap_compose. apply list_fmap_ext. intros i x _. unfold compose. do 3 f_equal. lia.
Qed.

(** The stream of the 64-bit functions, from any initial value. *)
Lemma sha2_64_absorb iv m : length iv = 8%nat -> 8 * zlen m < 2 ^ 64 ->
  sha2_absorb 128 8 sha512_block put_be64 iv m = sha2_64 iv m.
Proof.
  intros Hi Hm. unfold sha2_absorb, sha2_64. pose proof (zlen_nonneg m).
  rewrite pad_eq by (cbn; lia). rewrite <- to_be_8, <- (to_be_high 8 8) by lia. change (8 + 8)%nat with 16%nat.
  rewrite (take_8_state _ params64 (sha2_K params64) 8) by (lia || done || apply sha512_block_eq).
  f_equal. apply list_fmap_ext. intros _ w _. symmetry. apply to_be_8.
Qed.

Lemma sha384_absorb_spec m : 8 * zlen m < 2 ^ 64 -> sha384_absorb m = sha384_spec m.
Proof.
  intros Hm. unfold sha384_absorb, sha384_spec. rewrite <- sha384_iv_eq. now rewrite sha2_64_absorb.
Qed.
End Sha2.

(** ** The vector functions

    They give the hash of the standards of the concatenation of the buffers; what the
    stack held does not matter. *)

Lemma md5_vector_eq stack addr :
  length stack = 64%nat -> md5_vector stack addr = Rfc1321.md5_spec (concat addr).
Proof. intros Hs. rewrite <- md5_absorb_spec. now apply md5_vector_absorb. Qed.

Lemma sha1_vector_eq stack addr : length stack = 64%nat -> Forall (fun l => zlen l < 2 ^ 31) addr ->
  sha1_vector stack addr = Fips180.sha1_spec (concat addr).
Proof. intros Hs Ha. rewrite <- sha1_absorb_spec. now apply sha1_vector_absorb. Qed.

Lemma sha256_vector_eq stack addr :
  length stack = 64%nat -> sha256_vector stack addr = Some (Fips180.sha256_spec (concat addr)).
Proof. intros Hs. rewrite <- sha256_absorb_spec. now apply sha256_vector_absorb. Qed.

(** The code writes 64 of the 128 bits of the length. *)
Lemma sha384_vector_eq `{OsAlloc} stack addr :
  malloc_ok (80 * 8) = true -> length stack = 128%nat -> 8 * zlen (concat addr) < 2 ^ 64 ->
  sha384_vector stack addr = Some (Fips180.sha384_spec (concat addr)).
Proof. intros Hm Hs Ha. rewrite <- sha384_absorb_spec by done. now apply sha384_vector_absorb. Qed.

Lemma sha512_vector_eq `{OsAlloc} stack addr :
  malloc_ok (80 * 8) = true -> length stack = 128%nat -> 8 * zlen (concat addr) < 2 ^ 64 ->
  sha512_vector stack addr = Some (Fips180.sha512_spec (concat addr)).
Proof.
  intros Hm Hs Ha. assert (sha512_compress = (fun st b => Some (sha512_block st b))) as E.
  { unfold sha512_compress. now rewrite Hm. }
  unfold sha512_vector, sha512_done, Fips180.sha512_spec. rewrite E. unfold sha512_init at 1.
  rewrite ltc_vector_done by lia. rewrite <- sha512_iv_eq, <- sha2_64_absorb by done. reflexivity.
Qed.

Lemma md5_spec_digest m : length (Rfc1321.md5_spec m) = 16%nat /\ bytes_ok (Rfc1321.md5_spec m).
Proof. rewrite <- md5_absorb_spec. apply md5_absorb_digest. Qed.
Lemma sha1_spec_digest m : length (Fips180.sha1_spec m) = 20%nat /\ bytes_ok (Fips180.sha1_spec m).
Proof. rewrite <- sha1_absorb_spec. apply sha1_absorb_digest. Qed.
Lemma sha256_spec_digest m : length (Fips180.sha256_spec m) = 32%nat /\ bytes_ok (Fips180.sha256_spec m).
Proof. rewrite <- sha256_absorb_spec. apply sha256_absorb_digest. Qed.

Lemma sha2_compress_length p K k st b : length st = 8%nat -> length (Fips180.sha2_compress p K k st b) = 8%nat.
Proof.
  intros Hs. unfold Fips180.sha2_compress. cbv zeta. rewrite length_zip_with_l_eq.
  all: set (W := extend _ _ _); clearbody W.
  all: destruct (rounds_eq p K W (Fips180.sha2_step p K W) (Fips180.rounds p) st) as [_ ->]; done.
Qed.

Lemma to_be_word k w : length (to_be k w) = k /\ bytes_ok (to_be k w).
Proof.
  unfold to_be. split; [now rewrite length_fmap, length_seq|].
  apply Forall_fmap, Forall_true. intros i. unfold compose. apply Z.mod_pos_bound. lia.
Qed.

Lemma fold_compress_length p K k bs st :
  length st = 8%nat -> length (fold_left (Fips180.sha2_compress p K k) bs st) = 8%nat.
Proof.
  revert st. induction bs as [|b bs IH]; intros st Hs; [done|]. cbn [fold_left]. apply IH.
  now apply sha2_compress_length.
Qed.

Lemma sha2_64_digest H0 m : length H0 = 8%nat ->
  length (Fips180.sha2_64 H0 m) = 64%nat /\ bytes_ok (Fips180.sha2_64 H0 m).
Proof.
  intros Hs. pose proof (fold_compress_length Fips180.params64 (Fips180.sha2_K Fips180.params64) 8
    (blocks 128 (pad 128 (to_be 16 (8 * zlen m)) m)) H0 Hs) as L.
  unfold Fips180.sha2_64. revert L. generalize (fold_left (Fips180.sha2_compress Fips180.params64
    (Fips180.sha2_K Fips180.params64) 8) (blocks 128 (pad 128 (to_be 16 (8 * zlen m)) m)) H0).
  intros st L. rewrite (proj1 (digest_words (to_be 8) 8 st (to_be_word 8))), L.
  split; [done | apply (digest_words (to_be 8) 8 st (to_be_word 8))].
Qed.

Lemma length_sha384_H0 : length Fips180.sha384_H0 = 8%nat.
Proof. rewrite <- sha384_iv_eq. reflexivity. Qed.

Lemma sha384_spec_digest m : length (Fips180.sha384_spec m) = 48%nat /\ bytes_ok (Fips180.sha384_spec m).
Proof.
  destruct (sha2_64_digest Fips180.sha384_H0 m length_sha384_H0) as [L B]. unfold Fips180.sha384_spec.
  rewrite length_take, L. auto with wpa.
Qed.
