(* ===== verification/HashHmac.v ===== *)
(** * HMAC over the internal hash functions (src/crypto/md5.c, sha1.c, sha256.c, sha384.c)

    The four [hmac_*_vector] functions have one body, over the block size, the
    limit on the number of buffers and the hash of a vector.  They implement the
    interface [Hmac] of the key derivation functions, with its laws, and compute
    the HMAC of RFC 2104 of the concatenated buffers, over the hash functions of the
    standards (HashFips.v). *)

From S2P Require Import Prelude Crypto AesWrap Aes AesProps AesModes Wpabuf HashMd HashSha1 HashMd5 HashSha2 HashFips.

Section HmacVector.
Context (B max_elem : nat) (hash_vector : list bytes -> option bytes).

(** [os_memset(k_pad, 0, B); os_memcpy(k_pad, key, key_len)], and the xor with ipad or opad. *)
(* crypto/md5.c hmac_md5_vector @60-66 *)
Definition k_pad (v : Z) (key : bytes) : bytes :=
  (fun b => Z.lxor b v) <$> (key ++ replicate (B - length key) 0).

(* crypto/md5.c hmac_md5_vector *)
Definition hmac_vector (key : bytes) (addr : list bytes) : option bytes :=
  if (max_elem <? length addr)%nat then None else
  let? key := if (B <? length key)%nat then hash_vector [key] else Some key in
  let? mac := hash_vector (k_pad 0x36 key :: addr) in
  hash_vector [k_pad 0x5c key; mac].

Lemma hmac_vector_digest n :
  (forall l d, hash_vector l = Some d -> length d = n /\ bytes_ok d) ->
  forall key addr d, hmac_vector key addr = Some d -> length d = n /\ bytes_ok d.
Proof.
  intros Hh key addr d. unfold hmac_vector. destruct (_ <? _)%nat; [done|].
  destruct (if (B <? length key)%nat then hash_vector [key] else Some key) as [k|]; [|done]. cbn [mbind option_bind].
  destruct (hash_vector (k_pad 0x36 k :: addr)) as [mac|]; [|done]. apply Hh.
Qed.

(** HMAC of RFC 2104 with the hash function [H]. *)
Definition rfc2104 (H : bytes -> bytes) (K text : bytes) : bytes :=
  let K := if (B <? length K)%nat then H K else K in
  let K := K ++ replicate (B - length K) 0 in
  H (((fun b => Z.lxor b 0x5c) <$> K) ++ H (((fun b => Z.lxor b 0x36) <$> K) ++ text)).

Lemma zlen_concat_le b (l : list bytes) : Forall (fun x => zlen x < b) l -> zlen (concat l) <= zlen l * b.
Proof.
  induction 1 as [|x l Hx _ IH]; [done|]. cbn [concat]. rewrite zlen_app, zlen_cons. lia.
Qed.

Lemma length_k_pad v key : (length key <= B)%nat -> length (k_pad v key) = B.
Proof. intros. unfold k_pad. rewrite length_fmap, length_app, length_replicate. lia. Qed.

Lemma hmac_vector_rfc2104 (P : bytes -> Prop) H :
  (0 < max_elem)%nat ->
  (forall l, (length l <= S max_elem)%nat -> Forall P l -> hash_vector l = Some (H (concat l))) ->
  (forall l, (length l <= B)%nat -> P l) -> (forall l, (length (H l) <= B)%nat) ->
  forall key addr, (length addr <= max_elem)%nat -> P key -> Forall P addr ->
  hmac_vector key addr = Some (rfc2104 H key (concat addr)).
Proof.
  intros Hpos Hh HB HH key addr Hn Hk Ha. unfold hmac_vector, rfc2104. rewrite (proj2 (Nat.ltb_ge _ _)) by done.
  assert ((if (B <? length key)%nat then hash_vector [key] else Some key)
    = Some (if (B <? length key)%nat then H key else key)) as ->.
  { destruct (B <? length key)%nat; [|done]. rewrite Hh by (simpl; lia || now repeat constructor). cbn [concat]. now rewrite app_nil_r. }
  cbn [mbind option_bind]. set (K := if (B <? length key)%nat then H key else key).
  assert (length K <= B)%nat as HK by (unfold K; destruct (Nat.ltb_spec B (length key)); [apply HH | done]).
  rewrite Hh by (simpl; lia || (constructor; [apply HB; rewrite length_k_pad by done; lia | done])). cbn [mbind option_bind].
  rewrite Hh.
  - cbn [concat]. now rewrite app_nil_r.
  - simpl. lia.
  - repeat constructor; apply HB; [rewrite length_k_pad by done; lia | apply HH].
Qed.

(** More buffers than the limit are refused. *)
Lemma hmac_vector_limit key addr : (max_elem < length addr)%nat -> hmac_vector key addr = None.
Proof. intros. unfold hmac_vector. now rewrite (proj2 (Nat.ltb_lt _ _)). Qed.
End HmacVector.

Module MdHmac.
Section Instance_.
(** What the stack holds where the context of a hash call is placed, memory for
    the message schedule of SHA-512, and the block cipher of OMAC1. *)
Context (stack : list bytes -> bytes) {MA : OsAlloc} {HA : AesCipher}.

(* crypto/md5.c hmac_md5_vector *)
Definition hmac_md5_vector (key : bytes) (addr : list bytes) : option bytes :=
  hmac_vector 64 5 (fun l => Some (md5_vector (take 64 (stack l)) l)) key addr.
(* crypto/sha1.c hmac_sha1_vector *)
Definition hmac_sha1_vector (key : bytes) (addr : list bytes) : option bytes :=
  hmac_vector 64 5 (fun l => Some (sha1_vector (take 64 (stack l)) l)) key addr.
(* crypto/sha256.c hmac_sha256_vector *)
Definition hmac_sha256_vector (key : bytes) (addr : list bytes) : option bytes :=
  hmac_vector 64 10 (fun l => sha256_vector (take 64 (stack l)) l) key addr.
(* crypto/sha384.c hmac_sha384_vector *)
Definition hmac_sha384_vector (key : bytes) (addr : list bytes) : option bytes :=
  hmac_vector 128 10 (fun l => sha384_vector (take 128 (stack l)) l) key addr.

(** The interface of the key derivation functions.  They call OMAC1 with one
    buffer, where it reads inside its input (omac1_128_inside below). *)
Definition internal_hmac (hash_buffer : bytes) : Hmac := {|
  Crypto.hmac_md5_vector := hmac_md5_vector;
  Crypto.hmac_sha1_vector := hmac_sha1_vector;
  Crypto.hmac_sha256_vector := hmac_sha256_vector;
  Crypto.hmac_sha384_vector := hmac_sha384_vector;
  Crypto.omac1_aes_128_vector key addr := default None (omac1_128_vector key addr);
  hash_stack := hash_buffer
|}.

Context (Hstack : forall l, (128 <= length (stack l))%nat) (Hmem : malloc_ok (80 * 8) = true).

Lemma stack64 l : length (take 64 (stack l)) = 64%nat.
Proof using Hstack. clear - Hstack. specialize (Hstack l). rewrite length_take. lia. Qed.
Lemma stack128 l : length (take 128 (stack l)) = 128%nat.
Proof using Hstack. clear - Hstack. specialize (Hstack l). rewrite length_take. lia. Qed.

Lemma hmac_md5_rfc2104 key addr : (length addr <= 5)%nat ->
  hmac_md5_vector key addr = Some (rfc2104 64 Rfc1321.md5_spec key (concat addr)).
Proof using Hstack.
  clear - Hstack. intros Hn. apply (hmac_vector_rfc2104 64 5 _ (fun _ => True)); try done.
  - lia.
  - intros l _ _. now rewrite md5_vector_eq by apply stack64.
  - intros l. rewrite (proj1 (md5_spec_digest l)). lia.
  - now apply Forall_true.
Qed.

Lemma hmac_sha1_rfc2104 key addr : (length addr <= 5)%nat ->
  zlen key < 2 ^ 31 -> Forall (fun l => zlen l < 2 ^ 31) addr ->
  hmac_sha1_vector key addr = Some (rfc2104 64 Fips180.sha1_spec key (concat addr)).
Proof using Hstack.
  clear - Hstack. intros Hn Hk Ha. apply (hmac_vector_rfc2104 64 5 _ (fun l => zlen l < 2 ^ 31)); try done.
  - lia.
  - intros l _ Hl. now rewrite sha1_vector_eq by (done || apply stack64).
  - unfold zlen. lia.
  - intros l. rewrite (proj1 (sha1_spec_digest l)). lia.
Qed.

Lemma hmac_sha256_rfc2104 key addr : (length addr <= 10)%nat ->
  hmac_sha256_vector key addr = Some (rfc2104 64 Fips180.sha256_spec key (concat addr)).
Proof using Hstack.
  clear - Hstack. intros Hn. apply (hmac_vector_rfc2104 64 10 _ (fun _ => True)); try done.
  - lia.
  - intros l _ _. now rewrite sha256_vector_eq by apply stack64.
  - intros l. rewrite (proj1 (sha256_spec_digest l)). lia.
  - now apply Forall_true.
Qed.

Lemma hmac_sha384_rfc2104 key addr : (length addr <= 10)%nat ->
  zlen key < 2 ^ 31 -> Forall (fun l => zlen l < 2 ^ 31) addr ->
  hmac_sha384_vector key addr = Some (rfc2104 128 Fips180.sha384_spec key (concat addr)).
Proof using Hstack Hmem.
  clear - Hstack Hmem. intros Hn Hk Ha. apply (hmac_vector_rfc2104 128 10 _ (fun l => zlen l < 2 ^ 31)); try done.
  - lia.
  - intros l Hlen Hl. rewrite sha384_vector_eq; try done; [apply stack128|].
    pose proof (zlen_concat_le (2 ^ 31) l Hl). unfold zlen at 2 in H. lia.
  - unfold zlen. lia.
  - intros l. rewrite (proj1 (sha384_spec_digest l)). lia.
Qed.

(** Every output of OMAC1 is a block of the cipher. *)
Lemma omac1_128_digest key addr d :
  (forall c b, is_block (aes_encrypt c b)) -> omac1_128_vector key addr = Some (Some d) ->
  length d = 16%nat /\ bytes_ok d.
Proof using Type.
  clear. intros Henc. unfold omac1_128_vector, omac1_aes_vector.
  destruct (aes_encrypt_init (take 16 key)) as [ctx|]; [|done]. cbn zeta.
  destruct addr as [|cur rest]; [done|]. cbn [mbind option_bind].
  set (left_cbc := omac1_blocks ctx _ _ _ _ _). destruct left_cbc as [[[[left_ cbc] cur'] rest']|]; [|done].
  cbn [mbind option_bind]. destruct (negb _ || _).
  - destruct (omac1_absorb true left_ 0 cbc cur' rest') as [[[cbc' ?] ?]|]; [|done]. intros [= <-]. apply Henc.
  - intros [= <-]. apply Henc.
Qed.

(** The laws hold for every input, those no theorem on a hash covers included. *)
Lemma internal_hmac_laws hash_buffer :
  (forall c b, is_block (aes_encrypt c b)) -> @HmacLaws (internal_hmac hash_buffer).
Proof using Hstack Hmem.
  intros Henc. split; intros key addr d.
  - apply hmac_vector_digest. intros l h [= <-]. rewrite md5_vector_eq by apply stack64. apply md5_spec_digest.
  - apply hmac_vector_digest. intros l h [= <-]. apply sha1_vector_digest.
  - apply hmac_vector_digest. intros l h. rewrite sha256_vector_eq by apply stack64. intros [= <-].
    apply sha256_spec_digest.
  - apply hmac_vector_digest. intros l h. rewrite sha384_vector_absorb by (done || apply stack128). intros [= <-].
    apply sha384_absorb_digest.
  - unfold omac1_aes_128_vector, internal_hmac. destruct (omac1_128_vector key addr) as [[h|]|] eqn:E;
      intros Hd; [|discriminate|discriminate]. injection Hd as <-. now apply (omac1_128_digest key addr).
Qed.
End Instance_.
End MdHmac.
