(* ===== verification/Kdf.v ===== *)
(** * Key derivation functions (src/crypto/sha1-pbkdf2.c, sha1-tprf.c, sha*-kdf.c, *-tlsprf.c)

    The functions that stretch a secret with HMAC, on the interface [Hmac]: PBKDF2
    of the WPA passphrase, the T-PRF of EAP-FAST, the PRFs of TLS and the KDF of
    RFC 5295.  Each is compared with the block sequence of its RFC, over a keyed
    hash of the concatenated buffers. *)

From S2P Require Import Prelude Crypto HashMd.

(** ** Output block by block

    [next] computes a block and the state of the next pass; [left] is what the
    output still lacks; a pass writes at least one byte. *)

Section Blocks.
Context {St : Type} (mac_len : nat) (next : St -> option (bytes * St)).

Fixpoint blocks_loop (fuel : nat) (s : St) (left : nat) : option bytes :=
  match fuel with
  | O => Some []
  | S fuel =>
      if (left =? 0)%nat then Some [] else
      let? (block, s) := next s in
      let plen := Nat.min left mac_len in
      let? rest := blocks_loop fuel s (left - plen) in
      Some (take plen block ++ rest)
  end.

(** The sequence of blocks, when [next] never fails. *)
Context (step : St -> bytes * St) (Inv : St -> Prop) (Hpos : (0 < mac_len)%nat)
  (Hnext : forall s, Inv s -> next s = Some (step s) /\ length (step s).1 = mac_len /\ Inv (step s).2).

Fixpoint block_seq (n : nat) (s : St) : bytes :=
  match n with O => [] | S n => (step s).1 ++ block_seq n (step s).2 end.

Lemma blocks_loop_seq fuel n s left :
  Inv s -> (left <= fuel)%nat -> (left <= n * mac_len)%nat -> blocks_loop fuel s left = Some (take left (block_seq n s)).
Proof using Hnext Hpos.
  revert n s left. induction fuel as [|fuel IH]; intros n s left Hi Hf Hn; cbn [blocks_loop].
  { assert (left = 0%nat) as -> by lia. reflexivity. }
  destruct (Nat.eqb_spec left 0) as [-> | Hl]; [reflexivity|].
  destruct n as [|n]; [lia|]. destruct (Hnext s Hi) as (-> & Hlen & Hi'). cbn [block_seq].
  destruct (step s) as [block s']. cbn [fst snd mbind option_bind] in *.
  rewrite (IH n) by (done || lia). cbn [mbind option_bind]. f_equal.
  destruct (Nat.min_spec left mac_len) as [[H ->] | [H ->]].
  - now rewrite Nat.sub_diag, take_0, app_nil_r, take_app_le by lia.
  - rewrite take_ge, take_app_ge by lia. do 2 f_equal. lia.
Qed.
End Blocks.

(** Blocks numbered by a counter of [w] bits. *)
Lemma counted_blocks (F : Z -> bytes) w n k : 0 <= w -> Z.of_nat (k + n) < 2 ^ w ->
  block_seq (fun i => (F (wrap w (i + 1)), wrap w (i + 1))) n (Z.of_nat k)
  = concat (F <$> (Z.of_nat <$> seq (S k) n)).
Proof.
  intros Hw. revert k. induction n as [|n IH]; intros k Hk; [done|]. cbn [block_seq seq fmap list_fmap concat fst snd].
  replace (wrap w (Z.of_nat k + 1)) with (Z.of_nat (S k)) by (rewrite wrap_small; [lia | unfold is_uint; lia]).
  f_equal. apply IH. lia.
Qed.

Section Kdf.
Context `{Hmac}.

(** ** PBKDF2 *)

Definition xor_block (a b : bytes) : bytes := zip_with Z.lxor a b.

(** [for (i = 1; i < iterations; i++)] *)
(* sha1-pbkdf2.c pbkdf2_sha1_f @45-52 *)
Fixpoint pbkdf2_iter (n : nat) (passphrase tmp digest : bytes) : option bytes :=
  match n with
  | O => Some digest
  | S n =>
      let? tmp2 := hmac_sha1 passphrase tmp in
      pbkdf2_iter n passphrase tmp2 (xor_block digest tmp2)
  end.

(* sha1-pbkdf2.c pbkdf2_sha1_f *)
Definition pbkdf2_sha1_f (passphrase ssid : bytes) (iterations count : Z) : option bytes :=
  let count_buf := put_be32 count in
  let? tmp := hmac_sha1_vector passphrase [ssid; count_buf] in
  pbkdf2_iter (Z.to_nat (iterations - 1)) passphrase tmp tmp.

(* sha1-pbkdf2.c pbkdf2_sha1 *)
Definition pbkdf2_sha1 (passphrase ssid : bytes) (iterations : Z) (buflen : nat) : option bytes :=
  blocks_loop SHA1_MAC_LEN
    (fun count => let count := u32 (count + 1) in
       let? digest := pbkdf2_sha1_f passphrase ssid iterations count in Some (digest, count))
    buflen 0 buflen.

(** ** T-PRF of EAP-FAST *)

(** The state is the counter and the last digest, which the first block does not use. *)
(* sha1-tprf.c sha1_t_prf *)
Definition sha1_t_prf (key label seed : bytes) (buf_len : nat) : option bytes :=
  let output_len := put_be16 (Z.of_nat buf_len) in
  blocks_loop SHA1_MAC_LEN
    (fun '(counter, prev) => let counter := u8 (counter + 1) in
       let? hash := hmac_sha1_vector key [prev; label ++ [0]; seed; output_len; [counter]] in
       Some (hash, (counter, hash)))
    buf_len (0, []) buf_len.

(** ** PRF of TLS 1.2 *)

(** The body tls_prf_sha256() and tls_prf_sha384() share; the state is A(i). *)
(* sha256-tlsprf.c tls_prf_sha256 *)
Definition tls_prf (mac_len : nat) (hmac : bytes -> list bytes -> option bytes)
    (secret label seed : bytes) (outlen : nat) : option bytes :=
  let? A := hmac secret [label; seed] in
  blocks_loop mac_len
    (fun A => let? P := hmac secret [A; label; seed] in
              let? A := hmac secret [A] in Some (P, A))
    outlen A outlen.

(* sha256-tlsprf.c tls_prf_sha256 *)
Definition tls_prf_sha256 (secret label seed : bytes) (outlen : nat) : option bytes :=
  tls_prf SHA256_MAC_LEN hmac_sha256_vector secret label seed outlen.
(* sha384-tlsprf.c tls_prf_sha384 *)
Definition tls_prf_sha384 (secret label seed : bytes) (outlen : nat) : option bytes :=
  tls_prf SHA384_MAC_LEN hmac_sha384_vector secret label seed outlen.

(** ** PRF of TLS 1.0 and 1.1 *)

(** One of the two hashes of the loop: A, P and the position in P. *)
Record p_hash := PHash { ph_A : bytes; ph_P : bytes; ph_pos : nat }.

(** A call whose result is not looked at: its buffer keeps what it held. *)
Definition ignore_fail (old : bytes) (r : option bytes) : bytes := default old r.

(* sha1-tlsprf.c tls_prf_sha1_md5 @77-87 *)
Definition p_hash_refill (mac_len : nat) (hmac : bytes -> list bytes -> option bytes)
    (S_ label seed : bytes) (h : p_hash) : p_hash :=
  if (ph_pos h =? mac_len)%nat then
    let P := ignore_fail (ph_P h) (hmac S_ [ph_A h; label; seed]) in
    let A := ignore_fail (ph_A h) (hmac S_ [ph_A h]) in
    PHash A P 0
  else h.

Definition p_hash_next (h : p_hash) : Z * p_hash :=
  (byte_at (ph_P h) (ph_pos h), PHash (ph_A h) (ph_P h) (S (ph_pos h))).

(* sha1-tlsprf.c tls_prf_sha1_md5 @76-93 *)
Fixpoint tls_prf_bytes (S1 S2 label seed : bytes) (n : nat) (m s : p_hash) : bytes :=
  match n with
  | O => []
  | S n =>
      let m := p_hash_refill MD5_MAC_LEN hmac_md5_vector S1 label seed m in
      let s := p_hash_refill SHA1_MAC_LEN hmac_sha1_vector S2 label seed s in
      let '(mb, m) := p_hash_next m in
      let '(sb, s) := p_hash_next s in
      Z.lxor mb sb :: tls_prf_bytes S1 S2 label seed n m s
  end.

(* sha1-tlsprf.c tls_prf_sha1_md5 *)
Definition tls_prf_sha1_md5 (secret label seed : bytes) (outlen : nat) : bytes :=
  let L_S := ((length secret + 1) / 2)%nat in
  let S1 := take L_S secret in
  let S2 := drop (if Nat.odd (length secret) then L_S - 1 else L_S)%nat secret in
  let A_MD5 := ignore_fail (take MD5_MAC_LEN hash_stack) (hmac_md5_vector S1 [label; seed]) in
  let A_SHA1 := ignore_fail (take SHA1_MAC_LEN hash_stack) (hmac_sha1_vector S2 [label; seed]) in
  tls_prf_bytes S1 S2 label seed outlen
    (PHash A_MD5 (take MD5_MAC_LEN hash_stack) MD5_MAC_LEN)
    (PHash A_SHA1 (take SHA1_MAC_LEN hash_stack) SHA1_MAC_LEN).

(** ** KDF of RFC 5295, HKDF-Expand of RFC 5869

    The return value and the buffer [out], whose old contents are the argument;
    [label] is a string without its terminator, or NULL. *)

(* sha256-kdf.c hmac_sha256_kdf @59-84 *)
Fixpoint kdf_loop (mac_len : nat) (hmac : bytes -> list bytes -> option bytes)
    (secret label seed : bytes) (outlen fuel : nat) (iter : Z) (pos : nat) (T out : bytes) : Z * bytes :=
  match fuel with
  | O => (-1, out)
  | S fuel =>
      let clen := Nat.min (outlen - pos) mac_len in
      let out := store_at pos (take clen T) out in
      let pos := (pos + clen)%nat in
      if (pos =? outlen)%nat then (0, out) else
      if iter =? 255 then (-1, replicate outlen 0) else
      let iter := u8 (iter + 1) in
      match hmac secret [T; label; seed; [iter]] with
      | None => (-1, replicate outlen 0)
      | Some T => kdf_loop mac_len hmac secret label seed outlen fuel iter pos T out
      end
  end.

(* sha256-kdf.c hmac_sha256_kdf *)
Definition hmac_kdf (mac_len : nat) (hmac : bytes -> list bytes -> option bytes)
    (secret : bytes) (label : option bytes) (seed out : bytes) : Z * bytes :=
  let iter := 1 in
  let label := match label with Some l => l ++ [0] | None => [] end in
  match hmac secret [label; seed; [iter]] with
  | None => (-1, out)
  | Some T => kdf_loop mac_len hmac secret label seed (length out) 255 iter 0 T out
  end.

(* sha256-kdf.c hmac_sha256_kdf *)
Definition hmac_sha256_kdf (secret : bytes) (label : option bytes) (seed out : bytes) : Z * bytes :=
  hmac_kdf SHA256_MAC_LEN hmac_sha256_vector secret label seed out.
(* sha384-kdf.c hmac_sha384_kdf *)
Definition hmac_sha384_kdf (secret : bytes) (label : option bytes) (seed out : bytes) : Z * bytes :=
  hmac_kdf SHA384_MAC_LEN hmac_sha384_vector secret label seed out.
End Kdf.

(** ** The block sequences of the RFCs

    [H] is the keyed hash of one message; [vec] hashes the concatenation of at most
    five buffers with it. *)

Definition computes (n : nat) (vec : bytes -> list bytes -> option bytes) (H : bytes -> bytes -> bytes)
    (ok : bytes -> Prop) (k : bytes) : Prop :=
  (forall l, (length l <= 5)%nat -> Forall ok l -> vec k l = Some (H k (concat l)))
  /\ (forall m, length (H k m) = n) /\ (forall m, ok (H k m)).

(** *** HKDF-Expand *)

Section Hkdf.
Context (m : nat) (H : bytes -> bytes -> bytes) (secret info : bytes).

Fixpoint hkdf_T (i : nat) : bytes :=
  match i with O => [] | S j => H secret (hkdf_T j ++ info ++ [Z.of_nat i]) end.

Definition hkdf_okm (n : nat) : bytes := concat (hkdf_T <$> seq 1 n).

Context (Hlen : forall x, length (H secret x) = m).

Lemma hkdf_okm_S n : hkdf_okm (S n) = hkdf_okm n ++ hkdf_T (S n).
Proof using Type. unfold hkdf_okm. rewrite seq_S, fmap_app, concat_app. cbn [fmap list_fmap concat]. now rewrite app_nil_r. Qed.

Lemma hkdf_okm_length n : length (hkdf_okm n) = (n * m)%nat.
Proof using Hlen.
  induction n as [|n IH]; [done|]. rewrite hkdf_okm_S, length_app, IH. cbn [hkdf_T]. rewrite Hlen. lia.
Qed.

Lemma hkdf_okm_prefix k n l : (l <= k * m)%nat -> (k <= n)%nat -> take l (hkdf_okm n) = take l (hkdf_okm k).
Proof using Hlen.
  intros Hl Hk. induction n as [|n IH]; [now assert (k = 0%nat) as -> by lia|].
  destruct (Nat.eq_dec k (S n)) as [-> | Hne]; [done|]. rewrite hkdf_okm_S, <- IH by lia.
  rewrite take_app_le; [done|]. rewrite hkdf_okm_length. nia.
Qed.
End Hkdf.

Section KdfSpec.
Context (m : nat) (vec : bytes -> list bytes -> option bytes) (H : bytes -> bytes -> bytes) (ok : bytes -> Prop).
Context (secret label seed : bytes) (Hm : (0 < m)%nat) (Hc : computes m vec H ok secret).
Context (Hlabel : ok label) (Hseed : ok seed) (Hone : forall b, ok [b]).
Let HlenH : forall x, length (H secret x) = m := proj1 (proj2 Hc).
Abbreviation T := (hkdf_T H secret (label ++ seed)).
Abbreviation okm := (hkdf_okm H secret (label ++ seed)).

Lemma kdf_first : vec secret [label; seed; [1]] = Some (T 1).
Proof using All.
  rewrite (proj1 Hc) by (simpl; auto; lia). cbn [concat hkdf_T app]. now rewrite <- app_assoc.
Qed.

Lemma kdf_next i : (0 < i)%nat -> vec secret [T i; label; seed; [Z.of_nat (S i)]] = Some (T (S i)).
Proof using All.
  intros Hi. rewrite (proj1 Hc).
  - cbn [concat]. rewrite app_nil_r. cbn [hkdf_T]. now rewrite <- !app_assoc.
  - simpl. lia.
  - repeat constructor; auto. destruct i; [lia|]. apply Hc.
Qed.

Lemma kdf_loop_spec outlen fuel i out :
  (0 < i)%nat -> (fuel + i = 256)%nat -> (0 < fuel)%nat -> length out = outlen ->
  ((i - 1) * m <= outlen)%nat -> take ((i - 1) * m) out = okm (i - 1) ->
  kdf_loop m vec secret label seed outlen fuel (Z.of_nat i) ((i - 1) * m) (T i) out
  = if (outlen <=? 255 * m)%nat then (0, take outlen (okm 255)) else (-1, replicate outlen 0).
Proof using All.
  revert i out. induction fuel as [|fuel IH]; intros i out Hi Hf H1 Ho Hp Ht; [lia|]. cbn [kdf_loop].
  destruct i as [|j]; [lia|]. replace (S j - 1)%nat with j in * by lia. clear Hi.
  assert (length (T (S j)) = m) as LT by (cbn [hkdf_T]; apply HlenH).
  pose proof (hkdf_okm_length m H secret (label ++ seed) HlenH j) as Lj.
  pose proof (hkdf_okm_S H secret (label ++ seed) j) as Ej.
  set (clen := Nat.min (outlen - j * m) m).
  assert (take (j * m + clen) (store_at (j * m) (take clen (T (S j))) out) = okm j ++ take clen (T (S j))) as Es.
  { assert (length (take clen (T (S j))) = clen) as Lc by (rewrite length_take; unfold clen; lia).
    rewrite <- Lc at 1. rewrite take_store_at by (unfold clen in *; lia). now rewrite Ht. }
  assert (length (store_at (j * m) (take clen (T (S j))) out) = outlen) as Ls
    by (rewrite length_store_at; rewrite ?length_take; unfold clen; lia).
  destruct (Nat.eqb_spec (j * m + clen) outlen) as [E | E].
  - rewrite (proj2 (Nat.leb_le _ _)) by (unfold clen in E; nia).
    rewrite (hkdf_okm_prefix m H secret (label ++ seed) HlenH (S j) 255) by (unfold clen in E; lia).
    f_equal. rewrite <- (take_ge (store_at _ _ _) outlen) by lia.
    rewrite <- E at 1. rewrite Es, Ej, take_app_ge by lia. do 2 f_equal. lia.
  - assert (clen = m) as Ec by (unfold clen in *; lia). rewrite Ec in *.
    destruct (Z.eqb_spec (Z.of_nat (S j)) 255) as [E255 | E255].
    { rewrite (proj2 (Nat.leb_gt _ _)); [done|]. unfold clen in *. assert (j = 254)%nat as -> by lia. lia. }
    assert (u8 (Z.of_nat (S j) + 1) = Z.of_nat (S (S j))) as -> by (rewrite wrap_small; unfold is_uint; lia).
    rewrite kdf_next by lia. rewrite (take_ge (T (S j)) m) in * by lia.
    replace (j * m + m)%nat with ((S (S j) - 1) * m)%nat in * by lia.
    apply IH; try lia. rewrite Es. replace (S (S j) - 1)%nat with (S j) by lia. now rewrite Ej.
Qed.

End KdfSpec.

(** HKDF-Expand (RFC 5869), and the KDF of RFC 5295 for a label: for up to 255
    blocks of output the return value is 0 and the buffer has the output of the RFC;
    a longer request is refused with the buffer cleared. *)
Lemma hmac_kdf_hkdf (m : nat) vec H ok secret label seed out :
  (0 < m)%nat -> computes m vec H ok secret -> (forall b, ok [b]) -> ok seed ->
  ok (match label with Some l => l ++ [0] | None => [] end) ->
  let info := match label with Some l => l ++ [0] | None => [] end ++ seed in
  hmac_kdf m vec secret label seed out
  = if (length out <=? 255 * m)%nat then (0, take (length out) (hkdf_okm H secret info 255))
    else (-1, replicate (length out) 0).
Proof.
  intros Hm Hc Hone Hs Hl info. unfold hmac_kdf.
  set (lb := match label with Some l => l ++ [0] | None => [] end) in *. unfold info. clearbody lb. clear info.
  rewrite (kdf_first m vec H ok secret lb seed Hm Hc Hl Hs Hone).
  apply (kdf_loop_spec m vec H ok secret lb seed Hm Hc Hl Hs Hone (length out) 255 1 out); try lia; reflexivity.
Qed.

(** *** PBKDF2 *)

Section Pbkdf2.
Context `{Hmac} (K : bytes -> bytes -> bytes) (ok : bytes -> Prop) (P S_ : bytes) (c : Z).

(** F(P, S, c, i) of RFC 2898 with U_1, ..., U_c. *)
Fixpoint pbkdf2_U (i : bytes) (j : nat) : bytes :=
  match j with O => K P (S_ ++ i) | S j => K P (pbkdf2_U i j) end.
Definition pbkdf2_F (i : Z) : bytes :=
  let U := pbkdf2_U (put_be32 i) in
  fold_left xor_block (U <$> seq 1 (Z.to_nat (c - 1))) (U 0%nat).

Context (Hc : computes 20 hmac_sha1_vector K ok P) (HS : ok S_) (H4 : forall n, ok (put_be32 n)).

Lemma pbkdf2_iter_spec i n k digest :
  pbkdf2_iter n P (pbkdf2_U i k) digest
  = Some (fold_left xor_block (pbkdf2_U i <$> seq (S k) n) digest).
Proof using Hc.
  revert k digest. induction n as [|n IH]; intros k digest; [done|]. cbn [pbkdf2_iter].
  unfold hmac_sha1. rewrite (proj1 Hc).
  - cbn [concat mbind option_bind]. rewrite app_nil_r. apply (IH (S k)).
  - simpl. lia.
  - repeat constructor. destruct k; apply Hc.
Qed.

Lemma pbkdf2_sha1_f_spec i : pbkdf2_sha1_f P S_ c i = Some (pbkdf2_F i).
Proof using All.
  unfold pbkdf2_sha1_f. rewrite (proj1 Hc) by (simpl; auto; lia).
  cbn [concat mbind option_bind]. rewrite app_nil_r. apply (pbkdf2_iter_spec (put_be32 i) _ 0).
Qed.

Lemma pbkdf2_U_length i j : length (pbkdf2_U i j) = 20%nat.
Proof using Hc. destruct j; apply Hc. Qed.

Lemma pbkdf2_F_length i : length (pbkdf2_F i) = 20%nat.
Proof using Hc.
  unfold pbkdf2_F. generalize (seq 1 (Z.to_nat (c - 1))). intros l.
  assert (length (pbkdf2_U (put_be32 i) 0) = 20%nat) as L by apply pbkdf2_U_length. revert L.
  generalize (pbkdf2_U (put_be32 i) 0). induction l as [|j l IH]; intros d L; [done|]. cbn [fmap list_fmap fold_left].
  apply IH. unfold xor_block. rewrite length_zip_with, L, pbkdf2_U_length. done.
Qed.

(** pbkdf2_sha1() is the concatenation of the blocks F(1), F(2), ... cut to the
    length asked for. *)
Lemma pbkdf2_sha1_spec buflen n : (buflen <= n * 20)%nat -> Z.of_nat n < 2 ^ 32 ->
  pbkdf2_sha1 P S_ c buflen = Some (take buflen (concat (pbkdf2_F <$> (Z.of_nat <$> seq 1 n)))).
Proof using All.
  intros Hb Hn. unfold pbkdf2_sha1.
  rewrite (blocks_loop_seq 20 _ (fun i => (pbkdf2_F (u32 (i + 1)), u32 (i + 1))) (fun _ => True) ltac:(lia))
    with (n := n) by (done || lia || (intros i _; cbn zeta; rewrite pbkdf2_sha1_f_spec; cbn; auto using pbkdf2_F_length)).
  do 2 f_equal. exact (counted_blocks pbkdf2_F 32 n 0 ltac:(lia) Hn).
Qed.
End Pbkdf2.

(** *** T-PRF *)

Section TPrf.
Context `{Hmac} (K : bytes -> bytes -> bytes) (ok : bytes -> Prop) (key label seed : bytes) (buf_len : nat).

(** T1, T2, ... of RFC 4851, with S = label + 0x00 + seed. *)
Fixpoint t_prf_T (i : nat) : bytes :=
  match i with
  | O => []
  | S j => K key (t_prf_T j ++ (label ++ [0] ++ seed) ++ put_be16 (Z.of_nat buf_len) ++ [Z.of_nat i])
  end.

Context (Hc : computes 20 hmac_sha1_vector K ok key) (Hl : ok (label ++ [0])) (Hs : ok seed)
        (Hshort : forall l, (length l <= 20)%nat -> ok l).

Definition t_prf_step (s : Z * bytes) : bytes * (Z * bytes) :=
  let c := u8 (s.1 + 1) in
  let T := K key (s.2 ++ (label ++ [0] ++ seed) ++ put_be16 (Z.of_nat buf_len) ++ [c]) in (T, (c, T)).

Lemma t_prf_blocks n k : (k + n < 256)%nat ->
  block_seq t_prf_step n (Z.of_nat k, t_prf_T k) = concat (t_prf_T <$> seq (S k) n).
Proof using Type.
  revert k. induction n as [|n IH]; intros k Hk; [done|]. cbn [block_seq seq fmap list_fmap concat].
  assert (t_prf_step (Z.of_nat k, t_prf_T k) = (t_prf_T (S k), (Z.of_nat (S k), t_prf_T (S k)))) as ->.
  { unfold t_prf_step. cbn [fst snd t_prf_T].
    now replace (u8 (Z.of_nat k + 1)) with (Z.of_nat (S k)) by (rewrite wrap_small; unfold is_uint; lia). }
  cbn [fst snd]. now rewrite IH by lia.
Qed.

Lemma sha1_t_prf_spec : (buf_len <= 255 * 20)%nat ->
  sha1_t_prf key label seed buf_len = Some (take buf_len (concat (t_prf_T <$> seq 1 255))).
Proof using All.
  intros Hb. unfold sha1_t_prf. rewrite <- (t_prf_blocks 255 0) by lia.
  apply (blocks_loop_seq 20 _ t_prf_step (fun s => length s.2 = 0%nat \/ length s.2 = 20%nat)); [lia | | now left | lia | lia].
  intros [c prev] Hp. unfold t_prf_step. cbn [fst snd] in *. rewrite (proj1 Hc).
  - cbn [concat mbind option_bind]. rewrite app_nil_r, <- !app_assoc. split; [done|].
    split; [apply Hc | right; apply Hc].
  - simpl. lia.
  - repeat constructor; auto; apply Hshort; [lia | simpl; lia | simpl; lia].
Qed.
End TPrf.

(** *** The PRF of TLS 1.2 *)

Section TlsPrf.
Context (m : nat) (vec : bytes -> list bytes -> option bytes) (K : bytes -> bytes -> bytes) (ok : bytes -> Prop).
Context (secret label seed : bytes) (Hm : (0 < m)%nat) (Hc : computes m vec K ok secret) (Hl : ok label) (Hs : ok seed).

(** A(i) and P_hash of RFC 5246, 5. *)
Fixpoint tls_A (i : nat) : bytes := match i with O => label ++ seed | S i => K secret (tls_A i) end.
Definition tls_P_hash (n : nat) : bytes := concat ((fun i => K secret (tls_A i ++ label ++ seed)) <$> seq 1 n).

Definition tls_step (A : bytes) : bytes * bytes := (K secret (A ++ label ++ seed), K secret A).

Lemma tls_blocks n k : block_seq tls_step n (tls_A k)
  = concat ((fun i => K secret (tls_A i ++ label ++ seed)) <$> seq k n).
Proof using Type.
  revert k. induction n as [|n IH]; intros k; [done|]. cbn [block_seq seq fmap list_fmap concat tls_step fst snd].
  now rewrite <- (IH (S k)).
Qed.

Lemma tls_prf_spec outlen n : (outlen <= n * m)%nat ->
  tls_prf m vec secret label seed outlen = Some (take outlen (tls_P_hash n)).
Proof using All.
  intros Hn. unfold tls_prf, tls_P_hash. rewrite (proj1 Hc) by (simpl; auto; lia).
  cbn [concat mbind option_bind]. rewrite app_nil_r, <- tls_blocks.
  apply (blocks_loop_seq m _ tls_step ok Hm); [|apply Hc | lia | done].
  intros A HA. unfold tls_step. rewrite !(proj1 Hc) by (simpl; auto; lia).
  cbn [concat mbind option_bind fst snd]. rewrite !app_nil_r. split; [done | split; apply Hc].
Qed.
End TlsPrf.
