(* ===== verification/HashKat.v ===== *)
(** * The keyed hashes and key derivations with the hash functions of the source

    The theorems on HMAC and the key derivation functions with the implementations
    of src/crypto behind the interface, and published test vectors: RFC 2202,
    RFC 4231, RFC 5869, RFC 6070 and the PRF of IEEE 802.11. *)

From S2P Require Import Prelude Crypto AesWrap Aes AesProps AesModes Wpabuf HashMd HashSha1 HashMd5 HashSha2 HashFips HashHmac Kdf.

Section Real.
Context (stack : list bytes -> bytes) (hash_buffer : bytes) {MA : OsAlloc} {HA : AesCipher}.

#[local] Instance real_hmac : Hmac := MdHmac.internal_hmac stack hash_buffer.

(** C31. The HMAC functions over the internal hashes compute HMAC of RFC 2104 of the
    concatenation of their buffers, with MD5 of RFC 1321 and SHA-1, SHA-256 and SHA-384
    of FIPS 180-4, which HashFips.v states without the code; up to 5 buffers for MD5 and
    SHA-1 and 10 for the others, and -1 for more of them.  It assumes a key and buffers
    of less than 2^31 bytes, room on the stack for the hash context (whatever it held
    before), and memory for the message schedule of SHA-512, without which
    [sha512_vector_no_memory] has a wrong hash. *)
Theorem internal_hmac_is_rfc2104 key addr :
  (forall l, (128 <= length (stack l))%nat) -> malloc_ok (80 * 8) = true ->
  zlen key < 2 ^ 31 -> Forall (fun l => zlen l < 2 ^ 31) addr ->
  let text := concat addr in
  Crypto.hmac_md5_vector key addr
    = (if (length addr <=? 5)%nat then Some (rfc2104 64 Rfc1321.md5_spec key text) else None)
  /\ Crypto.hmac_sha1_vector key addr
    = (if (length addr <=? 5)%nat then Some (rfc2104 64 Fips180.sha1_spec key text) else None)
  /\ Crypto.hmac_sha256_vector key addr
    = (if (length addr <=? 10)%nat then Some (rfc2104 64 Fips180.sha256_spec key text) else None)
  /\ Crypto.hmac_sha384_vector key addr
    = (if (length addr <=? 10)%nat then Some (rfc2104 128 Fips180.sha384_spec key text) else None).
Proof.
  intros Hst Hmem Hk Ha text. cbn [Crypto.hmac_md5_vector Crypto.hmac_sha1_vector
    Crypto.hmac_sha256_vector Crypto.hmac_sha384_vector real_hmac MdHmac.internal_hmac].
  destruct (Nat.leb_spec (length addr) 5), (Nat.leb_spec (length addr) 10); try lia;
    repeat split;
    first [ now apply MdHmac.hmac_md5_rfc2104 | now apply MdHmac.hmac_sha1_rfc2104
          | now apply MdHmac.hmac_sha256_rfc2104 | now apply MdHmac.hmac_sha384_rfc2104
          | now apply hmac_vector_limit ].
Qed.

Context (Hstack : forall l, (128 <= length (stack l))%nat).

Lemma rfc2104_length B H n K m : (forall x, length (H x) = n) -> length (rfc2104 B H K m) = n.
Proof. intros HH. apply HH. Qed.

Lemma sha1_computes key : zlen key < 2 ^ 31 ->
  computes 20 Crypto.hmac_sha1_vector (rfc2104 64 Fips180.sha1_spec) (fun l => zlen l < 2 ^ 31) key.
Proof using Hstack.
  intros Hk. assert (forall m, length (rfc2104 64 Fips180.sha1_spec key m) = 20%nat) as HL
    by (intros m; apply rfc2104_length; intros; apply sha1_spec_digest).
  split; [|split; [exact HL | intros m; unfold zlen; rewrite HL; lia]].
  intros l Hl Hok. now apply MdHmac.hmac_sha1_rfc2104.
Qed.

Lemma sha256_computes key :
  computes 32 Crypto.hmac_sha256_vector (rfc2104 64 Fips180.sha256_spec) (fun _ => True) key.
Proof using Hstack.
  split; [|split; [intros m; apply rfc2104_length; intros; apply sha256_spec_digest | done]].
  intros l Hl _. apply MdHmac.hmac_sha256_rfc2104; [done | lia].
Qed.
End Real.

(** C32. hmac_sha256_kdf() with the internal SHA-256 is HKDF-Expand of RFC 5869 over
    HMAC-SHA256, the KDF of RFC 5295 when a label is given: 0 and the first bytes of
    T(1), T(2), ... for up to 255 blocks, -1 and a cleared buffer for more. *)
Theorem hmac_sha256_kdf_is_hkdf stack hash_buffer `{OsAlloc} `{AesCipher} secret label seed out :
  (forall l, (128 <= length (stack l))%nat) ->
  let info := match label with Some l => l ++ [0] | None => [] end ++ seed in
  @hmac_sha256_kdf (MdHmac.internal_hmac stack hash_buffer) secret label seed out
  = if (length out <=? 255 * 32)%nat
    then (0, take (length out) (hkdf_okm (rfc2104 64 Fips180.sha256_spec) secret info 255))
    else (-1, replicate (length out) 0).
Proof.
  intros Hst info. apply (hmac_kdf_hkdf 32 _ _ (fun _ => True)); try done; [lia|]. now apply sha256_computes.
Qed.

(** pbkdf2_sha1() with the internal SHA-1 is PBKDF2 of RFC 2898 (IEEE 802.11, H.4): the blocks
    F(P, S, c, 1), F(P, S, c, 2), ... cut to the length of the key. *)
Theorem pbkdf2_sha1_is_rfc2898 stack hash_buffer `{OsAlloc} `{AesCipher} passphrase ssid iterations buflen n :
  (forall l, (128 <= length (stack l))%nat) ->
  zlen passphrase < 2 ^ 31 -> zlen ssid < 2 ^ 31 -> (buflen <= n * 20)%nat -> Z.of_nat n < 2 ^ 32 ->
  @pbkdf2_sha1 (MdHmac.internal_hmac stack hash_buffer) passphrase ssid iterations buflen
  = Some (take buflen (concat
      (pbkdf2_F (rfc2104 64 Fips180.sha1_spec) passphrase ssid iterations <$> (Z.of_nat <$> seq 1 n)))).
Proof.
  intros Hst Hp Hs Hb Hn.
  eapply (pbkdf2_sha1_spec _ (fun l => zlen l < 2 ^ 31)); [now apply sha1_computes | done | done | done | done].
Qed.

(** ** Test vectors *)

#[local] Instance kat_aes : AesCipher := internal_aes some_memory some_memory.
#[local] Instance kat_alloc : OsAlloc := fun _ => true.

Definition kat_stack (l : list bytes) : bytes := replicate 128 0xaa.

#[local] Instance kat_hmac : Hmac := MdHmac.internal_hmac kat_stack (replicate 48 0xaa).

Lemma kat_stack_size l : (128 <= length (kat_stack l))%nat.
Proof. unfold kat_stack. rewrite length_replicate. lia. Qed.

#[local] Instance kat_hmac_laws : HmacLaws.
Proof.
  apply MdHmac.internal_hmac_laws; [exact kat_stack_size | reflexivity |].
  intros c b. cbn [aes_encrypt kat_aes internal_aes]. unfold Internal.aes_encrypt, rijndaelEncrypt.
  destruct (full_rounds _ _ _ _ _) as [t o]. split; [reflexivity|].
  unfold store_block, PUTU32. repeat constructor; apply is_uint_wrap8.
Qed.

(** "Jefe", and "what do ya want for nothing?" in two buffers. *)
Definition kat_jefe : bytes := [0x4a; 0x65; 0x66; 0x65].
Definition kat_want : list bytes :=
   [[0x77; 0x68; 0x61; 0x74; 0x20; 0x64; 0x6f; 0x20; 0x79; 0x61; 0x20]; [0x77; 0x61; 0x6e; 0x74;
   0x20; 0x66; 0x6f; 0x72; 0x20; 0x6e; 0x6f; 0x74; 0x68; 0x69; 0x6e; 0x67; 0x3f]].

Example hmac_md5_kat : Crypto.hmac_md5_vector kat_jefe kat_want =
   Some [0x75; 0x0c; 0x78; 0x3e; 0x6a; 0xb0; 0xb5; 0x03; 0xea; 0xa8; 0x6e; 0x31; 0x0a; 0x5d; 0xb7;
   0x38].
Proof. vm_compute. reflexivity. Qed.

Example hmac_sha1_kat : Crypto.hmac_sha1_vector kat_jefe kat_want =
   Some [0xef; 0xfc; 0xdf; 0x6a; 0xe5; 0xeb; 0x2f; 0xa2; 0xd2; 0x74; 0x16; 0xd5; 0xf1; 0x84; 0xdf;
   0x9c; 0x25; 0x9a; 0x7c; 0x79].
Proof. vm_compute. reflexivity. Qed.

Example hmac_sha256_kat : Crypto.hmac_sha256_vector kat_jefe kat_want =
   Some [0x5b; 0xdc; 0xc1; 0x46; 0xbf; 0x60; 0x75; 0x4e; 0x6a; 0x04; 0x24; 0x26; 0x08; 0x95; 0x75;
   0xc7; 0x5a; 0x00; 0x3f; 0x08; 0x9d; 0x27; 0x39; 0x83; 0x9d; 0xec; 0x58; 0xb9; 0x64; 0xec; 0x38;
   0x43].
Proof. vm_compute. reflexivity. Qed.

Example hmac_sha384_kat : Crypto.hmac_sha384_vector kat_jefe kat_want =
   Some [0xaf; 0x45; 0xd2; 0xe3; 0x76; 0x48; 0x40; 0x31; 0x61; 0x7f; 0x78; 0xd2; 0xb5; 0x8a; 0x6b;
   0x1b; 0x9c; 0x7e; 0xf4; 0x64; 0xf5; 0xa0; 0x1b; 0x47; 0xe4; 0x2e; 0xc3; 0x73; 0x63; 0x22; 0x44;
   0x5e; 0x8e; 0x22; 0x40; 0xca; 0x5e; 0x69; 0xe2; 0xc7; 0x8b; 0x32; 0x39; 0xec; 0xfa; 0xb2; 0x16;
   0x49].
Proof. vm_compute. reflexivity. Qed.

(** A key longer than a block (RFC 4231, 4.7). *)
Example hmac_long_key_kat : Crypto.hmac_sha256_vector (replicate 131 0xaa)
  [[0x54; 0x65; 0x73; 0x74; 0x20; 0x55; 0x73; 0x69; 0x6e; 0x67; 0x20; 0x4c; 0x61; 0x72; 0x67;
    0x65; 0x72; 0x20; 0x54; 0x68; 0x61; 0x6e; 0x20; 0x42; 0x6c; 0x6f; 0x63; 0x6b; 0x2d; 0x53; 0x69;
    0x7a; 0x65; 0x20; 0x4b; 0x65; 0x79; 0x20; 0x2d; 0x20; 0x48; 0x61; 0x73; 0x68; 0x20; 0x4b; 0x65;
    0x79; 0x20; 0x46; 0x69; 0x72; 0x73; 0x74]] =
   Some [0x60; 0xe4; 0x31; 0x59; 0x1e; 0xe0; 0xb6; 0x7f; 0x0d; 0x8a; 0x26; 0xaa; 0xcb; 0xf5; 0xb7;
   0x7f; 0x8e; 0x0b; 0xc6; 0x21; 0x37; 0x28; 0xc5; 0x14; 0x05; 0x46; 0x04; 0x0f; 0x0e; 0xe3; 0x7f;
   0x54].
Proof. vm_compute. reflexivity. Qed.

(** IEEE 802.11, test vectors of the PRF. *)
Example sha1_prf_kat : sha1_prf (replicate 20 0x0b) [0x70; 0x72; 0x65; 0x66; 0x69; 0x78]
  [0x48; 0x69; 0x20; 0x54; 0x68; 0x65; 0x72; 0x65] 64 =
   Some [0xbc; 0xd4; 0xc6; 0x50; 0xb3; 0x0b; 0x96; 0x84; 0x95; 0x18; 0x29; 0xe0; 0xd7; 0x5f; 0x9d;
   0x54; 0xb8; 0x62; 0x17; 0x5e; 0xd9; 0xf0; 0x06; 0x06; 0xe1; 0x7d; 0x8d; 0xa3; 0x54; 0x02; 0xff;
   0xee; 0x75; 0xdf; 0x78; 0xc3; 0xd3; 0x1e; 0x0f; 0x88; 0x9f; 0x01; 0x21; 0x20; 0xc0; 0x86; 0x2b;
   0xeb; 0x67; 0x75; 0x3e; 0x74; 0x39; 0xae; 0x24; 0x2e; 0xdb; 0x83; 0x73; 0x69; 0x83; 0x56; 0xcf;
   0x5a].
Proof. vm_compute. reflexivity. Qed.

(** RFC 6070, two iterations. *)
Example pbkdf2_kat : pbkdf2_sha1 [0x70; 0x61; 0x73; 0x73; 0x77; 0x6f; 0x72; 0x64] [0x73; 0x61; 0x6c; 0x74] 2 20 =
   Some [0xea; 0x6c; 0x01; 0x4d; 0xc7; 0x2d; 0x6f; 0x8c; 0xcd; 0x1e; 0xd9; 0x2a; 0xce; 0x1d; 0x41;
   0xf0; 0xd8; 0xde; 0x89; 0x57].
Proof. vm_compute. reflexivity. Qed.

(** RFC 5869, A.1. *)
Definition kat_prk : bytes :=
   [0x07; 0x77; 0x09; 0x36; 0x2c; 0x2e; 0x32; 0xdf; 0x0d; 0xdc; 0x3f; 0x0d; 0xc4; 0x7b; 0xba; 0x63;
   0x90; 0xb6; 0xc7; 0x3b; 0xb5; 0x0f; 0x9c; 0x31; 0x22; 0xec; 0x84; 0x4a; 0xd7; 0xc2; 0xb3; 0xe5].
Definition kat_info : bytes := [0xf0; 0xf1; 0xf2; 0xf3; 0xf4; 0xf5; 0xf6; 0xf7; 0xf8; 0xf9].
Example hkdf_kat : hmac_sha256_kdf kat_prk None kat_info (replicate 42 0) =
   (0, [0x3c; 0xb2; 0x5f; 0x25; 0xfa; 0xac; 0xd5; 0x7a; 0x90; 0x43; 0x4f; 0x64; 0xd0; 0x36; 0x2f;
   0x2a; 0x2d; 0x2d; 0x0a; 0x90; 0xcf; 0x1a; 0x5a; 0x4c; 0x5d; 0xb0; 0x2d; 0x56; 0xec; 0xc4; 0xc5;
   0xbf; 0x34; 0x00; 0x72; 0x08; 0xd5; 0xb8; 0x87; 0x18; 0x58; 0x65]).
Proof. vm_compute. reflexivity. Qed.


(** ** The theorems at these inputs *)

Lemma internal_hmac_is_rfc2104_witness :
  Crypto.hmac_sha256_vector kat_jefe kat_want = Some (rfc2104 64 Fips180.sha256_spec kat_jefe (concat kat_want)).
Proof.
  refine (proj1 (proj2 (proj2 (internal_hmac_is_rfc2104 kat_stack (replicate 48 0xaa) kat_jefe kat_want
    kat_stack_size _ _ _)))); [reflexivity | reflexivity | repeat constructor].
Defined.

Lemma hmac_sha256_kdf_is_hkdf_witness :
  hmac_sha256_kdf kat_prk None kat_info (replicate 42 0)
  = (0, take 42 (hkdf_okm (rfc2104 64 Fips180.sha256_spec) kat_prk kat_info 255)).
Proof.
  exact (hmac_sha256_kdf_is_hkdf kat_stack (replicate 48 0xaa) kat_prk None kat_info (replicate 42 0) kat_stack_size).
Defined.

Lemma pbkdf2_sha1_is_rfc2898_witness :
  pbkdf2_sha1 [0x70; 0x77] [0x73] 2 32
  = Some (take 32 (concat (pbkdf2_F (rfc2104 64 Fips180.sha1_spec) [0x70; 0x77] [0x73] 2 <$> (Z.of_nat <$> seq 1 2)))).
Proof.
  apply (pbkdf2_sha1_is_rfc2898 kat_stack (replicate 48 0xaa) [0x70; 0x77] [0x73] 2 32 2 kat_stack_size);
    [reflexivity | reflexivity | lia | reflexivity].
Defined.
