(* ===== verification/AesSiv.v ===== *)
(** * AES-EAX and AES-SIV (src/crypto/aes-eax.c, aes-siv.c)

    Two authenticated modes built from OMAC1 and CTR.  The return value 0 is a
    buffer; [None] is the error, with [Some None] and [None] as in AesModes.v where
    an OMAC1 call is involved. *)

From S2P Require Import Prelude AesWrap Wpabuf AesModes.

Section Siv.
Context `{AesCipher} `{OsAlloc}.

(** ** EAX *)

(** [buf]: 16 bytes of which the last one is the number of the OMAC1 call, then the
    data.  The buffer holds the longest of the three inputs. *)
Definition eax_buf (n : Z) (data : bytes) : bytes := replicate 15 0 ++ [n] ++ data.

Definition eax_buf_len (nonce hdr data : bytes) : Z :=
  let buf_len := if zlen data <? zlen nonce then zlen nonce else zlen data in
  let buf_len := if buf_len <? zlen hdr then zlen hdr else buf_len in
  buf_len + 16.

(** The cipher text and the tag. *)
(* aes-eax.c aes_128_eax_encrypt *)
Definition aes_128_eax_encrypt (key nonce hdr data : bytes) : option (option (bytes * bytes)) :=
  if negb (malloc_ok (eax_buf_len nonce hdr data)) then Some None else
  let! nonce_mac := omac1_128 key (eax_buf 0 nonce) in
  let! hdr_mac := omac1_128 key (eax_buf 1 hdr) in
  match aes_128_ctr_encrypt key nonce_mac data with
  | None => Some None
  | Some data =>
      let! data_mac := omac1_128 key (eax_buf 2 data) in
      Some (Some (data, xor_bytes (xor_bytes nonce_mac data_mac) hdr_mac))
  end.

(** The plain text; a wrong tag is the return value -2. *)
(* aes-eax.c aes_128_eax_decrypt *)
Definition aes_128_eax_decrypt (key nonce hdr data tag : bytes) : option (option bytes) :=
  if negb (malloc_ok (eax_buf_len nonce hdr data)) then Some None else
  let! nonce_mac := omac1_128 key (eax_buf 0 nonce) in
  let! hdr_mac := omac1_128 key (eax_buf 1 hdr) in
  let! data_mac := omac1_128 key (eax_buf 2 data) in
  if bool_decide (take AES_BLOCK_SIZE tag = xor_bytes (xor_bytes nonce_mac data_mac) hdr_mac)
  then Some (aes_128_ctr_encrypt key nonce_mac data)
  else Some None.

(** ** SIV *)

(* aes-siv.c dbl *)
Definition dbl (pad : bytes) : bytes :=
  let carry := Z.land (byte_at pad 0) 0x80 in
  let pad := shift_left_bytes pad in
  if carry =? 0 then pad
  else <[(AES_BLOCK_SIZE - 1)%nat := Z.lxor (byte_at pad (AES_BLOCK_SIZE - 1)) 0x87]> pad.

(* aes-siv.c xor *)
Definition xor_block16 (a b : bytes) : bytes := xor_bytes (take AES_BLOCK_SIZE a) (take AES_BLOCK_SIZE b).

(* aes-siv.c xorend *)
Definition xorend (a b : bytes) : bytes :=
  if (length a <? length b)%nat then a
  else take (length a - length b) a ++ xor_bytes (drop (length a - length b) a) b.

(** [len <= AES_BLOCK_SIZE] *)
(* aes-siv.c pad_block *)
Definition pad_block (addr : bytes) : bytes :=
  let len := length addr in
  if (len <? AES_BLOCK_SIZE)%nat then addr ++ 0x80 :: replicate (AES_BLOCK_SIZE - len - 1) 0 else addr.

(** [for (i = 0; i < num_elem - 1; i++)]: all elements but the last. *)
(* aes-siv.c aes_s2v @88-96 *)
Fixpoint s2v_loop (key : bytes) (key_len : nat) (addr : list bytes) (tmp : bytes) : option (option bytes) :=
  match addr with
  | [] => Some (Some tmp)
  | a :: addr =>
      let! tmp2 := omac1_aes_vector key key_len [a] in
      s2v_loop key key_len addr (xor_block16 (dbl tmp) tmp2)
  end.

(* aes-siv.c aes_s2v *)
Definition aes_s2v (key : bytes) (key_len : nat) (addr : list bytes) : option (option bytes) :=
  match last addr with
  | None =>
      let tmp := replicate (AES_BLOCK_SIZE - 1) 0 ++ [1] in
      omac1_aes_vector key key_len [tmp]
  | Some a =>
      let! tmp := omac1_aes_vector key key_len [replicate AES_BLOCK_SIZE 0] in
      let! tmp := s2v_loop key key_len (removelast addr) tmp in
      if (AES_BLOCK_SIZE <=? length a)%nat then
        if negb (malloc_ok (zlen a)) then Some None else
        omac1_aes_vector key key_len [xorend a tmp]
      else
        let tmp := dbl tmp in
        let tmp2 := pad_block a in
        let tmp := xor_block16 tmp tmp2 in
        omac1_aes_vector key key_len [tmp]
  end.

(** [v[8] &= 0x7f; v[12] &= 0x7f;] *)
(* aes-siv.c aes_siv_encrypt @156-157 *)
Definition siv_ctr (v : bytes) : bytes :=
  <[12%nat := Z.land (byte_at v 12) 0x7f]> (<[8%nat := Z.land (byte_at v 8) 0x7f]> v).

(** [num_elem > ARRAY_SIZE(_addr) - 1 || (key_len != 32 && key_len != 48 && key_len != 64)] *)
(* aes-siv.c aes_siv_encrypt @131-133 *)
Definition siv_bad_args (key_len : nat) (addr : list bytes) : bool :=
  (6 - 1 <? length addr)%nat
  || negb ((key_len =? 32) || (key_len =? 48) || (key_len =? 64))%nat.

(* aes-siv.c aes_siv_encrypt *)
Definition aes_siv_encrypt (key : bytes) (key_len : nat) (pw : bytes) (addr : list bytes)
  : option (option bytes) :=
  if siv_bad_args key_len addr then Some None else
  let key_len := (key_len / 2)%nat in
  let k1 := key in
  let k2 := drop key_len key in
  let! v := aes_s2v k1 key_len (addr ++ [pw]) in
  let iv := v in
  match aes_ctr_encrypt k2 key_len (siv_ctr v) pw with
  | None => Some None
  | Some crypt_pw => Some (Some (iv ++ crypt_pw))
  end.

(* aes-siv.c aes_siv_decrypt *)
Definition aes_siv_decrypt (key : bytes) (key_len : nat) (iv_crypt : bytes) (addr : list bytes)
  : option (option bytes) :=
  if (length iv_crypt <? AES_BLOCK_SIZE)%nat || siv_bad_args key_len addr then Some None else
  let key_len := (key_len / 2)%nat in
  let k1 := key in
  let k2 := drop key_len key in
  let iv := take AES_BLOCK_SIZE iv_crypt in
  match aes_ctr_encrypt k2 key_len (siv_ctr iv) (drop AES_BLOCK_SIZE iv_crypt) with
  | None => Some None
  | Some out =>
      let! check := aes_s2v k1 key_len (addr ++ [out]) in
      if memcmp check iv =? 0 then Some (Some out) else Some None
  end.

End Siv.

(** ** What the modes accept *)

Lemma memcmp_zero a b : length a = length b -> memcmp a b = 0 -> a = b.
Proof.
  revert b. induction a as [|x a IH]; intros [|y b] Hl; simpl in *; try discriminate; [done|].
  destruct (Z.eqb_spec x y) as [-> | Hn]; [|lia]. intros E. f_equal. auto.
Qed.

Section Accept.
Context `{AesLaws} `{OsAlloc}.

Lemma omac1_one_block key key_len data r :
  bytes_ok key -> bytes_ok data -> omac1_aes_vector key key_len [data] = Some (Some r) -> is_block r.
Proof.
  intros Hk Hd. destruct (aes_encrypt_init (take key_len key)) as [e|] eqn:He.
  - rewrite (omac1_one key key_len e) by done. intros [= <-].
    apply (cmac_block (take key_len key)); auto with wpa.
  - rewrite omac1_one_none by done. discriminate.
Qed.

Lemma bytes_ok_insert i v l : bytes_ok l -> is_byte v -> bytes_ok (<[i := v]> l).
Proof. intros. now apply Forall_insert. Qed.

(** CTR applied twice, as a function of the key buffer. *)
Lemma aes_ctr_encrypt_spec key key_len iv data r :
  bytes_ok key -> is_block iv -> bytes_ok data -> aes_ctr_encrypt key key_len iv data = Some r ->
  length r = length data /\ bytes_ok r /\ aes_ctr_encrypt key key_len iv r = Some data.
Proof.
  intros Hk Hiv Hd. unfold aes_ctr_encrypt.
  destruct (aes_encrypt_init (take key_len key)) as [e|] eqn:He; [|discriminate]. intros [= <-].
  assert (bytes_ok (take key_len key)) as Hk' by auto with wpa.
  rewrite (take_ge iv) by (destruct Hiv as [-> _]; done).
  assert (length (ctr_loop e (length data) iv data) = length data) as L
    by now apply (ctr_loop_length (take key_len key) e Hk' He).
  split; [exact L|]. split; [now apply (ctr_loop_ok (take key_len key) e Hk' He)|].
  rewrite L. f_equal. now apply (ctr_loop_involutive (take key_len key) e Hk' He).
Qed.

(** *** EAX *)

Lemma eax_buf_ok n data : is_byte n -> bytes_ok data -> bytes_ok (eax_buf n data).
Proof.
  intros Hn Hd. unfold eax_buf. apply bytes_ok_app. split; [apply bytes_ok_replicate; unfold is_uint; lia|].
  now constructor.
Qed.

Lemma eax_tag_length a b c : is_block a -> is_block b -> is_block c -> is_block (xor_bytes (xor_bytes a b) c).
Proof. intros. apply xor_bytes_block; [|done]. now apply xor_bytes_block. Qed.

Lemma zlen_length {A B} (l : list A) (k : list B) : length l = length k -> zlen l = zlen k.
Proof. unfold zlen. congruence. Qed.

Lemma eax_buf_len_same nonce hdr p q : length p = length q -> eax_buf_len nonce hdr p = eax_buf_len nonce hdr q.
Proof. intros E. unfold eax_buf_len. now rewrite (zlen_length p q). Qed.

Context (key nonce hdr : bytes) (Hk : bytes_ok key) (Hn : bytes_ok nonce) (Hh : bytes_ok hdr).

Lemma eax_mac_block n data r :
  is_byte n -> bytes_ok data -> omac1_128 key (eax_buf n data) = Some (Some r) -> is_block r.
Proof. intros Bn Hd. apply omac1_one_block; [exact Hk | now apply eax_buf_ok]. Qed.

Lemma is_byte_012 : is_byte 0 /\ is_byte 1 /\ is_byte 2.
Proof. unfold is_uint. lia. Qed.

Lemma eax_decrypt_inv data tag p :
  bytes_ok data -> length tag = AES_BLOCK_SIZE ->
  aes_128_eax_decrypt key nonce hdr data tag = Some (Some p) ->
  aes_128_eax_encrypt key nonce hdr p = Some (Some (data, tag)) /\ bytes_ok p.
Proof.
  intros Hd Ht. unfold aes_128_eax_decrypt, aes_128_eax_encrypt.
  destruct is_byte_012 as (B0 & _ & _).
  destruct (malloc_ok (eax_buf_len nonce hdr data)) eqn:Em; [cbn [negb]|discriminate].
  destruct (omac1_128 key (eax_buf 0 nonce)) as [[nm|]|] eqn:En; try discriminate.
  destruct (omac1_128 key (eax_buf 1 hdr)) as [[hm|]|] eqn:Eh; try discriminate.
  destruct (omac1_128 key (eax_buf 2 data)) as [[dm|]|] eqn:Ed; try discriminate.
  case_bool_decide as Etag; [|discriminate]. intros [= Ec].
  pose proof (eax_mac_block 0 nonce nm B0 Hn En) as Bn.
  destruct (aes_ctr_encrypt_spec key 16 nm data p Hk Bn Hd Ec) as (Lp & Bp & Ep).
  rewrite (eax_buf_len_same nonce hdr p data), Em by done. cbn [negb].
  unfold aes_128_ctr_encrypt. rewrite Ep, Ed, <- Etag, take_ge by lia. auto.
Qed.

Lemma eax_encrypt_inv data tag p :
  bytes_ok p -> aes_128_eax_encrypt key nonce hdr p = Some (Some (data, tag)) ->
  aes_128_eax_decrypt key nonce hdr data tag = Some (Some p).
Proof.
  intros Hp. unfold aes_128_eax_decrypt, aes_128_eax_encrypt.
  destruct is_byte_012 as (B0 & B1 & B2).
  destruct (malloc_ok (eax_buf_len nonce hdr p)) eqn:Em; [cbn [negb]|discriminate].
  destruct (omac1_128 key (eax_buf 0 nonce)) as [[nm|]|] eqn:En; try discriminate.
  destruct (omac1_128 key (eax_buf 1 hdr)) as [[hm|]|] eqn:Eh; try discriminate.
  pose proof (eax_mac_block 0 nonce nm B0 Hn En) as Bn.
  destruct (aes_128_ctr_encrypt key nm p) as [c|] eqn:Ec; [|discriminate].
  destruct (aes_ctr_encrypt_spec key 16 nm p c Hk Bn Hp Ec) as (Lc & Bc & Ep).
  destruct (omac1_128 key (eax_buf 2 c)) as [[dm|]|] eqn:Ed; try discriminate.
  intros [= <- <-]. rewrite (eax_buf_len_same nonce hdr c p), Em by done. cbn [negb].
  pose proof (eax_mac_block 1 hdr hm B1 Hh Eh) as Bh. pose proof (eax_mac_block 2 c dm B2 Bc Ed) as Bd.
  destruct (eax_tag_length nm dm hm Bn Bd Bh) as [Lt _].
  rewrite Ed, bool_decide_true by (rewrite take_ge by lia; done).
  unfold aes_128_ctr_encrypt. now rewrite Ep.
Qed.
End Accept.

Section AcceptSiv.
Context `{AesLaws} `{OsAlloc}.

(** *** SIV *)

Lemma land_7f b : is_byte b -> is_byte (Z.land b 0x7f).
Proof. apply is_uint_land_l. lia. Qed.

Lemma siv_ctr_block v : is_block v -> is_block (siv_ctr v).
Proof.
  intros [Hl Hb]. split; unfold siv_ctr; [now rewrite !length_insert|].
  repeat apply bytes_ok_insert; auto using land_7f with wpa.
Qed.

Lemma xor_block16_ok a b : bytes_ok a -> bytes_ok b -> bytes_ok (xor_block16 a b).
Proof. intros. apply zip_lxor_ok; auto with wpa. Qed.

Lemma dbl_ok a : bytes_ok (dbl a).
Proof.
  unfold dbl. pose proof (shift_left_ok a) as Hs. destruct (_ =? 0); [done|].
  apply bytes_ok_insert; [done|]. apply is_uint_lxor; [lia | auto with wpa | unfold is_uint; lia].
Qed.

Lemma pad_block_ok a : bytes_ok a -> bytes_ok (pad_block a).
Proof.
  intros Ha. unfold pad_block. destruct (_ <? _)%nat; [|done].
  apply bytes_ok_app. split; [done|]. constructor; [unfold is_uint; lia|].
  apply bytes_ok_replicate. unfold is_uint. lia.
Qed.

Lemma xorend_ok a b : bytes_ok a -> bytes_ok b -> bytes_ok (xorend a b).
Proof.
  intros Ha Hb. unfold xorend. destruct (_ <? _)%nat; [done|].
  apply bytes_ok_app. split; [auto with wpa|]. apply zip_lxor_ok; auto with wpa.
Qed.

Lemma s2v_loop_ok key key_len addr tmp r :
  bytes_ok key -> Forall bytes_ok addr -> bytes_ok tmp ->
  s2v_loop key key_len addr tmp = Some (Some r) -> bytes_ok r.
Proof.
  intros Hk Ha. revert tmp. induction Ha as [|a addr Hx _ IH]; intros tmp Ht; cbn [s2v_loop].
  { now intros [= <-]. }
  destruct (omac1_aes_vector key key_len [a]) as [[t2|]|] eqn:E; try discriminate.
  pose proof (omac1_one_block key key_len a t2 Hk Hx E) as [_ B2].
  apply IH, xor_block16_ok; [apply dbl_ok | done].
Qed.

Lemma aes_s2v_block key key_len addr v :
  bytes_ok key -> Forall bytes_ok addr -> aes_s2v key key_len addr = Some (Some v) -> is_block v.
Proof.
  intros Hk Ha. unfold aes_s2v. destruct (last addr) as [a|] eqn:El.
  - assert (addr = removelast addr ++ [a]) as Ea.
    { destruct addr using rev_ind; [discriminate|]. rewrite last_snoc in El. injection El as ->.
      now rewrite removelast_last. }
    rewrite Ea in Ha. apply Forall_app in Ha as [Hr Hx]. apply Forall_inv in Hx.
    destruct (omac1_aes_vector key key_len [replicate AES_BLOCK_SIZE 0]) as [[t|]|] eqn:Et; try discriminate.
    pose proof (omac1_one_block key key_len _ t Hk (proj2 zero_block) Et) as [_ Bt].
    destruct (s2v_loop key key_len (removelast addr) t) as [[t'|]|] eqn:Es; try discriminate.
    pose proof (s2v_loop_ok key key_len _ t t' Hk Hr Bt Es) as Bt'.
    destruct (_ <=? _)%nat.
    + destruct (negb _); [discriminate|]. apply omac1_one_block; auto using xorend_ok.
    + apply omac1_one_block; auto using xor_block16_ok, dbl_ok, pad_block_ok.
  - apply omac1_one_block; [done|]. apply bytes_ok_app. split; [apply bytes_ok_replicate|repeat constructor];
      unfold is_uint; lia.
Qed.

Lemma siv_decrypt_inv key key_len c addr p :
  bytes_ok key -> Forall bytes_ok addr -> bytes_ok c ->
  aes_siv_decrypt key key_len c addr = Some (Some p) ->
  aes_siv_encrypt key key_len p addr = Some (Some c) /\ bytes_ok p.
Proof.
  intros Hk Ha Hc. unfold aes_siv_decrypt, aes_siv_encrypt.
  destruct (Nat.ltb_spec (length c) AES_BLOCK_SIZE) as [|Hl]; [discriminate|]. cbn [orb].
  destruct (siv_bad_args key_len addr); [discriminate|].
  set (n := (key_len / 2)%nat). set (iv := take AES_BLOCK_SIZE c).
  assert (is_block iv) as Biv by (split; [unfold iv; rewrite length_take; lia | unfold iv; auto with wpa]).
  destruct (aes_ctr_encrypt (drop n key) n (siv_ctr iv) (drop AES_BLOCK_SIZE c)) as [out|] eqn:Ec; [|discriminate].
  destruct (aes_ctr_encrypt_spec (drop n key) n (siv_ctr iv) _ out (bytes_ok_drop _ _ Hk)
              (siv_ctr_block iv Biv) (bytes_ok_drop _ _ Hc) Ec) as (Lo & Bo & Eo).
  destruct (aes_s2v key n (addr ++ [out])) as [[check|]|] eqn:Es; try discriminate.
  destruct (Z.eqb_spec (memcmp check iv) 0) as [Em|]; [|discriminate]. intros [= <-].
  assert (is_block check) as [Lc _].
  { apply (aes_s2v_block key n (addr ++ [out])); [done | | done]. now apply Forall_app; split; [|constructor]. }
  apply memcmp_zero in Em as ->; [|destruct Biv; congruence].
  rewrite Es, Eo. unfold iv. now rewrite take_drop.
Qed.

Lemma siv_encrypt_inv key key_len c addr p :
  bytes_ok key -> Forall bytes_ok addr -> bytes_ok p ->
  aes_siv_encrypt key key_len p addr = Some (Some c) ->
  aes_siv_decrypt key key_len c addr = Some (Some p).
Proof.
  intros Hk Ha Hp. unfold aes_siv_decrypt, aes_siv_encrypt.
  destruct (siv_bad_args key_len addr); [discriminate|].
  set (n := (key_len / 2)%nat).
  destruct (aes_s2v key n (addr ++ [p])) as [[v|]|] eqn:Es; try discriminate.
  assert (is_block v) as Bv.
  { apply (aes_s2v_block key n (addr ++ [p])); [done | | done]. now apply Forall_app; split; [|constructor]. }
  destruct (aes_ctr_encrypt (drop n key) n (siv_ctr v) p) as [cp|] eqn:Ec; [|discriminate].
  destruct (aes_ctr_encrypt_spec (drop n key) n (siv_ctr v) p cp (bytes_ok_drop _ _ Hk)
              (siv_ctr_block v Bv) Hp Ec) as (Lo & Bo & Eo).
  intros [= <-]. destruct Bv as [Lv Bv].
  rewrite length_app, Lv. destruct (Nat.ltb_spec (AES_BLOCK_SIZE + length cp) AES_BLOCK_SIZE); [lia|]. cbn [orb].
  rewrite take_app_length', drop_app_length' by done.
  now rewrite Eo, Es, memcmp_refl.
Qed.
End AcceptSiv.

(** C34. A cipher text that aes_siv_decrypt() accepts is the one aes_siv_encrypt() makes
    of the plain text it returns, and every such cipher text is accepted. *)
Theorem aes_siv_accepts_exactly `{AesLaws} `{OsAlloc} key key_len c addr p :
  bytes_ok key -> Forall bytes_ok addr -> bytes_ok c ->
  (aes_siv_decrypt key key_len c addr = Some (Some p)
   <-> aes_siv_encrypt key key_len p addr = Some (Some c) /\ bytes_ok p).
Proof.
  intros Hk Ha Hc. split; [now apply siv_decrypt_inv|].
  intros [He Hp]. now apply siv_encrypt_inv.
Qed.

Theorem aes_eax_accepts_exactly `{AesLaws} `{OsAlloc} key nonce hdr data tag p :
  bytes_ok key -> bytes_ok nonce -> bytes_ok hdr -> bytes_ok data -> length tag = AES_BLOCK_SIZE ->
  (aes_128_eax_decrypt key nonce hdr data tag = Some (Some p)
   <-> aes_128_eax_encrypt key nonce hdr p = Some (Some (data, tag)) /\ bytes_ok p).
Proof.
  intros Hk Hn Hh Hd Ht. split; [now apply eax_decrypt_inv|].
  intros [He Hp]. now apply eax_encrypt_inv.
Qed.
