(* ===== verification/AesCcm.v ===== *)
(** * AES-CCM (src/crypto/aes-ccm.c)

    Authenticated encryption with a CBC-MAC and a counter mode.  Input and output
    buffers do not overlap.  aes_ccm_encr() encrypts the counter of the last,
    partial block straight into the output buffer, so that up to 15 bytes behind the
    output are written; the model returns them as part of the output. *)

From S2P Require Import Prelude UtilsCommon AesWrap AesModes.

(** [const size_t L = 2;] in both entry points *)
(* aes-ccm.c aes_ccm_ae @152-152 *)
Definition CCM_L : nat := 2.

Section Ccm.
Context `{AesCipher}.

(* aes-ccm.c xor_aes_block *)
Definition xor_aes_block (dst src : bytes) : bytes :=
  xor_bytes (take AES_BLOCK_SIZE dst) (take AES_BLOCK_SIZE src).

(** [b[0] = aad_len ? 0x40 : 0; b[0] |= (((M - 2) / 2) << 3); b[0] |= (L - 1);] in u8. *)
(* aes-ccm.c aes_ccm_auth_start @37-39 *)
Definition ccm_flags (M : nat) (aad_len : nat) : Z :=
  let b := if (aad_len =? 0)%nat then 0 else 0x40 in
  let b := u8 (Z.lor b (u64 (Z.shiftl (u64 (Z.of_nat M - 2) / 2) 3))) in
  u8 (Z.lor b (Z.of_nat (CCM_L - 1))).

(* aes-ccm.c aes_ccm_auth_start *)
Definition aes_ccm_auth_start (aes : aes_ctx) (M : nat) (nonce aad : bytes) (plain_len : nat) : bytes :=
  let b := [ccm_flags M (length aad)] ++ take (15 - CCM_L) nonce ++ put_be16 (Z.of_nat plain_len) in
  let x := aes_encrypt aes b in
  if (length aad =? 0)%nat then x else
  let aad_buf := put_be16 (zlen aad) ++ aad ++ replicate (2 * AES_BLOCK_SIZE - 2 - length aad) 0 in
  let x := aes_encrypt aes (xor_aes_block aad_buf x) in
  if (AES_BLOCK_SIZE - 2 <? length aad)%nat
  then aes_encrypt aes (xor_aes_block (drop AES_BLOCK_SIZE aad_buf) x)
  else x.

(** [for (i = 0; i < len / AES_BLOCK_SIZE; i++)] and the zero-padded rest. *)
(* aes-ccm.c aes_ccm_auth @69-80 *)
Fixpoint ccm_auth_loop (aes : aes_ctx) (n : nat) (data x : bytes) : bytes :=
  match n with
  | O =>
      if (length data =? 0)%nat then x
      else aes_encrypt aes (xor_bytes (take (length data) x) data ++ drop (length data) x)
  | S n => ccm_auth_loop aes n (drop AES_BLOCK_SIZE data) (aes_encrypt aes (xor_aes_block x data))
  end.

(* aes-ccm.c aes_ccm_auth *)
Definition aes_ccm_auth (aes : aes_ctx) (data x : bytes) : bytes :=
  ccm_auth_loop aes (length data / AES_BLOCK_SIZE) data x.

(** The counter block but for its last two bytes, which every user sets. *)
(* aes-ccm.c aes_ccm_encr_start *)
Definition aes_ccm_encr_start (nonce : bytes) : bytes :=
  [Z.of_nat (CCM_L - 1)] ++ take (15 - CCM_L) nonce.

(** [WPA_PUT_BE16(&a[AES_BLOCK_SIZE - 2], i)] *)
(* aes-ccm.c aes_ccm_encr @100-100 *)
Definition ccm_counter (a : bytes) (i : Z) : bytes := a ++ put_be16 i.

(** The output, with what the last call of the cipher leaves behind it. *)
(* aes-ccm.c aes_ccm_encr @99-113 *)
Fixpoint ccm_encr_loop (aes : aes_ctx) (n : nat) (i : Z) (inb a : bytes) : bytes :=
  match n with
  | O =>
      if (length inb =? 0)%nat then [] else
      let out := aes_encrypt aes (ccm_counter a i) in
      xor_bytes (take (length inb) out) inb ++ drop (length inb) out
  | S n =>
      xor_aes_block (aes_encrypt aes (ccm_counter a i)) inb
      ++ ccm_encr_loop aes n (i + 1) (drop AES_BLOCK_SIZE inb) a
  end.

(* aes-ccm.c aes_ccm_encr *)
Definition aes_ccm_encr (aes : aes_ctx) (inb a : bytes) : bytes :=
  ccm_encr_loop aes (length inb / AES_BLOCK_SIZE) 1 inb a.

(* aes-ccm.c aes_ccm_encr_auth *)
Definition aes_ccm_encr_auth (aes : aes_ctx) (M : nat) (x a : bytes) : bytes :=
  let tmp := aes_encrypt aes (ccm_counter a 0) in
  xor_bytes (take M x) (take M tmp).

(* aes-ccm.c aes_ccm_decr_auth *)
Definition aes_ccm_decr_auth (aes : aes_ctx) (M : nat) (a auth : bytes) : bytes :=
  let tmp := aes_encrypt aes (ccm_counter a 0) in
  xor_bytes (take M auth) (take M tmp).

(** The cipher text, [plain_len] bytes of [crypt], and the [M] bytes of [auth]. *)
(* aes-ccm.c aes_ccm_ae *)
Definition aes_ccm_ae (key : bytes) (key_len : nat) (nonce : bytes) (M : nat) (plain aad : bytes)
  : option (bytes * bytes) :=
  if (30 <? length aad)%nat || (AES_BLOCK_SIZE <? M)%nat then None else
  let? aes := aes_encrypt_init (take key_len key) in
  let x := aes_ccm_auth_start aes M nonce aad (length plain) in
  let x := aes_ccm_auth aes plain x in
  let a := aes_ccm_encr_start nonce in
  let crypt := aes_ccm_encr aes plain a in
  Some (take (length plain) crypt, aes_ccm_encr_auth aes M x a).

(* aes-ccm.c aes_ccm_ad *)
Definition aes_ccm_ad (key : bytes) (key_len : nat) (nonce : bytes) (M : nat) (crypt aad auth : bytes)
  : option bytes :=
  if (30 <? length aad)%nat || (AES_BLOCK_SIZE <? M)%nat then None else
  let? aes := aes_encrypt_init (take key_len key) in
  let a := aes_ccm_encr_start nonce in
  let t := aes_ccm_decr_auth aes M a auth in
  let plain := take (length crypt) (aes_ccm_encr aes crypt a) in
  let x := aes_ccm_auth_start aes M nonce aad (length crypt) in
  let x := aes_ccm_auth aes plain x in
  if negb (os_memcmp_const (take M x) t =? 0) then None else Some plain.

End Ccm.

(** ** The counter mode is an involution *)

Section Accept.
Context `{AesLaws}.
Context (key : bytes) (e : aes_ctx) (Hk : bytes_ok key) (He : aes_encrypt_init key = Some e).

Lemma counter_block a i : length a = 14%nat -> bytes_ok a -> is_block (aes_encrypt e (ccm_counter a i)).
Proof.
  intros Hl Ha. apply (encrypt_is_block key e Hk He). split.
  - unfold ccm_counter. rewrite length_app, Hl. reflexivity.
  - apply bytes_ok_app. auto with wpa.
Qed.

Lemma xor_aes_block_block x y : is_block x -> (16 <= length y)%nat -> bytes_ok y -> is_block (xor_aes_block x y).
Proof.
  intros [Lx Bx] Ly By. unfold xor_aes_block. apply xor_bytes_block; split; auto with wpa;
    rewrite length_take; unfold AES_BLOCK_SIZE in *; lia.
Qed.

(** One run over the input, cut to the length of the input. *)
Definition ccm_crypt (n : nat) (i : Z) (a inb : bytes) : bytes :=
  take (length inb) (ccm_encr_loop e n i inb a).

Lemma ccm_crypt_S n i a inb :
  length a = 14%nat -> bytes_ok a -> (16 <= length inb)%nat -> bytes_ok inb ->
  ccm_crypt (S n) i a inb
  = xor_aes_block (aes_encrypt e (ccm_counter a i)) inb ++ ccm_crypt n (i + 1) a (drop 16 inb).
Proof.
  intros La Ba Li Bi. unfold ccm_crypt. cbn [ccm_encr_loop].
  destruct (xor_aes_block_block _ inb (counter_block a i La Ba) Li Bi) as [Lx _].
  unfold AES_BLOCK_SIZE in Lx. rewrite take_app_ge by lia. rewrite Lx, length_drop. reflexivity.
Qed.

Lemma ccm_crypt_spec n i a inb :
  length a = 14%nat -> bytes_ok a -> bytes_ok inb ->
  (16 * n <= length inb < 16 * n + 16)%nat ->
  length (ccm_crypt n i a inb) = length inb /\ bytes_ok (ccm_crypt n i a inb)
  /\ ccm_crypt n i a (ccm_crypt n i a inb) = inb.
Proof.
  intros La Ba. revert i inb. induction n as [|n IH]; intros i inb Bi Hl.
  - pose proof (counter_block a i La Ba) as [Lc Bc]. unfold AES_BLOCK_SIZE in Lc.
    assert (forall d, bytes_ok d -> (length d < 16)%nat -> ccm_crypt 0 i a d
             = xor_bytes (take (length d) (aes_encrypt e (ccm_counter a i))) d) as E.
    { intros d Bd Hd. unfold ccm_crypt. cbn [ccm_encr_loop].
      destruct (Nat.eqb_spec (length d) 0) as [Hz | Hz]; [destruct d; [done | simpl in Hz; lia]|].
      rewrite take_app_length'; [done|]. unfold xor_bytes. rewrite length_zip_with, length_take. lia. }
    rewrite !(E inb) by (done || lia).
    assert (length (xor_bytes (take (length inb) (aes_encrypt e (ccm_counter a i))) inb) = length inb) as L
      by (unfold xor_bytes; rewrite length_zip_with, length_take; lia).
    assert (bytes_ok (xor_bytes (take (length inb) (aes_encrypt e (ccm_counter a i))) inb)) as B
      by (apply zip_lxor_ok; auto with wpa).
    split; [exact L|]. split; [exact B|]. rewrite E by (done || lia). rewrite L.
    rewrite xor_bytes_comm, (xor_bytes_comm _ inb). apply xor_bytes_involutive. rewrite length_take. lia.
  - pose proof (counter_block a i La Ba) as Bc.
    destruct (IH (i + 1) (drop 16 inb)) as (L & B & E); [auto with wpa | rewrite length_drop; lia|].
    rewrite (ccm_crypt_S n i a inb) by (done || lia).
    destruct (xor_aes_block_block _ inb Bc ltac:(lia) Bi) as [Lx Bx]. unfold AES_BLOCK_SIZE in Lx.
    split; [rewrite length_app, Lx, L, length_drop; lia|]. split; [now apply bytes_ok_app|].
    rewrite ccm_crypt_S by (try apply bytes_ok_app; auto; rewrite ?length_app; lia).
    rewrite drop_app_length' by done. rewrite E. destruct Bc as [Lc _]. unfold AES_BLOCK_SIZE in *.
    unfold xor_aes_block. unfold AES_BLOCK_SIZE. rewrite (take_app_length' _ _ 16) by done.
    set (ks := take 16 _). rewrite (xor_bytes_comm ks), (xor_bytes_comm ks).
    rewrite xor_bytes_involutive by (unfold ks; rewrite !length_take; lia). apply take_drop.
Qed.
End Accept.

(** ** What aes_ccm_ad() accepts *)

Section AcceptCcm.
Context `{AesLaws}.
Context (key : bytes) (e : aes_ctx) (Hk : bytes_ok key) (He : aes_encrypt_init key = Some e).

Lemma encr_start_length nonce : (13 <= length nonce)%nat -> length (aes_ccm_encr_start nonce) = 14%nat.
Proof. intros Hn. unfold aes_ccm_encr_start, CCM_L. rewrite length_app, length_take. cbn [length]. lia. Qed.

Lemma encr_start_ok nonce : bytes_ok nonce -> bytes_ok (aes_ccm_encr_start nonce).
Proof.
  intros Hn. unfold aes_ccm_encr_start. apply bytes_ok_app. split; [|auto with wpa].
  repeat constructor; unfold CCM_L; cbn; lia.
Qed.

(** The encryption of a buffer, cut to its length, and back. *)
Lemma aes_ccm_encr_spec nonce inb :
  (13 <= length nonce)%nat -> bytes_ok nonce -> bytes_ok inb ->
  let a := aes_ccm_encr_start nonce in
  let out := take (length inb) (aes_ccm_encr e inb a) in
  length out = length inb /\ bytes_ok out /\ take (length out) (aes_ccm_encr e out a) = inb.
Proof.
  intros Ln Bn Bi a out. unfold out, aes_ccm_encr, AES_BLOCK_SIZE.
  pose proof (Nat.div_mod_eq (length inb) 16) as D.
  pose proof (Nat.mod_upper_bound (length inb) 16 ltac:(lia)) as M.
  destruct (ccm_crypt_spec key e Hk He (length inb / 16) 1 a inb) as (L & B & E);
    [now apply encr_start_length | now apply encr_start_ok | done | lia|].
  unfold ccm_crypt in *. rewrite L. split; [done|]. split; [done|]. rewrite L in E. exact E.
Qed.

Lemma flags_range M n : is_byte (ccm_flags M n).
Proof. apply is_uint_wrap8. Qed.

Lemma auth_start_block M nonce aad n :
  (13 <= length nonce)%nat -> bytes_ok nonce -> bytes_ok aad -> (length aad <= 30)%nat ->
  is_block (aes_ccm_auth_start e M nonce aad n).
Proof.
  intros Ln Bn Ba La. unfold aes_ccm_auth_start.
  assert (is_block (aes_encrypt e ([ccm_flags M (length aad)] ++ take (15 - CCM_L) nonce ++ put_be16 (Z.of_nat n)))) as Bx.
  { apply (encrypt_is_block key e Hk He). split.
    - rewrite !length_app, length_take. unfold CCM_L, AES_BLOCK_SIZE, put_be16. cbn [length]. lia.
    - rewrite !bytes_ok_app. split; [constructor; [apply flags_range | constructor]|]. auto with wpa. }
  destruct (_ =? 0)%nat; [exact Bx|].
  set (buf := put_be16 (zlen aad) ++ aad ++ _).
  assert (length buf = 32%nat) as Lb
    by (unfold buf; rewrite !length_app, length_replicate; unfold AES_BLOCK_SIZE, put_be16; cbn [length]; lia).
  assert (bytes_ok buf) as Bb.
  { unfold buf. rewrite !bytes_ok_app. split; [auto with wpa|]. split; [done|].
    apply bytes_ok_replicate. unfold is_uint. lia. }
  assert (forall b x, (16 <= length b)%nat -> bytes_ok b -> is_block x ->
    is_block (aes_encrypt e (xor_aes_block b x))) as Step.
  { intros b x L B [Lx X]. unfold AES_BLOCK_SIZE in Lx. apply (encrypt_is_block key e Hk He).
    unfold xor_aes_block. apply xor_bytes_block; split; auto with wpa; rewrite length_take; unfold AES_BLOCK_SIZE; lia. }
  clearbody buf. destruct (_ <? _)%nat; [|apply Step; auto; lia].
  apply Step; [rewrite length_drop; unfold AES_BLOCK_SIZE; lia | auto with wpa | apply Step; auto; lia].
Qed.

Lemma auth_loop_block n data x :
  is_block x -> bytes_ok data -> (16 * n <= length data < 16 * n + 16)%nat -> is_block (ccm_auth_loop e n data x).
Proof.
  revert data x. induction n as [|n IH]; intros data x Hx Hd Hl; cbn [ccm_auth_loop].
  - destruct (_ =? 0)%nat; [done|]. apply (encrypt_is_block key e Hk He). destruct Hx as [Lx Bx].
    unfold AES_BLOCK_SIZE in Lx. split.
    + unfold xor_bytes, AES_BLOCK_SIZE. rewrite length_app, length_zip_with, length_take, length_drop. lia.
    + apply bytes_ok_app. split; [apply zip_lxor_ok|]; auto with wpa.
  - apply IH; [|auto with wpa | rewrite length_drop; unfold AES_BLOCK_SIZE; lia].
    apply (encrypt_is_block key e Hk He), xor_aes_block_block; auto. lia.
Qed.

Lemma aes_ccm_auth_block data x : is_block x -> bytes_ok data -> is_block (aes_ccm_auth e data x).
Proof.
  intros Hx Hd. unfold aes_ccm_auth, AES_BLOCK_SIZE. apply auth_loop_block; auto.
  pose proof (Nat.div_mod_eq (length data) 16). pose proof (Nat.mod_upper_bound (length data) 16 ltac:(lia)). lia.
Qed.

(** The tag and its decryption. *)
Lemma ccm_auth_inverse M nonce x auth :
  (13 <= length nonce)%nat -> bytes_ok nonce -> is_block x -> (M <= 16)%nat -> length auth = M ->
  (take M x = aes_ccm_decr_auth e M (aes_ccm_encr_start nonce) auth
   <-> auth = aes_ccm_encr_auth e M x (aes_ccm_encr_start nonce)).
Proof.
  intros Ln Bn [Lx Bx] LM La. unfold aes_ccm_decr_auth, aes_ccm_encr_auth, AES_BLOCK_SIZE in *.
  destruct (counter_block key e Hk He _ 0 (encr_start_length nonce Ln) (encr_start_ok nonce Bn)) as [Lt Bt].
  unfold AES_BLOCK_SIZE in Lt. rewrite (take_ge auth) by lia.
  set (t := take M (aes_encrypt e _)). assert (length t = M) as LT by (unfold t; rewrite length_take; lia).
  assert (length (take M x) = M) as LX by (rewrite length_take; lia).
  split; intros E; [rewrite E | rewrite E]; symmetry; apply xor_bytes_involutive; lia.
Qed.

Lemma ccm_tag_check M nonce x auth :
  (13 <= length nonce)%nat -> bytes_ok nonce -> is_block x -> (M <= 16)%nat -> length auth = M -> bytes_ok auth ->
  (os_memcmp_const (take M x) (aes_ccm_decr_auth e M (aes_ccm_encr_start nonce) auth) = 0
   <-> auth = aes_ccm_encr_auth e M x (aes_ccm_encr_start nonce)).
Proof.
  intros Ln Bn Hx LM La Ba. rewrite <- (ccm_auth_inverse M nonce x auth) by done.
  destruct (counter_block key e Hk He _ 0 (encr_start_length nonce Ln) (encr_start_ok nonce Bn)) as [Lt Bt].
  destruct Hx as [Lx Bx]. unfold AES_BLOCK_SIZE in *. apply os_memcmp_const_zero; [|auto with wpa|].
  - unfold aes_ccm_decr_auth, xor_bytes. rewrite length_zip_with, !length_take. lia.
  - apply zip_lxor_ok; auto with wpa.
Qed.
End AcceptCcm.

(** C35. Decryption accepts exactly what encryption makes: a cipher text and a tag of [M]
    bytes are accepted with a plain text if and only if they are the result of
    encrypting that plain text. *)
Theorem aes_ccm_accepts_exactly `{AesLaws} key key_len nonce M plain crypt aad auth :
  bytes_ok key -> bytes_ok nonce -> (13 <= length nonce)%nat -> bytes_ok aad ->
  bytes_ok crypt -> bytes_ok auth -> length auth = M ->
  (aes_ccm_ad key key_len nonce M crypt aad auth = Some plain
   <-> aes_ccm_ae key key_len nonce M plain aad = Some (crypt, auth) /\ bytes_ok plain).
Proof.
  intros Hk Bn Ln Ba Bc Bu Lu. unfold aes_ccm_ad, aes_ccm_ae.
  destruct (Nat.ltb_spec 30 (length aad)) as [|La]; [split; [|intros []]; discriminate|].
  destruct (Nat.ltb_spec AES_BLOCK_SIZE M) as [|LM]; [split; [|intros []]; discriminate|]. cbn [orb].
  destruct (aes_encrypt_init (take key_len key)) as [e|] eqn:He; [|split; [|intros []]; discriminate].
  assert (bytes_ok (take key_len key)) as Hk' by auto with wpa. unfold AES_BLOCK_SIZE in LM.
  assert (forall p n, bytes_ok p -> is_block (aes_ccm_auth e p (aes_ccm_auth_start e M nonce aad n))) as X
    by (intros p n Hp; apply (aes_ccm_auth_block (take key_len key) e Hk' He); [|done];
        now apply (auth_start_block (take key_len key) e Hk' He)).
  split.
  - destruct (aes_ccm_encr_spec (take key_len key) e Hk' He nonce crypt Ln Bn Bc) as (Lp & Bp & Ep).
    set (p := take (length crypt) _) in *.
    destruct (Z.eqb_spec (os_memcmp_const (take M (aes_ccm_auth e p (aes_ccm_auth_start e M nonce aad (length crypt))))
      (aes_ccm_decr_auth e M (aes_ccm_encr_start nonce) auth)) 0) as [T|]; [|discriminate].
    apply (ccm_tag_check (take key_len key) e Hk' He) in T; auto. cbn [negb]. intros [= <-].
    split; [|exact Bp]. rewrite Ep, Lp. now rewrite <- T.
  - intros [E Bp]. injection E as Ec Ea.
    destruct (aes_ccm_encr_spec (take key_len key) e Hk' He nonce plain Ln Bn Bp) as (Lc & _ & Ep).
    rewrite Ec in Lc, Ep. rewrite Ep, Lc.
    destruct (Z.eqb_spec (os_memcmp_const (take M (aes_ccm_auth e plain (aes_ccm_auth_start e M nonce aad (length plain))))
      (aes_ccm_decr_auth e M (aes_ccm_encr_start nonce) auth)) 0) as [T|T]; [done|].
    destruct T. now apply (ccm_tag_check (take key_len key) e Hk' He); auto.
Qed.
