(* ===== verification/AesGcm.v ===== *)
(** * AES-GCM (src/crypto/aes-gcm.c)

    Authenticated encryption with a counter mode and a polynomial hash over
    GF(2^128).  Input and output buffers do not overlap. *)

From S2P Require Import Prelude UtilsCommon AesWrap AesModes AesCcm.

(* aes-gcm.c inc32 *)
Definition inc32 (block : bytes) : bytes :=
  let val := get_be32 (drop (AES_BLOCK_SIZE - 4) block) in
  take (AES_BLOCK_SIZE - 4) block ++ put_be32 (u32 (val + 1)).

(* aes-gcm.c xor_block *)
Definition xor_block (dst src : bytes) : bytes :=
  xor_bytes (take AES_BLOCK_SIZE dst) (take AES_BLOCK_SIZE src).

(** [val = WPA_GET_BE32(v + i); val >>= 1; if (v[i - 1] & 0x01) val |= 0x80000000;] *)
Definition shift_word (v : bytes) (i : nat) : bytes :=
  let val := Z.shiftr (get_be32 (drop i v)) 1 in
  put_be32 (match i with
            | O => val
            | S i => if Z.land (byte_at v i) 0x01 =? 0 then val else Z.lor val 0x80000000
            end).

(** The words are shifted from the last one on, each with the lowest bit of the
    byte before it, which is not shifted yet. *)
(* aes-gcm.c shift_right_block *)
Definition shift_right_block (v : bytes) : bytes :=
  shift_word v 0 ++ shift_word v 4 ++ shift_word v 8 ++ shift_word v 12.

(** One turn of the inner loop: [set] tells whether the bit of [x] is set. *)
(* aes-gcm.c gf_mult @75-90 *)
Definition gf_step (set : bool) (z v : bytes) : bytes * bytes :=
  let z := if set then xor_block z v else z in
  let v := if Z.land (byte_at v 15) 0x01 =? 0 then shift_right_block v
           else let v := shift_right_block v in <[0%nat := Z.lxor (byte_at v 0) 0xe1]> v in
  (z, v).

(** The bits of [x] in the order of the two loops: [x[i] & BIT(7 - j)]. *)
(* aes-gcm.c gf_mult @73-75 *)
Definition gf_bits (x : bytes) : list bool :=
  b ← take 16 x; (fun j => negb (Z.land b (Z.shiftl 1 (7 - j)) =? 0)) <$> [0; 1; 2; 3; 4; 5; 6; 7].

(* aes-gcm.c gf_mult *)
Definition gf_mult (x y : bytes) : bytes :=
  (fold_left (fun zv set => gf_step set zv.1 zv.2) (gf_bits x) (replicate 16 0, take 16 y)).1.

(* aes-gcm.c ghash_start *)
Definition ghash_start : bytes := replicate 16 0.

(** The loop over the [m] whole blocks and the zero-padded rest. *)
(* aes-gcm.c ghash @111-137 *)
Fixpoint ghash_loop (m : nat) (h xpos y : bytes) : bytes :=
  match m with
  | O =>
      if (length xpos =? 0)%nat then y else
      let tmp := xpos ++ replicate (16 - length xpos) 0 in
      gf_mult (xor_block y tmp) h
  | S m => ghash_loop m h (drop 16 xpos) (gf_mult (xor_block y xpos) h)
  end.

(* aes-gcm.c ghash *)
Definition ghash (h x y : bytes) : bytes := ghash_loop (length x / 16) h x y.

Section Gcm.
Context `{AesCipher}.

(** The counter mode: whole blocks, then the rest. *)
(* aes-gcm.c aes_gctr @157-171 *)
Fixpoint gctr_loop (aes : aes_ctx) (n : nat) (cb xpos : bytes) : bytes :=
  match n with
  | O =>
      if (length xpos =? 0)%nat then []
      else xor_bytes xpos (take (length xpos) (aes_encrypt aes cb))
  | S n => xor_block (aes_encrypt aes cb) xpos ++ gctr_loop aes n (inc32 cb) (drop 16 xpos)
  end.

(* aes-gcm.c aes_gctr *)
Definition aes_gctr (aes : aes_ctx) (icb x : bytes) : bytes :=
  if (length x =? 0)%nat then [] else gctr_loop aes (length x / 16) (take AES_BLOCK_SIZE icb) x.

(* aes-gcm.c aes_gcm_init_hash_subkey *)
Definition aes_gcm_init_hash_subkey (key : bytes) (key_len : nat) : option (aes_ctx * bytes) :=
  let? aes := aes_encrypt_init (take key_len key) in
  Some (aes, aes_encrypt aes (replicate AES_BLOCK_SIZE 0)).

(* aes-gcm.c aes_gcm_prepare_j0 *)
Definition aes_gcm_prepare_j0 (iv h : bytes) : bytes :=
  if (length iv =? 12)%nat then iv ++ [0; 0; 0; 1]
  else
    let j0 := ghash h iv ghash_start in
    let len_buf := put_be64 0 ++ put_be64 (u64 (zlen iv * 8)) in
    ghash h len_buf j0.

(* aes-gcm.c aes_gcm_gctr *)
Definition aes_gcm_gctr (aes : aes_ctx) (j0 inb : bytes) : bytes :=
  if (length inb =? 0)%nat then [] else aes_gctr aes (inc32 j0) inb.

(* aes-gcm.c aes_gcm_ghash *)
Definition aes_gcm_ghash (h aad crypt : bytes) : bytes :=
  let s := ghash h aad ghash_start in
  let s := ghash h crypt s in
  let len_buf := put_be64 (u64 (zlen aad * 8)) ++ put_be64 (u64 (zlen crypt * 8)) in
  ghash h len_buf s.

(* aes-gcm.c aes_gcm_ae *)
Definition aes_gcm_ae (key : bytes) (key_len : nat) (iv plain aad : bytes) : option (bytes * bytes) :=
  let? (aes, h) := aes_gcm_init_hash_subkey key key_len in
  let j0 := aes_gcm_prepare_j0 iv h in
  let crypt := aes_gcm_gctr aes j0 plain in
  let s := aes_gcm_ghash h aad crypt in
  Some (crypt, aes_gctr aes j0 s).

(* aes-gcm.c aes_gcm_ad *)
Definition aes_gcm_ad (key : bytes) (key_len : nat) (iv crypt aad tag : bytes) : option bytes :=
  let? (aes, h) := aes_gcm_init_hash_subkey key key_len in
  let j0 := aes_gcm_prepare_j0 iv h in
  let plain := aes_gcm_gctr aes j0 crypt in
  let s := aes_gcm_ghash h aad crypt in
  let t := aes_gctr aes j0 s in
  if negb (os_memcmp_const (take 16 tag) t =? 0) then None else Some plain.

(* aes-gcm.c aes_gmac *)
Definition aes_gmac (key : bytes) (key_len : nat) (iv aad : bytes) : option bytes :=
  let? (_, tag) := aes_gcm_ae key key_len iv [] aad in Some tag.

End Gcm.

(** ** Blocks stay blocks *)

Lemma xor_block_block a b : is_block a -> (16 <= length b)%nat -> bytes_ok b -> is_block (xor_block a b).
Proof.
  intros [La Ba] Lb Bb. unfold AES_BLOCK_SIZE in La.
  apply xor_bytes_block; split; auto with wpa; rewrite length_take; unfold AES_BLOCK_SIZE; lia.
Qed.

Lemma inc32_block b : is_block b -> is_block (inc32 b).
Proof.
  intros [Lb Bb]. unfold inc32, AES_BLOCK_SIZE in *. split.
  - rewrite length_app, length_take. unfold put_be32, AES_BLOCK_SIZE. cbn [length]. lia.
  - apply bytes_ok_app. auto with wpa.
Qed.

Lemma shift_word_spec v i : length (shift_word v i) = 4%nat /\ bytes_ok (shift_word v i).
Proof. split; [reflexivity | apply put_be32_ok]. Qed.

Lemma shift_right_block_block v : is_block (shift_right_block v).
Proof.
  split; [reflexivity|]. unfold shift_right_block. rewrite !bytes_ok_app.
  split_and!; apply put_be32_ok.
Qed.

Lemma gf_step_block set z v : is_block z -> is_block v ->
  is_block (gf_step set z v).1 /\ is_block (gf_step set z v).2.
Proof.
  intros Hz Hv. unfold gf_step. cbn [fst snd]. split.
  - destruct set; [|done]. destruct Hv as [Lv Bv]. unfold AES_BLOCK_SIZE in Lv. apply xor_block_block; auto. lia.
  - pose proof (shift_right_block_block v) as Hs. destruct (_ =? 0); [done|]. destruct Hs as [Ls Bs].
    split; [now rewrite length_insert|]. apply Forall_insert; [done|].
    apply is_uint_lxor; [lia | auto with wpa | unfold is_uint; lia].
Qed.

Lemma gf_mult_block x y : is_block y -> is_block (gf_mult x y).
Proof.
  intros Hy. unfold gf_mult. rewrite (take_ge y) by (destruct Hy as [-> _]; done).
  assert (forall l z v, is_block z -> is_block v ->
    is_block (fold_left (fun zv set => gf_step set zv.1 zv.2) l (z, v)).1) as G.
  { induction l as [|b l IH]; intros z v Hz Hv; [done|]. cbn [fold_left fst snd].
    destruct (gf_step_block b z v Hz Hv). destruct (gf_step b z v). now apply IH. }
  apply G; [apply zero_block | done].
Qed.

Lemma ghash_block h x y : is_block h -> is_block y -> is_block (ghash h x y).
Proof.
  intros Hh. unfold ghash. generalize (length x / 16)%nat as m. intros m. revert x y.
  induction m as [|m IH]; intros x y Hy; cbn [ghash_loop].
  - destruct (_ =? 0)%nat; [done | now apply gf_mult_block].
  - apply IH. now apply gf_mult_block.
Qed.

Lemma div16 (l : bytes) : (16 * (length l / 16) <= length l < 16 * (length l / 16) + 16)%nat.
Proof.
  pose proof (Nat.div_mod_eq (length l) 16). pose proof (Nat.mod_upper_bound (length l) 16 ltac:(lia)). lia.
Qed.

Section AcceptGcm.
Context `{AesLaws}.
Context (key : bytes) (e : aes_ctx) (Hk : bytes_ok key) (He : aes_encrypt_init key = Some e).

Lemma gctr_loop_spec n cb x :
  is_block cb -> bytes_ok x -> (16 * n <= length x < 16 * n + 16)%nat ->
  length (gctr_loop e n cb x) = length x /\ bytes_ok (gctr_loop e n cb x)
  /\ gctr_loop e n cb (gctr_loop e n cb x) = x.
Proof.
  revert cb x. induction n as [|n IH]; intros cb x Hc Hx Hl; cbn [gctr_loop];
    destruct (encrypt_is_block key e Hk He cb Hc) as [Le Be]; unfold AES_BLOCK_SIZE in Le.
  - destruct (Nat.eqb_spec (length x) 0) as [E | E]; [now destruct x|].
    assert (length (take (length x) (aes_encrypt e cb)) = length x) as Lt by (rewrite length_take; lia).
    assert (length (xor_bytes x (take (length x) (aes_encrypt e cb))) = length x) as L
      by now apply xor_bytes_length.
    split; [exact L|]. split; [apply zip_lxor_ok; auto with wpa|].
    rewrite L. destruct (Nat.eqb_spec (length x) 0); [done|]. now apply xor_bytes_involutive.
  - destruct (IH (inc32 cb) (drop 16 x)) as (L & B & E);
      [now apply inc32_block | auto with wpa | rewrite length_drop; lia|].
    destruct (xor_block_block (aes_encrypt e cb) x (encrypt_is_block key e Hk He cb Hc) ltac:(lia) Hx) as [Lx Bx].
    unfold AES_BLOCK_SIZE in Lx.
    split; [rewrite length_app, Lx, L, length_drop; lia|]. split; [now apply bytes_ok_app|].
    rewrite drop_app_length' by done. rewrite E. unfold xor_block, AES_BLOCK_SIZE in *.
    rewrite (take_app_length' _ _ 16) by done.
    rewrite (xor_bytes_comm (take 16 (aes_encrypt e cb))), (xor_bytes_comm (take 16 (aes_encrypt e cb))).
    rewrite xor_bytes_involutive by (rewrite !length_take; lia). apply take_drop.
Qed.

Lemma aes_gctr_spec icb x : is_block icb -> bytes_ok x ->
  length (aes_gctr e icb x) = length x /\ bytes_ok (aes_gctr e icb x) /\ aes_gctr e icb (aes_gctr e icb x) = x.
Proof.
  intros Hc Hx. unfold aes_gctr. rewrite (take_ge icb) by (destruct Hc as [-> _]; done).
  destruct (Nat.eqb_spec (length x) 0) as [E | E]; [destruct x; [|done]; repeat split; constructor|].
  destruct (gctr_loop_spec (length x / 16) icb x Hc Hx (div16 x)) as (L & B & I).
  rewrite L. destruct (Nat.eqb_spec (length x) 0); [done|]. auto.
Qed.

Lemma aes_gcm_gctr_spec j0 x : is_block j0 -> bytes_ok x ->
  length (aes_gcm_gctr e j0 x) = length x /\ bytes_ok (aes_gcm_gctr e j0 x)
  /\ aes_gcm_gctr e j0 (aes_gcm_gctr e j0 x) = x.
Proof.
  intros Hj Hx. unfold aes_gcm_gctr.
  destruct (Nat.eqb_spec (length x) 0) as [E | E]; [destruct x; [|done]; repeat split; constructor|].
  destruct (aes_gctr_spec (inc32 j0) x (inc32_block j0 Hj) Hx) as (L & B & I).
  rewrite L. destruct (Nat.eqb_spec (length x) 0); [done|]. auto.
Qed.

Lemma prepare_j0_block h iv : is_block h -> bytes_ok iv -> is_block (aes_gcm_prepare_j0 iv h).
Proof.
  intros Hh Hiv. unfold aes_gcm_prepare_j0. destruct (Nat.eqb_spec (length iv) 12) as [E | _].
  - split; [rewrite length_app, E; done|]. apply bytes_ok_app. split; [done|]. repeat constructor; done.
  - apply ghash_block; [done|]. apply ghash_block; [done | apply zero_block].
Qed.

Lemma gcm_ghash_block h aad c : is_block h -> is_block (aes_gcm_ghash h aad c).
Proof. intros Hh. unfold aes_gcm_ghash. repeat (apply ghash_block; [exact Hh|]). apply zero_block. Qed.
End AcceptGcm.

(** C36. Decryption accepts exactly what encryption makes. *)
Theorem aes_gcm_accepts_exactly `{AesLaws} key key_len iv plain crypt aad tag :
  bytes_ok key -> bytes_ok iv -> bytes_ok crypt -> bytes_ok tag -> length tag = 16%nat ->
  (aes_gcm_ad key key_len iv crypt aad tag = Some plain
   <-> aes_gcm_ae key key_len iv plain aad = Some (crypt, tag) /\ bytes_ok plain).
Proof.
  intros Hk Hiv Hc Bt Lt. unfold aes_gcm_ad, aes_gcm_ae, aes_gcm_init_hash_subkey.
  destruct (aes_encrypt_init (take key_len key)) as [e|] eqn:He; [|split; [|intros []]; discriminate].
  assert (bytes_ok (take key_len key)) as Hk' by auto with wpa.
  pose proof (encrypt_is_block _ e Hk' He _ zero_block) as Hh. unfold AES_BLOCK_SIZE.
  set (h := aes_encrypt e (replicate 16 0)) in *. pose proof (prepare_j0_block h iv Hh Hiv) as Hj.
  set (j0 := aes_gcm_prepare_j0 iv h) in *. rewrite (take_ge tag) by lia.
  assert (forall c, let t := aes_gctr e j0 (aes_gcm_ghash h aad c) in
    (os_memcmp_const tag t = 0 <-> tag = t)) as T.
  { intros c t. destruct (gcm_ghash_block h aad c Hh) as [Ls Bs].
    destruct (aes_gctr_spec _ e Hk' He j0 _ Hj Bs) as (L & B & _).
    apply os_memcmp_const_zero; [|done|exact B]. unfold t. rewrite L, Ls, Lt. reflexivity. }
  split.
  - destruct (Z.eqb_spec (os_memcmp_const tag (aes_gctr e j0 (aes_gcm_ghash h aad crypt))) 0) as [E|]; [|discriminate].
    cbn [negb]. intros [= <-]. apply T in E.
    destruct (aes_gcm_gctr_spec _ e Hk' He j0 crypt Hj Hc) as (_ & B & I). rewrite I, <- E. auto.
  - intros [E Bp]. injection E as Ec Et. rewrite Ec in Et.
    destruct (Z.eqb_spec (os_memcmp_const tag (aes_gctr e j0 (aes_gcm_ghash h aad crypt))) 0) as [_|N];
      [|destruct N; now apply T].
    cbn [negb]. rewrite <- Ec. now rewrite (proj2 (proj2 (aes_gcm_gctr_spec _ e Hk' He j0 plain Hj Bp))).
Qed.
