(* ===== verification/AesKat.v ===== *)
(** * The modes over the internal AES

    The theorems on key wrap, OMAC1, EAX, SIV, CCM and GCM, which hold over every
    cipher with [AesLaws], applied to the cipher of Aes.v on the test vectors of
    their specifications. *)

From S2P Require Import Prelude AesWrap AesTables Aes AesProps Wpabuf AesModes AesSiv AesCcm AesGcm.

#[local] Instance kat_aes : AesCipher := internal_aes some_memory some_memory.
#[local] Instance kat_aes_laws : AesLaws := internal_aes_laws some_memory some_memory some_memory_ok some_memory_ok.
#[local] Instance kat_alloc : OsAlloc := fun _ => true.

Ltac kat_ok := apply (bool_decide_unpack _); vm_compute; exact I.

(** RFC 3394, 4.1. *)
Definition kw_key : bytes := bytes_upto 16.
Definition kw_plain : bytes := fips197_plain.
Definition kw_cipher : bytes :=
  [0x1F; 0xA6; 0x8B; 0x0A; 0x81; 0x12; 0xB4; 0x47; 0xAE; 0xF3; 0x4B; 0xD8; 0xFB; 0x5A; 0x7B; 0x82;
   0x9D; 0x3E; 0x86; 0x23; 0x71; 0xD2; 0xCF; 0xE5].

(** The contexts of a key, as the theorems name them. *)
Definition enc_ctx (key : bytes) : aes_ctx := default [] (Internal.aes_encrypt_init some_memory key).
Definition dec_ctx (key : bytes) : aes_ctx := default [] (Internal.aes_decrypt_init some_memory key).

Example kw_vector : aes_wrap kw_key 2 kw_plain = Some kw_cipher.
Proof. vm_compute. reflexivity. Qed.

Lemma aes_wrap_roundtrip_witness :
  exists c, aes_wrap kw_key 2 kw_plain = Some c /\ length c = 24%nat
       /\ aes_unwrap kw_key 2 c = Some kw_plain.
Proof.
  apply (@aes_wrap_roundtrip kat_aes kat_aes_laws kw_key (enc_ctx kw_key) (dec_ctx kw_key) 2 kw_plain);
    [kat_ok | vm_compute; reflexivity | vm_compute; reflexivity | reflexivity | kat_ok].
Defined.

Lemma aes_unwrap_only_wrapped_witness :
  aes_unwrap kw_key 2 kw_cipher = Some kw_plain
  <-> aes_wrap kw_key 2 kw_plain = Some kw_cipher /\ length kw_plain = 16%nat /\ bytes_ok kw_plain.
Proof.
  apply (@aes_unwrap_only_wrapped kat_aes kat_aes_laws kw_key (enc_ctx kw_key) (dec_ctx kw_key) 2 kw_cipher);
    [kat_ok | vm_compute; reflexivity | vm_compute; reflexivity | reflexivity | kat_ok].
Defined.

(** RFC 4493, example 3, in three buffers. *)
Definition cmac_key : bytes :=
  [0x2b; 0x7e; 0x15; 0x16; 0x28; 0xae; 0xd2; 0xa6; 0xab; 0xf7; 0x15; 0x88; 0x09; 0xcf; 0x4f; 0x3c].
Definition cmac_msg : list bytes :=
  [[0x6b; 0xc1; 0xbe; 0xe2; 0x2e; 0x40; 0x9f; 0x96; 0xe9; 0x3d; 0x7e; 0x11; 0x73; 0x93; 0x17; 0x2a; 0xae];
   [0x2d]; [0x8a; 0x57; 0x1e; 0x03; 0xac; 0x9c; 0x9e; 0xb7; 0x6f; 0xac; 0x45; 0xaf; 0x8e; 0x51;
   0x30; 0xc8; 0x1c; 0x46; 0xa3; 0x5c; 0xe4; 0x11]].

Example cmac_vector : omac1_128_vector cmac_key cmac_msg
  = Some (Some [0xdf; 0xa6; 0x67; 0x47; 0xde; 0x9a; 0xe6; 0x30; 0x30; 0xca; 0x32; 0x61; 0x14; 0x97; 0xc8; 0x27]).
Proof. vm_compute. reflexivity. Qed.

Lemma omac1_is_cmac_witness :
  omac1_aes_vector cmac_key 16 cmac_msg = Some (Some (cmac (enc_ctx cmac_key) (concat cmac_msg))).
Proof.
  apply (@omac1_is_cmac kat_aes kat_aes_laws cmac_key 16 (enc_ctx cmac_key) cmac_msg);
    [kat_ok | kat_ok | vm_compute; reflexivity | left; split; [done | repeat constructor; done]].
Defined.

(** RFC 5297, A.1. *)
Definition siv_key : bytes :=
  [0xff; 0xfe; 0xfd; 0xfc; 0xfb; 0xfa; 0xf9; 0xf8; 0xf7; 0xf6; 0xf5; 0xf4; 0xf3; 0xf2; 0xf1; 0xf0;
   0xf0; 0xf1; 0xf2; 0xf3; 0xf4; 0xf5; 0xf6; 0xf7; 0xf8; 0xf9; 0xfa; 0xfb; 0xfc; 0xfd; 0xfe; 0xff].
Definition siv_ad : bytes := (fun i => 0x10 + i) <$> bytes_upto 24.
Definition siv_plain : bytes :=
  [0x11; 0x22; 0x33; 0x44; 0x55; 0x66; 0x77; 0x88; 0x99; 0xaa; 0xbb; 0xcc; 0xdd; 0xee].
Definition siv_cipher : bytes :=
  [0x85; 0x63; 0x2d; 0x07; 0xc6; 0xe8; 0xf3; 0x7f; 0x95; 0x0a; 0xcd; 0x32; 0x0a; 0x2e; 0xcc; 0x93;
   0x40; 0xc0; 0x2b; 0x96; 0x90; 0xc4; 0xdc; 0x04; 0xda; 0xef; 0x7f; 0x6a; 0xfe; 0x5c].

Example siv_vector : aes_siv_encrypt siv_key 32 siv_plain [siv_ad] = Some (Some siv_cipher).
Proof. vm_compute. reflexivity. Qed.

Lemma aes_siv_accepts_exactly_witness :
  aes_siv_decrypt siv_key 32 siv_cipher [siv_ad] = Some (Some siv_plain)
  <-> aes_siv_encrypt siv_key 32 siv_plain [siv_ad] = Some (Some siv_cipher) /\ bytes_ok siv_plain.
Proof.
  apply (aes_siv_accepts_exactly siv_key 32 siv_cipher [siv_ad] siv_plain);
    [kat_ok | repeat constructor; kat_ok | kat_ok].
Defined.

(** The first vector of the EAX paper. *)
Example eax_vector :
  aes_128_eax_encrypt
    [0x23; 0x39; 0x52; 0xDE; 0xE4; 0xD5; 0xED; 0x5F; 0x9B; 0x9C; 0x6D; 0x6F; 0xF8; 0x0F; 0xF4; 0x78]
    [0x62; 0xEC; 0x67; 0xF9; 0xC3; 0xA4; 0xA4; 0x07; 0xFC; 0xB2; 0xA8; 0xC4; 0x90; 0x31; 0xA8; 0xB3]
    [0x6B; 0xFB; 0x91; 0x4F; 0xD0; 0x7E; 0xAE; 0x6B] []
  = Some (Some ([], [0xE0; 0x37; 0x83; 0x0E; 0x83; 0x89; 0xF2; 0x7B; 0x02; 0x5A; 0x2D; 0x65; 0x27; 0xE7; 0x9D; 0x01])).
Proof. vm_compute. reflexivity. Qed.

(** RFC 3610, packet vector 1. *)
Definition ccm_key : bytes := (fun i => 0xC0 + i) <$> bytes_upto 16.
Definition ccm_nonce : bytes := [0; 0; 0; 3; 2; 1; 0; 0xA0; 0xA1; 0xA2; 0xA3; 0xA4; 0xA5].
Definition ccm_aad : bytes := bytes_upto 8.
Definition ccm_plain : bytes := drop 8 (bytes_upto 31).
Definition ccm_cipher : bytes :=
  [0x58; 0x8C; 0x97; 0x9A; 0x61; 0xC6; 0x63; 0xD2; 0xF0; 0x66; 0xD0; 0xC2; 0xC0; 0xF9; 0x89; 0x80;
   0x6D; 0x5F; 0x6B; 0x61; 0xDA; 0xC3; 0x84].
Definition ccm_tag : bytes := [0x17; 0xE8; 0xD1; 0x2C; 0xFD; 0xF9; 0x26; 0xE0].

Example ccm_vector : aes_ccm_ae ccm_key 16 ccm_nonce 8 ccm_plain ccm_aad = Some (ccm_cipher, ccm_tag).
Proof. vm_compute. reflexivity. Qed.

Lemma aes_ccm_accepts_exactly_witness :
  aes_ccm_ad ccm_key 16 ccm_nonce 8 ccm_cipher ccm_aad ccm_tag = Some ccm_plain
  <-> aes_ccm_ae ccm_key 16 ccm_nonce 8 ccm_plain ccm_aad = Some (ccm_cipher, ccm_tag) /\ bytes_ok ccm_plain.
Proof.
  apply (aes_ccm_accepts_exactly ccm_key 16 ccm_nonce 8 ccm_plain ccm_cipher ccm_aad ccm_tag);
    [kat_ok | kat_ok | vm_compute; lia | kat_ok | kat_ok | kat_ok | reflexivity].
Defined.

(** Test case 3 of the GCM specification, its first block and tag. *)
Definition gcm_key : bytes :=
  [0xfe; 0xff; 0xe9; 0x92; 0x86; 0x65; 0x73; 0x1c; 0x6d; 0x6a; 0x8f; 0x94; 0x67; 0x30; 0x83; 0x08].
Definition gcm_iv : bytes := [0xca; 0xfe; 0xba; 0xbe; 0xfa; 0xce; 0xdb; 0xad; 0xde; 0xca; 0xf8; 0x88].
Definition gcm_aad : bytes :=
  [0xfe; 0xed; 0xfa; 0xce; 0xde; 0xad; 0xbe; 0xef; 0xfe; 0xed; 0xfa; 0xce; 0xde; 0xad; 0xbe; 0xef;
   0xab; 0xad; 0xda; 0xd2].
Definition gcm_plain : bytes :=
  [0xd9; 0x31; 0x32; 0x25; 0xf8; 0x84; 0x06; 0xe5; 0xa5; 0x59; 0x09; 0xc5; 0xaf; 0xf5; 0x26; 0x9a;
   0x86; 0xa7; 0xa9; 0x53; 0x15; 0x34; 0xf7; 0xda; 0x2e; 0x4c; 0x30; 0x3d; 0x8a; 0x31; 0x8a; 0x72;
   0x1c; 0x3c; 0x0c; 0x95; 0x95; 0x68; 0x09; 0x53; 0x2f; 0xcf; 0x0e; 0x24; 0x49; 0xa6; 0xb5; 0x25;
   0xb1; 0x6a; 0xed; 0xf5; 0xaa; 0x0d; 0xe6; 0x57; 0xba; 0x63; 0x7b; 0x39].

Example gcm_vector :
  snd <$> aes_gcm_ae gcm_key 16 gcm_iv gcm_plain gcm_aad
  = Some [0x5b; 0xc9; 0x4f; 0xbc; 0x32; 0x21; 0xa5; 0xdb; 0x94; 0xfa; 0xe9; 0x5a; 0xe7; 0x12; 0x1a; 0x47].
Proof. vm_compute. reflexivity. Qed.

Definition gcm_short : bytes * bytes := default ([], []) (aes_gcm_ae gcm_key 16 gcm_iv (take 3 gcm_plain) []).

Lemma aes_gcm_accepts_exactly_witness :
  aes_gcm_ad gcm_key 16 gcm_iv gcm_short.1 [] gcm_short.2 = Some (take 3 gcm_plain)
  <-> aes_gcm_ae gcm_key 16 gcm_iv (take 3 gcm_plain) [] = Some (gcm_short.1, gcm_short.2)
      /\ bytes_ok (take 3 gcm_plain).
Proof.
  apply (aes_gcm_accepts_exactly gcm_key 16 gcm_iv (take 3 gcm_plain) gcm_short.1 [] gcm_short.2);
    [kat_ok | kat_ok | kat_ok | kat_ok | vm_compute; reflexivity].
Defined.
