(* ===== verification/EapCommon.v ===== *)
(** * EAP packets (src/eap_common/eap_common.c, eap_defs.h)

    Header validation and construction, and the ERP TV/TLV parser.  Pointers
    into a packet are the remaining bytes at that position. *)

From S2P Require Import Prelude Wpabuf.

(* eap_defs.h EAP_CODE_REQUEST *)
Definition EAP_CODE_REQUEST : Z := 1.
Definition EAP_CODE_RESPONSE : Z := 2.
Definition EAP_CODE_SUCCESS : Z := 3.
Definition EAP_CODE_FAILURE : Z := 4.
Definition EAP_CODE_INITIATE : Z := 5.
Definition EAP_CODE_FINISH : Z := 6.

(* eap_defs.h enum eap_type *)
Definition EAP_TYPE_NONE : Z := 0.
Definition EAP_TYPE_IDENTITY : Z := 1.
Definition EAP_TYPE_NOTIFICATION : Z := 2.
Definition EAP_TYPE_NAK : Z := 3.
Definition EAP_TYPE_TLS : Z := 13.
Definition EAP_TYPE_LEAP : Z := 17.
Definition EAP_TYPE_PEAP : Z := 25.
Definition EAP_TYPE_EXPANDED : Z := 254.

Definition EAP_VENDOR_IETF : Z := 0.
Definition EAP_VENDOR_WFA : Z := 14122. (* 0x00372A *)

(** sizeof(struct eap_hdr): code, identifier, 16-bit length *)
Definition sizeof_eap_hdr : Z := 4.
Definition hdr_code (p : bytes) : Z := byte_at p 0.
Definition hdr_identifier (p : bytes) : Z := byte_at p 1.
Definition hdr_length (p : bytes) : Z := get_be16 (drop 2 p).

(* eap_common.c eap_hdr_len_valid *)
Definition eap_hdr_len_valid (msg : option wpabuf) (min_payload : Z) : bool :=
  match msg with
  | None => false
  | Some msg =>
      let hdr := wpabuf_head msg in
      if wpabuf_len msg <? sizeof_eap_hdr then false else
      let len := hdr_length hdr in
      if (len <? sizeof_eap_hdr + min_payload) || (wpabuf_len msg <? len) then false
      else true
  end.

(** The result is the payload pointer and the payload length. *)
(* eap_common.c eap_hdr_validate *)
Definition eap_hdr_validate (vendor eap_type : Z) (msg : option wpabuf) : option (bytes * Z) :=
  if negb (eap_hdr_len_valid msg 1) then None else
  let? b := msg in
  let hdr := wpabuf_head b in
  let len := hdr_length hdr in
  let pos := drop 4 hdr in
  if byte_at pos 0 =? EAP_TYPE_EXPANDED then
    if len <? sizeof_eap_hdr + 8 then None else
    let pos := drop 1 pos in
    let exp_vendor := get_be24 pos in
    let pos := drop 3 pos in
    let exp_type := get_be32 pos in
    let pos := drop 4 pos in
    if negb (exp_vendor =? vendor) || negb (exp_type =? u32 eap_type) then None
    else Some (pos, len - sizeof_eap_hdr - 8)
  else
    if negb (vendor =? EAP_VENDOR_IETF) || negb (byte_at pos 0 =? eap_type) then None
    else Some (drop 1 pos, len - sizeof_eap_hdr - 1).

Section Build.
Context `{OsAlloc}.

(* eap_common.c eap_msg_alloc *)
Definition eap_msg_alloc (vendor type payload_len code identifier : Z) : option wpabuf :=
  let len := sizeof_eap_hdr + (if vendor =? EAP_VENDOR_IETF then 1 else 8) + payload_len in
  let? buf := wpabuf_alloc len in
  let buf := wpabuf_put buf ([u8 code; u8 identifier] ++ put_be16 len) in
  Some (if vendor =? EAP_VENDOR_IETF then wpabuf_put_u8 buf type
        else buf ▸ (fun b => wpabuf_put_u8 b EAP_TYPE_EXPANDED)
                 ▸ (fun b => wpabuf_put_be24 b vendor)
                 ▸ (fun b => wpabuf_put_be32 b type)).

End Build.

(* eap_common.c eap_update_len *)
Definition eap_update_len (msg : wpabuf) : wpabuf :=
  if wpabuf_len msg <? sizeof_eap_hdr then msg
  else msg <| wb_buf := take 2 (wb_buf msg) ++ put_be16 (wpabuf_len msg) ++ drop 4 (wb_buf msg) |>.

(* eap_common.c eap_get_id *)
Definition eap_get_id (msg : wpabuf) : Z :=
  if wpabuf_len msg <? sizeof_eap_hdr then 0 else hdr_identifier (wpabuf_head msg).

(* eap_common.c eap_get_type *)
Definition eap_get_type (msg : wpabuf) : Z :=
  if wpabuf_len msg <? sizeof_eap_hdr + 1 then EAP_TYPE_NONE
  else byte_at (wpabuf_head msg) 4.

(** ** ERP TVs and TLVs *)

Definition EAP_ERP_TLV_KEYNAME_NAI : Z := 1.
Definition EAP_ERP_TV_RRK_LIFETIME : Z := 2.
Definition EAP_ERP_TV_RMSK_LIFETIME : Z := 3.
Definition EAP_ERP_TLV_DOMAIN_NAME : Z := 4.
Definition EAP_ERP_TLV_CRYPTOSUITES : Z := 5.
Definition EAP_ERP_TLV_AUTHORIZATION_INDICATION : Z := 6.

(** [keyname], [domain]: offset from the start of the TLVs and length. *)
Record erp_tlvs := ErpTlvs { keyname : option (Z * Z); domain : option (Z * Z) }.
#[export] Instance eta_erp_tlvs : Eta erp_tlvs := fun t => ErpTlvs (keyname t) (domain t).

Definition erp_is_tlv (tlv_type : Z) : bool :=
  (tlv_type =? EAP_ERP_TLV_DOMAIN_NAME) || (tlv_type =? EAP_ERP_TLV_KEYNAME_NAI)
  || (tlv_type =? EAP_ERP_TLV_CRYPTOSUITES)
  || (tlv_type =? EAP_ERP_TLV_AUTHORIZATION_INDICATION)
  || ((128 <=? tlv_type) && (tlv_type <=? 132)).

(** The while loop; [off] is the offset of [pos], [None] the return value -1.
    Every iteration consumes at least one byte, so the length of the buffer is
    enough fuel ([erp_parse_tlvs_fuel]). *)
(* eap_common.c erp_parse_tlvs *)
Fixpoint erp_parse_loop (fuel : nat) (pos : bytes) (off : Z) (stop_at_keyname : bool)
    (tlvs : erp_tlvs) : option erp_tlvs :=
  match fuel, pos with
  | _, [] => Some tlvs
  | O, _ => None
  | S fuel, tlv_type :: pos =>
      let off := off + 1 in
      if (tlv_type =? EAP_ERP_TV_RRK_LIFETIME) || (tlv_type =? EAP_ERP_TV_RMSK_LIFETIME) then
        (* 4-octet TV *)
        if zlen pos <? 4 then None
        else erp_parse_loop fuel (drop 4 pos) (off + 4) stop_at_keyname tlvs
      else if erp_is_tlv tlv_type then
        match pos with
        | [] => None (* Too short TLV *)
        | tlv_len :: pos =>
            let off := off + 1 in
            if zlen pos <? tlv_len then None else
            if (tlv_type =? EAP_ERP_TLV_KEYNAME_NAI) && bool_decide (is_Some (keyname tlvs))
            then None else
            let tlvs :=
              if tlv_type =? EAP_ERP_TLV_KEYNAME_NAI then tlvs <| keyname := Some (off, tlv_len) |>
              else if tlv_type =? EAP_ERP_TLV_DOMAIN_NAME then tlvs <| domain := Some (off, tlv_len) |>
              else tlvs in
            if (tlv_type =? EAP_ERP_TLV_KEYNAME_NAI) && stop_at_keyname then Some tlvs
            else erp_parse_loop fuel (drop (Z.to_nat tlv_len) pos) (off + tlv_len) stop_at_keyname tlvs
        end
      else if (128 <=? tlv_type) && (tlv_type <=? 191) then
        (* Undefined TLV *)
        match pos with
        | [] => None
        | tlv_len :: pos =>
            if zlen pos <? tlv_len then None
            else erp_parse_loop fuel (drop (Z.to_nat tlv_len) pos) (off + 1 + tlv_len) stop_at_keyname tlvs
        end
      else Some tlvs (* Unknown TV/TLV type: pos = end *)
  end.

Definition erp_parse_tlvs (buf : bytes) (stop_at_keyname : bool) : option erp_tlvs :=
  erp_parse_loop (length buf) buf 0 stop_at_keyname (ErpTlvs None None).

(** ** Properties *)

Section Facts.
Context `{OsAlloc}.

(** The contents of a freshly allocated EAP message. *)
Definition eap_msg_prefix (vendor type len code identifier : Z) : bytes :=
  [u8 code; u8 identifier] ++ put_be16 len ++
  (if vendor =? EAP_VENDOR_IETF then [u8 type]
   else u8 EAP_TYPE_EXPANDED :: put_be24 vendor ++ put_be32 type).

Definition eap_msg_len (vendor payload_len : Z) : Z :=
  sizeof_eap_hdr + (if vendor =? EAP_VENDOR_IETF then 1 else 8) + payload_len.

Lemma eap_msg_prefix_ok vendor type len code id : bytes_ok (eap_msg_prefix vendor type len code id).
Proof.
  unfold eap_msg_prefix. apply bytes_ok_app. split; [repeat constructor; apply is_uint_wrap8|].
  apply bytes_ok_app. split; [apply put_be16_ok|]. case_match.
  - repeat constructor; apply is_uint_wrap8.
  - constructor; [apply is_uint_wrap8|]. apply bytes_ok_app; auto with wpa.
Qed.

Lemma eap_msg_prefix_zlen vendor type len code id :
  zlen (eap_msg_prefix vendor type len code id)
  = sizeof_eap_hdr + (if vendor =? EAP_VENDOR_IETF then 1 else 8).
Proof. unfold eap_msg_prefix. now case_match. Qed.

Lemma eap_msg_alloc_Some vendor type n code id b :
  eap_msg_alloc vendor type n code id = Some b ->
  let len := eap_msg_len vendor n in
  b = wpabuf_put (Wpabuf len [] false) (eap_msg_prefix vendor type len code id).
Proof.
  unfold eap_msg_alloc. fold (eap_msg_len vendor n).
  destruct (wpabuf_alloc _) as [b0|] eqn:E; [|done]. apply wpabuf_alloc_Some in E as ->.
  unfold eap_msg_prefix, wpabuf_put_u8, wpabuf_put_be24, wpabuf_put_be32. intros Hb.
  destruct (vendor =? EAP_VENDOR_IETF); injection Hb as <-; now rewrite !wpabuf_put_put.
Qed.

(** Allocation writes the header without overflowing and leaves exactly the
    requested payload room. *)
Lemma eap_msg_alloc_spec vendor type n code id b :
  0 <= n -> eap_msg_alloc vendor type n code id = Some b ->
  wb_buf b = eap_msg_prefix vendor type (eap_msg_len vendor n) code id
  /\ wpabuf_ok b /\ wpabuf_tailroom b = n.
Proof.
  intros Hn ->%eap_msg_alloc_Some. rewrite wpabuf_put_buf. split; [done|].
  assert (wpabuf_ok (Wpabuf (eap_msg_len vendor n) [] false)).
  { repeat split; [|constructor]. unfold wpabuf_len, zlen, eap_msg_len, sizeof_eap_hdr. cbn.
    case_match; lia. }
  split.
  - apply wpabuf_put_ok; [done|apply eap_msg_prefix_ok|]. unfold wpabuf_tailroom.
    rewrite eap_msg_prefix_zlen. cbn. unfold eap_msg_len, wpabuf_len, zlen. cbn. lia.
  - unfold wpabuf_tailroom. rewrite wpabuf_put_size, wpabuf_put_len, eap_msg_prefix_zlen.
    cbn. unfold eap_msg_len, wpabuf_len, zlen. cbn. lia.
Qed.

(** The validated payload lies inside the received buffer. *)
Lemma eap_hdr_validate_bounds vendor type msg pos plen :
  eap_hdr_validate vendor type (Some msg) = Some (pos, plen) ->
  0 <= plen <= zlen pos /\ exists k, pos = drop k (wb_buf msg) /\ (5 <= k)%nat.
Proof.
  unfold eap_hdr_validate, eap_hdr_len_valid, wpabuf_head, wpabuf_len, sizeof_eap_hdr.
  set (len := hdr_length _).
  destruct (Z.ltb_spec (zlen (wb_buf msg)) 4); cbn [negb]; [done|].
  destruct (Z.ltb_spec len (4 + 1)); cbn [negb orb]; [done|].
  destruct (Z.ltb_spec (zlen (wb_buf msg)) len); cbn [negb orb]; [done|].
  repeat case_match; intros; simplify_eq; rewrite ?drop_drop.
  - split; [|eexists; split; [done|lia]]. unfold zlen in *. rewrite length_drop. lia.
  - split; [|eexists; split; [done|lia]]. unfold zlen in *. rewrite length_drop. lia.
Qed.

(** Type numbers that a message of [vendor] can carry. *)
Definition eap_type_ok (vendor type : Z) : Prop :=
  is_uint 24 vendor /\
  if vendor =? EAP_VENDOR_IETF then is_byte type /\ type <> EAP_TYPE_EXPANDED else is_uint 32 type.

Lemma hdr_length_prefix vendor type len code id l :
  is_uint 16 len -> hdr_length (eap_msg_prefix vendor type len code id ++ l) = len.
Proof.
  intros. unfold hdr_length, eap_msg_prefix. rewrite <- !app_assoc.
  change (drop 2 (_ ++ ?r)) with r. now apply get_put_be16.
Qed.

(** A message filled with the announced payload is accepted again. *)
Lemma eap_msg_filled vendor type code id payload b :
  eap_type_ok vendor type -> is_byte id -> bytes_ok payload ->
  is_uint 16 (eap_msg_len vendor (zlen payload)) ->
  eap_msg_alloc vendor type (zlen payload) code id = Some b ->
  let m := wpabuf_put_data b payload in
  wpabuf_ok m /\ eap_hdr_validate vendor type (Some m) = Some (payload, zlen payload)
  /\ eap_get_id m = id.
Proof.
  intros [Hv Ht] Hid Hp Hlen E. cbv zeta.
  apply eap_msg_alloc_spec in E as (Hb & Hok & Hroom); [|apply zlen_nonneg].
  set (len := eap_msg_len vendor (zlen payload)) in *. unfold wpabuf_put_data.
  split; [apply wpabuf_put_ok; auto; lia|].
  unfold eap_hdr_validate, eap_hdr_len_valid, eap_get_id, wpabuf_head, wpabuf_len.
  rewrite wpabuf_put_buf, Hb, hdr_length_prefix, zlen_app, eap_msg_prefix_zlen by done.
  pose proof (zlen_nonneg payload) as Hnn. unfold len, eap_msg_len, sizeof_eap_hdr.
  split.
  - rewrite (proj2 (Z.ltb_ge _ _)) by (case_match; lia).
    rewrite (proj2 (Z.ltb_ge _ _)) by (case_match; lia).
    rewrite (proj2 (Z.ltb_ge _ _)) by (case_match; lia). cbn [orb negb].
    unfold eap_msg_prefix, EAP_VENDOR_IETF in *. destruct (Z.eqb_spec vendor 0) as [->|Hne].
    + destruct Ht as [Ht Hx]. cbn -[Z.sub Z.add Z.eqb]. rewrite wrap_small by done.
      rewrite (proj2 (Z.eqb_neq _ _)) by done. rewrite Z.eqb_refl. cbn [negb orb].
      do 2 f_equal. lia.
    + rewrite <- !app_assoc. cbn [app drop]. rewrite <- !app_assoc.
      change (byte_at _ _) with EAP_TYPE_EXPANDED. rewrite Z.eqb_refl.
      rewrite (proj2 (Z.ltb_ge _ _)) by lia.
      change (drop 2 (put_be16 _ ++ ?r)) with r. change (drop 1 (?x :: ?r)) with r.
      rewrite get_put_be24 by done.
      change (drop 3 (put_be24 vendor ++ ?r)) with r. rewrite get_put_be32 by done.
      rewrite wrap_small, !Z.eqb_refl by done. cbn [negb orb].
      change (drop 4 (put_be32 type ++ ?r)) with r. do 2 f_equal. lia.
  - rewrite (proj2 (Z.ltb_ge _ _)) by (case_match; lia).
    unfold eap_msg_prefix, hdr_identifier. cbn. now apply wrap_small.
Qed.

(** C19. Round trip: an EAP message that eap_msg_alloc() allocated and that its
    caller filled with the announced payload is well formed (no overflow of
    the buffer), and eap_hdr_validate() with the same vendor and type accepts it
    and returns exactly that payload; eap_get_id() returns the identifier. *)
Theorem eap_msg_roundtrip vendor type code id payload :
  eap_type_ok vendor type -> is_byte id -> bytes_ok payload ->
  is_uint 16 (eap_msg_len vendor (zlen payload)) ->
  (forall n, malloc_ok n = true) ->
  exists b, eap_msg_alloc vendor type (zlen payload) code id = Some b /\
    let m := wpabuf_put_data b payload in
    wpabuf_ok m /\ eap_hdr_validate vendor type (Some m) = Some (payload, zlen payload)
    /\ eap_get_id m = id.
Proof.
  intros Ht Hid Hp Hlen Hm.
  destruct (eap_msg_alloc vendor type (zlen payload) code id) as [b|] eqn:E.
  - exists b. split; [done|]. by apply (eap_msg_filled vendor type code).
  - unfold eap_msg_alloc, wpabuf_alloc in E. rewrite Hm in E. now case_match.
Qed.

(** *** ERP TLVs *)

(** An entry stays inside a buffer of [n] bytes. *)
Definition tlv_inside (n : Z) (e : option (Z * Z)) : Prop :=
  match e with Some (off, len) => 0 <= off /\ 0 <= len /\ off + len <= n | None => True end.

Lemma erp_parse_loop_inside n fuel : forall pos off stop tlvs r,
  bytes_ok pos -> 0 <= off -> off + zlen pos <= n ->
  tlv_inside n (keyname tlvs) -> tlv_inside n (domain tlvs) ->
  erp_parse_loop fuel pos off stop tlvs = Some r ->
  tlv_inside n (keyname r) /\ tlv_inside n (domain r).
Proof.
  induction fuel as [|fuel IH]; intros pos off stop tlvs r Hok Hoff Hn Hk Hd Hr;
    destruct pos as [|t pos]; cbn [erp_parse_loop] in Hr; simplify_eq; auto.
  apply Forall_cons in Hok as [_ Hok]. rewrite zlen_cons in Hn.
  assert (Hdrop : forall k (l : bytes), 0 <= k <= zlen l -> zlen (drop (Z.to_nat k) l) = zlen l - k).
  { intros k l Hkl. unfold zlen in *. rewrite length_drop. lia. }
  repeat match type of Hr with
  | (if ?b then _ else _) = Some _ => destruct b eqn:?
  | match ?p with [] => _ | _ => _ end = Some _ => destruct p as [|tl pos']
  end; simplify_eq; auto.
  all: try (apply Forall_cons in Hok as [Htl Hok]); rewrite ?zlen_cons in Hn; unfold is_uint in *.
  all: lazymatch goal with
       | H : erp_parse_loop _ (drop ?k ?l) _ _ _ = _ |- _ =>
           apply IH in H; auto with wpa; try lia;
           try (change 4%nat with (Z.to_nat 4)); try (rewrite Hdrop by lia); try lia
       | _ => idtac
       end.
  all: repeat case_match; cbn in *; repeat split; auto; lia.
Qed.

(** More fuel than the buffer has bytes changes nothing: the loop ends by
    itself. *)
Lemma erp_parse_loop_fuel fuel : forall fuel' pos off stop tlvs,
  (length pos <= fuel <= fuel')%nat ->
  erp_parse_loop fuel' pos off stop tlvs = erp_parse_loop fuel pos off stop tlvs.
Proof.
  induction fuel as [|fuel IH]; intros fuel' pos off stop tlvs Hl.
  - destruct pos; [|simpl in Hl; lia]. now destruct fuel'.
  - destruct fuel' as [|fuel']; [lia|]. destruct pos as [|t pos]; [done|].
    cbn [length] in Hl. cbn [erp_parse_loop].
    repeat case_match; try done; apply IH; rewrite ?length_drop; cbn [length] in *; lia.
Qed.

(** Whatever bytes are received, the ERP TV/TLV parser terminates by itself
    (any amount of fuel beyond the buffer length gives the same result) and the
    keyName-NAI and domain name it reports lie inside the buffer. *)
Theorem erp_parse_tlvs_inside buf stop :
  bytes_ok buf ->
  (forall extra, erp_parse_loop (length buf + extra) buf 0 stop (ErpTlvs None None)
                 = erp_parse_tlvs buf stop) /\
  forall r, erp_parse_tlvs buf stop = Some r ->
            tlv_inside (zlen buf) (keyname r) /\ tlv_inside (zlen buf) (domain r).
Proof.
  intros Hok. split.
  - intros extra. apply erp_parse_loop_fuel. lia.
  - intros r. apply erp_parse_loop_inside; done || lia.
Qed.

Lemma erp_parse_tlvs_inside_witness :
  (forall extra, erp_parse_loop (length [1; 2; 97; 64; 2; 0; 0; 0; 0] + extra)
                   [1; 2; 97; 64; 2; 0; 0; 0; 0] 0 false (ErpTlvs None None)
                 = erp_parse_tlvs [1; 2; 97; 64; 2; 0; 0; 0; 0] false) /\
  forall r, erp_parse_tlvs [1; 2; 97; 64; 2; 0; 0; 0; 0] false = Some r ->
            tlv_inside 9 (keyname r) /\ tlv_inside 9 (domain r).
Proof.
  apply (erp_parse_tlvs_inside [1; 2; 97; 64; 2; 0; 0; 0; 0] false).
  repeat constructor; done.
Defined.

End Facts.

Lemma eap_msg_roundtrip_witness :
  exists b, @eap_msg_alloc (fun _ => true) 0 EAP_TYPE_IDENTITY (zlen [98; 111; 98]) EAP_CODE_RESPONSE 7 = Some b /\
    let m := wpabuf_put_data b [98; 111; 98] in
    wpabuf_ok m /\ eap_hdr_validate 0 EAP_TYPE_IDENTITY (Some m) = Some ([98; 111; 98], zlen [98; 111; 98])
    /\ eap_get_id m = 7.
Proof.
  apply (@eap_msg_roundtrip (fun _ => true)); [repeat split; done | done | repeat constructor; done | done | done].
Defined.
