(* ===== verification/EapPeer.v ===== *)
(** * EAP peer state machine (src/eap_peer/eap.c, eap_i.h; RFC 4137)

    The machine talks to its lower layer only through [struct eapol_callbacks]
    ([EapolCallbacks]) and to the authentication methods only through [struct
    eap_method] ([EapMethods]); both are interfaces here as they are in the
    code.  A state function of the C file is a function on [world]: the EAP
    state and the lower layer's context.

    Build options: CONFIG_ERP, PCSC_FUNCS and CONFIG_EAP_PROXY off,
    CONFIG_CTRL_IFACE on.  Not modelled: debug output and wpa_msg() reports,
    and the external password buffer ext_pw_buf. *)

From stdpp Require Import strings.
From S2P Require Import Prelude Wpabuf EapCommon.

(* eap.c EAP_MAX_AUTH_ROUNDS @35-35 *)
Definition EAP_MAX_AUTH_ROUNDS : Z := 100.
(* eap.c EAP_MAX_AUTH_ROUNDS_SHORT @36-36 *)
Definition EAP_MAX_AUTH_ROUNDS_SHORT : Z := 50.
(* eap.c EAP_CLIENT_TIMEOUT_DEFAULT @37-37 *)
Definition EAP_CLIENT_TIMEOUT_DEFAULT : Z := 60.

(* eap_i.h EapDecision @21-23 *)
Inductive EapDecision := DECISION_FAIL | DECISION_COND_SUCC | DECISION_UNCOND_SUCC.

(* eap_i.h EapMethodState @25-27 *)
Inductive EapMethodState := METHOD_NONE | METHOD_INIT | METHOD_CONT | METHOD_MAY_CONT | METHOD_DONE.

(* eap_i.h EAP_state @308-313 *)
Inductive eap_state :=
| EAP_INITIALIZE | EAP_DISABLED | EAP_IDLE | EAP_RECEIVED | EAP_GET_METHOD | EAP_METHOD
| EAP_SEND_RESPONSE | EAP_DISCARD | EAP_IDENTITY | EAP_NOTIFICATION | EAP_RETRANSMIT
| EAP_SUCCESS | EAP_FAILURE.

#[export] Instance EapDecision_eq_dec : EqDecision EapDecision.
Proof. solve_decision. Defined.
#[export] Instance EapMethodState_eq_dec : EqDecision EapMethodState.
Proof. solve_decision. Defined.
#[export] Instance eap_state_eq_dec : EqDecision eap_state.
Proof. solve_decision. Defined.

(** ** Interfaces *)

(* eap.h enum eapol_bool_var *)
Inductive eapol_bool_var :=
| EAPOL_eapSuccess | EAPOL_eapRestart | EAPOL_eapFail | EAPOL_eapResp | EAPOL_eapNoResp
| EAPOL_eapReq | EAPOL_portEnabled | EAPOL_altAccept | EAPOL_altReject | EAPOL_eapTriggerStart.

(* eap.h enum eapol_int_var *)
Inductive eapol_int_var := EAPOL_idleWhile.

#[export] Instance eapol_bool_var_eq_dec : EqDecision eapol_bool_var.
Proof. solve_decision. Defined.

(** Of enum wpa_ctrl_req_type, what the modelled code asks for. *)
Inductive wpa_ctrl_req_type :=
| WPA_CTRL_REQ_EAP_IDENTITY | WPA_CTRL_REQ_EAP_PASSWORD | WPA_CTRL_REQ_EAP_NEW_PASSWORD.

(** A pointer to memory of the configuration: NULL, an array of bytes, or freed. *)
Inductive cfg_bytes := CfgNull | CfgBytes (b : bytes) | CfgFreed.

(** The part of struct eap_peer_config that the state machine and the modelled methods use.
    [cfg_ptr] is the identity of the structure (the code compares pointers). *)
Record eap_peer_config := EapPeerConfig {
  cfg_ptr : Z;
  identity : option bytes;
  anonymous_identity : option bytes;
  machine_identity : option bytes;
  eap_methods_cfg : option (list (Z * Z));  (* (vendor, method), to (IETF, NONE) *)
  phase1 : option string;
  pcsc : bool;
  pending_req_identity : Z;
  pending_req_pin : bool;
  pending_req_passphrase : bool;
  password : cfg_bytes;
  machine_password : option bytes;
  new_password : option bytes;
  cfg_flags : Z;
  phase2 : option string;
  mschapv2_retry : bool;
  pending_req_password : Z;
  pending_req_new_password : Z
}.
#[export] Instance eta_eap_peer_config : Eta eap_peer_config := fun c =>
  EapPeerConfig (cfg_ptr c) (identity c) (anonymous_identity c) (machine_identity c)
    (eap_methods_cfg c) (phase1 c) (pcsc c) (pending_req_identity c) (pending_req_pin c)
    (pending_req_passphrase c) (password c) (machine_password c) (new_password c) (cfg_flags c)
    (phase2 c) (mschapv2_retry c) (pending_req_password c) (pending_req_new_password c).

(** struct eapol_callbacks over the lower layer's context [S]. *)
Class EapolCallbacks (S : Type) := {
  cb_get_config : S -> option eap_peer_config;
  cb_update_config : (eap_peer_config -> eap_peer_config) -> S -> S;
  cb_get_bool : S -> eapol_bool_var -> bool;
  cb_set_bool : eapol_bool_var -> bool -> S -> S;
  cb_get_int : S -> eapol_int_var -> Z;
  cb_set_int : eapol_int_var -> Z -> S -> S;
  cb_get_eapReqData : S -> option wpabuf;
  cb_notify_status : string -> string -> S -> S;
  cb_notify_eap_error : Z -> S -> S;
  cb_eap_param_needed : wpa_ctrl_req_type -> S -> S
}.

(** What the EAP state machine expects of its lower layer: variables hold what
    was stored, and nothing but [set_bool] changes a boolean variable. *)
Class EapolCallbacksLaws (S : Type) `{EapolCallbacks S} : Prop := {
  get_set_bool (s : S) v b v' :
    cb_get_bool (cb_set_bool v b s) v' = if decide (v = v') then b else cb_get_bool s v';
  get_bool_set_int (s : S) v n v' : cb_get_bool (cb_set_int v n s) v' = cb_get_bool s v';
  get_set_int (s : S) v n : is_uint 32 n -> cb_get_int (cb_set_int v n s) v = n;
  get_int_set_bool (s : S) v b v' : cb_get_int (cb_set_bool v b s) v' = cb_get_int s v';
  get_bool_config (s : S) f v : cb_get_bool (cb_update_config f s) v = cb_get_bool s v;
  get_bool_status (s : S) a b v : cb_get_bool (cb_notify_status a b s) v = cb_get_bool s v;
  get_bool_error (s : S) e v : cb_get_bool (cb_notify_eap_error e s) v = cb_get_bool s v;
  get_bool_param (s : S) e v : cb_get_bool (cb_eap_param_needed e s) v = cb_get_bool s v;
  get_config_status (s : S) a b : cb_get_config (cb_notify_status a b s) = cb_get_config s
}.

(** Identification part of struct eap_method; its functions are in [EapMethods]. *)
Record eap_method := EapMethod { em_vendor : Z; em_method : Z; em_name : string }.

(* eap_i.h struct eap_method_ret *)
Record eap_method_ret := EapMethodRet {
  ret_ignore : bool;
  ret_methodState : EapMethodState;
  ret_decision : EapDecision;
  ret_allowNotifications : bool
}.

(** ** State *)

(* eap_i.h struct eap_sm *)
Record eap_sm {priv : Type} := EapSm {
  EAP_state : eap_state;
  selectedMethod : Z;
  methodState : EapMethodState;
  lastId : Z;
  lastRespData : option wpabuf;
  decision : EapDecision;
  rxReq : bool;
  rxSuccess : bool;
  rxFailure : bool;
  reqId : Z;
  reqMethod : Z;
  reqVendor : Z;
  reqVendorMethod : Z;
  ignore : bool;
  ClientTimeout : Z;
  allowNotifications : bool;
  eapRespData : option wpabuf;
  eapKeyAvailable : bool;
  eapKeyData : option bytes;
  eapSessionId : option bytes;
  m : option eap_method;
  changed : bool;
  eap_method_priv : option priv;
  fast_reauth : bool;
  reauthInit : bool;
  erp_seq : Z;
  rxResp : bool;
  leap_done : bool;
  peap_done : bool;
  req_sha1 : bytes;
  last_sha1 : bytes;
  workaround : bool;
  num_rounds : Z;
  num_rounds_short : Z;
  force_disabled : bool;
  prev_failure : bool;
  last_config : option Z;
  expected_failure : bool;
  ext_cert_check : bool;
  waiting_ext_cert_check : bool;
  use_machine_cred : bool
}.
#[global] Arguments eap_sm : clear implicits.
#[global] Arguments EapSm {priv}.

#[export] Instance eta_eap_sm {priv} : Eta (eap_sm priv) := fun s =>
  EapSm (EAP_state s) (selectedMethod s) (methodState s) (lastId s) (lastRespData s)
    (decision s) (rxReq s) (rxSuccess s) (rxFailure s) (reqId s) (reqMethod s) (reqVendor s)
    (reqVendorMethod s) (ignore s) (ClientTimeout s) (allowNotifications s) (eapRespData s)
    (eapKeyAvailable s) (eapKeyData s) (eapSessionId s) (m s) (changed s) (eap_method_priv s)
    (fast_reauth s) (reauthInit s) (erp_seq s) (rxResp s) (leap_done s) (peap_done s)
    (req_sha1 s) (last_sha1 s) (workaround s) (num_rounds s) (num_rounds_short s)
    (force_disabled s) (prev_failure s) (last_config s) (expected_failure s)
    (ext_cert_check s) (waiting_ext_cert_check s) (use_machine_cred s).

(** The fields of struct eap_sm that the method implementations assign to. *)
Record method_vars := MethodVars {
  mv_ignore : bool;
  mv_ClientTimeout : Z;
  mv_leap_done : bool;
  mv_peap_done : bool;
  mv_expected_failure : bool;
  mv_ext_cert_check : bool;
  mv_waiting_ext_cert_check : bool;
  mv_use_machine_cred : bool
}.

(** What a method does to the lower layer: it changes the configuration and asks the user. *)
Inductive method_call :=
| CallUpdateConfig (f : eap_peer_config -> eap_peer_config)
| CallParamNeeded (field : wpa_ctrl_req_type)
| CallNotifyStatus (status param : string).

(** The functions of the registered methods (struct eap_method); an optional
    function pointer is an [option].  A method reads the configuration and returns its calls
    of the lower layer in order. *)
Class EapMethods (priv : Type) := {
  eap_methods : list eap_method;
  em_init : eap_method -> eap_sm priv -> option eap_peer_config ->
    option priv * method_vars * list method_call;
  em_init_for_reauth : eap_method -> eap_sm priv -> option priv -> option priv * method_vars;
  em_deinit_for_reauth : eap_method -> eap_sm priv -> option priv -> option priv;
  em_process : eap_method -> eap_sm priv -> option eap_peer_config -> option priv ->
    eap_method_ret -> wpabuf ->
    option priv * method_vars * eap_method_ret * option wpabuf * list method_call;
  em_isKeyAvailable : eap_method -> option (eap_sm priv -> option priv -> bool);
  em_getKey : eap_method -> option (eap_sm priv -> option priv -> option bytes);
  em_getSessionId : eap_method -> option (eap_sm priv -> option priv -> option bytes);
  em_has_reauth_data : eap_method -> option (eap_sm priv -> option priv -> bool);
  em_get_identity : eap_method -> option (eap_sm priv -> option priv -> option bytes);
  em_get_error_code : eap_method -> option (option priv -> Z)
}.

(** SHA-1 of the crypto library. *)
Class Sha1 := sha1 : bytes -> bytes.

Record world {priv S : Type} := World { esm : eap_sm priv; eapol : S }.
#[global] Arguments world : clear implicits.
#[global] Arguments World {priv S}.

Section EapPeer.
Context {priv S : Type} `{EapMethods priv} `{EapolCallbacks S} `{OsAlloc} `{Sha1}.
Abbreviation world := (world priv S).
Abbreviation eap_sm := (eap_sm priv).

Definition on_sm (f : eap_sm -> eap_sm) (w : world) : world := World (f (esm w)) (eapol w).
Definition on_eapol (f : S -> S) (w : world) : world := World (esm w) (f (eapol w)).

(* eap.c eapol_get_bool *)
Definition eapol_get_bool (w : world) (v : eapol_bool_var) : bool := cb_get_bool (eapol w) v.
(* eap.c eapol_set_bool *)
Definition eapol_set_bool (v : eapol_bool_var) (b : bool) : world -> world := on_eapol (cb_set_bool v b).
(* eap.c eapol_get_int *)
Definition eapol_get_int (w : world) (v : eapol_int_var) : Z := cb_get_int (eapol w) v.
(* eap.c eapol_set_int *)
Definition eapol_set_int (v : eapol_int_var) (n : Z) : world -> world := on_eapol (cb_set_int v n).
(* eap.c eapol_get_eapReqData *)
Definition eapol_get_eapReqData (w : world) : option wpabuf := cb_get_eapReqData (eapol w).
(* eap.c eap_get_config *)
Definition eap_get_config (w : world) : option eap_peer_config := cb_get_config (eapol w).
(* eap.c eap_notify_status *)
Definition eap_notify_status (status param : string) : world -> world :=
  on_eapol (cb_notify_status status param).
(* eap.c eap_report_error *)
Definition eap_report_error (code : Z) : world -> world := on_eapol (cb_notify_eap_error code).

Definition do_method_call (c : method_call) : world -> world :=
  match c with
  | CallUpdateConfig f => on_eapol (cb_update_config f)
  | CallParamNeeded field => on_eapol (cb_eap_param_needed field)
  | CallNotifyStatus status param => on_eapol (cb_notify_status status param)
  end.
Definition do_method_calls (l : list method_call) (w : world) : world := fold_left (fun w c => do_method_call c w) l w.

(** SM_ENTRY(EAP, state), state_machine.h *)
(* state_machine.h #define SM_ENTRY *)
Definition sm_entry (global : bool) (st : eap_state) (sm : eap_sm) : eap_sm :=
  let sm := if negb global || bool_decide (EAP_state sm <> st) then sm <| changed := true |> else sm in
  sm <| EAP_state := st |>.

(** The assignments a method made to struct eap_sm. *)
Definition store_method_vars (v : method_vars) (sm : eap_sm) : eap_sm :=
  sm <| ignore := mv_ignore v |> <| ClientTimeout := mv_ClientTimeout v |>
     <| leap_done := mv_leap_done v |> <| peap_done := mv_peap_done v |>
     <| expected_failure := mv_expected_failure v |>
     <| ext_cert_check := mv_ext_cert_check v |>
     <| waiting_ext_cert_check := mv_waiting_ext_cert_check v |>
     <| use_machine_cred := mv_use_machine_cred v |>.

(* eap.c eap_sm_free_key *)
Definition eap_sm_free_key (sm : eap_sm) : eap_sm := sm <| eapKeyData := None |>.

(* eap.c eap_deinit_prev_method *)
Definition eap_deinit_prev_method (sm : eap_sm) : eap_sm :=
  match m sm, eap_method_priv sm with
  | Some _, Some _ => sm <| eap_method_priv := None |> <| m := None |>
  | _, _ => sm
  end.

(* eap.c eap_config_allowed_method *)
Definition eap_config_allowed_method (config : option eap_peer_config) (vendor method : Z) : bool :=
  match config with
  | None => true
  | Some c =>
      match eap_methods_cfg c with
      | None => true
      | Some ms =>
          (fix loop (ms : list (Z * Z)) : bool :=
             match ms with
             | [] => false
             | (v, t) :: ms =>
                 if (v =? EAP_VENDOR_IETF) && (t =? EAP_TYPE_NONE) then false
                 else if (v =? vendor) && (t =? method) then true else loop ms
             end) ms
      end
  end.

(* eap.c eap_allowed_method *)
Definition eap_allowed_method (w : world) (vendor method : Z) : bool :=
  eap_config_allowed_method (eap_get_config w) vendor method.

(* eap_methods.c eap_peer_get_eap_method *)
Definition eap_peer_get_eap_method (vendor method : Z) : option eap_method :=
  List.find (fun e => (em_vendor e =? vendor) && (em_method e =? method)) eap_methods.

(* eap.c eap_sm_allowMethod *)
Definition eap_sm_allowMethod (w : world) (vendor method : Z) : bool :=
  eap_allowed_method w vendor method
  && bool_decide (is_Some (eap_peer_get_eap_method vendor method)).

Definition has_reauth_data (sm : eap_sm) : bool :=
  match m sm with
  | Some e => match em_has_reauth_data e with
              | Some f => f sm (eap_method_priv sm)
              | None => false
              end
  | None => false
  end.

(** ** State entry functions *)

(* eap.c SM_STATE(EAP, INITIALIZE) *)
Definition EAP_INITIALIZE_Enter (global : bool) (w : world) : world :=
  let w := w ▸ on_sm (sm_entry global EAP_INITIALIZE) in
  let sm := esm w in
  let config := cfg_ptr <$> eap_get_config w in
  let w :=
    if fast_reauth sm && has_reauth_data sm && negb (prev_failure sm)
       && bool_decide (last_config sm = config)
    then
      match m sm with
      | Some e => w ▸ on_sm (fun sm => sm <| eap_method_priv := em_deinit_for_reauth e sm (eap_method_priv sm) |>)
      | None => w
      end
    else w ▸ on_sm (fun sm => eap_deinit_prev_method (sm <| last_config := config |>)) in
  w ▸ on_sm (fun sm => sm <| selectedMethod := EAP_TYPE_NONE |>
                          <| methodState := METHOD_NONE |>
                          <| allowNotifications := true |>
                          <| decision := DECISION_FAIL |>
                          <| ClientTimeout := EAP_CLIENT_TIMEOUT_DEFAULT |>)
    ▸ eapol_set_int EAPOL_idleWhile EAP_CLIENT_TIMEOUT_DEFAULT
    ▸ eapol_set_bool EAPOL_eapSuccess false
    ▸ eapol_set_bool EAPOL_eapFail false
    ▸ on_sm (fun sm => eap_sm_free_key sm <| eapSessionId := None |>
                                           <| eapKeyAvailable := false |>)
    ▸ eapol_set_bool EAPOL_eapRestart false
    ▸ on_sm (fun sm => sm <| lastId := -1 |>)
    ▸ eapol_set_bool EAPOL_eapResp false
    ▸ eapol_set_bool EAPOL_eapNoResp false
    ▸ on_sm (fun sm => sm <| ignore := false |>
                          <| num_rounds := 0 |>
                          <| num_rounds_short := 0 |>
                          <| prev_failure := false |>
                          <| expected_failure := false |>
                          <| reauthInit := false |>
                          <| erp_seq := u32 (-1) |>
                          <| use_machine_cred := false |>).

(* eap.c SM_STATE(EAP, DISABLED) *)
Definition EAP_DISABLED_Enter (global : bool) (w : world) : world :=
  w ▸ on_sm (fun sm => sm_entry global EAP_DISABLED sm <| num_rounds := 0 |> <| num_rounds_short := 0 |>)
    ▸ eapol_set_int EAPOL_idleWhile 0.

(* eap.c SM_STATE(EAP, IDLE) *)
Definition EAP_IDLE_Enter (global : bool) (w : world) : world :=
  w ▸ on_sm (sm_entry global EAP_IDLE).

(** eap_peer_initiate() without CONFIG_ERP *)
(* eap.c eap_peer_initiate @1814-1820 *)
Definition eap_peer_initiate (w : world) : world :=
  w ▸ eapol_set_bool EAPOL_eapTriggerStart true.

(* eap.c eap_sm_parseEapReq *)
Definition eap_sm_parseEapReq (req : option wpabuf) (w : world) : world :=
  let w := w ▸ on_sm (fun sm => sm <| rxReq := false |> <| rxResp := false |>
                                   <| rxSuccess := false |> <| rxFailure := false |>
                                   <| reqId := 0 |> <| reqMethod := EAP_TYPE_NONE |>
                                   <| reqVendor := EAP_VENDOR_IETF |>
                                   <| reqVendorMethod := EAP_TYPE_NONE |>) in
  match req with
  | None => w
  | Some req =>
      if wpabuf_len req <? sizeof_eap_hdr then w else
      let hdr := wpabuf_head req in
      let plen := hdr_length hdr in
      if wpabuf_len req <? plen then w else
      let w := w ▸ on_sm (fun sm => sm <| reqId := hdr_identifier hdr |>) in
      let w := if workaround (esm w)
               then w ▸ on_sm (fun sm => sm <| req_sha1 := sha1 (take (Z.to_nat plen) hdr) |>)
               else w in
      let code := hdr_code hdr in
      let pos := drop 4 hdr in
      if code =? EAP_CODE_REQUEST then
        if plen <? sizeof_eap_hdr + 1 then w else
        let w := w ▸ on_sm (fun sm => sm <| rxReq := true |> <| reqMethod := byte_at pos 0 |>) in
        let pos := drop 1 pos in
        if reqMethod (esm w) =? EAP_TYPE_EXPANDED then
          if plen <? sizeof_eap_hdr + 8 then w
          else w ▸ on_sm (fun sm => sm <| reqVendor := get_be24 pos |>
                                       <| reqVendorMethod := get_be32 (drop 3 pos) |>)
        else w
      else if code =? EAP_CODE_RESPONSE then
        if selectedMethod (esm w) =? EAP_TYPE_LEAP then
          if plen <? sizeof_eap_hdr + 1 then w
          else w ▸ on_sm (fun sm => sm <| rxResp := true |> <| reqMethod := byte_at pos 0 |>)
        else w
      else if code =? EAP_CODE_SUCCESS then
        w ▸ eap_notify_status "completion" "success"
          ▸ on_sm (fun sm => sm <| rxSuccess := true |>)
      else if code =? EAP_CODE_FAILURE then
        let w := w ▸ eap_notify_status "completion" "failure" in
        let w := match m (esm w) with
                 | Some e => match em_get_error_code e with
                             | Some f => let error_code := f (eap_method_priv (esm w)) in
                                         if error_code =? -1 then w else eap_report_error error_code w
                             | None => w
                             end
                 | None => w
                 end in
        w ▸ on_sm (fun sm => sm <| rxFailure := true |>)
      else if code =? EAP_CODE_INITIATE then eap_peer_initiate w
      else w (* EAP_CODE_FINISH: nothing without CONFIG_ERP *)
  end.

(* eap.c SM_STATE(EAP, RECEIVED) *)
Definition EAP_RECEIVED_Enter (global : bool) (w : world) : world :=
  let w := w ▸ on_sm (sm_entry global EAP_RECEIVED) in
  let eapReqData := eapol_get_eapReqData w in
  w ▸ eap_sm_parseEapReq eapReqData
    ▸ on_sm (fun sm => sm <| num_rounds := num_rounds sm + 1 |>)
    ▸ on_sm (fun sm =>
        if match eapReqData with None => true | Some b => wpabuf_len b <? 20 end
        then sm <| num_rounds_short := num_rounds_short sm + 1 |>
        else sm <| num_rounds_short := 0 |>).

(** *** Nak *)

(* eap.c eap_sm_build_expanded_nak *)
Definition eap_sm_build_expanded_nak (w : world) (id : Z) (methods : list eap_method) : option wpabuf :=
  let sm := esm w in
  let? resp := eap_msg_alloc EAP_VENDOR_IETF EAP_TYPE_EXPANDED (8 + 8 * (zlen methods + 1))
                 EAP_CODE_RESPONSE id in
  let put vendor type b :=
    b ▸ (fun b => wpabuf_put_u8 b EAP_TYPE_EXPANDED) ▸ (fun b => wpabuf_put_be24 b vendor)
      ▸ (fun b => wpabuf_put_be32 b type) in
  let resp := wpabuf_put_be32 (wpabuf_put_be24 resp EAP_VENDOR_IETF) EAP_TYPE_NAK in
  let '(resp, found) :=
    fold_left (fun '(resp, found) e =>
        if (reqVendor sm =? em_vendor e) && (reqVendorMethod sm =? em_method e)
        then (resp, found) (* do not allow the current method again *)
        else if eap_allowed_method w (em_vendor e) (em_method e)
        then (put (em_vendor e) (em_method e) resp, found + 1)
        else (resp, found)) methods (resp, 0) in
  let resp := if found =? 0 then put EAP_VENDOR_IETF EAP_TYPE_NONE resp else resp in
  Some (eap_update_len resp).

(* eap.c eap_sm_buildNak *)
Definition eap_sm_buildNak (w : world) (id : Z) : option wpabuf :=
  let sm := esm w in
  let methods := eap_methods in
  match methods with
  | [] => None
  | _ =>
      if reqMethod sm =? EAP_TYPE_EXPANDED then eap_sm_build_expanded_nak w id methods else
      let? resp := eap_msg_alloc EAP_VENDOR_IETF EAP_TYPE_NAK
                     (sizeof_eap_hdr + 1 + zlen methods + 1) EAP_CODE_RESPONSE id in
      let '(resp, found, _) :=
        fold_left (fun '(resp, found, expanded_found) e =>
            if (em_vendor e =? EAP_VENDOR_IETF) && (em_method e =? reqMethod sm)
            then (resp, found, expanded_found) (* do not allow the current method again *)
            else if eap_allowed_method w (em_vendor e) (em_method e) then
              if negb (em_vendor e =? EAP_VENDOR_IETF) then
                if expanded_found : bool then (resp, found, expanded_found)
                else (wpabuf_put_u8 resp EAP_TYPE_EXPANDED, found + 1, true)
              else (wpabuf_put_u8 resp (em_method e), found + 1, expanded_found)
            else (resp, found, expanded_found)) methods (resp, 0, false) in
      let resp := if found =? 0 then wpabuf_put_u8 resp EAP_TYPE_NONE else resp in
      Some (eap_update_len resp)
  end.

(** The [nak:] label of GET_METHOD. *)
Definition get_method_nak (w : world) : world :=
  w ▸ on_sm (fun sm => sm <| eapRespData := eap_sm_buildNak w (reqId sm) |>).

(* eap.c SM_STATE(EAP, GET_METHOD) *)
Definition EAP_GET_METHOD_Enter (global : bool) (w : world) : world :=
  let w := w ▸ on_sm (sm_entry global EAP_GET_METHOD) in
  let sm := esm w in
  let method := if reqMethod sm =? EAP_TYPE_EXPANDED then reqVendorMethod sm else reqMethod sm in
  let found_method := eap_peer_get_eap_method (reqVendor sm) method in
  let name := match found_method with Some e => em_name e | None => "unknown"%string end in
  if negb (eap_sm_allowMethod w (reqVendor sm) method) then
    w ▸ eap_notify_status "refuse proposed method" name ▸ get_method_nak
  else
  let w := w ▸ eap_notify_status "accept proposed method" name in
  let reinit :=
    fast_reauth sm
    && match m sm with
       | Some e => (em_vendor e =? reqVendor sm) && (em_method e =? method)
       | None => false
       end
    && has_reauth_data sm in
  let w := if reinit then w else w ▸ on_sm eap_deinit_prev_method in
  let w := w ▸ on_sm (fun sm => sm <| selectedMethod := reqMethod sm |>) in
  let w := w ▸ on_sm (fun sm => if bool_decide (m sm = None) then sm <| m := found_method |> else sm) in
  match m (esm w) with
  | None => get_method_nak w
  | Some e =>
      let w := w ▸ on_sm (fun sm => sm <| ClientTimeout := EAP_CLIENT_TIMEOUT_DEFAULT |>) in
      let w :=
        if reinit then
          let '(p, v) := em_init_for_reauth e (esm w) (eap_method_priv (esm w)) in
          w ▸ on_sm (fun sm => store_method_vars v sm <| eap_method_priv := p |>)
        else
          let w := w ▸ on_sm (fun sm => sm <| waiting_ext_cert_check := false |> <| ext_cert_check := false |>) in
          let '(p, v, calls) := em_init e (esm w) (eap_get_config w) in
          w ▸ do_method_calls calls
            ▸ on_sm (fun sm => store_method_vars v sm <| eap_method_priv := p |>) in
      match eap_method_priv (esm w) with
      | None =>
          let w := w ▸ on_sm (fun sm => sm <| m := None |> <| methodState := METHOD_NONE |>
                                           <| selectedMethod := EAP_TYPE_NONE |>) in
          if (reqMethod (esm w) =? EAP_TYPE_TLS)
             && match eap_get_config w with
                | Some c => pending_req_pin c || pending_req_passphrase c
                | None => false
                end
          then w (* wait for the PIN or passphrase and retry the current packet *)
          else get_method_nak w
      | Some _ => w ▸ on_sm (fun sm => sm <| methodState := METHOD_INIT |>)
      end
  end.

(** *** Method processing *)

(* eap.c SM_STATE(EAP, METHOD) *)
Definition EAP_METHOD_Enter (global : bool) (w : world) : world :=
  let w := w ▸ on_sm (sm_entry global EAP_METHOD) in
  match m (esm w) with
  | None => w (* method not selected *)
  | Some e =>
      let req := eapol_get_eapReqData w in
      (* LEAP uses EAP-Success without payload *)
      let min_len :=
        if (em_vendor e =? EAP_VENDOR_IETF) && (em_method e =? EAP_TYPE_LEAP) then 0 else 1 in
      if negb (eap_hdr_len_valid req min_len) then w else
      match req with
      | None => w
      | Some req =>
          let sm := esm w in
          let ret := EapMethodRet (ignore sm) (methodState sm) (decision sm) (allowNotifications sm) in
          let w := w ▸ on_sm (fun sm => sm <| eapRespData := None |>) in
          let '(p, v, ret, resp, calls) :=
            em_process e (esm w) (eap_get_config w) (eap_method_priv (esm w)) ret req in
          let w := w ▸ do_method_calls calls ▸ on_sm (fun sm => store_method_vars v sm <| eap_method_priv := p |>
                                                               <| eapRespData := resp |>
                                                               <| ignore := ret_ignore ret |>) in
          if ignore (esm w) then w else
          let w := w ▸ on_sm (fun sm => sm <| methodState := ret_methodState ret |>
                                           <| decision := ret_decision ret |>
                                           <| allowNotifications := ret_allowNotifications ret |>) in
          let sm := esm w in
          match em_isKeyAvailable e, em_getKey e with
          | Some isKeyAvailable, Some getKey =>
              if isKeyAvailable sm (eap_method_priv sm) then
                let w := w ▸ on_sm (fun sm => eap_sm_free_key sm) in
                let w := w ▸ on_sm (fun sm => sm <| eapKeyData := getKey sm (eap_method_priv sm) |>
                                                 <| eapSessionId := None |>) in
                match em_getSessionId e with
                | Some f => w ▸ on_sm (fun sm => sm <| eapSessionId := f sm (eap_method_priv sm) |>)
                | None => w
                end
              else w
          | _, _ => w
          end
      end
  end.

(* eap.c SM_STATE(EAP, SEND_RESPONSE) *)
Definition EAP_SEND_RESPONSE_Enter (global : bool) (w : world) : world :=
  let w := w ▸ on_sm (sm_entry global EAP_SEND_RESPONSE) in
  let w :=
    match eapRespData (esm w) with
    | Some resp =>
        w ▸ on_sm (fun sm => if 20 <=? wpabuf_len resp then sm <| num_rounds_short := 0 |> else sm)
          ▸ on_sm (fun sm => if workaround sm then sm <| last_sha1 := req_sha1 sm |> else sm)
          ▸ on_sm (fun sm => sm <| lastId := reqId sm |> <| lastRespData := wpabuf_dup resp |>)
          ▸ eapol_set_bool EAPOL_eapResp true
    | None => w ▸ on_sm (fun sm => sm <| lastRespData := None |>)
    end in
  w ▸ eapol_set_bool EAPOL_eapReq false
    ▸ eapol_set_int EAPOL_idleWhile (ClientTimeout (esm w))
    ▸ on_sm (fun sm => sm <| reauthInit := false |>).

(* eap.c SM_STATE(EAP, DISCARD) *)
Definition EAP_DISCARD_Enter (global : bool) (w : world) : world :=
  w ▸ on_sm (sm_entry global EAP_DISCARD)
    ▸ eapol_set_bool EAPOL_eapReq false
    ▸ eapol_set_bool EAPOL_eapNoResp true.

(** eap_sm_request() for the identity *)
(* eap.c eap_sm_request_identity *)
Definition eap_sm_request_identity (w : world) : world :=
  match eap_get_config w with
  | None => w
  | Some _ =>
      w ▸ on_eapol (cb_update_config (fun c => c <| pending_req_identity := pending_req_identity c + 1 |>))
        ▸ on_eapol (cb_eap_param_needed WPA_CTRL_REQ_EAP_IDENTITY)
  end.

(* eap.c eap_sm_buildIdentity *)
Definition eap_sm_buildIdentity (id : Z) (encrypted : bool) (w : world) : option wpabuf * world :=
  match eap_get_config w with
  | None => (None, w)
  | Some config =>
      let sm := esm w in
      let method_identity :=
        let? e := m sm in let? f := em_get_identity e in f sm (eap_method_priv sm) in
      let ident :=
        match method_identity with
        | Some i => Some i
        | None =>
            if negb encrypted && bool_decide (is_Some (anonymous_identity config))
            then anonymous_identity config
            else if use_machine_cred sm then machine_identity config
            else identity config
        end in
      if pcsc config then (None, w) (* PCSC_FUNCS not included *)
      else
        match ident with
        | None => (None, eap_sm_request_identity w)
        | Some i =>
            (let? resp := eap_msg_alloc EAP_VENDOR_IETF EAP_TYPE_IDENTITY (zlen i) EAP_CODE_RESPONSE id in
             Some (wpabuf_put_data resp i), w)
        end
  end.

(** The displayable message of the request is only logged. *)
(* eap.c eap_sm_processIdentity *)
Definition eap_sm_processIdentity (w : world) : world := w ▸ eap_notify_status "started" "".

(* eap.c SM_STATE(EAP, IDENTITY) *)
Definition EAP_IDENTITY_Enter (global : bool) (w : world) : world :=
  let w := w ▸ on_sm (sm_entry global EAP_IDENTITY) in
  if negb (eap_hdr_len_valid (eapol_get_eapReqData w) 1) then w else
  let w := w ▸ eap_sm_processIdentity ▸ on_sm (fun sm => sm <| eapRespData := None |>) in
  let '(resp, w) := eap_sm_buildIdentity (reqId (esm w)) false w in
  w ▸ on_sm (fun sm => sm <| eapRespData := resp |>).

(* eap.c eap_sm_buildNotify *)
Definition eap_sm_buildNotify (id : Z) : option wpabuf :=
  eap_msg_alloc EAP_VENDOR_IETF EAP_TYPE_NOTIFICATION 0 EAP_CODE_RESPONSE id.

(** eap_sm_processNotify() only reports the message through wpa_msg(). *)
(* eap.c SM_STATE(EAP, NOTIFICATION) *)
Definition EAP_NOTIFICATION_Enter (global : bool) (w : world) : world :=
  let w := w ▸ on_sm (sm_entry global EAP_NOTIFICATION) in
  if negb (eap_hdr_len_valid (eapol_get_eapReqData w) 1) then w else
  w ▸ on_sm (fun sm => sm <| eapRespData := eap_sm_buildNotify (reqId sm) |>).

(* eap.c SM_STATE(EAP, RETRANSMIT) *)
Definition EAP_RETRANSMIT_Enter (global : bool) (w : world) : world :=
  w ▸ on_sm (sm_entry global EAP_RETRANSMIT)
    ▸ on_sm (fun sm => sm <| eapRespData := let? l := lastRespData sm in wpabuf_dup l |>).

(* eap.c SM_STATE(EAP, SUCCESS) *)
Definition EAP_SUCCESS_Enter (global : bool) (w : world) : world :=
  w ▸ on_sm (sm_entry global EAP_SUCCESS)
    ▸ on_sm (fun sm => if bool_decide (eapKeyData sm <> None) then sm <| eapKeyAvailable := true |> else sm)
    ▸ eapol_set_bool EAPOL_eapSuccess true
    ▸ eapol_set_bool EAPOL_eapReq false
    ▸ eapol_set_bool EAPOL_eapNoResp true.

(* eap.c SM_STATE(EAP, FAILURE) *)
Definition EAP_FAILURE_Enter (global : bool) (w : world) : world :=
  w ▸ on_sm (sm_entry global EAP_FAILURE)
    ▸ eapol_set_bool EAPOL_eapFail true
    ▸ eapol_set_bool EAPOL_eapReq false
    ▸ eapol_set_bool EAPOL_eapNoResp true
    ▸ on_sm (fun sm => sm <| prev_failure := true |>).

(** ** Transitions *)

(* eap.c eap_success_workaround *)
Definition eap_success_workaround (sm : eap_sm) (reqId lastId : Z) : bool :=
  workaround sm && ((reqId =? Z.land (lastId + 1) 255) || (reqId =? Z.land (lastId + 2) 255)).

(* eap.c eap_peer_sm_step_idle *)
Definition eap_peer_sm_step_idle (w : world) : world :=
  let sm := esm w in
  if eapol_get_bool w EAPOL_eapReq then EAP_RECEIVED_Enter false w
  else if (eapol_get_bool w EAPOL_altAccept && bool_decide (decision sm <> DECISION_FAIL))
          || ((eapol_get_int w EAPOL_idleWhile =? 0)
              && bool_decide (decision sm = DECISION_UNCOND_SUCC))
  then EAP_SUCCESS_Enter false w
  else if eapol_get_bool w EAPOL_altReject
          || ((eapol_get_int w EAPOL_idleWhile =? 0)
              && bool_decide (decision sm <> DECISION_UNCOND_SUCC))
          || (eapol_get_bool w EAPOL_altAccept
              && bool_decide (methodState sm <> METHOD_CONT)
              && bool_decide (decision sm = DECISION_FAIL))
  then EAP_FAILURE_Enter false w
  else if (selectedMethod sm =? EAP_TYPE_LEAP) && leap_done sm
          && bool_decide (decision sm <> DECISION_FAIL)
          && bool_decide (methodState sm = METHOD_DONE)
  then EAP_SUCCESS_Enter false w
  else if (selectedMethod sm =? EAP_TYPE_PEAP) && peap_done sm
          && bool_decide (decision sm <> DECISION_FAIL)
          && bool_decide (methodState sm = METHOD_DONE)
  then EAP_SUCCESS_Enter false w
  else w.

(* eap.c eap_peer_req_is_duplicate *)
Definition eap_peer_req_is_duplicate (sm : eap_sm) : bool :=
  let duplicate := (reqId sm =? lastId sm) && rxReq sm in
  if workaround sm && duplicate && negb (memcmp (req_sha1 sm) (last_sha1 sm) =? 0)
  then false else duplicate.

(* eap.c eap_peer_sm_allow_canned *)
Definition eap_peer_sm_allow_canned (w : world) : bool :=
  match eap_get_config w with
  | Some c => match phase1 c with
              | Some p => bool_decide (is_Some (String.index 0 "allow_canned_success=1" p))
              | None => false
              end
  | None => false
  end.

(* eap.c eap_peer_sm_step_received *)
Definition eap_peer_sm_step_received (w : world) : world :=
  let sm := esm w in
  let duplicate := eap_peer_req_is_duplicate sm in
  if rxSuccess sm && bool_decide (decision sm <> DECISION_FAIL)
     && ((reqId sm =? lastId sm) || eap_success_workaround sm (reqId sm) (lastId sm))
  then EAP_SUCCESS_Enter false w
  else if workaround sm && (lastId sm =? -1) && rxSuccess sm && negb (rxFailure sm)
          && negb (rxReq sm) && eap_peer_sm_allow_canned w
  then EAP_SUCCESS_Enter false w (* EAP-Success prior any EAP method *)
  else if workaround sm && (lastId sm =? -1) && rxFailure sm && negb (rxReq sm)
          && bool_decide (methodState sm <> METHOD_CONT) && eap_peer_sm_allow_canned w
  then EAP_FAILURE_Enter false w (* EAP-Failure prior any EAP method *)
  else if workaround sm && rxSuccess sm && negb (rxFailure sm) && negb (rxReq sm)
          && bool_decide (methodState sm <> METHOD_CONT) && eap_peer_sm_allow_canned w
  then EAP_SUCCESS_Enter false w (* EAP-Success after Identity *)
  else if bool_decide (methodState sm <> METHOD_CONT)
          && ((rxFailure sm && bool_decide (decision sm <> DECISION_UNCOND_SUCC))
              || (rxSuccess sm && bool_decide (decision sm = DECISION_FAIL)
                  && (negb (selectedMethod sm =? EAP_TYPE_LEAP)
                      || bool_decide (methodState sm <> METHOD_MAY_CONT))))
          && ((reqId sm =? lastId sm) || eap_success_workaround sm (reqId sm) (lastId sm))
  then EAP_FAILURE_Enter false w
  else if rxReq sm && duplicate then EAP_RETRANSMIT_Enter false w
  else if rxReq sm && negb duplicate && (reqMethod sm =? EAP_TYPE_NOTIFICATION)
          && allowNotifications sm
  then EAP_NOTIFICATION_Enter false w
  else if rxReq sm && negb duplicate && (selectedMethod sm =? EAP_TYPE_NONE)
          && (reqMethod sm =? EAP_TYPE_IDENTITY)
  then EAP_IDENTITY_Enter false w
  else if rxReq sm && negb duplicate && (selectedMethod sm =? EAP_TYPE_NONE)
          && negb (reqMethod sm =? EAP_TYPE_IDENTITY)
          && negb (reqMethod sm =? EAP_TYPE_NOTIFICATION)
  then EAP_GET_METHOD_Enter false w
  else if rxReq sm && negb duplicate && (reqMethod sm =? selectedMethod sm)
          && bool_decide (methodState sm <> METHOD_DONE)
  then EAP_METHOD_Enter false w
  else if (selectedMethod sm =? EAP_TYPE_LEAP) && (rxSuccess sm || rxResp sm)
  then EAP_METHOD_Enter false w
  else if reauthInit sm then EAP_SEND_RESPONSE_Enter false w
  else EAP_DISCARD_Enter false w.

(* eap.c eap_peer_sm_step_local *)
Definition eap_peer_sm_step_local (w : world) : world :=
  let sm := esm w in
  match EAP_state sm with
  | EAP_INITIALIZE => EAP_IDLE_Enter false w
  | EAP_DISABLED =>
      if eapol_get_bool w EAPOL_portEnabled && negb (force_disabled sm)
      then EAP_INITIALIZE_Enter false w else w
  | EAP_IDLE => eap_peer_sm_step_idle w
  | EAP_RECEIVED => eap_peer_sm_step_received w
  | EAP_GET_METHOD =>
      if selectedMethod sm =? reqMethod sm then EAP_METHOD_Enter false w
      else EAP_SEND_RESPONSE_Enter false w
  | EAP_METHOD =>
      if ignore sm then EAP_DISCARD_Enter false w
      else if bool_decide (methodState sm = METHOD_DONE)
              && bool_decide (decision sm = DECISION_FAIL)
              && bool_decide (eapRespData sm = None)
      then EAP_FAILURE_Enter false w
      else EAP_SEND_RESPONSE_Enter false w
  | EAP_SEND_RESPONSE => EAP_IDLE_Enter false w
  | EAP_DISCARD => EAP_IDLE_Enter false w
  | EAP_IDENTITY => EAP_SEND_RESPONSE_Enter false w
  | EAP_NOTIFICATION => EAP_SEND_RESPONSE_Enter false w
  | EAP_RETRANSMIT => EAP_SEND_RESPONSE_Enter false w
  | EAP_SUCCESS => w
  | EAP_FAILURE => w
  end.

(* eap.c SM_STEP(EAP) *)
Definition EAP_Step (w : world) : world :=
  let sm := esm w in
  if eapol_get_bool w EAPOL_eapRestart && eapol_get_bool w EAPOL_portEnabled
  then EAP_INITIALIZE_Enter true w
  else if negb (eapol_get_bool w EAPOL_portEnabled) || force_disabled sm
  then EAP_DISABLED_Enter true w
  else if EAP_MAX_AUTH_ROUNDS <? num_rounds sm then
    if num_rounds sm =? EAP_MAX_AUTH_ROUNDS + 1 then
      w ▸ on_sm (fun sm => sm <| num_rounds := num_rounds sm + 1 |>) ▸ EAP_FAILURE_Enter true
    else w
  else if EAP_MAX_AUTH_ROUNDS_SHORT <? num_rounds_short sm then
    if num_rounds_short sm =? EAP_MAX_AUTH_ROUNDS_SHORT + 1 then
      w ▸ on_sm (fun sm => sm <| num_rounds_short := num_rounds_short sm + 1 |>)
        ▸ EAP_FAILURE_Enter true
    else w
  else eap_peer_sm_step_local w.

(** The do-while loop: [None] when the fuel runs out, otherwise whether a state
    changed and the final world. *)
(* eap.c eap_peer_sm_step *)
Fixpoint eap_peer_sm_step_loop (fuel : nat) (res : bool) (w : world) : option (bool * world) :=
  match fuel with
  | O => None
  | Datatypes.S fuel =>
      let w := w ▸ on_sm (fun sm => sm <| changed := false |>) ▸ EAP_Step in
      if changed (esm w) then eap_peer_sm_step_loop fuel true w else Some (res, w)
  end.

(** Iterations that are always enough ([eap_peer_sm_step_terminates]). *)
Definition EAP_STEP_FUEL : nat := 100.

(* eap.c eap_peer_sm_step *)
Definition eap_peer_sm_step (w : world) : bool * world :=
  match eap_peer_sm_step_loop EAP_STEP_FUEL false w with
  | Some r => r
  | None => (true, w)
  end.

(** ** External operations *)

(** [tls_ok]: tls_init() gave a context.  The structure is zero-initialised. *)
(* eap.c eap_peer_sm_init *)
Definition eap_peer_sm_init (tls_ok : bool) : option eap_sm :=
  if tls_ok then
    Some (EapSm EAP_INITIALIZE EAP_TYPE_NONE METHOD_NONE 0 None DECISION_FAIL false false false
            0 EAP_TYPE_NONE EAP_VENDOR_IETF EAP_TYPE_NONE false EAP_CLIENT_TIMEOUT_DEFAULT false
            None false None None None false None false false 0 false false false
            (replicate 20 0) (replicate 20 0) false 0 0 false false None false false false false)
  else None.

(* eap.c eap_sm_abort *)
Definition eap_sm_abort (w : world) : world :=
  w ▸ on_sm (fun sm => eap_sm_free_key (sm <| lastRespData := None |> <| eapRespData := None |>)
                         <| eapSessionId := None |>)
    ▸ eapol_set_bool EAPOL_eapSuccess false.

(* eap.c eap_peer_sm_deinit *)
Definition eap_peer_sm_deinit (w : world) : world :=
  w ▸ on_sm eap_deinit_prev_method ▸ eap_sm_abort.

(* eap.c eap_set_fast_reauth *)
Definition eap_set_fast_reauth (enabled : bool) : world -> world :=
  on_sm (fun sm => sm <| fast_reauth := enabled |>).
(* eap.c eap_set_workaround *)
Definition eap_set_workaround (b : bool) : world -> world :=
  on_sm (fun sm => sm <| workaround := b |>).
(* eap.c eap_set_force_disabled *)
Definition eap_set_force_disabled (disabled : bool) : world -> world :=
  on_sm (fun sm => sm <| force_disabled := disabled |>).

(* eap.c eap_key_available *)
Definition eap_key_available (w : world) : bool := eapKeyAvailable (esm w).

(* eap.c eap_notify_success *)
Definition eap_notify_success : world -> world :=
  on_sm (fun sm => sm <| decision := DECISION_COND_SUCC |> <| EAP_state := EAP_SUCCESS |>).

(* eap.c eap_notify_lower_layer_success *)
Definition eap_notify_lower_layer_success (w : world) : world :=
  let sm := esm w in
  if eapol_get_bool w EAPOL_eapSuccess || bool_decide (decision sm = DECISION_FAIL)
     || (bool_decide (methodState sm <> METHOD_MAY_CONT)
         && bool_decide (methodState sm <> METHOD_DONE))
  then w else
  w ▸ on_sm (fun sm => if bool_decide (eapKeyData sm <> None) then sm <| eapKeyAvailable := true |> else sm)
    ▸ eapol_set_bool EAPOL_eapSuccess true.

(* eap.c eap_get_eapSessionId *)
Definition eap_get_eapSessionId (w : world) : option bytes := eapSessionId (esm w).
(* eap.c eap_get_eapKeyData *)
Definition eap_get_eapKeyData (w : world) : option bytes := eapKeyData (esm w).
(* eap.c eap_get_eapRespData *)
Definition eap_get_eapRespData (w : world) : option wpabuf * world :=
  (eapRespData (esm w), w ▸ on_sm (fun sm => sm <| eapRespData := None |>)).

(* eap.c eap_invalidate_cached_session *)
Definition eap_invalidate_cached_session : world -> world := on_sm eap_deinit_prev_method.
(* eap.c eap_peer_was_failure_expected *)
Definition eap_peer_was_failure_expected (w : world) : bool := expected_failure (esm w).

End EapPeer.
