(* ===== verification/EapMschapv2.v ===== *)
(** * EAP-MSCHAPv2 and EAP-MD5 (src/eap_peer/eap_mschapv2.c, mschapv2.c, eap_md5.c)

    Two authentication methods of the EAP peer, and the instance of [EapMethods]
    (EapPeer.v) they make.  The private data of EAP-MSCHAPv2 is struct
    eap_mschapv2_data; a function of the method works on [mst], this data with the
    configuration and the calls of the lower layer made so far.  Messages to
    the log are not modelled.  Phase 2 use inside EAP-FAST hands challenges to the method; they are NULL
    here. *)

From stdpp Require Import strings.
From S2P Require Import Prelude UtilsCommon Wpabuf EapCommon EapPeer HashMd HashMd5 MsFuncs.

(* eap_defs.h enum eap_type *)
Definition EAP_TYPE_MD5 : Z := 4.
(* eap_defs.h enum eap_type *)
Definition EAP_TYPE_MSCHAPV2 : Z := 26.

(* eap_config.h EAP_CONFIG_FLAGS_PASSWORD_NTHASH @641-644 *)
Definition EAP_CONFIG_FLAGS_PASSWORD_NTHASH : Z := 1.
Definition EAP_CONFIG_FLAGS_EXT_PASSWORD : Z := 2.
Definition EAP_CONFIG_FLAGS_MACHINE_PASSWORD_NTHASH : Z := 4.
Definition EAP_CONFIG_FLAGS_EXT_MACHINE_PASSWORD : Z := 8.

#[export] Instance eta_eap_method_ret : Eta eap_method_ret := fun r =>
  EapMethodRet (ret_ignore r) (ret_methodState r) (ret_decision r) (ret_allowNotifications r).

(** What surrounds the methods: random numbers by the number of the question and the bytes asked for, passwords
    stored outside of the configuration by name, and what freed memory holds. *)
Class MethodEnv := {
  random_answer : nat -> nat -> option bytes;
  ext_password_get : bytes -> option bytes;
  freed_memory : bytes
}.

Class MethodEnvLaws `{MethodEnv} : Prop :=
  random_length n len r : random_answer n len = Some r -> length r = len /\ bytes_ok r.

(** ** Configuration (eap.c) *)

Section Config.
Context `{MethodEnv}.

(** Reading through a pointer of the configuration. *)
Definition cfg_read (p : cfg_bytes) : option bytes :=
  match p with CfgNull => None | CfgBytes b => Some b | CfgFreed => Some freed_memory end.

Definition flag (c : eap_peer_config) (f : Z) : bool := negb (Z.land (cfg_flags c) f =? 0).

(* eap.c eap_get_config_identity *)
Definition eap_get_config_identity (use_machine_cred : bool) (config : option eap_peer_config) : option bytes :=
  let? c := config in if use_machine_cred then machine_identity c else identity c.

(* eap.c eap_get_ext_password *)
Definition eap_get_ext_password (use_machine_cred : bool) (c : eap_peer_config) : option bytes :=
  let? password := if use_machine_cred then machine_password c else cfg_read (password c) in
  ext_password_get password.

(** The password and whether it is stored as its hash. *)
(* eap.c eap_get_config_password2 *)
Definition eap_get_config_password2 (use_machine_cred : bool) (config : option eap_peer_config)
  : option (bytes * bool) :=
  let? c := config in
  if (use_machine_cred && flag c EAP_CONFIG_FLAGS_EXT_MACHINE_PASSWORD)
     || (negb use_machine_cred && flag c EAP_CONFIG_FLAGS_EXT_PASSWORD)
  then let? p := eap_get_ext_password use_machine_cred c in Some (p, false)
  else if use_machine_cred then
    let? p := machine_password c in Some (p, flag c EAP_CONFIG_FLAGS_MACHINE_PASSWORD_NTHASH)
  else let? p := cfg_read (password c) in Some (p, flag c EAP_CONFIG_FLAGS_PASSWORD_NTHASH).

(* eap.c eap_get_config_password *)
Definition eap_get_config_password (use_machine_cred : bool) (config : option eap_peer_config) : option bytes :=
  let? (p, _) := eap_get_config_password2 use_machine_cred config in Some p.

(* eap.c eap_get_config_new_password *)
Definition eap_get_config_new_password (config : option eap_peer_config) : option bytes :=
  let? c := config in new_password c.
End Config.

(** ** MS-CHAPv2 (mschapv2.c) *)

Section Mschapv2.
Context `{MsCrypto}.

(** What follows the first backslash. *)
Fixpoint after_backslash (l : bytes) : option bytes :=
  match l with [] => None | c :: l => if c =? 92 then Some l else after_backslash l end.

(* mschapv2.c mschapv2_remove_domain *)
Definition mschapv2_remove_domain (username : bytes) : bytes :=
  match after_backslash username with Some l => l | None => username end.

(** [nt_response], [auth_response] and [master_key]. *)
(* mschapv2.c mschapv2_derive_response *)
Definition mschapv2_derive_response (identity password : bytes) (pwhash : bool)
    (auth_challenge peer_challenge : bytes) : option (bytes * bytes * bytes) :=
  let username := mschapv2_remove_domain identity in
  let? nt_response :=
    if pwhash then Some (generate_nt_response_pwhash auth_challenge peer_challenge username password)
    else generate_nt_response auth_challenge peer_challenge username password in
  let? auth_response :=
    if pwhash then Some (generate_authenticator_response_pwhash password peer_challenge auth_challenge username nt_response)
    else generate_authenticator_response password peer_challenge auth_challenge username nt_response in
  let? password_hash_hash :=
    if pwhash then Some (hash_nt_password_hash password)
    else let? password_hash := nt_password_hash password in Some (hash_nt_password_hash password_hash) in
  Some (nt_response, auth_response, get_master_key password_hash_hash nt_response).

(* mschapv2.c mschapv2_verify_auth_response *)
Definition mschapv2_verify_auth_response (auth_response buf : bytes) : Z :=
  if zlen buf <? 2 + 2 * 20 then -1 else
  if negb (byte_at buf 0 =? 83) || negb (byte_at buf 1 =? 61) then -1 else
  match hexstr2bin 20 (drop 2 buf) with
  | None => -1
  | Some recv_response => if negb (os_memcmp_const auth_response recv_response =? 0) then -1 else 0
  end.
End Mschapv2.

(** ** EAP-MSCHAPv2 *)

(* eap_mschapv2.c MSCHAPV2_OP_CHALLENGE @61-61 *)
Definition MSCHAPV2_OP_CHALLENGE : Z := 1.
Definition MSCHAPV2_OP_RESPONSE : Z := 2.
Definition MSCHAPV2_OP_SUCCESS : Z := 3.
Definition MSCHAPV2_OP_FAILURE : Z := 4.
Definition MSCHAPV2_OP_CHANGE_PASSWORD : Z := 7.
(* eap_mschapv2.c ERROR_PASSWD_EXPIRED @69-69 *)
Definition ERROR_PASSWD_EXPIRED : Z := 648.
Definition ERROR_AUTHENTICATION_FAILURE : Z := 691.

(** [n_random] counts the questions to the random number generator. *)
(* eap_mschapv2.c struct eap_mschapv2_data *)
Record eap_mschapv2_data := MschapV2Data {
  auth_response : bytes;
  auth_response_valid : bool;
  prev_error : Z;
  passwd_change_challenge : bytes;
  passwd_change_challenge_valid : bool;
  passwd_change_version : Z;
  master_key : bytes;
  master_key_valid : bool;
  success : bool;
  prev_challenge : option wpabuf;
  n_random : nat
}.
#[export] Instance eta_eap_mschapv2_data : Eta eap_mschapv2_data := fun d =>
  MschapV2Data (auth_response d) (auth_response_valid d) (prev_error d) (passwd_change_challenge d)
    (passwd_change_challenge_valid d) (passwd_change_version d) (master_key d) (master_key_valid d)
    (success d) (prev_challenge d) (n_random d).

(** The method at work: its data, struct eap_peer_config, and what it told the lower layer. *)
Record mst := Mst { md : eap_mschapv2_data; mcfg : option eap_peer_config; mcalls : list method_call }.
#[export] Instance eta_mst : Eta mst := fun s => Mst (md s) (mcfg s) (mcalls s).

Definition on_md (f : eap_mschapv2_data -> eap_mschapv2_data) (s : mst) : mst := s <| md := f (md s) |>.

(** An assignment through [config]. *)
Definition on_config (f : eap_peer_config -> eap_peer_config) (s : mst) : mst :=
  s <| mcfg := match mcfg s with Some c => Some (f c) | None => None end |>
    <| mcalls := mcalls s ++ [CallUpdateConfig f] |>.

Definition eap_param_needed (field : wpa_ctrl_req_type) (s : mst) : mst :=
  s <| mcalls := mcalls s ++ [CallParamNeeded field] |>.

(* eap.c eap_sm_request *)
Definition eap_sm_request (field : wpa_ctrl_req_type) (s : mst) : mst :=
  match mcfg s with
  | None => s
  | Some _ =>
      s ▸ on_config (fun c =>
            match field with
            | WPA_CTRL_REQ_EAP_IDENTITY => c <| pending_req_identity := pending_req_identity c + 1 |>
            | WPA_CTRL_REQ_EAP_PASSWORD => c <| pending_req_password := pending_req_password c + 1 |>
            | WPA_CTRL_REQ_EAP_NEW_PASSWORD => c <| pending_req_new_password := pending_req_new_password c + 1 |>
            end)
        ▸ eap_param_needed field
  end.

(** A C string in a buffer ends at its first NUL. *)
Fixpoint c_string (l : bytes) : bytes :=
  match l with [] => [] | c :: l => if c =? 0 then [] else c :: c_string l end.

(** [os_strchr(pos, ' ')] and [pos++] if it is not NULL; nothing when there is no space. *)
Fixpoint after_space (l : bytes) : option bytes :=
  match l with [] => None | c :: l => if c =? 32 then Some l else after_space l end.

(** The distance of the first space. *)
Fixpoint space_distance (l : bytes) : option Z :=
  match l with
  | [] => None
  | c :: l => if c =? 32 then Some 0 else let? n := space_distance l in Some (n + 1)
  end.

(** atoi(): white space, a sign, digits; strtol() saturates and the result is made an int. *)
Fixpoint digits (l : bytes) (n : Z) : Z :=
  match l with
  | c :: l' => if (48 <=? c) && (c <=? 57) then digits l' (10 * n + (c - 48)) else n
  | [] => n
  end.
Definition is_space (c : Z) : bool := (c =? 32) || ((9 <=? c) && (c <=? 13)).
Fixpoint skip_space (l : bytes) : bytes :=
  match l with c :: l' => if is_space c then skip_space l' else l | [] => [] end.
Definition s32_of_long (n : Z) : Z := (n + 2 ^ 31) mod 2 ^ 32 - 2 ^ 31.
Definition atoi (l : bytes) : Z :=
  match skip_space l with
  | 45 :: l => s32_of_long (Z.max (- 2 ^ 63) (- digits l 0))
  | 43 :: l => s32_of_long (Z.min (2 ^ 63 - 1) (digits l 0))
  | l => s32_of_long (Z.min (2 ^ 63 - 1) (digits l 0))
  end.

(** [os_strncmp(pos, "X=", 2) == 0] for a letter. *)
Definition has_tag (letter : Z) (pos : option bytes) : option bytes :=
  match pos with
  | Some (a :: b :: l) => if (a =? letter) && (b =? 61) then Some l else None
  | _ => None
  end.

Section EapMschapv2.
Context `{MethodEnv} `{MsCrypto} `{OsAlloc}.
(** The fields of struct eap_sm the method reads. *)
Context (use_machine_cred workaround : bool).

Definition get_identity (s : mst) : option bytes := eap_get_config_identity use_machine_cred (mcfg s).
Definition get_password (s : mst) : option bytes := eap_get_config_password use_machine_cred (mcfg s).
Definition get_password2 (s : mst) : option (bytes * bool) := eap_get_config_password2 use_machine_cred (mcfg s).

Definition random_get_bytes (len : nat) (s : mst) : option bytes * mst :=
  (random_answer (n_random (md s)) len, on_md (fun d => d <| n_random := S (n_random d) |>) s).

(** [op_code], [mschapv2_id] and [ms_length] of struct eap_mschapv2_hdr. *)
(* eap_mschapv2.c struct eap_mschapv2_hdr *)
Definition eap_mschapv2_hdr (op_code mschapv2_id ms_len : Z) : bytes :=
  [op_code; u8 mschapv2_id] ++ put_be16 ms_len.

(* eap_mschapv2.c eap_mschapv2_init *)
Definition eap_mschapv2_init : option eap_mschapv2_data :=
  guard! malloc_ok 112;
  Some (MschapV2Data (replicate 20 0) false 0 (replicate 16 0) false 0 (replicate 16 0) false false None 0).

(* eap_mschapv2.c eap_mschapv2_challenge_reply *)
Definition eap_mschapv2_challenge_reply (id mschapv2_id : Z) (auth_challenge : bytes) (s : mst)
  : option wpabuf * mst :=
  match get_identity s, get_password2 s with
  | Some identity, Some (password, pwhash) =>
      let ms_len := 4 + 1 + 49 + zlen identity in
      match eap_msg_alloc EAP_VENDOR_IETF EAP_TYPE_MSCHAPV2 ms_len EAP_CODE_RESPONSE id with
      | None => (None, s)
      | Some resp =>
          let mschapv2_id := if negb (prev_error (md s) =? 0) then mschapv2_id + 1 else mschapv2_id in
          let resp := wpabuf_put resp (eap_mschapv2_hdr MSCHAPV2_OP_RESPONSE mschapv2_id ms_len) in
          let resp := wpabuf_put_u8 resp 49 in
          let '(peer_challenge, s) := random_get_bytes 16 s in
          match peer_challenge with
          | None => (None, s)
          | Some peer_challenge =>
              match mschapv2_derive_response identity password pwhash auth_challenge peer_challenge with
              | None => (None, s)
              | Some (nt_response, auth_resp, m_key) =>
                  let s := on_md (fun d => d <| auth_response := auth_resp |> <| master_key := m_key |>
                                             <| auth_response_valid := true |> <| master_key_valid := true |>) s in
                  let r := peer_challenge ++ replicate 8 0 ++ nt_response ++ [0] in
                  (Some (wpabuf_put_data (wpabuf_put resp r) identity), s)
              end
          end
      end
  | _, _ => (None, s)
  end.

(** [req] is the data of the message from the EAP-MSCHAPv2 header on, [req_len] bytes. *)
(* eap_mschapv2.c eap_mschapv2_challenge *)
Definition eap_mschapv2_challenge (ret : eap_method_ret) (req : bytes) (id : Z) (s : mst)
  : option wpabuf * eap_method_ret * mst :=
  match get_identity s, get_password s with
  | Some _, Some _ =>
      if zlen req <? 4 + 1 then (None, ret <| ret_ignore := true |>, s) else
      let challenge_len := byte_at req 4 in
      let pos := drop 5 req in
      let len := zlen req - 4 - 1 in
      if negb (challenge_len =? 16) then (None, ret <| ret_ignore := true |>, s) else
      if len <? challenge_len then (None, ret <| ret_ignore := true |>, s) else
      let challenge := if passwd_change_challenge_valid (md s) then passwd_change_challenge (md s) else take 16 pos in
      let ret := EapMethodRet false METHOD_MAY_CONT DECISION_FAIL true in
      let '(resp, s) := eap_mschapv2_challenge_reply id (byte_at req 1) challenge s in
      (resp, ret, s)
  | _, _ => (None, ret, s)
  end.

(** With EAP_CONFIG_FLAGS_EXT_PASSWORD the old password is freed but the pointer stays. *)
(* eap_mschapv2.c eap_mschapv2_password_changed *)
Definition eap_mschapv2_password_changed (s : mst) : mst :=
  match mcfg s with
  | Some c =>
      match new_password c with
      | None => s
      | Some np =>
          let s := on_md (fun d => d <| prev_error := 0 |>) s in
          let changed :=
            if flag c EAP_CONFIG_FLAGS_EXT_PASSWORD then
              match password c with CfgNull => CfgNull | _ => CfgFreed end
            else if flag c EAP_CONFIG_FLAGS_PASSWORD_NTHASH then
              if malloc_ok 16 then match nt_password_hash np with Some h => CfgBytes h | None => CfgNull end
              else CfgNull
            else CfgBytes np in
          on_config (fun c => c <| password := changed |> <| new_password := None |>) s
      end
  | None => s
  end.

(* eap_mschapv2.c eap_mschapv2_success *)
Definition eap_mschapv2_success (ret : eap_method_ret) (req : bytes) (id : Z) (s : mst)
  : option wpabuf * eap_method_ret * mst :=
  if negb (auth_response_valid (md s))
     || negb (mschapv2_verify_auth_response (auth_response (md s)) (drop 4 req) =? 0)
  then (None, ret <| ret_methodState := METHOD_DONE |> <| ret_decision := DECISION_FAIL |>, s)
  else
  match eap_msg_alloc EAP_VENDOR_IETF EAP_TYPE_MSCHAPV2 1 EAP_CODE_RESPONSE id with
  | None => (None, ret <| ret_ignore := true |>, s)
  | Some resp =>
      let resp := wpabuf_put_u8 resp MSCHAPV2_OP_SUCCESS in
      let ret := ret <| ret_methodState := METHOD_DONE |> <| ret_decision := DECISION_UNCOND_SUCC |>
                     <| ret_allowNotifications := false |> in
      let s := on_md (fun d => d <| success := true |>) s in
      (Some resp, ret, if prev_error (md s) =? ERROR_PASSWD_EXPIRED then eap_mschapv2_password_changed s else s)
  end.

(** The fields of the failure message; a missing space makes [pos] NULL. *)
(* eap_mschapv2.c eap_mschapv2_failure_txt @409-467 *)
Definition failure_fields (txt : bytes) (s : mst) : Z * mst :=
  let pos := Some txt in
  let '(pos, s) :=
    match has_tag 69 pos with
    | Some l => (after_space l, on_md (fun d => d <| prev_error := atoi l |>) s)
    | None => (pos, s)
    end in
  let '(pos, retry) :=
    match has_tag 82 pos with Some l => (after_space l, atoi l) | None => (pos, 1) end in
  let '(pos, s) :=
    match has_tag 67 pos with
    | Some l =>
        let s :=
          if bool_decide (space_distance l = Some (2 * 16)) then
            match hexstr2bin 16 l with
            | None => on_md (fun d => d <| passwd_change_challenge := overwrite (passwd_change_challenge d) (hex_prefix 16 l) |>) s
            | Some c => on_md (fun d => d <| passwd_change_challenge := c |> <| passwd_change_challenge_valid := true |>) s
            end
          else s in
        (after_space l, s)
    | None => (pos, s)
    end in
  let s :=
    match has_tag 86 pos with
    | Some l => on_md (fun d => d <| passwd_change_version := atoi l |>) s
    | None => s
    end in
  (retry, s).

Definition retry_disabled (c : eap_peer_config) : bool :=
  match phase2 c with
  | Some p => bool_decide (is_Some (String.index 0 "mschapv2_retry=0" p))
  | None => false
  end.

(* eap_mschapv2.c eap_mschapv2_failure_txt *)
Definition eap_mschapv2_failure_txt (txt : bytes) (s : mst) : bool * mst :=
  let '(retry, s) := failure_fields txt s in
  let d := md s in
  match mcfg s with
  | None => (retry =? 1, s)
  | Some config =>
      let retry :=
        if (prev_error d =? ERROR_AUTHENTICATION_FAILURE) && negb (retry =? 0) && retry_disabled config
        then 0 else retry in
      let s :=
        if (prev_error d =? ERROR_PASSWD_EXPIRED) && (passwd_change_version d =? 3) then
          if bool_decide (new_password config = None) then eap_sm_request WPA_CTRL_REQ_EAP_NEW_PASSWORD s else s
        else if retry =? 1 then
          s ▸ (fun s => if negb (mschapv2_retry config) then eap_sm_request WPA_CTRL_REQ_EAP_IDENTITY s else s)
            ▸ eap_sm_request WPA_CTRL_REQ_EAP_PASSWORD
            ▸ on_config (fun c => c <| mschapv2_retry := true |>)
        else on_config (fun c => c <| mschapv2_retry := false |>) s in
      (retry =? 1, s)
  end.

(** What the change of a password needs of the crypto library: Encrypted-Password and Encrypted-Hash. *)
(* eap_mschapv2.c eap_mschapv2_change_password @551-578 *)
Definition change_password_fields (password new_password : bytes) (pwhash : bool)
    (pad : nat -> option bytes) : option (bytes * bytes) :=
  if pwhash then
    let? encr_password := encrypt_pw_block_with_password_hash pad new_password password in
    let? new_password_hash := nt_password_hash new_password in
    Some (encr_password, nt_password_hash_encrypted_with_block password new_password_hash)
  else
    let? encr_password := new_password_encrypted_with_old_nt_password_hash pad new_password password in
    let? encr_hash := old_nt_password_hash_encrypted_with_new_nt_password_hash new_password password in
    Some (encr_password, encr_hash).

(** Where the new password cannot be hashed, [change_password_fields] has failed before. *)
(* eap_mschapv2.c eap_mschapv2_change_password *)
Definition eap_mschapv2_change_password (ret : eap_method_ret) (req : bytes) (id : Z) (s : mst)
  : option wpabuf * eap_method_ret * mst :=
  match get_identity s, get_password2 s, eap_get_config_new_password (mcfg s) with
  | Some username, Some (password, pwhash), Some new_password =>
      let username := mschapv2_remove_domain username in
      let ret := EapMethodRet false METHOD_MAY_CONT DECISION_COND_SUCC true in
      let ms_len := 4 + 582 in
      match eap_msg_alloc EAP_VENDOR_IETF EAP_TYPE_MSCHAPV2 ms_len EAP_CODE_RESPONSE id with
      | None => (None, ret, s)
      | Some resp =>
          let resp := wpabuf_put resp (eap_mschapv2_hdr MSCHAPV2_OP_CHANGE_PASSWORD (byte_at req 1 + 1) ms_len) in
          let pad := random_answer (n_random (md s)) in
          let s := on_md (fun d => d <| n_random := S (n_random d) |>) s in
          match change_password_fields password new_password pwhash pad with
          | None => (None, ret, s)
          | Some (encr_password, encr_hash) =>
              let '(peer_challenge, s) := random_get_bytes 16 s in
              match peer_challenge, nt_password_hash new_password with
              | Some peer_challenge, Some password_hash =>
                  let auth_challenge := passwd_change_challenge (md s) in
                  let nt_response := generate_nt_response_pwhash auth_challenge peer_challenge username password_hash in
                  let auth_resp := generate_authenticator_response_pwhash password_hash peer_challenge
                                     auth_challenge username nt_response in
                  let m_key := get_master_key (hash_nt_password_hash password_hash) nt_response in
                  let s := on_md (fun d => d <| auth_response := auth_resp |> <| auth_response_valid := true |>
                                             <| master_key := m_key |> <| master_key_valid := true |>) s in
                  let cp := encr_password ++ encr_hash ++ peer_challenge ++ replicate 8 0 ++ nt_response ++ [0; 0] in
                  (Some (wpabuf_put resp cp), ret, s)
              | _, _ => (None, ret, s)
              end
          end
      end
  | _, _, _ => (None, ret, s)
  end.

(* eap_mschapv2.c eap_mschapv2_failure *)
Definition eap_mschapv2_failure (ret : eap_method_ret) (req : bytes) (id : Z) (s : mst)
  : option wpabuf * eap_method_ret * mst :=
  let msdata := drop 4 req in
  let '(retry, s) :=
    if malloc_ok (zlen msdata + 1) then eap_mschapv2_failure_txt (c_string msdata) s else (false, s) in
  let ret := EapMethodRet false METHOD_DONE DECISION_FAIL false in
  let reply :=
    match eap_msg_alloc EAP_VENDOR_IETF EAP_TYPE_MSCHAPV2 1 EAP_CODE_RESPONSE id with
    | None => (None, ret, s)
    | Some resp => (Some (wpabuf_put_u8 resp MSCHAPV2_OP_FAILURE), ret, s)
    end in
  if (prev_error (md s) =? ERROR_PASSWD_EXPIRED) && (passwd_change_version (md s) =? 3) then
    match mcfg s with
    | Some config =>
        if bool_decide (is_Some (new_password config)) then eap_mschapv2_change_password ret req id s
        else if negb (pending_req_new_password config =? 0) then (None, ret, s)
        else reply
    | None => reply
    end
  else if retry && (prev_error (md s) =? ERROR_AUTHENTICATION_FAILURE) then (None, ret, s)
  else reply.

(** Asks the user for what is missing. *)
(* eap_mschapv2.c eap_mschapv2_check_config *)
Definition eap_mschapv2_check_config (s : mst) : Z * mst :=
  match get_identity s with
  | None => (-1, eap_sm_request WPA_CTRL_REQ_EAP_IDENTITY s)
  | Some _ =>
      match get_password s with
      | None => (-1, eap_sm_request WPA_CTRL_REQ_EAP_PASSWORD s)
      | Some _ => (0, s)
      end
  end.

(* eap_mschapv2.c eap_mschapv2_check_mslen *)
Definition eap_mschapv2_check_mslen (len : Z) (ms : bytes) : Z :=
  let ms_len := get_be16 (drop 2 ms) in
  if ms_len =? len then 0 else if workaround then 0 else -1.

(* eap_mschapv2.c eap_mschapv2_copy_challenge *)
Definition eap_mschapv2_copy_challenge (reqData : wpabuf) : mst -> mst :=
  on_md (fun d => d <| prev_challenge := wpabuf_dup reqData |>).

(** The message a request is answered from: with a retry pending, the previous challenge. *)
(* eap_mschapv2.c eap_mschapv2_process @790-798 *)
Definition replace_request (reqData : wpabuf) (s : mst) : wpabuf * bool * mst :=
  match mcfg s, prev_challenge (md s) with
  | Some config, Some prev =>
      if mschapv2_retry config && (prev_error (md s) =? ERROR_AUTHENTICATION_FAILURE)
      then (prev, true, on_config (fun c => c <| mschapv2_retry := false |>) s)
      else (reqData, false, s)
  | _, _ => (reqData, false, s)
  end.

(* eap_mschapv2.c eap_mschapv2_process *)
Definition eap_mschapv2_process (ret : eap_method_ret) (reqData : wpabuf) (s : mst)
  : option wpabuf * eap_method_ret * mst :=
  let '(bad, s) := eap_mschapv2_check_config s in
  if negb (bad =? 0) then (None, ret <| ret_ignore := true |>, s) else
  let '(reqData, using_prev_challenge, s) := replace_request reqData s in
  match eap_hdr_validate EAP_VENDOR_IETF EAP_TYPE_MSCHAPV2 (Some reqData) with
  | None => (None, ret <| ret_ignore := true |>, s)
  | Some (pos, len) =>
      if len <? 4 + 1 then (None, ret <| ret_ignore := true |>, s) else
      let ms := take (Z.to_nat len) pos in
      if negb (eap_mschapv2_check_mslen len ms =? 0) then (None, ret <| ret_ignore := true |>, s) else
      let id := eap_get_id reqData in
      let op_code := byte_at ms 0 in
      if op_code =? MSCHAPV2_OP_CHALLENGE then
        eap_mschapv2_challenge ret ms id
          (if using_prev_challenge then s else eap_mschapv2_copy_challenge reqData s)
      else if op_code =? MSCHAPV2_OP_SUCCESS then eap_mschapv2_success ret ms id s
      else if op_code =? MSCHAPV2_OP_FAILURE then eap_mschapv2_failure ret ms id s
      else (None, ret <| ret_ignore := true |>, s)
  end.

(* eap_mschapv2.c eap_mschapv2_isKeyAvailable *)
Definition eap_mschapv2_isKeyAvailable (d : eap_mschapv2_data) : bool := success d && master_key_valid d.

(* eap_mschapv2.c eap_mschapv2_getKey *)
Definition eap_mschapv2_getKey (d : eap_mschapv2_data) : option bytes :=
  if negb (master_key_valid d) || negb (success d) then None else
  guard! malloc_ok (2 * 16);
  Some (get_asymetric_start_key (master_key d) 16 true false
        ++ get_asymetric_start_key (master_key d) 16 false false).

End EapMschapv2.

(** ** EAP-MD5 *)

Section EapMd5.
Context `{MethodEnv} `{MsCrypto} `{OsAlloc}.

(* chap.c chap_md5 *)
Definition chap_md5 (id : Z) (secret challenge : bytes) : bytes := md5_vector [[id]; secret; challenge].

(* eap_md5.c eap_md5_process *)
Definition eap_md5_process (use_machine_cred : bool) (config : option eap_peer_config)
    (ret : eap_method_ret) (reqData : wpabuf) : option wpabuf * eap_method_ret * list method_call :=
  match eap_get_config_password use_machine_cred config with
  | None =>
      (None, ret <| ret_ignore := true |>,
       match config with
       | Some _ => [CallUpdateConfig (fun c => c <| pending_req_password := pending_req_password c + 1 |>);
                    CallParamNeeded WPA_CTRL_REQ_EAP_PASSWORD]
       | None => []
       end)
  | Some password =>
      match eap_hdr_validate EAP_VENDOR_IETF EAP_TYPE_MD5 (Some reqData) with
      | None => (None, ret <| ret_ignore := true |>, [])
      | Some (pos, len) =>
          if len =? 0 then (None, ret <| ret_ignore := true |>, []) else
          let challenge_len := byte_at pos 0 in
          if (challenge_len =? 0) || (len - 1 <? challenge_len) then (None, ret <| ret_ignore := true |>, []) else
          let challenge := take (Z.to_nat challenge_len) (drop 1 pos) in
          let ret := EapMethodRet false METHOD_DONE DECISION_COND_SUCC true in
          match eap_msg_alloc EAP_VENDOR_IETF EAP_TYPE_MD5 (1 + 16) EAP_CODE_RESPONSE (eap_get_id reqData) with
          | None => (None, ret, [])
          | Some resp =>
              let resp := wpabuf_put_u8 resp 16 in
              (Some (wpabuf_put resp (chap_md5 (eap_get_id resp) password challenge)), ret, [])
          end
      end
  end.
End EapMd5.

(** ** The methods as the EAP peer sees them *)

Inductive method_priv := PrivMd5 | PrivMschapv2 (d : eap_mschapv2_data).

(* eap_md5.c eap_peer_md5_register *)
Definition eap_peer_md5_register : eap_method := EapMethod EAP_VENDOR_IETF EAP_TYPE_MD5 "MD5".
(* eap_mschapv2.c eap_peer_mschapv2_register *)
Definition eap_peer_mschapv2_register : eap_method := EapMethod EAP_VENDOR_IETF EAP_TYPE_MSCHAPV2 "MSCHAPV2".

(** The methods assign to no field of struct eap_sm. *)
Definition vars_of {priv} (sm : eap_sm priv) : method_vars :=
  MethodVars (ignore sm) (ClientTimeout sm) (leap_done sm) (peap_done sm) (expected_failure sm)
    (ext_cert_check sm) (waiting_ext_cert_check sm) (use_machine_cred sm).

Definition is_mschapv2 (e : eap_method) : bool := em_method e =? EAP_TYPE_MSCHAPV2.

#[export] Instance password_methods `{MethodEnv} `{MsCrypto} `{OsAlloc} : EapMethods method_priv := {
  eap_methods := [eap_peer_md5_register; eap_peer_mschapv2_register];
  em_init e sm _ :=
    (if is_mschapv2 e then let? d := eap_mschapv2_init in Some (PrivMschapv2 d) else Some PrivMd5, vars_of sm, []);
  em_init_for_reauth _ sm p := (p, vars_of sm);
  em_deinit_for_reauth _ _ p := p;
  em_process e sm config p ret req :=
    match p with
    | Some (PrivMschapv2 d) =>
        let '(resp, ret, s) :=
          eap_mschapv2_process (use_machine_cred sm) (workaround sm) ret req (Mst d config []) in
        (Some (PrivMschapv2 (md s)), vars_of sm, ret, resp, mcalls s)
    | _ =>
        let '(resp, ret, calls) := eap_md5_process (use_machine_cred sm) config ret req in
        (p, vars_of sm, ret, resp, calls)
    end;
  em_isKeyAvailable e :=
    if is_mschapv2 e then
      Some (fun _ p => match p with Some (PrivMschapv2 d) => eap_mschapv2_isKeyAvailable d | _ => false end)
    else None;
  em_getKey e :=
    if is_mschapv2 e then
      Some (fun _ p => match p with Some (PrivMschapv2 d) => eap_mschapv2_getKey d | _ => None end)
    else None;
  em_getSessionId _ := None;
  em_has_reauth_data _ := None;
  em_get_identity _ := None;
  em_get_error_code _ := None
}.
