(* ===== verification/EapPeerDemo.v ===== *)
(** * A concrete environment for the EAP peer

    A lower layer that stores its variables in a function, one IETF method that
    answers every request and one vendor method, an allocator that never fails
    and a stand-in digest.  The witnesses evaluate the machine in it. *)

From stdpp Require Import strings.
From S2P Require Import Prelude Wpabuf EapCommon EapPeer.

#[export] Instance demo_alloc : OsAlloc := fun _ => true.
#[export] Instance demo_sha1 : Sha1 := fun l => take 20 (l ++ replicate 20 0).

Record lower := Lower {
  low_bool : eapol_bool_var -> bool;
  low_idle : Z;
  low_req : option wpabuf;
  low_config : option eap_peer_config
}.

#[export] Instance demo_eapol : EapolCallbacks lower := {
  cb_get_config s := low_config s;
  cb_update_config f s := Lower (low_bool s) (low_idle s) (low_req s) (f <$> low_config s);
  cb_get_bool s v := low_bool s v;
  cb_set_bool v b s :=
    Lower (fun v' => if decide (v = v') then b else low_bool s v') (low_idle s) (low_req s) (low_config s);
  cb_get_int s _ := low_idle s;
  cb_set_int _ n s := Lower (low_bool s) n (low_req s) (low_config s);
  cb_get_eapReqData s := low_req s;
  cb_notify_status _ _ s := s;
  cb_notify_eap_error _ s := s;
  cb_eap_param_needed _ s := s
}.

#[export] Instance demo_eapol_laws : EapolCallbacksLaws lower.
Proof. constructor; intros; try destruct v; reflexivity. Qed.

(** EAP-MD5-like method: allocates its data and finishes with a conditional
    success on the first request. *)
Definition demo_md5 : eap_method := EapMethod EAP_VENDOR_IETF 4 "MD5".
Definition demo_wsc : eap_method := EapMethod EAP_VENDOR_WFA 1 "WSC".

Definition demo_vars (sm : eap_sm unit) : method_vars :=
  MethodVars (ignore sm) (ClientTimeout sm) (leap_done sm) (peap_done sm) (expected_failure sm)
    (ext_cert_check sm) (waiting_ext_cert_check sm) (use_machine_cred sm).

#[export] Instance demo_methods : EapMethods unit := {
  eap_methods := [demo_md5; demo_wsc];
  em_init _ sm _ := (Some tt, demo_vars sm, []);
  em_init_for_reauth _ sm p := (p, demo_vars sm);
  em_deinit_for_reauth _ _ p := p;
  em_process _ sm _ p ret req :=
    (p, demo_vars sm, EapMethodRet false METHOD_DONE DECISION_COND_SUCC true,
     eap_msg_alloc EAP_VENDOR_IETF 4 0 EAP_CODE_RESPONSE (reqId sm), []);
  em_isKeyAvailable _ := None;
  em_getKey _ := None;
  em_getSessionId _ := None;
  em_has_reauth_data _ := None;
  em_get_identity _ := None;
  em_get_error_code _ := None
}.

Definition demo_config : eap_peer_config :=
  EapPeerConfig 1 (Some [117; 115; 101; 114]) None None None None false 0 false false
    CfgNull None None 0 None false 0 0.

(** Only the listed variables are true. *)
Definition vars (l : list eapol_bool_var) (v : eapol_bool_var) : bool := bool_decide (v ∈ l).

Definition demo_lower (l : list eapol_bool_var) (req : bytes) : lower :=
  Lower (vars l) 60 (Some (Wpabuf (zlen req) req false)) (Some demo_config).

(** A machine in IDLE that has answered request 7. *)
Definition demo_idle : eap_sm unit :=
  match eap_peer_sm_init true with
  | Some sm => sm <| EAP_state := EAP_IDLE |> <| lastId := 7 |>
                  <| lastRespData := Some (Wpabuf 5 [2; 7; 0; 5; 1] false) |>
  | None => EapSm EAP_IDLE 0 METHOD_NONE 0 None DECISION_FAIL false false false
            0 0 0 0 false 0 false None false None None None false None false false 0 false false
            false [] [] false 0 0 false false None false false false false
  end.
