(* ===== verification/EapMschapv2Props.v ===== *)
(** * What EAP-MSCHAPv2 guarantees

    The method on its own: what it believes is derived from the configured
    credentials and from challenges it drew ([data_ok]).  In the EAP peer: keys come
    only from a server that proved to know the password.  And a reference server
    that follows RFC 2759 accepts the response and is accepted. *)

From stdpp Require Import strings.
From S2P Require Import Prelude UtilsCommon Wpabuf EapCommon EapPeer HashMd MsFuncs EapMschapv2 EapPeerDemo.

(** Only the contents of a message count. *)
Lemma eap_hdr_validate_buf v t a b : wb_buf b = wb_buf a -> eap_hdr_validate v t (Some a) = eap_hdr_validate v t (Some b).
Proof. intros E. unfold eap_hdr_validate, eap_hdr_len_valid, wpabuf_head, wpabuf_len. now rewrite E. Qed.

Lemma wpabuf_dup_buf `{OsAlloc} a b : wpabuf_dup a = Some b -> wb_buf b = wb_buf a.
Proof.
  unfold wpabuf_dup. destruct (wpabuf_alloc _) as [x|] eqn:E; [|done]. intros [= <-].
  apply wpabuf_alloc_Some in E as ->. unfold wpabuf_put_data. now rewrite wpabuf_put_buf.
Qed.

Section Method.
Context `{ME : MethodEnv} `{ML : !MethodEnvLaws} `{MC : MsCrypto} `{CL : !MsCryptoLaws} `{OA : OsAlloc}.

(** The requests the peer has been given, each with the configuration of that moment. *)
Context (seen : bool -> option eap_peer_config -> wpabuf -> Prop).

(** [h] is the hash of the configured or of the new password. *)
Definition config_hash (umc : bool) (cfg : option eap_peer_config) (h : bytes) : Prop :=
  (exists p hashed, eap_get_config_password2 umc cfg = Some (p, hashed)
     /\ if hashed then h = p else nt_password_hash p = Some h)
  \/ (exists np, eap_get_config_new_password cfg = Some np /\ nt_password_hash np = Some h).

(** [a] is the authenticator response and [mk] the master key of an exchange for which
    the peer drew the challenge, with the credentials of a configuration it had. *)
Definition expects (a mk : bytes) : Prop :=
  exists umc cfg req id h k peer chal nt,
    seen umc cfg req /\ eap_get_config_identity umc cfg = Some id /\ config_hash umc cfg h
    /\ random_answer k 16 = Some peer
    /\ a = generate_authenticator_response_pwhash h peer chal (mschapv2_remove_domain id) nt
    /\ mk = get_master_key (hash_nt_password_hash h) nt.

(** A Success request carried the authenticator response the peer expected. *)
Definition server_proved : Prop :=
  exists a mk umc cfg req pos len,
    expects a mk /\ seen umc cfg req
    /\ eap_hdr_validate EAP_VENDOR_IETF EAP_TYPE_MSCHAPV2 (Some req) = Some (pos, len)
    /\ let msg := take (Z.to_nat len) pos in
       byte_at msg 0 = MSCHAPV2_OP_SUCCESS
       /\ take 2 (drop 4 msg) = [83; 61] /\ hexstr2bin 20 (drop 6 msg) = Some a.

Record data_ok (d : eap_mschapv2_data) : Prop := {
  do_auth : auth_response_valid d = true -> expects (auth_response d) (master_key d);
  do_master : master_key_valid d = true -> exists a, expects a (master_key d);
  do_success : success d = true -> server_proved;
  do_prev b : prev_challenge d = Some b -> exists umc cfg req, seen umc cfg req /\ wb_buf b = wb_buf req
}.

(** The data is in order and the credentials are still those of [cfg]. *)
Record st_ok (umc : bool) (cfg : option eap_peer_config) (s : mst) : Prop := {
  so_data : data_ok (md s);
  so_identity : eap_get_config_identity umc (mcfg s) = eap_get_config_identity umc cfg;
  so_password : eap_get_config_password2 umc (mcfg s) = eap_get_config_password2 umc cfg;
  so_new : eap_get_config_new_password (mcfg s) = eap_get_config_new_password cfg
}.

Section Run.
Context (umc wa : bool) (cfg : option eap_peer_config) (req0 : wpabuf) (Hseen : seen umc cfg req0).
Context (Hbytes : forall u c r, seen u c r -> bytes_ok (wb_buf r)).
Abbreviation st_ok := (st_ok umc cfg).

(** Assignments that touch nothing of what [data_ok] speaks of. *)
Lemma st_ok_md f s : st_ok s ->
  (forall d, auth_response_valid (f d) = auth_response_valid d /\ auth_response (f d) = auth_response d
     /\ master_key (f d) = master_key d /\ master_key_valid (f d) = master_key_valid d
     /\ success (f d) = success d /\ prev_challenge (f d) = prev_challenge d) ->
  st_ok (on_md f s).
Proof.
  intros [[] ? ? ?] Hf. destruct (Hf (md s)) as (E1 & E2 & E3 & E4 & E5 & E6).
  split; cbn; try done. split; rewrite ?E1, ?E2, ?E3, ?E4, ?E5, ?E6; done.
Qed.

Lemma st_ok_config f s : st_ok s ->
  (forall c, identity (f c) = identity c /\ machine_identity (f c) = machine_identity c
     /\ password (f c) = password c /\ machine_password (f c) = machine_password c
     /\ new_password (f c) = new_password c /\ cfg_flags (f c) = cfg_flags c) ->
  st_ok (on_config f s).
Proof.
  intros [Hd Hi Hp Hn] Hf. split; cbn; [exact Hd | rewrite <- Hi | rewrite <- Hp | rewrite <- Hn];
    destruct (mcfg s) as [c|]; try done; destruct (Hf c) as (E1 & E2 & E3 & E4 & E5 & E6);
    unfold eap_get_config_identity, eap_get_config_password2, eap_get_ext_password, eap_get_config_new_password, flag;
    rewrite ?E1, ?E2, ?E3, ?E4, ?E5, ?E6; done.
Qed.

Lemma st_ok_request f s : st_ok s -> st_ok (eap_sm_request f s).
Proof.
  intros H. unfold eap_sm_request. destruct (mcfg s) eqn:E; [|exact H].
  assert (forall g, st_ok (on_config g s) -> st_ok (eap_param_needed f (on_config g s))) as Hp
    by (intros g []; now split).
  apply Hp, st_ok_config; [exact H|]. intros c. now destruct f.
Qed.

(** Follows the body of a function of the method. *)
Ltac st_go :=
  repeat first
    [ assumption
    | match goal with
      | |- st_ok (on_md _ _) => apply st_ok_md; [| intros ?; now repeat split]
      | |- st_ok (on_config _ _) => apply st_ok_config; [| intros ?; now repeat split]
      | |- st_ok (eap_sm_request _ _) => apply st_ok_request
      | |- st_ok (match ?x with _ => _ end) => destruct x
      end ].

Lemma check_config_ok s : st_ok s -> st_ok (eap_mschapv2_check_config umc s).2.
Proof. intros H. unfold eap_mschapv2_check_config. repeat case_match; cbn [snd]; st_go. Qed.

Lemma replace_request_ok r s : st_ok s -> seen umc cfg r ->
  st_ok (replace_request r s).2 /\ (exists u c r', seen u c r' /\ wb_buf (replace_request r s).1.1 = wb_buf r').
Proof.
  intros H Hr. unfold replace_request.
  destruct (mcfg s) as [c|]; [|split; [exact H | now exists umc, cfg, r]].
  destruct (prev_challenge (md s)) as [prev|] eqn:Ep; [|split; [exact H | now exists umc, cfg, r]].
  destruct (mschapv2_retry c && _); [|split; [exact H | now exists umc, cfg, r]].
  split; [cbn [snd]; st_go | exact (do_prev _ (so_data _ _ _ H) prev Ep)].
Qed.

Lemma st_ok_random n s : st_ok s -> st_ok (random_get_bytes n s).2.
Proof. intros H. unfold random_get_bytes. cbn [snd]. st_go. Qed.

(** A derivation makes the data expect what it computed. *)
Lemma st_ok_derived s a mk : st_ok s -> expects a mk ->
  st_ok (on_md (fun d => d <| auth_response := a |> <| master_key := mk |>
                           <| auth_response_valid := true |> <| master_key_valid := true |>) s).
Proof. intros [[] ? ? ?] He. split; cbn; try done. split; cbn; try done. intros _. now exists a. Qed.

Lemma derive_expects id p hashed chal k peer nt a mk :
  eap_get_config_identity umc cfg = Some id -> eap_get_config_password2 umc cfg = Some (p, hashed) ->
  random_answer k 16 = Some peer ->
  mschapv2_derive_response id p hashed chal peer = Some (nt, a, mk) -> expects a mk.
Proof.
  intros Hi Hp Hr. unfold mschapv2_derive_response, generate_nt_response, generate_authenticator_response.
  destruct hashed.
  - intros [= <- <- <-]. exists umc, cfg, req0, id, p, k, peer, chal, (generate_nt_response_pwhash chal peer (mschapv2_remove_domain id) p).
    repeat split; try done. left. now exists p, true.
  - destruct (nt_password_hash p) as [h|] eqn:Eh; [|done]. intros [= <- <- <-].
    exists umc, cfg, req0, id, h, k, peer, chal, (challenge_response (challenge_hash peer chal (mschapv2_remove_domain id)) h).
    repeat split; try done. left. now exists p, false.
Qed.

Lemma challenge_reply_ok id ms chal s : st_ok s -> st_ok (eap_mschapv2_challenge_reply umc id ms chal s).2.
Proof.
  intros H. unfold eap_mschapv2_challenge_reply, get_identity, get_password2. cbv zeta.
  destruct (eap_get_config_identity umc (mcfg s)) as [ident|] eqn:Ei; [|exact H].
  destruct (eap_get_config_password2 umc (mcfg s)) as [[p hashed]|] eqn:Ep; [|exact H].
  destruct (eap_msg_alloc _ _ _ _ _); [|exact H].
  unfold random_get_bytes. destruct (random_answer _ 16) as [peer|] eqn:Er; [|cbn [snd]; st_go].
  destruct (mschapv2_derive_response _ _ _ _ _) as [[[nt a] mk]|] eqn:Ed; cbn [snd]; [|st_go].
  apply st_ok_derived; [st_go|]. rewrite (so_identity _ _ _ H) in Ei. rewrite (so_password _ _ _ H) in Ep.
  exact (derive_expects _ _ _ _ _ _ _ _ _ Ei Ep Er Ed).
Qed.

Lemma challenge_ok ret ms id s : st_ok s -> st_ok (eap_mschapv2_challenge umc ret ms id s).2.
Proof.
  intros H. unfold eap_mschapv2_challenge. cbv zeta. repeat (case_match; cbn [snd]; try assumption).
  all: match goal with E : eap_mschapv2_challenge_reply _ ?i ?m ?c _ = (_, ?s') |- _ =>
    pose proof (challenge_reply_ok i m c s H) as Hr; rewrite E in Hr; exact Hr end.
Qed.

Lemma failure_fields_ok txt s : st_ok s -> st_ok (failure_fields txt s).2.
Proof.
  intros H. unfold failure_fields. cbv zeta.
  destruct (match has_tag 69 (Some txt) with Some l => _ | None => _ end) as [pos1 s1] eqn:E1.
  assert (st_ok s1) as H1 by (destruct (has_tag 69 _); injection E1 as _ <-; st_go). clear E1.
  destruct (match has_tag 82 pos1 with Some l => _ | None => _ end) as [pos2 retry].
  destruct (match has_tag 67 pos2 with Some l => _ | None => _ end) as [pos3 s3] eqn:E3.
  assert (st_ok s3) as H3.
  { destruct (has_tag 67 pos2); injection E3 as _ <-; [|exact H1]. case_bool_decide; [|exact H1].
    destruct (hexstr2bin 16 l); st_go. }
  cbn [snd]. destruct (has_tag 86 pos3); st_go.
Qed.

Lemma failure_txt_ok txt s : st_ok s -> st_ok (eap_mschapv2_failure_txt txt s).2.
Proof.
  intros H. unfold eap_mschapv2_failure_txt. pose proof (failure_fields_ok txt s H) as Hf.
  destruct (failure_fields txt s) as [retry s1]. cbn [snd] in Hf. cbv zeta.
  destruct (mcfg s1) as [config|]; [|exact Hf]. cbn [snd].
  repeat case_match; st_go.
Qed.

Lemma change_password_ok ret ms id s : st_ok s -> data_ok (md (eap_mschapv2_change_password umc ret ms id s).2).
Proof.
  intros H. apply (so_data umc cfg). unfold eap_mschapv2_change_password, get_identity, get_password2. cbv zeta.
  destruct (eap_get_config_identity umc (mcfg s)) as [ident|] eqn:Ei; [|exact H].
  destruct (eap_get_config_password2 umc (mcfg s)) as [[p hashed]|] eqn:Ep; [|exact H].
  destruct (eap_get_config_new_password (mcfg s)) as [np|] eqn:En; [|exact H].
  destruct (eap_msg_alloc _ _ _ _ _); [|exact H].
  destruct (change_password_fields _ _ _ _) as [[ep eh]|]; [|cbn [snd]; st_go].
  unfold random_get_bytes. destruct (random_answer _ 16) as [peer|] eqn:Er; [|cbn [snd]; st_go].
  destruct (nt_password_hash np) as [h|] eqn:Eh; cbn [snd]; [|st_go].
  apply st_ok_derived; [st_go|].
  rewrite (so_identity _ _ _ H) in Ei. rewrite (so_new _ _ _ H) in En.
  eexists umc, cfg, req0, ident, h, _, peer, _, _. repeat split; try done; try exact Er. right. now exists np.
Qed.

Lemma failure_ok ret ms id s : st_ok s -> data_ok (md (eap_mschapv2_failure umc ret ms id s).2).
Proof.
  intros H. unfold eap_mschapv2_failure. cbv zeta.
  destruct (if malloc_ok _ then _ else _) as [retry s1] eqn:E.
  assert (st_ok s1) as H1.
  { destruct (malloc_ok _); [|now injection E as _ <-].
    pose proof (failure_txt_ok (c_string (drop 4 ms)) s H) as Hf. now rewrite E in Hf. }
  repeat (case_match; cbn [snd]); try apply change_password_ok; try apply (so_data _ _ _ H1); assumption.
Qed.

Lemma password_changed_data s : data_ok (md s) -> data_ok (md (eap_mschapv2_password_changed s)).
Proof.
  intros []. unfold eap_mschapv2_password_changed.
  destruct (mcfg s) as [c|]; [|done]. destruct (new_password c); [|done]. cbn. now split.
Qed.

(** What the comparison of mschapv2_verify_auth_response() means. *)
Lemma verify_auth_response a buf : length a = 20%nat -> bytes_ok a -> bytes_ok buf ->
  mschapv2_verify_auth_response a buf = 0 -> take 2 buf = [83; 61] /\ hexstr2bin 20 (drop 2 buf) = Some a.
Proof.
  intros La Ba Bb. unfold mschapv2_verify_auth_response.
  destruct (Z.ltb_spec (zlen buf) (2 + 2 * 20)); [done|].
  destruct (Z.eqb_spec (byte_at buf 0) 83) as [E0|]; cbn [negb orb]; [|done].
  destruct (Z.eqb_spec (byte_at buf 1) 61) as [E1|]; cbn [negb]; [|done].
  destruct (hexstr2bin 20 (drop 2 buf)) as [r|] eqn:Er; [|done].
  destruct (hexstr2bin_ok _ _ _ (bytes_ok_drop 2 buf Bb) Er) as [Lr Br].
  destruct (Z.eqb_spec (os_memcmp_const a r) 0) as [E|]; cbn [negb]; [|done].
  apply os_memcmp_const_zero in E as ->; [|lia|done|done]. intros _. split; [|done].
  destruct buf as [|x [|y buf]]; cbn in *; try (unfold zlen in *; cbn in *; lia). now subst.
Qed.

Lemma expects_digest a mk : expects a mk -> length a = 20%nat /\ bytes_ok a.
Proof. intros (? & ? & ? & ? & ? & ? & ? & ? & ? & ? & ? & ? & ? & -> & ?). apply sha1_digest. Qed.

Lemma success_ok ret id s u c r pos len :
  st_ok s -> seen u c r -> eap_hdr_validate EAP_VENDOR_IETF EAP_TYPE_MSCHAPV2 (Some r) = Some (pos, len) ->
  byte_at (take (Z.to_nat len) pos) 0 = MSCHAPV2_OP_SUCCESS ->
  data_ok (md (eap_mschapv2_success ret (take (Z.to_nat len) pos) id s).2).
Proof.
  intros H Hs Hv Hop. pose proof (so_data _ _ _ H) as Hd. unfold eap_mschapv2_success. cbv zeta.
  destruct (auth_response_valid (md s)) eqn:Ev; cbn [negb orb]; [|exact Hd].
  destruct (Z.eqb_spec (mschapv2_verify_auth_response (auth_response (md s)) (drop 4 (take (Z.to_nat len) pos))) 0)
    as [E|]; cbn [negb]; [|exact Hd].
  destruct (eap_msg_alloc _ _ _ _ _); [|exact Hd].
  pose proof (do_auth _ Hd Ev) as He. destruct (expects_digest _ _ He) as [La Ba].
  destruct (eap_hdr_validate_bounds _ _ _ _ _ Hv) as (_ & k & Ek & _).
  assert (bytes_ok (take (Z.to_nat len) pos)) as Bp by (rewrite Ek; eauto with wpa).
  destruct (verify_auth_response _ _ La Ba (bytes_ok_drop 4 _ Bp) E) as [E2 Eh].
  assert (data_ok (md s <| success := true |>)) as Hs'.
  { destruct Hd. split; cbn; try done. intros _.
    exists (auth_response (md s)), (master_key (md s)), u, c, r, pos, len.
    rewrite drop_drop in Eh. repeat split; done. }
  cbn [snd]. case_match; [apply password_changed_data|]; exact Hs'.
Qed.

(** A call of the method keeps its data in order. *)
Lemma process_ok ret d : data_ok d -> data_ok (md (eap_mschapv2_process umc wa ret req0 (Mst d cfg [])).2).
Proof.
  intros Hd. assert (st_ok (Mst d cfg [])) as H0 by (now split). unfold eap_mschapv2_process.
  pose proof (check_config_ok _ H0) as H1. destruct (eap_mschapv2_check_config umc _) as [bad s1]. cbn [snd] in H1.
  destruct (negb (bad =? 0)); [apply H1|].
  destruct (replace_request_ok req0 s1 H1 Hseen) as (H2 & u & c & r & Hr & Er).
  destruct (replace_request req0 s1) as [[req again] s2]. cbn [snd fst] in *.
  destruct (eap_hdr_validate _ _ (Some req)) as [[pos len]|] eqn:Ev; [|apply H2].
  destruct (len <? 4 + 1); [apply H2|]. cbv zeta.
  destruct (negb (eap_mschapv2_check_mslen _ _ _ =? 0)); [apply H2|].
  destruct (Z.eqb_spec (byte_at (take (Z.to_nat len) pos) 0) MSCHAPV2_OP_CHALLENGE) as [|_].
  - apply (so_data umc cfg), challenge_ok. destruct again; [exact H2|].
    destruct H2 as [[] ? ? ?]. split; cbn; try done. split; cbn; try done.
    intros b Hb. apply wpabuf_dup_buf in Hb. exists u, c, r. split; [done | congruence].
  - destruct (Z.eqb_spec (byte_at (take (Z.to_nat len) pos) 0) MSCHAPV2_OP_SUCCESS) as [Eo|_].
    + apply (success_ok ret _ s2 u c r pos len H2 Hr); [|exact Eo]. rewrite <- Ev. now apply eap_hdr_validate_buf.
    + destruct (_ =? MSCHAPV2_OP_FAILURE); [now apply failure_ok | apply H2].
Qed.
End Run.
End Method.

(** ** In the EAP peer *)

(** The MSK of RFC 3079 for a master key, as the peer orders it. *)
Definition msk `{MsCrypto} (mk : bytes) : bytes :=
  get_asymetric_start_key mk 16 true false ++ get_asymetric_start_key mk 16 false false.

Section Peer.
Context `{ME : MethodEnv} `{ML : !MethodEnvLaws} `{MC : MsCrypto} `{CL : !MsCryptoLaws} `{OA : OsAlloc}.
Context {S : Type} `{CB : EapolCallbacks S} `{SH : Sha1}.
Context (seen : bool -> option eap_peer_config -> wpabuf -> Prop).
Context (Hbytes : forall u c r, seen u c r -> bytes_ok (wb_buf r)).
Abbreviation world := (world method_priv S).
Abbreviation eap_sm := (eap_sm method_priv).

(** What the method and the keys of the machine are based on. *)
Record keys_ok (sm : eap_sm) : Prop := {
  ko_priv d : eap_method_priv sm = Some (PrivMschapv2 d) -> data_ok seen d;
  ko_key key : eapKeyData sm = Some key -> server_proved seen /\ exists a mk, expects seen a mk /\ key = msk mk;
  ko_available : eapKeyAvailable sm = true -> server_proved seen
}.

(** Assignments to other fields. *)
Definition key_neutral (f : eap_sm -> eap_sm) : Prop := forall sm,
  (eap_method_priv (f sm) = eap_method_priv sm \/ eap_method_priv (f sm) = None)
  /\ (eapKeyData (f sm) = eapKeyData sm \/ eapKeyData (f sm) = None)
  /\ (eapKeyAvailable (f sm) = eapKeyAvailable sm \/ eapKeyAvailable (f sm) = false).

Lemma keys_ok_neutral f sm : key_neutral f -> keys_ok sm -> keys_ok (f sm).
Proof.
  intros Hf []. destruct (Hf sm) as ([E1 | E1] & [E2 | E2] & [E3 | E3]);
    split; rewrite ?E1, ?E2, ?E3; done.
Qed.

Lemma keys_ok_let (v : world) (b : world -> world) :
  keys_ok (esm v) -> (forall x, keys_ok (esm x) -> keys_ok (esm (b x))) -> keys_ok (esm (b v)).
Proof. auto. Qed.

Lemma keys_ok_calls l (w : world) : keys_ok (esm w) -> keys_ok (esm (do_method_calls l w)).
Proof. revert w. induction l as [|c l IH]; intros w Hw; [exact Hw|]. apply IH. now destruct c. Qed.

Lemma keys_ok_on_sm f (w : world) : key_neutral f -> keys_ok (esm w) -> keys_ok (esm (on_sm f w)).
Proof. apply keys_ok_neutral. Qed.

(** Follows the body of a state function. *)
Ltac neutral_fields :=
  intros ?; unfold sm_entry, eap_deinit_prev_method, eap_sm_free_key, store_method_vars;
  repeat case_match; cbn; auto.
Ltac keys_go :=
  lazymatch goal with
  | |- keys_ok (esm (let x := ?v in @?b x)) =>
      lazymatch type of v with
      | EapPeer.world _ _ => apply (keys_ok_let v b); [keys_go | cbv beta; intros ? ?; keys_go]
      | _ => let t := eval cbv beta in (b v) in change (keys_ok (esm t)); keys_go
      end
  | |- keys_ok (esm (match ?x with _ => _ end)) => destruct x; keys_go
  | |- keys_ok (esm (on_sm _ _)) => tryif (apply keys_ok_on_sm; [solve [neutral_fields] |]) then keys_go else idtac
  | |- keys_ok (esm (eapol_set_int ?v ?n ?w)) => change (keys_ok (esm w)); keys_go
  | |- keys_ok (esm (eapol_set_bool ?v ?b ?w)) => change (keys_ok (esm w)); keys_go
  | |- keys_ok (esm (eap_notify_status ?a ?b ?w)) => change (keys_ok (esm w)); keys_go
  | |- keys_ok (esm (eap_report_error ?e ?w)) => change (keys_ok (esm w)); keys_go
  | |- keys_ok (esm (on_eapol ?f ?w)) => change (keys_ok (esm w)); keys_go
  | |- keys_ok (esm (do_method_calls _ _)) => apply keys_ok_calls; keys_go
  | |- _ => try assumption
  end.

Lemma keys_parse r (w : world) : keys_ok (esm w) -> keys_ok (esm (eap_sm_parseEapReq r w)).
Proof. intros Hw. unfold eap_sm_parseEapReq, eap_peer_initiate. keys_go. Qed.

Lemma keys_initialize g (w : world) : keys_ok (esm w) -> keys_ok (esm (EAP_INITIALIZE_Enter g w)).
Proof.
  intros Hw. unfold EAP_INITIALIZE_Enter. keys_go.
Qed.

Lemma keys_received g (w : world) : keys_ok (esm w) -> keys_ok (esm (EAP_RECEIVED_Enter g w)).
Proof.
  intros Hw. unfold EAP_RECEIVED_Enter. keys_go. apply keys_parse. keys_go.
Qed.

Lemma keys_disabled g (w : world) : keys_ok (esm w) -> keys_ok (esm (EAP_DISABLED_Enter g w)).
Proof. intros Hw. unfold EAP_DISABLED_Enter. keys_go. Qed.
Lemma keys_idle g (w : world) : keys_ok (esm w) -> keys_ok (esm (EAP_IDLE_Enter g w)).
Proof. intros Hw. unfold EAP_IDLE_Enter. keys_go. Qed.
Lemma keys_send_response g (w : world) : keys_ok (esm w) -> keys_ok (esm (EAP_SEND_RESPONSE_Enter g w)).
Proof. intros Hw. unfold EAP_SEND_RESPONSE_Enter. keys_go. Qed.
Lemma keys_discard g (w : world) : keys_ok (esm w) -> keys_ok (esm (EAP_DISCARD_Enter g w)).
Proof. intros Hw. unfold EAP_DISCARD_Enter. keys_go. Qed.
Lemma keys_notification g (w : world) : keys_ok (esm w) -> keys_ok (esm (EAP_NOTIFICATION_Enter g w)).
Proof. intros Hw. unfold EAP_NOTIFICATION_Enter. keys_go. Qed.
Lemma keys_retransmit g (w : world) : keys_ok (esm w) -> keys_ok (esm (EAP_RETRANSMIT_Enter g w)).
Proof. intros Hw. unfold EAP_RETRANSMIT_Enter. keys_go. Qed.
Lemma keys_failure g (w : world) : keys_ok (esm w) -> keys_ok (esm (EAP_FAILURE_Enter g w)).
Proof. intros Hw. unfold EAP_FAILURE_Enter. keys_go. Qed.

Lemma keys_ok_announce (sm : eap_sm) : keys_ok sm ->
  keys_ok (if bool_decide (eapKeyData sm <> None) then sm <| eapKeyAvailable := true |> else sm).
Proof.
  intros Hk. case_bool_decide as Hn; [|exact Hk]. destruct Hk as [Hp Hk Ha]. split; cbn; try done. intros _.
  destruct (eapKeyData sm) as [key|]; [|done]. now apply (Hk key).
Qed.

Lemma keys_success g (w : world) : keys_ok (esm w) -> keys_ok (esm (EAP_SUCCESS_Enter g w)).
Proof. intros Hw. unfold EAP_SUCCESS_Enter. keys_go. apply (keys_ok_announce (esm (on_sm _ w))). keys_go. Qed.

Lemma keys_build_identity id enc (w : world) : keys_ok (esm w) -> keys_ok (esm (eap_sm_buildIdentity id enc w).2).
Proof.
  intros Hw. unfold eap_sm_buildIdentity, eap_sm_request_identity. cbv zeta.
  repeat (case_match; cbn [snd]); keys_go.
Qed.

Lemma keys_identity g (w : world) : keys_ok (esm w) -> keys_ok (esm (EAP_IDENTITY_Enter g w)).
Proof.
  intros Hw. unfold EAP_IDENTITY_Enter, eap_sm_processIdentity. cbv zeta.
  destruct (negb _); [keys_go|].
  match goal with |- context [eap_sm_buildIdentity ?i ?e ?x] =>
    pose proof (keys_build_identity i e x ltac:(keys_go)) as E;
    destruct (eap_sm_buildIdentity i e x) as [resp x'] end.
  cbn [snd] in E. keys_go.
Qed.

Lemma init_data_ok d : eap_mschapv2_init = Some d -> data_ok seen d.
Proof. unfold eap_mschapv2_init. destruct (malloc_ok 112); [|done]. intros [= <-]. now split. Qed.

(** Storing the results of a method. *)
Lemma keys_ok_store v p sm : keys_ok sm -> (forall d, p = Some (PrivMschapv2 d) -> data_ok seen d) ->
  keys_ok (store_method_vars v sm <| eap_method_priv := p |>).
Proof. intros [] Hd. split; cbn; done. Qed.

Lemma em_init_data e sm cfg p v calls : em_init e sm cfg = (p, v, calls) ->
  forall d, p = Some (PrivMschapv2 d) -> data_ok seen d.
Proof.
  cbn [em_init password_methods]. intros [= <- <- <-] d. destruct (is_mschapv2 e); [|done].
  destruct eap_mschapv2_init as [d'|] eqn:E; [|done]. intros [= <-]. now apply init_data_ok.
Qed.

(** Initialising the selected method. *)
Lemma keys_init e (reinit : bool) (w : world) : keys_ok (esm w) ->
  keys_ok (esm (if reinit then
                  let '(p, v) := em_init_for_reauth e (esm w) (eap_method_priv (esm w)) in
                  w ▸ on_sm (fun sm => store_method_vars v sm <| eap_method_priv := p |>)
                else
                  let w := w ▸ on_sm (fun sm => sm <| waiting_ext_cert_check := false |> <| ext_cert_check := false |>) in
                  let '(p, v, calls) := em_init e (esm w) (eap_get_config w) in
                  w ▸ do_method_calls calls
                    ▸ on_sm (fun sm => store_method_vars v sm <| eap_method_priv := p |>))).
Proof.
  intros Hw. destruct reinit.
  - apply keys_ok_store; [exact Hw | exact (ko_priv _ Hw)].
  - cbv zeta. match goal with |- context [em_init _ (esm ?x) _] => set (w1 := x) end.
    assert (keys_ok (esm w1)) as H1 by (unfold w1; keys_go). clearbody w1.
    destruct (em_init e (esm w1) _) as [[p v] calls] eqn:E.
    apply (keys_ok_store v p (esm (do_method_calls calls w1))); [now apply keys_ok_calls | exact (em_init_data _ _ _ _ _ _ E)].
Qed.

Lemma keys_get_method g (w : world) : keys_ok (esm w) -> keys_ok (esm (EAP_GET_METHOD_Enter g w)).
Proof.
  intros Hw. unfold EAP_GET_METHOD_Enter, get_method_nak. cbv zeta.
  set (w0 := on_sm (sm_entry g EAP_GET_METHOD) w).
  assert (keys_ok (esm w0)) as H0 by (unfold w0; keys_go). clearbody w0.
  destruct (negb (eap_sm_allowMethod _ _ _)); [keys_go|].
  match goal with |- context [if ?b then eap_notify_status _ _ _ else _] => generalize b as reinit; intros reinit end.
  match goal with |- context [match m (esm ?x) with _ => _ end] => set (w1 := x) end.
  assert (keys_ok (esm w1)) as H1 by (unfold w1; keys_go). clearbody w1.
  destruct (m (esm w1)) as [e|]; [|keys_go].
  match goal with |- context [em_init_for_reauth e (esm ?x) _] => set (w2 := x) end.
  assert (keys_ok (esm w2)) as H2 by (unfold w2; keys_go). clearbody w2.
  pose proof (keys_init e reinit w2 H2) as H3. cbv zeta in H3.
  match type of H3 with keys_ok (esm ?x) => set (w3 := x) in *; clearbody w3 end. keys_go.
Qed.

Lemma em_process_data e sm cfg p ret req p' v ret' resp calls :
  seen (use_machine_cred sm) cfg req -> (forall d, p = Some (PrivMschapv2 d) -> data_ok seen d) ->
  em_process e sm cfg p ret req = (p', v, ret', resp, calls) ->
  forall d, p' = Some (PrivMschapv2 d) -> data_ok seen d.
Proof.
  intros Hs Hp. cbn [em_process password_methods]. destruct p as [[|d]|].
  - destruct (eap_md5_process _ _ _ _) as [[? ?] ?]. intros [= <- <- <- <- <-]. done.
  - pose proof (process_ok seen (use_machine_cred sm) (workaround sm) cfg req Hs Hbytes ret d (Hp d eq_refl)) as Hd.
    destruct (eap_mschapv2_process _ _ _ _ _) as [[? ?] s]. intros [= <- <- <- <- <-] d' [= <-]. exact Hd.
  - destruct (eap_md5_process _ _ _ _) as [[? ?] ?]. intros [= <- <- <- <- <-]. done.
Qed.

(** The keys the methods report. *)
Lemma method_key d key : data_ok seen d -> eap_mschapv2_isKeyAvailable d = true -> eap_mschapv2_getKey d = Some key ->
  server_proved seen /\ exists a mk, expects seen a mk /\ key = msk mk.
Proof.
  intros Hd Ha. unfold eap_mschapv2_isKeyAvailable in Ha. apply andb_true_iff in Ha as [Hs Hm].
  unfold eap_mschapv2_getKey. rewrite Hs, Hm. cbn [negb orb]. destruct (malloc_ok _); [|done]. intros [= <-].
  split; [exact (do_success _ _ Hd Hs)|]. destruct (do_master _ _ Hd Hm) as [a He]. now exists a, (master_key d).
Qed.

Lemma keys_ok_processed v p resp i sm : keys_ok sm -> (forall d, p = Some (PrivMschapv2 d) -> data_ok seen d) ->
  keys_ok (store_method_vars v sm <| eap_method_priv := p |> <| eapRespData := resp |> <| ignore := i |>).
Proof. intros [] Hd. split; cbn; done. Qed.

Lemma keys_ok_outcome ms dec an sm : keys_ok sm ->
  keys_ok (sm <| methodState := ms |> <| decision := dec |> <| allowNotifications := an |>).
Proof. intros []. split; cbn; done. Qed.

Lemma keys_ok_new k (sm : eap_sm) : keys_ok sm ->
  (forall key, k = Some key -> server_proved seen /\ exists a mk, expects seen a mk /\ key = msk mk) ->
  keys_ok (eap_sm_free_key sm <| eapKeyData := k |> <| eapSessionId := None |>).
Proof. intros [] Hk. split; cbn; done. Qed.

Lemma use_machine_cred_entry g st (sm : eap_sm) : use_machine_cred (sm_entry g st sm) = use_machine_cred sm.
Proof. unfold sm_entry. now destruct (negb g || _). Qed.

(** The key a method reports after it processed a packet. *)
Lemma keys_report e (w : world) : keys_ok (esm w) ->
  keys_ok (esm match em_isKeyAvailable e, em_getKey e with
               | Some isKeyAvailable, Some getKey =>
                   if isKeyAvailable (esm w) (eap_method_priv (esm w)) then
                     let w := w ▸ on_sm (fun sm => eap_sm_free_key sm) in
                     let w := w ▸ on_sm (fun sm => sm <| eapKeyData := getKey sm (eap_method_priv sm) |>
                                                      <| eapSessionId := None |>) in
                     match em_getSessionId e with
                     | Some f => w ▸ on_sm (fun sm => sm <| eapSessionId := f sm (eap_method_priv sm) |>)
                     | None => w
                     end
                   else w
               | _, _ => w
               end).
Proof.
  intros Hw. cbn [em_isKeyAvailable em_getKey em_getSessionId password_methods].
  destruct (is_mschapv2 e); [|exact Hw].
  destruct (eap_method_priv (esm w)) as [[|d]|] eqn:Ep; [exact Hw | | exact Hw].
  destruct (eap_mschapv2_isKeyAvailable d) eqn:Ea; [|exact Hw].
  cbv zeta. unfold on_sm. cbn [esm].
  change (eap_method_priv (eap_sm_free_key (esm w))) with (eap_method_priv (esm w)). rewrite Ep.
  apply (keys_ok_new _ (esm w) Hw). intros key Hk. exact (method_key d key (ko_priv _ Hw d Ep) Ea Hk).
Qed.

Lemma keys_method g (w : world) :
  (forall req, eapol_get_eapReqData w = Some req -> seen (use_machine_cred (esm w)) (eap_get_config w) req) ->
  keys_ok (esm w) -> keys_ok (esm (EAP_METHOD_Enter g w)).
Proof.
  intros Hs Hw. unfold EAP_METHOD_Enter. cbv zeta. set (w1 := on_sm (sm_entry g EAP_METHOD) w).
  assert (keys_ok (esm w1)) as H1 by (unfold w1; keys_go).
  destruct (m (esm w1)) as [e|]; [|exact H1]. destruct (negb _); [exact H1|].
  destruct (eapol_get_eapReqData w1) as [req|] eqn:Er; [|exact H1].
  set (w2 := on_sm (fun sm => sm <| eapRespData := None |>) w1).
  assert (keys_ok (esm w2)) as H2 by (unfold w2; keys_go).
  assert (seen (use_machine_cred (esm w2)) (eap_get_config w2) req) as Hreq.
  { change (use_machine_cred (esm w2)) with (use_machine_cred (sm_entry g EAP_METHOD (esm w))).
    rewrite use_machine_cred_entry. exact (Hs req Er). }
  clearbody w2.
  destruct (em_process e (esm w2) _ _ _ _) as [[[[p v] ret'] resp] calls] eqn:Ep.
  pose proof (em_process_data _ _ _ _ _ _ _ _ _ _ _ Hreq (ko_priv _ H2) Ep) as Hp.
  pose proof (keys_ok_processed v p resp (ret_ignore ret') _ (keys_ok_calls calls w2 H2) Hp) as H3.
  set (w3 := on_sm (fun sm => _) (do_method_calls calls w2)).
  change (keys_ok (esm w3)) in H3. clearbody w3. destruct (ignore (esm w3)); [exact H3|].
  apply (keys_report e (on_sm _ w3)), keys_ok_outcome, H3.
Qed.

Create HintDb keys.
#[local] Hint Resolve keys_initialize keys_disabled keys_idle keys_received keys_get_method keys_method
  keys_send_response keys_discard keys_identity keys_notification keys_retransmit keys_success
  keys_failure : keys.

Lemma keys_step (w : world) :
  (forall req, eapol_get_eapReqData w = Some req -> seen (use_machine_cred (esm w)) (eap_get_config w) req) ->
  keys_ok (esm w) -> keys_ok (esm (EAP_Step w)).
Proof.
  intros Hs Hw. unfold EAP_Step, eap_peer_sm_step_local, eap_peer_sm_step_idle, eap_peer_sm_step_received.
  repeat (case_match; try (eauto with keys; fail)).
  all: apply keys_failure; keys_go.
Qed.

(** Calls of the rest of the program. *)
Inductive operation : (world -> world) -> Prop :=
| op_abort : operation eap_sm_abort
| op_deinit : operation eap_peer_sm_deinit
| op_fast_reauth b : operation (eap_set_fast_reauth b)
| op_workaround b : operation (eap_set_workaround b)
| op_force_disabled b : operation (eap_set_force_disabled b)
| op_success : operation eap_notify_success
| op_lower_success : operation eap_notify_lower_layer_success
| op_resp : operation (fun w => (eap_get_eapRespData w).2)
| op_invalidate : operation eap_invalidate_cached_session
| op_lower f : operation (on_eapol f).

(** What the program does with a peer, a pass of the state machine at a time: [seen]
    holds of the request and the configuration that each pass finds. *)
Inductive run : world -> Prop :=
| run_init sm s : eap_peer_sm_init true = Some sm -> run (World sm s)
| run_pass w : run w ->
    (forall req, eapol_get_eapReqData w = Some req -> seen (use_machine_cred (esm w)) (eap_get_config w) req) ->
    run (EAP_Step (on_sm (fun sm => sm <| changed := false |>) w))
| run_op f w : run w -> operation f -> run (f w).

Lemma keys_operation f (w : world) : operation f -> keys_ok (esm w) -> keys_ok (esm (f w)).
Proof.
  intros Hf Hw. destruct Hf; try exact Hw;
    unfold eap_peer_sm_deinit, eap_sm_abort, eap_set_fast_reauth, eap_set_workaround, eap_set_force_disabled,
      eap_notify_success, eap_notify_lower_layer_success, eap_invalidate_cached_session, eap_get_eapRespData; cbn [snd].
  all: try solve [keys_go].
  destruct (_ || _ || _); [exact Hw|]. exact (keys_ok_announce _ Hw).
Qed.

Lemma run_keys_ok w : run w -> keys_ok (esm w).
Proof.
  induction 1 as [sm s E | w _ IH Hs | f w _ IH Hf].
  - injection E as <-. now split.
  - apply keys_step; [exact Hs | keys_go].
  - now apply keys_operation.
Qed.

(** The passes of eap_peer_sm_step() are passes of a run. *)
Lemma run_peer_step w :
  (forall x req, run x -> eapol_get_eapReqData x = Some req -> seen (use_machine_cred (esm x)) (eap_get_config x) req) ->
  run w -> run (eap_peer_sm_step w).2.
Proof.
  intros Hs. unfold eap_peer_sm_step. generalize false as res. generalize EAP_STEP_FUEL as fuel.
  assert (forall fuel res x r, run x -> eap_peer_sm_step_loop fuel res x = Some r -> run r.2) as Hl.
  { induction fuel as [|fuel IH]; intros res x r Hx; [done|]. cbn [eap_peer_sm_step_loop]. cbv zeta.
    pose proof (run_pass x Hx (fun req => Hs x req Hx)) as Hn.
    destruct (changed _); [now apply IH | now intros [= <-]]. }
  intros fuel res Hw. destruct (eap_peer_sm_step_loop fuel res w) eqn:E; [exact (Hl _ _ _ _ Hw E) | exact Hw].
Qed.
End Peer.

Section Claim.
Context `{ME : MethodEnv} `{ML : !MethodEnvLaws} `{MC : MsCrypto} `{CL : !MsCryptoLaws} `{OA : OsAlloc}.
Context {S : Type} `{CB : EapolCallbacks S} `{SH : Sha1}.

(** C15. Keys come only from a server that knows the password: whenever the EAP peer
    reports that keys are available, or holds key data at all, some Success request
    carried the authenticator response (RFC 2759) computed from a configured
    credential and a challenge the peer drew itself, and the key data is the MSK
    (RFC 3079) of such an exchange.  EAP-MD5, unexpected messages, retries, password
    changes, failed allocations and changes of the configuration never lead to keys. *)
Theorem keys_only_from_server (seen : bool -> option eap_peer_config -> wpabuf -> Prop)
    (Hbytes : forall u c r, seen u c r -> bytes_ok (wb_buf r)) (w : world method_priv S) (Hrun : run seen w) :
  (eap_key_available w = true -> server_proved seen)
  /\ (forall key, eap_get_eapKeyData w = Some key ->
        server_proved seen /\ exists a mk, expects seen a mk /\ key = msk mk).
Proof.
  destruct (run_keys_ok seen Hbytes w Hrun) as [_ Hk Ha]. split; [exact Ha | exact Hk].
Qed.
End Claim.

(** ** A run of the peer with the values of RFC 2759 *)

#[export] Instance cfg_bytes_eq_dec : EqDecision cfg_bytes.
Proof. solve_decision. Defined.
#[export] Instance eap_peer_config_eq_dec : EqDecision eap_peer_config.
Proof. solve_decision. Defined.

Module Demo.
Import Rfc2759.

#[export] Instance crypto : MsCrypto := internal_ms_crypto (replicate 64 7).
#[export] Instance crypto_laws : MsCryptoLaws := internal_ms_crypto_laws (replicate 64 7) eq_refl.
#[export] Instance env : MethodEnv :=
  {| random_answer _ n := if (n =? 16)%nat then Some PeerChallenge else None;
     ext_password_get _ := None; freed_memory := [] |}.
#[export] Instance env_laws : MethodEnvLaws.
Proof.
  intros k n r. cbn. destruct (Nat.eqb_spec n 16) as [->|]; [|done]. intros [= <-].
  split; [reflexivity|]. apply (bool_decide_unpack _). vm_compute. exact I.
Qed.

Definition config : eap_peer_config :=
  demo_config <| identity := Some UserName |> <| password := CfgBytes Password |>.

Definition NtHash : bytes :=
  [0x44; 0xeb; 0xba; 0x8d; 0x53; 0x12; 0xb8; 0xd6; 0x11; 0x47; 0x44; 0x11; 0xf5; 0x69; 0x89; 0xae].
(** What the server of the RFC would answer. *)
Definition auth_text : bytes :=
  [83; 61] ++ hex_text (generate_authenticator_response_pwhash NtHash PeerChallenge AuthenticatorChallenge UserName NtResponse).

Definition challenge_request : bytes :=
  [1; 5; 0; 30; 26; 1; 9; 0; 25; 16] ++ AuthenticatorChallenge ++ [83; 82; 86; 48].
Definition success_request : bytes := [1; 6; 0; 51; 26; 3; 9; 0; 46] ++ auth_text.
Definition eap_success : bytes := [3; 6; 0; 4].
Definition messages : list bytes := [challenge_request; success_request; eap_success].

Definition seen (umc : bool) (cfg : option eap_peer_config) (r : wpabuf) : Prop :=
  umc = false /\ cfg = Some config /\ wb_buf r ∈ messages.

Definition pass (w : world method_priv lower) : world method_priv lower :=
  EAP_Step (on_sm (fun sm => sm <| changed := false |>) w).

(** [n] passes, each with what [seen] allows. *)
Fixpoint passes (n : nat) (w : world method_priv lower) : option (world method_priv lower) :=
  match n with
  | O => Some w
  | S n =>
      guard! negb (use_machine_cred (esm w)) && bool_decide (eap_get_config w = Some config)
             && match eapol_get_eapReqData w with
                | Some r => bool_decide (wb_buf r ∈ messages)
                | None => true
                end;
      passes n (pass w)
  end.

(** The lower layer delivers a message. *)
Definition deliver (msg : bytes) : world method_priv lower -> world method_priv lower :=
  on_eapol (fun s => Lower (fun v => if decide (v = EAPOL_eapReq) then true else low_bool s v) 60
                       (Some (Wpabuf (zlen msg) msg false)) (low_config s)).

Definition begin_world : option (world method_priv lower) :=
  let? sm := eap_peer_sm_init true in
  Some (World sm (Lower (vars [EAPOL_portEnabled; EAPOL_eapRestart]) 60 None (Some config))).

Definition session : option (world method_priv lower) :=
  let? w := begin_world in
  let? w := passes 2 w in
  let? w := passes 6 (deliver challenge_request w) in
  let? w := passes 5 (deliver success_request w) in
  passes 2 (deliver eap_success w).

Lemma run_passes n w w' : run seen w -> passes n w = Some w' -> run seen w'.
Proof.
  revert w. induction n as [|n IH]; intros w Hw; cbn [passes]; [now intros [= <-]|].
  destruct (negb (use_machine_cred (esm w)) && _ && _) eqn:E; [|done].
  apply andb_true_iff in E as [[E1%negb_true_iff E2%bool_decide_eq_true]%andb_true_iff E3].
  intros Hn. refine (IH (pass w) (run_pass _ _ Hw _) Hn).
  intros req Hr. rewrite Hr in E3. apply bool_decide_eq_true in E3. now split.
Qed.

Lemma run_session w : session = Some w -> run seen w.
Proof.
  unfold session. destruct begin_world as [w0|] eqn:E0; [|done].
  assert (run seen w0) as H0 by (injection E0 as <-; now constructor).
  destruct (passes 2 w0) as [w1|] eqn:E1; [|done]. pose proof (run_passes _ _ _ H0 E1) as H1.
  destruct (passes 6 _) as [w2|] eqn:E2; [|done].
  pose proof (run_passes _ _ _ (run_op _ _ _ H1 (op_lower _)) E2) as H2.
  destruct (passes 5 _) as [w3|] eqn:E3; [|done].
  pose proof (run_passes _ _ _ (run_op _ _ _ H2 (op_lower _)) E3) as H3.
  intros E4. exact (run_passes _ _ _ (run_op _ _ _ H3 (op_lower _)) E4).
Qed.

Lemma messages_bytes : Forall bytes_ok messages.
Proof. apply (bool_decide_unpack _). vm_compute. exact I. Qed.

Lemma seen_bytes u c r : seen u c r -> bytes_ok (wb_buf r).
Proof. intros (_ & _ & Hr). pose proof messages_bytes as H. rewrite Forall_forall in H. exact (H _ Hr). Qed.

(** What the program reads at the end. *)
Definition outcome (w : world method_priv lower) : bool * option bytes :=
  (eap_key_available w, eap_get_eapKeyData w).

Definition Msk : bytes :=
  [0xd5; 0xf0; 0xe9; 0x52; 0x1e; 0x3e; 0xa9; 0x58; 0x96; 0x45; 0xe8; 0x60; 0x51; 0xc8; 0x22; 0x26;
   0x8b; 0x7c; 0xdc; 0x14; 0x9b; 0x99; 0x3a; 0x1b; 0xa1; 0x18; 0xcb; 0x15; 0x3f; 0x56; 0xdc; 0xcb].

Lemma session_outcome : option_map outcome session = Some (true, Some Msk).
Proof. vm_compute. reflexivity. Qed.

Lemma keys_only_from_server_witness : exists w,
  session = Some w /\ run seen w /\ outcome w = (true, Some Msk) /\ server_proved seen.
Proof.
  pose proof session_outcome as Ho. destruct session as [w|] eqn:E; [|discriminate Ho].
  injection Ho as Ha Hk. pose proof (run_session w E) as Hr. exists w.
  split; [reflexivity|]. split; [exact Hr|]. split; [exact (f_equal2 pair Ha Hk)|].
  exact (proj1 (keys_only_from_server seen seen_bytes w Hr) Ha).
Defined.

(** [ret->ignore] starts with the value of the last message and eap_mschapv2_success()
    only ever sets it: after one malformed request the valid Success request is discarded. *)
Definition malformed_request : bytes := [1; 7; 0; 5; 26].
Definition session_with_malformed : option (bool * option bytes * bool) :=
  let? w := begin_world in
  let w := pass (pass w) in
  let w := Nat.iter 6 pass (deliver challenge_request w) in
  let w := Nat.iter 5 pass (deliver malformed_request w) in
  let w := Nat.iter 5 pass (deliver success_request w) in
  Some (outcome w, ignore (esm w)).

Lemma success_after_malformed_ignored : session_with_malformed = Some (false, None, true).
Proof. vm_compute. reflexivity. Qed.
End Demo.
