(* ===== verification/EapServer.v ===== *)
(** * EAP server state machine (src/eap_server/eap_server.c, eap_i.h, eap.h; RFC 4137)

    The full authenticator with the pass-through to an AAA server.  The methods are the
    class [ServerMethods], the user database, the random numbers and the texts the lower
    layer is asked for are the class [ServerEnv]; both are interfaces in the code as well.
    The EAP-EAPOL interface is the record [eap_if], shared with the lower layer.

    A NULL pointer the code would follow is [NullPointer], a loop that does not end within
    its fuel [OutOfFuel].  CONFIG_ERP and CONFIG_TESTING_OPTIONS are off.  Not modelled:
    messages and logs, [serial_num], [imsi] and the elements of the association. *)

From stdpp Require Import strings.
From S2P Require Import Prelude Wpabuf EapCommon.

(* defs.h EAP_MAX_METHODS *)
Definition EAP_MAX_METHODS : nat := 8.

(* eap_server/eap_i.h EAP_state @109-120 *)
Inductive eap_state :=
| EAP_DISABLED | EAP_INITIALIZE | EAP_IDLE | EAP_RECEIVED | EAP_INTEGRITY_CHECK
| EAP_METHOD_RESPONSE | EAP_METHOD_REQUEST | EAP_PROPOSE_METHOD | EAP_SELECT_ACTION
| EAP_SEND_REQUEST | EAP_DISCARD | EAP_NAK | EAP_RETRANSMIT | EAP_SUCCESS | EAP_FAILURE
| EAP_TIMEOUT_FAILURE | EAP_PICK_UP_METHOD | EAP_INITIALIZE_PASSTHROUGH | EAP_IDLE2
| EAP_RETRANSMIT2 | EAP_RECEIVED2 | EAP_DISCARD2 | EAP_SEND_REQUEST2 | EAP_AAA_REQUEST
| EAP_AAA_RESPONSE | EAP_AAA_IDLE | EAP_TIMEOUT_FAILURE2 | EAP_FAILURE2 | EAP_SUCCESS2
| EAP_INITIATE_REAUTH_START | EAP_INITIATE_RECEIVED.

(* eap_server/eap_i.h methodState @132-134 *)
Inductive method_state := METHOD_PROPOSED | METHOD_CONTINUE | METHOD_END.
(* eap_server/eap_i.h method_pending @175-177 *)
Inductive method_pending_t := METHOD_PENDING_NONE | METHOD_PENDING_WAIT | METHOD_PENDING_CONT.
(* eap_server/eap_i.h decision @147-150 *)
Inductive policy_decision :=
| DECISION_SUCCESS | DECISION_FAILURE | DECISION_CONTINUE | DECISION_PASSTHROUGH
| DECISION_INITIATE_REAUTH_START.

#[export] Instance eap_state_eq_dec : EqDecision eap_state.
Proof. solve_decision. Defined.
#[export] Instance method_state_eq_dec : EqDecision method_state.
Proof. solve_decision. Defined.
#[export] Instance method_pending_eq_dec : EqDecision method_pending_t.
Proof. solve_decision. Defined.
#[export] Instance policy_decision_eq_dec : EqDecision policy_decision.
Proof. solve_decision. Defined.

(** ** Results of code that may follow a NULL pointer or not end *)

Inductive result (A : Type) := Returns (a : A) | NullPointer | OutOfFuel.
#[global] Arguments Returns {A}.
#[global] Arguments NullPointer {A}.
#[global] Arguments OutOfFuel {A}.

Definition result_bind {A B} (r : result A) (k : A -> result B) : result B :=
  match r with Returns a => k a | NullPointer => NullPointer | OutOfFuel => OutOfFuel end.
Notation "'let!' x ':=' r 'in' k" := (result_bind r (fun x => k))
  (at level 10, x name, r at level 100, k at level 200) : wpa_scope.
(** Following a pointer. *)
Definition deref {A B} (p : option A) (k : A -> result B) : result B :=
  match p with Some a => k a | None => NullPointer end.

(** ** Data *)

(** Identification part of struct eap_method. *)
Record eap_method := EapMethod { em_vendor : Z; em_method : Z; em_name : string }.

(** struct eap_user without what only tunnelling methods use. *)
(* eap_server/eap.h struct eap_user *)
Record eap_user := EapUser {
  methods : list (Z * Z);
  password : option bytes;
  password_hash : bool;
  phase2 : bool
}.
#[export] Instance eta_eap_user : Eta eap_user := fun u =>
  EapUser (methods u) (password u) (password_hash u) (phase2 u).

(* eap_server/eap.h struct eap_eapol_interface *)
Record eap_eapol_interface := EapEapolInterface {
  eapResp : bool;
  eapRespData : option wpabuf;
  portEnabled : bool;
  retransWhile : Z;
  eapRestart : bool;
  eapSRTT : Z;
  eapRTTVAR : Z;
  eapReq : bool;
  eapNoReq : bool;
  eapSuccess : bool;
  eapFail : bool;
  eapTimeout : bool;
  eapReqData : option wpabuf;
  eapKeyData : option bytes;
  eapSessionId : option bytes;
  eapKeyAvailable : bool;
  aaaEapReq : bool;
  aaaEapNoReq : bool;
  aaaSuccess : bool;
  aaaFail : bool;
  aaaEapReqData : option wpabuf;
  aaaEapKeyData : option bytes;
  aaaEapKeyAvailable : bool;
  aaaMethodTimeout : Z;
  aaaEapResp : bool;
  aaaEapRespData : option wpabuf;
  aaaTimeout : bool
}.
#[export] Instance eta_eap_if : Eta eap_eapol_interface := fun i =>
  EapEapolInterface (eapResp i) (eapRespData i) (portEnabled i) (retransWhile i) (eapRestart i)
    (eapSRTT i) (eapRTTVAR i) (eapReq i) (eapNoReq i) (eapSuccess i) (eapFail i) (eapTimeout i)
    (eapReqData i) (eapKeyData i) (eapSessionId i) (eapKeyAvailable i) (aaaEapReq i) (aaaEapNoReq i)
    (aaaSuccess i) (aaaFail i) (aaaEapReqData i) (aaaEapKeyData i) (aaaEapKeyAvailable i)
    (aaaMethodTimeout i) (aaaEapResp i) (aaaEapRespData i) (aaaTimeout i).

(** struct eap_config: what the state machine and the modelled methods read. *)
Record eap_config := EapConfig {
  backend_auth : bool;
  eap_server : bool;
  server_id : bytes;
  max_auth_rounds : Z;
  max_auth_rounds_short : Z
}.

(** [n_env] counts the questions to the environment. *)
(* eap_server/eap_i.h struct eap_sm *)
Record eap_sm {priv : Type} := EapSm {
  EAP_state : eap_state;
  MaxRetrans : Z;
  eap_if : eap_eapol_interface;
  currentMethod : Z;
  currentId : Z;
  methodState : method_state;
  retransCount : Z;
  lastReqData : option wpabuf;
  methodTimeout : Z;
  rxResp : bool;
  rxInitiate : bool;
  respId : Z;
  respMethod : Z;
  respVendor : Z;
  respVendorMethod : Z;
  ignore : bool;
  decision : policy_decision;
  m : option eap_method;
  changed : bool;
  eap_method_priv : option priv;
  identity : option bytes;
  identity_len : Z;
  lastId : Z;
  user : option eap_user;
  user_eap_method_index : Z;
  cfg : eap_config;
  update_user : bool;
  num_rounds : Z;
  num_rounds_short : Z;
  method_pending : method_pending_t;
  auth_challenge : option bytes;
  peer_challenge : option bytes;
  start_reauth : bool;
  initiate_reauth_start_sent : bool;
  try_initiate_reauth : bool;
  n_env : nat
}.
#[global] Arguments eap_sm : clear implicits.
#[global] Arguments EapSm {priv}.
#[export] Instance eta_eap_sm {priv} : Eta (eap_sm priv) := fun s =>
  EapSm (EAP_state s) (MaxRetrans s) (eap_if s) (currentMethod s) (currentId s) (methodState s)
    (retransCount s) (lastReqData s) (methodTimeout s) (rxResp s) (rxInitiate s) (respId s)
    (respMethod s) (respVendor s) (respVendorMethod s) (ignore s) (decision s) (m s) (changed s)
    (eap_method_priv s) (identity s) (identity_len s) (lastId s) (user s) (user_eap_method_index s) (cfg s)
    (update_user s) (num_rounds s) (num_rounds_short s) (method_pending s) (auth_challenge s)
    (peer_challenge s) (start_reauth s) (initiate_reauth_start_sent s) (try_initiate_reauth s)
    (n_env s).

(** ** Interfaces *)

(** What the lower layer (struct eapol_callbacks) and the C library answer, by the number of
    the question: get_eap_user(), random bytes, rand(); and the texts of the configuration. *)
Class ServerEnv := {
  get_eap_user : nat -> bytes -> bool -> option eap_user;
  server_random : nat -> nat -> option bytes;
  rand_answer : nat -> Z;
  get_eap_req_id_text : option bytes;
  erp_send_reauth_start : bool;
  erp_domain : option bytes
}.

(** The fields of struct eap_sm that methods assign to. *)
Record method_vars := MethodVars {
  mv_identity : option bytes;
  mv_identity_len : Z;
  mv_user : option eap_user;
  mv_user_eap_method_index : Z;
  mv_update_user : bool;
  mv_method_pending : method_pending_t;
  mv_n_env : nat
}.

(** The functions of the registered methods in the order of registration; an optional
    function pointer is an [option].  The code follows [priv] without a check. *)
Class ServerMethods (priv : Type) := {
  server_methods : list eap_method;
  srv_init : eap_method -> eap_sm priv -> option priv * method_vars;
  srv_initPickUp : eap_method -> option (eap_sm priv -> option priv * method_vars);
  srv_buildReq : eap_method -> eap_sm priv -> priv -> Z -> priv * method_vars * option wpabuf;
  srv_getTimeout : eap_method -> option (eap_sm priv -> priv -> Z);
  srv_check : eap_method -> option (eap_sm priv -> priv -> option wpabuf -> bool);
  srv_process : eap_method -> eap_sm priv -> priv -> option wpabuf -> result (priv * method_vars);
  srv_isDone : eap_method -> eap_sm priv -> priv -> bool;
  srv_isSuccess : eap_method -> eap_sm priv -> priv -> bool;
  srv_getKey : eap_method -> option (eap_sm priv -> priv -> option bytes);
  srv_getSessionId : eap_method -> option (eap_sm priv -> priv -> option bytes)
}.

Section EapServer.
Context {priv : Type} `{ServerMethods priv} `{ServerEnv} `{OsAlloc}.
Abbreviation eap_sm := (eap_sm priv).

Definition on_if (f : eap_eapol_interface -> eap_eapol_interface) (sm : eap_sm) : eap_sm :=
  sm <| eap_if := f (eap_if sm) |>.

Definition store_method_vars (v : method_vars) (sm : eap_sm) : eap_sm :=
  sm <| identity := mv_identity v |> <| identity_len := mv_identity_len v |> <| user := mv_user v |>
     <| user_eap_method_index := mv_user_eap_method_index v |> <| update_user := mv_update_user v |>
     <| method_pending := mv_method_pending v |> <| n_env := mv_n_env v |>.

(** SM_ENTRY(EAP, state), state_machine.h *)
(* state_machine.h #define SM_ENTRY *)
Definition sm_entry (global : bool) (st : eap_state) (sm : eap_sm) : eap_sm :=
  let sm := if negb global || bool_decide (EAP_state sm <> st) then sm <| changed := true |> else sm in
  sm <| EAP_state := st |>.

(** [sm->m->reset()] where there is a method with data. *)
(* eap_server.c SM_STATE(EAP, PICK_UP_METHOD) @282-285 *)
Definition reset_method (sm : eap_sm) : eap_sm :=
  match m sm, eap_method_priv sm with
  | Some _, Some _ => sm <| eap_method_priv := None |>
  | _, _ => sm
  end.

(* eap_server.c eap_sm_buildInitiateReauthStart *)
Definition eap_sm_buildInitiateReauthStart (id : Z) : option wpabuf :=
  let plen := 1 + match erp_domain with Some d => 2 + zlen d | None => 0 end in
  let? msg := eap_msg_alloc EAP_VENDOR_IETF 1 plen EAP_CODE_INITIATE id in
  let msg := wpabuf_put_u8 msg 0 in
  Some (match erp_domain with
        | Some d => wpabuf_put_data (wpabuf_put_u8 (wpabuf_put_u8 msg EAP_ERP_TLV_DOMAIN_NAME) (u8 (zlen d))) d
        | None => msg
        end).

(** [None] for -1; [dst] is NULL when the copy cannot be allocated. *)
(* eap_server.c eap_copy_buf *)
Definition eap_copy_buf (dst src : option wpabuf) : option wpabuf * bool :=
  match src with
  | None => (dst, false)
  | Some b => match wpabuf_dup b with Some c => (Some c, true) | None => (None, false) end
  end.

(* eap_server.c eap_copy_data *)
Definition eap_copy_data (dst src : option bytes) : option bytes :=
  match src with
  | None => dst
  | Some b => if malloc_ok (zlen b) then Some b else None
  end.

(* eap_server.c eap_user_get *)
Definition eap_user_get (id : bytes) (phase2 : bool) (sm : eap_sm) : bool * eap_sm :=
  let sm := sm <| user := None |> in
  if negb (malloc_ok 136) then (false, sm) else
  let answer := get_eap_user (n_env sm) id phase2 in
  let sm := sm <| n_env := S (n_env sm) |> in
  match answer with
  | None => (false, sm)
  | Some u => (true, sm <| user := Some u |> <| user_eap_method_index := 0 |>)
  end.

(* eap_server.c eap_server_clear_identity *)
Definition eap_server_clear_identity (sm : eap_sm) : eap_sm := sm <| identity := None |>.

(* eap_server_methods.c eap_server_get_eap_method *)
Definition eap_server_get_eap_method (vendor method : Z) : option eap_method :=
  List.find (fun e => (em_vendor e =? vendor) && (em_method e =? method)) server_methods.

(** ** Helpers *)

(* eap_server.c eap_sm_calculateTimeout @1472-1478 *)
Fixpoint backoff (n : nat) (rto : Z) : Z :=
  match n with
  | O => rto
  | S n => let rto := rto * 2 in if 20 <=? rto then 20 else backoff n rto
  end.

(* eap_server.c eap_sm_calculateTimeout *)
Definition eap_sm_calculateTimeout (sm : eap_sm) (retransCount eapSRTT eapRTTVAR methodTimeout : Z) : Z :=
  if try_initiate_reauth sm then 1
  else if negb (methodTimeout =? 0) then methodTimeout
  else backoff (Z.to_nat retransCount) 3.

(* eap_server.c eap_sm_parseEapResp *)
Definition eap_sm_parseEapResp (resp : option wpabuf) (sm : eap_sm) : eap_sm :=
  let sm := sm <| rxResp := false |> <| rxInitiate := false |> <| respId := -1 |>
               <| respMethod := EAP_TYPE_NONE |> <| respVendor := EAP_VENDOR_IETF |>
               <| respVendorMethod := EAP_TYPE_NONE |> in
  match resp with
  | None => sm
  | Some b =>
      if wpabuf_len b <? sizeof_eap_hdr then sm else
      let hdr := wpabuf_head b in
      let plen := hdr_length hdr in
      if wpabuf_len b <? plen then sm else
      let sm := sm <| respId := hdr_identifier hdr |> in
      let sm :=
        if hdr_code hdr =? EAP_CODE_RESPONSE then sm <| rxResp := true |>
        else if hdr_code hdr =? EAP_CODE_INITIATE then sm <| rxInitiate := true |> else sm in
      if sizeof_eap_hdr <? plen then
        let pos := drop 4 hdr in
        let sm := sm <| respMethod := byte_at pos 0 |> in
        let pos := drop 1 pos in
        if respMethod sm =? EAP_TYPE_EXPANDED then
          if plen <? sizeof_eap_hdr + 8 then sm
          else sm <| respVendor := get_be24 pos |> <| respVendorMethod := get_be32 (drop 3 pos) |>
        else sm
      else sm
  end.

(* eap_server.c eap_sm_getId *)
Definition eap_sm_getId (data : option wpabuf) : Z :=
  match data with
  | None => -1
  | Some b => if wpabuf_len b <? sizeof_eap_hdr then -1 else hdr_identifier (wpabuf_head b)
  end.

(* eap_server.c eap_sm_buildSuccess *)
Definition eap_sm_buildSuccess (id : Z) : option wpabuf :=
  let? msg := wpabuf_alloc sizeof_eap_hdr in
  Some (wpabuf_put msg ([EAP_CODE_SUCCESS; u8 id] ++ put_be16 sizeof_eap_hdr)).
(* eap_server.c eap_sm_buildFailure *)
Definition eap_sm_buildFailure (id : Z) : option wpabuf :=
  let? msg := wpabuf_alloc sizeof_eap_hdr in
  Some (wpabuf_put msg ([EAP_CODE_FAILURE; u8 id] ++ put_be16 sizeof_eap_hdr)).

(* eap_server.c eap_sm_nextId *)
Definition eap_sm_nextId (id : Z) (sm : eap_sm) : Z * eap_sm :=
  if id <? 0 then
    let id := Z.land (rand_answer (n_env sm)) 255 in
    let sm := sm <| n_env := S (n_env sm) |> in
    if negb (id =? lastId sm) then (id, sm) else (Z.land (id + 1) 255, sm)
  else (Z.land (id + 1) 255, sm).

(** ** Policy *)

(** [methods] from [i] on without its entry [i], the last one free. *)
(* eap_server.c eap_sm_process_nak @1655-1664 *)
Definition remove_method (i : nat) (l : list (Z * Z)) : list (Z * Z) :=
  let l := if (i + 1 <? EAP_MAX_METHODS)%nat then take i l ++ drop (i + 1) l ++ drop (EAP_MAX_METHODS - 1) l else l in
  <[(EAP_MAX_METHODS - 1)%nat := (EAP_VENDOR_IETF, EAP_TYPE_NONE)]> l.

(** The while loop; each iteration uses up one entry, so that [EAP_MAX_METHODS] iterations are
    enough ([nak_loop_spec]). *)
(* eap_server.c eap_sm_process_nak @1636-1666 *)
Fixpoint nak_loop (fuel i : nat) (nak_list : bytes) (l : list (Z * Z)) : list (Z * Z) :=
  match fuel with
  | O => l
  | S fuel =>
      match l !! i with
      | None => l
      | Some (vendor, method) =>
          if negb (i <? EAP_MAX_METHODS)%nat
             || ((vendor =? EAP_VENDOR_IETF) && (method =? EAP_TYPE_NONE)) then l
          else if (vendor =? EAP_VENDOR_IETF) && bool_decide (method ∈ nak_list)
          then nak_loop fuel (i + 1) nak_list l
          else nak_loop fuel i nak_list (remove_method i l)
      end
  end.

(* eap_server.c eap_sm_process_nak *)
Definition eap_sm_process_nak (nak_list : bytes) (sm : eap_sm) : eap_sm :=
  match user sm with
  | None => sm
  | Some u =>
      sm <| user := Some (u <| methods :=
        nak_loop (EAP_MAX_METHODS + 1) (Z.to_nat (user_eap_method_index sm)) nak_list (methods u) |>) |>
  end.

(* eap_server.c eap_sm_Policy_update *)
Definition eap_sm_Policy_update (nak_list : option bytes) (sm : eap_sm) : eap_sm :=
  match nak_list, user sm with
  | Some l, Some u =>
      if phase2 u then sm <| decision := DECISION_FAILURE |> else eap_sm_process_nak l sm
  | _, _ => sm
  end.

(** The next configured method, if there is one. *)
(* eap_server.c eap_sm_Policy_getNextMethod @1706-1711 *)
Definition configured_method (sm : eap_sm) : option (Z * Z) :=
  let? u := user sm in
  if user_eap_method_index sm <? Z.of_nat EAP_MAX_METHODS then
    let? (vendor, method) := methods u !! Z.to_nat (user_eap_method_index sm) in
    if negb (vendor =? EAP_VENDOR_IETF) || negb (method =? EAP_TYPE_NONE) then Some (vendor, method) else None
  else None.

(** The vendor and the method. *)
(* eap_server.c eap_sm_Policy_getNextMethod *)
Definition eap_sm_Policy_getNextMethod (sm : eap_sm) : Z * Z * eap_sm :=
  if bool_decide (identity sm = None) || (currentId sm =? -1)
  then (EAP_VENDOR_IETF, EAP_TYPE_IDENTITY, sm <| update_user := true |>)
  else match configured_method sm with
       | Some (vendor, next) =>
           (vendor, next, sm <| user_eap_method_index := user_eap_method_index sm + 1 |>)
       | None => (EAP_VENDOR_IETF, EAP_TYPE_NONE, sm)
       end.

(** [sm->m->f(sm, sm->eap_method_priv)] behind the check that a method is selected. *)
(* eap_server.c eap_sm_Policy_getDecision @1729-1730 *)
Definition ask_method (f : eap_method -> eap_sm -> priv -> bool) (sm : eap_sm) : result bool :=
  match m sm with
  | None => Returns false
  | Some e => deref (eap_method_priv sm) (fun p => Returns (f e sm p))
  end.

(** Whether the user's list starts with an EAP-Identity of IETF. *)
(* eap_server.c eap_sm_Policy_getDecision @1754-1756 *)
Definition identity_first (sm : eap_sm) : bool :=
  match user sm with
  | Some u => bool_decide (methods u !! 0%nat = Some (EAP_VENDOR_IETF, EAP_TYPE_IDENTITY))
  | None => false
  end.

(** What follows the lookup of the user. *)
(* eap_server.c eap_sm_Policy_getDecision @1773-1801 *)
Definition decide_without_method (sm : eap_sm) : policy_decision * eap_sm :=
  let sm := sm <| start_reauth := false |> in
  if bool_decide (is_Some (configured_method sm)) then (DECISION_CONTINUE, sm)
  else if bool_decide (identity sm = None) && erp_send_reauth_start && negb (initiate_reauth_start_sent sm)
  then (DECISION_INITIATE_REAUTH_START, sm)
  else if bool_decide (identity sm = None) || (currentId sm =? -1) then (DECISION_CONTINUE, sm)
  else (DECISION_FAILURE, sm).

(* eap_server.c eap_sm_Policy_getDecision *)
Definition eap_sm_Policy_getDecision (sm : eap_sm) : result (policy_decision * eap_sm) :=
  if negb (eap_server (cfg sm)) && bool_decide (is_Some (identity sm)) && negb (start_reauth sm)
  then Returns (DECISION_PASSTHROUGH, sm) else
  let! succeeded :=
    if negb (currentMethod sm =? EAP_TYPE_IDENTITY) then ask_method srv_isSuccess sm else Returns false in
  if succeeded : bool then Returns (DECISION_SUCCESS, sm <| update_user := true |>) else
  let! done := ask_method srv_isDone sm in
  let! success := if done : bool then ask_method srv_isSuccess sm else Returns false in
  if done && negb success then Returns (DECISION_FAILURE, sm <| update_user := true |>) else
  match identity sm with
  | Some id =>
      if (bool_decide (user sm = None) || update_user sm) && negb (start_reauth sm) then
        let id_req := (currentMethod sm =? EAP_TYPE_IDENTITY) && identity_first sm in
        let '(found, sm) := eap_user_get id false sm in
        if negb found then Returns (DECISION_FAILURE, sm)
        else if id_req && identity_first sm then Returns (DECISION_FAILURE, sm <| update_user := true |>)
        else Returns (decide_without_method (sm <| update_user := false |>))
      else Returns (decide_without_method sm)
  | None => Returns (decide_without_method sm)
  end.

(* eap_server.c eap_sm_Policy_doPickUp *)
Definition eap_sm_Policy_doPickUp (method : Z) : bool := method =? EAP_TYPE_IDENTITY.

(** ** States *)

(* eap_server.c SM_STATE(EAP, DISABLED) *)
Definition EAP_DISABLED_Enter (global : bool) (sm : eap_sm) : eap_sm :=
  sm ▸ sm_entry global EAP_DISABLED
     ▸ (fun sm => sm <| num_rounds := 0 |> <| num_rounds_short := 0 |>).

(** What INITIALIZE clears. *)
(* eap_server.c SM_STATE(EAP, INITIALIZE) @225-245 *)
Definition start_over (sm : eap_sm) : eap_sm :=
  let sm :=
    if eapRestart (eap_if sm) && negb (eap_server (cfg sm)) && bool_decide (is_Some (identity sm))
    then eap_server_clear_identity sm else sm in
  let sm := sm <| try_initiate_reauth := false |> <| currentId := -1 |> in
  on_if (fun i => i <| eapSuccess := false |> <| eapFail := false |> <| eapTimeout := false |>
                    <| eapKeyData := None |> <| eapSessionId := None |>
                    <| eapKeyAvailable := false |> <| eapRestart := false |>) sm.

(** The method is reset and forgotten. *)
(* eap_server.c SM_STATE(EAP, INITIALIZE) @252-257 *)
Definition forget_method (sm : eap_sm) : eap_sm := reset_method sm <| m := None |> <| user_eap_method_index := 0 |>.

(** A backend starts with the response that the access point forwarded. *)
(* eap_server.c SM_STATE(EAP, INITIALIZE) @259-266 *)
Definition parse_first (sm : eap_sm) : eap_sm :=
  if backend_auth (cfg sm) then
    let sm := sm <| currentMethod := EAP_TYPE_NONE |> in
    let sm := eap_sm_parseEapResp (eapRespData (eap_if sm)) sm in
    if rxResp sm then sm <| currentId := respId sm |> else sm
  else sm.

(* eap_server.c SM_STATE(EAP, INITIALIZE) *)
Definition EAP_INITIALIZE_Enter (global : bool) (sm : eap_sm) : eap_sm :=
  let sm := sm ▸ sm_entry global EAP_INITIALIZE ▸ start_over ▸ forget_method ▸ parse_first in
  sm <| num_rounds := 0 |> <| num_rounds_short := 0 |> <| method_pending := METHOD_PENDING_NONE |>.

(* eap_server.c SM_STATE(EAP, PICK_UP_METHOD) *)
Definition EAP_PICK_UP_METHOD_Enter (global : bool) (sm : eap_sm) : eap_sm :=
  let sm := sm_entry global EAP_PICK_UP_METHOD sm in
  if eap_sm_Policy_doPickUp (respMethod sm) then
    let sm := reset_method (sm <| currentMethod := respMethod sm |>) in
    let sm := sm <| m := eap_server_get_eap_method EAP_VENDOR_IETF (currentMethod sm) |> in
    match (let? e := m sm in srv_initPickUp e) with
    | Some init =>
        let '(p, v) := init sm in
        let sm := store_method_vars v sm <| eap_method_priv := p |> in
        match p with
        | None => sm <| m := None |> <| currentMethod := EAP_TYPE_NONE |>
        | Some _ => sm
        end
    | None => sm <| m := None |> <| currentMethod := EAP_TYPE_NONE |>
    end
  else sm.

(** The timeout that IDLE and IDLE2 set. *)
(* eap_server.c SM_STATE(EAP, IDLE) @312-314 *)
Definition set_retransWhile (sm : eap_sm) : eap_sm :=
  on_if (fun i => i <| retransWhile :=
    eap_sm_calculateTimeout sm (retransCount sm) (eapSRTT i) (eapRTTVAR i) (methodTimeout sm) |>) sm.

(* eap_server.c SM_STATE(EAP, IDLE) *)
Definition EAP_IDLE_Enter (global : bool) (sm : eap_sm) : eap_sm :=
  sm ▸ sm_entry global EAP_IDLE ▸ set_retransWhile.

(** Common to RETRANSMIT and RETRANSMIT2. *)
(* eap_server.c SM_STATE(EAP, RETRANSMIT) @322-326 *)
Definition retransmit (sm : eap_sm) : eap_sm :=
  let sm := sm <| retransCount := retransCount sm + 1 |> in
  if (retransCount sm <=? MaxRetrans sm) && bool_decide (is_Some (lastReqData sm)) then
    let '(buf, ok) := eap_copy_buf (eapReqData (eap_if sm)) (lastReqData sm) in
    on_if (fun i => (if ok : bool then i <| eapReq := true |> else i) <| eapReqData := buf |>) sm
  else sm.

(* eap_server.c SM_STATE(EAP, RETRANSMIT) *)
Definition EAP_RETRANSMIT_Enter (global : bool) (sm : eap_sm) : eap_sm :=
  sm ▸ sm_entry global EAP_RETRANSMIT ▸ retransmit.

(* eap_server.c SM_STATE(EAP, RECEIVED) *)
Definition EAP_RECEIVED_Enter (global : bool) (sm : eap_sm) : eap_sm :=
  let sm := sm_entry global EAP_RECEIVED sm in
  let resp := eapRespData (eap_if sm) in
  let sm := eap_sm_parseEapResp resp sm in
  let sm := sm <| num_rounds := u32 (num_rounds sm + 1) |> in
  if match resp with None => true | Some b => wpabuf_len b <? 20 end
  then sm <| num_rounds_short := u32 (num_rounds_short sm + 1) |>
  else sm <| num_rounds_short := 0 |>.

(* eap_server.c SM_STATE(EAP, DISCARD) @350-351 *)
Definition discard : eap_sm -> eap_sm := on_if (fun i => i <| eapResp := false |> <| eapNoReq := true |>).
(* eap_server.c SM_STATE(EAP, DISCARD) *)
Definition EAP_DISCARD_Enter (global : bool) (sm : eap_sm) : eap_sm := sm ▸ sm_entry global EAP_DISCARD ▸ discard.

(** Common to SEND_REQUEST and SEND_REQUEST2. *)
(* eap_server.c SM_STATE(EAP, SEND_REQUEST) @363-376 *)
Definition send_request (sm : eap_sm) : eap_sm :=
  match eapReqData (eap_if sm) with
  | Some req =>
      let '(buf, ok) := eap_copy_buf (lastReqData sm) (Some req) in
      on_if (fun i => i <| eapResp := false |> <| eapReq := ok |>) (sm <| lastReqData := buf |>)
  | None => on_if (fun i => i <| eapResp := false |> <| eapReq := false |> <| eapNoReq := true |>) sm
  end.

(* eap_server.c SM_STATE(EAP, SEND_REQUEST) *)
Definition EAP_SEND_REQUEST_Enter (global : bool) (sm : eap_sm) : eap_sm :=
  let sm := sm_entry global EAP_SEND_REQUEST sm <| retransCount := 0 |> in
  let sm := match eapReqData (eap_if sm) with
            | Some req => if 20 <=? wpabuf_len req then sm <| num_rounds_short := 0 |> else sm
            | None => sm
            end in
  send_request sm.

(* eap_server.c SM_STATE(EAP, INTEGRITY_CHECK) *)
Definition EAP_INTEGRITY_CHECK_Enter (global : bool) (sm : eap_sm) : result eap_sm :=
  let sm := sm_entry global EAP_INTEGRITY_CHECK sm in
  let resp := eapRespData (eap_if sm) in
  if negb (eap_hdr_len_valid resp 1) then Returns (sm <| ignore := true |>) else
  deref (m sm) (fun e =>
    match srv_check e with
    | Some check => deref (eap_method_priv sm) (fun p => Returns (sm <| ignore := check sm p resp |>))
    | None => Returns sm
    end).

(* eap_server.c SM_STATE(EAP, METHOD_REQUEST) *)
Definition EAP_METHOD_REQUEST_Enter (global : bool) (sm : eap_sm) : result eap_sm :=
  let sm := sm_entry global EAP_METHOD_REQUEST sm in
  match m sm with
  | None => Returns sm
  | Some e =>
      let '(id, sm) := eap_sm_nextId (currentId sm) sm in
      let sm := sm <| currentId := id |> <| lastId := id |> in
      deref (eap_method_priv sm) (fun p =>
        let '(p, v, req) := srv_buildReq e sm p (currentId sm) in
        let sm := store_method_vars v sm <| eap_method_priv := Some p |> in
        let sm := on_if (fun i => i <| eapReqData := req |>) sm in
        Returns (sm <| methodTimeout := match srv_getTimeout e with Some f => f sm p | None => 0 end |>))
  end.

(** [eap_server_erp_init()] is empty without CONFIG_ERP. *)
(* eap_server.c SM_STATE(EAP, METHOD_RESPONSE) *)
Definition EAP_METHOD_RESPONSE_Enter (global : bool) (sm : eap_sm) : result eap_sm :=
  let sm := sm_entry global EAP_METHOD_RESPONSE sm in
  let resp := eapRespData (eap_if sm) in
  if negb (eap_hdr_len_valid resp 1) then Returns sm else
  deref (m sm) (fun e => deref (eap_method_priv sm) (fun p =>
    let! r := srv_process e sm p resp in
    let '(p, v) := r : priv * method_vars in
    let sm := store_method_vars v sm <| eap_method_priv := Some p |> in
    if srv_isDone e sm p then
      let sm := eap_sm_Policy_update None sm in
      let sm := on_if (fun i => i <| eapKeyData := let? f := srv_getKey e in f sm p |>) sm in
      let sm := on_if (fun i => i <| eapSessionId := let? f := srv_getSessionId e in f sm p |>) sm in
      Returns (sm <| methodState := METHOD_END |>)
    else Returns (sm <| methodState := METHOD_CONTINUE |>))).

(** The loop of the label [try_another_method].  Every configured method is tried once, so that
    [EAP_MAX_METHODS + 2] rounds are enough if the data of EAP-Identity can be allocated. *)
(* eap_server.c SM_STATE(EAP, PROPOSE_METHOD) *)
Fixpoint try_another_method (fuel : nat) (sm : eap_sm) : result eap_sm :=
  match fuel with
  | O => OutOfFuel
  | S fuel =>
      let '(vendor, type, sm) := eap_sm_Policy_getNextMethod sm in
      let sm := sm <| currentMethod := if vendor =? EAP_VENDOR_IETF then type else EAP_TYPE_EXPANDED |> in
      let sm := reset_method sm <| m := eap_server_get_eap_method vendor type |> in
      match m sm with
      | Some e =>
          let '(p, v) := srv_init e sm in
          let sm := store_method_vars v sm <| eap_method_priv := p |> in
          match p with
          | None => try_another_method fuel (sm <| m := None |> <| currentMethod := EAP_TYPE_NONE |>)
          | Some _ =>
              Returns (sm <| methodState :=
                if (currentMethod sm =? EAP_TYPE_IDENTITY) || (currentMethod sm =? EAP_TYPE_NOTIFICATION)
                then METHOD_CONTINUE else METHOD_PROPOSED |>)
          end
      | None => Returns (sm <| decision := DECISION_FAILURE |>)
      end
  end.

(* eap_server.c SM_STATE(EAP, PROPOSE_METHOD) *)
Definition EAP_PROPOSE_METHOD_Enter (global : bool) (sm : eap_sm) : result eap_sm :=
  let sm := sm_entry global EAP_PROPOSE_METHOD sm <| try_initiate_reauth := false |> in
  try_another_method (EAP_MAX_METHODS + 2) sm.

(** The list of the Nak; [None] when the response is an expanded Nak. *)
(* eap_server.c SM_STATE(EAP, NAK) @614-626 *)
Definition nak_list_of (resp : wpabuf) : option bytes :=
  let nak := wpabuf_head resp in
  let len := Z.min (hdr_length nak) (wpabuf_len resp) - sizeof_eap_hdr in
  let pos := drop 4 nak in
  if byte_at pos 0 =? EAP_TYPE_NAK then Some (take (Z.to_nat (len - 1)) (drop 1 pos)) else None.

(* eap_server.c SM_STATE(EAP, NAK) *)
Definition EAP_NAK_Enter (global : bool) (sm : eap_sm) : result eap_sm :=
  let sm := sm_entry global EAP_NAK sm in
  let! sm :=
    match eap_method_priv sm with
    | Some _ => deref (m sm) (fun _ => Returns (sm <| eap_method_priv := None |>))
    | None => Returns sm
    end in
  let sm := sm <| m := None |> in
  match eapRespData (eap_if sm) with
  | Some resp =>
      if negb (eap_hdr_len_valid (Some resp) 1) then Returns sm
      else Returns (eap_sm_Policy_update (nak_list_of resp) sm)
  | None => Returns sm
  end.

(* eap_server.c SM_STATE(EAP, SELECT_ACTION) *)
Definition EAP_SELECT_ACTION_Enter (global : bool) (sm : eap_sm) : result eap_sm :=
  let! r := eap_sm_Policy_getDecision (sm_entry global EAP_SELECT_ACTION sm) in
  let '(d, sm) := r : policy_decision * eap_sm in
  Returns (sm <| decision := d |>).

(* eap_server.c SM_STATE(EAP, TIMEOUT_FAILURE) *)
Definition EAP_TIMEOUT_FAILURE_Enter (global : bool) (sm : eap_sm) : eap_sm :=
  sm ▸ sm_entry global EAP_TIMEOUT_FAILURE ▸ on_if (fun i => i <| eapTimeout := true |>).

(* eap_server.c SM_STATE(EAP, FAILURE) *)
Definition EAP_FAILURE_Enter (global : bool) (sm : eap_sm) : eap_sm :=
  let sm := sm_entry global EAP_FAILURE sm in
  on_if (fun i => i <| eapReqData := eap_sm_buildFailure (currentId sm) |> <| eapFail := true |>)
    (sm <| lastReqData := None |>).

(* eap_server.c SM_STATE(EAP, SUCCESS) *)
Definition EAP_SUCCESS_Enter (global : bool) (sm : eap_sm) : eap_sm :=
  let sm := sm_entry global EAP_SUCCESS sm in
  on_if (fun i => (if bool_decide (is_Some (eapKeyData i)) then i <| eapKeyAvailable := true |> else i)
                    <| eapReqData := eap_sm_buildSuccess (currentId sm) |> <| eapSuccess := true |>)
    (sm <| lastReqData := None |>).

(* eap_server.c SM_STATE(EAP, INITIATE_REAUTH_START) *)
Definition EAP_INITIATE_REAUTH_START_Enter (global : bool) (sm : eap_sm) : eap_sm :=
  let sm := sm_entry global EAP_INITIATE_REAUTH_START sm
              <| initiate_reauth_start_sent := true |> <| try_initiate_reauth := true |> in
  let '(id, sm) := eap_sm_nextId (currentId sm) sm in
  let sm := sm <| currentId := id |> <| lastId := id |> in
  on_if (fun i => i <| eapReqData := eap_sm_buildInitiateReauthStart id |>) (sm <| lastReqData := None |>).

(** *** Pass-through *)

(* eap_server.c SM_STATE(EAP, INITIALIZE_PASSTHROUGH) *)
Definition EAP_INITIALIZE_PASSTHROUGH_Enter (global : bool) (sm : eap_sm) : eap_sm :=
  on_if (fun i => i <| aaaEapRespData := None |>)
    (sm_entry global EAP_INITIALIZE_PASSTHROUGH sm <| try_initiate_reauth := false |>).

(* eap_server.c SM_STATE(EAP, IDLE2) *)
Definition EAP_IDLE2_Enter (global : bool) (sm : eap_sm) : eap_sm :=
  sm ▸ sm_entry global EAP_IDLE2 ▸ set_retransWhile.

(* eap_server.c SM_STATE(EAP, RETRANSMIT2) *)
Definition EAP_RETRANSMIT2_Enter (global : bool) (sm : eap_sm) : eap_sm :=
  sm ▸ sm_entry global EAP_RETRANSMIT2 ▸ retransmit.

(* eap_server.c SM_STATE(EAP, RECEIVED2) *)
Definition EAP_RECEIVED2_Enter (global : bool) (sm : eap_sm) : eap_sm :=
  let sm := sm_entry global EAP_RECEIVED2 sm in eap_sm_parseEapResp (eapRespData (eap_if sm)) sm.

(* eap_server.c SM_STATE(EAP, DISCARD2) *)
Definition EAP_DISCARD2_Enter (global : bool) (sm : eap_sm) : eap_sm := sm ▸ sm_entry global EAP_DISCARD2 ▸ discard.

(* eap_server.c SM_STATE(EAP, SEND_REQUEST2) *)
Definition EAP_SEND_REQUEST2_Enter (global : bool) (sm : eap_sm) : eap_sm :=
  send_request (sm_entry global EAP_SEND_REQUEST2 sm <| retransCount := 0 |>).

(* eap_server.c SM_STATE(EAP, AAA_REQUEST) *)
Definition EAP_AAA_REQUEST_Enter (global : bool) (sm : eap_sm) : eap_sm :=
  sm ▸ sm_entry global EAP_AAA_REQUEST
     ▸ on_if (fun i => i <| aaaEapRespData := (eap_copy_buf (aaaEapRespData i) (eapRespData i)).1 |>).

(** [eap_copy_buf(&eapReqData, aaaEapReqData)] *)
(* eap_server.c SM_STATE(EAP, SUCCESS2) @1141-1141 *)
Definition copy_aaa_request : eap_sm -> eap_sm :=
  on_if (fun i => i <| eapReqData := (eap_copy_buf (eapReqData i) (aaaEapReqData i)).1 |>).

(* eap_server.c SM_STATE(EAP, AAA_RESPONSE) *)
Definition EAP_AAA_RESPONSE_Enter (global : bool) (sm : eap_sm) : eap_sm :=
  let sm := copy_aaa_request (sm_entry global EAP_AAA_RESPONSE sm) in
  sm <| currentId := eap_sm_getId (eapReqData (eap_if sm)) |> <| methodTimeout := aaaMethodTimeout (eap_if sm) |>.

(* eap_server.c SM_STATE(EAP, AAA_IDLE) *)
Definition EAP_AAA_IDLE_Enter (global : bool) (sm : eap_sm) : eap_sm :=
  sm ▸ sm_entry global EAP_AAA_IDLE
     ▸ on_if (fun i => i <| aaaFail := false |> <| aaaSuccess := false |> <| aaaEapReq := false |>
                         <| aaaEapNoReq := false |> <| aaaEapResp := true |>).

(* eap_server.c SM_STATE(EAP, TIMEOUT_FAILURE2) *)
Definition EAP_TIMEOUT_FAILURE2_Enter (global : bool) (sm : eap_sm) : eap_sm :=
  sm ▸ sm_entry global EAP_TIMEOUT_FAILURE2 ▸ on_if (fun i => i <| eapTimeout := true |>).

(* eap_server.c SM_STATE(EAP, FAILURE2) *)
Definition EAP_FAILURE2_Enter (global : bool) (sm : eap_sm) : eap_sm :=
  sm ▸ sm_entry global EAP_FAILURE2 ▸ copy_aaa_request ▸ on_if (fun i => i <| eapFail := true |>).

(* eap_server.c SM_STATE(EAP, SUCCESS2) *)
Definition EAP_SUCCESS2_Enter (global : bool) (sm : eap_sm) : eap_sm :=
  sm ▸ sm_entry global EAP_SUCCESS2 ▸ copy_aaa_request
     ▸ on_if (fun i => i <| eapKeyAvailable := aaaEapKeyAvailable i |>
                         <| eapKeyData := if aaaEapKeyAvailable i then eap_copy_data (eapKeyData i) (aaaEapKeyData i)
                                          else None |>
                         <| eapSuccess := true |>)
     ▸ (fun sm => sm <| start_reauth := true |>).

(** ** Transitions *)

(** A legacy Nak, or an expanded one of IETF. *)
(* eap_server.c SM_STEP(EAP) @1236-1239 *)
Definition is_nak (sm : eap_sm) : bool :=
  (respMethod sm =? EAP_TYPE_NAK)
  || ((respMethod sm =? EAP_TYPE_EXPANDED) && (respVendor sm =? EAP_VENDOR_IETF)
      && (respVendorMethod sm =? EAP_TYPE_NAK)).

(** A response of the current method, plain or expanded. *)
(* eap_server.c SM_STEP(EAP) @1243-1246 *)
Definition is_current (sm : eap_sm) : bool :=
  (respMethod sm =? currentMethod sm)
  || ((respMethod sm =? EAP_TYPE_EXPANDED) && (respVendor sm =? EAP_VENDOR_IETF)
      && (respVendorMethod sm =? currentMethod sm)).

(** The [switch] of SM_STEP(EAP); with CONFIG_ERP off, INITIATE_RECEIVED is never entered. *)
(* eap_server.c SM_STEP(EAP) @1189-1426 *)
Definition eap_sm_step_local (sm : eap_sm) : result eap_sm :=
  let i := eap_if sm in
  match EAP_state sm with
  | EAP_INITIALIZE =>
      if backend_auth (cfg sm) then
        if negb (rxResp sm) then EAP_SELECT_ACTION_Enter false sm
        else if is_nak sm then EAP_NAK_Enter false sm
        else Returns (EAP_PICK_UP_METHOD_Enter false sm)
      else EAP_SELECT_ACTION_Enter false sm
  | EAP_PICK_UP_METHOD =>
      if currentMethod sm =? EAP_TYPE_NONE then EAP_SELECT_ACTION_Enter false sm
      else EAP_METHOD_RESPONSE_Enter false sm
  | EAP_DISABLED => Returns (if portEnabled i then EAP_INITIALIZE_Enter false sm else sm)
  | EAP_IDLE =>
      if retransWhile i =? 0 then
        if try_initiate_reauth sm then EAP_SELECT_ACTION_Enter false (sm <| try_initiate_reauth := false |>)
        else Returns (EAP_RETRANSMIT_Enter false sm)
      else Returns (if eapResp i then EAP_RECEIVED_Enter false sm else sm)
  | EAP_RETRANSMIT =>
      Returns (if MaxRetrans sm <? retransCount sm then EAP_TIMEOUT_FAILURE_Enter false sm
               else EAP_IDLE_Enter false sm)
  | EAP_RECEIVED =>
      if rxResp sm && (respId sm =? currentId sm) && is_nak sm
         && bool_decide (methodState sm = METHOD_PROPOSED)
      then EAP_NAK_Enter false sm
      else if rxResp sm && (respId sm =? currentId sm) && is_current sm
      then EAP_INTEGRITY_CHECK_Enter false sm
      else Returns (EAP_DISCARD_Enter false sm)
  | EAP_DISCARD => Returns (EAP_IDLE_Enter false sm)
  | EAP_SEND_REQUEST => Returns (EAP_IDLE_Enter false sm)
  | EAP_INTEGRITY_CHECK =>
      if ignore sm then Returns (EAP_DISCARD_Enter false sm) else EAP_METHOD_RESPONSE_Enter false sm
  | EAP_METHOD_REQUEST =>
      match m sm with
      | None => Returns (EAP_FAILURE_Enter false sm)
      | Some _ =>
          let sm := EAP_SEND_REQUEST_Enter false sm in
          Returns (if eapNoReq (eap_if sm) && negb (eapReq (eap_if sm)) then EAP_FAILURE_Enter false sm else sm)
      end
  | EAP_METHOD_RESPONSE =>
      if bool_decide (methodState sm = METHOD_END) then EAP_SELECT_ACTION_Enter false sm
      else match method_pending sm with
           | METHOD_PENDING_WAIT => Returns sm
           | METHOD_PENDING_CONT =>
               EAP_METHOD_RESPONSE_Enter false (sm <| method_pending := METHOD_PENDING_NONE |>)
           | METHOD_PENDING_NONE => EAP_METHOD_REQUEST_Enter false sm
           end
  | EAP_PROPOSE_METHOD =>
      match method_pending sm with
      | METHOD_PENDING_WAIT =>
          Returns (if 0 <? user_eap_method_index sm
                   then sm <| user_eap_method_index := user_eap_method_index sm - 1 |> else sm)
      | METHOD_PENDING_CONT =>
          EAP_PROPOSE_METHOD_Enter false (sm <| method_pending := METHOD_PENDING_NONE |>)
      | METHOD_PENDING_NONE => EAP_METHOD_REQUEST_Enter false sm
      end
  | EAP_NAK => EAP_SELECT_ACTION_Enter false sm
  | EAP_SELECT_ACTION =>
      match decision sm with
      | DECISION_FAILURE => Returns (EAP_FAILURE_Enter false sm)
      | DECISION_SUCCESS => Returns (EAP_SUCCESS_Enter false sm)
      | DECISION_PASSTHROUGH => Returns (EAP_INITIALIZE_PASSTHROUGH_Enter false sm)
      | DECISION_INITIATE_REAUTH_START => Returns (EAP_INITIATE_REAUTH_START_Enter false sm)
      | DECISION_CONTINUE => EAP_PROPOSE_METHOD_Enter false sm
      end
  | EAP_INITIATE_REAUTH_START => Returns (EAP_SEND_REQUEST_Enter false sm)
  | EAP_INITIATE_RECEIVED => if negb (eap_server (cfg sm)) then EAP_SELECT_ACTION_Enter false sm else Returns sm
  | EAP_INITIALIZE_PASSTHROUGH =>
      Returns (if currentId sm =? -1 then EAP_AAA_IDLE_Enter false sm else EAP_AAA_REQUEST_Enter false sm)
  | EAP_IDLE2 =>
      Returns (if eapResp i then EAP_RECEIVED2_Enter false sm
               else if retransWhile i =? 0 then EAP_RETRANSMIT2_Enter false sm else sm)
  | EAP_RETRANSMIT2 =>
      Returns (if MaxRetrans sm <? retransCount sm then EAP_TIMEOUT_FAILURE2_Enter false sm
               else EAP_IDLE2_Enter false sm)
  | EAP_RECEIVED2 =>
      Returns (if rxResp sm && (respId sm =? currentId sm) then EAP_AAA_REQUEST_Enter false sm
               else EAP_DISCARD2_Enter false sm)
  | EAP_DISCARD2 => Returns (EAP_IDLE2_Enter false sm)
  | EAP_SEND_REQUEST2 => Returns (EAP_IDLE2_Enter false sm)
  | EAP_AAA_REQUEST => Returns (EAP_AAA_IDLE_Enter false sm)
  | EAP_AAA_RESPONSE => Returns (EAP_SEND_REQUEST2_Enter false sm)
  | EAP_AAA_IDLE =>
      Returns (if aaaFail i then EAP_FAILURE2_Enter false sm
               else if aaaSuccess i then EAP_SUCCESS2_Enter false sm
               else if aaaEapReq i then EAP_AAA_RESPONSE_Enter false sm
               else if aaaTimeout i then EAP_TIMEOUT_FAILURE2_Enter false sm else sm)
  | EAP_SUCCESS | EAP_FAILURE | EAP_TIMEOUT_FAILURE | EAP_SUCCESS2 | EAP_FAILURE2 | EAP_TIMEOUT_FAILURE2 =>
      Returns sm
  end.

(** The configured numbers of rounds are unsigned, as the counters are. *)
(* eap_server.c SM_STEP(EAP) @1166-1189 *)
Definition EAP_Step (sm : eap_sm) : result eap_sm :=
  let i := eap_if sm in
  if eapRestart i && portEnabled i then Returns (EAP_INITIALIZE_Enter true sm)
  else if negb (portEnabled i) then Returns (EAP_DISABLED_Enter true sm)
  else if u32 (max_auth_rounds (cfg sm)) <? num_rounds sm then
    Returns (if num_rounds sm =? u32 (max_auth_rounds (cfg sm) + 1)
             then EAP_FAILURE_Enter true (sm <| num_rounds := u32 (num_rounds sm + 1) |>) else sm)
  else if u32 (max_auth_rounds_short (cfg sm)) <? num_rounds_short sm then
    Returns (if num_rounds_short sm =? u32 (max_auth_rounds_short (cfg sm) + 1)
             then EAP_FAILURE_Enter true (sm <| num_rounds_short := u32 (num_rounds_short sm + 1) |>) else sm)
  else eap_sm_step_local sm.

(* eap_server.c eap_server_sm_step *)
Fixpoint eap_server_sm_step_loop (fuel : nat) (res : bool) (sm : eap_sm) : result (bool * eap_sm) :=
  match fuel with
  | O => OutOfFuel
  | S fuel =>
      let! sm := EAP_Step (sm <| changed := false |>) in
      if changed sm then eap_server_sm_step_loop fuel true sm else Returns (res, sm)
  end.

(** Passes that are always enough ([eap_server_sm_step_terminates]). *)
Definition SERVER_STEP_FUEL : nat := 200.

(* eap_server.c eap_server_sm_step *)
Definition eap_server_sm_step (sm : eap_sm) : result (bool * eap_sm) :=
  eap_server_sm_step_loop SERVER_STEP_FUEL false sm.

(** ** External operations *)

(** [allocated]: os_zalloc() gave the structure, which is zero-initialised: EAP_DISABLED is
    the first state. *)
(* eap_server.c eap_server_sm_init *)
Definition eap_server_sm_init (allocated : bool) (conf : eap_config) : option eap_sm :=
  guard! allocated;
  Some (EapSm EAP_DISABLED 5
    (EapEapolInterface false None false 0 false 0 0 false false false false false None None None false
       false false false false None None false 0 false None false)
    EAP_TYPE_NONE 0 METHOD_PROPOSED 0 None 0 false false 0 EAP_TYPE_NONE 0 0 false DECISION_SUCCESS
    None false None None 0 0 None 0 conf false 0 0 METHOD_PENDING_NONE None None false false false 0).

(* eap_server.c eap_sm_notify_cached *)
Definition eap_sm_notify_cached (sm : eap_sm) : eap_sm := sm <| EAP_state := EAP_SUCCESS |>.

(* eap_server.c eap_sm_pending_cb *)
Definition eap_sm_pending_cb (sm : eap_sm) : eap_sm :=
  if bool_decide (method_pending sm = METHOD_PENDING_WAIT) then sm <| method_pending := METHOD_PENDING_CONT |> else sm.

(* eap_server.c eap_sm_method_pending *)
Definition eap_sm_method_pending (sm : eap_sm) : bool := bool_decide (method_pending sm = METHOD_PENDING_WAIT).

(* eap_server.c eap_get_identity *)
Definition eap_get_identity (sm : eap_sm) : option bytes := identity sm.

(* eap_server.c eap_get_method *)
Definition eap_get_method (sm : eap_sm) : option string := em_name <$> m sm.

(* eap_server.c eap_get_interface *)
Definition eap_get_interface (sm : eap_sm) : eap_eapol_interface := eap_if sm.

End EapServer.
