(* ===== verification/EapServerMethods.v ===== *)
(** * EAP server methods (src/eap_server/eap_server_identity.c, eap_server_md5.c,
    eap_server_mschapv2.c, eap_server_methods.c)

    EAP-Identity, EAP-MD5 and EAP-MSCHAPv2 of the server, as an instance of the interface of
    the state machine.  The reset functions only free memory. *)

From stdpp Require Import strings.
From S2P Require Import Prelude UtilsCommon Wpabuf EapCommon MsFuncs EapMschapv2 EapServer.

(** ** The list of methods (eap_server_methods.c) *)

(** The result and the list afterwards; the version of the interface is always the right one. *)
(* eap_server_methods.c eap_server_method_register *)
Definition eap_server_method_register (method : eap_method) (l : list eap_method) : Z * list eap_method :=
  if existsb (fun e => ((em_vendor e =? em_vendor method) && (em_method e =? em_method method))
                       || String.eqb (em_name e) (em_name method)) l
  then (-2, l) else (0, l ++ [method]).

(* eap_server_methods.c eap_server_get_type *)
Definition eap_server_get_type (l : list eap_method) (name : string) : Z * Z :=
  match List.find (fun e => String.eqb (em_name e) name) l with
  | Some e => (em_vendor e, em_method e)
  | None => (EAP_VENDOR_IETF, EAP_TYPE_NONE)
  end.

(* eap_server_methods.c eap_server_get_name *)
Definition eap_server_get_name (l : list eap_method) (vendor type : Z) : string :=
  if (vendor =? EAP_VENDOR_IETF) && (type =? EAP_TYPE_EXPANDED) then "expanded"
  else match List.find (fun e => (em_vendor e =? vendor) && (em_method e =? type)) l with
       | Some e => em_name e
       | None => "unknown"
       end.

(* eap_server_identity.c eap_server_identity_register *)
Definition eap_server_identity_register : eap_method := EapMethod EAP_VENDOR_IETF EAP_TYPE_IDENTITY "Identity".
(* eap_server_md5.c eap_server_md5_register *)
Definition eap_server_md5_register : eap_method := EapMethod EAP_VENDOR_IETF EAP_TYPE_MD5 "MD5".
(* eap_server_mschapv2.c eap_server_mschapv2_register *)
Definition eap_server_mschapv2_register : eap_method := EapMethod EAP_VENDOR_IETF EAP_TYPE_MSCHAPV2 "MSCHAPV2".

(** What a method leaves alone. *)
Definition vars_of {priv} (sm : eap_sm priv) : method_vars :=
  MethodVars (identity sm) (identity_len sm) (user sm) (user_eap_method_index sm) (update_user sm)
    (method_pending sm) (n_env sm).
#[export] Instance eta_method_vars : Eta method_vars := fun v =>
  MethodVars (mv_identity v) (mv_identity_len v) (mv_user v) (mv_user_eap_method_index v)
    (mv_update_user v) (mv_method_pending v) (mv_n_env v).
Definition asked (v : method_vars) : method_vars := v <| mv_n_env := S (mv_n_env v) |>.

(** CONTINUE, SUCCESS and FAILURE of EAP-Identity and EAP-MD5. *)
(* eap_server_md5.c CONTINUE @20-20 *)
Inductive simple_state := ST_CONTINUE | ST_SUCCESS | ST_FAILURE.
#[export] Instance simple_state_eq_dec : EqDecision simple_state.
Proof. solve_decision. Defined.

(** ** EAP-Identity *)

(* eap_server_identity.c struct eap_identity_data *)
Record eap_identity_data := EapIdentityData { id_state : simple_state; pick_up : bool }.

Section Identity.
Context {priv : Type} `{ServerEnv} `{OsAlloc}.
Abbreviation eap_sm := (eap_sm priv).

(* eap_server_identity.c eap_identity_init *)
Definition eap_identity_init : option eap_identity_data :=
  guard! malloc_ok 8; Some (EapIdentityData ST_CONTINUE false).

(* eap_server_identity.c eap_identity_initPickUp *)
Definition eap_identity_initPickUp : option eap_identity_data :=
  let? data := eap_identity_init in Some (EapIdentityData (id_state data) true).

(* eap_server_identity.c eap_identity_buildReq *)
Definition eap_identity_buildReq (data : eap_identity_data) (id : Z) : eap_identity_data * option wpabuf :=
  let req_data := match get_eap_req_id_text with Some t => t | None => [] end in
  match eap_msg_alloc EAP_VENDOR_IETF EAP_TYPE_IDENTITY (zlen req_data) EAP_CODE_REQUEST id with
  | None => (EapIdentityData ST_FAILURE (pick_up data), None)
  | Some req => (data, Some (wpabuf_put_data req req_data))
  end.

(* eap_server_identity.c eap_identity_check *)
Definition eap_identity_check (respData : option wpabuf) : bool :=
  bool_decide (eap_hdr_validate EAP_VENDOR_IETF EAP_TYPE_IDENTITY respData = None).

(* eap_server_identity.c eap_identity_process *)
Definition eap_identity_process (sm : eap_sm) (data : eap_identity_data) (respData : option wpabuf)
  : eap_identity_data * method_vars :=
  if pick_up data && eap_identity_check respData then (EapIdentityData ST_FAILURE true, vars_of sm) else
  match eap_hdr_validate EAP_VENDOR_IETF EAP_TYPE_IDENTITY respData with
  | None => (EapIdentityData (id_state data) false, vars_of sm)
  | Some (pos, len) =>
      let v := vars_of sm in
      let v := if bool_decide (is_Some (identity sm)) then v <| mv_update_user := true |> else v in
      if malloc_ok (if len =? 0 then 1 else len)
      then (EapIdentityData ST_SUCCESS false,
            v <| mv_identity := Some (take (Z.to_nat len) pos) |> <| mv_identity_len := len |>)
      else (EapIdentityData ST_FAILURE false, v <| mv_identity := None |>)
  end.
End Identity.

(** ** EAP-MD5 *)

(* eap_server_md5.c CHALLENGE_LEN *)
Definition CHALLENGE_LEN : nat := 16.

(* eap_server_md5.c struct eap_md5_data *)
Record eap_md5_data := EapMd5Data { md5_challenge : bytes; md5_state : simple_state }.

Section Md5.
Context {priv : Type} `{ServerEnv} `{MsCrypto} `{OsAlloc}.
Abbreviation eap_sm := (eap_sm priv).

(* eap_server_md5.c eap_md5_init *)
Definition eap_md5_init : option eap_md5_data :=
  guard! malloc_ok 20; Some (EapMd5Data (replicate CHALLENGE_LEN 0) ST_CONTINUE).

(* eap_server_md5.c eap_md5_buildReq *)
Definition eap_md5_buildReq (sm : eap_sm) (data : eap_md5_data) (id : Z)
  : eap_md5_data * method_vars * option wpabuf :=
  let v := asked (vars_of sm) in
  match server_random (n_env sm) CHALLENGE_LEN with
  | None => (EapMd5Data (md5_challenge data) ST_FAILURE, v, None)
  | Some challenge =>
      match eap_msg_alloc EAP_VENDOR_IETF EAP_TYPE_MD5 (1 + 16) EAP_CODE_REQUEST id with
      | None => (EapMd5Data challenge ST_FAILURE, v, None)
      | Some req => (EapMd5Data challenge ST_CONTINUE, v, Some (wpabuf_put_data (wpabuf_put_u8 req 16) challenge))
      end
  end.

(* eap_server_md5.c eap_md5_check *)
Definition eap_md5_check (respData : option wpabuf) : bool :=
  match eap_hdr_validate EAP_VENDOR_IETF EAP_TYPE_MD5 respData with
  | None => true
  | Some (pos, len) => (len <? 1) || negb (byte_at pos 0 =? 16) || (len <? 1 + 16)
  end.

(* eap_server_md5.c eap_md5_process *)
Definition eap_md5_process (sm : eap_sm) (data : eap_md5_data) (respData : option wpabuf) : eap_md5_data :=
  match (let? u := user sm in let? p := password u in if password_hash u then None else Some p) with
  | None => EapMd5Data (md5_challenge data) ST_FAILURE
  | Some password =>
      match eap_hdr_validate EAP_VENDOR_IETF EAP_TYPE_MD5 respData with
      | None => data
      | Some (pos, plen) =>
          if negb (byte_at pos 0 =? 16) || (plen <? 1 + 16) then data else
          let id := match respData with Some r => eap_get_id r | None => 0 end in
          let hash := chap_md5 id password (md5_challenge data) in
          if os_memcmp_const hash (take 16 (drop 1 pos)) =? 0
          then EapMd5Data (md5_challenge data) ST_SUCCESS
          else EapMd5Data (md5_challenge data) ST_FAILURE
      end
  end.
End Md5.

(** ** EAP-MSCHAPv2 *)

(* eap_server_mschapv2.c CHALLENGE @51-51 *)
Inductive mschapv2_state := MS_CHALLENGE | MS_SUCCESS_REQ | MS_FAILURE_REQ | MS_SUCCESS | MS_FAILURE.
#[export] Instance mschapv2_state_eq_dec : EqDecision mschapv2_state.
Proof. solve_decision. Defined.

(* eap_server_mschapv2.c struct eap_mschapv2_data *)
Record eap_mschapv2_data := MschapV2Data {
  ms_auth_challenge : bytes;
  auth_challenge_from_tls : bool;
  ms_peer_challenge : option bytes;
  ms_auth_response : bytes;
  ms_state : mschapv2_state;
  resp_mschapv2_id : Z;
  ms_master_key : bytes;
  ms_master_key_valid : bool
}.
#[export] Instance eta_eap_mschapv2_data : Eta eap_mschapv2_data := fun d =>
  MschapV2Data (ms_auth_challenge d) (auth_challenge_from_tls d) (ms_peer_challenge d) (ms_auth_response d)
    (ms_state d) (resp_mschapv2_id d) (ms_master_key d) (ms_master_key_valid d).

(** The text of a failed authentication. *)
(* eap_server_mschapv2.c eap_mschapv2_build_failure_req @189-190 *)
Definition failure_message : bytes :=
  [69;61;54;57;49;32;82;61;48;32;67;61] ++ replicate 32 48 ++ [32;86;61;51;32;77;61;70;65;73;76;69;68].

Section Mschapv2.
Context {priv : Type} `{ServerEnv} `{MsCrypto} `{OsAlloc}.
Abbreviation eap_sm := (eap_sm priv).

(* eap_server_mschapv2.c eap_mschapv2_init *)
Definition eap_mschapv2_init (sm : eap_sm) : option eap_mschapv2_data :=
  guard! malloc_ok 80;
  let data := MschapV2Data (replicate 16 0) false None (replicate 20 0) MS_CHALLENGE 0 (replicate 16 0) false in
  let data := match auth_challenge sm with
              | Some c => data <| ms_auth_challenge := take CHALLENGE_LEN c |> <| auth_challenge_from_tls := true |>
              | None => data
              end in
  match peer_challenge sm with
  | Some c => guard! malloc_ok 16; Some (data <| ms_peer_challenge := Some (take CHALLENGE_LEN c) |>)
  | None => Some data
  end.

(* eap_server_mschapv2.c struct eap_mschapv2_hdr *)
Definition eap_mschapv2_hdr (op_code mschapv2_id ms_len : Z) : bytes :=
  [op_code; u8 mschapv2_id] ++ put_be16 ms_len.

(** With a challenge from TLS the sixteen bytes of the message stay zero. *)
(* eap_server_mschapv2.c eap_mschapv2_build_challenge *)
Definition eap_mschapv2_build_challenge (sm : eap_sm) (data : eap_mschapv2_data) (id : Z)
  : eap_mschapv2_data * method_vars * option wpabuf :=
  let '(data, v, ok) :=
    if auth_challenge_from_tls data then (data, vars_of sm, true)
    else match server_random (n_env sm) CHALLENGE_LEN with
         | Some c => (data <| ms_auth_challenge := c |>, asked (vars_of sm), true)
         | None => (data, asked (vars_of sm), false)
         end in
  if negb ok then (data <| ms_state := MS_FAILURE |>, v, None) else
  let ms_len := 4 + 1 + 16 + zlen (server_id (cfg sm)) in
  match eap_msg_alloc EAP_VENDOR_IETF EAP_TYPE_MSCHAPV2 ms_len EAP_CODE_REQUEST id with
  | None => (data <| ms_state := MS_FAILURE |>, v, None)
  | Some req =>
      let req := wpabuf_put req (eap_mschapv2_hdr MSCHAPV2_OP_CHALLENGE id ms_len) in
      let req := wpabuf_put_u8 req 16 in
      let req := if auth_challenge_from_tls data then wpabuf_put req (replicate 16 0)
                 else wpabuf_put_data req (ms_auth_challenge data) in
      (data, v, Some (wpabuf_put_data req (server_id (cfg sm))))
  end.

(* eap_server_mschapv2.c eap_mschapv2_build_success_req *)
Definition eap_mschapv2_build_success_req (data : eap_mschapv2_data) (id : Z)
  : eap_mschapv2_data * option wpabuf :=
  let message := [79; 75] in
  let ms_len := 4 + 2 + 2 * 20 + 1 + 2 + zlen message in
  match eap_msg_alloc EAP_VENDOR_IETF EAP_TYPE_MSCHAPV2 ms_len EAP_CODE_REQUEST id with
  | None => (data <| ms_state := MS_FAILURE |>, None)
  | Some req =>
      let req := wpabuf_put req (eap_mschapv2_hdr MSCHAPV2_OP_SUCCESS (resp_mschapv2_id data) ms_len) in
      let req := wpabuf_put_u8 (wpabuf_put_u8 req 83) 61 in
      let req := wpabuf_put req (wpa_snprintf_hex_uppercase (2 * 20 + 1) (ms_auth_response data)).2 in
      let req := wpabuf_put_u8 (wpabuf_put_u8 (wpabuf_put_u8 req 32) 77) 61 in
      (data, Some (wpabuf_put_data req message))
  end.

(* eap_server_mschapv2.c eap_mschapv2_build_failure_req *)
Definition eap_mschapv2_build_failure_req (data : eap_mschapv2_data) (id : Z)
  : eap_mschapv2_data * option wpabuf :=
  let ms_len := 4 + zlen failure_message in
  match eap_msg_alloc EAP_VENDOR_IETF EAP_TYPE_MSCHAPV2 ms_len EAP_CODE_REQUEST id with
  | None => (data <| ms_state := MS_FAILURE |>, None)
  | Some req =>
      let req := wpabuf_put req (eap_mschapv2_hdr MSCHAPV2_OP_FAILURE (resp_mschapv2_id data) ms_len) in
      (data, Some (wpabuf_put_data req failure_message))
  end.

(* eap_server_mschapv2.c eap_mschapv2_buildReq *)
Definition eap_mschapv2_buildReq (sm : eap_sm) (data : eap_mschapv2_data) (id : Z)
  : eap_mschapv2_data * method_vars * option wpabuf :=
  match ms_state data with
  | MS_CHALLENGE => eap_mschapv2_build_challenge sm data id
  | MS_SUCCESS_REQ => let '(d, r) := eap_mschapv2_build_success_req data id in (d, vars_of sm, r)
  | MS_FAILURE_REQ => let '(d, r) := eap_mschapv2_build_failure_req data id in (d, vars_of sm, r)
  | _ => (data, vars_of sm, None)
  end.

(* eap_server_mschapv2.c eap_mschapv2_check *)
Definition eap_mschapv2_check (data : eap_mschapv2_data) (respData : option wpabuf) : bool :=
  match eap_hdr_validate EAP_VENDOR_IETF EAP_TYPE_MSCHAPV2 respData with
  | None => true
  | Some (pos, len) =>
      if len <? 1 then true else
      let op_code := byte_at pos 0 in
      match ms_state data with
      | MS_CHALLENGE => negb (op_code =? MSCHAPV2_OP_RESPONSE)
      | MS_SUCCESS_REQ => negb (op_code =? MSCHAPV2_OP_SUCCESS) && negb (op_code =? MSCHAPV2_OP_FAILURE)
      | MS_FAILURE_REQ => negb (op_code =? MSCHAPV2_OP_FAILURE)
      | _ => false
      end
  end.

(** The response with the right NT-Response was received: the answer and the key are derived. *)
(* eap_server_mschapv2.c eap_mschapv2_process_response @413-441 *)
Definition accept_response (u : eap_user) (pw peer_challenge username nt_response : bytes)
    (data : eap_mschapv2_data) : eap_mschapv2_data :=
  let data := data <| ms_state := MS_SUCCESS_REQ |> in
  match (if password_hash u then Some pw else nt_password_hash pw) with
  | None => data <| ms_state := MS_FAILURE |>
  | Some pw_hash =>
      data <| ms_auth_response := generate_authenticator_response_pwhash pw_hash peer_challenge
                                    (ms_auth_challenge data) username nt_response |>
           <| ms_master_key := get_master_key (hash_nt_password_hash pw_hash) nt_response |>
           <| ms_master_key_valid := true |>
  end.

(** [u] and [pw]: the user and the password that eap_mschapv2_process() found.  Without an
    identity the loop over [username] reads through NULL unless [identity_len] is 0. *)
(* eap_server_mschapv2.c eap_mschapv2_process_response *)
Definition eap_mschapv2_process_response (sm : eap_sm) (u : eap_user) (pw : bytes)
    (data : eap_mschapv2_data) (respData : option wpabuf) : result eap_mschapv2_data :=
  match eap_hdr_validate EAP_VENDOR_IETF EAP_TYPE_MSCHAPV2 respData with
  | None => Returns data
  | Some (pos, len) =>
      if len <? 1 then Returns data else
      if (len <? 4 + 1 + 49) || negb (byte_at pos 0 =? MSCHAPV2_OP_RESPONSE) || negb (byte_at pos 4 =? 49)
      then Returns (data <| ms_state := MS_FAILURE |>) else
      let data := data <| resp_mschapv2_id := byte_at pos 1 |> in
      let peer_challenge := slice 5 16 pos in
      let nt_response := slice (5 + 24) 24 pos in
      let name := drop (5 + 49) (take (Z.to_nat len) pos) in
      let peer_challenge := match ms_peer_challenge data with Some c => c | None => peer_challenge end in
      let! username :=
        match identity sm with
        | Some i => Returns (mschapv2_remove_domain i)
        | None => if identity_len sm =? 0 then Returns [] else NullPointer
        end in
      let user := mschapv2_remove_domain name in
      if negb (bool_decide (username = user)) then Returns (data <| ms_state := MS_FAILURE |>) else
      let expected :=
        if password_hash u
        then Some (generate_nt_response_pwhash (ms_auth_challenge data) peer_challenge username pw)
        else generate_nt_response (ms_auth_challenge data) peer_challenge username pw in
      match expected with
      | None => Returns (data <| ms_state := MS_FAILURE |>)
      | Some expected =>
          if os_memcmp_const nt_response expected =? 0
          then Returns (accept_response u pw peer_challenge username nt_response data)
          else Returns (data <| ms_state := MS_FAILURE_REQ |>)
      end
  end.

(* eap_server_mschapv2.c eap_mschapv2_process_success_resp *)
Definition eap_mschapv2_process_success_resp (data : eap_mschapv2_data) (respData : option wpabuf) : eap_mschapv2_data :=
  match eap_hdr_validate EAP_VENDOR_IETF EAP_TYPE_MSCHAPV2 respData with
  | None => data
  | Some (pos, len) =>
      if len <? 1 then data else
      data <| ms_state := if byte_at pos 0 =? MSCHAPV2_OP_SUCCESS then MS_SUCCESS else MS_FAILURE |>
  end.

(* eap_server_mschapv2.c eap_mschapv2_process_failure_resp *)
Definition eap_mschapv2_process_failure_resp (data : eap_mschapv2_data) (respData : option wpabuf) : eap_mschapv2_data :=
  match eap_hdr_validate EAP_VENDOR_IETF EAP_TYPE_MSCHAPV2 respData with
  | None => data
  | Some (pos, len) => if len <? 1 then data else data <| ms_state := MS_FAILURE |>
  end.

(* eap_server_mschapv2.c eap_mschapv2_process *)
Definition eap_mschapv2_process (sm : eap_sm) (data : eap_mschapv2_data) (respData : option wpabuf)
  : result eap_mschapv2_data :=
  match (let? u := user sm in let? p := password u in Some (u, p)) with
  | None => Returns (data <| ms_state := MS_FAILURE |>)
  | Some (u, pw) =>
      match ms_state data with
      | MS_CHALLENGE => eap_mschapv2_process_response sm u pw data respData
      | MS_SUCCESS_REQ => Returns (eap_mschapv2_process_success_resp data respData)
      | MS_FAILURE_REQ => Returns (eap_mschapv2_process_failure_resp data respData)
      | _ => Returns data
      end
  end.

(* eap_server_mschapv2.c eap_mschapv2_isDone *)
Definition eap_mschapv2_isDone (data : eap_mschapv2_data) : bool :=
  bool_decide (ms_state data = MS_SUCCESS) || bool_decide (ms_state data = MS_FAILURE).

(* eap_server_mschapv2.c eap_mschapv2_getKey *)
Definition eap_mschapv2_getKey (data : eap_mschapv2_data) : option bytes :=
  if negb (bool_decide (ms_state data = MS_SUCCESS)) || negb (ms_master_key_valid data) then None else
  guard! malloc_ok (2 * 16);
  Some (get_asymetric_start_key (ms_master_key data) 16 false true
        ++ get_asymetric_start_key (ms_master_key data) 16 true true).

(* eap_server_mschapv2.c eap_mschapv2_isSuccess *)
Definition eap_mschapv2_isSuccess (data : eap_mschapv2_data) : bool := bool_decide (ms_state data = MS_SUCCESS).
End Mschapv2.

(** ** The methods as the state machine sees them *)

Inductive server_priv :=
| PrivIdentity (d : eap_identity_data) | PrivMd5 (d : eap_md5_data) | PrivMschapv2 (d : eap_mschapv2_data).

Definition is_identity (e : eap_method) : bool := em_method e =? EAP_TYPE_IDENTITY.
Definition is_md5 (e : eap_method) : bool := em_method e =? EAP_TYPE_MD5.

#[export] Instance password_server_methods `{ServerEnv} `{MsCrypto} `{OsAlloc} : ServerMethods server_priv := {
  server_methods := [eap_server_identity_register; eap_server_md5_register; eap_server_mschapv2_register];
  srv_init e sm :=
    (if is_identity e then let? d := eap_identity_init in Some (PrivIdentity d)
     else if is_md5 e then let? d := eap_md5_init in Some (PrivMd5 d)
     else let? d := eap_mschapv2_init sm in Some (PrivMschapv2 d), vars_of sm);
  srv_initPickUp e :=
    if is_identity e
    then Some (fun sm => (let? d := eap_identity_initPickUp in Some (PrivIdentity d), vars_of sm)) else None;
  srv_buildReq _ sm p id :=
    match p with
    | PrivIdentity d => let '(d, r) := eap_identity_buildReq d id in (PrivIdentity d, vars_of sm, r)
    | PrivMd5 d => let '(d, v, r) := eap_md5_buildReq sm d id in (PrivMd5 d, v, r)
    | PrivMschapv2 d => let '(d, v, r) := eap_mschapv2_buildReq sm d id in (PrivMschapv2 d, v, r)
    end;
  srv_getTimeout _ := None;
  srv_check _ :=
    Some (fun _ p resp =>
      match p with
      | PrivIdentity _ => eap_identity_check resp
      | PrivMd5 _ => eap_md5_check resp
      | PrivMschapv2 d => eap_mschapv2_check d resp
      end);
  srv_process _ sm p resp :=
    match p with
    | PrivIdentity d => let '(d, v) := eap_identity_process sm d resp in Returns (PrivIdentity d, v)
    | PrivMd5 d => Returns (PrivMd5 (eap_md5_process sm d resp), vars_of sm)
    | PrivMschapv2 d => let! d := eap_mschapv2_process sm d resp in Returns (PrivMschapv2 d, vars_of sm)
    end;
  srv_isDone _ _ p :=
    match p with
    | PrivIdentity d => negb (bool_decide (id_state d = ST_CONTINUE))
    | PrivMd5 d => negb (bool_decide (md5_state d = ST_CONTINUE))
    | PrivMschapv2 d => eap_mschapv2_isDone d
    end;
  srv_isSuccess _ _ p :=
    match p with
    | PrivIdentity d => bool_decide (id_state d = ST_SUCCESS)
    | PrivMd5 d => bool_decide (md5_state d = ST_SUCCESS)
    | PrivMschapv2 d => eap_mschapv2_isSuccess d
    end;
  srv_getKey e :=
    if is_identity e || is_md5 e then None
    else Some (fun _ p => match p with PrivMschapv2 d => eap_mschapv2_getKey d | _ => None end);
  srv_getSessionId _ := None
}.
