(* ===== verification/EapInterop.v ===== *)
(** * Peer and server of EAP-MSCHAPv2 together

    The two implementations of the repository, eap_peer/eap_mschapv2.c and
    eap_server/eap_server_mschapv2.c, authenticate each other and agree on the MSK.  And a
    whole EAP conversation of the two state machines, evaluated. *)

From stdpp Require Import strings.
From S2P Require Import Prelude UtilsCommon Wpabuf EapCommon EapServer EapServerMethods.
From S2P Require Import EapPeer HashMd MsFuncs EapMschapv2 EapPeerDemo EapMschapv2Props.

(** Names of the peer hide those of the server. *)
Module Srv := EapServerMethods.

(** Messages of the method, built with eap_msg_alloc() and read with eap_hdr_validate(). *)
Section Messages.
Context `{OsAlloc} (Hmalloc : forall n, malloc_ok n = true).

(** [m] is an EAP-MSCHAPv2 message with the identifier [id] and the data [payload]. *)
Definition is_msg (m : wpabuf) (id : Z) (payload : bytes) : Prop :=
  eap_hdr_validate EAP_VENDOR_IETF EAP_TYPE_MSCHAPV2 (Some m) = Some (payload, zlen payload)
  /\ eap_get_id m = id.

Lemma msg_built n code id payload : n = zlen payload -> is_byte id -> bytes_ok payload -> n <= 65000 ->
  exists b, eap_msg_alloc EAP_VENDOR_IETF EAP_TYPE_MSCHAPV2 n code id = Some b
    /\ is_msg (wpabuf_put b payload) id payload.
Proof.
  intros -> Hid Hp Hn. pose proof (zlen_nonneg payload).
  destruct (eap_msg_alloc EAP_VENDOR_IETF EAP_TYPE_MSCHAPV2 (zlen payload) code id) as [b|] eqn:E.
  - exists b. split; [done|]. refine (proj2 (eap_msg_filled _ _ code id payload b _ Hid Hp _ E)).
    + split; [|split]; done.
    + unfold is_uint, eap_msg_len, sizeof_eap_hdr, EAP_VENDOR_IETF. cbn [Z.eqb]. lia.
  - unfold eap_msg_alloc, wpabuf_alloc in E. rewrite Hmalloc in E. now case_match.
Qed.
End Messages.

Section Interop.
Context `{ME : MethodEnv} `{ML : !MethodEnvLaws} `{MC : MsCrypto} `{CL : !MsCryptoLaws}
  `{SE : EapServer.ServerEnv} `{OA : OsAlloc}.
Context (Hmalloc : forall n, malloc_ok n = true).
Context {priv : Type} (umc wa : bool) (cfg : option eap_peer_config) (sm : EapServer.eap_sm priv).

(** The four messages of a successful authentication: challenge, response, success request and
    success response.  The result is the decision of the peer and the two keys; [None] when
    one side does not answer. *)
Definition mschapv2_conversation (ret : eap_method_ret) (d : eap_mschapv2_data)
    (sd : Srv.eap_mschapv2_data) (id1 id2 : Z) : option (EapDecision * option bytes * option bytes) :=
  let '(sd, _, req) := Srv.eap_mschapv2_buildReq sm sd id1 in
  let? req := req in
  let '(resp, ret, s) := eap_mschapv2_process umc wa ret req (Mst d cfg []) in
  let? resp := resp in
  if Srv.eap_mschapv2_check sd (Some resp) then None else
  match Srv.eap_mschapv2_process sm sd (Some resp) with
  | Returns sd =>
      let '(sd, _, req) := Srv.eap_mschapv2_buildReq sm sd id2 in
      let? req := req in
      let '(resp, ret, s) := eap_mschapv2_process umc wa ret req (Mst (md s) cfg []) in
      let? resp := resp in
      if Srv.eap_mschapv2_check sd (Some resp) then None else
      match Srv.eap_mschapv2_process sm sd (Some resp) with
      | Returns sd => Some (ret_decision ret, eap_mschapv2_getKey (md s), Srv.eap_mschapv2_getKey sd)
      | _ => None
      end
  | _ => None
  end.

(** Both sides know the same password: [hash] is its hash. *)
Context (ident : bytes) (p : bytes) (hashed : bool) (hash : bytes).
Context (Hident : eap_get_config_identity umc cfg = Some ident) (Hident_ok : bytes_ok ident)
  (Hident_len : zlen ident <= 60000).
Context (Hpw : eap_get_config_password2 umc cfg = Some (p, hashed))
  (Hhash : (if hashed then Some p else nt_password_hash p) = Some hash).
Context (u : EapServer.eap_user) (pw : bytes) (sident : bytes).
Context (Hu : EapServer.user sm = Some u) (Hupw : EapServer.password u = Some pw)
  (Huhash : (if EapServer.password_hash u then Some pw else nt_password_hash pw) = Some hash).
Context (Hsident : EapServer.identity sm = Some sident)
  (Hname : mschapv2_remove_domain sident = mschapv2_remove_domain ident).

Abbreviation username := (mschapv2_remove_domain ident).
Abbreviation nt_response chal peer := (generate_nt_response_pwhash chal peer username hash).
Abbreviation auth_resp chal peer :=
  (generate_authenticator_response_pwhash hash peer chal username (nt_response chal peer)).
Abbreviation mkey chal peer := (get_master_key (hash_nt_password_hash hash) (nt_response chal peer)).

(** What the peer derives, whether its password is stored as the hash or not. *)
Lemma peer_derives chal peer :
  mschapv2_derive_response ident p hashed chal peer = Some (nt_response chal peer, auth_resp chal peer, mkey chal peer).
Proof.
  unfold mschapv2_derive_response, generate_nt_response, generate_authenticator_response. destruct hashed.
  - now injection Hhash as ->.
  - now rewrite Hhash.
Qed.

Definition challenge_payload (id : Z) (chal name : bytes) : bytes :=
  eap_mschapv2_hdr MSCHAPV2_OP_CHALLENGE id (4 + 1 + 16 + zlen name) ++ [16] ++ chal ++ name.
Definition response_payload (msid : Z) (chal peer : bytes) : bytes :=
  eap_mschapv2_hdr MSCHAPV2_OP_RESPONSE msid (4 + 1 + 49 + zlen ident)
  ++ [49] ++ peer ++ replicate 8 0 ++ nt_response chal peer ++ [0] ++ ident.
Definition success_payload (msid : Z) (a : bytes) : bytes :=
  eap_mschapv2_hdr MSCHAPV2_OP_SUCCESS msid 51 ++ [83; 61] ++ hex_text a ++ [32; 77; 61; 79; 75].

Lemma hdr_ok op id n : is_byte op -> bytes_ok (eap_mschapv2_hdr op id n).
Proof. intros Ho. unfold eap_mschapv2_hdr. apply bytes_ok_app. split; [|auto with wpa]. constructor; [done|]. constructor; [apply is_uint_wrap8 | constructor]. Qed.

Lemma take_zlen (l : bytes) : take (Z.to_nat (zlen l)) l = l.
Proof. apply take_ge. unfold zlen. lia. Qed.

Lemma password_known : eap_get_config_password umc cfg = Some p.
Proof. unfold eap_get_config_password. now rewrite Hpw. Qed.

(** How the peer dispatches a well-formed message without a retry pending. *)
Lemma peer_dispatch ret m id payload d : is_msg m id payload -> prev_error d = 0 ->
  5 <= zlen payload -> get_be16 (drop 2 payload) = zlen payload ->
  eap_mschapv2_process umc wa ret m (Mst d cfg []) =
    (if byte_at payload 0 =? MSCHAPV2_OP_CHALLENGE
     then eap_mschapv2_challenge umc ret payload id (eap_mschapv2_copy_challenge m (Mst d cfg []))
     else if byte_at payload 0 =? MSCHAPV2_OP_SUCCESS then eap_mschapv2_success ret payload id (Mst d cfg [])
     else if byte_at payload 0 =? MSCHAPV2_OP_FAILURE then eap_mschapv2_failure umc ret payload id (Mst d cfg [])
     else (None, ret <| ret_ignore := true |>, Mst d cfg [])).
Proof.
  intros [Hv Hid] Hp Hl Hm. unfold eap_mschapv2_process, eap_mschapv2_check_config, get_identity, get_password.
  cbn [mcfg]. rewrite Hident, password_known. cbn [Z.eqb negb].
  assert (replace_request m (Mst d cfg []) = (m, false, Mst d cfg [])) as ->.
  { unfold replace_request. cbn [mcfg md]. rewrite Hp. destruct cfg as [c|]; [|done].
    destruct (prev_challenge d); [|done]. now rewrite andb_false_r. }
  rewrite Hv. destruct (Z.ltb_spec (zlen payload) (4 + 1)); [lia|].
  cbv zeta. rewrite take_zlen. unfold eap_mschapv2_check_mslen. rewrite Hm, Z.eqb_refl. cbn [Z.eqb negb].
  now rewrite Hid.
Qed.


(** The challenges of the two sides. *)
Context (chal peer : bytes) (Hchal : EapServer.server_random (EapServer.n_env sm) 16 = Some chal)
  (Hchal_ok : length chal = 16%nat /\ bytes_ok chal).
Context (Hname_ok : bytes_ok (EapServer.server_id (EapServer.cfg sm)))
  (Hname_len : zlen (EapServer.server_id (EapServer.cfg sm)) <= 60000).
Abbreviation name := (EapServer.server_id (EapServer.cfg sm)).

Lemma nt_response_ok c r : length (nt_response c r) = 24%nat /\ bytes_ok (nt_response c r).
Proof.
  unfold generate_nt_response_pwhash, challenge_response. cbv zeta.
  match goal with |- context [des_encrypt ?a ?b ++ des_encrypt ?c ?d ++ des_encrypt ?e ?f] =>
    destruct (des_output a b), (des_output c d), (des_output e f) end.
  rewrite !length_app, !bytes_ok_app. split; [lia | done].
Qed.

Lemma auth_resp_ok c r : length (auth_resp c r) = 20%nat /\ bytes_ok (auth_resp c r).
Proof. unfold generate_authenticator_response_pwhash. cbv zeta. apply sha1_digest. Qed.

Lemma challenge_sent sd id1 : is_byte id1 ->
  Srv.ms_state sd = Srv.MS_CHALLENGE -> Srv.auth_challenge_from_tls sd = false ->
  exists req, Srv.eap_mschapv2_buildReq sm sd id1
    = (sd <| Srv.ms_auth_challenge := chal |>, Srv.asked (Srv.vars_of sm), Some req)
    /\ is_msg req id1 (challenge_payload id1 chal name).
Proof.
  intros Hid Hs Ht. unfold Srv.eap_mschapv2_buildReq. rewrite Hs. unfold Srv.eap_mschapv2_build_challenge.
  rewrite Ht. change Srv.CHALLENGE_LEN with 16%nat. rewrite Hchal. cbn [negb].
  destruct (msg_built Hmalloc (4 + 1 + 16 + zlen name) EAP_CODE_REQUEST id1 (challenge_payload id1 chal name))
    as (b & -> & Hb).
  - unfold challenge_payload. rewrite !zlen_app. unfold zlen in *. cbn [length eap_mschapv2_hdr app put_be16]. lia.
  - done.
  - unfold challenge_payload. rewrite !bytes_ok_app.
    split; [now apply hdr_ok|]. split; [now repeat constructor|]. split; [apply Hchal_ok | exact Hname_ok].
  - lia.
  - exists (wpabuf_put b (challenge_payload id1 chal name)). split; [|exact Hb].
    change (Srv.auth_challenge_from_tls (sd <| Srv.ms_auth_challenge := chal |>)) with (Srv.auth_challenge_from_tls sd).
    rewrite Ht. unfold wpabuf_put_u8, wpabuf_put_data. rewrite !wpabuf_put_put. reflexivity.
Qed.

Lemma response_payload_ok msid c : bytes_ok peer -> bytes_ok (response_payload msid c peer).
Proof.
  intros Hp. unfold response_payload. rewrite !bytes_ok_app. split; [now apply hdr_ok|].
  split; [now repeat constructor|]. split; [exact Hp|]. split; [now repeat constructor|].
  split; [apply nt_response_ok|]. split; [now repeat constructor | exact Hident_ok].
Qed.

Lemma response_payload_zlen msid c : length peer = 16%nat ->
  zlen (response_payload msid c peer) = 4 + 1 + 49 + zlen ident.
Proof.
  intros Hp. unfold response_payload. rewrite !zlen_app. destruct (nt_response_ok c peer) as [Hl _].
  unfold zlen. rewrite Hp, Hl. cbn [length eap_mschapv2_hdr app put_be16 replicate]. lia.
Qed.

(** What the method knows after it answered the challenge [c]. *)
Record derived (c : bytes) (d : eap_mschapv2_data) : Prop := {
  dv_prev : prev_error d = 0;
  dv_auth_valid : auth_response_valid d = true;
  dv_auth : auth_response d = auth_resp c peer;
  dv_key_valid : master_key_valid d = true;
  dv_key : master_key d = mkey c peer
}.

(** The response of the peer. *)
Lemma reply_built id msid c s : is_byte id -> mcfg s = cfg -> prev_error (md s) = 0 ->
  random_answer (n_random (md s)) 16 = Some peer ->
  exists resp s', eap_mschapv2_challenge_reply umc id msid c s = (Some resp, s')
    /\ is_msg resp id (response_payload msid c peer) /\ derived c (md s').
Proof.
  intros Hid Hc Hp Hr. destruct (random_length _ _ _ Hr) as [Lp Bp].
  unfold eap_mschapv2_challenge_reply, get_identity, get_password2. rewrite Hc, Hident, Hpw. cbv zeta.
  destruct (msg_built Hmalloc (4 + 1 + 49 + zlen ident) EAP_CODE_RESPONSE id (response_payload msid c peer))
    as (b & -> & Hb).
  - now rewrite response_payload_zlen.
  - exact Hid.
  - now apply response_payload_ok.
  - lia.
  - rewrite Hp. cbn [Z.eqb negb]. unfold random_get_bytes. rewrite Hr, peer_derives.
    eexists _, _. split; [reflexivity|]. split; [|now split].
    unfold wpabuf_put_u8, wpabuf_put_data. rewrite !wpabuf_put_put, <- !app_assoc. exact Hb.
Qed.

Lemma challenge_answered ret req id1 d : is_byte id1 ->
  is_msg req id1 (challenge_payload id1 chal name) -> prev_error d = 0 ->
  passwd_change_challenge_valid d = false -> random_answer (n_random d) 16 = Some peer ->
  exists resp s, eap_mschapv2_process umc wa ret req (Mst d cfg [])
    = (Some resp, EapMethodRet false METHOD_MAY_CONT DECISION_FAIL true, s)
    /\ is_msg resp id1 (response_payload id1 chal peer) /\ derived chal (md s).
Proof.
  intros Hid Hm Hp Hv Hr. destruct Hchal_ok as [Lc Bc].
  assert (zlen (challenge_payload id1 chal name) = 4 + 1 + 16 + zlen name) as Hlen.
  { unfold challenge_payload. rewrite !zlen_app. unfold zlen. rewrite Lc. cbn [length eap_mschapv2_hdr app put_be16]. lia. }
  pose proof (zlen_nonneg name).
  rewrite (peer_dispatch ret req id1 _ d Hm Hp); [| lia |].
  2:{ rewrite Hlen. unfold challenge_payload, eap_mschapv2_hdr. rewrite <- !app_assoc.
      change (drop 2 ([?a; ?b] ++ ?r)) with r. apply get_put_be16. unfold is_uint. lia. }
  change (byte_at (challenge_payload id1 chal name) 0 =? MSCHAPV2_OP_CHALLENGE) with true. cbv iota.
  set (s0 := eap_mschapv2_copy_challenge req (Mst d cfg [])).
  destruct (reply_built id1 id1 chal s0 Hid eq_refl Hp Hr) as (resp & s' & E & Hresp).
  unfold eap_mschapv2_challenge, get_identity, get_password. change (mcfg s0) with cfg.
  rewrite Hident, password_known, Hlen. destruct (Z.ltb_spec (4 + 1 + 16 + zlen name) (4 + 1)); [lia|].
  change (byte_at (challenge_payload id1 chal name) 4) with 16. change (negb (16 =? 16)) with false. cbv iota zeta.
  destruct (Z.ltb_spec (4 + 1 + 16 + zlen name - 4 - 1) 16); [lia|].
  change (passwd_change_challenge_valid (md s0)) with (passwd_change_challenge_valid d). rewrite Hv.
  assert (take 16 (drop 5 (challenge_payload id1 chal name)) = chal) as ->.
  { change (drop 5 (challenge_payload id1 chal name)) with (chal ++ name). now rewrite take_app_length'. }
  assert (byte_at (challenge_payload id1 chal name) 1 = id1) as ->.
  { change (byte_at (challenge_payload id1 chal name) 1) with (u8 id1). now apply wrap_small. }
  rewrite E. now exists resp, s'.
Qed.

(** The server accepts the response. *)
Record accepted (msid : Z) (sd : Srv.eap_mschapv2_data) : Prop := {
  ac_state : Srv.ms_state sd = Srv.MS_SUCCESS_REQ;
  ac_id : Srv.resp_mschapv2_id sd = msid;
  ac_auth : Srv.ms_auth_response sd = auth_resp chal peer;
  ac_valid : Srv.ms_master_key_valid sd = true;
  ac_key : Srv.ms_master_key sd = mkey chal peer
}.

Lemma os_memcmp_const_refl l : bytes_ok l -> os_memcmp_const l l = 0.
Proof. intros Hl. now apply os_memcmp_const_zero. Qed.

(** The fields of a response. *)
Lemma response_fields msid : is_byte msid -> length peer = 16%nat ->
  let pos := response_payload msid chal peer in
  byte_at pos 0 = MSCHAPV2_OP_RESPONSE /\ byte_at pos 1 = msid /\ byte_at pos 4 = 49
  /\ slice 5 16 pos = peer /\ slice (5 + 24) 24 pos = nt_response chal peer /\ drop (5 + 49) pos = ident.
Proof.
  intros Hm Lp. cbv zeta. destruct (nt_response_ok chal peer) as [Ln _].
  assert (forall n, drop (5 + n) (response_payload msid chal peer)
                    = drop n (peer ++ replicate 8 0 ++ nt_response chal peer ++ [0] ++ ident)) as Hd
    by (intros n; now rewrite <- drop_drop).
  split; [reflexivity|]. split; [now apply wrap_small|]. split; [reflexivity|].
  unfold slice. split; [|split].
  - change 5%nat with (5 + 0)%nat. now rewrite Hd, drop_0, take_app_length'.
  - rewrite Hd, app_assoc, drop_app_length' by (rewrite length_app, Lp; done). now rewrite take_app_length'.
  - rewrite Hd, !app_assoc, drop_app_length'; [done|]. rewrite !length_app, Lp, Ln. done.
Qed.

Lemma response_accepted sd resp id msid : is_byte msid -> length peer = 16%nat ->
  Srv.ms_state sd = Srv.MS_CHALLENGE -> Srv.ms_auth_challenge sd = chal -> Srv.ms_peer_challenge sd = None ->
  is_msg resp id (response_payload msid chal peer) ->
  Srv.eap_mschapv2_check sd (Some resp) = false
  /\ exists sd', Srv.eap_mschapv2_process sm sd (Some resp) = Returns sd' /\ accepted msid sd'.
Proof.
  intros Hm Lp Hs Hc Hn [Hv _]. destruct (response_fields msid Hm Lp) as (E0 & E1 & E4 & Ep & En & Ei).
  pose proof (response_payload_zlen msid chal Lp) as Hz. pose proof (zlen_nonneg ident).
  split.
  { unfold Srv.eap_mschapv2_check. rewrite Hv, Hz, E0, Hs. destruct (Z.ltb_spec (4 + 1 + 49 + zlen ident) 1); [lia | done]. }
  unfold Srv.eap_mschapv2_process. rewrite Hu, Hupw, Hs. unfold Srv.eap_mschapv2_process_response. rewrite Hv.
  rewrite take_zlen, Hz, E0, E1, E4, Ep, En, Ei.
  destruct (Z.ltb_spec (4 + 1 + 49 + zlen ident) 1); [lia|].
  destruct (Z.ltb_spec (4 + 1 + 49 + zlen ident) (4 + 1 + 49)); [lia|]. cbn [Z.eqb MSCHAPV2_OP_RESPONSE negb orb].
  change (MSCHAPV2_OP_RESPONSE =? MSCHAPV2_OP_RESPONSE) with true. change (49 =? 49) with true. cbn [negb orb].
  rewrite Hsident. cbn [result_bind]. cbv zeta.
  change (Srv.ms_peer_challenge (sd <| Srv.resp_mschapv2_id := msid |>)) with (Srv.ms_peer_challenge sd).
  change (Srv.ms_auth_challenge (sd <| Srv.resp_mschapv2_id := msid |>)) with (Srv.ms_auth_challenge sd).
  rewrite Hn, Hc, Hname, bool_decide_true by done. cbn [negb].
  assert ((if EapServer.password_hash u then Some (generate_nt_response_pwhash chal peer username pw)
           else generate_nt_response chal peer username pw) = Some (nt_response chal peer)) as ->.
  { unfold generate_nt_response. destruct (EapServer.password_hash u); [now injection Huhash as ->|]. now rewrite Huhash. }
  rewrite os_memcmp_const_refl by apply nt_response_ok. cbn [Z.eqb].
  eexists. split; [reflexivity|]. unfold Srv.accept_response. rewrite Huhash.
  cbn [Srv.ms_auth_challenge]. split; try reflexivity; cbn; now rewrite Hc.
Qed.

Lemma success_sent sd msid id2 : is_byte id2 -> is_byte msid -> accepted msid sd ->
  exists req, Srv.eap_mschapv2_buildReq sm sd id2 = (sd, Srv.vars_of sm, Some req)
    /\ is_msg req id2 (success_payload msid (auth_resp chal peer)).
Proof.
  intros Hid Hm [Hs Hi Ha _ _]. unfold Srv.eap_mschapv2_buildReq. rewrite Hs.
  unfold Srv.eap_mschapv2_build_success_req. rewrite Hi, Ha. cbv zeta.
  destruct (auth_resp_ok chal peer) as [La Ba].
  rewrite wpa_snprintf_hex_uppercase_text by (unfold zlen; rewrite La; lia). cbn [snd].
  assert (zlen (hex_text (auth_resp chal peer)) = 40 /\ bytes_ok (hex_text (auth_resp chal peer))) as [Lh Bh].
  { destruct (hex_text_ok _ Ba) as [Lh Bh]. split; [unfold zlen; rewrite Lh, La; done | exact Bh]. }
  destruct (msg_built Hmalloc (4 + 2 + 2 * 20 + 1 + 2 + zlen [79; 75]) EAP_CODE_REQUEST id2
              (success_payload msid (auth_resp chal peer))) as (b & -> & Hb).
  - unfold success_payload. rewrite !zlen_app, Lh. reflexivity.
  - exact Hid.
  - unfold success_payload. rewrite !bytes_ok_app. split; [now apply hdr_ok|].
    split; [now repeat constructor|]. split; [exact Bh | now repeat constructor].
  - unfold zlen. cbn. lia.
  - eexists. split; [reflexivity|]. unfold wpabuf_put_u8, wpabuf_put_data.
    rewrite !wpabuf_put_put. exact Hb.
Qed.

(** The peer accepts the server. *)
Lemma success_answered ret req id2 msid d : is_byte id2 -> ret_ignore ret = false -> derived chal d ->
  is_msg req id2 (success_payload msid (auth_resp chal peer)) ->
  exists resp ret' s, eap_mschapv2_process umc wa ret req (Mst d cfg []) = (Some resp, ret', s)
    /\ is_msg resp id2 [MSCHAPV2_OP_SUCCESS] /\ ret_decision ret' = DECISION_UNCOND_SUCC /\ ret_ignore ret' = false
    /\ success (md s) = true /\ master_key_valid (md s) = true /\ master_key (md s) = mkey chal peer.
Proof.
  intros Hid Hi [Hp Hav Ha Hkv Hk] Hm. destruct (auth_resp_ok chal peer) as [La Ba].
  destruct (hex_text_ok _ Ba) as [Lh Bh].
  assert (zlen (success_payload msid (auth_resp chal peer)) = 51) as Hz.
  { unfold success_payload. rewrite !zlen_app. unfold zlen. rewrite Lh, La. done. }
  rewrite (peer_dispatch ret req id2 _ d Hm Hp); [|lia | now rewrite Hz].
  change (byte_at (success_payload msid (auth_resp chal peer)) 0 =? MSCHAPV2_OP_CHALLENGE) with false.
  change (byte_at (success_payload msid (auth_resp chal peer)) 0 =? MSCHAPV2_OP_SUCCESS) with true. cbv iota.
  unfold eap_mschapv2_success. cbn [md]. rewrite Hav, Ha. cbn [negb orb].
  assert (mschapv2_verify_auth_response (auth_resp chal peer) (drop 4 (success_payload msid (auth_resp chal peer))) = 0) as ->.
  { unfold mschapv2_verify_auth_response.
    change (drop 4 (success_payload msid (auth_resp chal peer)))
      with ([83; 61] ++ hex_text (auth_resp chal peer) ++ [32; 77; 61; 79; 75]).
    rewrite !zlen_app. destruct (Z.ltb_spec (zlen [83; 61] + (zlen (hex_text (auth_resp chal peer)) + zlen [32; 77; 61; 79; 75])) (2 + 2 * 20)).
    { unfold zlen in *. rewrite Lh, La in *. cbn in *. lia. }
    cbn [app byte_at nth Z.eqb negb orb]. change (negb (83 =? 83) || negb (61 =? 61)) with false. cbv iota.
    change (drop 2 (83 :: 61 :: ?l)) with l. rewrite <- La, hexstr2bin_hex_text by done.
    now rewrite os_memcmp_const_refl. }
  cbn [Z.eqb negb].
  destruct (msg_built Hmalloc 1 EAP_CODE_RESPONSE id2 [MSCHAPV2_OP_SUCCESS]) as (b & -> & Hb);
    [done | done | now repeat constructor | lia |].
  cbv zeta. eexists _, _, _. split; [reflexivity|].
  change (wpabuf_put_u8 b MSCHAPV2_OP_SUCCESS) with (wpabuf_put b [MSCHAPV2_OP_SUCCESS]).
  split; [exact Hb|]. split; [reflexivity|]. split; [exact Hi|].
  change (prev_error (md (on_md (fun d => d <| success := true |>) (Mst d cfg [])))) with (prev_error d).
  rewrite Hp. now split.
Qed.

Lemma success_confirmed sd msid resp id2 : accepted msid sd -> is_msg resp id2 [MSCHAPV2_OP_SUCCESS] ->
  Srv.eap_mschapv2_check sd (Some resp) = false
  /\ Srv.eap_mschapv2_process sm sd (Some resp) = Returns (sd <| Srv.ms_state := Srv.MS_SUCCESS |>).
Proof.
  intros [Hs _ _ _ _] [Hv _]. unfold Srv.eap_mschapv2_check, Srv.eap_mschapv2_process. rewrite Hv, Hs, Hu, Hupw.
  split; [reflexivity|]. unfold Srv.eap_mschapv2_process_success_resp. now rewrite Hv.
Qed.

(** C16. The two ends of EAP-MSCHAPv2 fit together: whenever the peer and the server know the
    same password (as text or as its hash, with or without a domain before the user name),
    start with fresh data and have memory and random numbers, the four messages are all
    accepted, the peer decides for an unconditional success and both sides report the same
    MSK, the one of RFC 3079 for the RFC 2759 exchange. *)
Theorem mschapv2_interop ret d sd id1 id2 :
  eap_mschapv2_init = Some d -> Srv.eap_mschapv2_init sm = Some sd ->
  EapServer.auth_challenge sm = None -> EapServer.peer_challenge sm = None ->
  is_byte id1 -> is_byte id2 -> random_answer 0 16 = Some peer ->
  let key := get_asymetric_start_key (mkey chal peer) 16 true false
             ++ get_asymetric_start_key (mkey chal peer) 16 false false in
  mschapv2_conversation ret d sd id1 id2 = Some (DECISION_UNCOND_SUCC, Some key, Some key).
Proof.
  unfold eap_mschapv2_init, Srv.eap_mschapv2_init. rewrite !Hmalloc.
  intros [= <-] Hsd Hac Hpc Hid1 Hid2 Hr. rewrite Hac, Hpc in Hsd. injection Hsd as <-.
  destruct (random_length _ _ _ Hr) as [Lp Bp]. cbv zeta. unfold mschapv2_conversation.
  match goal with |- context [Srv.eap_mschapv2_buildReq sm ?x id1] =>
    destruct (challenge_sent x id1 Hid1 eq_refl eq_refl) as (req1 & -> & M1) end.
  match goal with |- context [eap_mschapv2_process umc wa ret req1 (Mst ?x cfg [])] =>
    destruct (challenge_answered ret req1 id1 x Hid1 M1 eq_refl eq_refl Hr) as (resp1 & s1 & -> & M2 & D1) end.
  match goal with |- context [Srv.eap_mschapv2_check ?x (Some resp1)] =>
    destruct (response_accepted x resp1 id1 id1 Hid1 Lp eq_refl eq_refl eq_refl M2) as (-> & sd1 & -> & A1) end.
  destruct (success_sent sd1 id1 id2 Hid2 Hid1 A1) as (req2 & -> & M3).
  destruct (success_answered (EapMethodRet false METHOD_MAY_CONT DECISION_FAIL true) req2 id2 id1 (md s1)
              Hid2 eq_refl D1 M3) as (resp2 & ret2 & s2 & -> & M4 & -> & _ & Es & Ev & Ek).
  destruct (success_confirmed sd1 id1 resp2 id2 A1 M4) as (-> & ->).
  unfold eap_mschapv2_getKey, Srv.eap_mschapv2_getKey. rewrite Es, Ev, Ek, !Hmalloc.
  destruct A1 as [_ _ _ Av Ak].
  change (Srv.ms_state (sd1 <| Srv.ms_state := Srv.MS_SUCCESS |>)) with Srv.MS_SUCCESS.
  change (Srv.ms_master_key_valid (sd1 <| Srv.ms_state := Srv.MS_SUCCESS |>)) with (Srv.ms_master_key_valid sd1).
  change (Srv.ms_master_key (sd1 <| Srv.ms_state := Srv.MS_SUCCESS |>)) with (Srv.ms_master_key sd1).
  rewrite Av, Ak. reflexivity.
Qed.
End Interop.

(** ** A whole conversation of the two state machines *)

Module Conversation.
Import Rfc2759 EapMschapv2Props.Demo.

(** A server whose database has one user, for EAP-MSCHAPv2 or else EAP-MD5. *)
Definition demo_user : EapServer.eap_user :=
  EapServer.EapUser ([(EAP_VENDOR_IETF, EAP_TYPE_MSCHAPV2); (EAP_VENDOR_IETF, EAP_TYPE_MD5)]
                     ++ replicate 6 (EAP_VENDOR_IETF, EAP_TYPE_NONE)) (Some Password) false false.
#[export] Instance server_env : ServerEnv := {|
  get_eap_user _ id _ := if decide (id = UserName) then Some demo_user else None;
  server_random _ n := if (n =? 16)%nat then Some AuthenticatorChallenge else None;
  rand_answer _ := 77;
  get_eap_req_id_text := None;
  erp_send_reauth_start := false;
  erp_domain := None
|}.
Definition server_config : EapServer.eap_config := EapServer.EapConfig false true [104; 111; 115; 116] 100 50.

Abbreviation server := (EapServer.eap_sm server_priv).
Abbreviation peer := (world method_priv lower).

Definition server_step (s : server) : option server :=
  match eap_server_sm_step s with Returns (_, s) => Some s | _ => None end.

(** Both machines started with an enabled port. *)
Definition started : option (server * peer) :=
  let? s := eap_server_sm_init true server_config in
  let? s := server_step (on_if (fun i => i <| EapServer.portEnabled := true |> <| EapServer.eapRestart := true |>) s) in
  let? w := begin_world in
  Some (s, (eap_peer_sm_step w).2).

(** The peer receives what the server has to send, and its answer is delivered. *)
Definition exchange (x : server * peer) : option (server * peer) :=
  let '(s, w) := x in
  let? req := EapServer.eapReqData (eap_if s) in
  let w := (eap_peer_sm_step (deliver (wb_buf req) w)).2 in
  match eap_get_eapRespData w with
  | (None, w) => Some (s, w)
  | (Some resp, w) =>
      let? s := server_step (on_if (fun i => i <| EapServer.eapReq := false |> <| EapServer.eapResp := true |>
                                               <| EapServer.eapRespData := Some resp |>) s) in
      Some (s, w)
  end.

(** Identity, challenge, success request, EAP-Success. *)
Definition conversation : option (server * peer) :=
  let? x := started in let? x := exchange x in let? x := exchange x in let? x := exchange x in exchange x.

(** State, success and key of both sides. *)
Definition result_of (x : server * peer) :=
  ((EapServer.EAP_state x.1, EapServer.eapSuccess (eap_if x.1), EapServer.eapKeyData (eap_if x.1)),
   (EAP_state (esm x.2), eap_key_available x.2, eap_get_eapKeyData x.2)).

(** The machines of the source, message by message: both end in SUCCESS with the same key. *)
Example conversation_succeeds :
  option_map result_of conversation
  = Some ((EapServer.EAP_SUCCESS, true, Some Msk), (EAP_SUCCESS, true, Some Msk)).
Proof. vm_compute. reflexivity. Qed.

(** A user name with a domain, known to the server; the peer has the hash of the password. *)
Definition server_sm : option server :=
  let? s := eap_server_sm_init true server_config in
  Some (s <| EapServer.identity := Some ([68; 92] ++ UserName) |> <| EapServer.user := Some demo_user |>).
Definition hash_config : eap_peer_config :=
  config <| password := CfgBytes NtHash |> <| cfg_flags := EAP_CONFIG_FLAGS_PASSWORD_NTHASH |>.
Definition no_ret : eap_method_ret := EapMethodRet false METHOD_INIT DECISION_FAIL true.

Lemma UserName_ok : bytes_ok UserName.
Proof. apply (bool_decide_unpack _). vm_compute. exact I. Qed.

Lemma mschapv2_interop_witness : exists s d sd key,
  server_sm = Some s /\ eap_mschapv2_init = Some d /\ Srv.eap_mschapv2_init s = Some sd
  /\ mschapv2_conversation false false (Some hash_config) s no_ret d sd 5 6
     = Some (DECISION_UNCOND_SUCC, Some key, Some key).
Proof.
  eexists _, _, _, _. split; [reflexivity|]. split; [reflexivity|]. split; [reflexivity|].
  match goal with |- mschapv2_conversation _ _ _ ?x _ _ _ _ _ = _ => set (sm := x) end.
  apply (mschapv2_interop (fun _ => eq_refl) false false (Some hash_config) sm UserName NtHash true NtHash
           eq_refl UserName_ok ltac:(vm_compute; discriminate) eq_refl eq_refl
           demo_user Password ([68; 92] ++ UserName) eq_refl eq_refl
           password_hash_vector eq_refl eq_refl AuthenticatorChallenge PeerChallenge eq_refl).
  all: try reflexivity.
  - apply (bool_decide_unpack _). vm_compute. exact I.
  - apply (bool_decide_unpack _). vm_compute. exact I.
  - vm_compute. discriminate.
  - apply (bool_decide_unpack _). vm_compute. exact I.
  - apply (bool_decide_unpack _). vm_compute. exact I.
Defined.
End Conversation.
