(* ===== verification/EapServerProps.v ===== *)
(** * Theorems about the EAP server state machine

    It follows no NULL pointer, its step loop ends, and it reports success only for a method
    that succeeded or for the AAA server.  The hypotheses about the methods are the class
    [ServerMethodsLaws]. *)

From stdpp Require Import strings.
From S2P Require Import Prelude Wpabuf EapCommon MsFuncs EapMschapv2 EapServer EapServerMethods.

(** Assignments of a method to struct eap_sm that the machine can live with. *)
Definition vars_ok {priv} (sm : eap_sm priv) (v : method_vars) : Prop :=
  (identity sm <> None -> mv_identity v <> None)
  /\ (method_pending sm <> METHOD_PENDING_CONT -> mv_method_pending v <> METHOD_PENDING_CONT)
  /\ (0 <= user_eap_method_index sm -> 0 <= mv_user_eap_method_index v).

(** What the machine expects of its methods: they keep the identity, announce no end of a
    pending operation by themselves, and only a method other than EAP-Identity needs an
    identity.  [priv_of] types the data of a method, a [void *] of the code. *)
Class ServerMethodsLaws {priv} `{ServerMethods priv} := {
  no_method_none : eap_server_get_eap_method EAP_VENDOR_IETF EAP_TYPE_NONE = None;
  priv_of : eap_method -> priv -> Prop;
  init_priv e sm p : (srv_init e sm).1 = Some p -> priv_of e p;
  pickup_priv e f sm p : srv_initPickUp e = Some f -> (f sm).1 = Some p -> priv_of e p;
  buildReq_priv e sm p id : priv_of e p -> priv_of e (srv_buildReq e sm p id).1.1;
  init_vars e sm : vars_ok sm (srv_init e sm).2;
  init_index e sm : mv_user_eap_method_index (srv_init e sm).2 = user_eap_method_index sm;
  pickup_vars e f sm : srv_initPickUp e = Some f -> vars_ok sm (f sm).2;
  buildReq_vars e sm p id : vars_ok sm (srv_buildReq e sm p id).1.2;
  process_returns e sm p resp : priv_of e p -> em_method e = EAP_TYPE_IDENTITY \/ identity sm <> None ->
    exists p' v, srv_process e sm p resp = Returns (p', v) /\ priv_of e p'
      /\ (em_method e <> EAP_TYPE_IDENTITY -> mv_identity v <> None)
      /\ (method_pending sm <> METHOD_PENDING_CONT -> mv_method_pending v <> METHOD_PENDING_CONT)
      /\ (0 <= user_eap_method_index sm -> 0 <= mv_user_eap_method_index v)
}.

Section Props.
Context {priv : Type} `{SM : ServerMethods priv} `{!ServerMethodsLaws} `{SE : ServerEnv} `{OA : OsAlloc}.
Abbreviation eap_sm := (eap_sm priv).

(** ** Frames: what the helpers leave alone *)

Record same (a b : eap_sm) : Prop := {
  s_if : eap_if b = eap_if a;
  s_cfg : cfg b = cfg a;
  s_state : EAP_state b = EAP_state a;
  s_pending : method_pending b = method_pending a;
  s_m : m b = m a;
  s_priv : eap_method_priv b = eap_method_priv a;
  s_identity : identity b = identity a;
  s_rounds : num_rounds b = num_rounds a;
  s_short : num_rounds_short b = num_rounds_short a;
  s_index : 0 <= user_eap_method_index a -> 0 <= user_eap_method_index b
}.

Lemma parse_same r sm : same sm (eap_sm_parseEapResp r sm).
Proof. unfold eap_sm_parseEapResp. cbv zeta. repeat case_match; now split. Qed.

Lemma parse_keeps r (sm : eap_sm) : currentMethod (eap_sm_parseEapResp r sm) = currentMethod sm
  /\ decision (eap_sm_parseEapResp r sm) = decision sm.
Proof. unfold eap_sm_parseEapResp. cbv zeta. repeat case_match; now split. Qed.

Lemma nextId_same id sm : same sm (eap_sm_nextId id sm).2.
Proof. unfold eap_sm_nextId. cbv zeta. repeat case_match; now split. Qed.
Lemma nextId_decision id (sm : eap_sm) : decision (eap_sm_nextId id sm).2 = decision sm.
Proof. unfold eap_sm_nextId. cbv zeta. now repeat case_match. Qed.

Lemma policy_update_same l sm : same sm (eap_sm_Policy_update l sm).
Proof. unfold eap_sm_Policy_update, eap_sm_process_nak. repeat case_match; now split. Qed.

Lemma user_get_same id p sm : same sm (eap_user_get id p sm).2.
Proof. unfold eap_user_get. cbv zeta. repeat case_match; now split. Qed.

Lemma decide_same sm : same sm (decide_without_method sm).2.
Proof. unfold decide_without_method. cbv zeta. repeat case_match; now split. Qed.

Lemma decide_no_reauth sm : erp_send_reauth_start = false ->
  (decide_without_method (priv := priv) sm).1 <> DECISION_INITIATE_REAUTH_START.
Proof. intros E. unfold decide_without_method. cbv zeta. rewrite E, andb_false_r. now repeat case_match. Qed.

Lemma same_refl sm : same sm sm.
Proof. now split. Qed.
#[local] Hint Resolve same_refl : core.

Lemma same_trans a b c : same a b -> same b c -> same a c.
Proof. intros [] []. split; try congruence. auto. Qed.

(** ** The decision of the policy *)

(** A selected method has its data, and there is no data without a method. *)
Definition method_ok (sm : eap_sm) : Prop := m sm = None <-> eap_method_priv sm = None.

Lemma ask_method_returns f sm : method_ok sm -> exists b, ask_method f sm = Returns b.
Proof.
  intros Ho. unfold ask_method. destruct (m sm) eqn:E; [|eauto].
  destruct (eap_method_priv sm) eqn:Ep; [cbn; eauto|]. apply Ho in Ep. congruence.
Qed.

Lemma getDecision_spec sm : method_ok sm ->
  exists d sm', eap_sm_Policy_getDecision sm = Returns (d, sm') /\ same sm sm'
    /\ (erp_send_reauth_start = false -> d <> DECISION_INITIATE_REAUTH_START).
Proof.
  intros Ho. unfold eap_sm_Policy_getDecision. destruct (_ && _ && _); [by eexists _, _; repeat split|].
  destruct (ask_method_returns srv_isSuccess sm Ho) as [b1 E1].
  destruct (ask_method_returns srv_isDone sm Ho) as [b2 E2]. rewrite E1, E2.
  assert (exists b, (if negb (currentMethod sm =? EAP_TYPE_IDENTITY) then Returns b1 else Returns false) = Returns b)
    as [b ->] by (destruct (negb _); eauto). cbn [result_bind].
  destruct b; [by eexists _, _; repeat split|].
  assert (exists c, (if b2 then Returns b1 else Returns false) = Returns c) as [c ->] by (destruct b2; eauto).
  cbn [result_bind]. destruct (b2 && negb c); [by eexists _, _; repeat split|].
  destruct (identity sm) as [id|] eqn:Ei.
  - destruct ((_ || _) && _).
    + pose proof (user_get_same id false sm) as Hu. destruct (eap_user_get id false sm) as [found sm1]. cbn [snd] in Hu.
      destruct (negb found); [eexists _, _; split; [reflexivity|]; split; [exact Hu | done]|].
      destruct (_ && _); [eexists _, _; split; [reflexivity|]; split; [destruct Hu; now split | done]|].
      pose proof (decide_same (sm1 <| update_user := false |>)) as Hd.
      pose proof (decide_no_reauth (sm1 <| update_user := false |>)) as Hn.
      destruct (decide_without_method _) as [d sm2]. eexists _, _. split; [reflexivity|]. split; [|exact Hn].
      eapply same_trans; [|exact Hd]. destruct Hu. now split.
    + pose proof (decide_same sm) as Hd. pose proof (decide_no_reauth sm) as Hn.
      destruct (decide_without_method _) as [d sm2]. by eexists _, _.
  - pose proof (decide_same sm) as Hd. pose proof (decide_no_reauth sm) as Hn.
      destruct (decide_without_method _) as [d sm2]. by eexists _, _.
Qed.

(** ** The invariant *)

(** States in which the code follows [sm->m]. *)
Definition needs_method (st : eap_state) : bool :=
  match st with
  | EAP_IDLE | EAP_RETRANSMIT | EAP_RECEIVED | EAP_DISCARD | EAP_SEND_REQUEST | EAP_INTEGRITY_CHECK
  | EAP_METHOD_RESPONSE => true
  | _ => false
  end.

Definition reauth_state (st : eap_state) : bool :=
  match st with EAP_INITIATE_REAUTH_START | EAP_INITIATE_RECEIVED => true | _ => false end.

(** States with an obligation of their own in the invariant. *)
Definition picks (st : eap_state) : bool :=
  match st with EAP_INITIALIZE | EAP_PICK_UP_METHOD => true | _ => false end.

Record inv (sm : eap_sm) : Prop := {
  i_method : method_ok sm;
  i_priv e p : m sm = Some e -> eap_method_priv sm = Some p -> priv_of e p;
  i_init : EAP_state sm = EAP_INITIALIZE -> backend_auth (cfg sm) = true -> currentMethod sm = EAP_TYPE_NONE;
  i_needs : needs_method (EAP_state sm) = true -> m sm <> None;
  i_pickup : EAP_state sm = EAP_PICK_UP_METHOD -> currentMethod sm <> EAP_TYPE_NONE -> m sm <> None;
  i_identity e : m sm = Some e ->
    em_method e = EAP_TYPE_IDENTITY \/ identity sm <> None \/ eapRestart (eap_if sm) = true;
  i_index : 0 <= user_eap_method_index sm;
  i_decision : decision sm <> DECISION_INITIATE_REAUTH_START;
  i_state : reauth_state (EAP_state sm) = false
}.

(** What most of the state functions leave alone. *)
Record keep (a b : eap_sm) : Prop := {
  k_m : m b = m a;
  k_priv : eap_method_priv b = eap_method_priv a;
  k_identity : identity b = identity a;
  k_index : user_eap_method_index b = user_eap_method_index a;
  k_decision : decision b = decision a;
  k_restart : eapRestart (eap_if b) = eapRestart (eap_if a)
}.

Lemma inv_keep a b : inv a -> keep a b -> reauth_state (EAP_state b) = false ->
  (needs_method (EAP_state b) = true -> m a <> None) ->
  picks (EAP_state b) = false -> inv b.
Proof.
  intros [] [] Hs Hn Hp.
  split; unfold method_ok in *; rewrite ?k_m0, ?k_priv0, ?k_identity0, ?k_index0, ?k_decision0, ?k_restart0; auto;
    intros E; now rewrite E in Hp.
Qed.

(** ** The rank of a state: it falls with every pass that changes the state *)

Definition final (st : eap_state) : bool :=
  match st with
  | EAP_SUCCESS | EAP_FAILURE | EAP_TIMEOUT_FAILURE | EAP_SUCCESS2 | EAP_FAILURE2 | EAP_TIMEOUT_FAILURE2 => true
  | _ => false
  end.

Definition local_rank (sm : eap_sm) : Z :=
  let i := eap_if sm in
  let waits := retransWhile i =? 0 in
  let cont := if decide (method_pending sm = METHOD_PENDING_CONT) then 1 else 0 in
  match EAP_state sm with
  | EAP_DISABLED => 61
  | EAP_IDLE => if waits then 60 else if eapResp i then 50 else 0
  | EAP_RETRANSMIT => 55
  | EAP_DISCARD | EAP_SEND_REQUEST | EAP_DISCARD2 | EAP_SEND_REQUEST2 | EAP_RETRANSMIT2 =>
      if eapResp i then 51 else 1
  | EAP_IDLE2 => if eapResp i then 50 else if waits then 40 else 0
  | EAP_RECEIVED | EAP_RECEIVED2 => 45
  | EAP_INITIALIZE => 44
  | EAP_PICK_UP_METHOD => 42
  | EAP_INTEGRITY_CHECK => 40
  | EAP_NAK => 39
  | EAP_METHOD_RESPONSE => 30 + cont
  | EAP_SELECT_ACTION => 20
  | EAP_INITIALIZE_PASSTHROUGH => 19
  | EAP_PROPOSE_METHOD => 15 + cont
  | EAP_AAA_REQUEST => 12
  | EAP_METHOD_REQUEST => 10
  | EAP_AAA_RESPONSE => 8
  | EAP_AAA_IDLE => if aaaFail i || aaaSuccess i || aaaEapReq i then 9 else if aaaTimeout i then 1 else 0
  | _ => 0
  end.

Definition over (sm : eap_sm) : bool :=
  (u32 (max_auth_rounds (cfg sm)) <? num_rounds sm) || (u32 (max_auth_rounds_short (cfg sm)) <? num_rounds_short sm).

Definition rank (sm : eap_sm) : Z :=
  let i := eap_if sm in
  if negb (portEnabled i) then (if decide (EAP_state sm = EAP_DISABLED) then 0 else 1)
  else if eapRestart i then 100
  else if decide (EAP_state sm = EAP_FAILURE) then 0
  else if over sm then 1
  else if final (EAP_state sm) then 0
  else 2 + local_rank sm.

(** [b] comes after [a] in a pass that the machine is not forced into. *)
Record next (a b : eap_sm) : Prop := {
  n_inv : inv b;
  n_port : portEnabled (eap_if b) = portEnabled (eap_if a);
  n_restart : eapRestart (eap_if b) = eapRestart (eap_if a);
  n_rank : changed b = true -> final (EAP_state b) = true \/ local_rank b < local_rank a
}.

Lemma local_rank_nonneg sm : 0 <= local_rank sm.
Proof. unfold local_rank. repeat case_match; lia. Qed.

Lemma rank_final b : portEnabled (eap_if b) = true -> eapRestart (eap_if b) = false -> final (EAP_state b) = true -> rank b <= 1.
Proof. intros Hp Hr Hf. unfold rank. rewrite Hp, Hr, Hf. cbn [negb]. repeat case_match; lia. Qed.

Lemma rank_local b : portEnabled (eap_if b) = true -> eapRestart (eap_if b) = false -> rank b <= 2 + local_rank b.
Proof. intros Hp Hr. pose proof (local_rank_nonneg b). unfold rank. rewrite Hp, Hr. cbn [negb]. repeat case_match; lia. Qed.

Lemma next_rank a b : next a b -> portEnabled (eap_if a) = true -> eapRestart (eap_if a) = false ->
  over a = false -> final (EAP_state a) = false -> changed b = true -> rank b < rank a.
Proof.
  intros [_ Hp Hr Hk] Ep Er Eo Ef Hc. rewrite Ep in Hp. rewrite Er in Hr. pose proof (local_rank_nonneg a).
  assert (rank a = 2 + local_rank a) as ->.
  { unfold rank. rewrite Ep, Er, Eo, Ef. cbn [negb]. rewrite decide_False; [done|]. now intros E; rewrite E in Ef. }
  destruct (Hk Hc) as [Hf | Hl].
  - pose proof (rank_final b Hp Hr Hf). lia.
  - pose proof (rank_local b Hp Hr). lia.
Qed.

(** ** The state functions that follow no pointer *)

Lemma keep_trans a b c : keep a b -> keep b c -> keep a c.
Proof. intros [] []. split; congruence. Qed.

Lemma keep_parse r sm : keep sm (eap_sm_parseEapResp r sm).
Proof. unfold eap_sm_parseEapResp. cbv zeta. repeat case_match; now split. Qed.

Lemma next_keep a b : inv a -> keep a b -> portEnabled (eap_if b) = portEnabled (eap_if a) ->
  reauth_state (EAP_state b) = false -> picks (EAP_state b) = false ->
  (needs_method (EAP_state b) = true -> m a <> None) ->
  (final (EAP_state b) = true \/ local_rank b < local_rank a) -> next a b.
Proof. intros Hi Hk Hp Hs Hu Hn Hr. split; [now apply (inv_keep a) | done | apply Hk | auto]. Qed.

Ltac simple_state :=
  intros; unfold EAP_IDLE_Enter, EAP_RETRANSMIT_Enter, EAP_DISCARD_Enter, EAP_SEND_REQUEST_Enter,
    EAP_TIMEOUT_FAILURE_Enter, EAP_FAILURE_Enter, EAP_SUCCESS_Enter, EAP_INITIALIZE_PASSTHROUGH_Enter,
    EAP_IDLE2_Enter, EAP_RETRANSMIT2_Enter, EAP_DISCARD2_Enter, EAP_SEND_REQUEST2_Enter, EAP_AAA_REQUEST_Enter,
    EAP_AAA_RESPONSE_Enter, EAP_AAA_IDLE_Enter, EAP_TIMEOUT_FAILURE2_Enter, EAP_FAILURE2_Enter, EAP_SUCCESS2_Enter,
    sm_entry, on_if, set_retransWhile, retransmit, discard, send_request, copy_aaa_request;
  cbv zeta; repeat case_match; try (split; (reflexivity || done)); try reflexivity.

(** State, port and the flags the rank depends on, after a state function. *)
Record entered (st : eap_state) (a b : eap_sm) : Prop := {
  e_keep : keep a b;
  e_state : EAP_state b = st;
  e_port : portEnabled (eap_if b) = portEnabled (eap_if a)
}.
Ltac entered_simple := intros; split; simple_state.

Lemma entered_idle g a : entered EAP_IDLE a (EAP_IDLE_Enter g a). Proof. entered_simple. Qed.
Lemma entered_retransmit g a : entered EAP_RETRANSMIT a (EAP_RETRANSMIT_Enter g a). Proof. entered_simple. Qed.
Lemma entered_discard g a : entered EAP_DISCARD a (EAP_DISCARD_Enter g a). Proof. entered_simple. Qed.
Lemma entered_send_request g a : entered EAP_SEND_REQUEST a (EAP_SEND_REQUEST_Enter g a). Proof. entered_simple. Qed.
Lemma entered_timeout g a : entered EAP_TIMEOUT_FAILURE a (EAP_TIMEOUT_FAILURE_Enter g a). Proof. entered_simple. Qed.
Lemma entered_failure g a : entered EAP_FAILURE a (EAP_FAILURE_Enter g a). Proof. entered_simple. Qed.
Lemma entered_success g a : entered EAP_SUCCESS a (EAP_SUCCESS_Enter g a). Proof. entered_simple. Qed.
Lemma entered_passthrough g a : entered EAP_INITIALIZE_PASSTHROUGH a (EAP_INITIALIZE_PASSTHROUGH_Enter g a).
Proof. entered_simple. Qed.
Lemma entered_idle2 g a : entered EAP_IDLE2 a (EAP_IDLE2_Enter g a). Proof. entered_simple. Qed.
Lemma entered_retransmit2 g a : entered EAP_RETRANSMIT2 a (EAP_RETRANSMIT2_Enter g a). Proof. entered_simple. Qed.
Lemma entered_discard2 g a : entered EAP_DISCARD2 a (EAP_DISCARD2_Enter g a). Proof. entered_simple. Qed.
Lemma entered_send_request2 g a : entered EAP_SEND_REQUEST2 a (EAP_SEND_REQUEST2_Enter g a). Proof. entered_simple. Qed.
Lemma entered_aaa_request g a : entered EAP_AAA_REQUEST a (EAP_AAA_REQUEST_Enter g a). Proof. entered_simple. Qed.
Lemma entered_aaa_response g a : entered EAP_AAA_RESPONSE a (EAP_AAA_RESPONSE_Enter g a). Proof. entered_simple. Qed.
Lemma entered_aaa_idle g a : entered EAP_AAA_IDLE a (EAP_AAA_IDLE_Enter g a). Proof. entered_simple. Qed.
Lemma entered_timeout2 g a : entered EAP_TIMEOUT_FAILURE2 a (EAP_TIMEOUT_FAILURE2_Enter g a). Proof. entered_simple. Qed.
Lemma entered_failure2 g a : entered EAP_FAILURE2 a (EAP_FAILURE2_Enter g a). Proof. entered_simple. Qed.
Lemma entered_success2 g a : entered EAP_SUCCESS2 a (EAP_SUCCESS2_Enter g a). Proof. entered_simple. Qed.

Lemma entered_received g a : entered EAP_RECEIVED a (EAP_RECEIVED_Enter g a).
Proof.
  unfold EAP_RECEIVED_Enter. cbv zeta. set (r := eapRespData _). set (b := sm_entry g EAP_RECEIVED a).
  assert (keep a b) as Hb by (unfold b; simple_state).
  assert (EAP_state b = EAP_RECEIVED /\ portEnabled (eap_if b) = portEnabled (eap_if a)) as [E1 E2] by (unfold b; simple_state).
  clearbody b r. destruct (parse_same r b), (keep_parse r b), Hb. set (c := eap_sm_parseEapResp r b) in *. clearbody c.
  split; [split|..]; case_match; cbn; congruence.
Qed.

Lemma entered_received2 g a : entered EAP_RECEIVED2 a (EAP_RECEIVED2_Enter g a).
Proof.
  unfold EAP_RECEIVED2_Enter. cbv zeta. set (r := eapRespData _). set (b := sm_entry g EAP_RECEIVED2 a).
  assert (keep a b) as Hb by (unfold b; simple_state).
  assert (EAP_state b = EAP_RECEIVED2 /\ portEnabled (eap_if b) = portEnabled (eap_if a)) as [E1 E2] by (unfold b; simple_state).
  clearbody b r. destruct (parse_same r b), (keep_parse r b), Hb. split; [split|..]; congruence.
Qed.

(** *** Ranks after the simple states *)

Lemma backoff_pos n : forall rto, 0 < rto -> 0 < backoff n rto.
Proof. induction n as [|n IH]; intros rto Hr; cbn [backoff]; [done|]. destruct (Z.leb_spec 20 (rto * 2)); [lia|]. apply IH. lia. Qed.

Lemma timeout_nonzero sm n a b mt : eap_sm_calculateTimeout (priv := priv) sm n a b mt <> 0.
Proof.
  unfold eap_sm_calculateTimeout. destruct (try_initiate_reauth sm); [done|].
  destruct (Z.eqb_spec mt 0) as [|Hn]; cbn [negb]; [|done]. pose proof (backoff_pos (Z.to_nat n) 3 ltac:(lia)). lia.
Qed.

Lemma idle_flags g (a : eap_sm) :
  (retransWhile (eap_if (EAP_IDLE_Enter g a)) =? 0) = false
  /\ eapResp (eap_if (EAP_IDLE_Enter g a)) = eapResp (eap_if a).
Proof.
  split; [|simple_state]. apply Z.eqb_neq. unfold EAP_IDLE_Enter, set_retransWhile, on_if. cbn [eap_if retransWhile].
  apply timeout_nonzero.
Qed.
Lemma idle2_flags g (a : eap_sm) :
  (retransWhile (eap_if (EAP_IDLE2_Enter g a)) =? 0) = false
  /\ eapResp (eap_if (EAP_IDLE2_Enter g a)) = eapResp (eap_if a).
Proof.
  split; [|simple_state]. apply Z.eqb_neq. unfold EAP_IDLE2_Enter, set_retransWhile, on_if. cbn [eap_if retransWhile].
  apply timeout_nonzero.
Qed.

Lemma idle_rank g (a : eap_sm) : local_rank (EAP_IDLE_Enter g a) = if eapResp (eap_if a) then 50 else 0.
Proof. unfold local_rank. destruct (idle_flags g a) as [-> ->]. now rewrite (e_state _ _ _ (entered_idle g a)). Qed.
Lemma idle2_rank g (a : eap_sm) : local_rank (EAP_IDLE2_Enter g a) = if eapResp (eap_if a) then 50 else 0.
Proof. unfold local_rank. destruct (idle2_flags g a) as [-> ->]. now rewrite (e_state _ _ _ (entered_idle2 g a)). Qed.

Lemma discard_rank g (a : eap_sm) : local_rank (EAP_DISCARD_Enter g a) = 1.
Proof. reflexivity. Qed.
Lemma discard2_rank g (a : eap_sm) : local_rank (EAP_DISCARD2_Enter g a) = 1.
Proof. reflexivity. Qed.
Lemma send_request_rank g (a : eap_sm) : local_rank (EAP_SEND_REQUEST_Enter g a) = 1.
Proof.
  unfold local_rank. rewrite (e_state _ _ _ (entered_send_request g a)).
  assert (eapResp (eap_if (EAP_SEND_REQUEST_Enter g a)) = false) as -> by simple_state. done.
Qed.
Lemma send_request2_rank g (a : eap_sm) : local_rank (EAP_SEND_REQUEST2_Enter g a) = 1.
Proof.
  unfold local_rank. rewrite (e_state _ _ _ (entered_send_request2 g a)).
  assert (eapResp (eap_if (EAP_SEND_REQUEST2_Enter g a)) = false) as -> by simple_state. done.
Qed.
Lemma retransmit2_rank g (a : eap_sm) : local_rank (EAP_RETRANSMIT2_Enter g a) = if eapResp (eap_if a) then 51 else 1.
Proof.
  unfold local_rank. rewrite (e_state _ _ _ (entered_retransmit2 g a)).
  assert (eapResp (eap_if (EAP_RETRANSMIT2_Enter g a)) = eapResp (eap_if a)) as -> by simple_state. done.
Qed.
Lemma aaa_idle_rank g (a : eap_sm) : local_rank (EAP_AAA_IDLE_Enter g a) <= 1.
Proof. unfold local_rank. cbn. case_match; lia. Qed.
Lemma state_rank st (a : eap_sm) : EAP_state a = st ->
  local_rank a = match st with
                 | EAP_DISABLED => 61 | EAP_RETRANSMIT => 55 | EAP_RECEIVED | EAP_RECEIVED2 => 45
                 | EAP_INITIALIZE => 44 | EAP_PICK_UP_METHOD => 42 | EAP_INTEGRITY_CHECK => 40 | EAP_NAK => 39
                 | EAP_SELECT_ACTION => 20 | EAP_INITIALIZE_PASSTHROUGH => 19 | EAP_AAA_REQUEST => 12
                 | EAP_METHOD_REQUEST => 10 | EAP_AAA_RESPONSE => 8 | _ => local_rank a
                 end.
Proof. intros <-. unfold local_rank. now destruct (EAP_state a). Qed.

(** Entering a state that needs no more than the frame. *)
Lemma next_entered st a b : inv a -> entered st a b ->
  reauth_state st = false -> picks st = false -> (needs_method st = true -> m a <> None) ->
  (final st = true \/ local_rank b < local_rank a) -> next a b.
Proof. intros Hi [Hk Hs Hp] Hr Hu Hn Hl. apply next_keep; rewrite ?Hs; done. Qed.

(** ** The state functions that ask a method *)

Section Methods.
Context (Hreauth : erp_send_reauth_start = false).

Record reached (st : eap_state) (a b : eap_sm) : Prop := {
  r_inv : inv b;
  r_state : EAP_state b = st;
  r_port : portEnabled (eap_if b) = portEnabled (eap_if a);
  r_restart : eapRestart (eap_if b) = eapRestart (eap_if a);
  r_pending : method_pending a <> METHOD_PENDING_CONT -> method_pending b <> METHOD_PENDING_CONT
}.

(** SM_ENTRY *)
Lemma entry_same g st a : same (a <| EAP_state := st |>) (sm_entry g st a)
  /\ decision (sm_entry g st a) = decision a /\ currentMethod (sm_entry g st a) = currentMethod a.
Proof. split; [|split]; simple_state. Qed.

Ltac enter st :=
  match goal with |- context [sm_entry ?g st ?a] =>
    destruct (entry_same g st a) as ([] & ? & ?); set (a' := sm_entry g st a) in *; clearbody a'; cbn in * end.

Lemma reached_select g a : inv a -> exists b, EAP_SELECT_ACTION_Enter g a = Returns b /\ reached EAP_SELECT_ACTION a b.
Proof.
  intros Ha. unfold EAP_SELECT_ACTION_Enter. enter EAP_SELECT_ACTION. destruct Ha.
  destruct (getDecision_spec a') as (d & b & -> & [] & Hd); [unfold method_ok in *; congruence|].
  eexists. split; [reflexivity|]. split; [split|..]; unfold method_ok in *; cbn; try congruence.
  all: try (rewrite ?s_state1, ?s_state0; done).
  - intros e p. rewrite s_m1, s_m0, s_priv1, s_priv0. apply i_priv0.
  - intros e. rewrite s_m1, s_m0, s_identity1, s_identity0, s_if1, s_if0. apply i_identity0.
  - auto.
  - exact (Hd Hreauth).
Qed.

Lemma inv_vars a b : inv a -> m b = m a -> (eap_method_priv b = None <-> eap_method_priv a = None) ->
  (forall e p, m a = Some e -> eap_method_priv b = Some p -> priv_of e p) ->
  (identity a <> None -> identity b <> None) -> (0 <= user_eap_method_index a -> 0 <= user_eap_method_index b) ->
  decision b <> DECISION_INITIATE_REAUTH_START -> eapRestart (eap_if b) = eapRestart (eap_if a) ->
  reauth_state (EAP_state b) = false -> (needs_method (EAP_state b) = true -> m a <> None) ->
  picks (EAP_state b) = false -> inv b.
Proof.
  intros [] Em Ep Ev Ei Ex Ed Er Es En Eu. split; unfold method_ok in *; try done; rewrite ?Em, ?Ep, ?Er; try tauto;
    try (intros E; now rewrite E in Eu).
  intros e He. destruct (i_identity0 e He) as [|[|]]; auto.
Qed.

Lemma reached_method_request g a : inv a ->
  exists b, EAP_METHOD_REQUEST_Enter g a = Returns b /\ reached EAP_METHOD_REQUEST a b /\ (m b = None <-> m a = None).
Proof.
  intros Ha. unfold EAP_METHOD_REQUEST_Enter. enter EAP_METHOD_REQUEST. cbv zeta. rewrite s_m0. destruct (m a) as [e|] eqn:Em.
  - pose proof (nextId_same (currentId a') a') as Hn. pose proof (nextId_decision (currentId a') a') as Hnd.
    destruct (eap_sm_nextId (currentId a') a') as [id c]. cbn [snd] in *. destruct Hn.
    change (eap_method_priv (c <| currentId := id |> <| lastId := id |>)) with (eap_method_priv c).
    destruct (eap_method_priv c) as [p|] eqn:Ep.
    2:{ exfalso. destruct Ha as [Hm _ _ _ _ _ _ _ _]. unfold method_ok in Hm. rewrite Em in Hm.
        rewrite s_priv0 in s_priv1. symmetry in s_priv1. apply Hm in s_priv1. done. }
    cbn [deref]. set (c' := c <| currentId := id |> <| lastId := id |>) in *.
    assert (priv_of e p) as Hv by (apply (i_priv _ Ha e p Em); congruence).
    destruct (buildReq_vars e c' p id) as (Hvi & Hvp & Hvx). pose proof (buildReq_priv e c' p id Hv) as Hv'.
    destruct (srv_buildReq e c' p id) as [[p' v] req]. cbn [fst snd] in *.
    eexists. split; [reflexivity|]. cbn in Hvi, Hvp, Hvx.
    split; [split|]; cbn; try congruence.
    + pose proof (i_decision _ Ha). apply (inv_vars a); cbn; try done; try congruence; try tauto.
      * rewrite <- s_priv0, <- s_priv1. split; discriminate.
      * rewrite <- s_identity0, <- s_identity1. exact Hvi.
      * now rewrite s_state1, s_state0.
      * now rewrite s_state1, s_state0.
    + rewrite <- s_pending0, <- s_pending1. exact Hvp.
    + rewrite s_m1, s_m0. done.
  - eexists. split; [reflexivity|]. split; [|rewrite s_m0; done]. split; try congruence.
    pose proof (i_decision _ Ha). apply (inv_vars a); try done; try congruence; rewrite ?s_state0, ?s_priv0; done.
Qed.

Lemma selected a : inv a -> m a <> None ->
  exists e p, m a = Some e /\ eap_method_priv a = Some p /\ priv_of e p
    /\ (em_method e = EAP_TYPE_IDENTITY \/ identity a <> None \/ eapRestart (eap_if a) = true).
Proof.
  intros [Ho Hv _ _ _ Hi _ _ _] Hm. unfold method_ok in Ho. destruct (m a) as [e|] eqn:E; [|done].
  destruct (eap_method_priv a) as [p|] eqn:Ep; [|destruct Ho as [_ Ho]; now specialize (Ho eq_refl)].
  exists e, p. auto.
Qed.

Lemma reached_method_response g a : inv a -> m a <> None -> eapRestart (eap_if a) = false ->
  exists b, EAP_METHOD_RESPONSE_Enter g a = Returns b /\ reached EAP_METHOD_RESPONSE a b.
Proof.
  intros Ha Hm Hr. destruct (selected a Ha Hm) as (e & p & Em & Ep & Hv & Hid). pose proof (i_decision _ Ha).
  unfold EAP_METHOD_RESPONSE_Enter. enter EAP_METHOD_RESPONSE. destruct (negb _).
  { eexists. split; [reflexivity|]. split; try congruence. apply (inv_vars a); try done; try congruence; rewrite ?s_state0, ?s_priv0; try done; apply Ha. }
  rewrite s_m0, Em, s_priv0, Ep. cbn [deref].
  destruct (process_returns e a' p (eapRespData (eap_if a'))) as (p' & v & -> & Hv' & Hvi & Hvp & Hvx).
  { exact Hv. }
  { rewrite s_identity0. destruct Hid as [|[|]]; [auto | auto | congruence]. }
  cbn [result_bind]. rewrite s_pending0 in Hvp.
  assert (forall b, m b = m a -> eap_method_priv b = Some p' -> identity b = mv_identity v -> decision b = decision a ->
            method_pending b = mv_method_pending v -> user_eap_method_index b = mv_user_eap_method_index v ->
            EAP_state b = EAP_METHOD_RESPONSE -> portEnabled (eap_if b) = portEnabled (eap_if a) ->
            eapRestart (eap_if b) = eapRestart (eap_if a) -> reached EAP_METHOD_RESPONSE a b) as Hb.
  { intros b B1 B2 B3 B4 B5 B6 B7 B8 B9. split; try congruence. destruct Ha. split; unfold method_ok in *; try congruence.
    - rewrite B1, B2, Em. split; discriminate.
    - rewrite B1, Em. intros e' [= <-]. rewrite B3. destruct (decide (em_method e = EAP_TYPE_IDENTITY)); auto.
    - rewrite B6. auto.
    - now rewrite B7.
    - rewrite B5. exact Hvp. }
  destruct (srv_isDone e _ p'); eexists; (split; [reflexivity|]); apply Hb; cbn; congruence.
Qed.

Lemma reached_integrity g a : inv a -> m a <> None ->
  exists b, EAP_INTEGRITY_CHECK_Enter g a = Returns b /\ reached EAP_INTEGRITY_CHECK a b.
Proof.
  intros Ha Hm. destruct (selected a Ha Hm) as (e & p & Em & Ep & Hv & Hid). pose proof (i_decision _ Ha).
  unfold EAP_INTEGRITY_CHECK_Enter. enter EAP_INTEGRITY_CHECK.
  assert (forall b, same a' b -> decision b = decision a -> reached EAP_INTEGRITY_CHECK a b) as Hb.
  { intros b [] Hd. split; try congruence. apply (inv_vars a); try done; try congruence;
      rewrite ?s_state1, ?s_state0, ?s_priv1, ?s_priv0; try done; try apply Ha; auto. }
  destruct (negb _); [eexists; (split; [reflexivity|]); apply Hb; [now split | done]|].
  rewrite s_m0, Em. cbn [deref]. destruct (srv_check e) as [check|].
  - rewrite s_priv0, Ep. cbn [deref]. eexists. split; [reflexivity|]. apply Hb; [now split | done].
  - eexists. split; [reflexivity|]. apply Hb; [now split | done].
Qed.

Lemma policy_update_decision l sm : decision sm <> DECISION_INITIATE_REAUTH_START ->
  decision (eap_sm_Policy_update (priv := priv) l sm) <> DECISION_INITIATE_REAUTH_START.
Proof. unfold eap_sm_Policy_update, eap_sm_process_nak. now repeat case_match. Qed.

(** Without a method nothing is asked. *)
Lemma inv_no_method b : m b = None -> eap_method_priv b = None -> needs_method (EAP_state b) = false ->
  picks (EAP_state b) = false -> 0 <= user_eap_method_index b -> decision b <> DECISION_INITIATE_REAUTH_START ->
  reauth_state (EAP_state b) = false -> inv b.
Proof.
  intros Em Ep En Eu Ei Ed Es. split; unfold method_ok; rewrite ?Em, ?Ep, ?En; try done; intros E; now rewrite E in Eu.
Qed.

Lemma reached_nak g a : inv a -> exists b, EAP_NAK_Enter g a = Returns b /\ reached EAP_NAK a b.
Proof.
  intros Ha. pose proof (i_decision _ Ha) as Hd. pose proof (i_method _ Ha) as Ho. pose proof (i_index _ Ha) as Hx.
  unfold EAP_NAK_Enter. enter EAP_NAK. unfold method_ok in Ho.
  assert (exists c, match eap_method_priv a' with
                    | Some _ => deref (m a') (fun _ => Returns (a' <| eap_method_priv := None |>))
                    | None => Returns a'
                    end = Returns c /\ same (a' <| eap_method_priv := None |>) c /\ decision c = decision a)
    as (c & -> & [] & Hc).
  { rewrite s_priv0, s_m0. destruct (eap_method_priv a) eqn:Ep, (m a) eqn:Em; cbn [deref];
      try (eexists; split; [reflexivity|]; split; [now split | done]).
    exfalso. now destruct Ho as [Ho _]; specialize (Ho eq_refl). }
  cbn [result_bind]. cbn in *.
  assert (forall b, same (c <| m := None |>) b -> decision b <> DECISION_INITIATE_REAUTH_START -> reached EAP_NAK a b) as Hb.
  { intros b [] Hdb. cbn in *. split; try congruence. apply inv_no_method; try congruence; try done; rewrite ?s_state2, ?s_state1, ?s_state0; auto. }
  destruct (eapRespData _); [destruct (negb _)|]; eexists; (split; [reflexivity|]); apply Hb;
    try apply policy_update_same; try (apply policy_update_decision; cbn; congruence); try (now split); cbn; congruence.
Qed.

Lemma start_over_spec (a : eap_sm) : let c := start_over a in
  m c = m a /\ eap_method_priv c = eap_method_priv a /\ decision c = decision a /\ EAP_state c = EAP_state a
  /\ portEnabled (eap_if c) = portEnabled (eap_if a) /\ eapRestart (eap_if c) = false.
Proof. unfold start_over. destruct (_ && _ && _); now cbn. Qed.
Lemma forget_method_spec (c : eap_sm) : method_ok c -> let d := forget_method c in
  m d = None /\ eap_method_priv d = None /\ decision d = decision c /\ EAP_state d = EAP_state c /\ eap_if d = eap_if c
  /\ user_eap_method_index d = 0.
Proof.
  intros Ho. unfold forget_method, reset_method, method_ok in *.
  destruct (m c) eqn:Em, (eap_method_priv c) eqn:Ep; cbn; try done.
  exfalso. destruct Ho as [Ho _]. now specialize (Ho eq_refl).
Qed.
Lemma parse_first_spec (d : eap_sm) : let e := parse_first d in
  keep d e /\ EAP_state e = EAP_state d /\ eap_if e = eap_if d /\ (backend_auth (cfg e) = true -> currentMethod e = EAP_TYPE_NONE).
Proof.
  unfold parse_first. destruct (backend_auth (cfg d)) eqn:E; [|cbn; repeat split; congruence].
  cbv zeta. set (d' := d <| currentMethod := EAP_TYPE_NONE |>). set (r := eapRespData _).
  assert (keep d d' /\ EAP_state d' = EAP_state d /\ eap_if d' = eap_if d /\ currentMethod d' = EAP_TYPE_NONE)
    as ([] & ? & ? & ?) by (unfold d'; now repeat split). clearbody d' r.
  destruct (parse_same r d'), (keep_parse r d'), (parse_keeps r d').
  destruct (rxResp _); cbn; (split; [split|]); cbn; repeat split; congruence.
Qed.

Lemma initialize_after (x : eap_sm) : method_ok x -> decision x <> DECISION_INITIATE_REAUTH_START ->
  EAP_state x = EAP_INITIALIZE -> let e := parse_first (forget_method (start_over x)) in
  inv e /\ EAP_state e = EAP_INITIALIZE /\ portEnabled (eap_if e) = portEnabled (eap_if x) /\ eapRestart (eap_if e) = false.
Proof.
  intros Ho Hd Hs. cbv zeta.
  destruct (start_over_spec x) as (C1 & C2 & C3 & C4 & C5 & C6). set (c := start_over x) in *. clearbody c.
  destruct (forget_method_spec c) as (D1 & D2 & D3 & D4 & D5 & D6); [unfold method_ok in *; congruence|].
  set (d := forget_method c) in *. clearbody d.
  destruct (parse_first_spec d) as ([] & E1 & E2 & E3). set (e := parse_first d) in *. clearbody e.
  split; [|repeat split; congruence]. split; unfold method_ok; try congruence; try done.
  - rewrite k_m0, k_priv0, D1, D2. done.
  - now rewrite E1, D4, C4, Hs.
  - rewrite k_index0, D6. lia.
  - now rewrite E1, D4, C4, Hs.
Qed.

Lemma initialize_reached g a : inv a -> let b := EAP_INITIALIZE_Enter g a in
  inv b /\ EAP_state b = EAP_INITIALIZE /\ portEnabled (eap_if b) = portEnabled (eap_if a)
  /\ eapRestart (eap_if b) = false.
Proof.
  intros Ha. pose proof (i_decision _ Ha) as Hd. pose proof (i_method _ Ha) as Ho.
  destruct (entry_same g EAP_INITIALIZE a) as ([] & Ed & _). unfold EAP_INITIALIZE_Enter.
  set (x := sm_entry g EAP_INITIALIZE a) in *. clearbody x.
  destruct (initialize_after x) as (I1 & I2 & I3 & I4); [unfold method_ok in *; cbn in *; congruence | congruence | done |].
  set (e := parse_first (forget_method (start_over x))) in *. clearbody e.
  cbv zeta. destruct I1. split; [split; done|]. cbn in *. repeat split; congruence.
Qed.

Lemma disabled_reached g a : let b := EAP_DISABLED_Enter g a in
  keep a b /\ EAP_state b = EAP_DISABLED /\ portEnabled (eap_if b) = portEnabled (eap_if a).
Proof. unfold EAP_DISABLED_Enter, sm_entry. cbv zeta. now case_match; repeat split. Qed.

Lemma reset_method_spec (a : eap_sm) : method_ok a -> let b := reset_method a in
  eap_method_priv b = None /\ m b = m a /\ keep (a <| eap_method_priv := None |>) b /\ EAP_state b = EAP_state a
  /\ eap_if b = eap_if a /\ method_pending b = method_pending a /\ currentMethod b = currentMethod a
  /\ currentId b = currentId a.
Proof.
  intros Ho. unfold reset_method, method_ok in *. destruct (m a) eqn:Em, (eap_method_priv a) eqn:Ep; cbn;
    try (repeat split; cbn; congruence). exfalso. destruct Ho as [Ho _]. now specialize (Ho eq_refl).
Qed.

Lemma get_method_spec vendor type e : eap_server_get_eap_method (priv := priv) vendor type = Some e ->
  em_method e = type.
Proof. intros Hf. apply find_some in Hf as [_ Hf]. lia. Qed.

(** With a method that was just selected. *)
Lemma inv_method e p (b : eap_sm) : m b = Some e -> eap_method_priv b = Some p -> priv_of e p ->
  em_method e = EAP_TYPE_IDENTITY \/ identity b <> None -> 0 <= user_eap_method_index b ->
  decision b <> DECISION_INITIATE_REAUTH_START -> reauth_state (EAP_state b) = false -> EAP_state b <> EAP_INITIALIZE -> inv b.
Proof.
  intros Em Ep Hv Hi Hx Hd Hs Hn. split; unfold method_ok; rewrite ?Em, ?Ep; try done.
  - now intros ? ? [= <-] [= <-].
  - intros ? [= <-]. tauto.
Qed.

Lemma reached_pick_up g a : inv a -> currentMethod a = EAP_TYPE_NONE ->
  reached EAP_PICK_UP_METHOD a (EAP_PICK_UP_METHOD_Enter g a).
Proof.
  intros Ha Hc. pose proof (i_decision _ Ha) as Hd. pose proof (i_method _ Ha) as Ho. pose proof (i_index _ Ha) as Hx.
  unfold EAP_PICK_UP_METHOD_Enter. enter EAP_PICK_UP_METHOD. cbv zeta.
  destruct (eap_sm_Policy_doPickUp (respMethod a')) eqn:Edo.
  2:{ split; try congruence. destruct Ha. split; unfold method_ok in *; try congruence; rewrite ?s_state0; try done.
      - intros e p. rewrite s_m0, s_priv0. apply i_priv0.
      - intros e. rewrite s_m0, s_identity0, s_if0. apply i_identity0.
      - auto. }
  destruct (reset_method_spec (a' <| currentMethod := respMethod a' |>)) as (B1 & B2 & [] & B4 & B5 & B6 & B7 & B8);
    [unfold method_ok in *; cbn; congruence|]. set (b := reset_method _) in *. clearbody b. cbn in *.
  change ((respMethod a' =? 1) = true) in Edo. apply Z.eqb_eq in Edo. rewrite B7, Edo.
  destruct (eap_server_get_eap_method _ _) as [e|] eqn:Ee; [apply get_method_spec in Ee|]; cbn [m].
  2:{ split; cbn; try congruence. split; unfold method_ok; cbn; try congruence; rewrite ?B4, ?s_state0; try done. rewrite k_index0. auto. }
  assert (forall c : eap_sm, m c = None -> eap_method_priv c = None -> EAP_state c = EAP_PICK_UP_METHOD ->
            0 <= user_eap_method_index c -> decision c = decision a -> eap_if c = eap_if a ->
            (method_pending a <> METHOD_PENDING_CONT -> method_pending c <> METHOD_PENDING_CONT) ->
            currentMethod c = EAP_TYPE_NONE -> reached EAP_PICK_UP_METHOD a c) as Hnone.
  { intros c C1 C2 C3 C4 C5 C6 C7 C8. split; try congruence; [|exact C7]. split; unfold method_ok; rewrite ?C1, ?C2, ?C3, ?C5; done. }
  set (c := b <| m := Some e |>). destruct (srv_initPickUp e) as [init|] eqn:Ei.
  2:{ apply Hnone; cbn; try congruence. rewrite k_index0. auto. }
  destruct (pickup_vars e init c Ei) as (V1 & V2 & V3). pose proof (pickup_priv e init c) as Hv.
  destruct (init c) as [[p|] v]; cbn [fst snd] in *.
  - split; cbn; try congruence; [|rewrite <- s_pending0, <- B6; exact V2].
    eapply (inv_method e p); cbn; try congruence; auto.
    + apply V3. cbn. rewrite k_index0. auto.
    + now rewrite B4, s_state0.
  - apply Hnone; cbn; try congruence.
    + apply V3. cbn. rewrite k_index0. auto.
    + rewrite <- s_pending0, <- B6. exact V2.
Qed.

(** The data of EAP-Identity can be allocated. *)
Definition identity_allocates : Prop := forall e (sm : eap_sm),
  eap_server_get_eap_method EAP_VENDOR_IETF EAP_TYPE_IDENTITY = Some e -> (srv_init e sm).1 <> None.

(** Nothing is followed through NULL, and only the loop over EAP-Identity may not end. *)
Definition safe {A} (P : A -> Prop) (r : result A) : Prop :=
  match r with Returns b => P b | NullPointer => False | OutOfFuel => ~ identity_allocates end.

Lemma getNextMethod_spec (c : eap_sm) : exists vendor type d, eap_sm_Policy_getNextMethod c = (vendor, type, d)
  /\ keep c (d <| user_eap_method_index := user_eap_method_index c |>) /\ EAP_state d = EAP_state c /\ eap_if d = eap_if c
  /\ method_pending d = method_pending c
  /\ ((vendor = EAP_VENDOR_IETF /\ type = EAP_TYPE_IDENTITY /\ user_eap_method_index d = user_eap_method_index c)
      \/ (identity c <> None /\ user_eap_method_index d = user_eap_method_index c + 1
          /\ user_eap_method_index c < Z.of_nat EAP_MAX_METHODS)
      \/ (vendor = EAP_VENDOR_IETF /\ type = EAP_TYPE_NONE /\ user_eap_method_index d = user_eap_method_index c)).
Proof.
  unfold eap_sm_Policy_getNextMethod. destruct (bool_decide (identity c = None)) eqn:Ei; cbn [orb].
  { eexists _, _, _. split; [reflexivity|]. repeat split. now left. }
  apply bool_decide_eq_false_1 in Ei. destruct (currentId c =? -1).
  { eexists _, _, _. split; [reflexivity|]. repeat split. now left. }
  destruct (configured_method c) as [[vendor next]|] eqn:Ec.
  - eexists _, _, _. split; [reflexivity|]. repeat split. right. left. repeat split; try done.
    unfold configured_method in Ec. destruct (user c); [|done].
    destruct (Z.ltb_spec (user_eap_method_index c) (Z.of_nat EAP_MAX_METHODS)); done.
  - eexists _, _, _. split; [reflexivity|]. repeat split. auto.
Qed.

Definition proposing (c : eap_sm) : Prop :=
  EAP_state c = EAP_PROPOSE_METHOD /\ 0 <= user_eap_method_index c /\ decision c <> DECISION_INITIATE_REAUTH_START.
Definition proposable (c : eap_sm) : Prop := method_ok c /\ proposing c.

Lemma reached_from st (c d b : eap_sm) : eap_if d = eap_if c ->
  (method_pending c <> METHOD_PENDING_CONT -> method_pending d <> METHOD_PENDING_CONT) -> reached st d b -> reached st c b.
Proof. intros E1 E2 []. split; try congruence. auto. Qed.

(** The data of the chosen method is set up, or the method is forgotten. *)
Lemma init_proposed (d : eap_sm) e : proposing d -> m d = Some e -> em_method e = EAP_TYPE_IDENTITY \/ identity d <> None ->
  let r := srv_init e d in
  let b := store_method_vars r.2 d <| eap_method_priv := r.1 |> in
  match r.1 with
  | Some _ => forall st, reached EAP_PROPOSE_METHOD d (b <| methodState := st |>)
  | None => forall c, c = b <| m := None |> <| currentMethod := EAP_TYPE_NONE |> ->
      proposable c /\ (method_pending d <> METHOD_PENDING_CONT -> method_pending c <> METHOD_PENDING_CONT)
      /\ user_eap_method_index c = user_eap_method_index d /\ eap_if c = eap_if d
  end.
Proof.
  intros (Hs & Hx & Hd) Em Hi. cbv zeta. destruct (init_vars e d) as (V1 & V2 & V3).
  pose proof (init_index e d) as Hix. pose proof (init_priv e d) as Hv.
  destruct (srv_init e d) as [[p|] v]; cbn [fst snd] in *.
  - intros st. split; cbn; try done; try congruence. eapply (inv_method e p); cbn; auto; try congruence.
    + destruct Hi; auto.
    + now rewrite Hs.
  - intros c ->. split; [|split; [exact V2 | now split]]. repeat split; cbn; auto.
Qed.

Lemma propose_loop fuel : forall c, proposable c ->
  match try_another_method fuel c with
  | Returns b => reached EAP_PROPOSE_METHOD c b
  | NullPointer => False
  | OutOfFuel => identity_allocates -> Z.of_nat fuel <= Z.max 0 (Z.of_nat EAP_MAX_METHODS - user_eap_method_index c)
  end.
Proof.
  induction fuel as [|fuel IH]; intros c (Ho & Hs & Hx & Hd); cbn [try_another_method]; [lia|].
  destruct (getNextMethod_spec c) as (vendor & type & d & -> & [] & Ds & Di & Dp & Hcase). cbn in *.
  match goal with |- context [reset_method ?x] => set (y := x) end.
  destruct (reset_method_spec y) as (B1 & B2 & [] & B4 & B5 & B6 & B7 & B8); [unfold method_ok in *; cbn; congruence|].
  set (z := reset_method y) in *. clearbody z. cbn in *.
  destruct (eap_server_get_eap_method vendor type) as [e|] eqn:Ee.
  2:{ split; cbn; try congruence. apply inv_no_method; cbn; try congruence; rewrite ?B4, ?Ds, ?Hs; try done. lia. }
  set (x := z <| m := Some e |>).
  assert (proposing x) as Hx'.
  { repeat split; cbn; try congruence. destruct Hcase as [(_ & _ & ?) | [(_ & ? & _) | (_ & _ & ?)]]; lia. }
  pose proof (init_proposed x e Hx' eq_refl) as Hr. lapply Hr; clear Hr; [intros Hr|].
  2:{ cbn. rewrite k_identity1, k_identity0. destruct Hcase as [(_ & -> & _) | [[Hi _] | (-> & -> & _)]]; [|auto|].
    - left. exact (get_method_spec _ _ _ Ee).
    - rewrite no_method_none in Ee. done. }
  assert (user_eap_method_index x = user_eap_method_index d /\ eap_if x = eap_if c /\ method_pending x = method_pending c)
    as (X1 & X2 & X3) by (unfold x; cbn; repeat split; congruence).
  destruct (srv_init e x) as [[p|] v] eqn:Einit; cbn [fst snd] in Hr.
  - apply (reached_from _ c x); [done | now rewrite X3 | apply Hr].
  - set (c' := store_method_vars v x <| eap_method_priv := None |> <| m := None |> <| currentMethod := EAP_TYPE_NONE |>).
    destruct (Hr c' eq_refl) as (Hp & Hpend & X4 & X5). clear Hr.
    specialize (IH c' Hp). fold c'. clearbody c'. destruct (try_another_method fuel c') as [b| |]; [|done|].
    + apply (reached_from _ c c'); [congruence | now rewrite <- X3 | done].
    + intros Hid. specialize (IH Hid). destruct Hcase as [(-> & -> & _) | [(_ & Hi & Hlt) | (-> & -> & _)]].
      * apply (Hid e x) in Ee. now rewrite Einit in Ee.
      * lia.
      * rewrite no_method_none in Ee. done.
Qed.

Lemma reached_propose g a : inv a -> safe (reached EAP_PROPOSE_METHOD a) (EAP_PROPOSE_METHOD_Enter g a).
Proof.
  intros Ha. pose proof (i_decision _ Ha) as Hd. pose proof (i_method _ Ha) as Ho. pose proof (i_index _ Ha) as Hx.
  unfold EAP_PROPOSE_METHOD_Enter. assert (Z.of_nat (EAP_MAX_METHODS + 2) = 10) as Hn by done.
  set (n := (EAP_MAX_METHODS + 2)%nat) in *. clearbody n. enter EAP_PROPOSE_METHOD.
  set (c := a' <| try_initiate_reauth := false |>).
  assert (proposable c /\ eap_if c = eap_if a /\ method_pending c = method_pending a) as (Hp & E1 & E2).
  { unfold proposable, proposing, method_ok in *. cbn. repeat split; try congruence; try (rewrite s_m0, s_priv0; apply Ho). auto. }
  clearbody c. pose proof (propose_loop n c Hp) as Hl.
  destruct (try_another_method _ c) as [b| |]; cbn [safe]; [|done|].
  - apply (reached_from _ a c); [done | now rewrite E2 | done].
  - intros Hid. specialize (Hl Hid). destruct Hp as (_ & _ & Hi & _). unfold EAP_MAX_METHODS in Hl. lia.
Qed.

Lemma reached_next st a b : inv a -> reached st a b -> final st = true \/ local_rank b < local_rank a -> next a b.
Proof. intros Ha [] Hl. split; try done. intros _. now rewrite r_state0. Qed.

Lemma local_rank_le (b : eap_sm) : local_rank b <= match EAP_state b with
  | EAP_METHOD_RESPONSE => 31 | EAP_PROPOSE_METHOD => 16 | _ => local_rank b end.
Proof. unfold local_rank. destruct (EAP_state b); try lia; case_match; lia. Qed.

(** A step that enters a state by asking a method, from a state of higher rank. *)
Lemma safe_reached st a r : inv a -> (exists b, r = Returns b /\ reached st a b) ->
  match st with EAP_SELECT_ACTION => 20 | EAP_NAK => 39 | EAP_INTEGRITY_CHECK => 40 | EAP_METHOD_RESPONSE => 31
              | EAP_METHOD_REQUEST => 10 | _ => local_rank a end < local_rank a -> safe (next a) r.
Proof.
  intros Ha (b & -> & Hb) Hl. cbn [safe]. apply (reached_next st); [done | done |]. right.
  pose proof (r_state _ _ _ Hb) as Es. pose proof (state_rank _ _ Es) as Hr. pose proof (local_rank_le b) as Hle.
  rewrite Es in Hle. destruct st; try (rewrite Hr in * ); lia.
Qed.

Lemma safe_propose a c r : inv a -> eap_if c = eap_if a -> method_pending c <> METHOD_PENDING_CONT \/ 16 < local_rank a ->
  15 < local_rank a -> safe (reached EAP_PROPOSE_METHOD c) r -> safe (next a) r.
Proof.
  intros Ha Ei Hp Hl. destruct r as [b| |]; cbn [safe]; [|done|done]. intros Hb.
  destruct Hb as [Hi Hs Hport Hre Hpend]. split; try congruence. intros _. right.
  pose proof (local_rank_le b) as Hle. rewrite Hs in Hle. destruct Hp as [Hp | Hp]; [|lia].
  unfold local_rank at 1. rewrite Hs. rewrite decide_False by auto. lia.
Qed.

(** The other steps of the machine. *)
Lemma next_stay a : inv a -> changed a = false -> next a a.
Proof. intros Ha Hc. split; try done. congruence. Qed.

Ltac goes_to L :=
  match goal with H : inv _ |- _ => apply (next_entered _ _ _ H L); [done | done | now (try done; intros _; auto) | ] end.

Lemma local_step_forward a : inv a -> changed a = false ->
  match EAP_state a with
  | EAP_DISABLED | EAP_IDLE2 | EAP_RETRANSMIT | EAP_DISCARD | EAP_SEND_REQUEST | EAP_INITIALIZE_PASSTHROUGH | EAP_RETRANSMIT2
  | EAP_RECEIVED2 | EAP_DISCARD2 | EAP_SEND_REQUEST2 | EAP_AAA_REQUEST | EAP_AAA_RESPONSE | EAP_AAA_IDLE => True
  | _ => False
  end -> eapRestart (eap_if a) = false -> portEnabled (eap_if a) = true -> safe (next a) (eap_sm_step_local a).
Proof.
  intros Ha Hc Hs Hr Hp. pose proof (i_needs _ Ha) as Hn. pose proof (state_rank _ a eq_refl) as Hk.
  unfold eap_sm_step_local. destruct (EAP_state a) eqn:Es; try done; cbn [safe].
  - rewrite Hp. destruct (initialize_reached false a Ha) as (I1 & I2 & I3 & I4).
    split; [done | done | congruence | intros _; right]. rewrite (state_rank _ _ I2), Hk. lia.
  - goes_to (entered_idle false a). right. rewrite idle_rank. unfold local_rank. rewrite Es. now destruct (eapResp _).
  - goes_to (entered_idle false a). right. rewrite idle_rank. unfold local_rank. rewrite Es. now destruct (eapResp _).
  - destruct (MaxRetrans a <? retransCount a).
    + goes_to (entered_timeout false a). now left.
    + goes_to (entered_idle false a). right. rewrite idle_rank, Hk. now case_match.
  - destruct (currentId a =? -1).
    + goes_to (entered_aaa_idle false a). right. pose proof (aaa_idle_rank false a). lia.
    + goes_to (entered_aaa_request false a). right. rewrite (state_rank _ _ (e_state _ _ _ (entered_aaa_request false a))), Hk. lia.
  - clear Hk. unfold local_rank. destruct (eapResp _) eqn:Er; [|destruct (retransWhile _ =? 0) eqn:Ew].
    + goes_to (entered_received2 false a). right.
      rewrite (state_rank _ _ (e_state _ _ _ (entered_received2 false a))). unfold local_rank. now rewrite Es, Er.
    + goes_to (entered_retransmit2 false a). right. rewrite retransmit2_rank, Er. unfold local_rank. now rewrite Es, Er, Ew.
    + now apply next_stay.
  - destruct (MaxRetrans a <? retransCount a).
    + goes_to (entered_timeout2 false a). now left.
    + goes_to (entered_idle2 false a). right. rewrite idle2_rank. unfold local_rank. rewrite Es. now destruct (eapResp _).
  - destruct (_ && _).
    + goes_to (entered_aaa_request false a). right. rewrite (state_rank _ _ (e_state _ _ _ (entered_aaa_request false a))), Hk. lia.
    + goes_to (entered_discard2 false a). right. rewrite discard2_rank, Hk. lia.
  - goes_to (entered_idle2 false a). right. rewrite idle2_rank. unfold local_rank. rewrite Es. now destruct (eapResp _).
  - goes_to (entered_idle2 false a). right. rewrite idle2_rank. unfold local_rank. rewrite Es. now destruct (eapResp _).
  - goes_to (entered_aaa_idle false a). right. pose proof (aaa_idle_rank false a). lia.
  - goes_to (entered_send_request2 false a). right. rewrite send_request2_rank, Hk. lia.
  - clear Hk. destruct (aaaFail _) eqn:E1; [|destruct (aaaSuccess _) eqn:E2; [|destruct (aaaEapReq _) eqn:E3; [|destruct (aaaTimeout _)]]].
    + goes_to (entered_failure2 false a). now left.
    + goes_to (entered_success2 false a). now left.
    + goes_to (entered_aaa_response false a). right.
      rewrite (state_rank _ _ (e_state _ _ _ (entered_aaa_response false a))). unfold local_rank. now rewrite Es, E1, E2, E3.
    + goes_to (entered_timeout2 false a). now left.
    + now apply next_stay.
Qed.

(** The states that end the authentication, and the others. *)
Lemma local_step_final a : inv a -> changed a = false -> final (EAP_state a) = true ->
  safe (next a) (eap_sm_step_local a).
Proof. intros Ha Hc Hf. unfold eap_sm_step_local. destruct (EAP_state a); try done; now apply next_stay. Qed.

Ltac asks L := eapply safe_reached; [eassumption | exact L | cbv iota; lia].

Lemma local_step_start a : inv a -> changed a = false ->
  match EAP_state a with EAP_INITIALIZE | EAP_PICK_UP_METHOD | EAP_NAK | EAP_SELECT_ACTION => True | _ => False end ->
  eapRestart (eap_if a) = false -> safe (next a) (eap_sm_step_local a).
Proof.
  intros Ha Hc Hs Hr. pose proof (state_rank _ a eq_refl) as Hk. pose proof (reached_select false a Ha) as Hsel.
  unfold eap_sm_step_local. destruct (EAP_state a) eqn:Es; try done.
  - destruct (backend_auth (cfg a)) eqn:Eb; [|asks Hsel]. destruct (negb _); [asks Hsel|].
    destruct (is_nak a); [asks (reached_nak false a Ha)|]. cbn [safe].
    pose proof (reached_pick_up false a Ha (i_init _ Ha Es Eb)) as Hb. apply (reached_next _ _ _ Ha Hb). right.
    rewrite (state_rank _ _ (r_state _ _ _ Hb)), Hk. lia.
  - destruct (decision a) eqn:Ed.
    + goes_to (entered_success false a). now left.
    + goes_to (entered_failure false a). now left.
    + pose proof (reached_propose false a Ha) as Hb.
      apply (safe_propose a a _ Ha eq_refl); [right | | done]; rewrite Hk; lia.
    + goes_to (entered_passthrough false a). right.
      rewrite (state_rank _ _ (e_state _ _ _ (entered_passthrough false a))), Hk. lia.
    + now destruct (i_decision _ Ha).
  - asks Hsel.
  - destruct (Z.eqb_spec (currentMethod a) EAP_TYPE_NONE) as [|Hne]; [asks Hsel|].
    asks (reached_method_response false a Ha (i_pickup _ Ha Es Hne) Hr).
Qed.

Lemma inv_pending (a : eap_sm) : inv a -> inv (a <| method_pending := METHOD_PENDING_NONE |>).
Proof. intros []. now split. Qed.

Lemma safe_next_from a c r : eap_if c = eap_if a -> local_rank c <= local_rank a -> safe (next c) r -> safe (next a) r.
Proof.
  intros E Hl. destruct r as [b| |]; cbn [safe]; [|done|done]. intros []. split; try congruence.
  intros Hc. destruct (n_rank0 Hc); [auto|]. right. lia.
Qed.

Lemma local_step_input a : inv a -> changed a = false ->
  match EAP_state a with EAP_IDLE | EAP_RECEIVED | EAP_INTEGRITY_CHECK => True | _ => False end ->
  eapRestart (eap_if a) = false -> safe (next a) (eap_sm_step_local a).
Proof.
  intros Ha Hc Hs Hr. pose proof (state_rank _ a eq_refl) as Hk. pose proof (i_needs _ Ha) as Hn.
  unfold eap_sm_step_local. destruct (EAP_state a) eqn:Es; try done.
  - clear Hk. destruct (retransWhile _ =? 0) eqn:Ew.
    + destruct (try_initiate_reauth a).
      * set (c := a <| try_initiate_reauth := false |>).
        assert (inv c /\ eap_if c = eap_if a /\ local_rank c = local_rank a /\ 20 < local_rank c) as (Hi & E1 & E2 & E3).
        { split; [now destruct Ha|]. repeat split. unfold local_rank. cbn. rewrite Es. cbn. now rewrite Ew. }
        clearbody c. apply (safe_next_from a c); [done | lia|]. asks (reached_select false c Hi).
      * goes_to (entered_retransmit false a). right.
        rewrite (state_rank _ _ (e_state _ _ _ (entered_retransmit false a))). unfold local_rank. now rewrite Es, Ew.
    + cbn [safe]. destruct (eapResp _) eqn:Er; [|now apply next_stay].
      goes_to (entered_received false a). right.
      rewrite (state_rank _ _ (e_state _ _ _ (entered_received false a))). unfold local_rank. now rewrite Es, Ew, Er.
  - destruct (_ && _ && _ && _); [asks (reached_nak false a Ha)|].
    destruct (_ && _ && _); [asks (reached_integrity false a Ha (Hn eq_refl))|].
    goes_to (entered_discard false a). right. rewrite discard_rank, Hk. lia.
  - destruct (ignore a).
    + goes_to (entered_discard false a). right. rewrite discard_rank, Hk. lia.
    + asks (reached_method_response false a Ha (Hn eq_refl) Hr).
Qed.

Lemma local_step_request a : inv a -> changed a = false -> EAP_state a = EAP_METHOD_REQUEST ->
  safe (next a) (eap_sm_step_local a).
Proof.
  intros Ha Hc Es. pose proof (state_rank _ _ Es) as Hk. unfold eap_sm_step_local. rewrite Es.
  destruct (m a) as [e|] eqn:Em.
  2:{ goes_to (entered_failure false a). now left. }
  assert (next a (EAP_SEND_REQUEST_Enter false a)) as Hs.
  { apply (next_entered _ _ _ Ha (entered_send_request false a)); [done | done | congruence|].
    right. rewrite send_request_rank, Hk. lia. }
  cbv zeta. cbn [safe]. set (b := EAP_SEND_REQUEST_Enter false a) in *. clearbody b.
  destruct (_ && _); [|done]. destruct Hs as [Hi Hp Hre _].
  destruct (entered_failure false b) as [Hkb Hsb Hpb]. set (f := EAP_FAILURE_Enter false b) in *. clearbody f.
  split; [|congruence | now rewrite (k_restart _ _ Hkb) | rewrite Hsb; now left].
  apply (inv_keep b); rewrite ?Hsb; done.
Qed.

Lemma local_step_pending a : inv a -> changed a = false ->
  EAP_state a = EAP_METHOD_RESPONSE \/ EAP_state a = EAP_PROPOSE_METHOD ->
  eapRestart (eap_if a) = false -> safe (next a) (eap_sm_step_local a).
Proof.
  intros Ha Hc Hs Hr. pose proof (i_needs _ Ha) as Hn. pose proof (inv_pending a Ha) as Hi.
  assert (safe (next a) (EAP_METHOD_REQUEST_Enter false a)) as Hreq.
  { destruct (reached_method_request false a Ha) as (b & Eb & Hb & _). apply (safe_reached EAP_METHOD_REQUEST); [done | eauto |].
    unfold local_rank. destruct Hs as [-> | ->]; case_match; lia. }
  unfold eap_sm_step_local. destruct Hs as [Es | Es]; rewrite Es.
  - destruct (bool_decide _).
    { apply (safe_reached EAP_SELECT_ACTION _ _ Ha (reached_select false a Ha)). unfold local_rank. rewrite Es. case_match; lia. }
    destruct (method_pending a) eqn:Ep; [done | now apply next_stay|].
    set (c := a <| method_pending := METHOD_PENDING_NONE |>) in *.
    assert (eap_if c = eap_if a /\ m c = m a /\ method_pending c = METHOD_PENDING_NONE) as (E1 & E2 & E3) by done.
    assert (local_rank a = 31) as Hk by (unfold local_rank; now rewrite Es, Ep).
    clearbody c. destruct (reached_method_response false c Hi) as (b & -> & []); [rewrite E2; now apply Hn; rewrite Es | congruence|].
    cbn [safe]. split; try congruence. intros _. right. rewrite Hk. unfold local_rank. rewrite r_state0.
    rewrite decide_False; [lia|]. apply r_pending0. now rewrite E3.
  - destruct (method_pending a) eqn:Ep; [done | |].
    + cbn [safe]. destruct (Z.ltb_spec 0 (user_eap_method_index a)); [|now apply next_stay].
      split; try done; [|cbn; congruence]. destruct Ha. split; try done. cbn. lia.
    + set (c := a <| method_pending := METHOD_PENDING_NONE |>) in *.
      assert (eap_if c = eap_if a /\ method_pending c = METHOD_PENDING_NONE) as (E1 & E2) by done.
      assert (local_rank a = 16) as Hk by (unfold local_rank; now rewrite Es, Ep).
      clearbody c. apply (safe_propose a c); [done | done | left; congruence | lia | now apply reached_propose].
Qed.

(** A pass through the switch of SM_STEP. *)
Lemma local_step a : inv a -> changed a = false -> eapRestart (eap_if a) = false -> portEnabled (eap_if a) = true ->
  safe (next a) (eap_sm_step_local a).
Proof.
  intros Ha Hc Hr Hp. pose proof (i_state _ Ha) as Hs.
  pose proof (local_step_final a Ha Hc). pose proof (local_step_forward a Ha Hc). pose proof (local_step_start a Ha Hc).
  pose proof (local_step_input a Ha Hc). pose proof (local_step_request a Ha Hc). pose proof (local_step_pending a Ha Hc).
  destruct (EAP_state a); try done; auto.
Qed.

(** ** A pass of SM_STEP *)

Record passed (a b : eap_sm) : Prop := {
  p_inv : inv b;
  p_rank : changed b = true -> rank b < rank a
}.

(** Too many rounds: FAILURE is entered once. *)
Lemma failure_passed a c : inv a -> keep a c -> eap_if c = eap_if a -> EAP_state c = EAP_state a -> changed c = false ->
  portEnabled (eap_if a) = true -> eapRestart (eap_if a) = false -> over a = true ->
  passed a (EAP_FAILURE_Enter true c).
Proof.
  intros Ha Hk Hi Es Hc Hp Hr Ho. destruct (entered_failure true c) as [Hkf Hsf Hpf].
  assert (changed (EAP_FAILURE_Enter true c) = true -> EAP_state a <> EAP_FAILURE) as Hch.
  { rewrite <- Es. unfold EAP_FAILURE_Enter, sm_entry. cbn. destruct (bool_decide (EAP_state c <> EAP_FAILURE)) eqn:E; [|cbn; congruence].
    now apply bool_decide_eq_true_1 in E. }
  set (f := EAP_FAILURE_Enter true c) in *. clearbody f. pose proof (keep_trans _ _ _ Hk Hkf) as Hkk. split.
  - apply (inv_keep a); rewrite ?Hsf; done.
  - intros E. specialize (Hch E). unfold rank. rewrite Hpf, Hsf, (k_restart _ _ Hkk), Hi, Hp, Hr, Ho. cbn [negb].
    rewrite decide_True by done. rewrite decide_False by done. lia.
Qed.

Lemma same_passed a : inv a -> changed a = false -> passed a a.
Proof. intros Ha Hc. split; [done | congruence]. Qed.

Lemma step_forced a : inv a -> changed a = false -> portEnabled (eap_if a) = false \/ eapRestart (eap_if a) = true ->
  exists b, EAP_Step a = Returns b /\ passed a b.
Proof.
  intros Ha Hc Hf. unfold EAP_Step. cbv zeta. destruct (portEnabled (eap_if a)) eqn:Ep.
  - destruct Hf as [? | Hr]; [done|]. rewrite Hr. eexists. split; [reflexivity|].
    destruct (initialize_reached true a Ha) as (I1 & I2 & I3 & I4). split; [done|]. intros _.
    rewrite Ep in I3. pose proof (rank_local _ I3 I4) as Hl. rewrite (state_rank _ _ I2) in Hl.
    assert (rank a = 100) as -> by (unfold rank; now rewrite Ep, Hr). lia.
  - rewrite andb_false_r. cbn [negb]. eexists. split; [reflexivity|].
    destruct (disabled_reached true a) as (D1 & D2 & D3).
    assert (changed (EAP_DISABLED_Enter true a) = true -> EAP_state a <> EAP_DISABLED) as Hch.
    { unfold EAP_DISABLED_Enter, sm_entry. cbn. destruct (bool_decide (EAP_state a <> EAP_DISABLED)) eqn:E; [|cbn; congruence].
      now apply bool_decide_eq_true_1 in E. }
    set (b := EAP_DISABLED_Enter true a) in *. clearbody b. split.
    + apply (inv_keep a); rewrite ?D2; done.
    + intros E. specialize (Hch E). unfold rank. rewrite D3, D2, Ep. cbn [negb]. rewrite decide_True by done. rewrite decide_False by done. lia.
Qed.

Lemma step_passes a : inv a -> changed a = false -> safe (passed a) (EAP_Step a).
Proof.
  intros Ha Hc. destruct (portEnabled (eap_if a)) eqn:Ep; [destruct (eapRestart (eap_if a)) eqn:Er|].
  1,3: destruct (step_forced a Ha Hc) as (b & -> & Hb); [auto | done].
  unfold EAP_Step. cbv zeta. rewrite Ep, Er. cbn [andb negb].
  destruct (u32 (max_auth_rounds (cfg a)) <? num_rounds a) eqn:E1.
  { destruct (_ =? _); cbn [safe]; [|now apply same_passed]. apply failure_passed; try done. unfold over. now rewrite E1. }
  destruct (u32 (max_auth_rounds_short (cfg a)) <? num_rounds_short a) eqn:E2.
  { destruct (_ =? _); cbn [safe]; [|now apply same_passed]. apply failure_passed; try done. unfold over. now rewrite E1, E2. }
  assert (over a = false) as Ho by (unfold over; now rewrite E1, E2).
  pose proof (local_step a Ha Hc Er Ep) as Hl. destruct (final (EAP_state a)) eqn:Ef.
  - unfold eap_sm_step_local in *. destruct (EAP_state a); try done; cbn [safe]; now apply same_passed.
  - destruct (eap_sm_step_local a) as [b| |]; cbn [safe] in *; [|done|done]. split; [apply Hl|].
    now apply next_rank.
Qed.

Lemma step_loop fuel : forall res a, inv a ->
  match eap_server_sm_step_loop fuel res a with
  | Returns (_, b) => inv b
  | NullPointer => False
  | OutOfFuel => identity_allocates -> Z.of_nat fuel <= rank a
  end.
Proof.
  assert (forall a, 0 <= rank a) as Hpos.
  { intros a. pose proof (local_rank_nonneg a). unfold rank. repeat case_match; lia. }
  induction fuel as [|fuel IH]; intros res a Ha; cbn [eap_server_sm_step_loop]; [intros; apply Hpos|].
  set (c := a <| changed := false |>).
  assert (inv c /\ changed c = false /\ rank c = rank a) as (Hi & Hc & Hk) by (split; [now destruct Ha | done]).
  clearbody c. pose proof (step_passes c Hi Hc) as Hp. destruct (EAP_Step c) as [b| |]; cbn [result_bind safe] in *; [|done|done].
  destruct Hp as [Hb Hr]. destruct (changed b); [|done]. specialize (IH true b Hb). specialize (Hr eq_refl).
  destruct (eap_server_sm_step_loop fuel true b) as [[? ?]| |]; [done..|]. intros Hid. specialize (IH Hid). lia.
Qed.

Lemma server_rank_bound a : rank a <= 100.
Proof.
  unfold rank, local_rank. repeat case_match; lia.
Qed.

(** ** Runs of the machine *)

(** What the lower layer can do to it between two steps: run the machine, change the variables
    of the interface as long as it does not take back a restart, restart with the identity
    cleared (hostapd's restart of a station), report a cached success or the end of a pending
    operation. *)
Inductive run : eap_sm -> Prop :=
| run_init conf sm : eap_server_sm_init true conf = Some sm -> run sm
| run_step sm r sm' : run sm -> eap_server_sm_step sm = Returns (r, sm') -> run sm'
| run_interface f sm : run sm -> (eapRestart (eap_if sm) = true -> eapRestart (f (eap_if sm)) = true) -> run (on_if f sm)
| run_restart sm : run sm -> run (on_if (fun i => i <| eapRestart := true |>) (eap_server_clear_identity sm))
| run_cached sm : run sm -> run (eap_sm_notify_cached sm)
| run_pending sm : run sm -> run (eap_sm_pending_cb sm).

Lemma run_inv sm : run sm -> inv sm.
Proof.
  induction 1 as [conf sm Hi | sm r sm' _ IH Hs | f sm _ IH Hf | sm _ IH | sm _ IH | sm _ IH].
  - injection Hi as <-. now split.
  - pose proof (step_loop SERVER_STEP_FUEL false sm IH) as Hl. unfold eap_server_sm_step in Hs. now rewrite Hs in Hl.
  - destruct IH. split; try done. intros e He. destruct (i_identity0 e He) as [|[|]]; cbn; auto.
  - destruct IH. split; try done. intros e He. cbn. auto.
  - destruct IH. split; done.
  - destruct IH. unfold eap_sm_pending_cb. case_match; split; done.
Qed.

End Methods.
End Props.

#[local] Opaque SERVER_STEP_FUEL.

(** C13. Whatever the lower layer does with the EAP server between its steps, and whatever
    frames the peer sends, the step function follows no NULL pointer: a method is selected
    wherever [sm->m] is used, and its data and the identity it needs are there.  The hypothesis
    is that the configuration does not ask for EAP-Initiate/Re-auth-Start, see
    [reauth_start_null_pointer]. *)
Theorem eap_server_safe {priv} `{SM : ServerMethods priv} `{!ServerMethodsLaws} `{SE : ServerEnv} `{OA : OsAlloc}
  (sm : eap_sm priv) : erp_send_reauth_start = false -> run sm -> eap_server_sm_step sm <> NullPointer.
Proof.
  intros Hr Hs. apply (run_inv Hr) in Hs. pose proof (step_loop Hr SERVER_STEP_FUEL false sm Hs) as Hl.
  unfold eap_server_sm_step. now destruct (eap_server_sm_step_loop _ _ _).
Qed.

(** C14. The step function of the EAP server ends in every run, within [SERVER_STEP_FUEL] passes,
    if the data of EAP-Identity can be allocated and the configuration does not ask for
    EAP-Initiate/Re-auth-Start (with which the step can reach the NULL pointer above): each
    pass that changes the state lowers the rank of the state, which is at most 100. *)
Theorem eap_server_sm_step_terminates {priv} `{SM : ServerMethods priv} `{!ServerMethodsLaws} `{SE : ServerEnv} `{OA : OsAlloc}
  (sm : eap_sm priv) : erp_send_reauth_start = false -> identity_allocates (priv := priv) -> run sm ->
  exists r sm', eap_server_sm_step sm = Returns (r, sm').
Proof.
  intros Hr Hid Hs. apply (run_inv Hr) in Hs. pose proof (step_loop Hr SERVER_STEP_FUEL false sm Hs) as Hl.
  unfold eap_server_sm_step. destruct (eap_server_sm_step_loop _ _ _) as [[r b]| |]; [eauto | done|].
  specialize (Hl Hid). pose proof (server_rank_bound sm) as Hb. exfalso.
  assert (Z.of_nat SERVER_STEP_FUEL = 200) as E by reflexivity. lia.
Qed.

(** ** What a Nak leaves *)

Definition none_entry (e : Z * Z) : bool := (e.1 =? EAP_VENDOR_IETF) && (e.2 =? EAP_TYPE_NONE).
Definition wanted (nak_list : bytes) (e : Z * Z) : bool := (e.1 =? EAP_VENDOR_IETF) && bool_decide (e.2 ∈ nak_list).

Lemma remove_method_spec i (pre : list (Z * Z)) e post : length pre = i -> (i + 1 + length post = EAP_MAX_METHODS)%nat ->
  remove_method i (pre ++ e :: post) = pre ++ post ++ [(EAP_VENDOR_IETF, EAP_TYPE_NONE)].
Proof.
  intros Hi Hl. unfold remove_method. replace (take i (pre ++ e :: post)) with pre by (now rewrite take_app_length').
  replace (drop (i + 1) (pre ++ e :: post)) with post.
  2:{ rewrite drop_app_ge by lia. now replace (i + 1 - length pre)%nat with 1%nat by lia. }
  destruct (Nat.ltb_spec (i + 1) EAP_MAX_METHODS) as [Hlt | Hge]; cbv zeta.
  - set (t := drop _ _). assert (length t = 1%nat) as Ht.
    { unfold t. rewrite length_drop, length_app. cbn [length]. unfold EAP_MAX_METHODS in *. lia. }
    destruct t as [|y [|? ?]]; try done. rewrite (app_assoc pre post), insert_app_r_alt by (rewrite length_app; lia).
    rewrite <- app_assoc. rewrite length_app. now replace (EAP_MAX_METHODS - 1 - (length pre + length post))%nat with 0%nat by lia.
  - destruct post; [|cbn in Hl; lia]. rewrite insert_app_r_alt by lia.
    now replace (EAP_MAX_METHODS - 1 - length pre)%nat with 0%nat by lia.
Qed.

(** Of the methods from [length pre] on to the end of the list, those that the peer asked for
    stay, in their order; the entries behind move up. *)
Lemma nak_loop_spec nak_list act : forall fuel pre rest, (length (pre ++ act ++ rest) = EAP_MAX_METHODS)%nat ->
  Forall (fun e => none_entry e = false) act -> match rest with [] => True | e :: _ => none_entry e = true end ->
  (length act < fuel)%nat ->
  nak_loop fuel (length pre) nak_list (pre ++ act ++ rest)
  = pre ++ filter (fun e => wanted nak_list e = true) act ++ rest
      ++ replicate (length (filter (fun e => wanted nak_list e = false) act)) (EAP_VENDOR_IETF, EAP_TYPE_NONE).
Proof.
  induction act as [|[vendor method] act IH]; intros [|fuel] pre rest Hl Ha Hr Hf; try (cbn in Hf; lia);
    cbn [nak_loop]; rewrite lookup_app_r, Nat.sub_diag by lia.
  - cbn [app filter list_filter length replicate]. rewrite app_nil_r. destruct rest as [|[v t] rest]; [done|]. cbn [lookup list_lookup].
    unfold none_entry in Hr. cbn in Hr. now rewrite Hr, orb_true_r.
  - cbn [lookup list_lookup app]. inversion_clear Ha as [|? ? Hn Ha']. unfold none_entry in Hn. cbn in Hn.
    rewrite length_app in Hl. cbn in Hl. destruct (Nat.ltb_spec (length pre) EAP_MAX_METHODS); [|lia]. cbn [negb orb].
    rewrite Hn. change ((vendor =? EAP_VENDOR_IETF) && bool_decide (method ∈ nak_list)) with (wanted nak_list (vendor, method)).
    destruct (wanted nak_list (vendor, method)) eqn:Ew.
    + rewrite filter_cons_True by done. rewrite (filter_cons_False _ (vendor, method)) by congruence.
      replace (length pre + 1)%nat with (length (pre ++ [(vendor, method)])) by (now rewrite length_app).
      change (pre ++ (vendor, method) :: act ++ rest) with (pre ++ [(vendor, method)] ++ act ++ rest). rewrite app_assoc.
      rewrite IH; [now rewrite <- app_assoc | | done | done | cbn in Hf; lia].
      rewrite !length_app in *. cbn. lia.
    + rewrite filter_cons_False by congruence. rewrite (filter_cons_True _ (vendor, method)) by done.
      rewrite remove_method_spec by (done || (rewrite length_app in *; lia)). rewrite <- app_assoc, IH.
      * cbn [length replicate]. now rewrite <- app_assoc.
      * rewrite !length_app in *. cbn. lia.
      * done.
      * destruct rest; [reflexivity | exact Hr].
      * cbn in Hf. lia.
Qed.

(** ** The methods of the development *)

(** Which data belongs to which method. *)
Definition server_priv_of (e : eap_method) (p : server_priv) : Prop :=
  is_identity e = match p with PrivIdentity _ => true | _ => false end.

Section Vars.
Context `{ServerEnv} `{MsCrypto} `{OsAlloc} (sm : eap_sm server_priv).

Lemma vars_of_ok : vars_ok sm (vars_of sm).
Proof. now repeat split. Qed.
Lemma asked_ok : vars_ok sm (asked (vars_of sm)).
Proof. now repeat split. Qed.

Lemma md5_buildReq_vars d id : vars_ok sm (eap_md5_buildReq sm d id).1.2.
Proof. unfold eap_md5_buildReq. repeat case_match; apply asked_ok. Qed.

Lemma mschapv2_buildReq_vars d id : vars_ok sm (eap_mschapv2_buildReq sm d id).1.2.
Proof.
  unfold eap_mschapv2_buildReq, eap_mschapv2_build_challenge.
  destruct (ms_state d); try apply vars_of_ok.
  - destruct (auth_challenge_from_tls d); [|destruct (server_random _ _)]; cbn; repeat case_match;
      apply vars_of_ok || apply asked_ok.
  - destruct (eap_mschapv2_build_success_req d id). apply vars_of_ok.
  - destruct (eap_mschapv2_build_failure_req d id). apply vars_of_ok.
Qed.

Lemma identity_process_vars d resp : let v := (eap_identity_process sm d resp).2 in
  mv_method_pending v = method_pending sm /\ mv_user_eap_method_index v = user_eap_method_index sm.
Proof. unfold eap_identity_process. cbv zeta. now repeat case_match. Qed.

(** With an identity the loop over the user name of the response follows no NULL. *)
Lemma mschapv2_process_returns d resp : identity sm <> None -> exists d', eap_mschapv2_process sm d resp = Returns d'.
Proof.
  intros Hi. unfold eap_mschapv2_process. destruct (let? u := user sm in _) as [[u pw]|]; [|eauto].
  destruct (ms_state d); eauto. unfold eap_mschapv2_process_response.
  destruct (eap_hdr_validate _ _ _) as [[pos len]|]; [|eauto]. destruct (len <? 1); [eauto|].
  destruct (_ || _ || _); [eauto|]. destruct (identity sm) as [i|]; [|done]. cbn [result_bind].
  repeat case_match; eauto.
Qed.
End Vars.

#[export] Instance password_server_methods_laws `{ServerEnv} `{MsCrypto} `{OsAlloc} :
  ServerMethodsLaws (priv := server_priv).
Proof.
  refine {| priv_of := server_priv_of |}; unfold server_priv_of; cbn.
  - reflexivity.
  - intros e sm p. destruct (is_identity e); [now destruct eap_identity_init as [?|]; intros [= <-]|].
    destruct (is_md5 e); [destruct eap_md5_init | destruct (eap_mschapv2_init sm)]; now intros [= <-].
  - intros e f sm p. destruct (is_identity e) eqn:E; [|done]. intros [= <-].
    now destruct eap_identity_initPickUp; intros [= <-].
  - intros e sm p id He. destruct p as [d|d|d]; now repeat case_match.
  - intros e sm. apply vars_of_ok.
  - reflexivity.
  - intros e f sm. destruct (is_identity e); [|done]. intros [= <-]. apply vars_of_ok.
  - intros e sm p id. destruct p as [d|d|d]; cbn.
    + destruct (eap_identity_buildReq d id). apply vars_of_ok.
    + pose proof (md5_buildReq_vars sm d id). now destruct (eap_md5_buildReq sm d id) as [[??]?].
    + pose proof (mschapv2_buildReq_vars sm d id). now destruct (eap_mschapv2_buildReq sm d id) as [[??]?].
  - intros e sm p resp Hp Hi. destruct p as [d|d|d].
    + destruct (identity_process_vars sm d resp) as [E1 E2]. destruct (eap_identity_process sm d resp) as [d' v].
      cbn in E1, E2. eexists _, _. split; [reflexivity|]. rewrite E1, E2. unfold is_identity in Hp. split; [done|]. split; [|done].
      intros Hn. apply Z.eqb_eq in Hp. done.
    + eexists _, _. split; [reflexivity|]. split; [done|]. split; [|done]. intros Hn. now destruct Hi.
    + assert (identity sm <> None) as Hid by (destruct Hi as [E|]; [unfold is_identity in Hp; rewrite E in Hp; done | done]).
      destruct (mschapv2_process_returns sm d resp Hid) as [d' ->]. eexists _, _. split; [reflexivity|]. now split.
Qed.

(** ** Runs at concrete inputs *)

Module ServerDemo.
#[local] Instance crypto : MsCrypto := internal_ms_crypto (replicate 64 7).
#[local] Instance alloc : OsAlloc := fun _ => true.

Definition demo_user : eap_user :=
  EapUser ([(EAP_VENDOR_IETF, EapMschapv2.EAP_TYPE_MSCHAPV2); (EAP_VENDOR_IETF, EAP_TYPE_MD5)]
           ++ replicate 6 (EAP_VENDOR_IETF, EAP_TYPE_NONE)) (Some [112; 119]) false false.
(** A server with one user "bob"; [reauth]: whether EAP-Initiate/Re-auth-Start is sent first. *)
Definition env (reauth : bool) : ServerEnv := {|
  get_eap_user _ id _ := if decide (id = [98; 111; 98]) then Some demo_user else None;
  server_random _ n := Some (replicate n 9);
  rand_answer _ := 77;
  get_eap_req_id_text := None;
  erp_send_reauth_start := reauth;
  erp_domain := None
|}.
Definition conf : eap_config := EapConfig false true [104; 111; 115; 116] 100 50.
Abbreviation server := (eap_sm server_priv).

Definition restart (i : eap_eapol_interface) : eap_eapol_interface := i <| portEnabled := true |> <| eapRestart := true |>.
Definition response (f : bytes) (i : eap_eapol_interface) : eap_eapol_interface :=
  i <| eapReq := false |> <| eapResp := true |> <| eapRespData := Some (Wpabuf (zlen f) f false) |>.

Section Steps.
Context (reauth : bool).
#[local] Instance the_env : ServerEnv := env reauth.

Definition begun : option server := eap_server_sm_init true conf.
Definition step (s : server) : server := match eap_server_sm_step s with Returns (_, s) => s | _ => s end.
(** The server after it was started. *)
Definition waiting (s : server) : server := step (on_if restart s).
(** It has asked for the identity, and a frame arrives. *)
Definition received (f : bytes) (s : server) : server := on_if (response f) (waiting s).
Definition server_step (s : server) : result (bool * server) := eap_server_sm_step s.
Definition outcome (s : server) : result (eap_state * option bytes) :=
  let! r := server_step s in Returns (EAP_state r.2, wb_buf <$> eapReqData (eap_if r.2)).

Lemma run_step_of s : run s -> run (step s).
Proof. intros Hs. unfold step. destruct (eap_server_sm_step s) as [[r b]| |] eqn:E; [exact (run_step _ r _ Hs E) | done..]. Qed.
Lemma run_received f s : run s -> run (received f s).
Proof.
  intros Hs. apply run_interface; [apply run_step_of, run_interface; [done | reflexivity]|].
  now destruct (eap_if (waiting s)).
Qed.
End Steps.

(** "bob" is answered with a challenge of EAP-MSCHAPv2. *)
Definition bob : bytes := [2; 77; 0; 8; 1; 98; 111; 98].
Definition challenge : bytes :=
  [1; 78; 0; 30; 26; 1; 78; 0; 25; 16] ++ replicate 16 9 ++ [104; 111; 115; 116].
Lemma bob_challenged : option_map (fun s => outcome false (received false bob s)) begun
  = Some (Returns (EAP_IDLE, Some challenge)).
Proof. vm_compute. reflexivity. Qed.

Lemma eap_server_safe_witness : exists s0 s, begun = Some s0 /\ s = received false bob s0
  /\ server_step false s <> NullPointer.
Proof.
  eexists _, _. split; [reflexivity|]. split; [reflexivity|].
  unfold server_step, the_env. apply (eap_server_safe (SE := env false)); [reflexivity|]. apply run_received. now apply (run_init conf).
Defined.

Lemma eap_server_sm_step_terminates_witness : exists s0 s, begun = Some s0 /\ s = received false bob s0
  /\ exists r s', server_step false s = Returns (r, s').
Proof.
  eexists _, _. split; [reflexivity|]. split; [reflexivity|].
  unfold server_step, the_env. apply (eap_server_sm_step_terminates (SE := env false)); [reflexivity| |].
  - intros e sm He. injection He as <-. discriminate.
  - apply run_received. now apply (run_init conf).
Defined.

(** With [erp_send_reauth_start] the server is in IDLE without a method after its first message,
    and a response of type 0 is followed through NULL. *)
Example reauth_start_null_pointer :
  option_map (fun s => (EAP_state (waiting true s), outcome true (received true [2; 77; 0; 5; 0] s))) begun
  = Some (EAP_IDLE, NullPointer).
Proof. vm_compute. reflexivity. Qed.
End ServerDemo.
