(* ===== verification/EapPeerProps.v ===== *)
(** * Properties of the EAP peer state machine

    The control variables ([ctl]) through which the transitions of EapPeer.v
    interact, termination of eap_peer_sm_step(), the rules by which a
    conversation succeeds, how received requests are answered, and the Nak. *)

From stdpp Require Import strings.
From S2P Require Import Prelude Wpabuf EapCommon EapPeer EapPeerDemo.

Section Props.
Context {priv S : Type} `{EapMethods priv} `{EapolCallbacksLaws S} `{OsAlloc} `{Sha1}.
Abbreviation world := (world priv S).
Abbreviation eap_sm := (eap_sm priv).

(** ** Control variables *)

(** The variables that decide which transition is taken next. *)
Record ctl := Ctl {
  c_state : eap_state; c_req : bool; c_restart : bool; c_port : bool; c_disabled : bool;
  c_rounds : Z; c_short : Z; c_changed : bool
}.

Definition ctl_of (w : world) : ctl :=
  Ctl (EAP_state (esm w)) (eapol_get_bool w EAPOL_eapReq) (eapol_get_bool w EAPOL_eapRestart)
    (eapol_get_bool w EAPOL_portEnabled) (force_disabled (esm w))
    (num_rounds (esm w)) (num_rounds_short (esm w)) (changed (esm w)).

#[export] Instance eta_ctl : Eta ctl := fun c =>
  Ctl (c_state c) (c_req c) (c_restart c) (c_port c) (c_disabled c) (c_rounds c) (c_short c)
    (c_changed c).

(** SM_ENTRY on the control variables. *)
Definition enter (g : bool) (st : eap_state) (c : ctl) : ctl :=
  c <| c_changed := c_changed c || negb g || bool_decide (c_state c <> st) |> <| c_state := st |>.

Lemma get_set_bool_eq (s : S) v b : cb_get_bool (cb_set_bool v b s) v = b.
Proof. rewrite get_set_bool. now rewrite decide_True. Qed.

Lemma get_set_bool_ne (s : S) v b v' :
  v <> v' -> cb_get_bool (cb_set_bool v b s) v' = cb_get_bool s v'.
Proof. intros. rewrite get_set_bool. now rewrite decide_False. Qed.

Create Rewrite HintDb eapol.
#[local] Hint Rewrite get_set_bool_ne using discriminate : eapol.
#[local] Hint Rewrite get_set_bool_eq get_bool_set_int get_set_int get_int_set_bool get_bool_config
  get_bool_status get_bool_error get_bool_param : eapol.

Lemma ctl_set_bool v b w :
  ctl_of (eapol_set_bool v b w) =
  match v with
  | EAPOL_eapReq => ctl_of w <| c_req := b |>
  | EAPOL_eapRestart => ctl_of w <| c_restart := b |>
  | EAPOL_portEnabled => ctl_of w <| c_port := b |>
  | _ => ctl_of w
  end.
Proof.
  unfold ctl_of, eapol_get_bool, eapol_set_bool, on_eapol; cbn.
  rewrite !get_set_bool. destruct v; reflexivity.
Qed.

Lemma ctl_set_int v n w : ctl_of (eapol_set_int v n w) = ctl_of w.
Proof.
  unfold ctl_of, eapol_get_bool, eapol_set_int, on_eapol; cbn. by rewrite !get_bool_set_int.
Qed.

Lemma ctl_status a b w : ctl_of (eap_notify_status a b w) = ctl_of w.
Proof.
  unfold ctl_of, eapol_get_bool, eap_notify_status, on_eapol; cbn. by rewrite !get_bool_status.
Qed.

Lemma ctl_error e w : ctl_of (eap_report_error e w) = ctl_of w.
Proof.
  unfold ctl_of, eapol_get_bool, eap_report_error, on_eapol; cbn. by rewrite !get_bool_error.
Qed.

Lemma ctl_config f w : ctl_of (on_eapol (cb_update_config f) w) = ctl_of w.
Proof. unfold ctl_of, eapol_get_bool, on_eapol; cbn. by rewrite !get_bool_config. Qed.

Lemma ctl_param f w : ctl_of (on_eapol (cb_eap_param_needed f) w) = ctl_of w.
Proof. unfold ctl_of, eapol_get_bool, on_eapol; cbn. by rewrite !get_bool_param. Qed.

Lemma ctl_calls l w : ctl_of (do_method_calls l w) = ctl_of w.
Proof.
  revert w. induction l as [|c l IH]; intros w; [done|]. etrans; [apply IH|].
  destruct c; [apply ctl_config | apply ctl_param | apply ctl_status].
Qed.

Lemma ctl_entry g st w : ctl_of (on_sm (sm_entry g st) w) = enter g st (ctl_of w).
Proof.
  unfold ctl_of, enter, on_sm, sm_entry. cbn. rewrite <- orb_assoc.
  destruct (negb g || _); cbn; by rewrite ?orb_true_r, ?orb_false_r.
Qed.

(** An assignment to other fields of struct eap_sm. *)
Definition keeps (f : eap_sm -> eap_sm) : Prop := forall sm,
  EAP_state (f sm) = EAP_state sm /\ force_disabled (f sm) = force_disabled sm
  /\ num_rounds (f sm) = num_rounds sm /\ num_rounds_short (f sm) = num_rounds_short sm
  /\ changed (f sm) = changed sm.

Lemma ctl_keeps f w : keeps f -> ctl_of (on_sm f w) = ctl_of w.
Proof.
  intros Hf. destruct (Hf (esm w)) as (E1 & E2 & E3 & E4 & E5).
  unfold ctl_of, on_sm, eapol_get_bool; cbn. by rewrite E1, E2, E3, E4, E5.
Qed.

Lemma ctl_reset_rounds f w :
  (forall sm, EAP_state (f sm) = EAP_state sm /\ force_disabled (f sm) = force_disabled sm
     /\ num_rounds (f sm) = 0 /\ num_rounds_short (f sm) = 0
     /\ changed (f sm) = changed sm) ->
  ctl_of (on_sm f w) = ctl_of w <| c_rounds := 0 |> <| c_short := 0 |>.
Proof.
  intros Hf. destruct (Hf (esm w)) as (E1 & E2 & E3 & E4 & E5).
  unfold ctl_of, on_sm, eapol_get_bool; cbn. by rewrite E1, E2, E3, E4, E5.
Qed.

Lemma keeps_deinit : keeps eap_deinit_prev_method.
Proof. intros sm. unfold eap_deinit_prev_method. by destruct (m sm), (eap_method_priv sm). Qed.
#[local] Hint Resolve keeps_deinit : core.

(** A local variable of a state function, known by its control variables only. *)
Lemma ctl_let (v : world) (b : world -> world) c c' :
  ctl_of v = c -> (forall x, ctl_of x = c -> ctl_of (b x) = c') -> ctl_of (b v) = c'.
Proof. auto. Qed.

(** Runs the control variables through the body of a state function. *)
Ltac ctl_keeps := intros ?; try unfold eap_deinit_prev_method; repeat case_match; done.
Ltac ctl_go :=
  lazymatch goal with
  | |- ctl_of (let x := ?v in @?b x) = _ =>
      lazymatch type of v with
      | EapPeer.world _ _ => eapply (ctl_let v b); [ctl_go | cbv beta; intros ? ?; ctl_go]
      | _ => let t := eval cbv beta in (b v) in change (ctl_of t = _ ); ctl_go
      end
  | |- ctl_of (match ?x with _ => _ end) = _ => destruct x; ctl_go
  | |- ctl_of (on_sm (sm_entry _ _) _) = _ => etrans; [apply ctl_entry | ctl_rec]
  | |- ctl_of (on_sm _ _) = _ => etrans; [apply ctl_keeps; solve [auto | ctl_keeps] | ctl_go]
  | |- ctl_of (eapol_set_int _ _ _) = _ => etrans; [apply ctl_set_int | ctl_go]
  | |- ctl_of (eap_notify_status _ _ _) = _ => etrans; [apply ctl_status | ctl_go]
  | |- ctl_of (eap_report_error _ _) = _ => etrans; [apply ctl_error | ctl_go]
  | |- ctl_of (on_eapol (cb_update_config _) _) = _ => etrans; [apply ctl_config | ctl_go]
  | |- ctl_of (on_eapol (cb_eap_param_needed _) _) = _ => etrans; [apply ctl_param | ctl_go]
  | |- ctl_of (do_method_calls _ _) = _ => etrans; [apply ctl_calls | ctl_go]
  | |- ctl_of (eapol_set_bool _ _ _) = _ => etrans; [apply ctl_set_bool | ctl_rec]
  | |- ctl_of _ = _ => eassumption || reflexivity || idtac
  end
with ctl_rec :=
  lazymatch goal with
  | |- enter ?g ?st (ctl_of ?w) = _ => etrans; [apply (f_equal (enter g st)); ctl_go | try reflexivity]
  | |- over ?p ?f (ctl_of ?w) = _ => etrans; [apply (f_equal (over p f)); ctl_go | try reflexivity]
  | |- _ => cbv iota; ctl_go
  end.

Lemma ctl_parse r w : ctl_of (eap_sm_parseEapReq r w) = ctl_of w.
Proof. unfold eap_sm_parseEapReq, eap_peer_initiate. ctl_go. Qed.

(** What each state entry function does to the control variables. *)

Lemma ctl_initialize g w :
  ctl_of (EAP_INITIALIZE_Enter g w) =
  Ctl EAP_INITIALIZE (c_req (ctl_of w)) false (c_port (ctl_of w)) (c_disabled (ctl_of w)) 0 0
    (c_changed (enter g EAP_INITIALIZE (ctl_of w))).
Proof.
  unfold EAP_INITIALIZE_Enter, eap_sm_free_key. cbv zeta.
  etrans; [apply ctl_reset_rounds; done|].
  etrans; [do 2 apply f_equal; ctl_go|]. reflexivity.
Qed.

Lemma ctl_disabled g w :
  ctl_of (EAP_DISABLED_Enter g w) =
  enter g EAP_DISABLED (ctl_of w) <| c_rounds := 0 |> <| c_short := 0 |>.
Proof.
  unfold EAP_DISABLED_Enter. etrans; [apply ctl_set_int|].
  transitivity (ctl_of (on_sm (sm_entry g EAP_DISABLED) w) <| c_rounds := 0 |> <| c_short := 0 |>);
    [done|by rewrite ctl_entry].
Qed.

Lemma ctl_idle g w : ctl_of (EAP_IDLE_Enter g w) = enter g EAP_IDLE (ctl_of w).
Proof. unfold EAP_IDLE_Enter. ctl_go. Qed.

Lemma ctl_get_method g w :
  ctl_of (EAP_GET_METHOD_Enter g w) = enter g EAP_GET_METHOD (ctl_of w).
Proof. unfold EAP_GET_METHOD_Enter, get_method_nak, store_method_vars. ctl_go. Qed.

Lemma ctl_received g w :
  ctl_of (EAP_RECEIVED_Enter g w) =
  enter g EAP_RECEIVED (ctl_of w) <| c_rounds := c_rounds (ctl_of w) + 1 |>
    <| c_short := if match eapol_get_eapReqData w with None => true | Some b => wpabuf_len b <? 20 end
                  then c_short (ctl_of w) + 1 else 0 |>.
Proof.
  unfold EAP_RECEIVED_Enter. cbv zeta.
  change (eapol_get_eapReqData (on_sm _ w)) with (eapol_get_eapReqData w).
  set (w1 := eap_sm_parseEapReq _ _).
  assert (E : ctl_of w1 = enter g EAP_RECEIVED (ctl_of w))
    by (unfold w1; rewrite ctl_parse; apply ctl_entry).
  revert E. generalize w1. intros w2 E.
  pose proof (f_equal c_state E) as E1. pose proof (f_equal c_req E) as E2.
  pose proof (f_equal c_restart E) as E3. pose proof (f_equal c_port E) as E4.
  pose proof (f_equal c_disabled E) as E5. pose proof (f_equal c_rounds E) as E6.
  pose proof (f_equal c_short E) as E7.
  pose proof (f_equal c_changed E) as E8. cbn in *.
  unfold ctl_of, on_sm, eapol_get_bool in *; cbn in *.
  unfold enter; cbn. rewrite <- E2, <- E3, <- E4, <- E5, <- E6, <- E7, <- E8.
  case_match; cbn; by rewrite E1.
Qed.

Lemma ctl_method g w : ctl_of (EAP_METHOD_Enter g w) = enter g EAP_METHOD (ctl_of w).
Proof. unfold EAP_METHOD_Enter, store_method_vars, eap_sm_free_key. ctl_go. Qed.

Lemma ctl_build_identity id enc w : ctl_of (eap_sm_buildIdentity id enc w).2 = ctl_of w.
Proof.
  unfold eap_sm_buildIdentity, eap_sm_request_identity. cbv zeta.
  repeat (case_match; cbn [snd]); ctl_go.
Qed.

Lemma ctl_identity g w : ctl_of (EAP_IDENTITY_Enter g w) = enter g EAP_IDENTITY (ctl_of w).
Proof.
  unfold EAP_IDENTITY_Enter, eap_sm_processIdentity. cbv zeta.
  destruct (negb _); [ctl_go|].
  match goal with |- context [eap_sm_buildIdentity ?i ?e ?x] =>
    pose proof (ctl_build_identity i e x) as E;
    assert (Ex : ctl_of x = enter g EAP_IDENTITY (ctl_of w)) by ctl_go;
    rewrite Ex in E; clear Ex; destruct (eap_sm_buildIdentity i e x) as [resp x'] end.
  rewrite ctl_keeps by done. exact E.
Qed.

Lemma ctl_notification g w :
  ctl_of (EAP_NOTIFICATION_Enter g w) = enter g EAP_NOTIFICATION (ctl_of w).
Proof. unfold EAP_NOTIFICATION_Enter. ctl_go. Qed.

Lemma ctl_retransmit g w :
  ctl_of (EAP_RETRANSMIT_Enter g w) = enter g EAP_RETRANSMIT (ctl_of w).
Proof. unfold EAP_RETRANSMIT_Enter. ctl_go. Qed.

Lemma ctl_discard g w :
  ctl_of (EAP_DISCARD_Enter g w) = enter g EAP_DISCARD (ctl_of w) <| c_req := false |>.
Proof. unfold EAP_DISCARD_Enter. ctl_go. Qed.

Lemma ctl_success g w :
  ctl_of (EAP_SUCCESS_Enter g w) = enter g EAP_SUCCESS (ctl_of w) <| c_req := false |>.
Proof. unfold EAP_SUCCESS_Enter. ctl_go. Qed.

Lemma ctl_failure g w :
  ctl_of (EAP_FAILURE_Enter g w) = enter g EAP_FAILURE (ctl_of w) <| c_req := false |>.
Proof. unfold EAP_FAILURE_Enter. ctl_go. Qed.

(** SEND_RESPONSE may reset num_rounds_short. *)
Lemma ctl_send_response g w :
  exists n, ctl_of (EAP_SEND_RESPONSE_Enter g w) =
    enter g EAP_SEND_RESPONSE (ctl_of w) <| c_req := false |> <| c_short := n |>
    /\ (n = c_short (ctl_of w) \/ n = 0).
Proof.
  unfold EAP_SEND_RESPONSE_Enter. cbv zeta. rewrite ctl_keeps by done.
  rewrite ctl_set_int, ctl_set_bool. set (w1 := on_sm _ w).
  assert (E : ctl_of w1 = enter g EAP_SEND_RESPONSE (ctl_of w)) by apply ctl_entry.
  destruct (eapRespData (esm w1)) as [resp|].
  - rewrite ctl_set_bool, ctl_keeps by done.
    rewrite ctl_keeps by (intros sm; by destruct (workaround sm)).
    destruct (20 <=? wpabuf_len resp).
    + exists 0. split; [|by right].
      transitivity (ctl_of w1 <| c_short := 0 |> <| c_req := false |>); [done|by rewrite E].
    + exists (c_short (ctl_of w)). split; [|by left]. rewrite ctl_keeps by done. by rewrite E.
  - exists (c_short (ctl_of w)). split; [|by left]. rewrite ctl_keeps by done. by rewrite E.
Qed.

#[local] Arguments ctl_of : simpl never.
#[local] Arguments EAP_INITIALIZE_Enter : simpl never.
#[local] Arguments EAP_DISABLED_Enter : simpl never.
#[local] Arguments EAP_IDLE_Enter : simpl never.
#[local] Arguments EAP_RECEIVED_Enter : simpl never.
#[local] Arguments EAP_GET_METHOD_Enter : simpl never.
#[local] Arguments EAP_METHOD_Enter : simpl never.
#[local] Arguments EAP_SEND_RESPONSE_Enter : simpl never.
#[local] Arguments EAP_DISCARD_Enter : simpl never.
#[local] Arguments EAP_IDENTITY_Enter : simpl never.
#[local] Arguments EAP_NOTIFICATION_Enter : simpl never.
#[local] Arguments EAP_RETRANSMIT_Enter : simpl never.
#[local] Arguments EAP_SUCCESS_Enter : simpl never.
#[local] Arguments EAP_FAILURE_Enter : simpl never.

(** ** Termination of the step loop *)

(** Transitions left on a path without restart; an answered request
    ([req = false]) can lead only to IDLE and to the final states. *)
Definition state_rank (st : eap_state) (req : bool) : nat :=
  match st, req with
  | EAP_DISABLED, true => 20 | EAP_INITIALIZE, true => 19 | EAP_SEND_RESPONSE, true => 19
  | EAP_DISCARD, true => 19 | EAP_IDLE, true => 18 | EAP_RECEIVED, true => 17
  | EAP_GET_METHOD, true => 16 | EAP_METHOD, true => 15 | EAP_IDENTITY, true => 15
  | EAP_NOTIFICATION, true => 15 | EAP_RETRANSMIT, true => 15
  | EAP_DISABLED, false => 10 | EAP_INITIALIZE, false => 9 | EAP_RECEIVED, false => 8
  | EAP_GET_METHOD, false => 7 | EAP_METHOD, false => 6 | EAP_IDENTITY, false => 6
  | EAP_NOTIFICATION, false => 6 | EAP_RETRANSMIT, false => 6
  | EAP_SEND_RESPONSE, false => 5 | EAP_DISCARD, false => 5 | EAP_IDLE, false => 4
  | EAP_SUCCESS, _ | EAP_FAILURE, _ => 0
  end%nat.

(** Upper bound on the iterations that change the state. *)
Definition rank (c : ctl) : nat :=
  if c_restart c && c_port c then 40
  else if negb (c_port c) || c_disabled c then
    if decide (c_state c = EAP_DISABLED) then 0 else 1
  else if EAP_MAX_AUTH_ROUNDS <? c_rounds c then
    if c_rounds c =? EAP_MAX_AUTH_ROUNDS + 1 then 1 else 0
  else if EAP_MAX_AUTH_ROUNDS_SHORT <? c_short c then
    if c_short c =? EAP_MAX_AUTH_ROUNDS_SHORT + 1 then 1 else 0
  else 2 + state_rank (c_state c) (c_req c).

Lemma rank_le c :
  c_restart c && c_port c = false -> (rank c <= 2 + state_rank (c_state c) (c_req c))%nat.
Proof. intros E. unfold rank. rewrite E. repeat case_match; lia. Qed.

Lemma rank_bound c : (rank c <= 40)%nat.
Proof.
  unfold rank. repeat case_match; try lia. destruct (c_state c), (c_req c); cbn; lia.
Qed.

(** [c'] has the same lower-layer situation and a smaller rank of states. *)
Definition descends (c c' : ctl) : Prop :=
  c_restart c' = c_restart c /\ c_port c' = c_port c
  /\ (state_rank (c_state c') (c_req c') < state_rank (c_state c) (c_req c))%nat.

Ltac ctl_enter :=
  rewrite ?ctl_initialize, ?ctl_disabled, ?ctl_idle, ?ctl_get_method, ?ctl_received,
    ?ctl_method, ?ctl_identity, ?ctl_notification, ?ctl_retransmit, ?ctl_discard,
    ?ctl_success, ?ctl_failure.

Lemma step_idle_descends w :
  c_state (ctl_of w) = EAP_IDLE ->
  eap_peer_sm_step_idle w = w \/ descends (ctl_of w) (ctl_of (eap_peer_sm_step_idle w)).
Proof.
  intros E. unfold eap_peer_sm_step_idle. change (eapol_get_bool w EAPOL_eapReq) with (c_req (ctl_of w)).
  destruct (c_req (ctl_of w)) eqn:Er;
    repeat (case_match; [|]); try (by left); right;
    ctl_enter; unfold descends; cbn; rewrite E, ?Er; repeat split; cbn; lia.
Qed.

Lemma step_received_descends w :
  c_state (ctl_of w) = EAP_RECEIVED ->
  descends (ctl_of w) (ctl_of (eap_peer_sm_step_received w)).
Proof.
  intros E. unfold eap_peer_sm_step_received.
  destruct (ctl_send_response false w) as (n & Es & _).
  repeat (case_match; [|]); ctl_enter; rewrite ?Es; unfold descends; cbn; rewrite E;
    repeat split; destruct (c_req (ctl_of w)) eqn:Er; cbn; rewrite ?Er; cbn; lia.
Qed.

Lemma step_local_descends w :
  c_restart (ctl_of w) && c_port (ctl_of w) = false -> c_port (ctl_of w) = true ->
  eap_peer_sm_step_local w = w
  \/ (rank (ctl_of (eap_peer_sm_step_local w)) < 2 + state_rank (c_state (ctl_of w)) (c_req (ctl_of w)))%nat.
Proof.
  intros Er Ep.
  assert (Hd : forall w', descends (ctl_of w) (ctl_of w') ->
    (rank (ctl_of w') < 2 + state_rank (c_state (ctl_of w)) (c_req (ctl_of w)))%nat).
  { intros w' (E1 & E2 & E3). eapply Nat.le_lt_trans; [apply rank_le; by rewrite E1, E2|]. lia. }
  destruct (ctl_send_response false w) as (n & Es & _).
  unfold eap_peer_sm_step_local. change (EAP_state (esm w)) with (c_state (ctl_of w)).
  destruct (c_state (ctl_of w)) eqn:E.
  3: { destruct (step_idle_descends w E) as [?|?]; [by left|right; by apply Hd]. }
  3: { right. by apply Hd, step_received_descends. }
  all: repeat case_match; try (by left); right.
  all: first
    [ apply Hd; ctl_enter; rewrite ?Es; unfold descends; cbn; rewrite E; repeat split;
      destruct (c_req (ctl_of w)) eqn:Eq; cbn; rewrite ?Eq; cbn; lia
    | eapply Nat.le_lt_trans; [apply rank_le; by rewrite ctl_initialize|];
      rewrite ctl_initialize; cbn; destruct (c_req (ctl_of w)); lia ].
Qed.

Definition clear_changed (w : world) : world := on_sm (fun sm => sm <| changed := false |>) w.

Lemma ctl_clear w : ctl_of (clear_changed w) = ctl_of w <| c_changed := false |>.
Proof. done. Qed.

Lemma rank_clear w : rank (ctl_of (clear_changed w)) = rank (ctl_of w).
Proof. done. Qed.

(** An iteration that changes the state lowers the rank. *)
Lemma step_rank w :
  changed (esm w) = false -> changed (esm (EAP_Step w)) = true ->
  (rank (ctl_of (EAP_Step w)) < rank (ctl_of w))%nat.
Proof.
  change (changed (esm w)) with (c_changed (ctl_of w)).
  change (changed (esm (EAP_Step w))) with (c_changed (ctl_of (EAP_Step w))).
  intros Hc. unfold EAP_Step.
  change (eapol_get_bool w EAPOL_eapRestart) with (c_restart (ctl_of w)).
  change (eapol_get_bool w EAPOL_portEnabled) with (c_port (ctl_of w)).
  change (force_disabled (esm w)) with (c_disabled (ctl_of w)).
  change (num_rounds (esm w)) with (c_rounds (ctl_of w)).
  change (num_rounds_short (esm w)) with (c_short (ctl_of w)).
  destruct (c_restart (ctl_of w) && c_port (ctl_of w)) eqn:Er.
  { intros _. eapply Nat.le_lt_trans; [apply rank_le; by rewrite ctl_initialize|].
    rewrite ctl_initialize. unfold rank. rewrite Er. cbn. destruct (c_req (ctl_of w)); lia. }
  destruct (negb (c_port (ctl_of w)) || c_disabled (ctl_of w)) eqn:Ed.
  { rewrite ctl_disabled. cbn. rewrite Hc. cbn. intros Hn%bool_decide_eq_true.
    unfold rank. cbn. rewrite Er, Ed. rewrite decide_True, decide_False by done. lia. }
  apply orb_false_iff in Ed as [Ep%negb_false_iff Ed].
  destruct (EAP_MAX_AUTH_ROUNDS <? c_rounds (ctl_of w)) eqn:En.
  { destruct (c_rounds (ctl_of w) =? EAP_MAX_AUTH_ROUNDS + 1) eqn:En1; [|by rewrite Hc].
    intros _. rewrite ctl_failure.
    change (ctl_of (on_sm _ w)) with (ctl_of w <| c_rounds := c_rounds (ctl_of w) + 1 |>).
    apply Z.eqb_eq in En1. unfold rank. cbn. rewrite Er, Ep, Ed, En1. exact Nat.lt_0_1. }
  destruct (EAP_MAX_AUTH_ROUNDS_SHORT <? c_short (ctl_of w)) eqn:Es.
  { destruct (c_short (ctl_of w) =? EAP_MAX_AUTH_ROUNDS_SHORT + 1) eqn:Es1; [|by rewrite Hc].
    intros _. rewrite ctl_failure.
    change (ctl_of (on_sm _ w)) with (ctl_of w <| c_short := c_short (ctl_of w) + 1 |>).
    apply Z.eqb_eq in Es1. unfold rank. cbn. rewrite Er, Ep, Ed, En, Es1. exact Nat.lt_0_1. }
  destruct (step_local_descends w Er Ep) as [->|Hl]; [by rewrite Hc|intros _].
  eapply Nat.lt_le_trans; [exact Hl|]. unfold rank. rewrite Er, Ep, Ed, En, Es. cbn. lia.
Qed.

Lemma eap_peer_sm_step_loop_enough fuel : forall res w,
  (rank (ctl_of w) < fuel)%nat -> is_Some (eap_peer_sm_step_loop fuel res w).
Proof.
  induction fuel as [|fuel IH]; intros res w Hf; [lia|]. cbn [eap_peer_sm_step_loop].
  change (on_sm _ w) with (clear_changed w).
  destruct (changed (esm (EAP_Step (clear_changed w)))) eqn:Ec; [|eauto].
  apply IH. pose proof (step_rank (clear_changed w) eq_refl Ec). rewrite rank_clear in *. lia.
Qed.

Lemma step_no_restart w :
  c_restart (ctl_of (EAP_Step w)) && c_port (ctl_of (EAP_Step w)) = false.
Proof.
  unfold EAP_Step.
  change (eapol_get_bool w EAPOL_eapRestart) with (c_restart (ctl_of w)).
  change (eapol_get_bool w EAPOL_portEnabled) with (c_port (ctl_of w)).
  destruct (c_restart (ctl_of w) && c_port (ctl_of w)) eqn:Er; [by rewrite ctl_initialize|].
  destruct (ctl_send_response false w) as (n & Es & _).
  unfold eap_peer_sm_step_local, eap_peer_sm_step_idle, eap_peer_sm_step_received.
  repeat (case_match; try (ctl_enter; rewrite ?Es; done)).
Qed.

(** Where the loop stops. *)
Definition settled (c : ctl) : Prop :=
  if negb (c_port c) || c_disabled c then c_state c = EAP_DISABLED
  else if EAP_MAX_AUTH_ROUNDS <? c_rounds c then c_rounds c <> EAP_MAX_AUTH_ROUNDS + 1
  else if EAP_MAX_AUTH_ROUNDS_SHORT <? c_short c then c_short c <> EAP_MAX_AUTH_ROUNDS_SHORT + 1
  else (c_state c = EAP_IDLE /\ c_req c = false) \/ c_state c = EAP_SUCCESS \/ c_state c = EAP_FAILURE.

Lemma step_settled w :
  changed (esm w) = false -> changed (esm (EAP_Step w)) = false ->
  settled (ctl_of (EAP_Step w))
  \/ (c_state (ctl_of w) = EAP_INITIALIZE /\ c_restart (ctl_of w) && c_port (ctl_of w) = true
      /\ c_state (ctl_of (EAP_Step w)) = EAP_INITIALIZE).
Proof.
  change (changed (esm w)) with (c_changed (ctl_of w)).
  change (changed (esm (EAP_Step w))) with (c_changed (ctl_of (EAP_Step w))).
  intros Hc. unfold EAP_Step.
  change (eapol_get_bool w EAPOL_eapRestart) with (c_restart (ctl_of w)).
  change (eapol_get_bool w EAPOL_portEnabled) with (c_port (ctl_of w)).
  change (force_disabled (esm w)) with (c_disabled (ctl_of w)).
  change (num_rounds (esm w)) with (c_rounds (ctl_of w)).
  change (num_rounds_short (esm w)) with (c_short (ctl_of w)).
  destruct (c_restart (ctl_of w) && c_port (ctl_of w)) eqn:Er.
  { rewrite ctl_initialize. cbn. rewrite Hc. cbn. intros Hn%bool_decide_eq_false. right.
    split; [|done]. by apply dec_stable. }
  destruct (negb (c_port (ctl_of w)) || c_disabled (ctl_of w)) eqn:Ed.
  { rewrite ctl_disabled. intros _. left. unfold settled. cbn. by rewrite Ed. }
  destruct (EAP_MAX_AUTH_ROUNDS <? c_rounds (ctl_of w)) eqn:En.
  { destruct (c_rounds (ctl_of w) =? EAP_MAX_AUTH_ROUNDS + 1) eqn:En1.
    - intros _. left. rewrite ctl_failure.
      change (ctl_of (on_sm _ w)) with (ctl_of w <| c_rounds := c_rounds (ctl_of w) + 1 |>).
      unfold settled. cbn. rewrite Ed. apply Z.eqb_eq in En1. rewrite En1. done.
    - left. unfold settled. rewrite Ed, En. by apply Z.eqb_neq. }
  destruct (EAP_MAX_AUTH_ROUNDS_SHORT <? c_short (ctl_of w)) eqn:Es.
  { destruct (c_short (ctl_of w) =? EAP_MAX_AUTH_ROUNDS_SHORT + 1) eqn:Es1.
    - intros _. left. rewrite ctl_failure.
      change (ctl_of (on_sm _ w)) with (ctl_of w <| c_short := c_short (ctl_of w) + 1 |>).
      unfold settled. cbn. rewrite Ed, En. apply Z.eqb_eq in Es1. rewrite Es1. done.
    - left. unfold settled. rewrite Ed, En, Es. by apply Z.eqb_neq. }
  intros Hl. left. revert Hl. unfold eap_peer_sm_step_local.
  change (EAP_state (esm w)) with (c_state (ctl_of w)).
  destruct (ctl_send_response false w) as (n & Ec & _).
  unfold eap_peer_sm_step_idle, eap_peer_sm_step_received.
  change (eapol_get_bool w EAPOL_eapReq) with (c_req (ctl_of w)).
  change (eapol_get_bool w EAPOL_portEnabled) with (c_port (ctl_of w)).
  change (force_disabled (esm w)) with (c_disabled (ctl_of w)).
  repeat (case_match;
    try (ctl_enter; rewrite ?Ec; cbn; rewrite ?orb_true_r; intros; discriminate));
    intros _; unfold settled; rewrite Ed, En, Es; auto;
    by destruct (c_port (ctl_of w)), (c_disabled (ctl_of w)).
Qed.

Lemma eap_peer_sm_step_loop_end fuel : forall res w res' w',
  eap_peer_sm_step_loop fuel res w = Some (res', w') ->
  settled (ctl_of w')
  \/ (c_state (ctl_of w) = EAP_INITIALIZE /\ c_restart (ctl_of w) && c_port (ctl_of w) = true
      /\ c_state (ctl_of w') = EAP_INITIALIZE).
Proof.
  induction fuel as [|fuel IH]; intros res w res' w' E; [done|]. cbn [eap_peer_sm_step_loop] in E.
  change (on_sm _ w) with (clear_changed w) in E.
  destruct (changed (esm (EAP_Step (clear_changed w)))) eqn:Ec.
  - destruct (IH _ _ _ _ E) as [?|(_ & Er & _)]; [by left|].
    by rewrite step_no_restart in Er.
  - injection E as _ <-. by apply (step_settled (clear_changed w)).
Qed.

(** C11. Every call of eap_peer_sm_step() finishes: within [EAP_STEP_FUEL] passes
    through SM_STEP(EAP) the loop reaches a pass that changes nothing.  It then
    rests in DISABLED when the port is disabled or EAP is administratively
    disabled, in IDLE with no request pending, in SUCCESS or FAILURE, or the
    round limit has been hit; the one exception is a restart requested while
    the machine was already in INITIALIZE, where the loop stops early. *)
Theorem eap_peer_sm_step_terminates (w : world) :
  exists res w',
    eap_peer_sm_step_loop EAP_STEP_FUEL false w = Some (res, w')
    /\ eap_peer_sm_step w = (res, w')
    /\ (settled (ctl_of w')
        \/ (c_state (ctl_of w) = EAP_INITIALIZE /\ c_restart (ctl_of w) && c_port (ctl_of w) = true
            /\ c_state (ctl_of w') = EAP_INITIALIZE)).
Proof.
  destruct (eap_peer_sm_step_loop_enough EAP_STEP_FUEL false w) as [[res w'] E].
  { pose proof (rank_bound (ctl_of w)). unfold EAP_STEP_FUEL. lia. }
  exists res, w'. unfold eap_peer_sm_step. rewrite E. eauto using eap_peer_sm_step_loop_end.
Qed.

(** ** Rounds *)

Definition rounds_ok (c : ctl) : Prop :=
  0 <= c_rounds c <= EAP_MAX_AUTH_ROUNDS + 2 /\ 0 <= c_short c <= EAP_MAX_AUTH_ROUNDS_SHORT + 2.

Lemma step_rounds_ok w : rounds_ok (ctl_of w) -> rounds_ok (ctl_of (EAP_Step w)).
Proof.
  intros Hok. unfold EAP_Step.
  change (num_rounds (esm w)) with (c_rounds (ctl_of w)).
  change (num_rounds_short (esm w)) with (c_short (ctl_of w)).
  assert (Hz : forall c, c_rounds c = 0 -> c_short c = 0 -> rounds_ok c)
    by (intros c E1 E2; unfold rounds_ok, EAP_MAX_AUTH_ROUNDS, EAP_MAX_AUTH_ROUNDS_SHORT; lia).
  destruct (eapol_get_bool w EAPOL_eapRestart && _); [rewrite ctl_initialize; by apply Hz|].
  destruct (negb _ || _); [rewrite ctl_disabled; by apply Hz|].
  unfold rounds_ok, EAP_MAX_AUTH_ROUNDS, EAP_MAX_AUTH_ROUNDS_SHORT in *.
  destruct (Z.ltb_spec (100) (c_rounds (ctl_of w))).
  { destruct (Z.eqb_spec (c_rounds (ctl_of w)) (100 + 1)) as [E|]; [|done].
    rewrite ctl_failure.
    change (ctl_of (on_sm _ w)) with (ctl_of w <| c_rounds := c_rounds (ctl_of w) + 1 |>).
    cbn. lia. }
  destruct (Z.ltb_spec (50) (c_short (ctl_of w))).
  { destruct (Z.eqb_spec (c_short (ctl_of w)) (50 + 1)) as [E|]; [|done].
    rewrite ctl_failure.
    change (ctl_of (on_sm _ w)) with (ctl_of w <| c_short := c_short (ctl_of w) + 1 |>).
    cbn. lia. }
  destruct (ctl_send_response false w) as (n & Ec & Hn).
  unfold eap_peer_sm_step_local, eap_peer_sm_step_idle, eap_peer_sm_step_received.
  repeat (case_match; try (ctl_enter; rewrite ?Ec; cbn -[Z.add Z.le]; lia));
    ctl_enter; cbn -[Z.add Z.le]; repeat case_match; lia.
Qed.

Lemma step_loop_rounds_ok fuel : forall res w res' w',
  eap_peer_sm_step_loop fuel res w = Some (res', w') ->
  rounds_ok (ctl_of w) -> rounds_ok (ctl_of w').
Proof.
  induction fuel as [|fuel IH]; intros res w res' w' E Hok; [done|].
  cbn [eap_peer_sm_step_loop] in E. change (on_sm _ w) with (clear_changed w) in E.
  pose proof (step_rounds_ok (clear_changed w) Hok).
  destruct (changed _); [eauto|]. by injection E as _ <-.
Qed.

(** The number of packets a peer processes in a conversation is bounded,
    whatever the server sends: eap_peer_sm_step() never moves a round counter
    more than two past its limit, and a counter found one past its limit forces
    FAILURE in that call and leaves the limit exhausted, so that (with
    [eap_peer_sm_step_terminates]) nothing more happens before a restart. *)
Theorem eap_peer_sm_step_rounds_bounded (w : world) :
  rounds_ok (ctl_of w) ->
  rounds_ok (ctl_of (eap_peer_sm_step w).2)
  /\ (eapol_get_bool w EAPOL_portEnabled = true -> eapol_get_bool w EAPOL_eapRestart = false ->
      force_disabled (esm w) = false ->
      num_rounds (esm w) = EAP_MAX_AUTH_ROUNDS + 1 ->
      EAP_state (esm (EAP_Step w)) = EAP_FAILURE
      /\ num_rounds (esm (EAP_Step w)) = EAP_MAX_AUTH_ROUNDS + 2
      /\ EAP_Step (EAP_Step w) = EAP_Step w).
Proof.
  intros Hok. split.
  - unfold eap_peer_sm_step. destruct (eap_peer_sm_step_loop _ _ _) as [[res w']|] eqn:E; [|done].
    eauto using step_loop_rounds_ok.
  - intros Ep Er Ed En. 
    set (w1 := on_sm (fun sm => sm <| num_rounds := num_rounds sm + 1 |>) w).
    assert (E1 : EAP_Step w = EAP_FAILURE_Enter true w1).
    { unfold EAP_Step. rewrite Ep, Er, Ed, En. done. }
    assert (Ec : ctl_of (EAP_Step w) = enter true EAP_FAILURE (ctl_of w1) <| c_req := false |>)
      by (rewrite E1; apply ctl_failure).
    pose proof (f_equal c_state Ec) as F1. pose proof (f_equal c_restart Ec) as F2.
    pose proof (f_equal c_port Ec) as F3. pose proof (f_equal c_disabled Ec) as F4.
    pose proof (f_equal c_rounds Ec) as F5. unfold ctl_of in *. cbn in *.
    unfold w1, eapol_get_bool in F2, F3, F4, F5. cbn in *. unfold eapol_get_bool in Ep, Er.
    rewrite Er in F2. rewrite Ep in F3. rewrite Ed in F4. rewrite En in F5.
    split_and!; [done|by rewrite F5|].
    set (w2 := EAP_Step w) in *. clearbody w2. unfold EAP_Step, eapol_get_bool.
    by rewrite F2, F3, F4, F5.
Qed.

(** ** Success *)

(** The ways into SUCCESS that the code admits: from IDLE by a success of the lower layer, a
    timeout or the early end of LEAP and PEAP, from RECEIVED by an EAP-Success with an
    identifier that fits, or by a canned one. *)
Definition success_allowed (w : world) : Prop :=
  let sm := esm w in
  (EAP_state sm = EAP_IDLE /\ eapol_get_bool w EAPOL_eapReq = false /\ decision sm <> DECISION_FAIL
   /\ (eapol_get_bool w EAPOL_altAccept = true
       \/ (eapol_get_int w EAPOL_idleWhile = 0 /\ decision sm = DECISION_UNCOND_SUCC)
       \/ (methodState sm = METHOD_DONE /\ (leap_done sm = true \/ peap_done sm = true))))
  \/ (EAP_state sm = EAP_RECEIVED /\ rxSuccess sm = true /\ decision sm <> DECISION_FAIL
      /\ (reqId sm = lastId sm
          \/ (workaround sm = true /\ (reqId sm = Z.land (lastId sm + 1) 255
                                      \/ reqId sm = Z.land (lastId sm + 2) 255))))
  \/ (EAP_state sm = EAP_RECEIVED /\ rxSuccess sm = true /\ rxFailure sm = false /\ rxReq sm = false
      /\ workaround sm = true /\ eap_peer_sm_allow_canned w = true
      /\ (lastId sm = -1 \/ methodState sm <> METHOD_CONT)).

Ltac bool_hyps :=
  repeat match goal with
         | H : _ && _ = true |- _ => apply andb_true_iff in H as [? ?]
         | H : negb _ = true |- _ => apply negb_true_iff in H
         | H : (_ =? _) = true |- _ => apply Z.eqb_eq in H
         | H : bool_decide _ = true |- _ => apply bool_decide_eq_true in H
         | H : _ || _ = true |- _ => apply orb_true_iff in H as [?|?]
         end.

(** C8. Authentication succeeds only for a reason: when a pass of SM_STEP(EAP)
    enters SUCCESS, either the decision of the method is not FAIL and the
    success comes from an EAP-Success with the identifier of the last response
    (or the next two with workarounds on), an alternative indication, a timeout
    under an unconditional decision or a LEAP/PEAP early finish, or the
    configuration explicitly allows a canned EAP-Success. *)
Theorem EAP_Step_success_justified (w : world) :
  EAP_state (esm w) <> EAP_SUCCESS -> EAP_state (esm (EAP_Step w)) = EAP_SUCCESS ->
  success_allowed w.
Proof.
  intros Hn. change (EAP_state (esm (EAP_Step w))) with (c_state (ctl_of (EAP_Step w))).
  destruct (ctl_send_response false w) as (n & Ec & _).
  unfold EAP_Step, eap_peer_sm_step_local.
  do 2 (case_match; [by ctl_enter|]).
  case_match; [case_match; by ctl_enter|].
  case_match; [case_match; by ctl_enter|].
  destruct (EAP_state (esm w)) eqn:Es; try done;
    unfold eap_peer_sm_step_idle, eap_peer_sm_step_received.
  all: repeat (case_match; [|]);
    ctl_enter; rewrite ?Ec; cbn; change (c_state (ctl_of w)) with (EAP_state (esm w));
    try (rewrite ?Es; discriminate); intros _;
    unfold success_allowed, eap_success_workaround in *; rewrite Es; bool_hyps; auto 20.
  left. split_and!; auto; congruence.
Qed.

(** ** Answers to requests *)

(** One pass of the loop of eap_peer_sm_step(). *)
Definition pass (w : world) : world := EAP_Step (clear_changed w).

(** The port is enabled, nothing overrides the local transitions and at least
    one more packet may be processed. *)
Definition ready (w : world) : Prop :=
  eapol_get_bool w EAPOL_eapRestart = false /\ eapol_get_bool w EAPOL_portEnabled = true
  /\ force_disabled (esm w) = false /\ num_rounds (esm w) < EAP_MAX_AUTH_ROUNDS
  /\ num_rounds_short (esm w) < EAP_MAX_AUTH_ROUNDS_SHORT.

(** A well-formed EAP-Request frame. *)
Definition is_request (req : wpabuf) : Prop :=
  hdr_code (wpabuf_head req) = EAP_CODE_REQUEST
  /\ sizeof_eap_hdr + 1 <= hdr_length (wpabuf_head req) <= wpabuf_len req.

Definition req_digest (req : wpabuf) : bytes :=
  sha1 (take (Z.to_nat (hdr_length (wpabuf_head req))) (wpabuf_head req)).

(** struct eap_sm after eap_sm_parseEapReq() has accepted the request [req]. *)
Definition parsed_request (req : wpabuf) (sm : eap_sm) : eap_sm :=
  let hdr := wpabuf_head req in
  let ty := byte_at (drop 4 hdr) 0 in
  let long := sizeof_eap_hdr + 8 <=? hdr_length hdr in
  sm <| rxReq := true |> <| rxResp := false |> <| rxSuccess := false |> <| rxFailure := false |>
     <| reqId := hdr_identifier hdr |> <| reqMethod := ty |>
     <| reqVendor := if (ty =? EAP_TYPE_EXPANDED) && long then get_be24 (drop 5 hdr) else EAP_VENDOR_IETF |>
     <| reqVendorMethod := if (ty =? EAP_TYPE_EXPANDED) && long then get_be32 (drop 8 hdr) else EAP_TYPE_NONE |>
     <| req_sha1 := if workaround sm then req_digest req else req_sha1 sm |>.

Lemma parse_request req w :
  is_request req ->
  eap_sm_parseEapReq (Some req) w = World (parsed_request req (esm w)) (eapol w).
Proof.
  intros (Ec & Hl & Hu). unfold eap_sm_parseEapReq, parsed_request, req_digest. cbv zeta.
  assert (4 <= wpabuf_len req) by (unfold sizeof_eap_hdr in *; lia).
  rewrite (proj2 (Z.ltb_ge _ sizeof_eap_hdr)) by (unfold sizeof_eap_hdr in *; lia).
  rewrite (proj2 (Z.ltb_ge _ (hdr_length _))) by lia.
  rewrite Ec, Z.eqb_refl, (proj2 (Z.ltb_ge _ (sizeof_eap_hdr + 1))) by lia.
  rewrite !drop_drop. cbn [Nat.add]. unfold on_sm. cbn [esm eapol].
  destruct (workaround (esm w)) eqn:Ew; cbn [over workaround reqMethod esm eapol];
    rewrite ?Ew; cbn; destruct (byte_at _ 0 =? EAP_TYPE_EXPANDED); cbn;
    rewrite <- ?Z.leb_antisym, ?Z.ltb_antisym;
    try destruct (sizeof_eap_hdr + 8 <=? _); cbn; by rewrite ?Ew.
Qed.

Definition local_ctl (c : ctl) : Prop :=
  c_restart c = false /\ c_port c = true /\ c_disabled c = false
  /\ c_rounds c <= EAP_MAX_AUTH_ROUNDS /\ c_short c <= EAP_MAX_AUTH_ROUNDS_SHORT.

Lemma pass_local w :
  local_ctl (ctl_of w) -> pass w = eap_peer_sm_step_local (clear_changed w).
Proof.
  intros (Er & Ep & Ed & Hr & Hs). unfold pass, EAP_Step, ctl_of in *. cbn in *.
  change (eapol_get_bool (clear_changed w)) with (eapol_get_bool w).
  rewrite Er, Ep, Ed. cbn [andb orb negb].
  by rewrite (proj2 (Z.ltb_ge _ _) Hr), (proj2 (Z.ltb_ge _ _) Hs).
Qed.

Lemma ready_local w : ready w -> local_ctl (ctl_of w).
Proof. intros (? & ? & ? & ? & ?). unfold local_ctl, ctl_of; cbn; split_and!; done || lia. Qed.

Lemma pass_idle_request w req :
  ready w -> EAP_state (esm w) = EAP_IDLE -> eapol_get_bool w EAPOL_eapReq = true ->
  eapol_get_eapReqData w = Some req -> is_request req ->
  exists short,
  pass w = World (parsed_request req (esm w) <| EAP_state := EAP_RECEIVED |> <| changed := true |>
                    <| num_rounds := num_rounds (esm w) + 1 |> <| num_rounds_short := short |>)
                 (eapol w) /\ short <= EAP_MAX_AUTH_ROUNDS_SHORT.
Proof.
  intros (Er & Ep & Ed & Hr & Hs) Est Eq Edata Hreq.
  exists (if wpabuf_len req <? 20 then num_rounds_short (esm w) + 1 else 0).
  split; [|unfold EAP_MAX_AUTH_ROUNDS_SHORT in *; case_match; lia].
  rewrite pass_local by (apply ready_local; by repeat split).
  unfold eap_peer_sm_step_local. change (EAP_state (esm (clear_changed w))) with (EAP_state (esm w)).
  rewrite Est. unfold eap_peer_sm_step_idle.
  change (eapol_get_bool (clear_changed w)) with (eapol_get_bool w). rewrite Eq.
  unfold EAP_RECEIVED_Enter. cbv zeta.
  change (eapol_get_eapReqData (on_sm _ _)) with (eapol_get_eapReqData w).
  rewrite Edata, parse_request by done.
  unfold on_sm, sm_entry. cbn. by destruct (wpabuf_len req <? 20).
Qed.

(** The transition RECEIVED takes on a request. *)
Lemma step_received_request w :
  rxReq (esm w) = true -> rxSuccess (esm w) = false -> rxFailure (esm w) = false ->
  eap_peer_sm_step_received w =
  let sm := esm w in
  if eap_peer_req_is_duplicate sm then EAP_RETRANSMIT_Enter false w
  else if (reqMethod sm =? EAP_TYPE_NOTIFICATION) && allowNotifications sm
  then EAP_NOTIFICATION_Enter false w
  else if (selectedMethod sm =? EAP_TYPE_NONE) && (reqMethod sm =? EAP_TYPE_IDENTITY)
  then EAP_IDENTITY_Enter false w
  else if (selectedMethod sm =? EAP_TYPE_NONE) && negb (reqMethod sm =? EAP_TYPE_IDENTITY)
          && negb (reqMethod sm =? EAP_TYPE_NOTIFICATION)
  then EAP_GET_METHOD_Enter false w
  else if (reqMethod sm =? selectedMethod sm) && bool_decide (methodState sm <> METHOD_DONE)
  then EAP_METHOD_Enter false w
  else if (selectedMethod sm =? EAP_TYPE_LEAP) && rxResp sm
  then EAP_METHOD_Enter false w
  else if reauthInit sm then EAP_SEND_RESPONSE_Enter false w
  else EAP_DISCARD_Enter false w.
Proof.
  intros E1 E2 E3. unfold eap_peer_sm_step_received. rewrite E1, E2, E3. cbn.
  rewrite !andb_false_r. cbn. by destruct (eap_peer_req_is_duplicate (esm w)).
Qed.

(** The part of struct eap_sm that belongs to the method in progress. *)
Definition method_part (sm : eap_sm) :=
  (m sm, eap_method_priv sm, selectedMethod sm, methodState sm, decision sm, eapKeyData sm,
   eapSessionId sm, allowNotifications sm).

(** The world after the first of the passes that answer the request [req]. *)
Record received (w : world) (req : wpabuf) (w1 : world) : Prop := {
  rc_local : local_ctl (ctl_of w1);
  rc_state : EAP_state (esm w1) = EAP_RECEIVED;
  rc_rxReq : rxReq (esm w1) = true;
  rc_rxSuccess : rxSuccess (esm w1) = false;
  rc_rxFailure : rxFailure (esm w1) = false;
  rc_reqId : reqId (esm w1) = hdr_identifier (wpabuf_head req);
  rc_reqMethod : reqMethod (esm w1) = byte_at (drop 4 (wpabuf_head req)) 0;
  rc_digest : workaround (esm w) = true -> req_sha1 (esm w1) = req_digest req;
  rc_workaround : workaround (esm w1) = workaround (esm w);
  rc_last_sha1 : last_sha1 (esm w1) = last_sha1 (esm w);
  rc_lastId : lastId (esm w1) = lastId (esm w);
  rc_lastRespData : lastRespData (esm w1) = lastRespData (esm w);
  rc_machine : use_machine_cred (esm w1) = use_machine_cred (esm w);
  rc_method : method_part (esm w1) = method_part (esm w);
  rc_eapol : eapol w1 = eapol w
}.
#[global] Arguments rc_local {w req w1}.
#[global] Arguments rc_state {w req w1}.
#[global] Arguments rc_rxReq {w req w1}.
#[global] Arguments rc_rxSuccess {w req w1}.
#[global] Arguments rc_rxFailure {w req w1}.
#[global] Arguments rc_reqId {w req w1}.
#[global] Arguments rc_reqMethod {w req w1}.
#[global] Arguments rc_digest {w req w1}.
#[global] Arguments rc_workaround {w req w1}.
#[global] Arguments rc_last_sha1 {w req w1}.
#[global] Arguments rc_lastId {w req w1}.
#[global] Arguments rc_lastRespData {w req w1}.
#[global] Arguments rc_machine {w req w1}.
#[global] Arguments rc_method {w req w1}.
#[global] Arguments rc_eapol {w req w1}.

Lemma pass_received w req :
  ready w -> EAP_state (esm w) = EAP_IDLE -> eapol_get_bool w EAPOL_eapReq = true ->
  eapol_get_eapReqData w = Some req -> is_request req -> received w req (pass w).
Proof.
  intros Hready Est Eq Edata Hreq.
  destruct (pass_idle_request w req Hready Est Eq Edata Hreq) as (short & E1 & Hshort).
  destruct Hready as (Er & Ep & Ed & Hr & Hs). rewrite E1.
  constructor; try done.
  - split_and!; [exact Er|exact Ep|exact Ed| |exact Hshort].
    change (num_rounds (esm w) + 1 <= EAP_MAX_AUTH_ROUNDS). lia.
  - cbn. intros Ew. by rewrite Ew.
Qed.

Lemma pass_received_request w req w1 :
  received w req w1 ->
  pass w1 = eap_peer_sm_step_received (clear_changed w1).
Proof.
  intros R. rewrite (pass_local w1 (rc_local R)). unfold eap_peer_sm_step_local.
  change (EAP_state (esm (clear_changed w1))) with (EAP_state (esm w1)). by rewrite (rc_state R).
Qed.

(** States whose only way on is to send the response they have built. *)
Lemma pass_respond w :
  local_ctl (ctl_of w) ->
  c_state (ctl_of w) = EAP_RETRANSMIT \/ c_state (ctl_of w) = EAP_IDENTITY
  \/ c_state (ctl_of w) = EAP_NOTIFICATION ->
  pass w = EAP_SEND_RESPONSE_Enter false (clear_changed w).
Proof.
  intros Hl Hs. rewrite (pass_local w Hl). unfold eap_peer_sm_step_local.
  change (EAP_state (esm (clear_changed w))) with (c_state (ctl_of w)).
  by destruct Hs as [->|[->| ->]].
Qed.

Lemma is_duplicate_true (sm : eap_sm) :
  rxReq sm = true -> reqId sm = lastId sm -> (workaround sm = true -> req_sha1 sm = last_sha1 sm) ->
  eap_peer_req_is_duplicate sm = true.
Proof.
  intros E1 E2 E3. unfold eap_peer_req_is_duplicate. rewrite E1, E2, Z.eqb_refl. cbn.
  destruct (workaround sm); [|done]. rewrite E3, memcmp_refl by done. done.
Qed.

Definition is_duplicate (req : wpabuf) (sm : eap_sm) : Prop :=
  hdr_identifier (wpabuf_head req) = lastId sm
  /\ (workaround sm = true -> req_digest req = last_sha1 sm).

Lemma send_response_spec g w :
  let w' := EAP_SEND_RESPONSE_Enter g w in
  EAP_state (esm w') = EAP_SEND_RESPONSE
  /\ eapRespData (esm w') = eapRespData (esm w)
  /\ (eapRespData (esm w) <> None -> eapol_get_bool w' EAPOL_eapResp = true)
  /\ eapol_get_bool w' EAPOL_eapReq = false
  /\ lastId (esm w') = (if eapRespData (esm w) is Some _ then reqId (esm w) else lastId (esm w))
  /\ lastRespData (esm w') = (let? r := eapRespData (esm w) in wpabuf_dup r)
  /\ method_part (esm w') = method_part (esm w).
Proof.
  unfold EAP_SEND_RESPONSE_Enter, sm_entry, method_part. cbv zeta.
  unfold eapol_set_bool, eapol_set_int, on_sm, on_eapol, eapol_get_bool. cbn [esm eapol].
  destruct (negb g || _); cbn [over eapRespData esm eapol];
    destruct (eapRespData (esm w)) as [resp|] eqn:Er;
    try destruct (20 <=? wpabuf_len resp); cbn [over workaround esm eapol];
    try destruct (workaround (esm w)); cbn;
    rewrite ?get_bool_set_int, ?get_set_bool; cbn; split_and!; done.
Qed.

(** A retransmitted request is answered without touching the method: when
    the identifier (and, with workarounds on, the digest) of a request is that
    of the last response, three passes take IDLE to SEND_RESPONSE with a copy
    of the response sent before, and the method, its state and decision, the
    key and the session identifier are unchanged. *)
Theorem duplicate_request_retransmitted (w : world) (req : wpabuf) :
  ready w -> EAP_state (esm w) = EAP_IDLE -> eapol_get_bool w EAPOL_eapReq = true ->
  eapol_get_eapReqData w = Some req -> is_request req -> is_duplicate req (esm w) ->
  let w' := pass (pass (pass w)) in
  EAP_state (esm w') = EAP_SEND_RESPONSE
  /\ eapRespData (esm w') = (let? l := lastRespData (esm w) in wpabuf_dup l)
  /\ (eapRespData (esm w') <> None -> eapol_get_bool w' EAPOL_eapResp = true)
  /\ eapol_get_bool w' EAPOL_eapReq = false
  /\ lastId (esm w') = lastId (esm w)
  /\ method_part (esm w') = method_part (esm w).
Proof.
  intros Hready Est Eq Edata Hreq [Eid Hsha].
  pose proof (pass_received w req Hready Est Eq Edata Hreq) as R.
  set (w1 := pass w) in *. clearbody w1. cbv zeta.
  assert (Edup : eap_peer_req_is_duplicate (esm w1) = true).
  { apply is_duplicate_true; [apply R|rewrite (rc_reqId R), (rc_lastId R); done|].
    rewrite (rc_workaround R), (rc_last_sha1 R). intros Ew. rewrite (rc_digest R Ew). auto. }
  assert (E2 : pass w1 = EAP_RETRANSMIT_Enter false (clear_changed w1)).
  { rewrite (pass_received_request w req w1 R), step_received_request by apply R. cbv zeta.
    by change (eap_peer_req_is_duplicate (esm (clear_changed w1)))
      with (eap_peer_req_is_duplicate (esm w1)); rewrite Edup. }
  rewrite (pass_respond (pass w1)), E2.
  2: { rewrite E2, ctl_retransmit, ctl_clear. apply (rc_local R). }
  2: { rewrite E2, ctl_retransmit. by left. }
  destruct (send_response_spec false
    (clear_changed (EAP_RETRANSMIT_Enter false (clear_changed w1)))) as (G1 & G2 & G3 & G4 & G5 & _ & G7).
  set (w2 := clear_changed (EAP_RETRANSMIT_Enter _ _)) in *.
  assert (K : eapRespData (esm w2) = (let? l := lastRespData (esm w1) in wpabuf_dup l)
              /\ lastId (esm w2) = lastId (esm w1) /\ reqId (esm w2) = reqId (esm w1)
              /\ method_part (esm w2) = method_part (esm w1)) by (unfold w2, EAP_RETRANSMIT_Enter; split_and!; reflexivity).
  destruct K as (K1 & K2 & K3 & K4). rewrite K1, (rc_lastRespData R) in *.
  rewrite G2, G5, G7, K2, K3, K4, (rc_method R), (rc_lastId R), (rc_reqId R), Eid.
  split_and!; auto. by repeat case_match.
Qed.

End Props.

(** ** Witnesses *)

Definition demo_request : world unit lower :=
  World demo_idle (demo_lower [EAPOL_portEnabled; EAPOL_eapReq] [1; 7; 0; 5; 1]).

Lemma eap_peer_sm_step_terminates_witness :
  exists res w', eap_peer_sm_step_loop EAP_STEP_FUEL false demo_request = Some (res, w')
    /\ eap_peer_sm_step demo_request = (res, w').
Proof.
  destruct (eap_peer_sm_step_terminates demo_request) as (res & w' & E & F & _).
  exists res, w'. split; [exact E|exact F].
Defined.

Lemma eap_peer_sm_step_rounds_bounded_witness :
  rounds_ok (ctl_of demo_request) /\ rounds_ok (ctl_of (eap_peer_sm_step demo_request).2).
Proof.
  assert (E : rounds_ok (ctl_of demo_request)) by (vm_compute; intuition congruence).
  split; [exact E|]. exact (proj1 (eap_peer_sm_step_rounds_bounded demo_request E)).
Defined.

Definition demo_success : world unit lower :=
  World (demo_idle <| EAP_state := EAP_RECEIVED |> <| rxSuccess := true |> <| reqId := 7 |>
           <| decision := DECISION_COND_SUCC |>)
    (demo_lower [EAPOL_portEnabled] [3; 7; 0; 4]).

Lemma EAP_Step_success_justified_witness :
  EAP_state (esm (EAP_Step demo_success)) = EAP_SUCCESS /\ success_allowed demo_success.
Proof.
  split; [reflexivity|]. apply EAP_Step_success_justified; [discriminate|reflexivity].
Defined.

Lemma duplicate_request_retransmitted_witness :
  let w' := pass (pass (pass demo_request)) in
  EAP_state (esm w') = EAP_SEND_RESPONSE
  /\ (wb_buf <$> eapRespData (esm w')) = Some [2; 7; 0; 5; 1].
Proof.
  destruct (duplicate_request_retransmitted demo_request (Wpabuf 5 [1; 7; 0; 5; 1] false))
    as (E & F & _).
  - repeat split; reflexivity.
  - reflexivity.
  - reflexivity.
  - reflexivity.
  - split; [reflexivity|split; discriminate].
  - split; [reflexivity|discriminate].
  - split; [exact E|]. rewrite F. reflexivity.
Defined.
