(* ===== verification/EapPeerNak.v ===== *)
(** * Responses built by the EAP peer: Nak and Identity

    What eap_sm_buildNak() and eap_sm_buildIdentity() (src/eap_peer/eap.c) put
    into their messages, and the exchange that answers an Identity request. *)

From stdpp Require Import strings.
From S2P Require Import Prelude Wpabuf EapCommon EapPeer EapPeerDemo EapPeerProps.

Section Nak.
Context {priv S : Type} `{EapMethods priv} `{EapolCallbacks S} `{OsAlloc}.
Abbreviation world := (world priv S).
Abbreviation eap_sm := (eap_sm priv).

(** ** Nak *)

(** A method the peer may ask for instead of the one in the request: compiled
    in, allowed by the configuration and not the refused method itself. *)
Definition proposable (w : world) (refused_vendor refused : Z) (e : eap_method) : Prop :=
  e ∈ eap_methods /\ eap_allowed_method w (em_vendor e) (em_method e) = true
  /\ ~ (em_vendor e = refused_vendor /\ em_method e = refused).

(** One byte of a Nak: an IETF method, or 254 for some vendor method. *)
Definition nak_type (w : world) (t : Z) : Prop :=
  exists e, proposable w EAP_VENDOR_IETF (reqMethod (esm w)) e
    /\ t = if em_vendor e =? EAP_VENDOR_IETF then u8 (em_method e) else EAP_TYPE_EXPANDED.

(** One entry of an Expanded Nak. *)
Definition nak_entry (vendor type : Z) : bytes :=
  u8 EAP_TYPE_EXPANDED :: put_be24 vendor ++ put_be32 type.

Definition nak_expanded (w : world) (e : eap_method) : Prop :=
  proposable w (reqVendor (esm w)) (reqVendorMethod (esm w)) e.

(** [b'] is [b] with [d] appended inside the buffer. *)
Definition extends (b b' : wpabuf) (d : bytes) : Prop :=
  wb_buf b' = wb_buf b ++ d /\ wb_size b' = wb_size b /\ (wpabuf_ok b -> wpabuf_ok b').

Lemma extends_refl b : extends b b [].
Proof. unfold extends. by rewrite app_nil_r. Qed.

Lemma extends_trans b1 b2 b3 d e :
  extends b1 b2 d -> extends b2 b3 e -> extends b1 b3 (d ++ e).
Proof. intros (E1 & E2 & E3) (F1 & F2 & F3). split_and!; [by rewrite F1, E1, app_assoc|congruence|auto]. Qed.

Lemma extends_put b d :
  bytes_ok d -> wpabuf_len b + zlen d <= wb_size b -> extends b (wpabuf_put b d) d.
Proof.
  intros Hd Hl. split_and!; [apply wpabuf_put_buf|apply wpabuf_put_size|].
  intros Hb. apply wpabuf_put_ok; [done..|]. unfold wpabuf_tailroom. lia.
Qed.

Lemma extends_len b b' d : extends b b' d -> wpabuf_len b' = wpabuf_len b + zlen d.
Proof. intros (E & _). unfold wpabuf_len. by rewrite E, zlen_app. Qed.

Lemma update_len_ok b :
  wpabuf_ok b -> sizeof_eap_hdr <= wpabuf_len b ->
  wpabuf_ok (eap_update_len b) /\ wpabuf_len (eap_update_len b) = wpabuf_len b
  /\ hdr_length (wpabuf_head (eap_update_len b)) = u16 (wpabuf_len b)
  /\ hdr_code (wpabuf_head (eap_update_len b)) = hdr_code (wpabuf_head b)
  /\ hdr_identifier (wpabuf_head (eap_update_len b)) = hdr_identifier (wpabuf_head b)
  /\ drop 4 (wpabuf_head (eap_update_len b)) = drop 4 (wpabuf_head b).
Proof.
  intros (Ha & Hs & Hb) Hl. unfold eap_update_len.
  rewrite (proj2 (Z.ltb_ge _ _) Hl). unfold wpabuf_len, sizeof_eap_hdr, wpabuf_head in *.
  destruct b as [size buf ab]. cbn in *. destruct buf as [|x0 [|x1 [|x2 [|x3 buf]]]];
    try (unfold zlen in *; cbn in *; lia).
  cbn in *. set (n := zlen _) in *.
  assert (zlen (x0 :: x1 :: u8 (n / 256) :: u8 n :: drop 0 buf) = n).
  { unfold n, zlen. cbn. by rewrite drop_0. }
  split_and!; try done.
  - unfold wpabuf_ok, wpabuf_len. cbn. rewrite drop_0 in *. split_and!; [done|lia|].
    unfold bytes_ok in *. rewrite !Forall_cons in *. destruct Hb as (? & ? & _ & _ & ?).
    auto 10 using is_uint_wrap8.
  - exact (get_put_be16_wrap n (drop 0 buf)).
Qed.

(** The loop over the methods of the legacy Nak. *)
Definition nak_step (w : world) : wpabuf * Z * bool -> eap_method -> wpabuf * Z * bool :=
  fun '(resp, found, expanded_found) e =>
    if (em_vendor e =? EAP_VENDOR_IETF) && (em_method e =? reqMethod (esm w))
    then (resp, found, expanded_found)
    else if eap_allowed_method w (em_vendor e) (em_method e) then
      if negb (em_vendor e =? EAP_VENDOR_IETF) then
        if expanded_found : bool then (resp, found, expanded_found)
        else (wpabuf_put_u8 resp EAP_TYPE_EXPANDED, found + 1, true)
      else (wpabuf_put_u8 resp (em_method e), found + 1, expanded_found)
    else (resp, found, expanded_found).

Lemma nak_loop w ms : forall resp found ex,
  (forall e, e ∈ ms -> e ∈ eap_methods) -> wpabuf_len resp + zlen ms <= wb_size resp ->
  exists r ex' ts,
    fold_left (nak_step w) ms (resp, found, ex) = (r, found + zlen ts, ex')
    /\ extends resp r ts /\ zlen ts <= zlen ms /\ Forall (nak_type w) ts.
Proof.
  induction ms as [|e ms IH]; intros resp found ex Hin Hl.
  { exists resp, ex, []. split_and!; [cbn; by rewrite zlen_nil, Z.add_0_r|apply extends_refl|done|done]. }
  rewrite zlen_cons in *. cbn [fold_left].
  assert (Hput : forall t ex1, nak_type w t -> is_byte t ->
    exists r ex' ts,
      fold_left (nak_step w) ms (wpabuf_put resp [t], found + 1, ex1) = (r, found + zlen ts, ex')
      /\ extends resp r ts /\ zlen ts <= zlen ms + 1 /\ Forall (nak_type w) ts).
  { intros t ex1 Ht Hb.
    assert (Hx : extends resp (wpabuf_put resp [t]) [t]).
    { apply extends_put; [by constructor|]. pose proof (zlen_nonneg ms). autorewrite with zlen. lia. }
    destruct (IH (wpabuf_put resp [t]) (found + 1) ex1) as (r & ex' & ts & E & F & G & K).
    - intros. apply Hin. by right.
    - rewrite (extends_len _ _ _ Hx), (proj1 (proj2 Hx)). autorewrite with zlen. lia.
    - exists r, ex', (t :: ts). rewrite zlen_cons, E. split_and!; [f_equal; f_equal; lia| |lia|by constructor].
      by apply (extends_trans _ _ _ [t] ts Hx). }
  assert (Hskip : exists r ex' ts, fold_left (nak_step w) ms (resp, found, ex) = (r, found + zlen ts, ex')
      /\ extends resp r ts /\ zlen ts <= zlen ms + 1 /\ Forall (nak_type w) ts).
  { destruct (IH resp found ex) as (r & ex' & ts & E & F & G & K).
    - intros. apply Hin. by right.
    - lia.
    - exists r, ex', ts. split_and!; auto; lia. }
  unfold nak_step at 2.
  destruct ((em_vendor e =? EAP_VENDOR_IETF) && (em_method e =? reqMethod (esm w))) eqn:Er; [done|].
  destruct (eap_allowed_method w (em_vendor e) (em_method e)) eqn:Ea; [|done].
  assert (Hp : proposable w EAP_VENDOR_IETF (reqMethod (esm w)) e).
  { split_and!; [apply Hin; by left|done|]. intros [E1 E2]. by rewrite E1, E2, !Z.eqb_refl in Er. }
  destruct (em_vendor e =? EAP_VENDOR_IETF) eqn:Ev; cbn [negb].
  - apply Hput; [|apply is_uint_wrap8]. exists e. by rewrite Ev.
  - destruct ex; [done|]. apply Hput; [|apply is_uint_wrap8]. exists e. by rewrite Ev.
Qed.

(** C18. A legacy Nak is well formed and honest: it fits its buffer, its length
    field is its length, it answers the identifier of the request, and after
    the type byte 3 it lists only methods that are compiled in, allowed by the
    configuration and different from the refused one (254 for vendor methods);
    when there is none it lists exactly the type 0. *)
Theorem eap_sm_buildNak_spec (w : world) (id : Z) (resp : wpabuf) :
  reqMethod (esm w) <> EAP_TYPE_EXPANDED ->
  eap_sm_buildNak w id = Some resp ->
  wpabuf_ok resp
  /\ hdr_code (wpabuf_head resp) = EAP_CODE_RESPONSE
  /\ hdr_identifier (wpabuf_head resp) = u8 id
  /\ hdr_length (wpabuf_head resp) = u16 (wpabuf_len resp)
  /\ exists types, drop 4 (wpabuf_head resp) = EAP_TYPE_NAK :: types
       /\ types <> [] /\ (types = [EAP_TYPE_NONE] \/ Forall (nak_type w) types).
Proof.
  intros Hx. unfold eap_sm_buildNak. destruct eap_methods as [|m0 ms0] eqn:Em; [done|].
  rewrite (proj2 (Z.eqb_neq _ _) Hx). rewrite <- Em. clear Em.
  destruct (eap_msg_alloc _ _ _ _ _) as [b|] eqn:Eb; [|done].
  pose proof (zlen_nonneg (eap_methods)) as Hn.
  apply eap_msg_alloc_spec in Eb as (Ebuf & Hok & Hroom); [|unfold sizeof_eap_hdr; lia].
  fold (nak_step w). unfold wpabuf_tailroom, sizeof_eap_hdr in Hroom.
  destruct (nak_loop w eap_methods b 0 false) as (r & ex & ts & -> & Hr & Hts & Hall); [done|lia|].
  set (resp' := if _ =? 0 then _ else _). intros [= <-].
  assert (K : exists types, extends b resp' types /\ types <> []
                /\ (types = [EAP_TYPE_NONE] \/ Forall (nak_type w) types)).
  { unfold resp'. destruct (Z.eqb_spec (0 + zlen ts) 0) as [E|E].
    - destruct ts; [|unfold zlen in E; cbn in E; lia]. exists [0]. split_and!; auto.
      apply (extends_trans _ _ _ [] [0] Hr). apply extends_put; [by repeat constructor|].
      rewrite (extends_len _ _ _ Hr), (proj1 (proj2 Hr)). autorewrite with zlen in *. lia.
    - exists ts. split_and!; auto. by intros ->. }
  clearbody resp'. destruct K as (types & Hx' & Hne & Hty).
  assert (Hlen : wpabuf_len resp' = 5 + zlen types).
  { rewrite (extends_len _ _ _ Hx'). unfold wpabuf_len. by rewrite Ebuf. }
  pose proof (zlen_nonneg types). destruct Hx' as (Hbuf & _ & Hokr).
  destruct (update_len_ok resp') as (U1 & U2 & U3 & U4 & U5 & U6);
    [auto|unfold sizeof_eap_hdr; lia|].
  rewrite U2, U3, U4, U5, U6. unfold wpabuf_head. rewrite Hbuf, Ebuf. split_and!; try done.
  by exists types.
Qed.

(** The loop over the methods of the Expanded Nak. *)
Definition nak_put (resp : wpabuf) (vendor type : Z) : wpabuf :=
  wpabuf_put_be32 (wpabuf_put_be24 (wpabuf_put_u8 resp EAP_TYPE_EXPANDED) vendor) type.

Lemma nak_put_extends b vendor type :
  wpabuf_len b + 8 <= wb_size b -> extends b (nak_put b vendor type) (nak_entry vendor type).
Proof.
  intros Hl. unfold nak_put, wpabuf_put_be32, wpabuf_put_be24, wpabuf_put_u8.
  rewrite !wpabuf_put_put. apply (extends_put b (nak_entry vendor type)); [|done].
  unfold nak_entry. constructor; [apply is_uint_wrap8|]. apply bytes_ok_app. auto with wpa.
Qed.

Definition expanded_nak_step (w : world) : wpabuf * Z -> eap_method -> wpabuf * Z :=
  fun '(resp, found) e =>
    if (reqVendor (esm w) =? em_vendor e) && (reqVendorMethod (esm w) =? em_method e)
    then (resp, found)
    else if eap_allowed_method w (em_vendor e) (em_method e)
    then (nak_put resp (em_vendor e) (em_method e), found + 1)
    else (resp, found).

Definition entries (l : list eap_method) : bytes :=
  concat (map (fun e => nak_entry (em_vendor e) (em_method e)) l).

Lemma expanded_nak_loop w ms : forall resp found,
  (forall e, e ∈ ms -> e ∈ eap_methods) -> wpabuf_len resp + 8 * zlen ms <= wb_size resp ->
  exists r l,
    fold_left (expanded_nak_step w) ms (resp, found) = (r, found + zlen l)
    /\ extends resp r (entries l) /\ zlen l <= zlen ms /\ Forall (nak_expanded w) l
    /\ (forall e, e ∈ ms -> nak_expanded w e -> e ∈ l).
Proof.
  induction ms as [|e ms IH]; intros resp found Hin Hl.
  { exists resp, []. split_and!; [cbn; by rewrite zlen_nil, Z.add_0_r|apply extends_refl|done..]. }
  rewrite zlen_cons in *. cbn [fold_left]. pose proof (zlen_nonneg ms).
  assert (Hin' : forall e, e ∈ ms -> e ∈ eap_methods) by (intros; apply Hin; by right).
  assert (Hskip : ~ nak_expanded w e ->
    exists r l, fold_left (expanded_nak_step w) ms (resp, found) = (r, found + zlen l)
      /\ extends resp r (entries l) /\ zlen l <= zlen ms + 1 /\ Forall (nak_expanded w) l
      /\ (forall e', e' ∈ e :: ms -> nak_expanded w e' -> e' ∈ l)).
  { intros Hne. destruct (IH resp found) as (r & l & E & F & G & K & L); [done|lia|].
    exists r, l. split_and!; auto; [lia|]. intros e' [->|?]%elem_of_cons ?; [done|auto]. }
  unfold expanded_nak_step at 2.
  destruct ((reqVendor (esm w) =? em_vendor e) && _) eqn:Er.
  { apply Hskip. intros (_ & _ & Hne). apply Hne.
    apply andb_true_iff in Er as [E1%Z.eqb_eq E2%Z.eqb_eq]. done. }
  destruct (eap_allowed_method w (em_vendor e) (em_method e)) eqn:Ea.
  2: { apply Hskip. intros (_ & Ha & _). congruence. }
  pose proof (nak_put_extends resp (em_vendor e) (em_method e) ltac:(lia)) as Hx.
  destruct (IH (nak_put resp (em_vendor e) (em_method e)) (found + 1))
    as (r & l & E & F & G & K & L); [done| |].
  { rewrite (extends_len _ _ _ Hx), (proj1 (proj2 Hx)).
    change (zlen (nak_entry (em_vendor e) (em_method e))) with 8. lia. }
  exists r, (e :: l). rewrite zlen_cons, E. split_and!.
  - f_equal. lia.
  - by apply (extends_trans _ _ _ _ _ Hx).
  - lia.
  - constructor; [|done]. split_and!; [apply Hin; by left|done|].
    intros [E1 E2]. by rewrite E1, E2, !Z.eqb_refl in Er.
  - intros e' [->|?]%elem_of_cons ?; [by left|right; auto].
Qed.

(** An Expanded Nak lists exactly the alternatives: it fits its buffer, its
    length field is its length, and after the expanded type (IETF, Nak) come
    the (vendor, type) pairs of all the methods that are compiled in, allowed
    and different from the refused one, or the single pair (IETF, None) when
    there are no such methods. *)
Theorem eap_sm_build_expanded_nak_spec (w : world) (id : Z) (resp : wpabuf) :
  eap_sm_build_expanded_nak w id eap_methods = Some resp ->
  wpabuf_ok resp
  /\ hdr_code (wpabuf_head resp) = EAP_CODE_RESPONSE
  /\ hdr_identifier (wpabuf_head resp) = u8 id
  /\ hdr_length (wpabuf_head resp) = u16 (wpabuf_len resp)
  /\ exists l, drop 4 (wpabuf_head resp)
        = nak_entry EAP_VENDOR_IETF EAP_TYPE_NAK
          ++ (if bool_decide (l = []) then nak_entry EAP_VENDOR_IETF EAP_TYPE_NONE else entries l)
       /\ (forall e, e ∈ l <-> nak_expanded w e).
Proof.
  unfold eap_sm_build_expanded_nak.
  destruct (eap_msg_alloc _ _ _ _ _) as [b|] eqn:Eb; [|done].
  pose proof (zlen_nonneg (eap_methods)) as Hn.
  apply eap_msg_alloc_spec in Eb as (Ebuf & Hok & Hroom); [|lia].
  unfold wpabuf_tailroom in Hroom. cbv zeta.
  change (fun pat : wpabuf * Z => _) with (expanded_nak_step w).
  set (b1 := wpabuf_put_be32 _ _).
  assert (Hx1 : extends b b1 (put_be24 EAP_VENDOR_IETF ++ put_be32 EAP_TYPE_NAK)).
  { unfold b1, wpabuf_put_be32, wpabuf_put_be24. rewrite wpabuf_put_put. apply extends_put.
    - apply bytes_ok_app; auto with wpa.
    - change (zlen _) with 7. lia. }
  pose proof (extends_len _ _ _ Hx1) as Hl1. change (zlen (_ ++ _)) with 7 in Hl1.
  destruct (expanded_nak_loop w eap_methods b1 0) as (r & l & -> & Hr & Hts & Hall & Hcompl);
    [done|rewrite (proj1 (proj2 Hx1)); lia|].
  set (resp' := if _ =? 0 then _ else _). intros [= <-].
  assert (K : extends b1 resp'
     (if bool_decide (l = []) then nak_entry EAP_VENDOR_IETF EAP_TYPE_NONE else entries l)).
  { unfold resp'. destruct l as [|e l].
    - cbn -[nak_put wpabuf_put]. apply (extends_trans _ _ _ [] _ Hr).
      apply nak_put_extends. rewrite (extends_len _ _ _ Hr), (proj1 (proj2 Hr)).
      cbn [entries map concat]. rewrite zlen_nil, (proj1 (proj2 Hx1)). lia.
    - rewrite zlen_cons. pose proof (zlen_nonneg l).
      rewrite (proj2 (Z.eqb_neq _ _)) by lia. rewrite bool_decide_false by done. done. }
  clearbody resp'. pose proof (extends_trans _ _ _ _ _ Hx1 K) as Hx'.
  set (d := if bool_decide (l = []) then _ else _) in *.
  assert (Hlen : sizeof_eap_hdr <= wpabuf_len resp').
  { rewrite (extends_len _ _ _ Hx'), zlen_app. unfold wpabuf_len. rewrite Ebuf.
    pose proof (zlen_nonneg d). change (zlen (_ ++ put_be32 _)) with 7. 
    rewrite eap_msg_prefix_zlen. unfold sizeof_eap_hdr. cbn. lia. }
  destruct Hx' as (Hbuf & _ & Hokr).
  destruct (update_len_ok resp') as (U1 & U2 & U3 & U4 & U5 & U6); [auto|done|].
  rewrite U2, U3, U4, U5, U6. unfold wpabuf_head. rewrite Hbuf, Ebuf. split_and!; try done.
  exists l. fold d. split; [done|]. intros e. split; [by apply Forall_forall|].
  intros He. apply Hcompl; [apply He|done].
Qed.

End Nak.

(** ** Identity *)

Section Identity.
Context {priv S : Type} `{EapMethods priv} `{EapolCallbacksLaws S} `{OsAlloc} `{Sha1}.
Abbreviation world := (world priv S).

(** The identity the configuration prescribes outside a tunnel. *)
Definition outer_identity (w : world) (c : eap_peer_config) : option bytes :=
  match anonymous_identity c with
  | Some i => Some i
  | None => if use_machine_cred (esm w) then machine_identity c else identity c
  end.

Lemma is_request_len_valid req : is_request req -> eap_hdr_len_valid (Some req) 1 = true.
Proof.
  intros (_ & H4 & H5). unfold eap_hdr_len_valid, sizeof_eap_hdr in *.
  by rewrite !(proj2 (Z.ltb_ge _ _)) by lia.
Qed.

(** The second pass recognises an Identity request outside a method. *)
Lemma pass_identity (w : world) req w1 :
  received w req w1 -> byte_at (drop 4 (wpabuf_head req)) 0 = EAP_TYPE_IDENTITY ->
  selectedMethod (esm w1) = EAP_TYPE_NONE -> hdr_identifier (wpabuf_head req) <> lastId (esm w) ->
  pass w1 = EAP_IDENTITY_Enter false (clear_changed w1).
Proof.
  intros R Ety Esel Hid. rewrite (pass_received_request w req w1 R), step_received_request by apply R.
  cbv zeta.
  change (eap_peer_req_is_duplicate (esm (clear_changed w1))) with (eap_peer_req_is_duplicate (esm w1)).
  change (reqMethod (esm (clear_changed w1))) with (reqMethod (esm w1)).
  change (selectedMethod (esm (clear_changed w1))) with (selectedMethod (esm w1)).
  unfold eap_peer_req_is_duplicate.
  rewrite (rc_reqId R), (rc_lastId R), (proj2 (Z.eqb_neq _ _) Hid), (rc_reqMethod R), Ety, Esel.
  cbn [andb]. by rewrite !andb_false_r.
Qed.

(** IDENTITY builds a message whose payload is the prescribed identity. *)
Lemma identity_built (w : world) req c ident w1 :
  received w req w1 -> eapol_get_eapReqData w = Some req -> is_request req -> m (esm w1) = None ->
  eap_get_config w = Some c -> pcsc c = false -> outer_identity w c = Some ident ->
  malloc_ok (sizeof_wpabuf + eap_msg_len EAP_VENDOR_IETF (zlen ident)) = true ->
  let w2 := clear_changed (EAP_IDENTITY_Enter false (clear_changed w1)) in
  exists b,
    eap_msg_alloc EAP_VENDOR_IETF EAP_TYPE_IDENTITY (zlen ident) EAP_CODE_RESPONSE
      (hdr_identifier (wpabuf_head req)) = Some b
    /\ eapRespData (esm w2) = Some (wpabuf_put_data b ident)
    /\ reqId (esm w2) = hdr_identifier (wpabuf_head req).
Proof.
  intros R Edata Hreq Em Econf Epc Eident Halloc. cbv zeta.
  destruct (eap_msg_alloc _ _ _ _ _) as [b|] eqn:Eb.
  2: { revert Eb. unfold eap_msg_alloc, wpabuf_alloc. unfold eap_msg_len in Halloc.
       by rewrite Halloc. }
  exists b. split; [done|]. unfold EAP_IDENTITY_Enter. cbv zeta.
  change (eapol_get_eapReqData (on_sm _ _)) with (cb_get_eapReqData (eapol w1)).
  rewrite (rc_eapol R). change (cb_get_eapReqData (eapol w)) with (eapol_get_eapReqData w).
  rewrite Edata, is_request_len_valid by done. cbn [negb].
  unfold eap_sm_processIdentity, eap_sm_buildIdentity.
  change (eap_get_config (on_sm _ _)) with (cb_get_config (cb_notify_status "started" "" (eapol w1))).
  rewrite get_config_status, (rc_eapol R). change (cb_get_config (eapol w)) with (eap_get_config w).
  rewrite Econf, Epc. cbn -[eap_msg_alloc]. rewrite Em, (rc_reqId R). cbn -[eap_msg_alloc].
  assert (Ei : (if bool_decide (is_Some (anonymous_identity c)) then anonymous_identity c
                else if use_machine_cred (esm w1) then machine_identity c else identity c) = Some ident).
  { rewrite (rc_machine R), <- Eident. unfold outer_identity.
    destruct (anonymous_identity c); [by rewrite bool_decide_true|by rewrite bool_decide_false by apply is_Some_None]. }
  rewrite Ei, Eb. cbn. by rewrite (rc_reqId R).
Qed.

(** A new Identity request is answered with the configured identity: in
    three passes the machine goes from IDLE to SEND_RESPONSE with an
    EAP-Response/Identity that carries the identifier of the request and, as its
    type data, the anonymous identity or else the (machine) identity of the
    configuration; the request is then consumed and the response announced. *)
Theorem identity_request_answered (w : world) (req : wpabuf) (c : eap_peer_config) (ident : bytes) :
  ready w -> EAP_state (esm w) = EAP_IDLE -> eapol_get_bool w EAPOL_eapReq = true ->
  eapol_get_eapReqData w = Some req -> is_request req -> bytes_ok (wpabuf_head req) ->
  byte_at (drop 4 (wpabuf_head req)) 0 = EAP_TYPE_IDENTITY ->
  hdr_identifier (wpabuf_head req) <> lastId (esm w) ->
  selectedMethod (esm w) = EAP_TYPE_NONE -> m (esm w) = None ->
  eap_get_config w = Some c -> pcsc c = false -> outer_identity w c = Some ident ->
  bytes_ok ident -> zlen ident <= 65530 -> malloc_ok (sizeof_wpabuf + eap_msg_len EAP_VENDOR_IETF (zlen ident)) = true ->
  let w' := pass (pass (pass w)) in
  EAP_state (esm w') = EAP_SEND_RESPONSE
  /\ eapol_get_bool w' EAPOL_eapReq = false /\ eapol_get_bool w' EAPOL_eapResp = true
  /\ lastId (esm w') = hdr_identifier (wpabuf_head req)
  /\ exists resp, eapRespData (esm w') = Some resp
       /\ hdr_code (wpabuf_head resp) = EAP_CODE_RESPONSE
       /\ eap_get_id resp = hdr_identifier (wpabuf_head req)
       /\ eap_hdr_validate EAP_VENDOR_IETF EAP_TYPE_IDENTITY (Some resp) = Some (ident, zlen ident).
Proof.
  intros Hready Est Eq Edata Hreq Hby Ety Hid Esel Em Econf Epc Eident Hib Hil Halloc.
  pose proof (pass_received w req Hready Est Eq Edata Hreq) as R.
  set (w1 := pass w) in *. clearbody w1. cbv zeta.
  pose proof (rc_method R) as Ep. injection Ep as Em1 _ Es1 _ _ _ _ _.
  assert (E2 : pass w1 = EAP_IDENTITY_Enter false (clear_changed w1)).
  { apply (pass_identity w req w1 R); [done|by rewrite Es1|done]. }
  rewrite (pass_respond (pass w1)), E2.
  2: { rewrite E2, ctl_identity, ctl_clear. apply (rc_local R). }
  2: { rewrite E2, ctl_identity. by right; left. }
  destruct (identity_built w req c ident w1) as (b & Eb & K1 & K2); try done.
  { by rewrite Em1. }
  set (w2 := clear_changed (EAP_IDENTITY_Enter _ _)) in *. clearbody w2.
  destruct (send_response_spec false w2) as (G1 & G2 & G3 & G4 & G5 & _).
  rewrite K1 in *. rewrite K2 in *.
  assert (Hidb : is_byte (hdr_identifier (wpabuf_head req))) by (unfold hdr_identifier; auto with wpa).
  destruct (eap_msg_filled EAP_VENDOR_IETF EAP_TYPE_IDENTITY EAP_CODE_RESPONSE
              (hdr_identifier (wpabuf_head req)) ident b) as (_ & V1 & V2); try done.
  { unfold is_uint, eap_msg_len, sizeof_eap_hdr. cbn. pose proof (zlen_nonneg ident). lia. }
  split_and!; try done; [by apply G3|]. eexists. split; [exact G2|]. split_and!; [|done..].
  unfold wpabuf_put_data, wpabuf_head. rewrite wpabuf_put_buf.
  apply eap_msg_alloc_spec in Eb as (-> & _); [done|apply zlen_nonneg].
Qed.

End Identity.

(** ** Witnesses *)

Definition demo_refused (type : Z) : world unit lower :=
  World (demo_idle <| reqMethod := type |>) (demo_lower [EAPOL_portEnabled] []).

Lemma eap_sm_buildNak_spec_witness :
  exists resp, eap_sm_buildNak (demo_refused 13) 7 = Some resp
    /\ wb_buf resp = [2; 7; 0; 7; 3; 4; 254] /\ wpabuf_ok resp.
Proof.
  eexists. split; [reflexivity|]. split; [reflexivity|].
  refine (proj1 (eap_sm_buildNak_spec (demo_refused 13) 7 _ _ eq_refl)). discriminate.
Defined.

Lemma eap_sm_build_expanded_nak_spec_witness :
  exists resp, eap_sm_build_expanded_nak (demo_refused 254) 7 eap_methods = Some resp
    /\ wpabuf_len resp = 28 /\ wpabuf_ok resp.
Proof.
  eexists. split; [reflexivity|]. split; [reflexivity|].
  exact (proj1 (eap_sm_build_expanded_nak_spec (demo_refused 254) 7 _ eq_refl)).
Defined.

Definition demo_identity_request : world unit lower :=
  World demo_idle (demo_lower [EAPOL_portEnabled; EAPOL_eapReq] [1; 8; 0; 5; 1]).

Lemma identity_request_answered_witness :
  let w' := pass (pass (pass demo_identity_request)) in
  EAP_state (esm w') = EAP_SEND_RESPONSE
  /\ (wb_buf <$> eapRespData (esm w')) = Some [2; 8; 0; 9; 1; 117; 115; 101; 114].
Proof.
  split; [|reflexivity].
  refine (proj1 (identity_request_answered demo_identity_request (Wpabuf 5 [1; 8; 0; 5; 1] false)
            demo_config [117; 115; 101; 114] _ _ _ _ _ _ _ _ _ _ _ _ _ _ _ _));
    try reflexivity; try (by repeat split); repeat constructor; discriminate.
Defined.
