(* ===== verification/EapPeerFrame.v ===== *)
(** * What the EAP peer may do to its lower layer

    A property of the lower layer's state that survives the callbacks the peer
    uses ([LowerStable]) survives every step of the peer.  Through this the
    EAPOL machine's invariants are proved without looking into the peer. *)

From stdpp Require Import strings.
From S2P Require Import Prelude Wpabuf EapCommon EapPeer.

(** The variables the peer assigns to; it never touches portEnabled, altAccept
    and altReject, and only ever clears eapRestart and eapReq. *)
Definition peer_may_set (v : eapol_bool_var) (b : bool) : bool :=
  match v with
  | EAPOL_eapSuccess | EAPOL_eapFail | EAPOL_eapResp | EAPOL_eapNoResp | EAPOL_eapTriggerStart => true
  | EAPOL_eapRestart | EAPOL_eapReq => negb b
  | EAPOL_portEnabled | EAPOL_altAccept | EAPOL_altReject => false
  end.

Class LowerStable {S} `{EapolCallbacks S} (P : S -> Prop) : Prop := {
  stable_set_bool v b s : peer_may_set v b = true -> P s -> P (cb_set_bool v b s);
  stable_set_int v n s : P s -> P (cb_set_int v n s);
  stable_config f s : P s -> P (cb_update_config f s);
  stable_status a b s : P s -> P (cb_notify_status a b s);
  stable_error e s : P s -> P (cb_notify_eap_error e s);
  stable_param f s : P s -> P (cb_eap_param_needed f s)
}.

Section Frame.
Context {priv S : Type} `{EapMethods priv} `{EapolCallbacks S} `{OsAlloc} `{Sha1}.
Abbreviation world := (world priv S).
Context (P : S -> Prop) `{!LowerStable P}.

Lemma low_let (v : world) (b : world -> world) :
  P (eapol v) -> (forall x, P (eapol x) -> P (eapol (b x))) -> P (eapol (b v)).
Proof. auto. Qed.

Lemma low_on_sm f (w : world) : P (eapol w) -> P (eapol (on_sm f w)).
Proof. auto. Qed.
Lemma low_set_int v n (w : world) : P (eapol w) -> P (eapol (eapol_set_int v n w)).
Proof. apply stable_set_int. Qed.
Lemma low_set_bool v b (w : world) :
  peer_may_set v b = true -> P (eapol w) -> P (eapol (eapol_set_bool v b w)).
Proof. apply stable_set_bool. Qed.
Lemma low_status a b (w : world) : P (eapol w) -> P (eapol (eap_notify_status a b w)).
Proof. apply stable_status. Qed.
Lemma low_error e (w : world) : P (eapol w) -> P (eapol (eap_report_error e w)).
Proof. apply stable_error. Qed.
Lemma low_config f (w : world) : P (eapol w) -> P (eapol (on_eapol (cb_update_config f) w)).
Proof. apply stable_config. Qed.
Lemma low_param f (w : world) : P (eapol w) -> P (eapol (on_eapol (cb_eap_param_needed f) w)).
Proof. apply stable_param. Qed.

Lemma low_calls l (w : world) : P (eapol w) -> P (eapol (do_method_calls l w)).
Proof.
  revert w. induction l as [|c l IH]; intros w Hw; [exact Hw|]. apply IH.
  destruct c; [now apply low_config | now apply low_param | now apply low_status].
Qed.

(** Follows the body of a state function. *)
Ltac low_go :=
  lazymatch goal with
  | |- P (eapol (let x := ?v in @?b x)) =>
      lazymatch type of v with
      | EapPeer.world _ _ => apply (low_let v b); [low_go | cbv beta; intros ? ?; low_go]
      | _ => let t := eval cbv beta in (b v) in change (P (eapol t)); low_go
      end
  | |- P (eapol (match ?x with _ => _ end)) => destruct x; low_go
  | |- P (eapol (on_sm _ _)) => apply low_on_sm; low_go
  | |- P (eapol (eapol_set_int _ _ _)) => apply low_set_int; low_go
  | |- P (eapol (eapol_set_bool _ _ _)) => apply low_set_bool; [reflexivity | low_go]
  | |- P (eapol (eap_notify_status _ _ _)) => apply low_status; low_go
  | |- P (eapol (eap_report_error _ _)) => apply low_error; low_go
  | |- P (eapol (on_eapol (cb_update_config _) _)) => apply low_config; low_go
  | |- P (eapol (on_eapol (cb_eap_param_needed _) _)) => apply low_param; low_go
  | |- P (eapol (do_method_calls _ _)) => apply low_calls; low_go
  | |- P (eapol ?x) => is_var x; assumption
  | |- _ => idtac
  end.

Lemma low_parse r (w : world) : P (eapol w) -> P (eapol (eap_sm_parseEapReq r w)).
Proof. intros Hp. unfold eap_sm_parseEapReq, eap_peer_initiate. low_go. Qed.

Lemma low_initialize g (w : world) : P (eapol w) -> P (eapol (EAP_INITIALIZE_Enter g w)).
Proof. intros Hp. unfold EAP_INITIALIZE_Enter. low_go. Qed.

Lemma low_disabled g (w : world) : P (eapol w) -> P (eapol (EAP_DISABLED_Enter g w)).
Proof. intros Hp. unfold EAP_DISABLED_Enter. low_go. Qed.

Lemma low_idle g (w : world) : P (eapol w) -> P (eapol (EAP_IDLE_Enter g w)).
Proof. auto. Qed.

Lemma low_received g (w : world) : P (eapol w) -> P (eapol (EAP_RECEIVED_Enter g w)).
Proof.
  intros Hp. unfold EAP_RECEIVED_Enter. cbv zeta.
  change (P (eapol (eap_sm_parseEapReq (eapol_get_eapReqData (on_sm (sm_entry g EAP_RECEIVED) w))
            (on_sm (sm_entry g EAP_RECEIVED) w)))).
  by apply low_parse.
Qed.

Lemma low_get_method g (w : world) : P (eapol w) -> P (eapol (EAP_GET_METHOD_Enter g w)).
Proof. intros Hp. unfold EAP_GET_METHOD_Enter, get_method_nak. low_go. Qed.

Lemma low_method g (w : world) : P (eapol w) -> P (eapol (EAP_METHOD_Enter g w)).
Proof. intros Hp. unfold EAP_METHOD_Enter. low_go. Qed.

Lemma low_send_response g (w : world) : P (eapol w) -> P (eapol (EAP_SEND_RESPONSE_Enter g w)).
Proof. intros Hp. unfold EAP_SEND_RESPONSE_Enter. low_go. Qed.

Lemma low_discard g (w : world) : P (eapol w) -> P (eapol (EAP_DISCARD_Enter g w)).
Proof. intros Hp. unfold EAP_DISCARD_Enter. low_go. Qed.

Lemma low_build_identity id enc (w : world) : P (eapol w) -> P (eapol (eap_sm_buildIdentity id enc w).2).
Proof.
  intros Hp. unfold eap_sm_buildIdentity, eap_sm_request_identity. cbv zeta.
  repeat (case_match; cbn [snd]); low_go.
Qed.

Lemma low_identity g (w : world) : P (eapol w) -> P (eapol (EAP_IDENTITY_Enter g w)).
Proof.
  intros Hp. unfold EAP_IDENTITY_Enter, eap_sm_processIdentity. cbv zeta.
  destruct (negb _); [low_go|].
  match goal with |- context [eap_sm_buildIdentity ?i ?e ?x] =>
    pose proof (low_build_identity i e x ltac:(low_go)) as E;
    destruct (eap_sm_buildIdentity i e x) as [resp x'] end.
  exact E.
Qed.

Lemma low_notification g (w : world) : P (eapol w) -> P (eapol (EAP_NOTIFICATION_Enter g w)).
Proof. intros Hp. unfold EAP_NOTIFICATION_Enter. low_go. Qed.

Lemma low_retransmit g (w : world) : P (eapol w) -> P (eapol (EAP_RETRANSMIT_Enter g w)).
Proof. auto. Qed.

Lemma low_success g (w : world) : P (eapol w) -> P (eapol (EAP_SUCCESS_Enter g w)).
Proof. intros Hp. unfold EAP_SUCCESS_Enter. low_go. Qed.

Lemma low_failure g (w : world) : P (eapol w) -> P (eapol (EAP_FAILURE_Enter g w)).
Proof. intros Hp. unfold EAP_FAILURE_Enter. low_go. Qed.

Create HintDb low.
#[local] Hint Resolve low_initialize low_disabled low_idle low_received low_get_method low_method
  low_send_response low_discard low_identity low_notification low_retransmit low_success
  low_failure : low.

Lemma low_step (w : world) : P (eapol w) -> P (eapol (EAP_Step w)).
Proof.
  intros Hp. unfold EAP_Step, eap_peer_sm_step_local, eap_peer_sm_step_idle,
    eap_peer_sm_step_received.
  repeat (case_match; try (eauto with low; fail)).
  all: try (apply low_failure; exact Hp).
Qed.

Lemma low_step_loop fuel : forall res (w : world) res' w',
  eap_peer_sm_step_loop fuel res w = Some (res', w') -> P (eapol w) -> P (eapol w').
Proof.
  induction fuel as [|fuel IH]; intros res w res' w' E Hp; [done|].
  cbn [eap_peer_sm_step_loop] in E.
  assert (Hp' : P (eapol (EAP_Step (on_sm (fun sm => sm <| changed := false |>) w))))
    by (by apply low_step).
  destruct (changed _); [eauto|]. by injection E as _ <-.
Qed.

Lemma low_peer_step (w : world) : P (eapol w) -> P (eapol (eap_peer_sm_step w).2).
Proof.
  intros Hp. unfold eap_peer_sm_step.
  destruct (eap_peer_sm_step_loop _ _ _) as [[res w']|] eqn:E; [|done].
  eauto using low_step_loop.
Qed.

Lemma low_abort (w : world) : P (eapol w) -> P (eapol (eap_sm_abort w)).
Proof. intros Hp. unfold eap_sm_abort. low_go. Qed.

Lemma low_lower_layer_success (w : world) : P (eapol w) -> P (eapol (eap_notify_lower_layer_success w)).
Proof. intros Hp. unfold eap_notify_lower_layer_success. low_go. Qed.

End Frame.
