(* ===== verification/EapolSupp.v ===== *)
(** * EAPOL supplicant state machines (src/eapol_supp/eapol_supp_sm.c)

    The Supplicant PAE, Key Receive and Supplicant Backend machines of IEEE
    802.1X-2004, the port timers, and the entry points for received frames and
    external notifications.  struct eapol_sm is [eapol_sm]; together with the
    EAP peer it contains ([sm->eap]) it forms the [world] of EapPeer.v, whose
    lower layer is this file's instance of [EapolCallbacks].

    Calls out of the component (frames sent, port callback, result callback,
    key installation) are appended to [events] in order; answers that come back
    from outside are parameters: the result of confirm_auth_cb() and
    set_wep_key(), whether eloop_register_timeout() succeeds, HMAC-MD5; RC4 is Rc4.v.
    [tick_timeouts] and [step_timeouts] count the registrations of
    eapol_port_timers_tick() and eapol_sm_step_timeout() in the event loop.

    Build options: CONFIG_WEP and CONFIG_WPS on; CONFIG_EAP_PROXY, CONFIG_ERP,
    CONFIG_MACSEC, CONFIG_FIPS, CONFIG_NO_RC4 off.  The callbacks do not
    re-enter the machine. *)

From stdpp Require Import strings.
From S2P Require Import Prelude Rc4 Wpabuf EapCommon EapPeer.

(** ** Data *)

(* eapol_common.h IEEE802_1X_TYPE_EAP_PACKET @41-47 *)
Definition IEEE802_1X_TYPE_EAP_PACKET : Z := 0.
Definition IEEE802_1X_TYPE_EAPOL_START : Z := 1.
Definition IEEE802_1X_TYPE_EAPOL_LOGOFF : Z := 2.
Definition IEEE802_1X_TYPE_EAPOL_KEY : Z := 3.
(* eapol_common.h EAPOL_KEY_TYPE_RC4 @49-50 *)
Definition EAPOL_KEY_TYPE_RC4 : Z := 1.
Definition EAPOL_KEY_TYPE_RSN : Z := 2.
Definition EAPOL_KEY_TYPE_WPA : Z := 254.
Definition sizeof_ieee802_1x_hdr : Z := 4.
(* eapol_common.h struct ieee802_1x_eapol_key *)
Definition sizeof_ieee802_1x_eapol_key : Z := 44.
(* eapol_supp_sm.h #define EAPOL_REQUIRE_KEY_UNICAST *)
Definition EAPOL_REQUIRE_KEY_UNICAST : Z := 1.
Definition EAPOL_REQUIRE_KEY_BROADCAST : Z := 2.
Definition EAPOL_LOCAL_WPS_IN_USE : Z := 1.
Definition EAPOL_PEER_IS_WPS20_AP : Z := 2.

(* eapol_supp_sm.h PortStatus @16-16 *)
Inductive PortStatus := Unauthorized | Authorized.
(* eapol_supp_sm.h PortControl @17-17 *)
Inductive PortControl := Auto | ForceUnauthorized | ForceAuthorized.
(* eapol_supp_sm.c SUPP_PAE_state @58-70 *)
Inductive supp_pae_state :=
| SUPP_PAE_UNKNOWN | SUPP_PAE_DISCONNECTED | SUPP_PAE_LOGOFF | SUPP_PAE_CONNECTING
| SUPP_PAE_AUTHENTICATING | SUPP_PAE_AUTHENTICATED | SUPP_PAE_HELD | SUPP_PAE_RESTART
| SUPP_PAE_S_FORCE_AUTH | SUPP_PAE_S_FORCE_UNAUTH.
(* eapol_supp_sm.c KEY_RX_state @83-86 *)
Inductive key_rx_state := KEY_RX_UNKNOWN | KEY_RX_NO_KEY_RECEIVE | KEY_RX_KEY_RECEIVE.
(* eapol_supp_sm.c SUPP_BE_state @91-101 *)
Inductive supp_be_state :=
| SUPP_BE_UNKNOWN | SUPP_BE_INITIALIZE | SUPP_BE_IDLE | SUPP_BE_REQUEST | SUPP_BE_RECEIVE
| SUPP_BE_RESPONSE | SUPP_BE_FAIL | SUPP_BE_TIMEOUT | SUPP_BE_SUCCESS.
(* eapol_supp_sm.c cb_status @137-138 *)
Inductive eapol_cb_status := EAPOL_CB_IN_PROGRESS | EAPOL_CB_SUCCESS | EAPOL_CB_FAILURE.
(* eapol_supp_sm.h enum eapol_supp_result *)
Inductive eapol_supp_result :=
| EAPOL_SUPP_RESULT_FAILURE | EAPOL_SUPP_RESULT_SUCCESS | EAPOL_SUPP_RESULT_EXPECTED_FAILURE.

#[export] Instance PortStatus_eq_dec : EqDecision PortStatus.
Proof. solve_decision. Defined.
#[export] Instance PortControl_eq_dec : EqDecision PortControl.
Proof. solve_decision. Defined.
#[export] Instance supp_pae_state_eq_dec : EqDecision supp_pae_state.
Proof. solve_decision. Defined.
#[export] Instance key_rx_state_eq_dec : EqDecision key_rx_state.
Proof. solve_decision. Defined.
#[export] Instance supp_be_state_eq_dec : EqDecision supp_be_state.
Proof. solve_decision. Defined.
#[export] Instance eapol_cb_status_eq_dec : EqDecision eapol_cb_status.
Proof. solve_decision. Defined.

(** Calls out of the component, in the order they are made. *)
Inductive event :=
| EvSend (type : Z) (data : bytes)                     (* ctx->eapol_send() *)
| EvPort (authorized : bool)                           (* ctx->port_cb() *)
| EvDone                                               (* ctx->eapol_done_cb() *)
| EvWepKey (unicast : bool) (keyidx : Z) (key : bytes) (* ctx->set_wep_key() *)
| EvAbortedCached                                      (* ctx->aborted_cached() *)
| EvResult (result : eapol_supp_result)                (* ctx->cb() *)
| EvStatus (status param : string)                     (* ctx->status_cb() *)
| EvEapError (code : Z)                                (* ctx->eap_error_cb() *)
| EvParamNeeded (field : wpa_ctrl_req_type).           (* ctx->eap_param_needed() *)

(* eapol_supp_sm.h struct eapol_config *)
Record eapol_config := EapolConfig {
  accept_802_1x_keys : bool;
  required_keys : Z;
  conf_fast_reauth : bool;
  conf_workaround : bool;
  conf_eap_disabled : bool;
  conf_wps : Z
}.
#[export] Instance eta_eapol_config : Eta eapol_config := fun c =>
  EapolConfig (accept_802_1x_keys c) (required_keys c) (conf_fast_reauth c) (conf_workaround c)
    (conf_eap_disabled c) (conf_wps c).

(** The part of struct eapol_ctx the machines read: which callbacks are set. *)
Record eapol_ctx := EapolCtx {
  preauth : bool;
  has_cb : bool;
  has_port_cb : bool;
  has_eapol_done_cb : bool;
  has_confirm_auth_cb : bool;
  has_set_wep_key : bool;
  has_aborted_cached : bool;
  has_status_cb : bool;
  has_eap_error_cb : bool;
  has_eap_param_needed : bool
}.

(* eapol_supp_sm.c struct eapol_sm *)
Record eapol_sm := EapolSm {
  authWhile : Z;
  heldWhile : Z;
  startWhen : Z;
  idleWhile : Z;
  timer_tick_enabled : bool;
  eapFail : bool;
  eapolEap : bool;
  eapSuccess : bool;
  initialize : bool;
  keyDone : bool;
  keyRun : bool;
  portControl : PortControl;
  portEnabled : bool;
  suppPortStatus : PortStatus;
  portValid : bool;
  suppAbort : bool;
  suppFail : bool;
  suppStart : bool;
  suppSuccess : bool;
  suppTimeout : bool;
  SUPP_PAE_state : supp_pae_state;
  userLogoff : bool;
  logoffSent : bool;
  startCount : Z;
  eapRestart : bool;
  sPortMode : PortControl;
  heldPeriod : Z;
  startPeriod : Z;
  maxStart : Z;
  KEY_RX_state : key_rx_state;
  rxKey : bool;
  SUPP_BE_state : supp_be_state;
  eapNoResp : bool;
  eapReq : bool;
  eapResp : bool;
  authPeriod : Z;
  dot1xSuppEapolFramesRx : Z;
  dot1xSuppEapolFramesTx : Z;
  dot1xSuppEapolStartFramesTx : Z;
  dot1xSuppEapolLogoffFramesTx : Z;
  dot1xSuppEapolRespFramesTx : Z;
  dot1xSuppEapolReqIdFramesRx : Z;
  dot1xSuppEapolReqFramesRx : Z;
  dot1xSuppInvalidEapolFramesRx : Z;
  dot1xSuppEapLengthErrorFramesRx : Z;
  dot1xSuppLastEapolFrameVersion : Z;
  dot1xSuppLastEapolFrameSource : bytes;
  s_changed : bool;
  config : option eap_peer_config;
  initial_req : bool;
  last_rx_key : option bytes;
  eapReqData : option wpabuf;
  altAccept : bool;
  altReject : bool;
  eapTriggerStart : bool;
  replay_counter_valid : bool;
  last_replay_counter : bytes;
  conf : eapol_config;
  ctx : eapol_ctx;
  cb_status : eapol_cb_status;
  cached_pmk : bool;
  unicast_key_received : bool;
  broadcast_key_received : bool;
  force_authorized_update : bool;
  tick_timeouts : nat;
  step_timeouts : nat;
  eloop_calls : nat;
  events : list event
}.
#[export] Instance eta_eapol_sm : Eta eapol_sm := fun s =>
  EapolSm (authWhile s) (heldWhile s) (startWhen s) (idleWhile s) (timer_tick_enabled s)
    (eapFail s) (eapolEap s) (eapSuccess s) (initialize s) (keyDone s) (keyRun s) (portControl
    s) (portEnabled s) (suppPortStatus s) (portValid s) (suppAbort s) (suppFail s) (suppStart s)
    (suppSuccess s) (suppTimeout s) (SUPP_PAE_state s) (userLogoff s) (logoffSent s) (startCount
    s) (eapRestart s) (sPortMode s) (heldPeriod s) (startPeriod s) (maxStart s) (KEY_RX_state s)
    (rxKey s) (SUPP_BE_state s) (eapNoResp s) (eapReq s) (eapResp s) (authPeriod s)
    (dot1xSuppEapolFramesRx s) (dot1xSuppEapolFramesTx s) (dot1xSuppEapolStartFramesTx s)
    (dot1xSuppEapolLogoffFramesTx s) (dot1xSuppEapolRespFramesTx s) (dot1xSuppEapolReqIdFramesRx
    s) (dot1xSuppEapolReqFramesRx s) (dot1xSuppInvalidEapolFramesRx s)
    (dot1xSuppEapLengthErrorFramesRx s) (dot1xSuppLastEapolFrameVersion s)
    (dot1xSuppLastEapolFrameSource s) (s_changed s) (config s) (initial_req s) (last_rx_key s)
    (eapReqData s) (altAccept s) (altReject s) (eapTriggerStart s) (replay_counter_valid s)
    (last_replay_counter s) (conf s) (ctx s) (cb_status s) (cached_pmk s) (unicast_key_received
    s) (broadcast_key_received s) (force_authorized_update s) (tick_timeouts s) (step_timeouts
    s) (eloop_calls s) (events s).

(** os_zalloc(sizeof(struct eapol_sm)), with [sm->ctx = ctx]. *)
Definition eapol_sm_zalloc (c : eapol_ctx) : eapol_sm :=
  EapolSm 0 0 0 0 false false false false false false false Auto false Unauthorized false false
    false false false false SUPP_PAE_UNKNOWN false false 0 false Auto 0 0 0 KEY_RX_UNKNOWN false
    SUPP_BE_UNKNOWN false false false 0 0 0 0 0 0 0 0 0 0 0 (replicate 6 0) false None false
    None None false false false false (replicate 16 0) (EapolConfig false 0 false false false 0)
    c EAPOL_CB_IN_PROGRESS false false false false 0%nat 0%nat 0%nat [].

(** ** Environment *)

(** Answers from outside: the n-th call of eloop_register_timeout() succeeds;
    results of the callbacks of struct eapol_ctx that return a value;
    HMAC-MD5 of the crypto library, which can fail ([None]), and what a failing
    call leaves in its output buffer; the contents of an uninitialised 64-byte
    local buffer. *)
Class EapolEnv := {
  eloop_register_ok : nat -> bool;
  confirm_auth_cb : eapol_sm -> bool;
  set_wep_key_fails : eapol_sm -> bool -> Z -> bytes -> bool;
  hmac_md5 : bytes -> bytes -> option bytes;
  hmac_md5_failed : bytes -> bytes -> bytes -> bytes;
  uninitialized : bytes
}.

Section Machine.
Context `{EapolEnv} `{OsAlloc}.

Definition emit (e : event) (sm : eapol_sm) : eapol_sm := sm <| events := events sm ++ [e] |>.
Definition emit_if (b : bool) (e : event) (sm : eapol_sm) : eapol_sm := if b then emit e sm else sm.

(** eloop_register_timeout(1, 0, eapol_port_timers_tick, ...): whether it
    succeeded, and the machine with the registration counted. *)
Definition register_tick (sm : eapol_sm) : bool * eapol_sm :=
  let ok := eloop_register_ok (eloop_calls sm) in
  let sm := sm <| eloop_calls := S (eloop_calls sm) |> in
  (ok, if ok then sm <| tick_timeouts := S (tick_timeouts sm) |> else sm).

Definition register_step (sm : eapol_sm) : eapol_sm :=
  let ok := eloop_register_ok (eloop_calls sm) in
  let sm := sm <| eloop_calls := S (eloop_calls sm) |> in
  if ok then sm <| step_timeouts := S (step_timeouts sm) |> else sm.

(* eapol_supp_sm.c eapol_enable_timer_tick *)
Definition eapol_enable_timer_tick (sm : eapol_sm) : eapol_sm :=
  if timer_tick_enabled sm then sm else
  let sm := sm <| tick_timeouts := 0%nat |> in
  let '(ok, sm) := register_tick sm in
  if ok then sm <| timer_tick_enabled := true |> else sm.

(* eapol_supp_sm.c eapol_sm_confirm_auth *)
Definition eapol_sm_confirm_auth (sm : eapol_sm) : bool :=
  if negb (has_confirm_auth_cb (ctx sm)) then false else confirm_auth_cb sm.

(* eapol_supp_sm.c eapol_sm_txLogoff *)
Definition eapol_sm_txLogoff (sm : eapol_sm) : eapol_sm :=
  sm ▸ emit (EvSend IEEE802_1X_TYPE_EAPOL_LOGOFF [])
    ▸ (fun sm => sm <| dot1xSuppEapolLogoffFramesTx := u32 (dot1xSuppEapolLogoffFramesTx sm + 1) |>)
    ▸ (fun sm => sm <| dot1xSuppEapolFramesTx := u32 (dot1xSuppEapolFramesTx sm + 1) |>).

(* eapol_supp_sm.c eapol_sm_txStart *)
Definition eapol_sm_txStart (sm : eapol_sm) : eapol_sm :=
  sm ▸ emit (EvSend IEEE802_1X_TYPE_EAPOL_START [])
    ▸ (fun sm => sm <| dot1xSuppEapolStartFramesTx := u32 (dot1xSuppEapolStartFramesTx sm + 1) |>)
    ▸ (fun sm => sm <| dot1xSuppEapolFramesTx := u32 (dot1xSuppEapolFramesTx sm + 1) |>).

(* eapol_supp_sm.c eapol_sm_set_port_authorized *)
Definition eapol_sm_set_port_authorized (sm : eapol_sm) : eapol_sm :=
  let cb := bool_decide (suppPortStatus sm <> Authorized) || force_authorized_update sm in
  let sm := sm <| force_authorized_update := false |> <| suppPortStatus := Authorized |> in
  if cb && has_port_cb (ctx sm) then emit (EvPort true) sm else sm.

(* eapol_supp_sm.c eapol_sm_set_port_unauthorized *)
Definition eapol_sm_set_port_unauthorized (sm : eapol_sm) : eapol_sm :=
  let cb := bool_decide (suppPortStatus sm <> Unauthorized) || force_authorized_update sm in
  let sm := sm <| force_authorized_update := false |> <| suppPortStatus := Unauthorized |> in
  if cb && has_port_cb (ctx sm) then emit (EvPort false) sm else sm.

(** ** Supplicant PAE machine *)

(** SM_ENTRY(SUPP_PAE, state) *)
(* state_machine.h #define SM_ENTRY *)
Definition pae_entry (global : bool) (st : supp_pae_state) (sm : eapol_sm) : eapol_sm :=
  let sm := if negb global || bool_decide (SUPP_PAE_state sm <> st)
            then sm <| s_changed := true |> else sm in
  sm <| SUPP_PAE_state := st |>.

(* eapol_supp_sm.c SM_STATE(SUPP_PAE, LOGOFF) *)
Definition SUPP_PAE_LOGOFF_Enter (global : bool) (sm : eapol_sm) : eapol_sm :=
  sm ▸ pae_entry global SUPP_PAE_LOGOFF
    ▸ eapol_sm_txLogoff
    ▸ (fun sm => sm <| logoffSent := true |>)
    ▸ eapol_sm_set_port_unauthorized.

(* eapol_supp_sm.c SM_STATE(SUPP_PAE, DISCONNECTED) *)
Definition SUPP_PAE_DISCONNECTED_Enter (global : bool) (sm : eapol_sm) : eapol_sm :=
  sm ▸ pae_entry global SUPP_PAE_DISCONNECTED
    ▸ (fun sm => sm <| sPortMode := Auto |> <| startCount := 0 |> <| eapTriggerStart := false |>
                    <| logoffSent := false |>)
    ▸ eapol_sm_set_port_unauthorized
    ▸ (fun sm => sm <| suppAbort := true |>
                    <| unicast_key_received := false |> <| broadcast_key_received := false |>
                    <| heldWhile := 0 |>).

(* eapol_supp_sm.c SM_STATE(SUPP_PAE, CONNECTING) *)
Definition SUPP_PAE_CONNECTING_Enter (global : bool) (sm : eapol_sm) : eapol_sm :=
  let send_start := bool_decide (SUPP_PAE_state sm = SUPP_PAE_CONNECTING)
                    || bool_decide (SUPP_PAE_state sm = SUPP_PAE_HELD) in
  let sm := pae_entry global SUPP_PAE_CONNECTING sm in
  let send_start := send_start || eapTriggerStart sm || preauth (ctx sm) in
  let sm := sm <| eapTriggerStart := false |> in
  let sm :=
    if send_start then
      sm <| startWhen := startPeriod sm |> <| startCount := u32 (startCount sm + 1) |>
    else if negb (conf_wps (conf sm) =? 0)
            && (Z.land (conf_wps (conf sm)) EAPOL_PEER_IS_WPS20_AP =? 0)
    then sm <| startWhen := 1 |>
    else sm <| startWhen := 2 |> in
  let sm := eapol_enable_timer_tick sm in
  let sm := sm <| eapolEap := false |> in
  if send_start then eapol_sm_txStart sm else sm.

(* eapol_supp_sm.c SM_STATE(SUPP_PAE, AUTHENTICATING) *)
Definition SUPP_PAE_AUTHENTICATING_Enter (global : bool) (sm : eapol_sm) : eapol_sm :=
  pae_entry global SUPP_PAE_AUTHENTICATING sm
    <| startCount := 0 |> <| suppSuccess := false |> <| suppFail := false |>
    <| suppTimeout := false |> <| keyRun := false |> <| keyDone := false |> <| suppStart := true |>.

(* eapol_supp_sm.c SM_STATE(SUPP_PAE, HELD) *)
Definition SUPP_PAE_HELD_Enter (global : bool) (sm : eapol_sm) : eapol_sm :=
  sm ▸ pae_entry global SUPP_PAE_HELD
    ▸ (fun sm => sm <| heldWhile := heldPeriod sm |>)
    ▸ eapol_enable_timer_tick
    ▸ eapol_sm_set_port_unauthorized
    ▸ (fun sm => sm <| cb_status := EAPOL_CB_FAILURE |>).

(* eapol_supp_sm.c SM_STATE(SUPP_PAE, AUTHENTICATED) *)
Definition SUPP_PAE_AUTHENTICATED_Enter (global : bool) (sm : eapol_sm) : eapol_sm :=
  sm ▸ pae_entry global SUPP_PAE_AUTHENTICATED
    ▸ eapol_sm_set_port_authorized
    ▸ (fun sm => sm <| cb_status := EAPOL_CB_SUCCESS |>).

(* eapol_supp_sm.c SM_STATE(SUPP_PAE, RESTART) *)
Definition SUPP_PAE_RESTART_Enter (global : bool) (sm : eapol_sm) : eapol_sm :=
  if eapol_sm_confirm_auth sm then sm (* already reconnecting *) else
  let sm := pae_entry global SUPP_PAE_RESTART sm <| eapRestart := true |> in
  if altAccept sm then sm <| eapSuccess := false |> <| altAccept := false |> else sm.

(* eapol_supp_sm.c SM_STATE(SUPP_PAE, S_FORCE_AUTH) *)
Definition SUPP_PAE_S_FORCE_AUTH_Enter (global : bool) (sm : eapol_sm) : eapol_sm :=
  sm ▸ pae_entry global SUPP_PAE_S_FORCE_AUTH
    ▸ eapol_sm_set_port_authorized
    ▸ (fun sm => sm <| sPortMode := ForceAuthorized |>).

(* eapol_supp_sm.c SM_STATE(SUPP_PAE, S_FORCE_UNAUTH) *)
Definition SUPP_PAE_S_FORCE_UNAUTH_Enter (global : bool) (sm : eapol_sm) : eapol_sm :=
  sm ▸ pae_entry global SUPP_PAE_S_FORCE_UNAUTH
    ▸ eapol_sm_set_port_unauthorized
    ▸ (fun sm => sm <| sPortMode := ForceUnauthorized |>)
    ▸ eapol_sm_txLogoff.

(** The cases of the switch in SM_STEP(SUPP_PAE). *)
(* eapol_supp_sm.c SM_STEP(SUPP_PAE) @382-449 *)
Definition supp_pae_step_local (sm : eapol_sm) : eapol_sm :=
  match SUPP_PAE_state sm with
  | SUPP_PAE_UNKNOWN => sm
  | SUPP_PAE_LOGOFF => if negb (userLogoff sm) then SUPP_PAE_DISCONNECTED_Enter false sm else sm
  | SUPP_PAE_DISCONNECTED => SUPP_PAE_CONNECTING_Enter false sm
  | SUPP_PAE_CONNECTING =>
      if (startWhen sm =? 0) && (startCount sm <? maxStart sm)
      then SUPP_PAE_CONNECTING_Enter false sm
      else if (startWhen sm =? 0) && (maxStart sm <=? startCount sm) && portValid sm
      then SUPP_PAE_AUTHENTICATED_Enter false sm
      else if eapSuccess sm || eapFail sm then SUPP_PAE_AUTHENTICATING_Enter false sm
      else if eapolEap sm then SUPP_PAE_RESTART_Enter false sm
      else if (startWhen sm =? 0) && (maxStart sm <=? startCount sm) && negb (portValid sm)
      then SUPP_PAE_HELD_Enter false sm
      else sm
  | SUPP_PAE_AUTHENTICATING =>
      let sm :=
        if eapSuccess sm && negb (portValid sm) && accept_802_1x_keys (conf sm)
           && (required_keys (conf sm) =? 0)
        then emit_if (has_eapol_done_cb (ctx sm)) EvDone (sm <| portValid := true |>)
        else sm in
      if eapSuccess sm && portValid sm then SUPP_PAE_AUTHENTICATED_Enter false sm
      else if eapFail sm || (keyDone sm && negb (portValid sm)) then SUPP_PAE_HELD_Enter false sm
      else if suppTimeout sm then SUPP_PAE_CONNECTING_Enter false sm
      else if eapTriggerStart sm then SUPP_PAE_CONNECTING_Enter false sm
      else sm
  | SUPP_PAE_HELD =>
      if heldWhile sm =? 0 then SUPP_PAE_CONNECTING_Enter false sm
      else if eapolEap sm then SUPP_PAE_RESTART_Enter false sm
      else sm
  | SUPP_PAE_AUTHENTICATED =>
      if eapolEap sm && portValid sm then SUPP_PAE_RESTART_Enter false sm
      else if negb (portValid sm) then SUPP_PAE_DISCONNECTED_Enter false sm
      else sm
  | SUPP_PAE_RESTART => if negb (eapRestart sm) then SUPP_PAE_AUTHENTICATING_Enter false sm else sm
  | SUPP_PAE_S_FORCE_AUTH => sm
  | SUPP_PAE_S_FORCE_UNAUTH => sm
  end.

(* eapol_supp_sm.c SM_STEP(SUPP_PAE) *)
Definition SUPP_PAE_Step (sm : eapol_sm) : eapol_sm :=
  let off := initialize sm || negb (portEnabled sm) in
  if (userLogoff sm && negb (logoffSent sm)) && negb off then SUPP_PAE_LOGOFF_Enter true sm
  else if (bool_decide (portControl sm = Auto) && bool_decide (sPortMode sm <> portControl sm))
          || initialize sm || negb (portEnabled sm)
  then SUPP_PAE_DISCONNECTED_Enter true sm
  else if bool_decide (portControl sm = ForceAuthorized)
          && bool_decide (sPortMode sm <> portControl sm) && negb off
  then SUPP_PAE_S_FORCE_AUTH_Enter true sm
  else if bool_decide (portControl sm = ForceUnauthorized)
          && bool_decide (sPortMode sm <> portControl sm) && negb off
  then SUPP_PAE_S_FORCE_UNAUTH_Enter true sm
  else supp_pae_step_local sm.

(** ** The interface to the EAP peer (struct eapol_callbacks) *)

(* eapol_supp_sm.c eapol_sm_get_bool *)
Definition eapol_sm_get_bool (sm : eapol_sm) (variable : eapol_bool_var) : bool :=
  match variable with
  | EAPOL_eapSuccess => eapSuccess sm
  | EAPOL_eapRestart => eapRestart sm
  | EAPOL_eapFail => eapFail sm
  | EAPOL_eapResp => eapResp sm
  | EAPOL_eapNoResp => eapNoResp sm
  | EAPOL_eapReq => eapReq sm
  | EAPOL_portEnabled => portEnabled sm
  | EAPOL_altAccept => altAccept sm
  | EAPOL_altReject => altReject sm
  | EAPOL_eapTriggerStart => eapTriggerStart sm
  end.

(* eapol_supp_sm.c eapol_sm_set_bool *)
Definition eapol_sm_set_bool (variable : eapol_bool_var) (value : bool) (sm : eapol_sm) : eapol_sm :=
  match variable with
  | EAPOL_eapSuccess => sm <| eapSuccess := value |>
  | EAPOL_eapRestart => sm <| eapRestart := value |>
  | EAPOL_eapFail => sm <| eapFail := value |>
  | EAPOL_eapResp => sm <| eapResp := value |>
  | EAPOL_eapNoResp => sm <| eapNoResp := value |>
  | EAPOL_eapReq => sm <| eapReq := value |>
  | EAPOL_portEnabled => sm <| portEnabled := value |>
  | EAPOL_altAccept => sm <| altAccept := value |>
  | EAPOL_altReject => sm <| altReject := value |>
  | EAPOL_eapTriggerStart => sm <| eapTriggerStart := value |>
  end.

(* eapol_supp_sm.c eapol_sm_get_int *)
Definition eapol_sm_get_int (sm : eapol_sm) (variable : eapol_int_var) : Z :=
  match variable with EAPOL_idleWhile => idleWhile sm end.

(* eapol_supp_sm.c eapol_sm_set_int *)
Definition eapol_sm_set_int (variable : eapol_int_var) (value : Z) (sm : eapol_sm) : eapol_sm :=
  match variable with
  | EAPOL_idleWhile =>
      let sm := sm <| idleWhile := u32 value |> in
      if 0 <? idleWhile sm then eapol_enable_timer_tick sm else sm
  end.

(* eapol_supp_sm.c eapol_sm_get_config *)
Definition eapol_sm_get_config (sm : eapol_sm) : option eap_peer_config := config sm.
(* eapol_supp_sm.c eapol_sm_get_eapReqData *)
Definition eapol_sm_get_eapReqData (sm : eapol_sm) : option wpabuf := eapReqData sm.
(* eapol_supp_sm.c eapol_sm_notify_status *)
Definition eapol_sm_notify_status (status parameter : string) (sm : eapol_sm) : eapol_sm :=
  emit_if (has_status_cb (ctx sm)) (EvStatus status parameter) sm.
(* eapol_supp_sm.c eapol_sm_notify_eap_error *)
Definition eapol_sm_notify_eap_error (error_code : Z) (sm : eapol_sm) : eapol_sm :=
  emit_if (has_eap_error_cb (ctx sm)) (EvEapError error_code) sm.
(* eapol_supp_sm.c eapol_sm_eap_param_needed *)
Definition eapol_sm_eap_param_needed (field : wpa_ctrl_req_type) (sm : eapol_sm) : eapol_sm :=
  emit_if (has_eap_param_needed (ctx sm)) (EvParamNeeded field) sm.

(* eapol_supp_sm.c eapol_cb @2078-2099 *)
#[export] Instance eapol_cb : EapolCallbacks eapol_sm := {
  cb_get_config := eapol_sm_get_config;
  cb_update_config f sm := sm <| config := f <$> config sm |>;
  cb_get_bool := eapol_sm_get_bool;
  cb_set_bool := eapol_sm_set_bool;
  cb_get_int := eapol_sm_get_int;
  cb_set_int := eapol_sm_set_int;
  cb_get_eapReqData := eapol_sm_get_eapReqData;
  cb_notify_status := eapol_sm_notify_status;
  cb_notify_eap_error := eapol_sm_notify_eap_error;
  cb_eap_param_needed := eapol_sm_eap_param_needed
}.

(** ** Key reception and the Backend machine *)

(** From here on a state function works on the whole [world]: the EAPOL
    machine and the EAP peer inside it. *)
Context {priv : Type} `{EapMethods priv} `{Sha1}.
Abbreviation world := (world priv eapol_sm).

(** eapol_sm_notify_lower_layer_success(sm, 1) *)
Definition eapol_sm_notify_lower_layer_success_in_sm (w : world) : world :=
  eap_notify_lower_layer_success w.

(** [key] is the caller's buffer; returns the C result and the buffer. *)
(* eapol_supp_sm.c eapol_sm_get_key *)
Definition eapol_sm_get_key (w : world) (key : bytes) (len : Z) : Z * bytes :=
  if negb (eap_key_available w) then (-1, key)
  else match eap_get_eapKeyData w with
       | None => (-1, key)
       | Some eap_key =>
           if zlen eap_key <? len then (zlen eap_key, key)
           else (0, take (Z.to_nat len) eap_key ++ drop (Z.to_nat len) key)
       end.

(* eapol_supp_sm.c eapol_sm_get_session_id *)
Definition eapol_sm_get_session_id (w : world) : option bytes :=
  if negb (eap_key_available w) then None else eap_get_eapSessionId w.

(** *** struct ieee802_1x_eapol_key, at offset 4 of the frame *)
Definition key_key_length (f : bytes) : Z := get_be16 (drop 5 f).
Definition key_replay_counter (f : bytes) : bytes := take 8 (drop 7 f).
Definition key_key_iv (f : bytes) : bytes := take 16 (drop 15 f).
Definition key_key_index (f : bytes) : Z := byte_at f 31.
Definition key_key_signature (f : bytes) : bytes := take 16 (drop 32 f).
(** The frame of [n] bytes with the key_signature field zeroed. *)
Definition key_unsigned (f : bytes) (n : Z) : bytes :=
  take (Z.to_nat n) (take 32 f ++ replicate 16 0 ++ drop 48 f).

(** The installation of a received key: the part of eapol_sm_processKey()
    after the replay counter has been stored. *)
(* eapol_supp_sm.c eapol_sm_processKey @844-868 *)
Definition eapol_sm_install_key (key_index : Z) (datakey : bytes) (w : world) : world :=
  let unicast := negb (Z.land key_index 128 =? 0) in
  let keyidx := Z.land key_index 3 in
  let sm := eapol w in
  let failed := has_set_wep_key (ctx sm) && set_wep_key_fails sm unicast keyidx datakey in
  let w := w ▸ on_eapol (emit_if (has_set_wep_key (ctx sm)) (EvWepKey unicast keyidx datakey)) in
  if failed then w else
  let w := w ▸ on_eapol (fun sm => if unicast then sm <| unicast_key_received := true |>
                                   else sm <| broadcast_key_received := true |>) in
  let sm := eapol w in
  let required := required_keys (conf sm) in
  if (unicast_key_received sm || (Z.land required EAPOL_REQUIRE_KEY_UNICAST =? 0))
     && (broadcast_key_received sm || (Z.land required EAPOL_REQUIRE_KEY_BROADCAST =? 0))
  then w ▸ on_eapol (fun sm => emit_if (has_eapol_done_cb (ctx sm)) EvDone (sm <| portValid := true |>))
  else w.

(** The keys eapol_sm_processKey() takes from the session key: encr_key,
    sign_key and encr_key_len.  [keydata] is the 64-byte struct eap_key_data
    (32 bytes for each key), which starts out uninitialised. *)
(* eapol_supp_sm.c eapol_sm_processKey @734-757 *)
Definition processKey_session_keys (w : world) : option (bytes * bytes * nat) :=
  let '(res, keydata) := eapol_sm_get_key w uninitialized 64 in
  if res <? 0 then None
  else if res =? 16 then
    let '(res, keydata) := eapol_sm_get_key w keydata 16 in
    if negb (res =? 0) then None
    else Some (take 32 keydata, take 16 keydata, 16%nat) (* sign_key = encr_key *)
  else if negb (res =? 0) then None
  else Some (take 32 keydata, drop 32 keydata, 32%nat).

(** What the signature field, which was set to zero, holds after hmac_md5(); the
    result of the call is not looked at. *)
(* eapol_supp_sm.c eapol_sm_processKey @774-779 *)
Definition key_signature_for (sign_key data : bytes) : bytes :=
  match hmac_md5 sign_key data with
  | Some mac => mac
  | None => hmac_md5_failed sign_key data (replicate 16 0)
  end.

(* eapol_supp_sm.c eapol_sm_processKey *)
Definition eapol_sm_processKey (w : world) : world :=
  match last_rx_key (eapol w) with
  | None => w
  | Some f =>
      if negb (accept_802_1x_keys (conf (eapol w))) then w else
      if zlen f <? sizeof_ieee802_1x_hdr + sizeof_ieee802_1x_eapol_key then w else
      let plen := get_be16 (drop 2 f) in
      if (zlen f <? sizeof_ieee802_1x_hdr + plen) || (plen <? sizeof_ieee802_1x_eapol_key) then w else
      let rx_key_length := key_key_length f in
      let w := eapol_sm_notify_lower_layer_success_in_sm w in
      match processKey_session_keys w with
      | None => w
      | Some (encr_key, sign_key, encr_key_len) =>
          let sm := eapol w in
          if replay_counter_valid sm
             && (0 <=? memcmp (take 8 (last_replay_counter sm)) (key_replay_counter f))
          then w else
          let sig := key_signature_for sign_key (key_unsigned f (sizeof_ieee802_1x_hdr + plen)) in
          if negb (bool_decide (key_key_signature f = sig)) then w else
          let key_len := plen - sizeof_ieee802_1x_eapol_key in
          if (32 <? key_len) || (32 <? rx_key_length) then w else
          let datakey :=
            if key_len =? rx_key_length then
              Some (rc4_skip (key_key_iv f ++ take encr_key_len encr_key) 0
                      (take (Z.to_nat key_len) (drop 48 f)))
            else if key_len =? 0 then Some (take (Z.to_nat rx_key_length) encr_key)
            else None in
          match datakey with
          | None => w
          | Some datakey =>
              w ▸ on_eapol (fun sm => sm <| replay_counter_valid := true |>
                              <| last_replay_counter := key_replay_counter f ++ drop 8 (last_replay_counter sm) |>)
                ▸ eapol_sm_install_key (key_key_index f) datakey
          end
      end
  end.

(** SM_ENTRY(KEY_RX, state) and SM_ENTRY(SUPP_BE, state) *)
Definition key_rx_entry (global : bool) (st : key_rx_state) (sm : eapol_sm) : eapol_sm :=
  let sm := if negb global || bool_decide (KEY_RX_state sm <> st)
            then sm <| s_changed := true |> else sm in
  sm <| KEY_RX_state := st |>.

Definition be_entry (global : bool) (st : supp_be_state) (sm : eapol_sm) : eapol_sm :=
  let sm := if negb global || bool_decide (SUPP_BE_state sm <> st)
            then sm <| s_changed := true |> else sm in
  sm <| SUPP_BE_state := st |>.

(* eapol_supp_sm.c SM_STATE(KEY_RX, NO_KEY_RECEIVE) *)
Definition KEY_RX_NO_KEY_RECEIVE_Enter (global : bool) (w : world) : world :=
  w ▸ on_eapol (key_rx_entry global KEY_RX_NO_KEY_RECEIVE).

(* eapol_supp_sm.c SM_STATE(KEY_RX, KEY_RECEIVE) *)
Definition KEY_RX_KEY_RECEIVE_Enter (global : bool) (w : world) : world :=
  w ▸ on_eapol (key_rx_entry global KEY_RX_KEY_RECEIVE)
    ▸ eapol_sm_processKey
    ▸ on_eapol (fun sm => sm <| rxKey := false |>).

(** The switch follows the global transition without an [else]. *)
(* eapol_supp_sm.c SM_STEP(KEY_RX) *)
Definition KEY_RX_Step (w : world) : world :=
  let w := if initialize (eapol w) || negb (portEnabled (eapol w))
           then KEY_RX_NO_KEY_RECEIVE_Enter true w else w in
  match KEY_RX_state (eapol w) with
  | KEY_RX_UNKNOWN => w
  | KEY_RX_NO_KEY_RECEIVE => if rxKey (eapol w) then KEY_RX_KEY_RECEIVE_Enter false w else w
  | KEY_RX_KEY_RECEIVE => if rxKey (eapol w) then KEY_RX_KEY_RECEIVE_Enter false w else w
  end.

(* eapol_supp_sm.c eapol_sm_getSuppRsp *)
Definition eapol_sm_getSuppRsp (w : world) : world := w.

(* eapol_supp_sm.c eapol_sm_txSuppRsp *)
Definition eapol_sm_txSuppRsp (w : world) : world :=
  let '(resp, w) := eap_get_eapRespData w in
  match resp with
  | None => w
  | Some resp =>
      w ▸ on_eapol (emit (EvSend IEEE802_1X_TYPE_EAP_PACKET (wpabuf_head resp)))
        ▸ on_eapol (fun sm =>
            if initial_req sm
            then sm <| dot1xSuppEapolReqIdFramesRx := u32 (dot1xSuppEapolReqIdFramesRx sm + 1) |>
            else sm <| dot1xSuppEapolReqFramesRx := u32 (dot1xSuppEapolReqFramesRx sm + 1) |>)
        ▸ on_eapol (fun sm =>
            sm <| dot1xSuppEapolRespFramesTx := u32 (dot1xSuppEapolRespFramesTx sm + 1) |>
               <| dot1xSuppEapolFramesTx := u32 (dot1xSuppEapolFramesTx sm + 1) |>)
  end.

(* eapol_supp_sm.c eapol_sm_abortSupp *)
Definition eapol_sm_abortSupp (w : world) : world :=
  w ▸ on_eapol (fun sm => sm <| last_rx_key := None |> <| eapReqData := None |>)
    ▸ eap_sm_abort.

(* eapol_supp_sm.c SM_STATE(SUPP_BE, REQUEST) *)
Definition SUPP_BE_REQUEST_Enter (global : bool) (w : world) : world :=
  w ▸ on_eapol (be_entry global SUPP_BE_REQUEST)
    ▸ on_eapol (fun sm => sm <| authWhile := 0 |> <| eapReq := true |>)
    ▸ eapol_sm_getSuppRsp.

(* eapol_supp_sm.c SM_STATE(SUPP_BE, RESPONSE) *)
Definition SUPP_BE_RESPONSE_Enter (global : bool) (w : world) : world :=
  w ▸ on_eapol (be_entry global SUPP_BE_RESPONSE)
    ▸ eapol_sm_txSuppRsp
    ▸ on_eapol (fun sm => sm <| eapResp := false |>).

(* eapol_supp_sm.c SM_STATE(SUPP_BE, SUCCESS) *)
Definition SUPP_BE_SUCCESS_Enter (global : bool) (w : world) : world :=
  let w := w ▸ on_eapol (be_entry global SUPP_BE_SUCCESS)
             ▸ on_eapol (fun sm => sm <| keyRun := true |> <| suppSuccess := true |>) in
  if eap_key_available w then w ▸ on_eapol (fun sm => sm <| replay_counter_valid := false |>) else w.

(* eapol_supp_sm.c SM_STATE(SUPP_BE, FAIL) *)
Definition SUPP_BE_FAIL_Enter (global : bool) (w : world) : world :=
  w ▸ on_eapol (fun sm => be_entry global SUPP_BE_FAIL sm <| suppFail := true |>).

(* eapol_supp_sm.c SM_STATE(SUPP_BE, TIMEOUT) *)
Definition SUPP_BE_TIMEOUT_Enter (global : bool) (w : world) : world :=
  w ▸ on_eapol (fun sm => be_entry global SUPP_BE_TIMEOUT sm <| suppTimeout := true |>).

(* eapol_supp_sm.c SM_STATE(SUPP_BE, IDLE) *)
Definition SUPP_BE_IDLE_Enter (global : bool) (w : world) : world :=
  w ▸ on_eapol (fun sm => be_entry global SUPP_BE_IDLE sm <| suppStart := false |> <| initial_req := true |>).

(* eapol_supp_sm.c SM_STATE(SUPP_BE, INITIALIZE) *)
Definition SUPP_BE_INITIALIZE_Enter (global : bool) (w : world) : world :=
  w ▸ on_eapol (be_entry global SUPP_BE_INITIALIZE)
    ▸ eapol_sm_abortSupp
    ▸ on_eapol (fun sm => sm <| suppAbort := false |> <| authWhile := 0 |>).

(* eapol_supp_sm.c SM_STATE(SUPP_BE, RECEIVE) *)
Definition SUPP_BE_RECEIVE_Enter (global : bool) (w : world) : world :=
  w ▸ on_eapol (fun sm => be_entry global SUPP_BE_RECEIVE sm)
    ▸ on_eapol (fun sm => eapol_enable_timer_tick (sm <| authWhile := authPeriod sm |>)
                            <| eapolEap := false |> <| eapNoResp := false |> <| initial_req := false |>).

(* eapol_supp_sm.c SM_STEP(SUPP_BE) *)
Definition SUPP_BE_Step (w : world) : world :=
  let sm := eapol w in
  if initialize sm || suppAbort sm then SUPP_BE_INITIALIZE_Enter true w
  else match SUPP_BE_state sm with
       | SUPP_BE_UNKNOWN => w
       | SUPP_BE_REQUEST =>
           if eapResp sm then SUPP_BE_RESPONSE_Enter false w
           else if eapNoResp sm then SUPP_BE_RECEIVE_Enter false w
           else if eapFail sm then SUPP_BE_FAIL_Enter false w
           else if eapSuccess sm then SUPP_BE_SUCCESS_Enter false w
           else w
       | SUPP_BE_RESPONSE => SUPP_BE_RECEIVE_Enter false w
       | SUPP_BE_SUCCESS => SUPP_BE_IDLE_Enter false w
       | SUPP_BE_FAIL => SUPP_BE_IDLE_Enter false w
       | SUPP_BE_TIMEOUT => SUPP_BE_IDLE_Enter false w
       | SUPP_BE_IDLE =>
           if eapFail sm && suppStart sm then SUPP_BE_FAIL_Enter false w
           else if eapolEap sm && suppStart sm then SUPP_BE_REQUEST_Enter false w
           else if eapSuccess sm && suppStart sm then SUPP_BE_SUCCESS_Enter false w
           else w
       | SUPP_BE_INITIALIZE => SUPP_BE_IDLE_Enter false w
       | SUPP_BE_RECEIVE =>
           if eapolEap sm then SUPP_BE_REQUEST_Enter false w
           else if eapFail sm then SUPP_BE_FAIL_Enter false w
           else if authWhile sm =? 0 then SUPP_BE_TIMEOUT_Enter false w
           else if eapSuccess sm then SUPP_BE_SUCCESS_Enter false w
           else w
       end.

(** ** The step function *)

(** One iteration of the loop of eapol_sm_step(). *)
(* eapol_supp_sm.c eapol_sm_step @988-1001 *)
Definition eapol_sm_step_pass (w : world) : world :=
  let w := w ▸ on_eapol (fun sm => sm <| s_changed := false |>)
             ▸ on_eapol SUPP_PAE_Step ▸ KEY_RX_Step ▸ SUPP_BE_Step in
  let '(res, w) := eap_peer_sm_step w in
  if res then w ▸ on_eapol (fun sm => sm <| s_changed := true |>) else w.

(** The loop runs at most [n] = 100 iterations; it is the bound of the code. *)
(* eapol_supp_sm.c eapol_sm_step @987-1003 *)
Fixpoint eapol_sm_step_loop (n : nat) (w : world) : world :=
  match n with
  | O => w
  | S n =>
      let w := eapol_sm_step_pass w in
      if negb (s_changed (eapol w)) then w else eapol_sm_step_loop n w
  end.

(* eapol_supp_sm.c eapol_sm_step *)
Definition eapol_sm_step (w : world) : world :=
  let w := eapol_sm_step_loop 100 w in
  let w := if s_changed (eapol w)
           then w ▸ on_eapol (fun sm => register_step (sm <| step_timeouts := 0%nat |>))
           else w in
  let sm := eapol w in
  if has_cb (ctx sm) && negb (bool_decide (cb_status sm = EAPOL_CB_IN_PROGRESS)) then
    let result :=
      if decide (cb_status sm = EAPOL_CB_SUCCESS) then EAPOL_SUPP_RESULT_SUCCESS
      else if eap_peer_was_failure_expected w then EAPOL_SUPP_RESULT_EXPECTED_FAILURE
      else EAPOL_SUPP_RESULT_FAILURE in
    w ▸ on_eapol (fun sm => emit (EvResult result) (sm <| cb_status := EAPOL_CB_IN_PROGRESS |>))
  else w.

(** A step timeout firing consumes its registration. *)
(* eapol_supp_sm.c eapol_sm_step_timeout *)
Definition eapol_sm_step_timeout (w : world) : world :=
  w ▸ on_eapol (fun sm => sm <| step_timeouts := pred (step_timeouts sm) |>) ▸ eapol_sm_step.

Definition count_down (n : Z) : Z := if 0 <? n then n - 1 else n.

(** Counting down and re-arming, before the call of eapol_sm_step(). *)
(* eapol_supp_sm.c eapol_port_timers_tick @167-199 *)
Definition eapol_port_timers_update (sm : eapol_sm) : eapol_sm :=
  let sm := sm <| authWhile := count_down (authWhile sm) |>
               <| heldWhile := count_down (heldWhile sm) |>
               <| startWhen := count_down (startWhen sm) |>
               <| idleWhile := count_down (idleWhile sm) |> in
  if negb (Z.lor (Z.lor (Z.lor (authWhile sm) (heldWhile sm)) (startWhen sm)) (idleWhile sm) =? 0)
  then let '(ok, sm) := register_tick sm in
       if ok then sm else sm <| timer_tick_enabled := false |>
  else sm <| timer_tick_enabled := false |>.

(** The event loop has removed the registration that fired. *)
(* eapol_supp_sm.c eapol_port_timers_tick *)
Definition eapol_port_timers_tick (w : world) : world :=
  w ▸ on_eapol (fun sm => sm <| tick_timeouts := pred (tick_timeouts sm) |>)
    ▸ on_eapol eapol_port_timers_update
    ▸ eapol_sm_step.

(** ** Entry points *)

(* eapol_supp_sm.c eapol_sm_configure *)
Definition eapol_sm_configure (held auth start max : Z) : world -> world :=
  on_eapol (fun sm =>
    let sm := if 0 <=? held then sm <| heldPeriod := held |> else sm in
    let sm := if 0 <=? auth then sm <| authPeriod := auth |> else sm in
    let sm := if 0 <=? start then sm <| startPeriod := start |> else sm in
    if 0 <=? max then sm <| maxStart := max |> else sm).

(* eapol_supp_sm.c eapol_sm_abort_cached *)
Definition eapol_sm_abort_cached (sm : eapol_sm) : eapol_sm :=
  sm ▸ (fun sm => sm <| cached_pmk := false |> <| SUPP_PAE_state := SUPP_PAE_CONNECTING |>)
    ▸ eapol_sm_set_port_unauthorized
    ▸ (fun sm => sm <| startWhen := 3 |>)
    ▸ eapol_enable_timer_tick
    ▸ (fun sm => emit_if (has_aborted_cached (ctx sm)) EvAbortedCached sm).

(** The EAP-WPS workaround for a too short EAPOL header. *)
(* eapol_supp_sm.c eapol_sm_rx_eapol @1314-1338 *)
Definition eapol_fix_plen (sm : eapol_sm) (buf : bytes) (plen : Z) : Z :=
  let len := zlen buf in
  if negb (conf_wps (conf sm) =? 0) && conf_workaround (conf sm)
     && (plen <? len - sizeof_ieee802_1x_hdr)
     && (byte_at buf 1 =? IEEE802_1X_TYPE_EAP_PACKET)
     && (sizeof_eap_hdr <? len - sizeof_ieee802_1x_hdr)
  then let elen := get_be16 (drop 6 buf) in
       if (plen <? elen) && (elen <=? len - sizeof_ieee802_1x_hdr) then elen else plen
  else plen.

(** Returns 1 (processed) or 0 (not for this machine) and the new world. *)
(* eapol_supp_sm.c eapol_sm_rx_eapol *)
Definition eapol_sm_rx_eapol (src buf : bytes) (w : world) : Z * world :=
  let len := zlen buf in
  let w := w ▸ on_eapol (fun sm => sm <| dot1xSuppEapolFramesRx := u32 (dot1xSuppEapolFramesRx sm + 1) |>) in
  let invalid := on_eapol (fun sm =>
    sm <| dot1xSuppInvalidEapolFramesRx := u32 (dot1xSuppInvalidEapolFramesRx sm + 1) |>) in
  if len <? sizeof_ieee802_1x_hdr then (0, invalid w) else
  let w := w ▸ on_eapol (fun sm => sm <| dot1xSuppLastEapolFrameVersion := byte_at buf 0 |>
                                      <| dot1xSuppLastEapolFrameSource := src |>) in
  let type := byte_at buf 1 in
  let plen := get_be16 (drop 2 buf) in
  if len - sizeof_ieee802_1x_hdr <? plen then
    (0, w ▸ on_eapol (fun sm =>
          sm <| dot1xSuppEapLengthErrorFramesRx := u32 (dot1xSuppEapLengthErrorFramesRx sm + 1) |>))
  else
  let plen := eapol_fix_plen (eapol w) buf plen in
  let data_len := plen + sizeof_ieee802_1x_hdr in
  if type =? IEEE802_1X_TYPE_EAP_PACKET then
    if conf_workaround (conf (eapol w)) && (sizeof_eap_hdr <=? plen) && (byte_at buf 4 =? 10)
    then (1, w) (* EAP packet with unknown code 10 *)
    else
      let w := w ▸ on_eapol (fun sm => if cached_pmk sm then eapol_sm_abort_cached sm else sm) in
      let data := wpabuf_alloc_copy (take (Z.to_nat plen) (drop 4 buf)) in
      let w := w ▸ on_eapol (fun sm => sm <| eapReqData := data |>) in
      if bool_decide (data = None) then (1, w)
      else (1, w ▸ on_eapol (fun sm => sm <| eapolEap := true |>) ▸ eapol_sm_step)
  else if type =? IEEE802_1X_TYPE_EAPOL_KEY then
    if plen <? sizeof_ieee802_1x_eapol_key then (1, w) else
    let key_type := byte_at buf 4 in
    if (key_type =? EAPOL_KEY_TYPE_WPA) || (key_type =? EAPOL_KEY_TYPE_RSN) then (0, w)
    else if negb (key_type =? EAPOL_KEY_TYPE_RC4) then (1, w)
    else if malloc_ok data_len then
      (1, w ▸ on_eapol (fun sm => sm <| last_rx_key := Some (take (Z.to_nat data_len) buf) |>
                                     <| rxKey := true |>) ▸ eapol_sm_step)
    else (1, w ▸ on_eapol (fun sm => sm <| last_rx_key := None |>))
  else (1, invalid w).

(* eapol_supp_sm.c eapol_sm_notify_tx_eapol_key *)
Definition eapol_sm_notify_tx_eapol_key : world -> world :=
  on_eapol (fun sm => sm <| dot1xSuppEapolFramesTx := u32 (dot1xSuppEapolFramesTx sm + 1) |>).

(* eapol_supp_sm.c eapol_sm_notify_portEnabled *)
Definition eapol_sm_notify_portEnabled (enabled : bool) (w : world) : world :=
  w ▸ on_eapol (fun sm => if bool_decide (portEnabled sm <> enabled)
                          then sm <| force_authorized_update := true |> else sm)
    ▸ on_eapol (fun sm => sm <| portEnabled := enabled |>)
    ▸ eapol_sm_step.

(* eapol_supp_sm.c eapol_sm_notify_portValid *)
Definition eapol_sm_notify_portValid (valid : bool) (w : world) : world :=
  w ▸ on_eapol (fun sm => sm <| portValid := valid |>) ▸ eapol_sm_step.

(* eapol_supp_sm.c eapol_sm_notify_eap_success *)
Definition eapol_sm_notify_eap_success (success : bool) (w : world) : world :=
  w ▸ on_eapol (fun sm => sm <| eapSuccess := success |> <| altAccept := success |>)
    ▸ (if success then eap_notify_success else id)
    ▸ eapol_sm_step.

(* eapol_supp_sm.c eapol_sm_notify_eap_fail *)
Definition eapol_sm_notify_eap_fail (fail : bool) (w : world) : world :=
  w ▸ on_eapol (fun sm => sm <| eapFail := fail |> <| altReject := fail |>) ▸ eapol_sm_step.

(** eap_disabled is passed on to the EAP peer but not stored in [conf]. *)
(* eapol_supp_sm.c eapol_sm_notify_config *)
Definition eapol_sm_notify_config (cfg : option eap_peer_config) (c : option eapol_config)
    (w : world) : world :=
  let w := w ▸ on_eapol (fun sm => sm <| config := cfg |>) in
  match c with
  | None => w
  | Some c =>
      w ▸ on_eapol (fun sm => sm <| conf := c <| conf_eap_disabled := conf_eap_disabled (conf sm) |> |>)
        ▸ eap_set_fast_reauth (conf_fast_reauth c)
        ▸ eap_set_workaround (conf_workaround c)
        ▸ eap_set_force_disabled (conf_eap_disabled c)
  end.

(* eapol_supp_sm.c eapol_sm_notify_logoff *)
Definition eapol_sm_notify_logoff (logoff : bool) (w : world) : world :=
  w ▸ on_eapol (fun sm => sm <| userLogoff := logoff |>)
    ▸ on_eapol (fun sm => if negb logoff then sm <| startWhen := 0 |> else sm)
    ▸ eapol_sm_step.

(* eapol_supp_sm.c eapol_sm_notify_cached *)
Definition eapol_sm_notify_cached (w : world) : world :=
  w ▸ on_eapol (fun sm => sm <| eapSuccess := true |>) ▸ eap_notify_success ▸ eapol_sm_step.

(* eapol_supp_sm.c eapol_sm_notify_pmkid_attempt *)
Definition eapol_sm_notify_pmkid_attempt : world -> world :=
  on_eapol (fun sm => sm <| cached_pmk := true |>).

(* eapol_supp_sm.c eapol_sm_notify_portControl *)
Definition eapol_sm_notify_portControl (pc : PortControl) (w : world) : world :=
  w ▸ on_eapol (fun sm => sm <| portControl := pc |>) ▸ eapol_sm_step.

(* eapol_supp_sm.c eapol_sm_notify_ctrl_response *)
Definition eapol_sm_notify_ctrl_response (w : world) : world :=
  if bool_decide (eapReqData (eapol w) <> None) && negb (eapReq (eapol w)) then
    w ▸ on_eapol (fun sm => sm <| eapolEap := true |> <| eapReq := true |>) ▸ eapol_sm_step
  else w.

(* eapol_supp_sm.c eapol_sm_notify_pending *)
Definition eapol_sm_notify_pending (w : world) : world :=
  if bool_decide (eapReqData (eapol w) <> None) && negb (eapReq (eapol w)) then
    w ▸ on_eapol (fun sm => sm <| eapolEap := true |> <| eapReq := true |>) ▸ eapol_sm_step
  else w.

(* eapol_supp_sm.c eapol_sm_request_reauth *)
Definition eapol_sm_request_reauth (w : world) : world :=
  if bool_decide (SUPP_PAE_state (eapol w) <> SUPP_PAE_AUTHENTICATED) then w
  else w ▸ on_eapol eapol_sm_txStart.

(* eapol_supp_sm.c eapol_sm_notify_lower_layer_success *)
Definition eapol_sm_notify_lower_layer_success (in_eapol_sm : bool) (w : world) : world :=
  let w := eap_notify_lower_layer_success w in
  if negb in_eapol_sm then eapol_sm_step w else w.

(* eapol_supp_sm.c eapol_sm_invalidate_cached_session *)
Definition eapol_sm_invalidate_cached_session : world -> world := eap_invalidate_cached_session.

(* eapol_supp_sm.c eapol_sm_failed *)
Definition eapol_sm_failed (w : world) : bool := negb (eapSuccess (eapol w)) && eapFail (eapol w).

(** [tls_ok]: as for eap_peer_sm_init(). *)
(* eapol_supp_sm.c eapol_sm_init *)
Definition eapol_sm_init (c : eapol_ctx) (tls_ok : bool) : option world :=
  let sm := eapol_sm_zalloc c <| portControl := Auto |> <| heldPeriod := 60 |>
              <| startPeriod := 30 |> <| maxStart := 3 |> <| authPeriod := 30 |> in
  let? eap := eap_peer_sm_init tls_ok in
  let w := World eap (sm <| force_authorized_update := true |> <| initialize := true |>) in
  let w := eapol_sm_step w in
  let w := eapol_sm_step (on_eapol (fun sm => sm <| initialize := false |>) w) in
  Some (w ▸ on_eapol (fun sm => let '(ok, sm) := register_tick sm in
                                if ok then sm <| timer_tick_enabled := true |> else sm)).

End Machine.
