(* ===== verification/EapolDemo.v ===== *)
(** * A concrete environment for the EAPOL supplicant machines

    Timeouts can always be registered, every callback succeeds, the digest is
    a stand-in.  The witnesses run the machines in it. *)

From stdpp Require Import strings.
From S2P Require Import Prelude Wpabuf EapCommon EapPeer EapPeerDemo EapolSupp.

(** Timeouts can always be registered, the callbacks succeed, the signature is
    constantly zero; [u] is the uninitialised buffer. *)
Definition demo_env (u : bytes) : EapolEnv := {|
  eloop_register_ok _ := true;
  confirm_auth_cb _ := false;
  set_wep_key_fails _ _ _ _ := false;
  hmac_md5 _ _ := Some (replicate 16 0);
  hmac_md5_failed _ _ buf := buf;
  uninitialized := u
|}.

Definition demo_ctx : eapol_ctx :=
  EapolCtx false true true true true true true true true true.

Definition demo_conf : eapol_config := EapolConfig true 0 false false false 0.

#[export] Instance demo_eapol_env : EapolEnv := demo_env (replicate 64 0).

(** A machine just created by eapol_sm_init(). *)
Definition demo_boot : world unit eapol_sm :=
  match eapol_sm_init demo_ctx true with
  | Some w => w
  | None => World demo_idle (eapol_sm_zalloc demo_ctx)
  end.

Lemma demo_boot_init : eapol_sm_init demo_ctx true = Some demo_boot.
Proof. reflexivity. Qed.
