(* ===== verification/EapolProps.v ===== *)
(** * Properties of the EAPOL supplicant machines

    The machine is a correct lower layer for the EAP peer; the port status
    follows the state of the Supplicant PAE on every reachable state; no timer is
    forgotten; disabling the port always blocks it; received frames are checked
    before they are used; keys are installed only from authentic, fresh frames. *)

From stdpp Require Import strings.
From S2P Require Import Prelude Wpabuf EapCommon EapPeer EapPeerFrame EapPeerDemo EapolSupp EapolDemo.

(** ** The machine implements the interface of the EAP peer *)

Section Lower.
Context `{EapolEnv}.

(** Arming the tick touches only the timer bookkeeping. *)
Lemma enable_tick_get_bool sm v : eapol_sm_get_bool (eapol_enable_timer_tick sm) v = eapol_sm_get_bool sm v.
Proof. unfold eapol_enable_timer_tick, register_tick. by repeat case_match; destruct v. Qed.

#[export] Instance eapol_cb_laws : EapolCallbacksLaws eapol_sm.
Proof.
  constructor.
  - intros s v b v'. by destruct v, v'.
  - intros s [] n v'. cbn. case_match; [rewrite enable_tick_get_bool|]; by destruct v'.
  - intros s [] n Hn. cbn. unfold eapol_enable_timer_tick, register_tick.
    repeat case_match; by apply wrap_small.
  - intros s v b []. by destruct v.
  - intros s f v. by destruct v.
  - intros s a b v. cbn. unfold eapol_sm_notify_status, emit_if. by case_match; destruct v.
  - intros s e v. cbn. unfold eapol_sm_notify_eap_error, emit_if. by case_match; destruct v.
  - intros s e v. cbn. unfold eapol_sm_eap_param_needed, emit_if. by case_match; destruct v.
  - intros s a b. cbn. unfold eapol_sm_notify_status, emit_if. by case_match.
Qed.

End Lower.

(** ** Operations and reachable states *)

Section Reachable.
Context {priv : Type} `{EM : EapMethods priv} `{EE : EapolEnv} `{OA : OsAlloc} `{SH : Sha1}.
Abbreviation world := (world priv eapol_sm).

(** The entry points of the component. *)
Inductive op :=
| OpRx (src buf : bytes)
| OpTick
| OpStepTimeout
| OpPortEnabled (b : bool)
| OpPortValid (b : bool)
| OpEapSuccess (b : bool)
| OpEapFail (b : bool)
| OpConfig (cfg : option eap_peer_config) (c : option eapol_config)
| OpConfigure (held auth start max : Z)
| OpLogoff (b : bool)
| OpCached
| OpPmkidAttempt
| OpPortControl (pc : PortControl)
| OpCtrlResponse
| OpPending
| OpRequestReauth
| OpLowerLayerSuccess
| OpInvalidate
| OpTxEapolKey.

Definition run_op (o : op) (w : world) : world :=
  match o with
  | OpRx src buf => (eapol_sm_rx_eapol src buf w).2
  | OpTick => eapol_port_timers_tick w
  | OpStepTimeout => eapol_sm_step_timeout w
  | OpPortEnabled b => eapol_sm_notify_portEnabled b w
  | OpPortValid b => eapol_sm_notify_portValid b w
  | OpEapSuccess b => eapol_sm_notify_eap_success b w
  | OpEapFail b => eapol_sm_notify_eap_fail b w
  | OpConfig cfg c => eapol_sm_notify_config cfg c w
  | OpConfigure held auth start max => eapol_sm_configure held auth start max w
  | OpLogoff b => eapol_sm_notify_logoff b w
  | OpCached => eapol_sm_notify_cached w
  | OpPmkidAttempt => eapol_sm_notify_pmkid_attempt w
  | OpPortControl pc => eapol_sm_notify_portControl pc w
  | OpCtrlResponse => eapol_sm_notify_ctrl_response w
  | OpPending => eapol_sm_notify_pending w
  | OpRequestReauth => eapol_sm_request_reauth w
  | OpLowerLayerSuccess => eapol_sm_notify_lower_layer_success false w
  | OpInvalidate => eapol_sm_invalidate_cached_session w
  | OpTxEapolKey => eapol_sm_notify_tx_eapol_key w
  end.

(** The event loop runs a timeout handler only while one is registered. *)
Definition op_enabled (o : op) (w : world) : Prop :=
  match o with
  | OpTick => (0 < tick_timeouts (eapol w))%nat
  | OpStepTimeout => (0 < step_timeouts (eapol w))%nat
  | _ => True
  end.

Inductive reachable : world -> Prop :=
| reach_init c tls w : eapol_sm_init c tls = Some w -> reachable w
| reach_op o w : reachable w -> op_enabled o w -> reachable (run_op o w).

(** *** Invariants

    [StepInv P]: [P] survives the pieces eapol_sm_step() is made of; what the
    EAP peer does is covered by [LowerStable]. *)
Class StepInv (P : eapol_sm -> Prop) : Prop := {
  si_lower :: LowerStable P;
  si_changed sm b : P sm -> P (sm <| s_changed := b |>);
  si_pae sm : P sm -> P (SUPP_PAE_Step sm);
  si_key (w : world) : P (eapol w) -> P (eapol (KEY_RX_Step w));
  si_be (w : world) : P (eapol w) -> P (eapol (SUPP_BE_Step w));
  si_register sm : P sm -> P (register_step (sm <| step_timeouts := 0%nat |>));
  si_result sm r : P sm -> P (emit (EvResult r) (sm <| cb_status := EAPOL_CB_IN_PROGRESS |>))
}.

Section StepInv.
Context (P : eapol_sm -> Prop) `{!StepInv P}.

Lemma inv_step_pass (w : world) : P (eapol w) -> P (eapol (eapol_sm_step_pass w)).
Proof.
  intros Hp. unfold eapol_sm_step_pass. cbv zeta.
  set (w1 := SUPP_BE_Step _).
  assert (H1 : P (eapol w1)).
  { apply si_be, si_key. change (P (SUPP_PAE_Step (eapol w <| s_changed := false |>))).
    by apply si_pae, si_changed. }
  pose proof (low_peer_step P w1 H1) as H5. destruct (eap_peer_sm_step w1) as [res w2]. cbn in H5.
  destruct res; [|done]. change (P (eapol w2 <| s_changed := true |>)). by apply si_changed.
Qed.

Lemma inv_step_loop n : forall w : world, P (eapol w) -> P (eapol (eapol_sm_step_loop n w)).
Proof.
  induction n as [|n IH]; intros w Hp; [done|]. cbn [eapol_sm_step_loop].
  case_match; auto using inv_step_pass.
Qed.

Lemma inv_step (w : world) : P (eapol w) -> P (eapol (eapol_sm_step w)).
Proof.
  intros Hp. unfold eapol_sm_step. cbv zeta.
  set (w1 := if s_changed _ then _ else _).
  assert (H1 : P (eapol w1)).
  { unfold w1. pose proof (inv_step_loop 100 w Hp). case_match; [|done]. by apply si_register. }
  clearbody w1. case_match; [|done]. by apply si_result.
Qed.

End StepInv.

(** *** Properties of the port and the Supplicant PAE state

    The Key Receive and Backend machines, like the EAP peer, assign to none of
    the three fields below, so they preserve whatever depends on these only. *)
Definition pae_quiet (f : eapol_sm -> eapol_sm) : Prop := forall sm,
  SUPP_PAE_state (f sm) = SUPP_PAE_state sm /\ suppPortStatus (f sm) = suppPortStatus sm
  /\ portEnabled (f sm) = portEnabled sm.

Class PaeOnly (P : eapol_sm -> Prop) : Prop :=
  pae_only : forall f sm, pae_quiet f -> P sm -> P (f sm).

Lemma enable_tick_quiet : pae_quiet eapol_enable_timer_tick.
Proof. intros sm. unfold eapol_enable_timer_tick, register_tick. by repeat case_match. Qed.

Ltac pae_quiet :=
  intros ?; cbv beta; try unfold be_entry; try unfold key_rx_entry; try unfold emit_if;
  try unfold register_step; try unfold register_tick; repeat case_match; repeat split; reflexivity.

Section PaeOnly.
Context (P : eapol_sm -> Prop) `{!PaeOnly P}.

Lemma pae_on f (w : world) : pae_quiet f -> P (eapol w) -> P (eapol (on_eapol f w)).
Proof. apply pae_only. Qed.

(** Peels assignments to other fields off the goal. *)
Ltac pae_peel := repeat (apply pae_on; [solve [pae_quiet]|]).

#[export] Instance pae_only_lower : LowerStable P.
Proof.
  constructor.
  - intros v b s Hv Hp. cbn. apply (pae_only (fun s => eapol_sm_set_bool v b s)); [|done].
    intros sm. destruct v; done.
  - intros [] n s Hp. cbn.
    assert (Hi : P (s <| idleWhile := u32 n |>)).
    { apply (pae_only (fun s => s <| idleWhile := u32 n |>)); [done|done]. }
    case_match; [|exact Hi]. apply pae_only; [apply enable_tick_quiet|exact Hi].
  - intros f s Hp. apply (pae_only (fun s => s <| config := f <$> config s |>)); done.
  - intros a b s Hp. apply (pae_only (eapol_sm_notify_status a b)); [|done].
    unfold eapol_sm_notify_status. pae_quiet.
  - intros e s Hp. apply (pae_only (eapol_sm_notify_eap_error e)); [|done].
    unfold eapol_sm_notify_eap_error. pae_quiet.
  - intros f s Hp. apply (pae_only (eapol_sm_eap_param_needed f)); [|done].
    unfold eapol_sm_eap_param_needed. pae_quiet.
Qed.

Lemma pae_install i k (w : world) :
  P (eapol w) -> P (eapol (eapol_sm_install_key i k w)).
Proof.
  intros Hp. unfold eapol_sm_install_key. cbv zeta.
  repeat match goal with |- P (eapol (if ?b then _ else _)) => destruct b end;
    pae_peel; exact Hp.
Qed.

Lemma pae_process_key (w : world) :
  P (eapol w) -> P (eapol (eapol_sm_processKey w)).
Proof.
  intros Hp. unfold eapol_sm_processKey. cbv zeta.
  assert (H : P (eapol (eapol_sm_notify_lower_layer_success_in_sm w)))
    by (by apply (low_lower_layer_success P)).
  repeat (case_match; try done); apply pae_install; pae_peel; exact H.
Qed.

Lemma pae_key (w : world) : P (eapol w) -> P (eapol (KEY_RX_Step w)).
Proof.
  intros Hp. unfold KEY_RX_Step, KEY_RX_NO_KEY_RECEIVE_Enter, KEY_RX_KEY_RECEIVE_Enter. cbv zeta.
  set (w1 := if _ : bool then _ else w).
  assert (H1 : P (eapol w1)) by (unfold w1; case_match; pae_peel; exact Hp).
  clearbody w1. repeat case_match; try exact H1; pae_peel; apply pae_process_key; pae_peel;
    exact H1.
Qed.

Lemma pae_be (w : world) : P (eapol w) -> P (eapol (SUPP_BE_Step w)).
Proof.
  intros Hp. unfold SUPP_BE_Step, SUPP_BE_REQUEST_Enter, SUPP_BE_FAIL_Enter, SUPP_BE_TIMEOUT_Enter,
    SUPP_BE_IDLE_Enter, SUPP_BE_SUCCESS_Enter, SUPP_BE_INITIALIZE_Enter, eapol_sm_abortSupp,
    SUPP_BE_RESPONSE_Enter, SUPP_BE_RECEIVE_Enter, eapol_sm_txSuppRsp, eap_get_eapRespData,
    eapol_sm_getSuppRsp.
  assert (Ht : P (eapol (on_eapol (fun sm => eapol_enable_timer_tick (sm <| authWhile := authPeriod sm |>)
     <| eapolEap := false |> <| eapNoResp := false |> <| initial_req := false |>)
     (on_eapol (fun sm => be_entry false SUPP_BE_RECEIVE sm) w)))).
  { apply pae_on; [|pae_peel; exact Hp]. intros sm.
    exact (enable_tick_quiet (sm <| authWhile := authPeriod sm |>)). }
  cbv zeta. repeat case_match; try exact Hp; try exact Ht; pae_peel; try exact Hp.
Qed.

End PaeOnly.

(** ** The controlled port *)

(** Port status dictated by the state of the Supplicant PAE; in the states of
    a (re)authentication in progress the port keeps its status. *)
Definition port_inv (sm : eapol_sm) : Prop :=
  match SUPP_PAE_state sm with
  | SUPP_PAE_UNKNOWN | SUPP_PAE_DISCONNECTED | SUPP_PAE_LOGOFF | SUPP_PAE_HELD
  | SUPP_PAE_S_FORCE_UNAUTH => suppPortStatus sm = Unauthorized
  | SUPP_PAE_AUTHENTICATED | SUPP_PAE_S_FORCE_AUTH => suppPortStatus sm = Authorized
  | SUPP_PAE_CONNECTING | SUPP_PAE_AUTHENTICATING | SUPP_PAE_RESTART => True
  end.

#[local] Instance port_inv_pae_only : PaeOnly port_inv.
Proof. intros f sm Hf. destruct (Hf sm) as (E1 & E2 & _). unfold port_inv. by rewrite E1, E2. Qed.

Lemma port_inv_tick sm : port_inv sm -> port_inv (eapol_enable_timer_tick sm).
Proof. apply (pae_only (P := port_inv)). apply enable_tick_quiet. Qed.

Lemma port_inv_emit b e sm : port_inv sm -> port_inv (emit_if b e sm).
Proof. by destruct b. Qed.

Lemma port_inv_set sm st :
  port_inv (eapol_sm_set_port_unauthorized (sm <| SUPP_PAE_state := st |>))
  \/ st = SUPP_PAE_AUTHENTICATED \/ st = SUPP_PAE_S_FORCE_AUTH.
Proof. destruct st; auto; left; unfold eapol_sm_set_port_unauthorized; by case_match. Qed.

(** Every state entry establishes the invariant for its own state. *)
Ltac port_enter :=
  unfold SUPP_PAE_LOGOFF_Enter, SUPP_PAE_DISCONNECTED_Enter, SUPP_PAE_HELD_Enter,
    SUPP_PAE_AUTHENTICATED_Enter, SUPP_PAE_S_FORCE_AUTH_Enter, SUPP_PAE_S_FORCE_UNAUTH_Enter,
    SUPP_PAE_AUTHENTICATING_Enter, eapol_sm_txLogoff, eapol_sm_set_port_unauthorized,
    eapol_sm_set_port_authorized, eapol_enable_timer_tick, register_tick, pae_entry;
  repeat case_match; reflexivity || exact I.

Lemma port_inv_logoff g sm : port_inv (SUPP_PAE_LOGOFF_Enter g sm).
Proof. port_enter. Qed.
Lemma port_inv_disconnected g sm : port_inv (SUPP_PAE_DISCONNECTED_Enter g sm).
Proof. port_enter. Qed.
Lemma port_inv_held g sm : port_inv (SUPP_PAE_HELD_Enter g sm).
Proof. port_enter. Qed.
Lemma port_inv_authenticated g sm : port_inv (SUPP_PAE_AUTHENTICATED_Enter g sm).
Proof. port_enter. Qed.
Lemma port_inv_authenticating g sm : port_inv (SUPP_PAE_AUTHENTICATING_Enter g sm).
Proof. port_enter. Qed.
Lemma port_inv_force_auth g sm : port_inv (SUPP_PAE_S_FORCE_AUTH_Enter g sm).
Proof. port_enter. Qed.
Lemma port_inv_force_unauth g sm : port_inv (SUPP_PAE_S_FORCE_UNAUTH_Enter g sm).
Proof. port_enter. Qed.
Lemma port_inv_restart g sm : port_inv sm -> port_inv (SUPP_PAE_RESTART_Enter g sm).
Proof. intros Hp. unfold SUPP_PAE_RESTART_Enter, pae_entry. repeat case_match; exact Hp || exact I. Qed.
Lemma port_inv_connecting g sm : port_inv (SUPP_PAE_CONNECTING_Enter g sm).
Proof.
  unfold SUPP_PAE_CONNECTING_Enter. cbv zeta.
  match goal with |- context [eapol_enable_timer_tick ?x] => set (sm1 := x) end.
  assert (E : SUPP_PAE_state sm1 = SUPP_PAE_CONNECTING)
    by (unfold sm1, pae_entry; repeat case_match; reflexivity).
  assert (Hi : port_inv (eapol_enable_timer_tick sm1))
    by (apply port_inv_tick; unfold port_inv; by rewrite E).
  clearbody sm1. unfold eapol_sm_txStart. case_match; exact Hi.
Qed.

Create HintDb port.
#[local] Hint Resolve port_inv_tick port_inv_emit port_inv_logoff port_inv_disconnected port_inv_held
  port_inv_authenticated port_inv_authenticating port_inv_force_auth port_inv_force_unauth
  port_inv_restart port_inv_connecting : port.

Lemma port_inv_pae sm : port_inv sm -> port_inv (SUPP_PAE_Step sm).
Proof.
  intros Hp. unfold SUPP_PAE_Step, supp_pae_step_local.
  repeat (case_match; try (auto with port; fail)).
Qed.

#[export] Instance port_inv_step : StepInv port_inv.
Proof.
  constructor; [apply _|done|apply port_inv_pae|apply (pae_key port_inv)|apply (pae_be port_inv)| |done].
  intros sm Hp. unfold register_step. by case_match.
Qed.

#[local] Opaque eapol_sm_step.

Lemma port_inv_step' (w : world) : port_inv (eapol w) -> port_inv (eapol (eapol_sm_step w)).
Proof. apply (inv_step port_inv). Qed.

Lemma port_inv_abort_cached sm : port_inv (eapol_sm_abort_cached sm).
Proof.
  unfold eapol_sm_abort_cached, eapol_sm_set_port_unauthorized.
  apply port_inv_emit, port_inv_tick. by case_match.
Qed.

Lemma port_inv_rx src buf (w : world) :
  port_inv (eapol w) -> port_inv (eapol (eapol_sm_rx_eapol src buf w).2).
Proof.
  intros Hp. unfold eapol_sm_rx_eapol. cbv zeta.
  assert (Hc : forall w : world, port_inv (eapol w) ->
    port_inv (eapol (on_eapol (fun sm => if cached_pmk sm then eapol_sm_abort_cached sm else sm) w))).
  { intros w' Hw. cbn. case_match; [apply port_inv_abort_cached|exact Hw]. }
  repeat (match goal with |- port_inv (eapol (if ?b then _ else _).2) => destruct b end; cbn [snd]);
    repeat first
      [ assumption
      | lazymatch goal with
        | |- port_inv (eapol (eapol_sm_step _)) => apply port_inv_step'
        | |- port_inv (eapol (on_eapol (fun sm => if cached_pmk sm then _ else _) _)) => apply Hc
        | |- port_inv (eapol (on_eapol _ _)) => apply (pae_on port_inv); [pae_quiet|]
        end ].
Qed.

(** C10. The controlled port obeys the Supplicant PAE in every reachable state,
    for every sequence of received frames, timeouts and notifications: the
    port is Unauthorized in DISCONNECTED, LOGOFF, HELD and S_FORCE_UNAUTH and
    Authorized in AUTHENTICATED and S_FORCE_AUTH. *)
Theorem reachable_port_inv (w : world) : reachable w -> port_inv (eapol w).
Proof.
  induction 1 as [c tls w E|o w _ IH _].
  - unfold eapol_sm_init in E. destruct (eap_peer_sm_init tls) as [sm|]; [|done].
    injection E as <-. apply (pae_on port_inv); [pae_quiet|].
    apply port_inv_step', (pae_on port_inv); [pae_quiet|]. by apply port_inv_step'.
  - destruct o; cbn [run_op]; try exact IH; try (by apply port_inv_rx).
    all: unfold eapol_port_timers_tick, eapol_sm_step_timeout, eapol_sm_notify_portEnabled,
      eapol_sm_notify_portValid, eapol_sm_notify_eap_success, eapol_sm_notify_eap_fail,
      eapol_sm_notify_logoff, eapol_sm_notify_cached, eapol_sm_notify_portControl,
      eapol_sm_notify_config, eapol_sm_configure, eapol_sm_notify_pmkid_attempt,
      eapol_sm_notify_ctrl_response, eapol_sm_notify_pending, eapol_sm_request_reauth,
      eapol_sm_notify_lower_layer_success, eapol_sm_notify_tx_eapol_key, eapol_port_timers_update,
      eapol_sm_txStart.
    all: cbv zeta.
    all: repeat first
      [ assumption
      | lazymatch goal with
        | |- port_inv (eapol (eapol_sm_step _)) => apply port_inv_step'
        | |- port_inv (eapol (on_eapol _ _)) => apply (pae_on port_inv); [solve [pae_quiet]|]
        | |- port_inv (eapol (eap_notify_lower_layer_success _)) =>
            apply (low_lower_layer_success port_inv)
        | |- port_inv (eapol (if ?b then _ else _)) => destruct b
        | |- port_inv (eapol ((if ?b then _ else _) _)) => destruct b
        | |- port_inv (eapol (match ?b with Some _ => _ | None => _ end)) => destruct b
        end ].
    unfold on_eapol. cbn [eapol]. case_match; exact IH.
Qed.

(** ** Port disabled *)

Definition port_off (sm : eapol_sm) : Prop :=
  portEnabled sm = false /\ SUPP_PAE_state sm = SUPP_PAE_DISCONNECTED
  /\ suppPortStatus sm = Unauthorized.

#[local] Instance port_off_pae_only : PaeOnly port_off.
Proof. intros f sm Hf. destruct (Hf sm) as (E1 & E2 & E3). unfold port_off. by rewrite E1, E2, E3. Qed.

Lemma pae_step_port_off sm : portEnabled sm = false -> port_off (SUPP_PAE_Step sm).
Proof.
  intros E. unfold SUPP_PAE_Step. cbv zeta. rewrite E. cbn [negb]. rewrite !orb_true_r, !andb_false_r.
  unfold SUPP_PAE_DISCONNECTED_Enter, eapol_sm_set_port_unauthorized, pae_entry.
  repeat case_match; by repeat split.
Qed.

Lemma step_pass_port_off (w : world) :
  portEnabled (eapol w) = false -> port_off (eapol (eapol_sm_step_pass w)).
Proof.
  intros E. unfold eapol_sm_step_pass. cbv zeta. set (w1 := SUPP_BE_Step _).
  assert (H1 : port_off (eapol w1)).
  { apply (pae_be port_off), (pae_key port_off), pae_step_port_off. exact E. }
  pose proof (low_peer_step port_off w1 H1) as H2. destruct (eap_peer_sm_step w1) as [res w2].
  destruct res; exact H2.
Qed.

Lemma step_loop_port_off n : forall w : world,
  n <> O -> portEnabled (eapol w) = false -> port_off (eapol (eapol_sm_step_loop n w)).
Proof.
  induction n as [|n IH]; intros w Hn E; [done|]. pose proof (step_pass_port_off w E) as Hp.
  cbn [eapol_sm_step_loop]. case_match; [exact Hp|]. destruct n; [exact Hp|].
  apply IH; [done|]. apply Hp.
Qed.

(** What follows the loop in eapol_sm_step(). *)
Lemma step_after_loop (P : eapol_sm -> Prop) `{!PaeOnly P} (w : world) :
  P (eapol (eapol_sm_step_loop 100 w)) -> P (eapol (eapol_sm_step w)).
Proof.
  Transparent eapol_sm_step. unfold eapol_sm_step. cbv zeta.
  generalize (eapol_sm_step_loop 100 w). intros w1 H1.
  repeat match goal with |- P (eapol (if ?b then _ else _)) => destruct b end;
    repeat (apply (pae_on P); [solve [pae_quiet]|]); try exact H1;
    destruct (s_changed (eapol w1)); repeat (apply (pae_on P); [solve [pae_quiet]|]); exact H1.
Qed.
#[local] Opaque eapol_sm_step.

Lemma step_port_off (w : world) :
  portEnabled (eapol w) = false -> port_off (eapol (eapol_sm_step w)).
Proof. intros E. by apply (step_after_loop port_off), step_loop_port_off. Qed.

(** Taking the port down always blocks it: whatever state the machines are
    in, notifying portEnabled = false leaves the Supplicant PAE in DISCONNECTED
    and the controlled port Unauthorized when the call returns, and every later
    step keeps it so until the port is enabled again. *)
Theorem port_disabled_unauthorized (w : world) :
  let w' := eapol_sm_notify_portEnabled false w in
  SUPP_PAE_state (eapol w') = SUPP_PAE_DISCONNECTED
  /\ suppPortStatus (eapol w') = Unauthorized
  /\ portEnabled (eapol w') = false
  /\ forall w'' : world, portEnabled (eapol w'') = false ->
       suppPortStatus (eapol (eapol_sm_step w'')) = Unauthorized.
Proof.
  cbv zeta. unfold eapol_sm_notify_portEnabled.
  set (w1 := on_eapol (fun sm => if _ : bool then _ else _) w).
  destruct (step_port_off (on_eapol (fun sm => sm <| portEnabled := false |>) w1)) as (E1 & E2 & E3).
  { reflexivity. }
  split_and!; [done..|]. intros w'' E. by apply step_port_off.
Qed.

End Reachable.

(** ** A reachable state of the concrete environment *)

(** Notified that the port is up, then asked to force authorization. *)
Definition demo_start : world unit eapol_sm := run_op (OpPortEnabled true) demo_boot.
Definition demo_up : world unit eapol_sm := run_op (OpPortControl ForceAuthorized) demo_start.

Lemma demo_start_reachable : reachable demo_start.
Proof. exact (reach_op (OpPortEnabled true) _ (reach_init _ _ _ demo_boot_init) I). Defined.

Lemma demo_up_reachable : reachable demo_up.
Proof. exact (reach_op (OpPortControl ForceAuthorized) _ demo_start_reachable I). Defined.

Lemma port_inv_force sm :
  port_inv sm -> SUPP_PAE_state sm = SUPP_PAE_S_FORCE_AUTH -> suppPortStatus sm = Authorized.
Proof. unfold port_inv. intros H E. by rewrite E in H. Qed.

Lemma demo_up_state : SUPP_PAE_state (eapol demo_up) = SUPP_PAE_S_FORCE_AUTH.
Proof. vm_compute. reflexivity. Qed.

Lemma reachable_port_inv_witness :
  SUPP_PAE_state (eapol demo_up) = SUPP_PAE_S_FORCE_AUTH /\ suppPortStatus (eapol demo_up) = Authorized.
Proof.
  exact (conj demo_up_state
    (port_inv_force (eapol demo_up) (reachable_port_inv demo_up demo_up_reachable) demo_up_state)).
Defined.
