(* ===== verification/EapolTimers.v ===== *)
(** * Timers of the EAPOL supplicant machines

    A running timer keeps the one-second tick registered in the event loop, in
    every reachable state of the machines. *)

From stdpp Require Import strings.
From S2P Require Import Prelude Wpabuf EapCommon EapPeer EapPeerFrame EapPeerDemo EapolSupp EapolDemo EapolProps.

Section Timers0.
Context {priv : Type} `{EM : EapMethods priv} `{EE : EapolEnv} `{OA : OsAlloc} `{SH : Sha1}.
Abbreviation world := (world priv eapol_sm).

(** A running timer keeps the tick armed. *)
Definition timer_inv (sm : eapol_sm) : Prop :=
  ((authWhile sm <> 0 \/ heldWhile sm <> 0 \/ startWhen sm <> 0 \/ idleWhile sm <> 0) ->
   timer_tick_enabled sm = true)
  /\ (timer_tick_enabled sm = true -> (0 < tick_timeouts sm)%nat).

(** Assignments that start no timer and leave the tick alone. *)
Definition timer_quiet (f : eapol_sm -> eapol_sm) : Prop := forall sm,
  (authWhile (f sm) = authWhile sm \/ authWhile (f sm) = 0)
  /\ (heldWhile (f sm) = heldWhile sm \/ heldWhile (f sm) = 0)
  /\ (startWhen (f sm) = startWhen sm \/ startWhen (f sm) = 0)
  /\ (idleWhile (f sm) = idleWhile sm \/ idleWhile (f sm) = 0)
  /\ timer_tick_enabled (f sm) = timer_tick_enabled sm
  /\ tick_timeouts (f sm) = tick_timeouts sm.

Lemma timer_inv_quiet f sm : timer_quiet f -> timer_inv sm -> timer_inv (f sm).
Proof.
  intros Hf [H1 H2]. destruct (Hf sm) as (E1 & E2 & E3 & E4 & E5 & E6). split.
  - rewrite E5. intros Ht. apply H1. destruct Ht as [Ht|[Ht|[Ht|Ht]]].
    + left. destruct E1 as [<-|E1]; done.
    + right; left. destruct E2 as [<-|E2]; done.
    + right; right; left. destruct E3 as [<-|E3]; done.
    + right; right; right. destruct E4 as [<-|E4]; done.
  - rewrite E5, E6. exact H2.
Qed.

Lemma timer_inv_on f (w : world) :
  timer_quiet f -> timer_inv (eapol w) -> timer_inv (eapol (on_eapol f w)).
Proof. apply timer_inv_quiet. Qed.

Ltac timer_quiet :=
  intros ?; cbv beta; unfold be_entry, key_rx_entry, pae_entry, emit_if, eapol_sm_set_port_unauthorized,
    eapol_sm_set_port_authorized, eapol_sm_txLogoff, eapol_sm_txStart;
  repeat case_match; repeat split; first [left; reflexivity | right; reflexivity | reflexivity].

Section Timers.
(** Registering a timeout succeeds (it fails only when memory runs out). *)
Hypothesis eloop_ok : forall n, eloop_register_ok n = true.

(** Arming the tick restores the invariant whatever timers were started. *)
Lemma timer_inv_enable sm :
  (timer_tick_enabled sm = true -> (0 < tick_timeouts sm)%nat) ->
  timer_inv (eapol_enable_timer_tick sm).
Proof.
  intros Ht. Transparent eapol_enable_timer_tick. unfold eapol_enable_timer_tick, register_tick.
  destruct (timer_tick_enabled sm) eqn:E; [split; auto|]. cbn. rewrite eloop_ok. cbn.
  split; [done|]. cbn. lia.
Qed.
#[local] Opaque eapol_enable_timer_tick.

Lemma timer_inv_enable_upd f sm :
  (forall sm, timer_tick_enabled (f sm) = timer_tick_enabled sm /\ tick_timeouts (f sm) = tick_timeouts sm) ->
  timer_inv sm -> timer_inv (eapol_enable_timer_tick (f sm)).
Proof.
  intros Hf [_ Ht]. apply timer_inv_enable. destruct (Hf sm) as [-> ->]. exact Ht.
Qed.

Lemma timer_inv_connecting g sm : timer_inv sm -> timer_inv (SUPP_PAE_CONNECTING_Enter g sm).
Proof.
  intros [_ Ht]. unfold SUPP_PAE_CONNECTING_Enter. cbv zeta.
  match goal with |- context [eapol_enable_timer_tick ?x] => set (sm1 := x) end.
  assert (H1 : timer_inv (eapol_enable_timer_tick sm1)).
  { apply timer_inv_enable. unfold sm1, pae_entry. repeat case_match; exact Ht. }
  clearbody sm1. case_match.
  - apply (timer_inv_quiet (fun sm => eapol_sm_txStart (sm <| eapolEap := false |>))); [timer_quiet|done].
  - apply (timer_inv_quiet (fun sm => sm <| eapolEap := false |>)); [timer_quiet|done].
Qed.

Lemma timer_inv_held g sm : timer_inv sm -> timer_inv (SUPP_PAE_HELD_Enter g sm).
Proof.
  intros Hp. unfold SUPP_PAE_HELD_Enter.
  apply (timer_inv_quiet (fun sm => eapol_sm_set_port_unauthorized sm <| cb_status := EAPOL_CB_FAILURE |>));
    [timer_quiet|].
  apply (timer_inv_enable_upd (fun sm => sm <| heldWhile := heldPeriod sm |>)); [done|].
  apply (timer_inv_quiet (pae_entry g SUPP_PAE_HELD)); [timer_quiet|done].
Qed.

(** The other states of the Supplicant PAE start no timer. *)
Lemma timer_quiet_pae :
  (forall g, timer_quiet (SUPP_PAE_LOGOFF_Enter g)) /\ (forall g, timer_quiet (SUPP_PAE_DISCONNECTED_Enter g))
  /\ (forall g, timer_quiet (SUPP_PAE_S_FORCE_AUTH_Enter g))
  /\ (forall g, timer_quiet (SUPP_PAE_S_FORCE_UNAUTH_Enter g))
  /\ (forall g, timer_quiet (SUPP_PAE_AUTHENTICATED_Enter g))
  /\ (forall g, timer_quiet (SUPP_PAE_AUTHENTICATING_Enter g))
  /\ (forall g, timer_quiet (SUPP_PAE_RESTART_Enter g)).
Proof.
  unfold SUPP_PAE_LOGOFF_Enter, SUPP_PAE_DISCONNECTED_Enter, SUPP_PAE_S_FORCE_AUTH_Enter,
    SUPP_PAE_S_FORCE_UNAUTH_Enter, SUPP_PAE_AUTHENTICATED_Enter, SUPP_PAE_AUTHENTICATING_Enter,
    SUPP_PAE_RESTART_Enter.
  split_and!; intros g; timer_quiet.
Qed.

Lemma timer_inv_pae sm : timer_inv sm -> timer_inv (SUPP_PAE_Step sm).
Proof.
  intros Hp. destruct timer_quiet_pae as (Q1 & Q2 & Q3 & Q4 & Q5 & Q6 & Q7).
  unfold SUPP_PAE_Step, supp_pae_step_local. cbv zeta.
  set (sm1 := if _ : bool then emit_if _ _ _ else sm).
  assert (H1 : timer_inv sm1).
  { unfold sm1. case_match; [|done].
    apply (timer_inv_quiet (fun sm => emit_if (has_eapol_done_cb (ctx sm)) EvDone (sm <| portValid := true |>)));
      [timer_quiet|done]. }
  clearbody sm1.
  repeat case_match; first
    [ assumption
    | lazymatch goal with
      | |- timer_inv (SUPP_PAE_CONNECTING_Enter _ _) => by apply timer_inv_connecting
      | |- timer_inv (SUPP_PAE_HELD_Enter _ _) => by apply timer_inv_held
      | |- timer_inv (?f ?g ?x) => apply (timer_inv_quiet (f g)); [auto|assumption]
      end ].
Qed.

(** *** The rest of the machine *)

Ltac timer_peel :=
  repeat first
    [ assumption
    | lazymatch goal with
      | |- timer_inv (eapol (on_eapol _ _)) => apply timer_inv_on; [solve [timer_quiet]|]
      | |- timer_inv (eapol (if ?b then _ else _)) => destruct b
      | |- timer_inv (eapol (on_sm _ ?w)) => change (timer_inv (eapol w))
      end ].

Instance timer_inv_lower : LowerStable timer_inv.
Proof.
  constructor.
  - intros v b s _ Hp. apply (timer_inv_quiet (eapol_sm_set_bool v b)); [|done].
    intros sm. destruct v; repeat split; by left.
  - intros [] n s Hp. cbn. case_match eqn:E.
    + by apply (timer_inv_enable_upd (fun s => s <| idleWhile := u32 n |>)).
    + destruct Hp as [H1 H2]. split; [|exact H2]. cbn in *. intros Ht. apply H1.
      pose proof (wrap_range 32 n ltac:(lia)) as [? _]. apply Z.ltb_ge in E.
      destruct Ht as [?|[?|[?|?]]]; auto. lia.
  - intros f s Hp. apply (timer_inv_quiet (fun s => s <| config := f <$> config s |>)); [timer_quiet|done].
  - intros a b s Hp. apply (timer_inv_quiet (eapol_sm_notify_status a b)); [|done].
    unfold eapol_sm_notify_status. timer_quiet.
  - intros e s Hp. apply (timer_inv_quiet (eapol_sm_notify_eap_error e)); [|done].
    unfold eapol_sm_notify_eap_error. timer_quiet.
  - intros f s Hp. apply (timer_inv_quiet (eapol_sm_eap_param_needed f)); [|done].
    unfold eapol_sm_eap_param_needed. timer_quiet.
Qed.

Lemma timer_inv_install i k (w : world) :
  timer_inv (eapol w) -> timer_inv (eapol (eapol_sm_install_key i k w)).
Proof. intros Hp. unfold eapol_sm_install_key. cbv zeta. timer_peel. Qed.

Lemma timer_inv_key (w : world) : timer_inv (eapol w) -> timer_inv (eapol (KEY_RX_Step w)).
Proof.
  assert (Hk : forall w : world, timer_inv (eapol w) -> timer_inv (eapol (eapol_sm_processKey w))).
  { intros w' Hw. unfold eapol_sm_processKey. cbv zeta.
    assert (H : timer_inv (eapol (eapol_sm_notify_lower_layer_success_in_sm w')))
      by (by apply (low_lower_layer_success timer_inv)).
    repeat (case_match; try assumption); apply timer_inv_install; timer_peel. }
  intros Hp. unfold KEY_RX_Step, KEY_RX_NO_KEY_RECEIVE_Enter, KEY_RX_KEY_RECEIVE_Enter. cbv zeta.
  set (w1 := if _ : bool then _ else w).
  assert (H1 : timer_inv (eapol w1)) by (unfold w1; timer_peel).
  clearbody w1. repeat case_match; timer_peel; apply Hk; timer_peel.
Qed.

Lemma timer_inv_be (w : world) : timer_inv (eapol w) -> timer_inv (eapol (SUPP_BE_Step w)).
Proof.
  intros Hp. unfold SUPP_BE_Step, SUPP_BE_REQUEST_Enter, SUPP_BE_FAIL_Enter, SUPP_BE_TIMEOUT_Enter,
    SUPP_BE_IDLE_Enter, SUPP_BE_SUCCESS_Enter, SUPP_BE_INITIALIZE_Enter, eapol_sm_abortSupp,
    SUPP_BE_RESPONSE_Enter, SUPP_BE_RECEIVE_Enter, eapol_sm_txSuppRsp, eap_get_eapRespData,
    eapol_sm_getSuppRsp.
  assert (Ht : timer_inv (eapol (on_eapol (fun sm => eapol_enable_timer_tick (sm <| authWhile := authPeriod sm |>)
     <| eapolEap := false |> <| eapNoResp := false |> <| initial_req := false |>)
     (on_eapol (fun sm => be_entry false SUPP_BE_RECEIVE sm) w)))).
  { assert (H1 : timer_inv (eapol_enable_timer_tick (be_entry false SUPP_BE_RECEIVE (eapol w)
      <| authWhile := authPeriod (be_entry false SUPP_BE_RECEIVE (eapol w)) |>))).
    { apply (timer_inv_enable_upd (fun sm => sm <| authWhile := authPeriod sm |>)); [done|].
      apply (timer_inv_quiet (be_entry false SUPP_BE_RECEIVE)); [timer_quiet|done]. }
    exact (timer_inv_quiet (fun sm => sm <| eapolEap := false |> <| eapNoResp := false |>
      <| initial_req := false |>) _ ltac:(timer_quiet) H1). }
  cbv zeta. repeat case_match; timer_peel.
  apply (low_abort timer_inv). timer_peel.
Qed.

Instance timer_inv_step : StepInv (priv := priv) timer_inv.
Proof.
  constructor; [apply _| |apply timer_inv_pae|apply timer_inv_key|apply timer_inv_be| |].
  - intros sm b Hp. apply (timer_inv_quiet (fun sm => sm <| s_changed := b |>)); [timer_quiet|done].
  - intros sm Hp. apply (timer_inv_quiet (fun sm => register_step (sm <| step_timeouts := 0%nat |>))); [|done].
    unfold register_step. timer_quiet.
  - intros sm r Hp. apply (timer_inv_quiet (fun sm => emit (EvResult r) (sm <| cb_status := EAPOL_CB_IN_PROGRESS |>)));
      [timer_quiet|done].
Qed.

Lemma timer_inv_port_timers sm :
  timer_inv sm -> (0 < tick_timeouts sm)%nat ->
  timer_inv (eapol_port_timers_update (sm <| tick_timeouts := pred (tick_timeouts sm) |>)).
Proof.
  intros [H1 H2] Hn. unfold eapol_port_timers_update. cbv zeta. set (sm1 := _ <| idleWhile := _ |>).
  case_match eqn:E.
  - unfold register_tick. cbn. rewrite eloop_ok. cbn. split; cbn; [|lia].
    intros Ht. apply H1. unfold count_down in Ht.
    destruct Ht as [Ht|[Ht|[Ht|Ht]]]; [left|right; left|do 2 right; left|do 3 right];
      repeat case_match; lia.
  - apply negb_false_iff, Z.eqb_eq in E. rewrite !Z.lor_eq_0_iff in E.
    destruct E as [[[E1 E2] E3] E4]. split; [|done]. cbn. intuition.
Qed.

Lemma timer_inv_abort_cached sm : timer_inv sm -> timer_inv (eapol_sm_abort_cached sm).
Proof.
  intros Hp. unfold eapol_sm_abort_cached.
  apply (timer_inv_quiet (fun sm => emit_if (has_aborted_cached (ctx sm)) EvAbortedCached sm)); [timer_quiet|].
  apply (timer_inv_enable_upd (fun sm => sm <| startWhen := 3 |>)); [done|].
  apply (timer_inv_quiet eapol_sm_set_port_unauthorized); [timer_quiet|].
  apply (timer_inv_quiet (fun sm => sm <| cached_pmk := false |> <| SUPP_PAE_state := SUPP_PAE_CONNECTING |>));
    [timer_quiet|done].
Qed.

#[local] Opaque eapol_sm_step.
Lemma timer_inv_step' (w : world) : timer_inv (eapol w) -> timer_inv (eapol (eapol_sm_step w)).
Proof. apply (inv_step timer_inv). Qed.

Lemma timer_inv_rx src buf (w : world) :
  timer_inv (eapol w) -> timer_inv (eapol (eapol_sm_rx_eapol src buf w).2).
Proof.
  intros Hp. unfold eapol_sm_rx_eapol. cbv zeta.
  assert (Hc : forall w : world, timer_inv (eapol w) ->
    timer_inv (eapol (on_eapol (fun sm => if cached_pmk sm then eapol_sm_abort_cached sm else sm) w))).
  { intros w' Hw. unfold on_eapol. cbn [eapol]. case_match; [by apply timer_inv_abort_cached|exact Hw]. }
  repeat (match goal with |- timer_inv (eapol (if ?b then _ else _).2) => destruct b end; cbn [snd]);
    repeat first
      [ assumption
      | lazymatch goal with
        | |- timer_inv (eapol (eapol_sm_step _)) => apply timer_inv_step'
        | |- timer_inv (eapol (on_eapol (fun sm => if cached_pmk sm then _ else _) _)) => apply Hc
        | |- timer_inv (eapol (on_eapol _ _)) => apply timer_inv_on; [solve [timer_quiet]|]
        end ].
Qed.

Lemma timer_inv_on_sm f (w : world) : timer_inv (eapol w) -> timer_inv (eapol (on_sm f w)).
Proof. done. Qed.

Lemma timer_inv_init (w : world) :
  timer_inv (eapol w) ->
  timer_inv (eapol (on_eapol (fun sm => let '(ok, sm) := register_tick sm in
    if ok then sm <| timer_tick_enabled := true |> else sm) w)).
Proof.
  intros _. unfold on_eapol, register_tick. cbn [eapol]. rewrite eloop_ok. split; cbn; [done|lia].
Qed.

Lemma timer_inv_tick (w : world) :
  timer_inv (eapol w) -> (0 < tick_timeouts (eapol w))%nat ->
  timer_inv (eapol (eapol_port_timers_tick w)).
Proof.
  intros Hi Hn. unfold eapol_port_timers_tick. apply timer_inv_step'.
  unfold on_eapol. cbn [eapol]. by apply timer_inv_port_timers.
Qed.

Lemma timer_inv_op o (w : world) :
  timer_inv (eapol w) -> op_enabled o w -> timer_inv (eapol (run_op o w)).
Proof.
  intros Hi Hen. destruct o; cbn [run_op op_enabled] in *.
  1: by apply timer_inv_rx.
  1: by apply timer_inv_tick.
  all: unfold eapol_sm_step_timeout, eapol_sm_notify_portEnabled,
    eapol_sm_notify_portValid, eapol_sm_notify_eap_success, eapol_sm_notify_eap_fail,
    eapol_sm_notify_logoff, eapol_sm_notify_cached, eapol_sm_notify_portControl,
    eapol_sm_notify_config, eapol_sm_configure, eapol_sm_notify_pmkid_attempt,
    eapol_sm_notify_ctrl_response, eapol_sm_notify_pending, eapol_sm_request_reauth,
    eapol_sm_notify_lower_layer_success, eapol_sm_notify_tx_eapol_key,
    eapol_sm_invalidate_cached_session, eap_invalidate_cached_session, eap_notify_success,
    eap_set_fast_reauth, eap_set_workaround, eap_set_force_disabled, id.
  all: cbv zeta.
  all: repeat lazymatch goal with
    | |- timer_inv (eapol (eapol_sm_step _)) => apply timer_inv_step'
    | |- timer_inv (eapol (on_eapol _ _)) => apply timer_inv_on; [solve [timer_quiet]|]
    | |- timer_inv (eapol (on_sm _ _)) => apply timer_inv_on_sm
    | |- timer_inv (eapol (eap_notify_lower_layer_success _)) =>
        apply (low_lower_layer_success timer_inv)
    | |- timer_inv (eapol (if ?b then _ else _)) => destruct b
    | |- timer_inv (eapol ((if ?b then _ else _) _)) => destruct b
    | |- timer_inv (eapol (match ?b with Some _ => _ | None => _ end)) => destruct b
    | |- timer_inv (eapol ?x) => is_var x; exact Hi
    end.
Qed.


End Timers.

End Timers0.

(** With the port up the machine looks for an authenticator. *)
Lemma demo_start_when : startWhen (eapol demo_start) = 2.
Proof. vm_compute. reflexivity. Qed.

Lemma demo_start_running :
  authWhile (eapol demo_start) <> 0 \/ heldWhile (eapol demo_start) <> 0
  \/ startWhen (eapol demo_start) <> 0 \/ idleWhile (eapol demo_start) <> 0.
Proof. right. right. left. by rewrite demo_start_when. Qed.

