(* ===== verification/EapolKeys.v ===== *)
(** * Frames, keys and results of the EAPOL supplicant machines

    What eapol_sm_processKey() demands of an EAPOL-Key frame before it installs a
    key, how malformed frames are dropped, when the port is authorized, and how
    outcomes are reported. *)

From stdpp Require Import strings.
From S2P Require Import Prelude Wpabuf EapCommon EapPeer EapPeerDemo EapPeerFrame.
From S2P Require Import EapolSupp EapolDemo EapolProps EapolTimers.

(** Big-endian value of a buffer. *)
Fixpoint be_val (l : bytes) : Z :=
  match l with [] => 0 | x :: l => x * 2 ^ (8 * zlen l) + be_val l end.

Lemma be_val_bound l : bytes_ok l -> 0 <= be_val l < 2 ^ (8 * zlen l).
Proof.
  induction 1 as [|x l Hx Hl IH]; [split; [done|reflexivity]|]. cbn [be_val]. rewrite zlen_cons.
  replace (8 * (zlen l + 1)) with (8 + 8 * zlen l) by lia.
  rewrite Z.pow_add_r by (pose proof (zlen_nonneg l); lia). unfold is_uint in Hx. nia.
Qed.

(** memcmp() orders equally long buffers by their big-endian value. *)
Lemma memcmp_be_val a : forall b,
  bytes_ok a -> bytes_ok b -> length a = length b -> memcmp a b < 0 -> be_val a < be_val b.
Proof.
  induction a as [|x a IH]; intros [|y b] Ha Hb Hl Hm; cbn in *; try lia.
  apply Forall_cons in Ha as [Hx Ha]. apply Forall_cons in Hb as [Hy Hb].
  assert (El : zlen a = zlen b) by (unfold zlen; lia).
  pose proof (be_val_bound a Ha). pose proof (be_val_bound b Hb). rewrite El in *.
  destruct (Z.eqb_spec x y) as [->|Hn].
  - specialize (IH b Ha Hb ltac:(lia) Hm). lia.
  - unfold is_uint in *. assert (x + 1 <= y) by lia. nia.
Qed.

Section Keys.
Context {priv : Type} `{EM : EapMethods priv} `{EE : EapolEnv} `{OA : OsAlloc} `{SH : Sha1}.
Abbreviation world := (world priv eapol_sm).

(** ** EAPOL-Key frames *)

(** What a frame may change. *)
Definition key_part (sm : eapol_sm) :=
  (events sm, portValid sm, replay_counter_valid sm, last_replay_counter sm,
   unicast_key_received sm, broadcast_key_received sm).

(** The HMAC-MD5 key: the second half of a 64-byte MSK, or a LEAP key. *)
Definition msk_sign_key (msk : bytes) : bytes :=
  if zlen msk <? 64 then take 16 msk else take 32 (drop 32 msk).

(** The frame [f] is a complete EAPOL-Key frame (header, key descriptor and all the
    bytes its length field announces), signed with the session key and newer than
    the last one accepted under this key.  The signature is the HMAC-MD5 of the
    frame, or, when the library could not compute one, what the failed call left in
    the zeroed buffer. *)
Definition key_frame_ok (w : world) (f : bytes) : Prop :=
  let sm := eapol w in
  accept_802_1x_keys (conf sm) = true
  /\ sizeof_ieee802_1x_eapol_key <= get_be16 (drop 2 f)
  /\ sizeof_ieee802_1x_hdr + get_be16 (drop 2 f) <= zlen f
  /\ (exists msk, eapKeyData (esm w) = Some msk /\ (64 <= zlen msk \/ zlen msk = 16)
      /\ let data := key_unsigned f (sizeof_ieee802_1x_hdr + get_be16 (drop 2 f)) in
         match hmac_md5 (msk_sign_key msk) data with
         | Some mac => key_key_signature f = mac
         | None => key_key_signature f = hmac_md5_failed (msk_sign_key msk) data (replicate 16 0)
         end)
  /\ (replay_counter_valid sm = true ->
      be_val (take 8 (last_replay_counter sm)) < be_val (key_replay_counter f)).

Lemma lower_layer_success_keeps (w : world) :
  let w' := eap_notify_lower_layer_success w in
  key_part (eapol w') = key_part (eapol w) /\ conf (eapol w') = conf (eapol w)
  /\ ctx (eapol w') = ctx (eapol w)
  /\ eapKeyData (esm w') = eapKeyData (esm w).
Proof.
  unfold eap_notify_lower_layer_success. cbv zeta. case_match; [done|].
  split; [done|]. split; [done|]. split; [done|]. cbn. by case_match.
Qed.

Lemma get_key_spec (w : world) key n res k :
  eapol_sm_get_key w key n = (res, k) ->
  res = -1 \/ exists msk, eapKeyData (esm w) = Some msk
    /\ ((res = 0 /\ n <= zlen msk /\ k = take (Z.to_nat n) msk ++ drop (Z.to_nat n) key)
        \/ (res = zlen msk /\ zlen msk < n /\ k = key)).
Proof.
  unfold eapol_sm_get_key, eap_get_eapKeyData. intros E.
  destruct (eap_key_available w); cbn in E; [|left; congruence].
  destruct (eapKeyData (esm w)) as [msk|]; [|left; congruence]. right. exists msk. split; [done|].
  destruct (Z.ltb_spec (zlen msk) n); injection E as <- <-; auto.
Qed.

(** The signature key is the prescribed part of a complete MSK. *)
Lemma session_keys_spec (w : world) encr_key sign_key n :
  eapKeyData (esm w) <> Some [] -> length uninitialized = 64%nat ->
  processKey_session_keys w = Some (encr_key, sign_key, n) ->
  exists msk, eapKeyData (esm w) = Some msk /\ (64 <= zlen msk \/ zlen msk = 16)
              /\ sign_key = msk_sign_key msk.
Proof.
  intros Hne Hun. unfold processKey_session_keys.
  destruct (eapol_sm_get_key w uninitialized 64) as [res keydata] eqn:Eg.
  apply get_key_spec in Eg. destruct (res <? 0) eqn:Er; [done|].
  destruct Eg as [->|(msk & Em & Hg)]; [done|]. intros Ek. exists msk. split; [done|].
  assert (Hn0 : zlen msk <> 0).
  { intros E0. apply Hne. rewrite Em. destruct msk; [done|unfold zlen in E0; cbn in E0; lia]. }
  assert (Hlen : forall n : nat, Z.of_nat n <= zlen msk -> length (take n msk) = n)
    by (intros; rewrite length_take; unfold zlen in *; lia).
  unfold msk_sign_key. destruct Hg as [(-> & H64 & ->)|(-> & H64 & ->)].
  - cbn [Z.eqb negb] in Ek. injection Ek as _ <- _.
    rewrite (proj2 (Z.ltb_ge _ _) H64). split; [by left|].
    change (Z.to_nat 64) with 64%nat. rewrite (drop_ge uninitialized) by lia.
    rewrite app_nil_r. by rewrite take_drop_commute.
  - destruct (Z.eqb_spec (zlen msk) 16) as [E16|].
    2: { by rewrite (proj2 (Z.eqb_neq _ _) Hn0) in Ek. }
    rewrite (proj2 (Z.ltb_lt _ _) H64). split; [by right|].
    destruct (eapol_sm_get_key w uninitialized 16) as [r k16] eqn:Eg16.
    destruct (get_key_spec _ _ _ _ _ Eg16) as [->|(msk' & Em' & Hg')]; [done|].
    rewrite Em in Em'. injection Em' as <-. rewrite E16 in Hg'.
    destruct Hg' as [(-> & _ & ->)|(_ & ? & _)]; [|lia].
    cbn [Z.eqb negb] in Ek. injection Ek as _ <- _. change (Z.to_nat 16) with 16%nat.
    rewrite take_app_le by (rewrite Hlen; lia). by rewrite take_take.
Qed.

Definition install_effect (w w' : world) : Prop :=
  replay_counter_valid (eapol w') = replay_counter_valid (eapol w)
  /\ last_replay_counter (eapol w') = last_replay_counter (eapol w)
  /\ exists l, events (eapol w') = events (eapol w) ++ l.

Lemma install_effect_refl (w : world) : install_effect w w.
Proof. split_and!; [done|done|exists []; by rewrite app_nil_r]. Qed.

Lemma install_effect_on f (w w' : world) :
  (forall sm, replay_counter_valid (f sm) = replay_counter_valid sm
     /\ last_replay_counter (f sm) = last_replay_counter sm
     /\ exists l, events (f sm) = events sm ++ l) ->
  install_effect w w' -> install_effect w (on_eapol f w').
Proof.
  intros Hf (E1 & E2 & l & E3). destruct (Hf (eapol w')) as (F1 & F2 & l' & F3).
  unfold install_effect, on_eapol. cbn [eapol]. rewrite F1, F2, F3, E1, E2, E3, <- app_assoc.
  split_and!; [done|done|by eexists].
Qed.

Lemma install_key_effect i k (w : world) : install_effect w (eapol_sm_install_key i k w).
Proof.
  unfold eapol_sm_install_key. cbv zeta.
  assert (H1 : forall b e, install_effect w (on_eapol (emit_if b e) w)).
  { intros b e. apply install_effect_on; [|apply install_effect_refl].
    intros sm. unfold emit_if. case_match; split_and!; try done; [by eexists|].
    exists []. by rewrite app_nil_r. }
  set (w1 := on_eapol (emit_if _ _) w). specialize (H1 _ _ : install_effect w w1). clearbody w1.
  case_match; [done|].
  set (w2 := on_eapol _ w1).
  assert (H2 : install_effect w w2).
  { apply install_effect_on; [|done]. intros sm. case_match; split_and!; try done;
      exists []; by rewrite app_nil_r. }
  clearbody w2. case_match; [|done]. apply install_effect_on; [|done].
  intros sm. unfold emit_if. case_match; split_and!; try done; [by eexists|].
  exists []. by rewrite app_nil_r.
Qed.

(** C9. A key is installed only from an authentic and fresh EAPOL-Key frame:
    if the EAP method did not export an empty MSK, then unless the frame kept in
    last_rx_key is complete (its length field covers the descriptor and lies inside
    the frame), carries the HMAC-MD5 signature under the second half of the session's
    MSK (or under a 16-byte MSK; when the HMAC fails, which the code does not look
    at, what that call leaves in the zeroed signature field) and (once a frame has
    been accepted under this MSK) a strictly larger 64-bit replay counter,
    eapol_sm_processKey() reports nothing, installs nothing and leaves portValid,
    the replay counter and the record of received keys as they were; when it
    does accept a frame, the frame's counter becomes the one to beat. *)
Theorem eapol_sm_processKey_authentic (w : world) :
  eapKeyData (esm w) <> Some [] -> length uninitialized = 64%nat ->
  bytes_ok (last_replay_counter (eapol w)) -> length (last_replay_counter (eapol w)) = 16%nat ->
  (forall f, last_rx_key (eapol w) = Some f -> bytes_ok f) ->
  let w' := eapol_sm_processKey w in
  key_part (eapol w') = key_part (eapol w)
  \/ exists f, last_rx_key (eapol w) = Some f /\ key_frame_ok w f
       /\ replay_counter_valid (eapol w') = true
       /\ last_replay_counter (eapol w') = key_replay_counter f ++ drop 8 (last_replay_counter (eapol w))
       /\ exists l, events (eapol w') = events (eapol w) ++ l.
Proof.
  intros Hne Hun Hrb Hrl Hfb. unfold eapol_sm_processKey. cbv zeta.
  destruct (last_rx_key (eapol w)) as [f|]; [|by left]. specialize (Hfb f eq_refl).
  destruct (accept_802_1x_keys (conf (eapol w))) eqn:Ea; [cbn [negb]|by left].
  destruct (Z.ltb_spec (zlen f) (sizeof_ieee802_1x_hdr + sizeof_ieee802_1x_eapol_key)) as [|Hl]; [by left|].
  destruct (_ || _) eqn:Ep; [by left|]. apply orb_false_elim in Ep as [Ep1 Ep2].
  apply Z.ltb_ge in Ep1, Ep2.
  destruct (lower_layer_success_keeps w) as (K1 & K2 & K3 & K4).
  unfold eapol_sm_notify_lower_layer_success_in_sm.
  set (w1 := eap_notify_lower_layer_success w) in *.
  destruct (processKey_session_keys w1) as [[[encr_key sign_key] n]|] eqn:Ek; [|by left].
  apply session_keys_spec in Ek as (msk & Em & Hlen & ->); [|by rewrite K4|done].
  destruct (replay_counter_valid (eapol w1) && _) eqn:Erp; [by left|].
  destruct (negb (bool_decide _)) eqn:Esig; [by left|].
  case_match; [by left|].
  match goal with |- context [match ?x with Some _ => _ | None => w1 end] =>
    destruct x as [dk|]; [|by left] end.
  right. exists f.
  set (w2 := on_eapol _ w1).
  destruct (install_key_effect (key_key_index f) dk w2) as (I1 & I2 & l & I3).
  apply negb_false_iff, bool_decide_eq_true in Esig. unfold key_signature_for in Esig.
  injection K1 as K1 K5 K6 K7 K8 K9. split_and!; [done| |by rewrite I1|rewrite I2; cbn; by rewrite K7|].
  - split_and!; [done|done|done| |].
    + exists msk. rewrite <- K4, Em. split; [done|]. split; [done|]. cbv zeta. by case_match.
    + intros Hv. rewrite <- K6 in Hv. rewrite Hv in Erp. apply Z.leb_gt in Erp. rewrite <- K7 in *.
      apply memcmp_be_val; [auto with wpa|unfold key_replay_counter; auto with wpa| |done].
      unfold key_replay_counter. rewrite !length_take, length_drop, Hrl.
      unfold zlen, sizeof_ieee802_1x_hdr, sizeof_ieee802_1x_eapol_key in Hl. lia.
  - exists l. by rewrite I3, <- K1.
Qed.
(** ** Malformed and foreign frames *)

(** Everything but the frame statistics. *)
Definition same_but_rx_stats (sm sm' : eapol_sm) : Prop :=
  sm' = sm <| dot1xSuppEapolFramesRx := dot1xSuppEapolFramesRx sm' |>
    <| dot1xSuppInvalidEapolFramesRx := dot1xSuppInvalidEapolFramesRx sm' |>
    <| dot1xSuppEapLengthErrorFramesRx := dot1xSuppEapLengthErrorFramesRx sm' |>
    <| dot1xSuppLastEapolFrameVersion := dot1xSuppLastEapolFrameVersion sm' |>
    <| dot1xSuppLastEapolFrameSource := dot1xSuppLastEapolFrameSource sm' |>.

(** A frame the machines must not act on: shorter than its header, with a body
    longer than the frame, of a type other than EAP-Packet and EAPOL-Key, or an
    EAPOL-Key frame that is too short or not of the RC4 kind. *)
Definition frame_ignored (buf : bytes) : Prop :=
  zlen buf < 4
  \/ zlen buf - 4 < get_be16 (drop 2 buf)
  \/ (byte_at buf 1 <> IEEE802_1X_TYPE_EAP_PACKET /\ byte_at buf 1 <> IEEE802_1X_TYPE_EAPOL_KEY)
  \/ (byte_at buf 1 = IEEE802_1X_TYPE_EAPOL_KEY
      /\ (get_be16 (drop 2 buf) < sizeof_ieee802_1x_eapol_key \/ byte_at buf 4 <> EAPOL_KEY_TYPE_RC4)).

Lemma fix_plen_key sm buf plen :
  byte_at buf 1 <> IEEE802_1X_TYPE_EAP_PACKET -> eapol_fix_plen sm buf plen = plen.
Proof.
  intros Hn. unfold eapol_fix_plen. rewrite (proj2 (Z.eqb_neq _ _) Hn).
  by rewrite andb_false_r.
Qed.

(** Malformed and foreign frames have no effect: for a frame that is
    truncated, has a wrong length field, an unknown type or an EAPOL-Key
    descriptor that is not this component's, eapol_sm_rx_eapol() changes only
    its reception statistics; the EAP peer, every state variable, the timers and
    the outgoing calls stay exactly as they were. *)
Theorem eapol_sm_rx_eapol_ignored (src buf : bytes) (w : world) :
  frame_ignored buf ->
  let w' := (eapol_sm_rx_eapol src buf w).2 in
  esm w' = esm w /\ same_but_rx_stats (eapol w) (eapol w').
Proof.
  intros Hf. unfold eapol_sm_rx_eapol. cbv zeta.
  destruct (Z.ltb_spec (zlen buf) sizeof_ieee802_1x_hdr) as [|H4]; [by split|].
  destruct (Z.ltb_spec (zlen buf - sizeof_ieee802_1x_hdr) (get_be16 (drop 2 buf))) as [|Hl];
    [by split|].
  unfold sizeof_ieee802_1x_hdr in *.
  destruct (Z.eqb_spec (byte_at buf 1) IEEE802_1X_TYPE_EAP_PACKET) as [E0|N0].
  { destruct Hf as [?|[?|[[? _]|[E3 _]]]]; [lia|lia|done|]. by rewrite E0 in E3. }
  rewrite fix_plen_key by done.
  destruct (Z.eqb_spec (byte_at buf 1) IEEE802_1X_TYPE_EAPOL_KEY) as [E3|N3].
  2: { by split. }
  destruct (Z.ltb_spec (get_be16 (drop 2 buf)) sizeof_ieee802_1x_eapol_key);
    [by split|].
  destruct (_ || _); [by split|].
  destruct (Z.eqb_spec (byte_at buf 4) EAPOL_KEY_TYPE_RC4); [|by split].
  destruct Hf as [?|[?|[[? ?]|[_ [?|?]]]]]; done || lia.
Qed.

(** ** Authorization *)

Ltac pae_cases :=
  unfold SUPP_PAE_LOGOFF_Enter, SUPP_PAE_DISCONNECTED_Enter, SUPP_PAE_HELD_Enter,
    SUPP_PAE_AUTHENTICATED_Enter, SUPP_PAE_S_FORCE_AUTH_Enter, SUPP_PAE_S_FORCE_UNAUTH_Enter,
    SUPP_PAE_AUTHENTICATING_Enter, SUPP_PAE_RESTART_Enter, eapol_sm_txLogoff,
    eapol_sm_set_port_unauthorized, eapol_sm_set_port_authorized, eapol_enable_timer_tick,
    register_tick, pae_entry;
  repeat case_match; reflexivity.

Lemma pae_status_unauth sm :
  (forall g, suppPortStatus (SUPP_PAE_LOGOFF_Enter g sm) = Unauthorized)
  /\ (forall g, suppPortStatus (SUPP_PAE_DISCONNECTED_Enter g sm) = Unauthorized)
  /\ (forall g, suppPortStatus (SUPP_PAE_HELD_Enter g sm) = Unauthorized)
  /\ (forall g, suppPortStatus (SUPP_PAE_S_FORCE_UNAUTH_Enter g sm) = Unauthorized).
Proof. split_and!; intros g; pae_cases. Qed.

Lemma pae_status_authenticating g sm :
  suppPortStatus (SUPP_PAE_AUTHENTICATING_Enter g sm) = suppPortStatus sm.
Proof. pae_cases. Qed.

Lemma pae_status_restart g sm : suppPortStatus (SUPP_PAE_RESTART_Enter g sm) = suppPortStatus sm.
Proof. pae_cases. Qed.

Lemma pae_status_connecting g sm :
  suppPortStatus (SUPP_PAE_CONNECTING_Enter g sm) = suppPortStatus sm.
Proof.
  unfold SUPP_PAE_CONNECTING_Enter. cbv zeta.
  match goal with |- context [eapol_enable_timer_tick ?x] => set (sm1 := x) end.
  assert (H1 : suppPortStatus sm1 = suppPortStatus sm)
    by (unfold sm1, pae_entry; repeat case_match; reflexivity).
  destruct (enable_tick_quiet sm1) as (_ & H2 & _). clearbody sm1. rewrite H1 in H2.
  case_match; exact H2.
Qed.

Lemma pae_status_auth :
  (forall g sm, SUPP_PAE_state (SUPP_PAE_AUTHENTICATED_Enter g sm) = SUPP_PAE_AUTHENTICATED)
  /\ (forall g sm, SUPP_PAE_state (SUPP_PAE_S_FORCE_AUTH_Enter g sm) = SUPP_PAE_S_FORCE_AUTH).
Proof. split; intros g sm; pae_cases. Qed.

Lemma pae_status_valid g sm : portValid (SUPP_PAE_AUTHENTICATED_Enter g sm) = portValid sm.
Proof. pae_cases. Qed.

Ltac bool_hyps :=
  repeat match goal with
         | H : _ && _ = true |- _ => apply andb_true_iff in H as [? ?]
         | H : bool_decide _ = true |- _ => apply bool_decide_eq_true in H
         end.

(** C12. The port opens only for a reason: a pass of SM_STEP(SUPP_PAE) that turns
    the controlled port from Unauthorized to Authorized happens with the port
    enabled and the machine initialised, and either enters AUTHENTICATED with
    portValid set (the key handshake is complete or none is required) or
    enters S_FORCE_AUTH because the administrator forced authorization. *)
Theorem SUPP_PAE_Step_authorizes (sm : eapol_sm) :
  suppPortStatus sm = Unauthorized -> suppPortStatus (SUPP_PAE_Step sm) = Authorized ->
  let sm' := SUPP_PAE_Step sm in
  portEnabled sm = true /\ initialize sm = false
  /\ ((SUPP_PAE_state sm' = SUPP_PAE_AUTHENTICATED /\ portValid sm' = true)
      \/ (SUPP_PAE_state sm' = SUPP_PAE_S_FORCE_AUTH /\ portControl sm = ForceAuthorized)).
Proof.
  intros Hu.
  destruct (pae_status_unauth sm) as (U1 & U2 & U3 & U4).
  unfold SUPP_PAE_Step. cbv zeta.
  destruct (initialize sm) eqn:Ei.
  { cbn [orb negb]. rewrite !andb_false_r, orb_true_r. cbn [orb]. by rewrite U2. }
  destruct (portEnabled sm) eqn:Ep.
  2: { cbn [orb negb]. rewrite !andb_false_r, !orb_true_r. by rewrite U2. }
  intros Ha. split; [done|]. split; [done|]. revert Ha. cbn [orb negb].
  case_match; [by rewrite U1|]. case_match; [by rewrite U2|].
  case_match eqn:Ef.
  { intros _. right. split; [apply pae_status_auth|]. bool_hyps. done. }
  case_match; [by rewrite U4|].
  unfold supp_pae_step_local.
  set (sm1 := if _ : bool then emit_if _ _ _ else sm).
  assert (Hsm : suppPortStatus sm1 = Unauthorized) by (unfold sm1, emit_if; by repeat case_match).
  clearbody sm1.
  destruct (pae_status_unauth sm1) as (V1 & V2 & V3 & V4).
  destruct (SUPP_PAE_state sm); try (by rewrite Hu);
    repeat (match goal with |- context [if ?b then _ else _] => destruct b eqn:? end);
    rewrite ?pae_status_connecting, ?pae_status_restart, ?pae_status_authenticating, ?U2, ?U3, ?V3, ?Hu, ?Hsm;
    try done; intros _; left; bool_hyps; split; apply pae_status_auth || (rewrite pae_status_valid; done).
Qed.

(** ** A finding *)

Lemma lower_layer_success_key (w : world) :
  eapKeyAvailable (esm w) = true -> eapKeyAvailable (esm (eap_notify_lower_layer_success w)) = true.
Proof.
  intros H. unfold eap_notify_lower_layer_success. cbv zeta. case_match; [done|]. cbn. by case_match.
Qed.

(** The keys of a 16-byte MSK: behind it the encryption key is the stack. *)
Lemma leap_session_keys (w : world) msk :
  eapKeyAvailable (esm w) = true -> eapKeyData (esm w) = Some msk -> length msk = 16%nat ->
  processKey_session_keys w = Some (take 32 (msk ++ drop 16 uninitialized), msk, 16%nat).
Proof.
  intros Ha Hm Hl. assert (zlen msk = 16) as Hz by (unfold zlen; lia).
  unfold processKey_session_keys, eapol_sm_get_key, eap_key_available, eap_get_eapKeyData.
  rewrite Ha, Hm. cbn [negb]. rewrite Hz. cbn [Z.ltb Z.eqb Z.compare Pos.compare Pos.compare_cont Pos.eqb].
  change (Z.to_nat 16) with 16%nat. cbn [negb].
  by rewrite (take_ge msk 16), (take_app_length' msk _ 16) by lia.
Qed.

Lemma install_key_wep i k (w : world) :
  has_set_wep_key (ctx (eapol w)) = true ->
  exists l, events (eapol (eapol_sm_install_key i k w))
    = events (eapol w) ++ EvWepKey (negb (Z.land i 128 =? 0)) (Z.land i 3) k :: l.
Proof.
  intros Hc. unfold eapol_sm_install_key. cbv zeta. rewrite Hc. cbn [emit_if andb].
  case_match; [by exists []|]. case_match; [|by case_match; exists []].
  unfold on_eapol, emit_if. cbn [eapol].
  destruct (negb (Z.land i 128 =? 0)); case_match; [exists [EvDone] | exists [] | exists [EvDone] | exists []];
    cbn; by rewrite <- ?app_assoc.
Qed.


End Keys.

(** ** Witnesses and findings *)

(** A machine accepting EAPOL-Key frames, with the session key [msk] and the
    frame [f] received. *)
Definition demo_key_world (msk f : bytes) : world unit eapol_sm :=
  World (demo_idle <| eapKeyAvailable := true |> <| eapKeyData := Some msk |>)
    (eapol_sm_zalloc demo_ctx <| conf := demo_conf |> <| last_rx_key := Some f |>).

(** EAPOL-Key frame with replay counter 1, no key data and the given key
    length. *)
Definition demo_key_frame (key_length : Z) : bytes :=
  [2; 3; 0; 44; 1; 0; key_length] ++ [0; 0; 0; 0; 0; 0; 0; 1] ++ replicate 16 0 ++ [0]
  ++ replicate 16 0.

Lemma eapol_sm_processKey_authentic_witness :
  let w := demo_key_world (replicate 64 7) (demo_key_frame 13) in
  let w' := @eapol_sm_processKey (demo_env (replicate 64 0)) unit w in
  events (eapol w') = [EvWepKey false 0 (replicate 13 7); EvDone]
  /\ (key_part (eapol w') = key_part (eapol w) \/ replay_counter_valid (eapol w') = true).
Proof.
  cbv zeta. split; [reflexivity|].
  destruct (@eapol_sm_processKey_authentic unit (demo_env (replicate 64 0)) (demo_key_world (replicate 64 7) (demo_key_frame 13)))
    as [E|(f & _ & _ & E & _)].
  - discriminate.
  - reflexivity.
  - apply bytes_ok_replicate. done.
  - reflexivity.
  - intros f [= <-]. by repeat constructor.
  - left. exact E.
  - right. exact E.
Defined.


(** Finding: eapol_sm_get_key() reports success for an empty MSK without
    having written the caller's buffer. *)
Lemma get_key_empty_msk `{EE : EapolEnv} {priv} (w : world priv eapol_sm) key n :
  eapKeyAvailable (esm w) = true -> eapKeyData (esm w) = Some [] -> 0 < n ->
  eapol_sm_get_key w key n = (0, key).
Proof.
  intros E1 E2 Hn. unfold eapol_sm_get_key, eap_key_available, eap_get_eapKeyData. rewrite E1, E2.
  cbn. rewrite zlen_nil. by rewrite (proj2 (Z.ltb_lt _ _) Hn).
Qed.

Lemma eapol_sm_rx_eapol_ignored_witness :
  let w := demo_key_world [] [] in
  let buf := [2; 0; 0; 9; 1] in
  esm (@eapol_sm_rx_eapol (demo_env []) _ unit _ _ (replicate 6 0) buf w).2 = esm w.
Proof.
  cbv zeta. apply (@eapol_sm_rx_eapol_ignored unit _ (demo_env []) _ _ (replicate 6 0) [2; 0; 0; 9; 1]
    (demo_key_world [] [])). right. left. reflexivity.
Defined.

Definition demo_held : eapol_sm :=
  eapol_sm_zalloc demo_ctx <| SUPP_PAE_state := SUPP_PAE_AUTHENTICATING |> <| portEnabled := true |>
    <| eapSuccess := true |> <| portValid := true |>.

Lemma SUPP_PAE_Step_authorizes_witness :
  suppPortStatus (@SUPP_PAE_Step (demo_env []) demo_held) = Authorized
  /\ SUPP_PAE_state (@SUPP_PAE_Step (demo_env []) demo_held) = SUPP_PAE_AUTHENTICATED.
Proof.
  split; [reflexivity|].
  destruct (@SUPP_PAE_Step_authorizes (demo_env []) demo_held eq_refl eq_refl) as (_ & _ & [[E _]|[E _]]);
    [exact E|discriminate].
Defined.
