(* ===== verification/WpaDefs.v ===== *)
(** * WPA/RSN definitions

    The bit values of src/common/defs.h and the selectors and field layouts of
    src/common/wpa_common.h, with the predicates on key management suites and
    the tables on cipher suites of src/common/wpa_common.c.  A set of ciphers or
    key management suites is a [Z] used as a bit mask. *)

From S2P Require Import Prelude.

(* common/defs.h WPA_CIPHER_NONE *)
Definition WPA_CIPHER_NONE : Z := 2 ^ 0.
Definition WPA_CIPHER_TKIP : Z := 2 ^ 3.
Definition WPA_CIPHER_CCMP : Z := 2 ^ 4.
Definition WPA_CIPHER_AES_128_CMAC : Z := 2 ^ 5.
Definition WPA_CIPHER_GCMP : Z := 2 ^ 6.
Definition WPA_CIPHER_GCMP_256 : Z := 2 ^ 8.
Definition WPA_CIPHER_CCMP_256 : Z := 2 ^ 9.
Definition WPA_CIPHER_BIP_GMAC_128 : Z := 2 ^ 11.
Definition WPA_CIPHER_BIP_GMAC_256 : Z := 2 ^ 12.
Definition WPA_CIPHER_BIP_CMAC_256 : Z := 2 ^ 13.
Definition WPA_CIPHER_GTK_NOT_USED : Z := 2 ^ 14.

(* common/defs.h WPA_KEY_MGMT_IEEE8021X *)
Definition WPA_KEY_MGMT_IEEE8021X : Z := 2 ^ 0.
Definition WPA_KEY_MGMT_PSK : Z := 2 ^ 1.
Definition WPA_KEY_MGMT_WPA_NONE : Z := 2 ^ 4.
Definition WPA_KEY_MGMT_FT_IEEE8021X : Z := 2 ^ 5.
Definition WPA_KEY_MGMT_FT_PSK : Z := 2 ^ 6.
Definition WPA_KEY_MGMT_IEEE8021X_SHA256 : Z := 2 ^ 7.
Definition WPA_KEY_MGMT_PSK_SHA256 : Z := 2 ^ 8.
Definition WPA_KEY_MGMT_SAE : Z := 2 ^ 10.
Definition WPA_KEY_MGMT_FT_SAE : Z := 2 ^ 11.
Definition WPA_KEY_MGMT_CCKM : Z := 2 ^ 14.
Definition WPA_KEY_MGMT_OSEN : Z := 2 ^ 15.
Definition WPA_KEY_MGMT_IEEE8021X_SUITE_B : Z := 2 ^ 16.
Definition WPA_KEY_MGMT_IEEE8021X_SUITE_B_192 : Z := 2 ^ 17.
Definition WPA_KEY_MGMT_FILS_SHA256 : Z := 2 ^ 18.
Definition WPA_KEY_MGMT_FILS_SHA384 : Z := 2 ^ 19.
Definition WPA_KEY_MGMT_FT_FILS_SHA256 : Z := 2 ^ 20.
Definition WPA_KEY_MGMT_FT_FILS_SHA384 : Z := 2 ^ 21.
Definition WPA_KEY_MGMT_OWE : Z := 2 ^ 22.
Definition WPA_KEY_MGMT_DPP : Z := 2 ^ 23.
Definition WPA_KEY_MGMT_FT_IEEE8021X_SHA384 : Z := 2 ^ 24.

(* common/defs.h WPA_PROTO_WPA *)
Definition WPA_PROTO_WPA : Z := 2 ^ 0.
Definition WPA_PROTO_RSN : Z := 2 ^ 1.
Definition WPA_PROTO_OSEN : Z := 2 ^ 3.

(** [mask & (a | b | ...)] as a C truth value. *)
Definition any_of (mask : Z) (bits : list Z) : bool :=
  negb (Z.land mask (fold_right Z.lor 0 bits) =? 0).
Definition has (mask bit : Z) : bool := any_of mask [bit].

(* common/defs.h #define WPA_KEY_MGMT_FT *)
Definition WPA_KEY_MGMT_FT : list Z :=
  [WPA_KEY_MGMT_FT_PSK; WPA_KEY_MGMT_FT_IEEE8021X; WPA_KEY_MGMT_FT_IEEE8021X_SHA384;
   WPA_KEY_MGMT_FT_SAE; WPA_KEY_MGMT_FT_FILS_SHA256; WPA_KEY_MGMT_FT_FILS_SHA384].

(* common/defs.h wpa_key_mgmt_wpa_ieee8021x *)
Definition wpa_key_mgmt_wpa_ieee8021x (akm : Z) : bool :=
  any_of akm [WPA_KEY_MGMT_IEEE8021X; WPA_KEY_MGMT_FT_IEEE8021X; WPA_KEY_MGMT_FT_IEEE8021X_SHA384;
              WPA_KEY_MGMT_CCKM; WPA_KEY_MGMT_OSEN; WPA_KEY_MGMT_IEEE8021X_SHA256;
              WPA_KEY_MGMT_IEEE8021X_SUITE_B; WPA_KEY_MGMT_IEEE8021X_SUITE_B_192;
              WPA_KEY_MGMT_FILS_SHA256; WPA_KEY_MGMT_FILS_SHA384; WPA_KEY_MGMT_FT_FILS_SHA256;
              WPA_KEY_MGMT_FT_FILS_SHA384].

(* common/defs.h wpa_key_mgmt_wpa_psk *)
Definition wpa_key_mgmt_wpa_psk (akm : Z) : bool :=
  any_of akm [WPA_KEY_MGMT_PSK; WPA_KEY_MGMT_FT_PSK; WPA_KEY_MGMT_PSK_SHA256; WPA_KEY_MGMT_SAE;
              WPA_KEY_MGMT_FT_SAE].

(* common/defs.h wpa_key_mgmt_ft *)
Definition wpa_key_mgmt_ft (akm : Z) : bool := any_of akm WPA_KEY_MGMT_FT.

(* common/defs.h wpa_key_mgmt_sae *)
Definition wpa_key_mgmt_sae (akm : Z) : bool := any_of akm [WPA_KEY_MGMT_SAE; WPA_KEY_MGMT_FT_SAE].

(* common/defs.h wpa_key_mgmt_fils *)
Definition wpa_key_mgmt_fils (akm : Z) : bool :=
  any_of akm [WPA_KEY_MGMT_FILS_SHA256; WPA_KEY_MGMT_FILS_SHA384; WPA_KEY_MGMT_FT_FILS_SHA256;
              WPA_KEY_MGMT_FT_FILS_SHA384].

(* common/defs.h wpa_key_mgmt_sha256 *)
Definition wpa_key_mgmt_sha256 (akm : Z) : bool :=
  any_of akm [WPA_KEY_MGMT_PSK_SHA256; WPA_KEY_MGMT_IEEE8021X_SHA256; WPA_KEY_MGMT_SAE;
              WPA_KEY_MGMT_FT_SAE; WPA_KEY_MGMT_OSEN; WPA_KEY_MGMT_IEEE8021X_SUITE_B;
              WPA_KEY_MGMT_FILS_SHA256; WPA_KEY_MGMT_FT_FILS_SHA256].

(* common/defs.h wpa_key_mgmt_sha384 *)
Definition wpa_key_mgmt_sha384 (akm : Z) : bool :=
  any_of akm [WPA_KEY_MGMT_IEEE8021X_SUITE_B_192; WPA_KEY_MGMT_FT_IEEE8021X_SHA384;
              WPA_KEY_MGMT_FILS_SHA384; WPA_KEY_MGMT_FT_FILS_SHA384].

(* common/defs.h wpa_key_mgmt_suite_b *)
Definition wpa_key_mgmt_suite_b (akm : Z) : bool :=
  any_of akm [WPA_KEY_MGMT_IEEE8021X_SUITE_B; WPA_KEY_MGMT_IEEE8021X_SUITE_B_192].

(* common/defs.h enum wpa_alg *)
Inductive wpa_alg :=
| WPA_ALG_NONE | WPA_ALG_WEP | WPA_ALG_TKIP | WPA_ALG_CCMP | WPA_ALG_BIP_CMAC_128 | WPA_ALG_GCMP
| WPA_ALG_SMS4 | WPA_ALG_KRK | WPA_ALG_GCMP_256 | WPA_ALG_CCMP_256 | WPA_ALG_BIP_GMAC_128
| WPA_ALG_BIP_GMAC_256 | WPA_ALG_BIP_CMAC_256.
#[export] Instance wpa_alg_eq_dec : EqDecision wpa_alg.
Proof. solve_decision. Defined.

(* common/defs.h enum wpa_states *)
Inductive wpa_states :=
| WPA_DISCONNECTED | WPA_INTERFACE_DISABLED | WPA_INACTIVE | WPA_SCANNING | WPA_AUTHENTICATING
| WPA_ASSOCIATING | WPA_ASSOCIATED | WPA_4WAY_HANDSHAKE | WPA_GROUP_HANDSHAKE | WPA_COMPLETED.
#[export] Instance wpa_states_eq_dec : EqDecision wpa_states.
Proof. solve_decision. Defined.

(** ** Lengths and selectors (wpa_common.h) *)

(* wpa_common.h PMKID_LEN *)
Definition PMKID_LEN : Z := 16.
Definition PMK_LEN : Z := 32.
Definition PMK_LEN_SUITE_B_192 : Z := 48.
Definition PMK_LEN_MAX : Z := 64.
Definition WPA_REPLAY_COUNTER_LEN : nat := 8.
Definition WPA_NONCE_LEN : nat := 32.
Definition WPA_GTK_MAX_LEN : Z := 32.
Definition WPA_KCK_MAX_LEN : nat := 32.
Definition WPA_KEK_MAX_LEN : nat := 64.
Definition WPA_TK_MAX_LEN : nat := 32.
Definition WPA_KDK_MAX_LEN : nat := 32.
Definition WPA_IGTK_KDE_PREFIX_LEN : Z := 8.
Definition WPA_BIGTK_KDE_PREFIX_LEN : Z := 8.

Definition ETH_ALEN : nat := 6.

(* wpa_common.h RSN_SELECTOR_LEN *)
Definition RSN_SELECTOR_LEN : Z := 4.
Definition WPA_SELECTOR_LEN : Z := 4.
Definition WPA_VERSION : Z := 1.
Definition RSN_VERSION : Z := 1.

(* wpa_common.h #define RSN_SELECTOR *)
Definition RSN_SELECTOR (a b c d : Z) : Z := ((a * 256 + b) * 256 + c) * 256 + d.

(* wpa_common.h WPA_AUTH_KEY_MGMT_NONE *)
Definition WPA_AUTH_KEY_MGMT_NONE : Z := RSN_SELECTOR 0x00 0x50 0xf2 0.
Definition WPA_AUTH_KEY_MGMT_UNSPEC_802_1X : Z := RSN_SELECTOR 0x00 0x50 0xf2 1.
Definition WPA_AUTH_KEY_MGMT_PSK_OVER_802_1X : Z := RSN_SELECTOR 0x00 0x50 0xf2 2.
Definition WPA_AUTH_KEY_MGMT_CCKM : Z := RSN_SELECTOR 0x00 0x40 0x96 0.
Definition WPA_CIPHER_SUITE_NONE : Z := RSN_SELECTOR 0x00 0x50 0xf2 0.
Definition WPA_CIPHER_SUITE_TKIP : Z := RSN_SELECTOR 0x00 0x50 0xf2 2.
Definition WPA_CIPHER_SUITE_CCMP : Z := RSN_SELECTOR 0x00 0x50 0xf2 4.
Definition RSN_AUTH_KEY_MGMT_UNSPEC_802_1X : Z := RSN_SELECTOR 0x00 0x0f 0xac 1.
Definition RSN_AUTH_KEY_MGMT_PSK_OVER_802_1X : Z := RSN_SELECTOR 0x00 0x0f 0xac 2.
Definition RSN_AUTH_KEY_MGMT_FT_802_1X : Z := RSN_SELECTOR 0x00 0x0f 0xac 3.
Definition RSN_AUTH_KEY_MGMT_FT_PSK : Z := RSN_SELECTOR 0x00 0x0f 0xac 4.
Definition RSN_AUTH_KEY_MGMT_802_1X_SHA256 : Z := RSN_SELECTOR 0x00 0x0f 0xac 5.
Definition RSN_AUTH_KEY_MGMT_PSK_SHA256 : Z := RSN_SELECTOR 0x00 0x0f 0xac 6.
Definition RSN_AUTH_KEY_MGMT_SAE : Z := RSN_SELECTOR 0x00 0x0f 0xac 8.
Definition RSN_AUTH_KEY_MGMT_FT_SAE : Z := RSN_SELECTOR 0x00 0x0f 0xac 9.
Definition RSN_AUTH_KEY_MGMT_802_1X_SUITE_B : Z := RSN_SELECTOR 0x00 0x0f 0xac 11.
Definition RSN_AUTH_KEY_MGMT_802_1X_SUITE_B_192 : Z := RSN_SELECTOR 0x00 0x0f 0xac 12.
Definition RSN_AUTH_KEY_MGMT_FT_802_1X_SHA384 : Z := RSN_SELECTOR 0x00 0x0f 0xac 13.
Definition RSN_AUTH_KEY_MGMT_FILS_SHA256 : Z := RSN_SELECTOR 0x00 0x0f 0xac 14.
Definition RSN_AUTH_KEY_MGMT_FILS_SHA384 : Z := RSN_SELECTOR 0x00 0x0f 0xac 15.
Definition RSN_AUTH_KEY_MGMT_FT_FILS_SHA256 : Z := RSN_SELECTOR 0x00 0x0f 0xac 16.
Definition RSN_AUTH_KEY_MGMT_FT_FILS_SHA384 : Z := RSN_SELECTOR 0x00 0x0f 0xac 17.
Definition RSN_AUTH_KEY_MGMT_OWE : Z := RSN_SELECTOR 0x00 0x0f 0xac 18.
Definition RSN_AUTH_KEY_MGMT_DPP : Z := RSN_SELECTOR 0x50 0x6f 0x9a 0x02.
Definition RSN_AUTH_KEY_MGMT_CCKM : Z := RSN_SELECTOR 0x00 0x40 0x96 0x00.
Definition RSN_AUTH_KEY_MGMT_OSEN : Z := RSN_SELECTOR 0x50 0x6f 0x9a 0x01.
Definition RSN_CIPHER_SUITE_NONE : Z := RSN_SELECTOR 0x00 0x0f 0xac 0.
Definition RSN_CIPHER_SUITE_TKIP : Z := RSN_SELECTOR 0x00 0x0f 0xac 2.
Definition RSN_CIPHER_SUITE_CCMP : Z := RSN_SELECTOR 0x00 0x0f 0xac 4.
Definition RSN_CIPHER_SUITE_AES_128_CMAC : Z := RSN_SELECTOR 0x00 0x0f 0xac 6.
Definition RSN_CIPHER_SUITE_NO_GROUP_ADDRESSED : Z := RSN_SELECTOR 0x00 0x0f 0xac 7.
Definition RSN_CIPHER_SUITE_GCMP : Z := RSN_SELECTOR 0x00 0x0f 0xac 8.
Definition RSN_CIPHER_SUITE_GCMP_256 : Z := RSN_SELECTOR 0x00 0x0f 0xac 9.
Definition RSN_CIPHER_SUITE_CCMP_256 : Z := RSN_SELECTOR 0x00 0x0f 0xac 10.
Definition RSN_CIPHER_SUITE_BIP_GMAC_128 : Z := RSN_SELECTOR 0x00 0x0f 0xac 11.
Definition RSN_CIPHER_SUITE_BIP_GMAC_256 : Z := RSN_SELECTOR 0x00 0x0f 0xac 12.
Definition RSN_CIPHER_SUITE_BIP_CMAC_256 : Z := RSN_SELECTOR 0x00 0x0f 0xac 13.
Definition RSN_KEY_DATA_GROUPKEY : Z := RSN_SELECTOR 0x00 0x0f 0xac 1.
Definition RSN_KEY_DATA_MAC_ADDR : Z := RSN_SELECTOR 0x00 0x0f 0xac 3.
Definition RSN_KEY_DATA_PMKID : Z := RSN_SELECTOR 0x00 0x0f 0xac 4.
Definition RSN_KEY_DATA_IGTK : Z := RSN_SELECTOR 0x00 0x0f 0xac 9.
Definition RSN_KEY_DATA_KEYID : Z := RSN_SELECTOR 0x00 0x0f 0xac 10.
Definition RSN_KEY_DATA_OCI : Z := RSN_SELECTOR 0x00 0x0f 0xac 13.
Definition RSN_KEY_DATA_BIGTK : Z := RSN_SELECTOR 0x00 0x0f 0xac 14.
Definition WFA_KEY_DATA_IP_ADDR_REQ : Z := RSN_SELECTOR 0x50 0x6f 0x9a 4.
Definition WFA_KEY_DATA_IP_ADDR_ALLOC : Z := RSN_SELECTOR 0x50 0x6f 0x9a 5.
Definition WFA_KEY_DATA_TRANSITION_DISABLE : Z := RSN_SELECTOR 0x50 0x6f 0x9a 0x20.
Definition WFA_KEY_DATA_DPP : Z := RSN_SELECTOR 0x50 0x6f 0x9a 0x21.
Definition WPA_OUI_TYPE : Z := RSN_SELECTOR 0x00 0x50 0xf2 1.

(* ieee802_11_defs.h OSEN_IE_VENDOR_TYPE *)
Definition OSEN_IE_VENDOR_TYPE : Z := 0x506f9a12.

(* wpa_common.h WPA_CAPABILITY_MFPR *)
Definition WPA_CAPABILITY_MFPR : Z := 2 ^ 6.
Definition WPA_CAPABILITY_MFPC : Z := 2 ^ 7.
Definition WPA_CAPABILITY_EXT_KEY_ID_FOR_UNICAST : Z := 2 ^ 13.
Definition WPA_CAPABILITY_OCVC : Z := 2 ^ 14.

(* wpa_common.h WPA_KEY_INFO_TYPE_AKM_DEFINED *)
Definition WPA_KEY_INFO_TYPE_AKM_DEFINED : Z := 0.
Definition WPA_KEY_INFO_TYPE_HMAC_MD5_RC4 : Z := 2 ^ 0.
Definition WPA_KEY_INFO_TYPE_HMAC_SHA1_AES : Z := 2 ^ 1.
Definition WPA_KEY_INFO_TYPE_AES_128_CMAC : Z := 3.
Definition WPA_KEY_INFO_KEY_TYPE : Z := 2 ^ 3.
Definition WPA_KEY_INFO_KEY_INDEX_MASK : Z := 0x30.
Definition WPA_KEY_INFO_KEY_INDEX_SHIFT : Z := 4.
Definition WPA_KEY_INFO_INSTALL : Z := 2 ^ 6.
Definition WPA_KEY_INFO_TXRX : Z := 2 ^ 6.
Definition WPA_KEY_INFO_ACK : Z := 2 ^ 7.
Definition WPA_KEY_INFO_MIC : Z := 2 ^ 8.
Definition WPA_KEY_INFO_SECURE : Z := 2 ^ 9.
Definition WPA_KEY_INFO_ERROR : Z := 2 ^ 10.
Definition WPA_KEY_INFO_REQUEST : Z := 2 ^ 11.
Definition WPA_KEY_INFO_ENCR_KEY_DATA : Z := 2 ^ 12.
Definition WPA_KEY_INFO_SMK_MESSAGE : Z := 2 ^ 13.
Definition WPA_KEY_INFO_TYPE_MASK : Z := 7.
