(* ===== verification/WpaCommon.v ===== *)
(** * Common WPA/RSN functions (src/common/wpa_common.c)

    The tables on cipher suites and key management suites, the EAPOL-Key MIC,
    the PTK and PMKID derivations, and the comparison of RSN elements.  The key
    lengths of struct wpa_ptk are kept apart from the fixed-size arrays, as in
    the code, because the derivation writes the lengths before it can fail.

    Build options: CONFIG_SAE, CONFIG_SUITEB, CONFIG_SUITEB192 and CONFIG_SHA384
    on; CONFIG_IEEE80211R, CONFIG_FILS, CONFIG_OWE, CONFIG_DPP, CONFIG_HS20,
    CONFIG_PASN, CONFIG_FIPS and CONFIG_NO_TKIP off. *)

From S2P Require Import Prelude WpaDefs Crypto CryptoDemo.

(** ** Cipher suites *)

(* wpa_common.c wpa_cipher_key_len *)
Definition wpa_cipher_key_len (cipher : Z) : Z :=
  if cipher =? WPA_CIPHER_CCMP_256 then 32
  else if cipher =? WPA_CIPHER_GCMP_256 then 32
  else if cipher =? WPA_CIPHER_BIP_GMAC_256 then 32
  else if cipher =? WPA_CIPHER_BIP_CMAC_256 then 32
  else if cipher =? WPA_CIPHER_CCMP then 16
  else if cipher =? WPA_CIPHER_GCMP then 16
  else if cipher =? WPA_CIPHER_AES_128_CMAC then 16
  else if cipher =? WPA_CIPHER_BIP_GMAC_128 then 16
  else if cipher =? WPA_CIPHER_TKIP then 32
  else 0.

(* wpa_common.c wpa_cipher_rsc_len *)
Definition wpa_cipher_rsc_len (cipher : Z) : nat :=
  if bool_decide (cipher ∈ [WPA_CIPHER_CCMP_256; WPA_CIPHER_GCMP_256; WPA_CIPHER_CCMP;
                            WPA_CIPHER_GCMP; WPA_CIPHER_TKIP]) then 6%nat else 0%nat.

(* wpa_common.c wpa_cipher_to_alg *)
Definition wpa_cipher_to_alg (cipher : Z) : wpa_alg :=
  if cipher =? WPA_CIPHER_CCMP_256 then WPA_ALG_CCMP_256
  else if cipher =? WPA_CIPHER_GCMP_256 then WPA_ALG_GCMP_256
  else if cipher =? WPA_CIPHER_CCMP then WPA_ALG_CCMP
  else if cipher =? WPA_CIPHER_GCMP then WPA_ALG_GCMP
  else if cipher =? WPA_CIPHER_TKIP then WPA_ALG_TKIP
  else if cipher =? WPA_CIPHER_AES_128_CMAC then WPA_ALG_BIP_CMAC_128
  else if cipher =? WPA_CIPHER_BIP_GMAC_128 then WPA_ALG_BIP_GMAC_128
  else if cipher =? WPA_CIPHER_BIP_GMAC_256 then WPA_ALG_BIP_GMAC_256
  else if cipher =? WPA_CIPHER_BIP_CMAC_256 then WPA_ALG_BIP_CMAC_256
  else WPA_ALG_NONE.

(* wpa_common.c wpa_cipher_valid_pairwise *)
Definition wpa_cipher_valid_pairwise (cipher : Z) : bool :=
  (cipher =? WPA_CIPHER_CCMP_256) || (cipher =? WPA_CIPHER_GCMP_256)
  || (cipher =? WPA_CIPHER_CCMP) || (cipher =? WPA_CIPHER_GCMP) || (cipher =? WPA_CIPHER_TKIP).

(* wpa_common.c wpa_cipher_valid_group *)
Definition wpa_cipher_valid_group (cipher : Z) : bool :=
  wpa_cipher_valid_pairwise cipher || (cipher =? WPA_CIPHER_GTK_NOT_USED).

(* wpa_common.c wpa_cipher_valid_mgmt_group *)
Definition wpa_cipher_valid_mgmt_group (cipher : Z) : bool :=
  (cipher =? WPA_CIPHER_GTK_NOT_USED) || (cipher =? WPA_CIPHER_AES_128_CMAC)
  || (cipher =? WPA_CIPHER_BIP_GMAC_128) || (cipher =? WPA_CIPHER_BIP_GMAC_256)
  || (cipher =? WPA_CIPHER_BIP_CMAC_256).

(* wpa_common.c wpa_cipher_to_suite *)
Definition wpa_cipher_to_suite (proto cipher : Z) : Z :=
  let rsn := proto =? WPA_PROTO_RSN in
  if has cipher WPA_CIPHER_CCMP_256 then RSN_CIPHER_SUITE_CCMP_256
  else if has cipher WPA_CIPHER_GCMP_256 then RSN_CIPHER_SUITE_GCMP_256
  else if has cipher WPA_CIPHER_CCMP then
    if rsn then RSN_CIPHER_SUITE_CCMP else WPA_CIPHER_SUITE_CCMP
  else if has cipher WPA_CIPHER_GCMP then RSN_CIPHER_SUITE_GCMP
  else if has cipher WPA_CIPHER_TKIP then
    if rsn then RSN_CIPHER_SUITE_TKIP else WPA_CIPHER_SUITE_TKIP
  else if has cipher WPA_CIPHER_NONE then
    if rsn then RSN_CIPHER_SUITE_NONE else WPA_CIPHER_SUITE_NONE
  else if has cipher WPA_CIPHER_GTK_NOT_USED then RSN_CIPHER_SUITE_NO_GROUP_ADDRESSED
  else if has cipher WPA_CIPHER_AES_128_CMAC then RSN_CIPHER_SUITE_AES_128_CMAC
  else if has cipher WPA_CIPHER_BIP_GMAC_128 then RSN_CIPHER_SUITE_BIP_GMAC_128
  else if has cipher WPA_CIPHER_BIP_GMAC_256 then RSN_CIPHER_SUITE_BIP_GMAC_256
  else if has cipher WPA_CIPHER_BIP_CMAC_256 then RSN_CIPHER_SUITE_BIP_CMAC_256
  else 0.

(** [if (ciphers & c) { RSN_SELECTOR_PUT(pos, suite); pos += 4; }] for each pair. *)
Definition put_suites (l : list (Z * Z)) (ciphers : Z) : bytes :=
  concat ((fun cs => if has ciphers cs.1 then put_be32 cs.2 else []) <$> l).

(* wpa_common.c rsn_cipher_put_suites *)
Definition rsn_cipher_put_suites (ciphers : Z) : bytes * Z :=
  let start := put_suites [(WPA_CIPHER_CCMP_256, RSN_CIPHER_SUITE_CCMP_256);
                           (WPA_CIPHER_GCMP_256, RSN_CIPHER_SUITE_GCMP_256);
                           (WPA_CIPHER_CCMP, RSN_CIPHER_SUITE_CCMP);
                           (WPA_CIPHER_GCMP, RSN_CIPHER_SUITE_GCMP);
                           (WPA_CIPHER_TKIP, RSN_CIPHER_SUITE_TKIP);
                           (WPA_CIPHER_NONE, RSN_CIPHER_SUITE_NONE)] ciphers in
  (start, zlen start / RSN_SELECTOR_LEN).

(* wpa_common.c wpa_cipher_put_suites *)
Definition wpa_cipher_put_suites (ciphers : Z) : bytes * Z :=
  let start := put_suites [(WPA_CIPHER_CCMP, WPA_CIPHER_SUITE_CCMP);
                           (WPA_CIPHER_TKIP, WPA_CIPHER_SUITE_TKIP);
                           (WPA_CIPHER_NONE, WPA_CIPHER_SUITE_NONE)] ciphers in
  (start, zlen start / RSN_SELECTOR_LEN).

(** The first cipher of a preference list that is in the mask. *)
Definition pick (prefs : list Z) (ciphers : Z) : option Z :=
  snd <$> list_find (fun c => has ciphers c = true) prefs.

(* wpa_common.c wpa_pick_pairwise_cipher *)
Definition wpa_pick_pairwise_cipher (ciphers : Z) (none_allowed : bool) : Z :=
  match pick [WPA_CIPHER_CCMP_256; WPA_CIPHER_GCMP_256; WPA_CIPHER_CCMP; WPA_CIPHER_GCMP;
              WPA_CIPHER_TKIP] ciphers with
  | Some c => c
  | None => if none_allowed && has ciphers WPA_CIPHER_NONE then WPA_CIPHER_NONE else -1
  end.

(* wpa_common.c wpa_pick_group_cipher *)
Definition wpa_pick_group_cipher (ciphers : Z) : Z :=
  default (-1) (pick [WPA_CIPHER_CCMP_256; WPA_CIPHER_GCMP_256; WPA_CIPHER_CCMP;
                      WPA_CIPHER_GCMP; WPA_CIPHER_GTK_NOT_USED; WPA_CIPHER_TKIP] ciphers).

(* wpa_common.c wpa_select_ap_group_cipher *)
Definition wpa_select_ap_group_cipher (wpa wpa_pairwise rsn_pairwise : Z) : Z :=
  let pairwise := if has wpa 1 then wpa_pairwise else 0 in
  let pairwise := if has wpa 2 then Z.lor pairwise rsn_pairwise else pairwise in
  let m l := Z.land pairwise (fold_right Z.lor 0 l) in
  if has pairwise WPA_CIPHER_TKIP then WPA_CIPHER_TKIP
  else if m [WPA_CIPHER_CCMP; WPA_CIPHER_GCMP] =? WPA_CIPHER_GCMP then WPA_CIPHER_GCMP
  else if m [WPA_CIPHER_GCMP_256; WPA_CIPHER_CCMP; WPA_CIPHER_GCMP] =? WPA_CIPHER_GCMP_256
  then WPA_CIPHER_GCMP_256
  else if m [WPA_CIPHER_CCMP_256; WPA_CIPHER_CCMP; WPA_CIPHER_GCMP] =? WPA_CIPHER_CCMP_256
  then WPA_CIPHER_CCMP_256
  else WPA_CIPHER_CCMP.

(* wpa_common.c wpa_default_rsn_cipher *)
Definition wpa_default_rsn_cipher (freq : Z) : Z :=
  if 56160 <? freq then WPA_CIPHER_GCMP else WPA_CIPHER_CCMP.

(** ** Key management suites *)

(* wpa_common.c wpa_kck_len *)
Definition wpa_kck_len (akmp pmk_len : Z) : Z :=
  if (akmp =? WPA_KEY_MGMT_IEEE8021X_SUITE_B_192) || (akmp =? WPA_KEY_MGMT_FT_IEEE8021X_SHA384)
  then 24
  else if (akmp =? WPA_KEY_MGMT_FILS_SHA256) || (akmp =? WPA_KEY_MGMT_FT_FILS_SHA256)
          || (akmp =? WPA_KEY_MGMT_FILS_SHA384) || (akmp =? WPA_KEY_MGMT_FT_FILS_SHA384) then 0
  else if (akmp =? WPA_KEY_MGMT_DPP) || (akmp =? WPA_KEY_MGMT_OWE) then pmk_len / 2
  else 16.

(* wpa_common.c wpa_kek_len *)
Definition wpa_kek_len (akmp pmk_len : Z) : Z :=
  if (akmp =? WPA_KEY_MGMT_FILS_SHA384) || (akmp =? WPA_KEY_MGMT_FT_FILS_SHA384) then 64
  else if (akmp =? WPA_KEY_MGMT_IEEE8021X_SUITE_B_192) || (akmp =? WPA_KEY_MGMT_FILS_SHA256)
          || (akmp =? WPA_KEY_MGMT_FT_FILS_SHA256) || (akmp =? WPA_KEY_MGMT_FT_IEEE8021X_SHA384)
  then 32
  else if (akmp =? WPA_KEY_MGMT_DPP) || (akmp =? WPA_KEY_MGMT_OWE) then
    if pmk_len <=? 32 then 16 else 32
  else 16.

(* wpa_common.c wpa_mic_len *)
Definition wpa_mic_len (akmp pmk_len : Z) : Z :=
  if (akmp =? WPA_KEY_MGMT_IEEE8021X_SUITE_B_192) || (akmp =? WPA_KEY_MGMT_FT_IEEE8021X_SHA384)
  then 24
  else if (akmp =? WPA_KEY_MGMT_FILS_SHA256) || (akmp =? WPA_KEY_MGMT_FILS_SHA384)
          || (akmp =? WPA_KEY_MGMT_FT_FILS_SHA256) || (akmp =? WPA_KEY_MGMT_FT_FILS_SHA384) then 0
  else if (akmp =? WPA_KEY_MGMT_DPP) || (akmp =? WPA_KEY_MGMT_OWE) then pmk_len / 2
  else 16.

(* wpa_common.c wpa_use_akm_defined *)
Definition wpa_use_akm_defined (akmp : Z) : bool :=
  (akmp =? WPA_KEY_MGMT_OSEN) || (akmp =? WPA_KEY_MGMT_OWE) || (akmp =? WPA_KEY_MGMT_DPP)
  || (akmp =? WPA_KEY_MGMT_FT_IEEE8021X_SHA384) || wpa_key_mgmt_sae akmp
  || wpa_key_mgmt_suite_b akmp || wpa_key_mgmt_fils akmp.

(* wpa_common.c wpa_use_cmac *)
Definition wpa_use_cmac (akmp : Z) : bool :=
  (akmp =? WPA_KEY_MGMT_OSEN) || (akmp =? WPA_KEY_MGMT_OWE) || (akmp =? WPA_KEY_MGMT_DPP)
  || wpa_key_mgmt_ft akmp || wpa_key_mgmt_sha256 akmp || wpa_key_mgmt_sae akmp
  || wpa_key_mgmt_suite_b akmp.

(* wpa_common.c wpa_use_aes_key_wrap *)
Definition wpa_use_aes_key_wrap (akmp : Z) : bool :=
  (akmp =? WPA_KEY_MGMT_OSEN) || (akmp =? WPA_KEY_MGMT_OWE) || (akmp =? WPA_KEY_MGMT_DPP)
  || wpa_key_mgmt_ft akmp || wpa_key_mgmt_sha256 akmp || wpa_key_mgmt_sae akmp
  || wpa_key_mgmt_suite_b akmp.

(* wpa_common.c wpa_akm_to_suite *)
Definition wpa_akm_to_suite (akm : Z) : Z :=
  if has akm WPA_KEY_MGMT_FT_IEEE8021X_SHA384 then RSN_AUTH_KEY_MGMT_FT_802_1X_SHA384
  else if has akm WPA_KEY_MGMT_FT_IEEE8021X then RSN_AUTH_KEY_MGMT_FT_802_1X
  else if has akm WPA_KEY_MGMT_FT_PSK then RSN_AUTH_KEY_MGMT_FT_PSK
  else if has akm WPA_KEY_MGMT_IEEE8021X_SHA256 then RSN_AUTH_KEY_MGMT_802_1X_SHA256
  else if has akm WPA_KEY_MGMT_IEEE8021X then RSN_AUTH_KEY_MGMT_UNSPEC_802_1X
  else if has akm WPA_KEY_MGMT_PSK_SHA256 then RSN_AUTH_KEY_MGMT_PSK_SHA256
  else if has akm WPA_KEY_MGMT_PSK then RSN_AUTH_KEY_MGMT_PSK_OVER_802_1X
  else if has akm WPA_KEY_MGMT_CCKM then RSN_AUTH_KEY_MGMT_CCKM
  else if has akm WPA_KEY_MGMT_OSEN then RSN_AUTH_KEY_MGMT_OSEN
  else if has akm WPA_KEY_MGMT_IEEE8021X_SUITE_B then RSN_AUTH_KEY_MGMT_802_1X_SUITE_B
  else if has akm WPA_KEY_MGMT_IEEE8021X_SUITE_B_192 then RSN_AUTH_KEY_MGMT_802_1X_SUITE_B_192
  else if has akm WPA_KEY_MGMT_FILS_SHA256 then RSN_AUTH_KEY_MGMT_FILS_SHA256
  else if has akm WPA_KEY_MGMT_FILS_SHA384 then RSN_AUTH_KEY_MGMT_FILS_SHA384
  else if has akm WPA_KEY_MGMT_FT_FILS_SHA256 then RSN_AUTH_KEY_MGMT_FT_FILS_SHA256
  else if has akm WPA_KEY_MGMT_FT_FILS_SHA384 then RSN_AUTH_KEY_MGMT_FT_FILS_SHA384
  else if has akm WPA_KEY_MGMT_SAE then RSN_AUTH_KEY_MGMT_SAE
  else if has akm WPA_KEY_MGMT_FT_SAE then RSN_AUTH_KEY_MGMT_FT_SAE
  else if has akm WPA_KEY_MGMT_OWE then RSN_AUTH_KEY_MGMT_OWE
  else if has akm WPA_KEY_MGMT_DPP then RSN_AUTH_KEY_MGMT_DPP
  else 0.

(** ** Pairwise keys *)

(* wpa_common.h struct wpa_ptk *)
Record wpa_ptk := WpaPtk {
  kck : bytes;
  kek : bytes;
  tk : bytes;
  kdk : bytes;
  kck_len : Z;
  kek_len : Z;
  tk_len : Z;
  kdk_len : Z;
  installed : bool
}.
#[export] Instance eta_wpa_ptk : Eta wpa_ptk := fun p =>
  WpaPtk (kck p) (kek p) (tk p) (kdk p) (kck_len p) (kek_len p) (tk_len p) (kdk_len p)
    (installed p).
#[export] Instance wpa_ptk_eq_dec : EqDecision wpa_ptk.
Proof. solve_decision. Defined.

(** A struct wpa_ptk of zero bytes. *)
Definition ptk_zero : wpa_ptk :=
  WpaPtk (replicate WPA_KCK_MAX_LEN 0) (replicate WPA_KEK_MAX_LEN 0) (replicate WPA_TK_MAX_LEN 0)
    (replicate WPA_KDK_MAX_LEN 0) 0 0 0 0 false.

Section Keys.
Context `{Hmac}.

(** The key of [len] bytes at the start of its array. *)
Definition key_of (arr : bytes) (len : Z) : bytes := take (Z.to_nat len) arr.

(* wpa_common.c wpa_eapol_key_mic *)
Definition wpa_eapol_key_mic (key : bytes) (akmp ver : Z) (buf : bytes) : option bytes :=
  if zlen key =? 0 then None else
  if ver =? WPA_KEY_INFO_TYPE_HMAC_MD5_RC4 then hmac_md5 key buf
  else if ver =? WPA_KEY_INFO_TYPE_HMAC_SHA1_AES then
    let? hash := hmac_sha1 key buf in Some (take MD5_MAC_LEN hash)
  else if ver =? WPA_KEY_INFO_TYPE_AES_128_CMAC then omac1_aes_128 key buf
  else if ver =? WPA_KEY_INFO_TYPE_AKM_DEFINED then
    if (akmp =? WPA_KEY_MGMT_SAE) || (akmp =? WPA_KEY_MGMT_FT_SAE) then omac1_aes_128 key buf
    else if akmp =? WPA_KEY_MGMT_IEEE8021X_SUITE_B then
      let? hash := hmac_sha256 key buf in Some (take MD5_MAC_LEN hash)
    else if akmp =? WPA_KEY_MGMT_IEEE8021X_SUITE_B_192 then
      let? hash := hmac_sha384 key buf in Some (take 24 hash)
    else None
  else None.

(** The smaller buffer first, by memcmp(): [os_memcmp(a, b, len) < 0]. *)
Definition in_order (a b : bytes) : bytes := if memcmp a b <? 0 then a ++ b else b ++ a.

(* wpa_common.c wpa_pmk_to_ptk @377-398 *)
Definition ptk_context (addr1 addr2 nonce1 nonce2 z : bytes) : bytes :=
  in_order addr1 addr2 ++ in_order nonce1 nonce2 ++ z.

(* wpa_common.c wpa_pmk_to_ptk @419-481 *)
Definition ptk_prf (akmp : Z) (pmk label data : bytes) (n : nat) : option bytes :=
  if wpa_key_mgmt_sha384 akmp then sha384_prf pmk label data n
  else if wpa_key_mgmt_sha256 akmp then sha256_prf pmk label data n
  else sha1_prf pmk label data n.

(* wpa_common.c wpa_pmk_to_ptk *)
Definition wpa_pmk_to_ptk (pmk label addr1 addr2 nonce1 nonce2 : bytes) (ptk : wpa_ptk)
    (akmp cipher : Z) (z : bytes) (kdklen : Z) : bool * wpa_ptk :=
  if zlen pmk =? 0 then (false, ptk) else
  if 66 <? zlen z then (false, ptk) else
  let data := ptk_context addr1 addr2 nonce1 nonce2 z in
  if Z.of_nat WPA_KDK_MAX_LEN <? kdklen then (false, ptk) else
  let ptk := ptk <| kck_len := wpa_kck_len akmp (zlen pmk) |>
                 <| kek_len := wpa_kek_len akmp (zlen pmk) |>
                 <| tk_len := wpa_cipher_key_len cipher |> <| kdk_len := kdklen |> in
  if tk_len ptk =? 0 then (false, ptk) else
  let n1 := Z.to_nat (kck_len ptk) in
  let n2 := Z.to_nat (kek_len ptk) in
  let n3 := Z.to_nat (tk_len ptk) in
  let n4 := Z.to_nat (kdk_len ptk) in
  match ptk_prf akmp pmk label data (n1 + n2 + n3 + n4) with
  | None => (false, ptk)
  | Some tmp =>
      let ptk := ptk <| kck := overwrite (kck ptk) (slice 0 n1 tmp) |>
                     <| kek := overwrite (kek ptk) (slice n1 n2 tmp) |>
                     <| tk := overwrite (tk ptk) (slice (n1 + n2) n3 tmp) |> in
      (true, if kdklen =? 0 then ptk
             else ptk <| kdk := overwrite (kdk ptk) (slice (n1 + n2 + n3) n4 tmp) |>)
  end.

(** "PMK Name" *)
Definition pmk_name : bytes := [80; 77; 75; 32; 78; 97; 109; 101].

(* wpa_common.c rsn_pmkid *)
Definition rsn_pmkid (pmk aa spa : bytes) (akmp : Z) : bytes :=
  let addr := [pmk_name; aa; spa] in
  let hash :=
    if wpa_key_mgmt_sha384 akmp then hmac_sha384_vector pmk addr
    else if wpa_key_mgmt_sha256 akmp then hmac_sha256_vector pmk addr
    else hmac_sha1_vector pmk addr in
  take (Z.to_nat PMKID_LEN) (default hash_stack hash).

(* wpa_common.c rsn_pmkid_suite_b *)
Definition rsn_pmkid_suite_b (kck aa spa : bytes) : option bytes :=
  let? hash := hmac_sha256_vector kck [pmk_name; aa; spa] in
  Some (take (Z.to_nat PMKID_LEN) hash).

(* wpa_common.c rsn_pmkid_suite_b_192 *)
Definition rsn_pmkid_suite_b_192 (kck aa spa : bytes) : option bytes :=
  let? hash := hmac_sha384_vector kck [pmk_name; aa; spa] in
  Some (take (Z.to_nat PMKID_LEN) hash).
End Keys.

(* wpa_common.c wpa_compare_rsn_ie *)
Definition wpa_compare_rsn_ie (ie1 ie2 : option bytes) : Z :=
  match ie1, ie2 with
  | Some ie1, Some ie2 => if bool_decide (ie1 = ie2) then 0 else -1
  | _, _ => -1
  end.

(** ** Properties of the derivations *)

Lemma memcmp_antisym a b : memcmp b a = - memcmp a b.
Proof.
  revert b. induction a as [|x a IH]; intros [|y b]; simpl; try done.
  rewrite Z.eqb_sym. destruct (x =? y); [apply IH | lia].
Qed.

Lemma memcmp_eq a b : length a = length b -> memcmp a b = 0 -> a = b.
Proof.
  revert b. induction a as [|x a IH]; intros [|y b] Hl; simpl in *; try discriminate; [done|].
  destruct (Z.eqb_spec x y) as [-> | Hne]; [|lia]. intros. f_equal. auto.
Qed.

Lemma in_order_comm a b : length a = length b -> in_order a b = in_order b a.
Proof.
  intros Hl. unfold in_order. rewrite (memcmp_antisym a b).
  destruct (Z.ltb_spec (memcmp a b) 0), (Z.ltb_spec (- memcmp a b) 0); try lia; [done | done|].
  rewrite (memcmp_eq a b) by (done || lia). done.
Qed.

Section KeyProps.
Context `{HmacLaws}.

Lemma sha1_prf_spec key label data n r :
  sha1_prf key label data n = Some r -> length r = n /\ bytes_ok r.
Proof.
  apply prf_loop_spec; [unfold SHA1_MAC_LEN; lia | | done].
  intros c d. apply hmac_sha1_law.
Qed.

Lemma kdf_bits_spec mac_len hmac key label data n r :
  (0 < mac_len)%nat -> digest_law mac_len hmac ->
  kdf_bits mac_len hmac key label data (Z.of_nat n * 8) = Some r -> length r = n /\ bytes_ok r.
Proof.
  intros Hm Hlaw. unfold kdf_bits, mask_last.
  rewrite Z.mod_mul, Z.eqb_refl by lia.
  replace ((Z.of_nat n * 8 + 7) / 8) with (Z.of_nat n) by (Z.div_mod_to_equations; lia).
  rewrite Nat2Z.id.
  destruct (prf_loop _ _ _ _ _ _) as [buf|] eqn:E; [|discriminate]. intros [= <-].
  revert E. apply prf_loop_spec; [done | | done]. intros c d. apply Hlaw.
Qed.

Lemma ptk_prf_spec akmp pmk label data n r :
  ptk_prf akmp pmk label data n = Some r -> length r = n /\ bytes_ok r.
Proof.
  unfold ptk_prf. destruct (wpa_key_mgmt_sha384 akmp).
  { apply kdf_bits_spec; [unfold SHA384_MAC_LEN; lia | apply hmac_sha384_law]. }
  destruct (wpa_key_mgmt_sha256 akmp).
  { apply kdf_bits_spec; [unfold SHA256_MAC_LEN; lia | apply hmac_sha256_law]. }
  apply sha1_prf_spec.
Qed.

Lemma wpa_kck_len_range akmp n : 0 <= n <= 64 -> 0 <= wpa_kck_len akmp n <= 32.
Proof. intros. unfold wpa_kck_len. repeat case_match; Z.div_mod_to_equations; lia. Qed.
Lemma wpa_kek_len_range akmp n : 0 <= wpa_kek_len akmp n <= 64.
Proof. unfold wpa_kek_len. repeat case_match; lia. Qed.
Lemma wpa_cipher_key_len_range cipher : 0 <= wpa_cipher_key_len cipher <= 32.
Proof. unfold wpa_cipher_key_len. repeat case_match; lia. Qed.

(** The arrays of struct wpa_ptk have their sizes, and the lengths stay inside. *)
Record ptk_wf (p : wpa_ptk) : Prop := {
  wf_kck : length (kck p) = WPA_KCK_MAX_LEN;
  wf_kek : length (kek p) = WPA_KEK_MAX_LEN;
  wf_tk : length (tk p) = WPA_TK_MAX_LEN;
  wf_kdk : length (kdk p) = WPA_KDK_MAX_LEN;
  wf_kck_len : 0 <= kck_len p <= 32;
  wf_kek_len : 0 <= kek_len p <= 64;
  wf_tk_len : 0 <= tk_len p <= 32;
  wf_kdk_len : 0 <= kdk_len p <= 32
}.

Lemma ptk_zero_wf : ptk_wf ptk_zero.
Proof. now split. Qed.

Lemma wpa_pmk_to_ptk_installed pmk label a1 a2 n1 n2 ptk akmp cipher z kl :
  installed (wpa_pmk_to_ptk pmk label a1 a2 n1 n2 ptk akmp cipher z kl).2 = installed ptk.
Proof. unfold wpa_pmk_to_ptk. repeat case_match; done. Qed.

Lemma wpa_pmk_to_ptk_wf pmk label a1 a2 n1 n2 ptk akmp cipher z kl :
  zlen pmk <= 64 -> 0 <= kl -> ptk_wf ptk ->
  ptk_wf (wpa_pmk_to_ptk pmk label a1 a2 n1 n2 ptk akmp cipher z kl).2.
Proof.
  intros Hp Hkl Hwf. pose proof (zlen_nonneg pmk) as Hp0.
  pose proof (wpa_kck_len_range akmp (zlen pmk) ltac:(lia)).
  pose proof (wpa_kek_len_range akmp (zlen pmk)). pose proof (wpa_cipher_key_len_range cipher).
  destruct Hwf. unfold wpa_pmk_to_ptk.
  destruct (zlen pmk =? 0); [done|]. destruct (66 <? zlen z); [done|].
  destruct (Z.ltb_spec (Z.of_nat WPA_KDK_MAX_LEN) kl) as [|Hk]; [done|].
  unfold WPA_KDK_MAX_LEN in Hk. cbn [tk_len over kck_len kek_len kdk_len].
  destruct (wpa_cipher_key_len cipher =? 0); [now split|].
  destruct (ptk_prf _ _ _ _ _) as [tmp|] eqn:E; [|now split].
  apply ptk_prf_spec in E as [El _].
  assert (forall off len, (off + len <= length tmp)%nat -> length (slice off len tmp) = len) as Hs
    by (intros; now apply length_slice).
  unfold WPA_KCK_MAX_LEN, WPA_KEK_MAX_LEN, WPA_TK_MAX_LEN, WPA_KDK_MAX_LEN in *.
  cbn [snd]. destruct (kl =? 0); split; cbn [kck kek tk kdk kck_len kek_len tk_len kdk_len over];
    try lia; try done; (rewrite length_overwrite; [done | rewrite Hs; lia]).
Qed.

(** The result of a successful derivation. *)
Lemma wpa_pmk_to_ptk_success pmk label a1 a2 n1 n2 ptk akmp cipher z kl ptk' :
  zlen pmk <= 64 -> 0 <= kl -> ptk_wf ptk ->
  wpa_pmk_to_ptk pmk label a1 a2 n1 n2 ptk akmp cipher z kl = (true, ptk') ->
  ptk_wf ptk' /\ installed ptk' = installed ptk
  /\ kck_len ptk' = wpa_kck_len akmp (zlen pmk) /\ kek_len ptk' = wpa_kek_len akmp (zlen pmk)
  /\ tk_len ptk' = wpa_cipher_key_len cipher /\ kdk_len ptk' = kl
  /\ ptk_prf akmp pmk label (ptk_context a1 a2 n1 n2 z)
       (Z.to_nat (kck_len ptk' + kek_len ptk' + tk_len ptk' + kdk_len ptk'))
     = Some (key_of (kck ptk') (kck_len ptk') ++ key_of (kek ptk') (kek_len ptk')
             ++ key_of (tk ptk') (tk_len ptk') ++ key_of (kdk ptk') (kdk_len ptk')).
Proof.
  intros Hp Hkl Hwf Heq.
  pose proof (wpa_pmk_to_ptk_wf pmk label a1 a2 n1 n2 ptk akmp cipher z kl Hp Hkl Hwf) as Hwf'.
  pose proof (wpa_pmk_to_ptk_installed pmk label a1 a2 n1 n2 ptk akmp cipher z kl) as Hin.
  rewrite Heq in Hwf', Hin. cbn [snd] in Hwf', Hin. split; [done|]. split; [done|].
  revert Heq. unfold wpa_pmk_to_ptk.
  destruct (zlen pmk =? 0); [discriminate|]. destruct (66 <? zlen z); [discriminate|].
  destruct (Z.of_nat WPA_KDK_MAX_LEN <? kl); [discriminate|].
  cbn [tk_len over kck_len kek_len kdk_len].
  destruct (wpa_cipher_key_len cipher =? 0); [discriminate|].
  pose proof (zlen_nonneg pmk).
  pose proof (wpa_kck_len_range akmp (zlen pmk) ltac:(lia)).
  pose proof (wpa_kek_len_range akmp (zlen pmk)). pose proof (wpa_cipher_key_len_range cipher).
  destruct (ptk_prf _ _ _ _ _) as [tmp|] eqn:E; [|discriminate].
  pose proof (ptk_prf_spec _ _ _ _ _ _ E) as [El _].
  set (k1 := Z.to_nat (wpa_kck_len akmp (zlen pmk))) in *.
  set (k2 := Z.to_nat (wpa_kek_len akmp (zlen pmk))) in *.
  set (k3 := Z.to_nat (wpa_cipher_key_len cipher)) in *.
  set (k4 := Z.to_nat kl) in *.
  assert (tmp = slice 0 k1 tmp ++ slice k1 k2 tmp ++ slice (k1 + k2) k3 tmp
                ++ slice (k1 + k2 + k3) k4 tmp) as Hcut by now apply cut4.
  intros [= <-].
  assert (Z.to_nat (wpa_kck_len akmp (zlen pmk) + wpa_kek_len akmp (zlen pmk)
                    + wpa_cipher_key_len cipher + kl) = (k1 + k2 + k3 + k4)%nat) as Hsum by lia.
  destruct (Z.eqb_spec kl 0) as [-> | Hk0];
    cbn [kck kek tk kdk kck_len kek_len tk_len kdk_len over]; rewrite Hsum, E;
    (split_and!; [done..|]); f_equal; rewrite Hcut at 1; unfold key_of;
    fold k1 k2 k3 k4; rewrite !take_overwrite' by (rewrite length_slice; lia); done.
Qed.

(** The arrays of the key parts. *)
Definition key_arrays (p : wpa_ptk) : bytes * bytes * bytes * bytes := (kck p, kek p, tk p, kdk p).

Lemma wpa_pmk_to_ptk_failed pmk label a1 a2 n1 n2 ptk akmp cipher z kl ptk' :
  wpa_pmk_to_ptk pmk label a1 a2 n1 n2 ptk akmp cipher z kl = (false, ptk') ->
  key_arrays ptk' = key_arrays ptk
  /\ (ptk' = ptk \/ tk_len ptk' = 0
      \/ ptk_prf akmp pmk label (ptk_context a1 a2 n1 n2 z)
           (Z.to_nat (kck_len ptk') + Z.to_nat (kek_len ptk') + Z.to_nat (tk_len ptk') + Z.to_nat (kdk_len ptk')) = None).
Proof.
  unfold wpa_pmk_to_ptk. destruct (zlen pmk =? 0); [intros [= <-]; auto|].
  destruct (66 <? zlen z); [intros [= <-]; auto|].
  destruct (Z.of_nat WPA_KDK_MAX_LEN <? kl); [intros [= <-]; auto|]. cbv zeta.
  set (p := ptk <| kck_len := _ |> <| kek_len := _ |> <| tk_len := _ |> <| kdk_len := _ |>).
  assert (key_arrays p = key_arrays ptk) as Hp by reflexivity. clearbody p.
  destruct (Z.eqb_spec (tk_len p) 0) as [Hz0|]; [intros [= <-]; auto|].
  destruct (ptk_prf _ _ _ _ _) eqn:E; [discriminate|]. intros [= <-]. auto.
Qed.

(** C24. A successful PTK derivation cuts one PRF output into the KCK, KEK, TK and
    KDK, in this order, with the lengths of the key management suite and of the
    cipher; nothing is written outside the arrays.  A derivation that fails writes
    no byte of key material: the arrays are those of before, and the lengths too
    unless the cipher has no key or the PRF failed.  Neither touches [installed]. *)
Theorem wpa_pmk_to_ptk_spec pmk label a1 a2 n1 n2 ptk akmp cipher z kl r ptk' :
  zlen pmk <= 64 -> 0 <= kl -> ptk_wf ptk ->
  wpa_pmk_to_ptk pmk label a1 a2 n1 n2 ptk akmp cipher z kl = (r, ptk') ->
  ptk_wf ptk' /\ installed ptk' = installed ptk
  /\ if r then
       kck_len ptk' = wpa_kck_len akmp (zlen pmk) /\ kek_len ptk' = wpa_kek_len akmp (zlen pmk)
       /\ tk_len ptk' = wpa_cipher_key_len cipher /\ kdk_len ptk' = kl
       /\ ptk_prf akmp pmk label (ptk_context a1 a2 n1 n2 z)
            (Z.to_nat (kck_len ptk' + kek_len ptk' + tk_len ptk' + kdk_len ptk'))
          = Some (key_of (kck ptk') (kck_len ptk') ++ key_of (kek ptk') (kek_len ptk')
                  ++ key_of (tk ptk') (tk_len ptk') ++ key_of (kdk ptk') (kdk_len ptk'))
     else
       key_arrays ptk' = key_arrays ptk
       /\ (ptk' = ptk \/ tk_len ptk' = 0
           \/ ptk_prf akmp pmk label (ptk_context a1 a2 n1 n2 z)
                (Z.to_nat (kck_len ptk') + Z.to_nat (kek_len ptk') + Z.to_nat (tk_len ptk')
                 + Z.to_nat (kdk_len ptk')) = None).
Proof.
  intros Hp Hkl Hwf Heq.
  pose proof (wpa_pmk_to_ptk_wf pmk label a1 a2 n1 n2 ptk akmp cipher z kl Hp Hkl Hwf) as Hwf'.
  pose proof (wpa_pmk_to_ptk_installed pmk label a1 a2 n1 n2 ptk akmp cipher z kl) as Hin.
  rewrite Heq in Hwf', Hin. split; [exact Hwf'|]. split; [exact Hin|]. destruct r.
  - exact (proj2 (proj2 (wpa_pmk_to_ptk_success _ _ _ _ _ _ _ _ _ _ _ _ Hp Hkl Hwf Heq))).
  - exact (wpa_pmk_to_ptk_failed _ _ _ _ _ _ _ _ _ _ _ _ Heq).
Qed.
End KeyProps.

(** "Pairwise key expansion" *)
Definition pairwise_label : bytes :=
  [80;97;105;114;119;105;115;101;32;107;101;121;32;101;120;112;97;110;115;105;111;110].

Lemma wpa_pmk_to_ptk_spec_witness :
  exists ptk',
    wpa_pmk_to_ptk (replicate 32 9) pairwise_label (replicate 6 1) (replicate 6 2)
      (replicate 32 3) (replicate 32 4) ptk_zero WPA_KEY_MGMT_PSK WPA_CIPHER_CCMP [] 0 = (true, ptk')
    /\ ptk_prf WPA_KEY_MGMT_PSK (replicate 32 9) pairwise_label
         (ptk_context (replicate 6 1) (replicate 6 2) (replicate 32 3) (replicate 32 4) [])
         (Z.to_nat (kck_len ptk' + kek_len ptk' + tk_len ptk' + kdk_len ptk'))
       = Some (key_of (kck ptk') (kck_len ptk') ++ key_of (kek ptk') (kek_len ptk')
               ++ key_of (tk ptk') (tk_len ptk') ++ key_of (kdk ptk') (kdk_len ptk')).
Proof.
  eexists. split; [vm_compute; reflexivity|].
  refine (proj2 (proj2 (proj2 (proj2 (proj2 (proj2 (wpa_pmk_to_ptk_spec (replicate 32 9) pairwise_label
    (replicate 6 1) (replicate 6 2) (replicate 32 3) (replicate 32 4) ptk_zero WPA_KEY_MGMT_PSK
    WPA_CIPHER_CCMP [] 0 true _ _ _ ptk_zero_wf _))))))).
  - vm_compute. discriminate.
  - lia.
  - vm_compute. reflexivity.
Defined.

(** Both ends of the handshake derive the same PTK: the derivation does not
    depend on which address and which nonce is the local one, for every key
    management suite and cipher. *)
Theorem wpa_pmk_to_ptk_symmetric `{Hmac} pmk label own peer snonce anonce ptk akmp cipher z kl :
  length own = length peer -> length snonce = length anonce ->
  wpa_pmk_to_ptk pmk label own peer snonce anonce ptk akmp cipher z kl
  = wpa_pmk_to_ptk pmk label peer own anonce snonce ptk akmp cipher z kl.
Proof.
  intros Ha Hn. unfold wpa_pmk_to_ptk, ptk_context.
  now rewrite (in_order_comm own peer Ha), (in_order_comm snonce anonce Hn).
Qed.

Lemma wpa_pmk_to_ptk_symmetric_witness :
  wpa_pmk_to_ptk (replicate 32 9) pairwise_label (replicate 6 1) (replicate 6 2)
    (replicate 32 3) (replicate 32 4) ptk_zero WPA_KEY_MGMT_PSK WPA_CIPHER_CCMP [] 0
  = wpa_pmk_to_ptk (replicate 32 9) pairwise_label (replicate 6 2) (replicate 6 1)
      (replicate 32 4) (replicate 32 3) ptk_zero WPA_KEY_MGMT_PSK WPA_CIPHER_CCMP [] 0.
Proof. apply wpa_pmk_to_ptk_symmetric; reflexivity. Defined.

(** The IEEE 802.11 PRF is one stream: asking for fewer bytes gives a prefix
    of what asking for more gives (the KDF of the SHA-256 suites, which hashes the
    length, has no such property). *)
Theorem sha1_prf_prefix `{HmacLaws} key label data m n r :
  (m <= n)%nat -> sha1_prf key label data n = Some r ->
  sha1_prf key label data m = Some (take m r).
Proof.
  intros Hmn Hn. unfold sha1_prf in *.
  apply prf_loop_prefix with (n := n) (fuel := n); auto; [unfold SHA1_MAC_LEN; lia|].
  intros c d. apply hmac_sha1_law.
Qed.

Lemma sha1_prf_prefix_witness :
  sha1_prf [1] [2] [3] 25 = Some (take 25 (default [] (sha1_prf [1] [2] [3] 48))).
Proof. apply (sha1_prf_prefix [1] [2] [3] 25 48); [lia | vm_compute; reflexivity]. Defined.
