(* ===== verification/RsnIe.v ===== *)
(** * WPA and RSN elements (src/common/wpa_common.c, src/rsn_supp/wpa_ie.c)

    Parsing of the RSN element (with its OSEN variant) and of the WPA element
    into struct wpa_ie_data, and their generation from the selected ciphers and
    key management suite.  The parsers walk over the element with a cursor [pos]
    and a count [left]; here the cursor is the list of remaining bytes, and
    [left] its length.  Each paragraph of the C function is one [ie_step], an
    early return or the cursor and the data so far; the data of an early return
    is what the code leaves in the structure.  The pointer to the PMKID list is
    an offset into the element. *)

From S2P Require Import Prelude WpaDefs WpaCommon.

(* ieee802_11_defs.h WLAN_EID_RSN @307-307 *)
Definition WLAN_EID_RSN : Z := 48.
(* ieee802_11_defs.h WLAN_EID_VENDOR_SPECIFIC @451-451 *)
Definition WLAN_EID_VENDOR_SPECIFIC : Z := 221.
(* ieee802_11_defs.h WLAN_EID_RSNX @458-458 *)
Definition WLAN_EID_RSNX : Z := 244.
(* wpa_common.h struct rsn_ie_hdr *)
Definition sizeof_rsn_ie_hdr : Z := 4.
(* wpa_common.h struct wpa_ie_hdr *)
Definition sizeof_wpa_ie_hdr : Z := 8.

(* wpa_common.h struct wpa_ie_data *)
Record wpa_ie_data := WpaIeData {
  ie_proto : Z;
  ie_pairwise_cipher : Z;
  ie_has_pairwise : bool;
  ie_group_cipher : Z;
  ie_has_group : bool;
  ie_key_mgmt : Z;
  ie_capabilities : Z;
  ie_num_pmkid : Z;
  ie_pmkid : option nat;
  ie_mgmt_group_cipher : Z
}.
#[export] Instance eta_wpa_ie_data : Eta wpa_ie_data := fun d =>
  WpaIeData (ie_proto d) (ie_pairwise_cipher d) (ie_has_pairwise d) (ie_group_cipher d)
    (ie_has_group d) (ie_key_mgmt d) (ie_capabilities d) (ie_num_pmkid d) (ie_pmkid d)
    (ie_mgmt_group_cipher d).

(* wpa_common.c rsn_selector_to_bitfield *)
Definition rsn_selector_to_bitfield (s : bytes) : Z :=
  let v := get_be32 s in
  if v =? RSN_CIPHER_SUITE_NONE then WPA_CIPHER_NONE
  else if v =? RSN_CIPHER_SUITE_TKIP then WPA_CIPHER_TKIP
  else if v =? RSN_CIPHER_SUITE_CCMP then WPA_CIPHER_CCMP
  else if v =? RSN_CIPHER_SUITE_AES_128_CMAC then WPA_CIPHER_AES_128_CMAC
  else if v =? RSN_CIPHER_SUITE_GCMP then WPA_CIPHER_GCMP
  else if v =? RSN_CIPHER_SUITE_CCMP_256 then WPA_CIPHER_CCMP_256
  else if v =? RSN_CIPHER_SUITE_GCMP_256 then WPA_CIPHER_GCMP_256
  else if v =? RSN_CIPHER_SUITE_BIP_GMAC_128 then WPA_CIPHER_BIP_GMAC_128
  else if v =? RSN_CIPHER_SUITE_BIP_GMAC_256 then WPA_CIPHER_BIP_GMAC_256
  else if v =? RSN_CIPHER_SUITE_BIP_CMAC_256 then WPA_CIPHER_BIP_CMAC_256
  else if v =? RSN_CIPHER_SUITE_NO_GROUP_ADDRESSED then WPA_CIPHER_GTK_NOT_USED
  else 0.

(* wpa_common.c rsn_key_mgmt_to_bitfield *)
Definition rsn_key_mgmt_to_bitfield (s : bytes) : Z :=
  let v := get_be32 s in
  if v =? RSN_AUTH_KEY_MGMT_UNSPEC_802_1X then WPA_KEY_MGMT_IEEE8021X
  else if v =? RSN_AUTH_KEY_MGMT_PSK_OVER_802_1X then WPA_KEY_MGMT_PSK
  else if v =? RSN_AUTH_KEY_MGMT_802_1X_SHA256 then WPA_KEY_MGMT_IEEE8021X_SHA256
  else if v =? RSN_AUTH_KEY_MGMT_PSK_SHA256 then WPA_KEY_MGMT_PSK_SHA256
  else if v =? RSN_AUTH_KEY_MGMT_SAE then WPA_KEY_MGMT_SAE
  else if v =? RSN_AUTH_KEY_MGMT_FT_SAE then WPA_KEY_MGMT_FT_SAE
  else if v =? RSN_AUTH_KEY_MGMT_802_1X_SUITE_B then WPA_KEY_MGMT_IEEE8021X_SUITE_B
  else if v =? RSN_AUTH_KEY_MGMT_802_1X_SUITE_B_192 then WPA_KEY_MGMT_IEEE8021X_SUITE_B_192
  else if v =? RSN_AUTH_KEY_MGMT_FILS_SHA256 then WPA_KEY_MGMT_FILS_SHA256
  else if v =? RSN_AUTH_KEY_MGMT_FILS_SHA384 then WPA_KEY_MGMT_FILS_SHA384
  else if v =? RSN_AUTH_KEY_MGMT_FT_FILS_SHA256 then WPA_KEY_MGMT_FT_FILS_SHA256
  else if v =? RSN_AUTH_KEY_MGMT_FT_FILS_SHA384 then WPA_KEY_MGMT_FT_FILS_SHA384
  else if v =? RSN_AUTH_KEY_MGMT_OSEN then WPA_KEY_MGMT_OSEN
  else 0.

(* wpa_common.c wpa_selector_to_bitfield *)
Definition wpa_selector_to_bitfield (s : bytes) : Z :=
  let v := get_be32 s in
  if v =? WPA_CIPHER_SUITE_NONE then WPA_CIPHER_NONE
  else if v =? WPA_CIPHER_SUITE_TKIP then WPA_CIPHER_TKIP
  else if v =? WPA_CIPHER_SUITE_CCMP then WPA_CIPHER_CCMP
  else 0.

(* wpa_common.c wpa_key_mgmt_to_bitfield *)
Definition wpa_key_mgmt_to_bitfield (s : bytes) : Z :=
  let v := get_be32 s in
  if v =? WPA_AUTH_KEY_MGMT_UNSPEC_802_1X then WPA_KEY_MGMT_IEEE8021X
  else if v =? WPA_AUTH_KEY_MGMT_PSK_OVER_802_1X then WPA_KEY_MGMT_PSK
  else if v =? WPA_AUTH_KEY_MGMT_NONE then WPA_KEY_MGMT_WPA_NONE
  else 0.

(** ** Parsing *)

(** The outcome of a paragraph: an early return with its code, or the cursor. *)
Inductive ie_step :=
| IeRet (code : Z) (d : wpa_ie_data)
| IeGo (rest : bytes) (d : wpa_ie_data).

Definition ie_bind (s : ie_step) (k : bytes -> wpa_ie_data -> ie_step) : ie_step :=
  match s with IeRet c d => IeRet c d | IeGo rest d => k rest d end.

(** [for (i = 0; i < count; i++) { *field |= f(pos); pos += 4; left -= 4; }] *)
Fixpoint or_selectors (f : bytes -> Z) (count : nat) (acc : Z) (rest : bytes) : Z * bytes :=
  match count with
  | O => (acc, rest)
  | S count => or_selectors f count (Z.lor acc (f rest)) (drop 4 rest)
  end.

(** The count of a suite list, checked against what is left of the element;
    the codes are those of a bad count and of a single stray byte. *)
Definition suite_list (f : bytes -> Z) (bad_count stray : Z) (rest : bytes) (d : wpa_ie_data)
    (start : wpa_ie_data -> wpa_ie_data)
    (set : Z -> wpa_ie_data -> wpa_ie_data) : ie_step :=
  if 2 <=? zlen rest then
    let d := start d in
    let count := get_le16 rest in
    let rest := drop 2 rest in
    if (count =? 0) || (zlen rest / RSN_SELECTOR_LEN <? count) then IeRet bad_count d else
    let '(v, rest) := or_selectors f (Z.to_nat count) 0 rest in
    IeGo rest (set v d)
  else if zlen rest =? 1 then IeRet stray d
  else IeGo rest d.

(* wpa_common.c wpa_parse_wpa_ie_rsn @1546-1554 *)
Definition rsn_data_init : wpa_ie_data :=
  WpaIeData WPA_PROTO_RSN WPA_CIPHER_CCMP false WPA_CIPHER_CCMP false WPA_KEY_MGMT_IEEE8021X 0 0
    None WPA_CIPHER_AES_128_CMAC.

(* wpa_common.c wpa_parse_wpa_ie_rsn @1556-1592 *)
Definition rsn_header (ie : bytes) (d : wpa_ie_data) : ie_step :=
  if zlen ie =? 0 then IeRet (-1) d
  else if zlen ie <? sizeof_rsn_ie_hdr then IeRet (-1) d
  else if (6 <=? zlen ie) && (4 <=? byte_at ie 1) && (byte_at ie 1 =? zlen ie - 2)
          && (get_be32 (drop 2 ie) =? OSEN_IE_VENDOR_TYPE) then
    IeGo (drop 6 ie)
      (d <| ie_group_cipher := WPA_CIPHER_GTK_NOT_USED |> <| ie_has_group := true |>
         <| ie_key_mgmt := WPA_KEY_MGMT_OSEN |> <| ie_proto := WPA_PROTO_OSEN |>)
  else if negb (byte_at ie 0 =? WLAN_EID_RSN) || negb (byte_at ie 1 =? zlen ie - 2)
          || negb (get_le16 (drop 2 ie) =? RSN_VERSION) then IeRet (-2) d
  else IeGo (drop 4 ie) d.

(* wpa_common.c wpa_parse_wpa_ie_rsn @1594-1610 *)
Definition rsn_group (rest : bytes) (d : wpa_ie_data) : ie_step :=
  if RSN_SELECTOR_LEN <=? zlen rest then
    let d := d <| ie_group_cipher := rsn_selector_to_bitfield rest |> <| ie_has_group := true |> in
    if negb (wpa_cipher_valid_group (ie_group_cipher d)) then IeRet (-1) d
    else IeGo (drop 4 rest) d
  else if 0 <? zlen rest then IeRet (-3) d
  else IeGo rest d.

(* wpa_common.c wpa_parse_wpa_ie_rsn @1612-1638 *)
Definition rsn_pairwise (rest : bytes) (d : wpa_ie_data) : ie_step :=
  ie_bind
    (suite_list rsn_selector_to_bitfield (-4) (-5) rest d
       (fun d => d <| ie_pairwise_cipher := 0 |>)
       (fun v d => d <| ie_has_pairwise := true |> <| ie_pairwise_cipher := v |>))
    (fun rest' d' =>
       if (2 <=? zlen rest) && has (ie_pairwise_cipher d') WPA_CIPHER_AES_128_CMAC
       then IeRet (-1) d' else IeGo rest' d').

(* wpa_common.c wpa_parse_wpa_ie_rsn @1640-1659 *)
Definition rsn_akm (rest : bytes) (d : wpa_ie_data) : ie_step :=
  suite_list rsn_key_mgmt_to_bitfield (-6) (-7) rest d
    (fun d => d <| ie_key_mgmt := 0 |>) (fun v d => d <| ie_key_mgmt := v |>).

(* wpa_common.c wpa_parse_wpa_ie_rsn @1661-1665 *)
Definition ie_capab (rest : bytes) (d : wpa_ie_data) : ie_step :=
  if 2 <=? zlen rest then IeGo (drop 2 rest) (d <| ie_capabilities := get_le16 rest |>)
  else IeGo rest d.

(** [total] is the length of the element: the pointer is [total - left]. *)
(* wpa_common.c wpa_parse_wpa_ie_rsn @1667-1683 *)
Definition rsn_pmkids (total : nat) (rest : bytes) (d : wpa_ie_data) : ie_step :=
  if 2 <=? zlen rest then
    let num_pmkid := get_le16 rest in
    let rest := drop 2 rest in
    if zlen rest / PMKID_LEN <? num_pmkid then IeRet (-9) (d <| ie_num_pmkid := 0 |>)
    else IeGo (drop (Z.to_nat (num_pmkid * PMKID_LEN)) rest)
           (d <| ie_num_pmkid := num_pmkid |> <| ie_pmkid := Some (total - length rest)%nat |>)
  else IeGo rest d.

(* wpa_common.c wpa_parse_wpa_ie_rsn @1685-1697 *)
Definition rsn_mgmt_group (rest : bytes) (d : wpa_ie_data) : ie_step :=
  if 4 <=? zlen rest then
    let d := d <| ie_mgmt_group_cipher := rsn_selector_to_bitfield rest |> in
    if negb (wpa_cipher_valid_mgmt_group (ie_mgmt_group_cipher d)) then IeRet (-10) d
    else IeGo (drop 4 rest) d
  else IeGo rest d.

(** Trailing bytes are ignored; the function returns 0. *)
Definition ie_result (s : ie_step) : Z * wpa_ie_data :=
  match s with IeRet code d => (code, d) | IeGo _ d => (0, d) end.

(* wpa_common.c wpa_parse_wpa_ie_rsn *)
Definition wpa_parse_wpa_ie_rsn (ie : bytes) : Z * wpa_ie_data :=
  ie_result
    (ie_bind (rsn_header ie rsn_data_init) (fun rest d =>
     ie_bind (rsn_group rest d) (fun rest d =>
     ie_bind (rsn_pairwise rest d) (fun rest d =>
     ie_bind (rsn_akm rest d) (fun rest d =>
     ie_bind (ie_capab rest d) (fun rest d =>
     ie_bind (rsn_pmkids (length ie) rest d) rsn_mgmt_group)))))).

(* wpa_common.c wpa_parse_wpa_ie_wpa @1740-1748 *)
Definition wpa_data_init : wpa_ie_data :=
  WpaIeData WPA_PROTO_WPA WPA_CIPHER_TKIP false WPA_CIPHER_TKIP false WPA_KEY_MGMT_IEEE8021X 0 0
    None 0.

(* wpa_common.c wpa_parse_wpa_ie_wpa @1750-1769 *)
Definition wpa_header (ie : bytes) (d : wpa_ie_data) : ie_step :=
  if zlen ie <? sizeof_wpa_ie_hdr then IeRet (-1) d
  else if negb (byte_at ie 0 =? WLAN_EID_VENDOR_SPECIFIC) || negb (byte_at ie 1 =? zlen ie - 2)
          || negb (get_be32 (drop 2 ie) =? WPA_OUI_TYPE)
          || negb (get_le16 (drop 6 ie) =? WPA_VERSION) then IeRet (-2) d
  else IeGo (drop 8 ie) d.

(* wpa_common.c wpa_parse_wpa_ie_wpa @1770-1778 *)
Definition wpa_group (rest : bytes) (d : wpa_ie_data) : ie_step :=
  if WPA_SELECTOR_LEN <=? zlen rest then
    IeGo (drop 4 rest) (d <| ie_group_cipher := wpa_selector_to_bitfield rest |>)
  else if 0 <? zlen rest then IeRet (-3) d
  else IeGo rest d.

(* wpa_common.c wpa_parse_wpa_ie_wpa *)
Definition wpa_parse_wpa_ie_wpa (ie : bytes) : Z * wpa_ie_data :=
  ie_result
    (ie_bind (wpa_header ie wpa_data_init) (fun rest d =>
     ie_bind (wpa_group rest d) (fun rest d =>
     ie_bind (suite_list wpa_selector_to_bitfield (-4) (-5) rest d
                (fun d => d <| ie_pairwise_cipher := 0 |>)
                (fun v d => d <| ie_pairwise_cipher := v |>)) (fun rest d =>
     ie_bind (suite_list wpa_key_mgmt_to_bitfield (-6) (-7) rest d
                (fun d => d <| ie_key_mgmt := 0 |>) (fun v d => d <| ie_key_mgmt := v |>))
       ie_capab)))).

(* wpa_ie.c wpa_parse_wpa_ie *)
Definition wpa_parse_wpa_ie (ie : bytes) : Z * wpa_ie_data :=
  if (1 <=? zlen ie) && (byte_at ie 0 =? WLAN_EID_RSN) then wpa_parse_wpa_ie_rsn ie
  else if (6 <=? zlen ie) && (byte_at ie 0 =? WLAN_EID_VENDOR_SPECIFIC) && (4 <=? byte_at ie 1)
          && (get_be32 (drop 2 ie) =? OSEN_IE_VENDOR_TYPE) then wpa_parse_wpa_ie_rsn ie
  else wpa_parse_wpa_ie_wpa ie.

(** ** Generation *)

(** [hdr->len = (pos - ie) - 2] for the header and body written so far. *)
Definition with_len (eid : Z) (body : bytes) : bytes := eid :: u8 (zlen body) :: body.

(* wpa_ie.c wpa_gen_wpa_ie_wpa *)
Definition wpa_gen_wpa_ie_wpa (buf_len pairwise_cipher group_cipher key_mgmt : Z) : option bytes :=
  if buf_len <? sizeof_wpa_ie_hdr + WPA_SELECTOR_LEN + 2 + WPA_SELECTOR_LEN + 2 + WPA_SELECTOR_LEN
  then None else
  let gsuite := wpa_cipher_to_suite WPA_PROTO_WPA group_cipher in
  if gsuite =? 0 then None else
  let psuite := wpa_cipher_to_suite WPA_PROTO_WPA pairwise_cipher in
  if (psuite =? 0) || (negb (wpa_cipher_valid_pairwise pairwise_cipher)
                       && negb (pairwise_cipher =? WPA_CIPHER_NONE)) then None else
  let? akm :=
    if key_mgmt =? WPA_KEY_MGMT_IEEE8021X then Some WPA_AUTH_KEY_MGMT_UNSPEC_802_1X
    else if key_mgmt =? WPA_KEY_MGMT_PSK then Some WPA_AUTH_KEY_MGMT_PSK_OVER_802_1X
    else if key_mgmt =? WPA_KEY_MGMT_WPA_NONE then Some WPA_AUTH_KEY_MGMT_NONE
    else if key_mgmt =? WPA_KEY_MGMT_CCKM then Some WPA_AUTH_KEY_MGMT_CCKM
    else None in
  Some (with_len WLAN_EID_VENDOR_SPECIFIC
          (put_be32 WPA_OUI_TYPE ++ put_le16 WPA_VERSION ++ put_be32 gsuite
           ++ [1; 0] ++ put_be32 psuite ++ [1; 0] ++ put_be32 akm)).

(* wpa_ie.c wpa_gen_wpa_ie_rsn @171-229 *)
Definition rsn_akm_suite (key_mgmt : Z) : option Z :=
  if key_mgmt =? WPA_KEY_MGMT_IEEE8021X then Some RSN_AUTH_KEY_MGMT_UNSPEC_802_1X
  else if key_mgmt =? WPA_KEY_MGMT_PSK then Some RSN_AUTH_KEY_MGMT_PSK_OVER_802_1X
  else if key_mgmt =? WPA_KEY_MGMT_CCKM then Some RSN_AUTH_KEY_MGMT_CCKM
  else if key_mgmt =? WPA_KEY_MGMT_IEEE8021X_SHA256 then Some RSN_AUTH_KEY_MGMT_802_1X_SHA256
  else if key_mgmt =? WPA_KEY_MGMT_PSK_SHA256 then Some RSN_AUTH_KEY_MGMT_PSK_SHA256
  else if key_mgmt =? WPA_KEY_MGMT_SAE then Some RSN_AUTH_KEY_MGMT_SAE
  else if key_mgmt =? WPA_KEY_MGMT_FT_SAE then Some RSN_AUTH_KEY_MGMT_FT_SAE
  else if key_mgmt =? WPA_KEY_MGMT_IEEE8021X_SUITE_B_192
  then Some RSN_AUTH_KEY_MGMT_802_1X_SUITE_B_192
  else if key_mgmt =? WPA_KEY_MGMT_IEEE8021X_SUITE_B then Some RSN_AUTH_KEY_MGMT_802_1X_SUITE_B
  else None.

(** [capab] is rsn_supp_capab(sm), [pmkid] the PMKID of sm->cur_pmksa. *)
(* wpa_ie.c wpa_gen_wpa_ie_rsn *)
Definition wpa_gen_wpa_ie_rsn (buf_len pairwise_cipher group_cipher key_mgmt mgmt_group_cipher : Z)
    (capab : Z) (pmkid : option bytes) : option bytes :=
  if buf_len <? sizeof_rsn_ie_hdr + RSN_SELECTOR_LEN + 2 + RSN_SELECTOR_LEN + 2 + RSN_SELECTOR_LEN
                + 2 + (if pmkid is Some _ then 2 + PMKID_LEN else 0) then None else
  let gsuite := wpa_cipher_to_suite WPA_PROTO_RSN group_cipher in
  if gsuite =? 0 then None else
  let psuite := wpa_cipher_to_suite WPA_PROTO_RSN pairwise_cipher in
  if (psuite =? 0) || (negb (wpa_cipher_valid_pairwise pairwise_cipher)
                       && negb (pairwise_cipher =? WPA_CIPHER_NONE)) then None else
  let? akm := rsn_akm_suite key_mgmt in
  let mgmt :=
    if wpa_cipher_valid_mgmt_group mgmt_group_cipher then
      (if pmkid is Some _ then [] else put_le16 0)
      ++ put_be32 (wpa_cipher_to_suite WPA_PROTO_RSN mgmt_group_cipher)
    else [] in
  Some (with_len WLAN_EID_RSN
          (put_le16 RSN_VERSION ++ put_be32 gsuite ++ [1; 0] ++ put_be32 psuite
           ++ [1; 0] ++ put_be32 akm ++ put_le16 capab
           ++ (if pmkid is Some p then [1; 0] ++ p else []) ++ mgmt)).

(** ** Parsing what was generated *)

Lemma zlen_put_be32 n l : zlen (put_be32 n ++ l) = 4 + zlen l.
Proof. rewrite zlen_app. reflexivity. Qed.
Lemma zlen_put_le16 n l : zlen (put_le16 n ++ l) = 2 + zlen l.
Proof. rewrite zlen_app. reflexivity. Qed.

Lemma suite_range proto c : is_uint 32 (wpa_cipher_to_suite proto c).
Proof. unfold wpa_cipher_to_suite. repeat case_match; unfold is_uint; vm_compute; intuition congruence. Qed.

Lemma rsn_selector_suite n rest :
  is_uint 32 n -> rsn_selector_to_bitfield (put_be32 n ++ rest) = rsn_selector_to_bitfield (put_be32 n).
Proof.
  intros Hn. unfold rsn_selector_to_bitfield.
  rewrite get_put_be32 by done. rewrite <- (app_nil_r (put_be32 n)), get_put_be32 by done. done.
Qed.

Lemma rsn_key_mgmt_suite n rest :
  is_uint 32 n -> rsn_key_mgmt_to_bitfield (put_be32 n ++ rest) = rsn_key_mgmt_to_bitfield (put_be32 n).
Proof.
  intros Hn. unfold rsn_key_mgmt_to_bitfield.
  rewrite get_put_be32 by done. rewrite <- (app_nil_r (put_be32 n)), get_put_be32 by done. done.
Qed.

(** Each suite selector is read back as its own bit. *)
Lemma rsn_pairwise_suite_inv c :
  (wpa_cipher_valid_pairwise c || (c =? WPA_CIPHER_NONE))%bool = true ->
  rsn_selector_to_bitfield (put_be32 (wpa_cipher_to_suite WPA_PROTO_RSN c)) = c
  /\ has c WPA_CIPHER_AES_128_CMAC = false.
Proof.
  unfold wpa_cipher_valid_pairwise. rewrite !orb_true_iff, !Z.eqb_eq.
  intros H. destruct_or! H; subst c; vm_compute; done.
Qed.

Lemma rsn_group_suite_inv c :
  wpa_cipher_valid_group c = true ->
  rsn_selector_to_bitfield (put_be32 (wpa_cipher_to_suite WPA_PROTO_RSN c)) = c.
Proof.
  unfold wpa_cipher_valid_group, wpa_cipher_valid_pairwise. rewrite !orb_true_iff, !Z.eqb_eq.
  intros H. destruct_or! H; subst c; vm_compute; done.
Qed.

Lemma rsn_mgmt_suite_inv c :
  wpa_cipher_valid_mgmt_group c = true ->
  rsn_selector_to_bitfield (put_be32 (wpa_cipher_to_suite WPA_PROTO_RSN c)) = c.
Proof.
  unfold wpa_cipher_valid_mgmt_group. rewrite !orb_true_iff, !Z.eqb_eq.
  intros H. destruct_or! H; subst c; vm_compute; done.
Qed.

Lemma rsn_akm_suite_inv akm s :
  rsn_akm_suite akm = Some s -> akm <> WPA_KEY_MGMT_CCKM ->
  is_uint 32 s /\ rsn_key_mgmt_to_bitfield (put_be32 s) = akm.
Proof.
  intros H Hc. unfold rsn_akm_suite in H.
  repeat match goal with
         | H : (if ?a =? ?b then _ else _) = Some _ |- _ =>
             destruct (Z.eqb_spec a b); [subst a; injection H as <-|]
         end; try congruence; (split; [unfold is_uint; vm_compute; intuition congruence|]);
    vm_compute; done.
Qed.


Lemma rsn_version_not_osen l :
  bytes_ok l -> (get_be32 (put_le16 RSN_VERSION ++ l) =? OSEN_IE_VENDOR_TYPE) = false.
Proof.
  intros Hl. apply Z.eqb_neq. unfold get_be32.
  change (get_be16 (put_le16 RSN_VERSION ++ l)) with 256.
  change (drop 2 (put_le16 RSN_VERSION ++ l)) with l.
  pose proof (get_be16_range l Hl) as H. unfold is_uint, OSEN_IE_VENDOR_TYPE in *. lia.
Qed.

Lemma rsn_header_gen s tail d :
  zlen tail <= 249 -> bytes_ok tail ->
  rsn_header (with_len WLAN_EID_RSN (put_le16 RSN_VERSION ++ put_be32 s ++ tail)) d
  = IeGo (put_be32 s ++ tail) d.
Proof.
  intros Hl Hb. unfold rsn_header, with_len.
  pose proof (zlen_nonneg tail).
  rewrite !zlen_cons, zlen_put_le16, zlen_put_be32.
  rewrite (wrap_small 8) by (unfold is_uint; lia).
  cbn [drop]. rewrite !drop_0, rsn_version_not_osen by (apply bytes_ok_app; auto with wpa).
  change (byte_at (WLAN_EID_RSN :: ?x :: ?l) 1) with x.
  change (byte_at (WLAN_EID_RSN :: ?x :: ?l) 0) with WLAN_EID_RSN.
  rewrite get_put_le16, andb_false_r by (unfold is_uint; vm_compute; intuition congruence).
  destruct (Z.eqb_spec (2 + (4 + zlen tail) + 1 + 1) 0); [lia|].
  destruct (Z.ltb_spec (2 + (4 + zlen tail) + 1 + 1) sizeof_rsn_ie_hdr) as [Hs|_];
    [unfold sizeof_rsn_ie_hdr in Hs; lia|].
  destruct (Z.eqb_spec (2 + (4 + zlen tail)) (2 + (4 + zlen tail) + 1 + 1 - 2)); [|lia]. done.
Qed.

Lemma rsn_group_gen g rest d :
  wpa_cipher_valid_group g = true ->
  rsn_group (put_be32 (wpa_cipher_to_suite WPA_PROTO_RSN g) ++ rest) d
  = IeGo rest (d <| ie_group_cipher := g |> <| ie_has_group := true |>).
Proof.
  intros Hg. unfold rsn_group. rewrite zlen_put_be32. pose proof (zlen_nonneg rest).
  destruct (Z.leb_spec RSN_SELECTOR_LEN (4 + zlen rest)) as [_|Hs];
    [|unfold RSN_SELECTOR_LEN in Hs; lia].
  rewrite rsn_selector_suite, (rsn_group_suite_inv g Hg) by apply suite_range.
  cbn [ie_group_cipher over]. now rewrite Hg.
Qed.

(** A suite list of one suite. *)
Lemma suite_list_one f a b s rest d st set :
  suite_list f a b ([1; 0] ++ put_be32 s ++ rest) d st set
  = IeGo rest (set (f (put_be32 s ++ rest)) (st d)).
Proof.
  unfold suite_list. rewrite zlen_app, zlen_put_be32. pose proof (zlen_nonneg rest).
  change (zlen [1; 0]) with 2. change (drop 2 ([1; 0] ++ ?l)) with l.
  change (get_le16 ([1; 0] ++ ?l)) with 1. rewrite zlen_put_be32.
  destruct (Z.leb_spec 2 (2 + (4 + zlen rest))); [|lia].
  assert (1 <= (4 + zlen rest) / RSN_SELECTOR_LEN)
    by (unfold RSN_SELECTOR_LEN; Z.div_mod_to_equations; lia).
  destruct (Z.ltb_spec ((4 + zlen rest) / RSN_SELECTOR_LEN) 1); [lia|]. done.
Qed.

Lemma rsn_pairwise_gen p rest d :
  (wpa_cipher_valid_pairwise p || (p =? WPA_CIPHER_NONE))%bool = true ->
  rsn_pairwise ([1; 0] ++ put_be32 (wpa_cipher_to_suite WPA_PROTO_RSN p) ++ rest) d
  = IeGo rest (d <| ie_pairwise_cipher := p |> <| ie_has_pairwise := true |>).
Proof.
  intros Hp. unfold rsn_pairwise. rewrite suite_list_one. cbn [ie_bind].
  rewrite rsn_selector_suite by apply suite_range.
  destruct (rsn_pairwise_suite_inv p Hp) as [-> Hc].
  cbn [ie_pairwise_cipher over]. rewrite Hc, andb_false_r. done.
Qed.

Lemma rsn_akm_gen akm s rest d :
  rsn_akm_suite akm = Some s -> akm <> WPA_KEY_MGMT_CCKM ->
  rsn_akm ([1; 0] ++ put_be32 s ++ rest) d = IeGo rest (d <| ie_key_mgmt := akm |>).
Proof.
  intros Hs Hc. destruct (rsn_akm_suite_inv akm s Hs Hc) as [Hr Hi].
  unfold rsn_akm. rewrite suite_list_one, rsn_key_mgmt_suite, Hi by done. done.
Qed.

Lemma ie_capab_gen c rest d :
  is_uint 16 c -> ie_capab (put_le16 c ++ rest) d = IeGo rest (d <| ie_capabilities := c |>).
Proof.
  intros Hc. unfold ie_capab. rewrite zlen_put_le16. pose proof (zlen_nonneg rest).
  destruct (Z.leb_spec 2 (2 + zlen rest)); [|lia]. rewrite get_put_le16 by done. done.
Qed.

Lemma rsn_pmkids_one total p rest d :
  length p = 16%nat ->
  rsn_pmkids total ([1; 0] ++ p ++ rest) d
  = IeGo rest (d <| ie_num_pmkid := 1 |> <| ie_pmkid := Some (total - (16 + length rest))%nat |>).
Proof.
  intros Hp. unfold rsn_pmkids. rewrite zlen_app. change (zlen [1; 0]) with 2.
  change (drop 2 ([1; 0] ++ ?l)) with l. change (get_le16 ([1; 0] ++ ?l)) with 1.
  pose proof (zlen_nonneg (p ++ rest)).
  destruct (Z.leb_spec 2 (2 + zlen (p ++ rest))); [|lia].
  assert (zlen p = 16) as Hzp by (unfold zlen; lia). pose proof (zlen_nonneg rest).
  rewrite zlen_app, Hzp, length_app, Hp.
  assert (1 <= (16 + zlen rest) / PMKID_LEN) by (unfold PMKID_LEN; Z.div_mod_to_equations; lia).
  destruct (Z.ltb_spec ((16 + zlen rest) / PMKID_LEN) 1); [lia|].
  rewrite drop_app_length' by (rewrite Hp; done). done.
Qed.

Lemma rsn_pmkids_none total rest d :
  rsn_pmkids total (put_le16 0 ++ rest) d
  = IeGo rest (d <| ie_num_pmkid := 0 |> <| ie_pmkid := Some (total - length rest)%nat |>).
Proof.
  unfold rsn_pmkids. rewrite zlen_put_le16. change (drop 2 (put_le16 0 ++ ?l)) with l.
  change (get_le16 (put_le16 0 ++ ?l)) with 0. pose proof (zlen_nonneg rest).
  destruct (Z.leb_spec 2 (2 + zlen rest)); [|lia].
  destruct (Z.ltb_spec (zlen rest / PMKID_LEN) 0); [unfold PMKID_LEN in *; Z.div_mod_to_equations; lia|].
  done.
Qed.

Lemma rsn_mgmt_group_gen mg d :
  wpa_cipher_valid_mgmt_group mg = true ->
  rsn_mgmt_group (put_be32 (wpa_cipher_to_suite WPA_PROTO_RSN mg)) d
  = IeGo [] (d <| ie_mgmt_group_cipher := mg |>).
Proof.
  intros Hm. unfold rsn_mgmt_group. rewrite (rsn_mgmt_suite_inv mg Hm).
  cbn [ie_mgmt_group_cipher over]. now rewrite Hm.
Qed.

(** What the size check at the start of wpa_gen_wpa_ie_rsn() asks for. *)
Definition rsn_ie_checked_len (pmkid : option bytes) : Z :=
  22 + (if pmkid is Some _ then 18 else 0).

(** What the group management cipher adds to it. *)
Definition rsn_ie_mgmt_len (mgmt_group_cipher : Z) (pmkid : option bytes) : Z :=
  if wpa_cipher_valid_mgmt_group mgmt_group_cipher then if pmkid is Some _ then 4 else 6 else 0.

(** The generated element, once the guards have been passed. *)
Lemma wpa_gen_wpa_ie_rsn_inv bl p g akm mg capab pmkid ie :
  wpa_gen_wpa_ie_rsn bl p g akm mg capab pmkid = Some ie ->
  rsn_ie_checked_len pmkid <= bl
  /\ (wpa_cipher_valid_pairwise p || (p =? WPA_CIPHER_NONE))%bool = true
  /\ exists s, rsn_akm_suite akm = Some s
     /\ ie = with_len WLAN_EID_RSN (put_le16 RSN_VERSION
               ++ put_be32 (wpa_cipher_to_suite WPA_PROTO_RSN g)
               ++ [1; 0] ++ put_be32 (wpa_cipher_to_suite WPA_PROTO_RSN p)
               ++ [1; 0] ++ put_be32 s ++ put_le16 capab
               ++ (if pmkid is Some p then [1; 0] ++ p else [])
               ++ (if wpa_cipher_valid_mgmt_group mg then
                     (if pmkid is Some _ then [] else put_le16 0)
                     ++ put_be32 (wpa_cipher_to_suite WPA_PROTO_RSN mg) else [])).
Proof.
  unfold wpa_gen_wpa_ie_rsn.
  match goal with |- (if bl <? ?n then _ else _) = _ -> _ => change n with (22 + (if pmkid is Some _ then 2 + PMKID_LEN else 0)) end.
  destruct (Z.ltb_spec bl (22 + (if pmkid is Some _ then 2 + PMKID_LEN else 0))) as [|Hbl]; [discriminate|].
  destruct (wpa_cipher_to_suite WPA_PROTO_RSN g =? 0); [discriminate|].
  destruct ((wpa_cipher_to_suite WPA_PROTO_RSN p =? 0) || _) eqn:Ep; [discriminate|].
  destruct (rsn_akm_suite akm) as [s|]; [|discriminate]. intros [= <-].
  split; [unfold rsn_ie_checked_len; destruct pmkid; unfold PMKID_LEN in *; lia|].
  split; [|exists s; done].
  apply orb_false_iff in Ep as [_ Ep]. rewrite andb_false_iff, !negb_false_iff in Ep.
  now apply orb_true_iff.
Qed.

Lemma wpa_gen_wpa_ie_rsn_len bl p g akm mg capab pmkid ie :
  wpa_gen_wpa_ie_rsn bl p g akm mg capab pmkid = Some ie ->
  (if pmkid is Some k then length k = 16%nat else True) ->
  zlen ie = rsn_ie_checked_len pmkid + rsn_ie_mgmt_len mg pmkid.
Proof.
  intros Hg Hk. apply wpa_gen_wpa_ie_rsn_inv in Hg as (_ & _ & s & _ & ->).
  unfold with_len, rsn_ie_checked_len, rsn_ie_mgmt_len.
  rewrite !zlen_cons, !zlen_app, !zlen_cons, !zlen_nil.
  destruct pmkid as [k|], (wpa_cipher_valid_mgmt_group mg);
    rewrite ?zlen_app, ?zlen_cons, ?zlen_nil; unfold zlen; rewrite ?Hk; simpl; lia.
Qed.

(** C39. Length of the RSN element wpa_gen_wpa_ie_rsn() writes.  It is exactly what
    the function checked for plus the group management cipher (with the empty
    PMKID count it needs), which the check leaves out: a caller's buffer of the
    checked size is overrun by 4 or 6 bytes when that cipher is configured. *)
Theorem wpa_gen_wpa_ie_rsn_size buf_len p g akm mg capab pmkid ie :
  wpa_gen_wpa_ie_rsn buf_len p g akm mg capab pmkid = Some ie ->
  (if pmkid is Some k then length k = 16%nat else True) ->
  zlen ie = rsn_ie_checked_len pmkid + rsn_ie_mgmt_len mg pmkid
  /\ rsn_ie_checked_len pmkid <= buf_len /\ zlen ie <= 44
  /\ (zlen ie <= buf_len <-> rsn_ie_checked_len pmkid + rsn_ie_mgmt_len mg pmkid <= buf_len).
Proof.
  intros Hg Hk. pose proof (wpa_gen_wpa_ie_rsn_len _ _ _ _ _ _ _ _ Hg Hk) as Hl.
  apply wpa_gen_wpa_ie_rsn_inv in Hg as (Hb & _). rewrite Hl. split_and!; [done..| |done].
  unfold rsn_ie_checked_len, rsn_ie_mgmt_len. destruct pmkid, (wpa_cipher_valid_mgmt_group mg); lia.
Qed.

(** The element of a PSK network with management frame protection. *)
Definition demo_rsn_ie : bytes :=
  default [] (wpa_gen_wpa_ie_rsn 22 WPA_CIPHER_CCMP WPA_CIPHER_CCMP WPA_KEY_MGMT_PSK
                WPA_CIPHER_AES_128_CMAC WPA_CAPABILITY_MFPC None).

(** 28 bytes into a buffer announced as 22 bytes long. *)
Lemma wpa_gen_wpa_ie_rsn_size_witness : zlen demo_rsn_ie = 28 /\ ~ zlen demo_rsn_ie <= 22.
Proof.
  destruct (wpa_gen_wpa_ie_rsn_size 22 WPA_CIPHER_CCMP WPA_CIPHER_CCMP WPA_KEY_MGMT_PSK
    WPA_CIPHER_AES_128_CMAC WPA_CAPABILITY_MFPC None demo_rsn_ie) as (Hl & _ & _ & Hiff);
    [vm_compute; reflexivity | exact I |].
  rewrite Hiff. split; [exact Hl | vm_compute; intros H; now apply H].
Defined.

(** Everything up to the capabilities. *)
Lemma rsn_body_gen total g p akm s capab tail :
  wpa_cipher_valid_group g = true ->
  (wpa_cipher_valid_pairwise p || (p =? WPA_CIPHER_NONE))%bool = true ->
  rsn_akm_suite akm = Some s -> akm <> WPA_KEY_MGMT_CCKM -> is_uint 16 capab ->
  zlen tail <= 22 -> bytes_ok tail ->
  ie_bind (rsn_header (with_len WLAN_EID_RSN (put_le16 RSN_VERSION
             ++ put_be32 (wpa_cipher_to_suite WPA_PROTO_RSN g)
             ++ [1; 0] ++ put_be32 (wpa_cipher_to_suite WPA_PROTO_RSN p)
             ++ [1; 0] ++ put_be32 s ++ put_le16 capab ++ tail)) rsn_data_init) (fun rest d =>
  ie_bind (rsn_group rest d) (fun rest d =>
  ie_bind (rsn_pairwise rest d) (fun rest d =>
  ie_bind (rsn_akm rest d) (fun rest d =>
  ie_bind (ie_capab rest d) (fun rest d =>
  ie_bind (rsn_pmkids total rest d) rsn_mgmt_group)))))
  = ie_bind (rsn_pmkids total tail
      (WpaIeData WPA_PROTO_RSN p true g true akm capab 0 None WPA_CIPHER_AES_128_CMAC))
      rsn_mgmt_group.
Proof.
  intros Hg Hp Hs Hc Hcap Hl Hb.
  assert (bytes_ok [1; 0]) as H10 by (repeat constructor; unfold is_uint; lia).
  rewrite rsn_header_gen.
  2:{ rewrite !zlen_app. change (zlen [1; 0]) with 2. change (zlen (put_be32 _)) with 4.
      change (zlen (put_le16 _)) with 2. lia. }
  2:{ repeat (apply bytes_ok_app; split); auto with wpa. }
  cbn [ie_bind]. rewrite rsn_group_gen by done. cbn [ie_bind].
  rewrite rsn_pairwise_gen by done. cbn [ie_bind].
  rewrite (rsn_akm_gen akm) by done. cbn [ie_bind].
  rewrite ie_capab_gen by done. done.
Qed.

(** The PMKID list and the group management cipher at the end of the element. *)
Definition rsn_tail (mg : Z) (pmkid : option bytes) : bytes :=
  (if pmkid is Some p then [1; 0] ++ p else [])
  ++ (if wpa_cipher_valid_mgmt_group mg then
        (if pmkid is Some _ then [] else put_le16 0)
        ++ put_be32 (wpa_cipher_to_suite WPA_PROTO_RSN mg) else []).

Lemma rsn_tail_gen total mg pmkid d :
  (if pmkid is Some k then length k = 16%nat else True) ->
  ie_mgmt_group_cipher d = WPA_CIPHER_AES_128_CMAC -> ie_num_pmkid d = 0 ->
  ie_result (ie_bind (rsn_pmkids total (rsn_tail mg pmkid) d) rsn_mgmt_group)
  = (0, d <| ie_num_pmkid := if pmkid is Some _ then 1 else 0 |>
          <| ie_pmkid := if pmkid is Some _ then
               Some (total - (16 + (if wpa_cipher_valid_mgmt_group mg then 4 else 0)))%nat
             else if wpa_cipher_valid_mgmt_group mg then Some (total - 4)%nat else ie_pmkid d |>
          <| ie_mgmt_group_cipher :=
               if wpa_cipher_valid_mgmt_group mg then mg else WPA_CIPHER_AES_128_CMAC |>).
Proof.
  intros Hk Hd Hn. unfold rsn_tail. destruct d; cbn in Hd, Hn; subst.
  destruct pmkid as [q|], (wpa_cipher_valid_mgmt_group mg) eqn:Hmg;
    rewrite <- ?app_assoc, ?app_nil_l.
  - rewrite (rsn_pmkids_one total q) by done. cbn [ie_bind].
    now rewrite rsn_mgmt_group_gen.
  - now rewrite (rsn_pmkids_one total q).
  - rewrite rsn_pmkids_none. cbn [ie_bind]. now rewrite rsn_mgmt_group_gen.
  - done.
Qed.

Lemma rsn_tail_ok mg pmkid :
  (if pmkid is Some k then length k = 16%nat /\ bytes_ok k else True) ->
  zlen (rsn_tail mg pmkid) <= 22 /\ bytes_ok (rsn_tail mg pmkid).
Proof.
  intros Hk. assert (bytes_ok [1; 0]) as H10 by (repeat constructor; unfold is_uint; lia).
  assert (bytes_ok []) as Hnil by constructor.
  unfold rsn_tail, zlen. rewrite !length_app. split.
  - destruct pmkid as [q|]; [destruct Hk as [Hk _]|]; destruct (wpa_cipher_valid_mgmt_group mg);
      rewrite ?length_app, ?Hk; simpl; lia.
  - destruct pmkid as [q|], (wpa_cipher_valid_mgmt_group mg);
      repeat (apply bytes_ok_app; split); auto with wpa; tauto.
Qed.

Lemma with_len_long eid body :
  (1 <=? zlen (with_len eid body)) && (byte_at (with_len eid body) 0 =? eid) = true.
Proof.
  unfold with_len. rewrite !zlen_cons. pose proof (zlen_nonneg body).
  apply andb_true_iff. split; [apply Z.leb_le; lia | apply Z.eqb_refl].
Qed.

(** C38. The RSN element we generate, for a valid group cipher, a key management suite
    other than CCKM (which the parser does not know) and 16-bit capabilities, is parsed
    back to the configuration it was generated from: ciphers, key management suite,
    capabilities, the PMKID at the offset the parser reports, and the group management
    cipher; where this is not a valid one, none is written and the parser reports its
    default, AES-128-CMAC. *)
Theorem rsn_ie_roundtrip buf_len p g akm mg capab pmkid ie :
  wpa_gen_wpa_ie_rsn buf_len p g akm mg capab pmkid = Some ie ->
  wpa_cipher_valid_group g = true -> akm <> WPA_KEY_MGMT_CCKM -> is_uint 16 capab ->
  (if pmkid is Some k then length k = 16%nat /\ bytes_ok k else True) ->
  exists off,
    wpa_parse_wpa_ie ie
    = (0, WpaIeData WPA_PROTO_RSN p true g true akm capab (if pmkid is Some _ then 1 else 0) off
            (if wpa_cipher_valid_mgmt_group mg then mg else WPA_CIPHER_AES_128_CMAC))
    /\ (if pmkid is Some k then exists o, off = Some o /\ slice o 16 ie = k else True).
Proof.
  intros Hgen Hg Hakm Hcap Hk.
  assert (if pmkid is Some k then length k = 16%nat else True) as Hk16 by (destruct pmkid; tauto).
  apply wpa_gen_wpa_ie_rsn_inv in Hgen as (_ & Hp & s & Hs & Hie).
  destruct (rsn_tail_ok mg pmkid Hk) as [Htl Htb].
  fold (rsn_tail mg pmkid) in Hie. unfold wpa_parse_wpa_ie.
  replace ((1 <=? zlen ie) && (byte_at ie 0 =? WLAN_EID_RSN)) with true
    by (rewrite Hie; now rewrite with_len_long).
  unfold wpa_parse_wpa_ie_rsn. eexists. split.
  - rewrite Hie. rewrite (rsn_body_gen _ g p akm s), rsn_tail_gen by done. reflexivity.
  - destruct pmkid as [q|]; [|done]. eexists. split; [done|].
    destruct Hk as [Hq _]. rewrite Hie. unfold with_len, rsn_tail.
    rewrite !app_assoc, !app_comm_cons, <- (app_assoc _ q), <- Hq. 
    match goal with |- slice (length (?a ++ q ++ ?m) - _) _ _ = _ =>
      replace (if wpa_cipher_valid_mgmt_group mg then 4 else 0)%nat with (length m)
        by (now destruct (wpa_cipher_valid_mgmt_group mg)); apply slice_middle end.
Qed.

Lemma rsn_ie_roundtrip_witness :
  exists off,
    wpa_parse_wpa_ie demo_rsn_ie
    = (0, WpaIeData WPA_PROTO_RSN WPA_CIPHER_CCMP true WPA_CIPHER_CCMP true WPA_KEY_MGMT_PSK
            WPA_CAPABILITY_MFPC 0 off WPA_CIPHER_AES_128_CMAC) /\ True.
Proof.
  apply (rsn_ie_roundtrip 22 WPA_CIPHER_CCMP WPA_CIPHER_CCMP WPA_KEY_MGMT_PSK
           WPA_CIPHER_AES_128_CMAC WPA_CAPABILITY_MFPC None demo_rsn_ie);
    [vm_compute; reflexivity | reflexivity | discriminate | split; [discriminate | reflexivity] | exact I].
Defined.
