(* ===== verification/KeyData.v ===== *)
(** * EAPOL-Key Key Data (src/common/wpa_common.c)

    wpa_parse_kde_ies() splits the Key Data field into information elements and
    KDEs.  The pointers of struct wpa_eapol_ie_parse are offsets into the Key
    Data; a NULL pointer is [None].  The loop runs on fuel; the theorems give the
    fuel that is always enough and that every pointer the function stores, with
    the length its users read from it, lies inside the Key Data. *)

From S2P Require Import Prelude WpaDefs RsnIe.

(* ieee802_11_defs.h WLAN_EID_SUPP_RATES @279-279 *)
Definition WLAN_EID_SUPP_RATES : Z := 1.
(* ieee802_11_defs.h WLAN_EID_SUPPORTED_CHANNELS @296-296 *)
Definition WLAN_EID_SUPPORTED_CHANNELS : Z := 36.
(* ieee802_11_defs.h WLAN_EID_HT_CAP @305-306 *)
Definition WLAN_EID_HT_CAP : Z := 45.
Definition WLAN_EID_QOS : Z := 46.
(* ieee802_11_defs.h WLAN_EID_EXT_SUPP_RATES @308-308 *)
Definition WLAN_EID_EXT_SUPP_RATES : Z := 50.
(* ieee802_11_defs.h WLAN_EID_MOBILITY_DOMAIN @312-314 *)
Definition WLAN_EID_MOBILITY_DOMAIN : Z := 54.
Definition WLAN_EID_FAST_BSS_TRANSITION : Z := 55.
Definition WLAN_EID_TIMEOUT_INTERVAL : Z := 56.
(* ieee802_11_defs.h WLAN_EID_SUPPORTED_OPERATING_CLASSES @317-317 *)
Definition WLAN_EID_SUPPORTED_OPERATING_CLASSES : Z := 59.
(* ieee802_11_defs.h WLAN_EID_LINK_ID @358-358 *)
Definition WLAN_EID_LINK_ID : Z := 101.
(* ieee802_11_defs.h WLAN_EID_EXT_CAPAB @383-383 *)
Definition WLAN_EID_EXT_CAPAB : Z := 127.
(* ieee802_11_defs.h WLAN_EID_VHT_CAP @433-433 *)
Definition WLAN_EID_VHT_CAP : Z := 191.
(* ieee802_11_defs.h WLAN_EID_VHT_AID @439-439 *)
Definition WLAN_EID_VHT_AID : Z := 197.
(* ieee802_11_defs.h WLAN_EID_EXTENSION @459-459 *)
Definition WLAN_EID_EXTENSION : Z := 255.
(* ieee802_11_defs.h WLAN_EID_EXT_HE_CAPABILITIES @478-478 *)
Definition WLAN_EID_EXT_HE_CAPABILITIES : Z := 35.
(* ieee802_11_defs.h WLAN_EID_EXT_HE_6GHZ_BAND_CAP @484-484 *)
Definition WLAN_EID_EXT_HE_6GHZ_BAND_CAP : Z := 59.
(* ieee802_11_defs.h WLAN_TIMEOUT_REASSOC_DEADLINE @736-737 *)
Definition WLAN_TIMEOUT_REASSOC_DEADLINE : Z := 1.
Definition WLAN_TIMEOUT_KEY_LIFETIME : Z := 2.
(* ieee802_11_defs.h OUI_MICROSOFT @1344-1344 *)
Definition OUI_MICROSOFT : Z := 0x0050f2.
(* ieee802_11_defs.h WMM_OUI_TYPE @1375-1377 *)
Definition WMM_OUI_TYPE : Z := 2.
Definition WMM_OUI_SUBTYPE_INFORMATION_ELEMENT : Z := 0.
Definition WMM_OUI_SUBTYPE_PARAMETER_ELEMENT : Z := 1.
(* ieee802_11_defs.h struct ieee80211_ht_capabilities *)
Definition sizeof_ht_capabilities : Z := 26.
(* ieee802_11_defs.h struct ieee80211_vht_capabilities *)
Definition sizeof_vht_capabilities : Z := 12.
(* ieee802_11_defs.h struct ieee80211_he_6ghz_band_cap *)
Definition sizeof_he_6ghz_band_cap : Z := 2.
(* ieee802_11_defs.h IEEE80211_HE_CAPAB_MIN_LEN @2191-2191 *)
Definition IEEE80211_HE_CAPAB_MIN_LEN : Z := 17.

(** A pointer into the Key Data with its length field. *)
Definition ref : Type := option nat * Z.

(* wpa_common.h struct wpa_eapol_ie_parse *)
Record wpa_eapol_ie_parse := WpaEapolIeParse {
  p_wpa_ie : ref;
  p_rsn_ie : ref;
  p_pmkid : option nat;
  p_key_id : option nat;
  p_gtk : ref;
  p_mac_addr : ref;
  p_igtk : ref;
  p_bigtk : ref;
  p_mdie : ref;
  p_ftie : ref;
  p_ip_addr_req : option nat;
  p_ip_addr_alloc : option nat;
  p_transition_disable : ref;
  p_dpp_kde : ref;
  p_oci : ref;
  p_osen : ref;
  p_rsnxe : ref;
  p_reassoc_deadline : option nat;
  p_key_lifetime : option nat;
  p_lnkid : ref;
  p_ext_capab : ref;
  p_supp_rates : ref;
  p_ext_supp_rates : ref;
  p_ht_capabilities : option nat;
  p_vht_capabilities : option nat;
  p_he_capabilities : ref;
  p_he_6ghz_capabilities : option nat;
  p_supp_channels : ref;
  p_supp_oper_classes : ref;
  p_qosinfo : Z;
  p_aid : Z;
  p_wmm : ref
}.
#[export] Instance eta_wpa_eapol_ie_parse : Eta wpa_eapol_ie_parse := fun p =>
  WpaEapolIeParse (p_wpa_ie p) (p_rsn_ie p) (p_pmkid p) (p_key_id p) (p_gtk p) (p_mac_addr p)
    (p_igtk p) (p_bigtk p) (p_mdie p) (p_ftie p) (p_ip_addr_req p) (p_ip_addr_alloc p)
    (p_transition_disable p) (p_dpp_kde p) (p_oci p) (p_osen p) (p_rsnxe p)
    (p_reassoc_deadline p) (p_key_lifetime p) (p_lnkid p) (p_ext_capab p) (p_supp_rates p)
    (p_ext_supp_rates p) (p_ht_capabilities p) (p_vht_capabilities p) (p_he_capabilities p)
    (p_he_6ghz_capabilities p) (p_supp_channels p) (p_supp_oper_classes p) (p_qosinfo p)
    (p_aid p) (p_wmm p).

(** [os_memset(ie, 0, ...)] *)
Definition ie_zero : wpa_eapol_ie_parse :=
  let n : ref := (None, 0) in
  WpaEapolIeParse n n None None n n n n n n None None n n n n n None None n n n n None None n
    None n n 0 0 n.

(** [pos] is the offset of an element whose [2 + pos[1]] bytes are in the buffer;
    [at_ l pos i] is the C expression [pos[i]]. *)
Definition at_ (l : bytes) (pos i : nat) : Z := byte_at l (pos + i).

(* wpa_common.c wpa_parse_vendor_specific *)
Definition wpa_parse_vendor_specific (l : bytes) (pos : nat) (ie : wpa_eapol_ie_parse)
  : wpa_eapol_ie_parse :=
  let len := at_ l pos 1 in
  if len <? 4 then ie else
  let oui := get_be24 (drop (pos + 2) l) in
  if (oui =? OUI_MICROSOFT) && (at_ l pos 5 =? WMM_OUI_TYPE) && (4 <? len) then
    if at_ l pos 6 =? WMM_OUI_SUBTYPE_INFORMATION_ELEMENT then
      ie <| p_wmm := (Some (pos + 2)%nat, len) |>
    else if at_ l pos 6 =? WMM_OUI_SUBTYPE_PARAMETER_ELEMENT then
      ie <| p_wmm := (Some (pos + 2)%nat, len) |>
    else ie
  else ie.

(** The result: 0 recognised, 1 end mark, 2 not recognised. *)
(* wpa_common.c wpa_parse_generic *)
Definition wpa_parse_generic (l : bytes) (pos : nat) (ie : wpa_eapol_ie_parse)
  : Z * wpa_eapol_ie_parse :=
  let len := at_ l pos 1 in
  let sel := get_be32 (drop (pos + 2) l) in
  let kde := (Some (pos + 6)%nat, len - RSN_SELECTOR_LEN) : ref in
  if len =? 0 then (1, ie)
  else if (6 <=? len) && (sel =? WPA_OUI_TYPE) && (at_ l pos 6 =? 1) && (at_ l pos 7 =? 0) then
    (0, ie <| p_wpa_ie := (Some pos, len + 2) |>)
  else if (4 <=? len) && (sel =? OSEN_IE_VENDOR_TYPE) then
    (0, ie <| p_osen := (Some pos, len + 2) |>)
  else if (RSN_SELECTOR_LEN + PMKID_LEN <=? len) && (sel =? RSN_KEY_DATA_PMKID) then
    (0, ie <| p_pmkid := Some (pos + 6)%nat |>)
  else if (RSN_SELECTOR_LEN + 2 <=? len) && (sel =? RSN_KEY_DATA_KEYID) then
    (0, ie <| p_key_id := Some (pos + 6)%nat |>)
  else if (RSN_SELECTOR_LEN + 2 <? len) && (sel =? RSN_KEY_DATA_GROUPKEY) then
    (0, ie <| p_gtk := kde |>)
  else if (RSN_SELECTOR_LEN + 2 <? len) && (sel =? RSN_KEY_DATA_MAC_ADDR) then
    (0, ie <| p_mac_addr := kde |>)
  else if (RSN_SELECTOR_LEN + 2 <? len) && (sel =? RSN_KEY_DATA_IGTK) then
    (0, ie <| p_igtk := kde |>)
  else if (RSN_SELECTOR_LEN + 2 <? len) && (sel =? RSN_KEY_DATA_BIGTK) then
    (0, ie <| p_bigtk := kde |>)
  else if (RSN_SELECTOR_LEN + 1 <=? len) && (sel =? WFA_KEY_DATA_IP_ADDR_REQ) then
    (0, ie <| p_ip_addr_req := Some (pos + 6)%nat |>)
  else if (RSN_SELECTOR_LEN + 3 * 4 <=? len) && (sel =? WFA_KEY_DATA_IP_ADDR_ALLOC) then
    (0, ie <| p_ip_addr_alloc := Some (pos + 6)%nat |>)
  else if (RSN_SELECTOR_LEN + 2 <? len) && (sel =? RSN_KEY_DATA_OCI) then
    (0, ie <| p_oci := kde |>)
  else if (RSN_SELECTOR_LEN + 1 <=? len) && (sel =? WFA_KEY_DATA_TRANSITION_DISABLE) then
    (0, ie <| p_transition_disable := kde |>)
  else if (RSN_SELECTOR_LEN + 2 <=? len) && (sel =? WFA_KEY_DATA_DPP) then
    (0, ie <| p_dpp_kde := kde |>)
  else (2, ie).

(** The body of the loop for the element at [pos]: whether the end mark was
    found ([break]), and the parsed data. *)
(* wpa_common.c wpa_parse_kde_ies @3169-3279 *)
Definition wpa_parse_element (l : bytes) (pos : nat) (ie : wpa_eapol_ie_parse)
  : bool * wpa_eapol_ie_parse :=
  let id := at_ l pos 0 in
  let len := at_ l pos 1 in
  let sub := at_ l pos 2 in
  let whole := (Some pos, len + 2) : ref in
  let body := (Some (pos + 2)%nat, len) : ref in
  if id =? WLAN_EID_RSN then (false, ie <| p_rsn_ie := whole |>)
  else if id =? WLAN_EID_RSNX then (false, ie <| p_rsnxe := whole |>)
  else if id =? WLAN_EID_MOBILITY_DOMAIN then (false, ie <| p_mdie := whole |>)
  else if id =? WLAN_EID_FAST_BSS_TRANSITION then (false, ie <| p_ftie := whole |>)
  else if (id =? WLAN_EID_TIMEOUT_INTERVAL) && (5 <=? len) then
    (false,
     if sub =? WLAN_TIMEOUT_REASSOC_DEADLINE then ie <| p_reassoc_deadline := Some pos |>
     else if sub =? WLAN_TIMEOUT_KEY_LIFETIME then ie <| p_key_lifetime := Some pos |>
     else ie)
  else if id =? WLAN_EID_LINK_ID then
    (false, if 18 <=? len then ie <| p_lnkid := whole |> else ie)
  else if id =? WLAN_EID_EXT_CAPAB then (false, ie <| p_ext_capab := whole |>)
  else if id =? WLAN_EID_SUPP_RATES then (false, ie <| p_supp_rates := whole |>)
  else if id =? WLAN_EID_EXT_SUPP_RATES then (false, ie <| p_ext_supp_rates := whole |>)
  else if (id =? WLAN_EID_HT_CAP) && (sizeof_ht_capabilities <=? len) then
    (false, ie <| p_ht_capabilities := Some (pos + 2)%nat |>)
  else if id =? WLAN_EID_VHT_AID then
    (false, if 2 <=? len then ie <| p_aid := Z.land (get_le16 (drop (pos + 2) l)) 0x3fff |> else ie)
  else if (id =? WLAN_EID_VHT_CAP) && (sizeof_vht_capabilities <=? len) then
    (false, ie <| p_vht_capabilities := Some (pos + 2)%nat |>)
  else if (id =? WLAN_EID_EXTENSION) && (1 + IEEE80211_HE_CAPAB_MIN_LEN <=? len)
          && (sub =? WLAN_EID_EXT_HE_CAPABILITIES) then
    (false, ie <| p_he_capabilities := (Some (pos + 3)%nat, len - 1) |>)
  else if (id =? WLAN_EID_EXTENSION) && (1 + sizeof_he_6ghz_band_cap <=? len)
          && (sub =? WLAN_EID_EXT_HE_6GHZ_BAND_CAP) then
    (false, ie <| p_he_6ghz_capabilities := Some (pos + 3)%nat |>)
  else if (id =? WLAN_EID_QOS) && (1 <=? len) then (false, ie <| p_qosinfo := sub |>)
  else if id =? WLAN_EID_SUPPORTED_CHANNELS then (false, ie <| p_supp_channels := body |>)
  else if id =? WLAN_EID_SUPPORTED_OPERATING_CLASSES then
    (false, if (2 <=? len) && (len <=? 253) then ie <| p_supp_oper_classes := body |> else ie)
  else if id =? WLAN_EID_VENDOR_SPECIFIC then
    let '(ret, ie) := wpa_parse_generic l pos ie in
    if ret =? 1 then (true, ie)
    else if ret =? 2 then (false, wpa_parse_vendor_specific l pos ie)
    else (false, ie)
  else (false, ie).

(** [for (pos = buf, end = pos + len; end - pos > 1; pos += 2 + pos[1])] *)
Fixpoint kde_loop (fuel : nat) (l : bytes) (pos : nat) (ie : wpa_eapol_ie_parse)
  : option (Z * wpa_eapol_ie_parse) :=
  match fuel with
  | O => None
  | S fuel =>
      if zlen l - Z.of_nat pos <=? 1 then Some (0, ie) else
      if (at_ l pos 0 =? 0xdd) && ((Z.of_nat pos =? zlen l - 1) || (at_ l pos 1 =? 0))
      then Some (0, ie) else
      if zlen l - Z.of_nat pos <? 2 + at_ l pos 1 then Some (-1, ie) else
      let '(stop, ie) := wpa_parse_element l pos ie in
      if stop then Some (0, ie) else kde_loop fuel l (pos + 2 + Z.to_nat (at_ l pos 1)) ie
  end.

(* wpa_common.c wpa_parse_kde_ies *)
Definition wpa_parse_kde_ies (buf : bytes) : Z * wpa_eapol_ie_parse :=
  default (-1, ie_zero) (kde_loop (S (length buf)) buf 0 ie_zero).

(* wpa_common.h wpa_supplicant_parse_ies *)
Definition wpa_supplicant_parse_ies (buf : bytes) : Z * wpa_eapol_ie_parse :=
  wpa_parse_kde_ies buf.

(** The bytes a pointer with its length field refers to. *)
Definition ref_bytes (l : bytes) (r : ref) : option bytes :=
  (fun off => slice off (Z.to_nat r.2) l) <$> r.1.

(** ** Every stored pointer is inside the Key Data *)

(** [n] bytes at the pointer [o] are inside a buffer of [len] bytes. *)
Definition ptr_in (len : nat) (o : option nat) (n : Z) : Prop :=
  match o with Some off => 0 <= n /\ Z.of_nat off + n <= Z.of_nat len | None => True end.
Definition ref_in (len : nat) (r : ref) : Prop := ptr_in len r.1 r.2.

(** The lengths on the right of a bare pointer are those its users read. *)
Record ie_inside (len : nat) (ie : wpa_eapol_ie_parse) : Prop := {
  in_wpa_ie : ref_in len (p_wpa_ie ie);
  in_rsn_ie : ref_in len (p_rsn_ie ie);
  in_pmkid : ptr_in len (p_pmkid ie) PMKID_LEN;
  in_key_id : ptr_in len (p_key_id ie) 1;
  in_gtk : ref_in len (p_gtk ie);
  in_mac_addr : ref_in len (p_mac_addr ie);
  in_igtk : ref_in len (p_igtk ie);
  in_bigtk : ref_in len (p_bigtk ie);
  in_mdie : ref_in len (p_mdie ie);
  in_ftie : ref_in len (p_ftie ie);
  in_ip_addr_req : ptr_in len (p_ip_addr_req ie) 1;
  in_ip_addr_alloc : ptr_in len (p_ip_addr_alloc ie) 12;
  in_transition_disable : ref_in len (p_transition_disable ie)
    /\ ptr_in len (p_transition_disable ie).1 1;
  in_dpp_kde : ref_in len (p_dpp_kde ie) /\ ptr_in len (p_dpp_kde ie).1 2;
  in_oci : ref_in len (p_oci ie);
  in_osen : ref_in len (p_osen ie);
  in_rsnxe : ref_in len (p_rsnxe ie);
  in_reassoc_deadline : ptr_in len (p_reassoc_deadline ie) 7;
  in_key_lifetime : ptr_in len (p_key_lifetime ie) 7;
  in_lnkid : ref_in len (p_lnkid ie);
  in_ext_capab : ref_in len (p_ext_capab ie);
  in_supp_rates : ref_in len (p_supp_rates ie);
  in_ext_supp_rates : ref_in len (p_ext_supp_rates ie);
  in_ht_capabilities : ptr_in len (p_ht_capabilities ie) sizeof_ht_capabilities;
  in_vht_capabilities : ptr_in len (p_vht_capabilities ie) sizeof_vht_capabilities;
  in_he_capabilities : ref_in len (p_he_capabilities ie);
  in_he_6ghz_capabilities : ptr_in len (p_he_6ghz_capabilities ie) sizeof_he_6ghz_band_cap;
  in_supp_channels : ref_in len (p_supp_channels ie);
  in_supp_oper_classes : ref_in len (p_supp_oper_classes ie);
  in_wmm : ref_in len (p_wmm ie)
}.

Lemma ie_zero_inside len : ie_inside len ie_zero.
Proof. now split. Qed.

(** Turns the conditions on the path into inequalities. *)
Ltac path_conditions :=
  repeat match goal with
         | H : _ && _ = true |- _ => apply andb_prop in H; destruct H
         | H : (_ <=? _) = true |- _ => apply Z.leb_le in H
         | H : (_ <? _) = true |- _ => apply Z.ltb_lt in H
         | H : (_ <? _) = false |- _ => apply Z.ltb_ge in H
         | H : (_ =? _) = _ |- _ => clear H
         | H : _ && _ = false |- _ => clear H
         end.

(** Each branch stores one pointer; the other fields keep theirs. *)
Ltac inside_branch :=
  path_conditions;
  match goal with
  | H : ie_inside _ _ |- ie_inside _ _ =>
      destruct H; split; try assumption;
      repeat match goal with
             | H : ref_in _ _ |- _ => clear H
             | H : ptr_in _ _ _ |- _ => clear H
             | H : ref_in _ _ /\ _ |- _ => clear H
             end;
      unfold ref_in, ptr_in, RSN_SELECTOR_LEN, PMKID_LEN, sizeof_ht_capabilities, sizeof_vht_capabilities,
        sizeof_he_6ghz_band_cap, IEEE80211_HE_CAPAB_MIN_LEN in *; simpl; lia
  end.

Section Inside.
Context (l : bytes) (pos : nat).
Context (Hin : Z.of_nat pos + 2 + at_ l pos 1 <= zlen l) (Hb : 0 <= at_ l pos 1).

Lemma wpa_parse_vendor_specific_inside ie :
  ie_inside (length l) ie -> ie_inside (length l) (wpa_parse_vendor_specific l pos ie).
Proof.
  intros H. unfold zlen in Hin. unfold wpa_parse_vendor_specific.
  repeat case_match; try done; inside_branch.
Qed.

Lemma wpa_parse_generic_inside ie :
  ie_inside (length l) ie -> ie_inside (length l) (wpa_parse_generic l pos ie).2.
Proof.
  intros H. unfold zlen in Hin. unfold wpa_parse_generic. cbv zeta.
  repeat match goal with
         | |- ie_inside _ (snd (if ?c then _ else _)) =>
             destruct c eqn:?; [cbn [snd]; first [exact H | inside_branch]|]
         end. exact H.
Qed.

Lemma wpa_parse_element_inside ie :
  ie_inside (length l) ie -> ie_inside (length l) (wpa_parse_element l pos ie).2.
Proof.
  intros H. pose proof Hin as Hin'. unfold zlen in Hin'. unfold wpa_parse_element. cbv zeta.
  repeat match goal with
         | |- ie_inside _ (snd (if ?c then (_, if ?d then _ else _) else _)) =>
             destruct c eqn:?; [destruct d eqn:?; cbn [snd]; first [exact H | inside_branch | idtac]|]
         | |- ie_inside _ (if ?c then _ else _) =>
             destruct c eqn:?; first [exact H | inside_branch]
         | |- ie_inside _ (snd (if ?c then (_, _) else _)) =>
             destruct c eqn:?; [cbn [snd]; first [exact H | inside_branch]|]
         end.
  destruct (at_ l pos 0 =? WLAN_EID_VENDOR_SPECIFIC); [|exact H].
  pose proof (wpa_parse_generic_inside ie H) as Hg.
  destruct (wpa_parse_generic l pos ie) as [ret ie']. cbn [snd] in Hg.
  destruct (ret =? 1); [exact Hg|]. destruct (ret =? 2); [|exact Hg].
  now apply wpa_parse_vendor_specific_inside.
Qed.
End Inside.

Lemma kde_loop_spec fuel l pos ie :
  bytes_ok l -> zlen l - Z.of_nat pos <= Z.of_nat fuel -> ie_inside (length l) ie ->
  exists ret ie', kde_loop (S fuel) l pos ie = Some (ret, ie')
    /\ (ret = 0 \/ ret = -1) /\ ie_inside (length l) ie'.
Proof.
  intros Hb Hf Hie.
  assert (forall ret ie', ret = 0 \/ ret = -1 -> ie_inside (length l) ie' ->
    exists r i, Some (ret, ie') = Some (r, i) /\ (r = 0 \/ r = -1) /\ ie_inside (length l) i)
    as Hend by eauto.
  revert pos ie Hf Hie. induction fuel as [|fuel IH]; intros pos ie Hf Hie; cbn [kde_loop];
    (destruct (Z.leb_spec (zlen l - Z.of_nat pos) 1); [now apply Hend; [left|]|]); [lia|].
  destruct ((at_ l pos 0 =? 0xdd) && _); [now apply Hend; [left|]|].
  destruct (Z.ltb_spec (zlen l - Z.of_nat pos) (2 + at_ l pos 1)); [now apply Hend; [right|]|].
  assert (0 <= at_ l pos 1) as Hlen0 by apply (byte_at_ok l (pos + 1) Hb).
  pose proof (wpa_parse_element_inside l pos ltac:(lia) Hlen0 ie Hie) as Hie'.
  destruct (wpa_parse_element l pos ie) as [[] ie']; [now apply Hend; [left|]|].
  apply IH; [lia | exact Hie'].
Qed.

(** C40. wpa_parse_kde_ies() on any Key Data: the loop ends by itself within one
    iteration per byte, the result is 0 or -1, and every pointer it stores, with
    its length field or the length its users read, lies inside the Key Data. *)
Theorem wpa_parse_kde_ies_inside buf :
  bytes_ok buf ->
  is_Some (kde_loop (S (length buf)) buf 0 ie_zero)
  /\ ((wpa_parse_kde_ies buf).1 = 0 \/ (wpa_parse_kde_ies buf).1 = -1)
  /\ ie_inside (length buf) (wpa_parse_kde_ies buf).2.
Proof.
  intros Hb. unfold wpa_parse_kde_ies.
  destruct (kde_loop_spec (length buf) buf 0 ie_zero Hb) as (ret & ie & -> & Hr & Hie);
    [unfold zlen; lia | apply ie_zero_inside |]. simpl. eauto.
Qed.

(** A GTK KDE of 16 bytes, the padding of AES key wrap after it. *)
Definition demo_gtk_kde : bytes :=
  [221; 22] ++ put_be32 RSN_KEY_DATA_GROUPKEY ++ [1; 0] ++ replicate 16 7 ++ [221; 0; 0].

Example demo_gtk_kde_parsed :
  let '(ret, ie) := wpa_parse_kde_ies demo_gtk_kde in
  ret = 0 /\ ref_bytes demo_gtk_kde (p_gtk ie) = Some ([1; 0] ++ replicate 16 7).
Proof. vm_compute. done. Qed.

Lemma wpa_parse_kde_ies_inside_witness :
  is_Some (kde_loop (S (length demo_gtk_kde)) demo_gtk_kde 0 ie_zero)
  /\ ((wpa_parse_kde_ies demo_gtk_kde).1 = 0 \/ (wpa_parse_kde_ies demo_gtk_kde).1 = -1)
  /\ ie_inside (length demo_gtk_kde) (wpa_parse_kde_ies demo_gtk_kde).2.
Proof.
  apply wpa_parse_kde_ies_inside. apply (bool_decide_unpack _). vm_compute. exact I.
Defined.
