(* ===== verification/WpaTypes.v ===== *)
(** * What the WPA state machine exchanges with its surroundings

    The calls the code makes through struct wpa_sm_ctx (src/rsn_supp/wpa.h) and
    into the event loop are recorded as events, in order; what comes back is an
    environment: the n-th question to it is answered by its n-th answer, so that
    any sequence of times, allocation failures, random numbers and driver results
    is possible.  The callbacks do not re-enter the state machine. *)

From S2P Require Import Prelude WpaDefs WpaCommon.

(* pmksa_cache.h enum pmksa_free_reason *)
Inductive pmksa_free_reason := PMKSA_FREE | PMKSA_REPLACE | PMKSA_EXPIRE.
#[export] Instance pmksa_free_reason_eq_dec : EqDecision pmksa_free_reason.
Proof. solve_decision. Defined.

(* common/defs.h enum key_flag *)
Definition KEY_FLAG_MODIFY : Z := 2 ^ 0.
Definition KEY_FLAG_DEFAULT : Z := 2 ^ 1.
Definition KEY_FLAG_RX : Z := 2 ^ 2.
Definition KEY_FLAG_TX : Z := 2 ^ 3.
Definition KEY_FLAG_GROUP : Z := 2 ^ 4.
Definition KEY_FLAG_PAIRWISE : Z := 2 ^ 5.
Definition KEY_FLAG_RX_TX : Z := Z.lor KEY_FLAG_RX KEY_FLAG_TX.
Definition KEY_FLAG_GROUP_RX_TX_DEFAULT : Z := Z.lor (Z.lor KEY_FLAG_GROUP KEY_FLAG_RX_TX) KEY_FLAG_DEFAULT.
Definition KEY_FLAG_GROUP_RX : Z := Z.lor KEY_FLAG_GROUP KEY_FLAG_RX.
Definition KEY_FLAG_PAIRWISE_RX_TX_MODIFY : Z := Z.lor (Z.lor KEY_FLAG_PAIRWISE KEY_FLAG_RX_TX) KEY_FLAG_MODIFY.

(* ieee802_11_defs.h WLAN_REASON_UNSPECIFIED @214-214 *)
Definition WLAN_REASON_UNSPECIFIED : Z := 1.
(* ieee802_11_defs.h WLAN_REASON_IE_IN_4WAY_DIFFERS @230-230 *)
Definition WLAN_REASON_IE_IN_4WAY_DIFFERS : Z := 17.

(** Calls out of the component. *)
Inductive wpa_event :=
| EvState (st : wpa_states)                                  (* ctx->set_state() *)
| EvDeauth (reason : Z)                                      (* ctx->deauthenticate() *)
| EvReconnect                                                (* ctx->reconnect() *)
| EvSetKey (alg : wpa_alg) (addr : option bytes) (key_idx : Z) (set_tx : bool)
    (seq key : bytes) (flags : Z) (ok : bool)                (* ctx->set_key() and its result *)
| EvEtherSend (dest : bytes) (frame : bytes)                 (* ctx->ether_send(ETH_P_EAPOL) *)
| EvRandom (n : bytes)                                       (* random_get_bytes() that succeeded *)
| EvCancelAuthTimeout                                        (* ctx->cancel_auth_timeout() *)
| EvSetProtection (addr : bytes) (rx_tx : bool)              (* ctx->mlme_setprotection() *)
| EvRekeyOffload (kek kck replay : bytes)                    (* ctx->set_rekey_offload() *)
| EvKeyMgmtPmk (pmk : bytes)                                 (* ctx->key_mgmt_set_pmk() *)
| EvStorePtk (addr : bytes) (cipher lifetime : Z) (tk : bytes) (* ctx->store_ptk() *)
| EvTransitionDisable (bitmap : Z)                           (* ctx->transition_disable() *)
| EvAddPmkid (network_ctx : Z) (bssid pmkid : bytes) (cache_id : option bytes) (pmk : bytes)
    (lifetime threshold akmp : Z)                            (* ctx->add_pmkid() *)
| EvRemovePmkid (network_ctx : Z) (bssid pmkid : bytes) (cache_id : option bytes). (* ctx->remove_pmkid() *)

Class WpaEnv := {
  env_time : nat -> Z;                (* os_get_reltime(): now.sec *)
  env_malloc : nat -> bool;           (* an allocation succeeds *)
  env_random : nat -> option bytes;   (* random_get_bytes(32) *)
  env_send : nat -> Z;                (* result of ctx->ether_send() *)
  env_set_key : nat -> bool;          (* ctx->set_key() succeeds *)
  env_get_bssid : nat -> option bytes; (* ctx->get_bssid() *)
  (** ctx->get_beacon_ie(): its result, and the WPA IE, RSN IE and RSNXE it set for the AP *)
  env_beacon_ie : nat -> Z * option (option bytes * option bytes * option bytes);
  env_network_ctx : nat -> Z;         (* ctx->get_network_ctx(), 0 for NULL *)
  env_eapol_version : Z               (* wpa_s->conf->eapol_version *)
}.

(** Signed 32-bit value of a long assigned to an int. *)
Definition s32 (n : Z) : Z := (n + 2 ^ 31) mod 2 ^ 32 - 2 ^ 31.

Lemma s32_range n : - 2 ^ 31 <= s32 n < 2 ^ 31.
Proof. unfold s32. pose proof (Z.mod_pos_bound (n + 2 ^ 31) (2 ^ 32) ltac:(lia)). lia. Qed.

Lemma s32_small n : - 2 ^ 31 <= n < 2 ^ 31 -> s32 n = n.
Proof. intros. unfold s32. rewrite Z.mod_small; lia. Qed.
