(* ===== verification/Eloop.v ===== *)
(** * The event loop (src/utils/eloop.c, the select() backend)

    The global [eloop] is the record [eloop_data] inside a [world] that also counts
    the questions asked of the environment (clock, memory, select(), the code of
    the registered handlers) and logs what happens.  A handler is a function
    pointer; what its code does to the loop is a list of calls of the functions of
    this file, given by the environment for each call.  Signals arrive while
    select() waits or while a handler runs.  [None] is an assertion that fails or a
    write outside an fd_set.  The timeout list is a list here; DlList.v shows that
    list.h implements one. *)

From S2P Require Import Prelude WpaDefs WpaCommon WpaTypes.

(** A long, and the value of an expression of that type that overflowed. *)
Definition s64 (n : Z) : Z := (n + 2 ^ 63) mod 2 ^ 64 - 2 ^ 63.

(* utils/os.h struct os_reltime *)
Record os_reltime := Reltime { sec : Z; usec : Z }.

(* utils/os.h os_reltime_before *)
Definition os_reltime_before (a b : os_reltime) : bool :=
  (sec a <? sec b) || ((sec a =? sec b) && (usec a <? usec b)).

(* utils/os.h os_reltime_sub *)
Definition os_reltime_sub (a b : os_reltime) : os_reltime :=
  let s := s64 (sec a - sec b) in
  let u := s64 (usec a - usec b) in
  if u <? 0 then Reltime (s64 (s - 1)) (u + 1000000) else Reltime s u.

(** Pointers to handlers and to their data are numbers. *)
Definition ptr : Type := Z.
(* utils/eloop.h ELOOP_ALL_CTX @23-23 *)
Definition ELOOP_ALL_CTX : ptr := -1.

(* eloop.c struct eloop_sock *)
Record eloop_sock := Sock { sock : Z; s_eloop_data : ptr; s_user_data : ptr; s_handler : ptr }.

(** [t_id] is the address of the node, unique among the allocations of a run. *)
(* eloop.c struct eloop_timeout *)
Record eloop_timeout := Timeout {
  t_id : nat; time : os_reltime; t_eloop_data : ptr; t_user_data : ptr; t_handler : ptr
}.

(* eloop.c struct eloop_signal *)
Record eloop_signal := Signal { sig : Z; g_user_data : ptr; g_handler : ptr; g_signaled : Z }.
#[export] Instance eta_eloop_signal : Eta eloop_signal :=
  fun g => Signal (sig g) (g_user_data g) (g_handler g) (g_signaled g).

(** [count] is the length of the table. *)
(* eloop.c struct eloop_sock_table *)
Record eloop_sock_table := SockTable { table : list eloop_sock; changed : bool }.
#[export] Instance eta_eloop_sock_table : Eta eloop_sock_table :=
  fun t => SockTable (table t) (changed t).

(* utils/eloop.h eloop_event_type @31-35 *)
Inductive eloop_event_type := EVENT_TYPE_READ | EVENT_TYPE_WRITE | EVENT_TYPE_EXCEPTION.

(* eloop.c struct eloop_data *)
Record eloop_data := EloopData {
  max_sock : Z;
  count : Z;
  readers : eloop_sock_table;
  writers : eloop_sock_table;
  exceptions : eloop_sock_table;
  timeout : list eloop_timeout;
  signals : list eloop_signal;
  signaled : Z;
  pending_terminate : bool;
  terminate : bool
}.
#[export] Instance eta_eloop_data : Eta eloop_data := fun e =>
  EloopData (max_sock e) (count e) (readers e) (writers e) (exceptions e) (timeout e)
    (signals e) (signaled e) (pending_terminate e) (terminate e).

(** ** What the rest of the program does *)

(** The calls a handler makes, and signals that interrupt it. *)
Inductive eloop_op :=
| OpRegisterTimeout (secs usecs : Z) (handler eloop_data user_data : ptr)
| OpCancelTimeout (handler eloop_data user_data : ptr)
| OpCancelTimeoutOne (handler eloop_data user_data : ptr)
| OpDeplete (secs usecs : Z) (handler eloop_data user_data : ptr)
| OpReplenish (secs usecs : Z) (handler eloop_data user_data : ptr)
| OpRegisterSock (s : Z) (type : eloop_event_type) (handler eloop_data user_data : ptr)
| OpUnregisterSock (s : Z) (type : eloop_event_type)
| OpSignal (sig : Z)
| OpTerminate.

Inductive eloop_log :=
| EvRegistered (t : eloop_timeout)                 (* a timeout entered the list *)
| EvCancelled (t : eloop_timeout)                  (* it was removed by a cancel function *)
| EvTimeout (t : eloop_timeout) (now : os_reltime) (* its handler was called *)
| EvSock (type : eloop_event_type) (s : eloop_sock) (* a socket handler was called *)
| EvSignal (g : eloop_signal)                      (* a signal handler was called *)
| EvSelect (tv : option os_reltime).               (* select() with this timeout *)

(** An answer of select(): its result, whether errno is neither 0 nor EINTR, the
    descriptors left in the three sets, and signals that arrived. *)
Record select_answer := SelectAnswer {
  res : Z; hard_error : bool; rfds : Z -> bool; wfds : Z -> bool; efds : Z -> bool;
  arrived : list Z
}.

Class EloopEnv := {
  clock : nat -> option os_reltime;   (* os_get_reltime() *)
  alloc_ok : nat -> bool;             (* os_zalloc(), os_malloc(), os_realloc_array() *)
  select_ : nat -> select_answer;
  on_call : nat -> list eloop_op;     (* the code of the handler that is called *)
  uninit : os_reltime                 (* a local variable before it is set *)
}.

Record world := World {
  el : eloop_data; n_clock : nat; n_alloc : nat; n_select : nat; n_call : nat; log : list eloop_log
}.
#[export] Instance eta_world : Eta world :=
  fun w => World (el w) (n_clock w) (n_alloc w) (n_select w) (n_call w) (log w).

Definition upd (f : eloop_data -> eloop_data) (w : world) : world := w <| el := f (el w) |>.
Definition emit (e : eloop_log) (w : world) : world := w <| log := log w ++ [e] |>.

(* eloop.c eloop_init *)
Definition eloop_init : eloop_data :=
  EloopData 0 0 (SockTable [] false) (SockTable [] false) (SockTable [] false) [] [] 0 false false.

Section Eloop.
Context `{EloopEnv}.

(** os_get_reltime(&now): on failure [now] keeps what it held. *)
Definition os_get_reltime (old : os_reltime) (w : world) : bool * os_reltime * world :=
  let w' := w <| n_clock := S (n_clock w) |> in
  match clock (n_clock w) with Some t => (true, t, w') | None => (false, old, w') end.

Definition os_alloc (w : world) : bool * world := (alloc_ok (n_alloc w), w <| n_alloc := S (n_alloc w) |>).

(** ** Timeouts *)

(** [while (timeout->time.usec >= 1000000)] *)
(* eloop.c eloop_register_timeout @795-798 *)
Fixpoint carry_usec (fuel : nat) (t : os_reltime) : os_reltime :=
  match fuel with
  | O => t
  | S fuel =>
      if 1000000 <=? usec t then carry_usec fuel (Reltime (s64 (sec t + 1)) (usec t - 1000000)) else t
  end.

(** [dl_list_for_each]: in front of the first timeout that is later, or at the end. *)
(* eloop.c eloop_register_timeout @808-815 *)
Fixpoint insert_timeout (t : eloop_timeout) (l : list eloop_timeout) : list eloop_timeout :=
  match l with
  | [] => [t]
  | tmp :: l => if os_reltime_before (time t) (time tmp) then t :: tmp :: l else tmp :: insert_timeout t l
  end.

(** [secs] and [usecs] are unsigned int. *)
(* eloop.c eloop_register_timeout *)
Definition eloop_register_timeout (secs usecs : Z) (handler eloop_data user_data : ptr) (w : world) : Z * world :=
  let id := n_alloc w in
  let '(ok, w) := os_alloc w in
  if negb ok then (-1, w) else
  let '(ok, now, w) := os_get_reltime uninit w in
  if negb ok then (-1, w) else
  let now_sec := sec now in
  let s := s64 (sec now + secs) in
  if s <? now_sec then (0, w) else
  let u := s64 (usec now + usecs) in
  let t := carry_usec (S (Z.to_nat (u / 1000000))) (Reltime s u) in
  if sec t <? now_sec then (0, w) else
  let t := Timeout id t eloop_data user_data handler in
  (0, w ▸ upd (fun e => e <| timeout := insert_timeout t (timeout e) |>) ▸ emit (EvRegistered t)).

Definition matches_ctx (p q : ptr) : bool := (p =? q) || (q =? ELOOP_ALL_CTX).

(** The timeouts that eloop_cancel_timeout() removes. *)
(* eloop.c eloop_cancel_timeout @849-855 *)
Definition cancels (handler eloop_data user_data : ptr) (t : eloop_timeout) : bool :=
  (t_handler t =? handler) && matches_ctx (t_eloop_data t) eloop_data && matches_ctx (t_user_data t) user_data.

(* eloop.c eloop_cancel_timeout *)
Definition eloop_cancel_timeout (handler eloop_data user_data : ptr) (w : world) : Z * world :=
  let removed := List.filter (cancels handler eloop_data user_data) (timeout (el w)) in
  let kept := List.filter (fun t => negb (cancels handler eloop_data user_data t)) (timeout (el w)) in
  (zlen removed,
   fold_left (fun w t => emit (EvCancelled t) w) removed (upd (fun e => e <| timeout := kept |>) w)).

(** The test of the functions that look for one registration. *)
(* eloop.c eloop_is_timeout_registered @896-898 *)
Definition is_registration (handler eloop_data user_data : ptr) (t : eloop_timeout) : bool :=
  (t_handler t =? handler) && (t_eloop_data t =? eloop_data) && (t_user_data t =? user_data).

(** The first element with a property, and the others. *)
Fixpoint take_first {A} (f : A -> bool) (l : list A) : option (A * list A) :=
  match l with
  | [] => None
  | x :: l => if f x then Some (x, l) else let? (y, l) := take_first f l in Some (y, x :: l)
  end.

(** The return value and [*remaining]. *)
(* eloop.c eloop_cancel_timeout_one *)
Definition eloop_cancel_timeout_one (handler eloop_data user_data : ptr) (w : world)
  : Z * os_reltime * world :=
  let '(_, now, w) := os_get_reltime uninit w in
  match take_first (is_registration handler eloop_data user_data) (timeout (el w)) with
  | None => (0, Reltime 0 0, w)
  | Some (t, rest) =>
      let remaining := if os_reltime_before now (time t) then os_reltime_sub (time t) now else Reltime 0 0 in
      (1, remaining, w ▸ upd (fun e => e <| timeout := rest |>) ▸ emit (EvCancelled t))
  end.

(* eloop.c eloop_is_timeout_registered *)
Definition eloop_is_timeout_registered (handler eloop_data user_data : ptr) (w : world) : bool :=
  existsb (is_registration handler eloop_data user_data) (timeout (el w)).

(** The body eloop_deplete_timeout() and eloop_replenish_timeout() share; [change]
    compares the requested and the remaining time. *)
(* eloop.c eloop_deplete_timeout *)
Definition adjust_timeout (change : os_reltime -> os_reltime -> bool) (req_secs req_usecs : Z)
    (handler eloop_data user_data : ptr) (w : world) : Z * world :=
  match List.find (is_registration handler eloop_data user_data) (timeout (el w)) with
  | None => (-1, w)
  | Some tmp =>
      let requested := Reltime req_secs req_usecs in
      let '(_, now, w) := os_get_reltime uninit w in
      let remaining := os_reltime_sub (time tmp) now in
      if change requested remaining then
        let '(_, w) := eloop_cancel_timeout handler eloop_data user_data w in
        let '(_, w) := eloop_register_timeout (u32 (sec requested)) (u32 (usec requested))
                         handler eloop_data user_data w in
        (1, w)
      else (0, w)
  end.

(* eloop.c eloop_deplete_timeout *)
Definition eloop_deplete_timeout := adjust_timeout os_reltime_before.
(* eloop.c eloop_replenish_timeout *)
Definition eloop_replenish_timeout := adjust_timeout (fun req rem => os_reltime_before rem req).

(** ** Sockets *)

(* eloop.c eloop_get_sock_table *)
Definition eloop_get_sock_table (type : eloop_event_type) (e : eloop_data) : eloop_sock_table :=
  match type with
  | EVENT_TYPE_READ => readers e
  | EVENT_TYPE_WRITE => writers e
  | EVENT_TYPE_EXCEPTION => exceptions e
  end.

(** Writing through the pointer it returns. *)
Definition set_sock_table (type : eloop_event_type) (t : eloop_sock_table) (e : eloop_data) : eloop_data :=
  match type with
  | EVENT_TYPE_READ => e <| readers := t |>
  | EVENT_TYPE_WRITE => e <| writers := t |>
  | EVENT_TYPE_EXCEPTION => e <| exceptions := t |>
  end.

(* eloop.c eloop_sock_table_add_sock *)
Definition eloop_sock_table_add_sock (type : eloop_event_type) (s : Z) (handler eloop_data user_data : ptr)
    (w : world) : Z * world :=
  let new_max_sock := if max_sock (el w) <? s then s else max_sock (el w) in
  let '(ok, w) := os_alloc w in
  if negb ok then (-1, w) else
  let t := eloop_get_sock_table type (el w) in
  let t := SockTable (table t ++ [Sock s eloop_data user_data handler]) true in
  (0, upd (fun e => set_sock_table type t e <| max_sock := new_max_sock |> <| count := count e + 1 |>) w).

(* eloop.c eloop_sock_table_remove_sock *)
Definition eloop_sock_table_remove_sock (type : eloop_event_type) (s : Z) (w : world) : world :=
  let t := eloop_get_sock_table type (el w) in
  match take_first (fun x => sock x =? s) (table t) with
  | None => w
  | Some (_, rest) => upd (fun e => set_sock_table type (SockTable rest true) e <| count := count e - 1 |>) w
  end.

(* eloop.c eloop_register_sock *)
Definition eloop_register_sock (s : Z) (type : eloop_event_type) (handler eloop_data user_data : ptr)
    (w : world) : option (Z * world) :=
  if s <? 0 then None else Some (eloop_sock_table_add_sock type s handler eloop_data user_data w).

(* eloop.c eloop_unregister_sock *)
Definition eloop_unregister_sock (s : Z) (type : eloop_event_type) (w : world) : world :=
  eloop_sock_table_remove_sock type s w.

(* eloop.c eloop_register_read_sock *)
Definition eloop_register_read_sock (s : Z) (handler eloop_data user_data : ptr) (w : world) : option (Z * world) :=
  eloop_register_sock s EVENT_TYPE_READ handler eloop_data user_data w.
(* eloop.c eloop_unregister_read_sock *)
Definition eloop_unregister_read_sock (s : Z) (w : world) : world := eloop_unregister_sock s EVENT_TYPE_READ w.

(* eloop.c eloop_sock_requeue *)
Definition eloop_sock_requeue : Z := 0.

(** ** Signals *)

Definition SIGINT : Z := 2.
Definition SIGTERM : Z := 15.

(** The loop that counts the signal in the first entry for it. *)
(* eloop.c eloop_handle_signal @998-1003 *)
Fixpoint mark_signal (s : Z) (l : list eloop_signal) : list eloop_signal :=
  match l with
  | [] => []
  | g :: l => if sig g =? s then g <| g_signaled := s32 (g_signaled g + 1) |> :: l else g :: mark_signal s l
  end.

(** alarm(2) kills the process when the signal is not processed in time; that is
    not modelled. *)
(* eloop.c eloop_handle_signal *)
Definition eloop_handle_signal (s : Z) (e : eloop_data) : eloop_data :=
  let e := if ((s =? SIGINT) || (s =? SIGTERM)) && negb (pending_terminate e)
           then e <| pending_terminate := true |> else e in
  e <| signaled := s32 (signaled e + 1) |> <| signals := mark_signal s (signals e) |>.

(** The program registers its signals before it runs the loop. *)
(* eloop.c eloop_register_signal *)
Definition eloop_register_signal (s : Z) (handler user_data : ptr) (w : world) : Z * world :=
  let '(ok, w) := os_alloc w in
  if negb ok then (-1, w)
  else (0, upd (fun e => e <| signals := signals e ++ [Signal s user_data handler 0] |>) w).

(* eloop.c eloop_register_signal_terminate *)
Definition eloop_register_signal_terminate (handler user_data : ptr) (w : world) : Z * world :=
  let '(ret, w) := eloop_register_signal SIGINT handler user_data w in
  if ret =? 0 then eloop_register_signal SIGTERM handler user_data w else (ret, w).

(* eloop.c eloop_register_signal_reconfig *)
Definition eloop_register_signal_reconfig (handler user_data : ptr) (w : world) : Z * world :=
  eloop_register_signal 1 handler user_data w.

(* eloop.c eloop_terminate *)
Definition eloop_terminate (e : eloop_data) : eloop_data := e <| terminate := true |>.

(* eloop.c eloop_terminated *)
Definition eloop_terminated (e : eloop_data) : bool := terminate e || pending_terminate e.

(** ** Calling a handler *)

Definition do_op (op : eloop_op) (w : world) : option world :=
  match op with
  | OpRegisterTimeout s u h d c => Some (eloop_register_timeout (u32 s) (u32 u) h d c w).2
  | OpCancelTimeout h d c => Some (eloop_cancel_timeout h d c w).2
  | OpCancelTimeoutOne h d c => Some (eloop_cancel_timeout_one h d c w).2
  | OpDeplete s u h d c => Some (eloop_deplete_timeout (u32 s) (u32 u) h d c w).2
  | OpReplenish s u h d c => Some (eloop_replenish_timeout (u32 s) (u32 u) h d c w).2
  | OpRegisterSock s t h d c => let? r := eloop_register_sock s t h d c w in Some r.2
  | OpUnregisterSock s t => Some (eloop_unregister_sock s t w)
  | OpSignal s => Some (upd (eloop_handle_signal s) w)
  | OpTerminate => Some (upd eloop_terminate w)
  end.

Fixpoint do_ops (ops : list eloop_op) (w : world) : option world :=
  match ops with
  | [] => Some w
  | op :: ops => let? w := do_op op w in do_ops ops w
  end.

Definition call_handler (e : eloop_log) (w : world) : option world :=
  do_ops (on_call (n_call w)) (w ▸ emit e ▸ (fun w => w <| n_call := S (n_call w) |>)).

(** The loop over the signals, from entry [i] on. *)
(* eloop.c eloop_process_pending_signals @1022-1028 *)
Fixpoint pending_signals_loop (n i : nat) (w : world) : option world :=
  match n with
  | O => Some w
  | S n =>
      let? w :=
        match signals (el w) !! i with
        | Some g =>
            if g_signaled g =? 0 then Some w
            else call_handler (EvSignal g)
                   (upd (fun e => e <| signals := <[i := g <| g_signaled := 0 |>]> (signals e) |>) w)
        | None => Some w
        end in
      pending_signals_loop n (S i) w
  end.

(* eloop.c eloop_process_pending_signals *)
Definition eloop_process_pending_signals (w : world) : option world :=
  if signaled (el w) =? 0 then Some w else
  let w := upd (fun e => e <| signaled := 0 |> <| pending_terminate := false |>) w in
  pending_signals_loop (length (signals (el w))) 0 w.

(** ** The loop *)

Definition FD_SETSIZE : Z := 1024.

(** FD_SET() of a descriptor beyond the set writes outside of it. *)
(* eloop.c eloop_sock_table_set_fds @577-591 *)
Definition eloop_sock_table_set_fds (t : eloop_sock_table) : option unit :=
  if forallb (fun s => (0 <=? sock s) && (sock s <? FD_SETSIZE)) (table t) then Some tt else None.

(** The loop of the dispatcher from entry [i] on; it ends when a handler changed
    the table, so that the [n] entries it started with are enough. *)
(* eloop.c eloop_sock_table_dispatch @603-611 *)
Fixpoint dispatch_loop (type : eloop_event_type) (fds : Z -> bool) (n i : nat) (w : world) : option world :=
  match n with
  | O => Some w
  | S n =>
      match table (eloop_get_sock_table type (el w)) !! i with
      | None => Some w
      | Some s =>
          if fds (sock s) then
            let? w := call_handler (EvSock type s) w in
            if changed (eloop_get_sock_table type (el w)) then Some w
            else dispatch_loop type fds n (S i) w
          else dispatch_loop type fds n (S i) w
      end
  end.

Definition clear_changed (type : eloop_event_type) (e : eloop_data) : eloop_data :=
  set_sock_table type (eloop_get_sock_table type e <| changed := false |>) e.

(* eloop.c eloop_sock_table_dispatch @594-612 *)
Definition eloop_sock_table_dispatch (type : eloop_event_type) (fds : Z -> bool) (w : world) : option world :=
  let w := upd (clear_changed type) w in
  dispatch_loop type fds (length (table (eloop_get_sock_table type (el w)))) 0 w.

(** The timeout of select(): how long until the first timeout is due. *)
(* eloop.c eloop_run @1120-1143 *)
Definition select_timeout (now : os_reltime) (w : world) : option os_reltime * os_reltime * world :=
  match timeout (el w) with
  | [] => (None, now, w)
  | t :: _ =>
      let '(_, now, w) := os_get_reltime now w in
      (Some (if os_reltime_before now (time t) then os_reltime_sub (time t) now else Reltime 0 0), now, w)
  end.

(** At most one timeout is served in an iteration. *)
(* eloop.c eloop_run @1205-1222 *)
Definition check_timeout (now : os_reltime) (w : world) : option (os_reltime * world) :=
  match timeout (el w) with
  | [] => Some (now, w)
  | t :: rest =>
      let '(_, now, w) := os_get_reltime now w in
      if os_reltime_before now (time t) then Some (now, w)
      else let? w := call_handler (EvTimeout t now) (upd (fun e => e <| timeout := rest |>) w) in
           Some (now, w)
  end.

Definition any_changed (e : eloop_data) : bool :=
  changed (readers e) || changed (writers e) || changed (exceptions e).

(** The condition of the while loop. *)
(* eloop.c eloop_run @1102-1104 *)
Definition keeps_running (e : eloop_data) : bool :=
  negb (terminate e)
  && (negb (bool_decide (timeout e = [])) || negb (bool_decide (table (readers e) = []))
      || negb (bool_decide (table (writers e) = [])) || negb (bool_decide (table (exceptions e) = []))).

(** The body: the loop goes on, was left by break, or by goto out. *)
Inductive iteration := Continue (now : os_reltime) (w : world) | Break (w : world) | Out (w : world).

(* eloop.c eloop_run @1154-1256 *)
Definition run_body (now : os_reltime) (w : world) : option iteration :=
  let '(tv, now, w) := select_timeout now w in
  let? _ := eloop_sock_table_set_fds (readers (el w)) in
  let? _ := eloop_sock_table_set_fds (writers (el w)) in
  let? _ := eloop_sock_table_set_fds (exceptions (el w)) in
  let a := select_ (n_select w) in
  let w := w ▸ emit (EvSelect tv) ▸ (fun w => w <| n_select := S (n_select w) |>)
             ▸ upd (fun e => fold_left (fun e s => eloop_handle_signal s e) (arrived a) e) in
  if (res a <? 0) && hard_error a then Some (Out w) else
  let w := upd (fun e => e ▸ clear_changed EVENT_TYPE_READ ▸ clear_changed EVENT_TYPE_WRITE
                           ▸ clear_changed EVENT_TYPE_EXCEPTION) w in
  let? w := eloop_process_pending_signals w in
  let? (now, w) := check_timeout now w in
  if res a <=? 0 then Some (Continue now w) else
  if any_changed (el w) then Some (Continue now w) else
  let? w := eloop_sock_table_dispatch EVENT_TYPE_READ (rfds a) w in
  let? w := eloop_sock_table_dispatch EVENT_TYPE_WRITE (wfds a) w in
  let? w := eloop_sock_table_dispatch EVENT_TYPE_EXCEPTION (efds a) w in
  Some (Continue now w).

(* eloop.c eloop_run @1107-1118 *)
Definition run_once (now : os_reltime) (w : world) : option iteration :=
  if pending_terminate (el w) then
    let? w := eloop_process_pending_signals w in
    if terminate (el w) then Some (Break w) else run_body now w
  else run_body now w.

(** At most [fuel] iterations; the flag tells that the function returned. *)
(* eloop.c eloop_run @1102-1259 *)
Fixpoint run_loop (fuel : nat) (now : os_reltime) (w : world) : option (bool * world) :=
  match fuel with
  | O => Some (false, w)
  | S fuel =>
      if keeps_running (el w) then
        let? r := run_once now w in
        match r with
        | Continue now w => run_loop fuel now w
        | Break w => Some (true, upd (fun e => e <| terminate := false |>) w)
        | Out w => Some (true, w)
        end
      else Some (true, upd (fun e => e <| terminate := false |>) w)
  end.

(** The three allocations of the descriptor sets first. *)
(* eloop.c eloop_run *)
Definition eloop_run (fuel : nat) (w : world) : option (bool * world) :=
  let '(ok1, w) := os_alloc w in
  let '(ok2, w) := os_alloc w in
  let '(ok3, w) := os_alloc w in
  if negb (ok1 && ok2 && ok3) then Some (true, w) else run_loop fuel uninit w.

(** Every timeout is freed; the messages are not modelled. *)
(* eloop.c eloop_destroy *)
Definition eloop_destroy (w : world) : world :=
  let w := w <| n_clock := S (n_clock w) |> in
  fold_left (fun w t => emit (EvCancelled t) w) (timeout (el w))
    (upd (fun e => e <| timeout := [] |> <| readers := SockTable [] (changed (readers e)) |>
                     <| writers := SockTable [] (changed (writers e)) |>
                     <| exceptions := SockTable [] (changed (exceptions e)) |> <| signals := [] |>) w).
End Eloop.
