(* ===== verification/EloopProps.v ===== *)
(** * The event loop: order, conservation and service of timeouts

    An invariant of the loop is proved once for the elementary steps a run is made
    of ([closed]); it then holds after eloop_run() whatever the handlers do. *)

From S2P Require Import Prelude WpaTypes Eloop.
From Stdlib Require Import Sorted Permutation.

(** ** Times *)

(** [a] is not after [b]. *)
Definition not_after (a b : os_reltime) : Prop := os_reltime_before b a = false.

Lemma before_spec a b : os_reltime_before a b = true <-> sec a < sec b \/ (sec a = sec b /\ usec a < usec b).
Proof. unfold os_reltime_before. rewrite orb_true_iff, andb_true_iff, !Z.ltb_lt, Z.eqb_eq. done. Qed.

Lemma not_after_spec a b : not_after a b <-> sec a < sec b \/ (sec a = sec b /\ usec a <= usec b).
Proof. unfold not_after. rewrite <- not_true_iff_false, before_spec. lia. Qed.

#[export] Instance not_after_preorder : PreOrder not_after.
Proof. split; intros a *; rewrite ?not_after_spec; intros; rewrite ?not_after_spec in *; lia. Qed.

Lemma before_not_after a b : os_reltime_before a b = true -> not_after a b.
Proof. rewrite before_spec, not_after_spec. lia. Qed.

Definition due_order (s t : eloop_timeout) : Prop := not_after (time s) (time t).

(** ** The order of the timeout list *)

Lemma insert_timeout_split t l : exists pre post,
  l = pre ++ post /\ insert_timeout t l = pre ++ t :: post
  /\ Forall (fun x => due_order x t) pre
  /\ match post with [] => True | x :: _ => os_reltime_before (time t) (time x) = true end.
Proof.
  induction l as [|x l (pre & post & -> & E & Hp & Hq)]; [exists [], []; auto|]. cbn [insert_timeout].
  destruct (os_reltime_before (time t) (time x)) eqn:Eb.
  - exists [], (x :: pre ++ post). auto.
  - exists (x :: pre), post. rewrite E. repeat split; auto.
Qed.

Lemma insert_timeout_perm t l : insert_timeout t l ≡ₚ t :: l.
Proof.
  destruct (insert_timeout_split t l) as (pre & post & -> & -> & _). symmetry. apply Permutation_middle.
Qed.

Lemma insert_timeout_sorted t l : StronglySorted due_order l -> StronglySorted due_order (insert_timeout t l).
Proof.
  induction 1 as [|x l Hl IH Hx]; cbn [insert_timeout]; [repeat constructor|].
  destruct (os_reltime_before (time t) (time x)) eqn:Eb.
  - apply before_not_after in Eb. constructor; [now constructor|]. constructor; [exact Eb|].
    eapply Forall_impl; [exact Hx|]. intros y Hy. exact (transitivity Eb Hy).
  - constructor; [done|]. rewrite insert_timeout_perm. now constructor.
Qed.

Lemma filter_sorted {A} (R : A -> A -> Prop) f l : StronglySorted R l -> StronglySorted R (List.filter f l).
Proof.
  induction 1 as [|x l Hl IH Hx]; cbn [List.filter]; [constructor|]. destruct (f x); [|done].
  constructor; [done|]. apply Forall_forall. intros y Hy. apply list_elem_of_In, filter_In in Hy as [Hy _].
  rewrite Forall_forall in Hx. now apply Hx, list_elem_of_In.
Qed.

Lemma filter_split {A} (f : A -> bool) l : l ≡ₚ List.filter f l ++ List.filter (fun x => negb (f x)) l.
Proof.
  induction l as [|x l IH]; [done|]. cbn [List.filter]. destruct (f x); cbn [negb app].
  - now rewrite IH at 1.
  - rewrite IH at 1. apply Permutation_middle.
Qed.

Lemma take_first_split {A} (f : A -> bool) l x rest : take_first f l = Some (x, rest) ->
  exists pre post, l = pre ++ x :: post /\ rest = pre ++ post /\ f x = true.
Proof.
  revert rest. induction l as [|y l IH]; intros rest; cbn [take_first]; [done|]. destruct (f y) eqn:Ef.
  - intros [= <- <-]. now exists [], l.
  - destruct (take_first f l) as [[z l']|] eqn:E; [|done]. intros [= -> <-].
    destruct (IH l' eq_refl) as (pre & post & -> & -> & Hf). now exists (y :: pre), post.
Qed.

Lemma sorted_remove_middle {A} (R : A -> A -> Prop) pre x post :
  StronglySorted R (pre ++ x :: post) -> StronglySorted R (pre ++ post).
Proof.
  induction pre as [|y pre IH]; cbn [app]; intros H; apply StronglySorted_inv in H as [H Hy]; [done|].
  constructor; [now apply IH|]. apply Forall_app in Hy as [H1 H2]. apply Forall_app. split; [done|].
  now apply Forall_inv_tail in H2.
Qed.

(** ** The elementary steps of a run *)

(** What a step that is not about timeouts leaves alone; it may log an event that
    is not about them. *)
Definition about_timeouts (e : eloop_log) : bool :=
  match e with EvRegistered _ | EvCancelled _ | EvTimeout _ _ => true | _ => false end.

Record neutral (w w' : world) : Prop := {
  nt_timeout : timeout (el w') = timeout (el w);
  nt_alloc : n_alloc w' = n_alloc w;
  nt_clock : n_clock w' = n_clock w;
  nt_max : max_sock (el w') = max_sock (el w);
  nt_count : count (el w') = count (el w);
  nt_table : forall type, table (eloop_get_sock_table type (el w')) = table (eloop_get_sock_table type (el w));
  nt_log : exists l, log w' = log w ++ l /\ Forall (fun e => about_timeouts e = false) l
}.

#[export] Instance neutral_refl : Reflexive neutral.
Proof. intros w. split; try done. exists []. now rewrite app_nil_r. Qed.

#[export] Instance neutral_trans : Transitive neutral.
Proof.
  intros u v w [a1 a2 a3 a4 a5 a6 (l & a7 & a8)] [b1 b2 b3 b4 b5 b6 (m & b7 & b8)]. split; try congruence.
  exists (l ++ m). rewrite b7, a7, app_assoc. split; [done|]. now apply Forall_app.
Qed.

Ltac neutral_step :=
  split; try reflexivity; try (intros []; reflexivity);
  [ eexists; split; [first [symmetry; apply app_nil_r | reflexivity] | repeat constructor] ].

Lemma handle_signal_neutral s w : neutral w (upd (eloop_handle_signal s) w).
Proof. unfold eloop_handle_signal, upd. destruct (_ && _); neutral_step. Qed.

Lemma terminate_neutral w : neutral w (upd eloop_terminate w).
Proof. neutral_step. Qed.

Lemma clear_changed_neutral type w : neutral w (upd (clear_changed type) w).
Proof. destruct type; neutral_step. Qed.

(** [holds bad P o]: the outcome [o] satisfies [P]; [bad] tells whether a run may
    fail ([True] for partial, [False] for total correctness). *)
Definition holds {A} (bad : Prop) (P : A -> Prop) (o : option A) : Prop :=
  match o with Some x => P x | None => bad end.

Lemma holds_bind {A B} bad (P : A -> Prop) (Q : B -> Prop) o (f : A -> option B) :
  holds bad P o -> (forall x, P x -> holds bad Q (f x)) -> holds bad Q (let? x := o in f x).
Proof. destruct o; simpl; auto. Qed.

Section Closed.
Context `{EloopEnv} (bad : Prop) (allowed : eloop_op -> Prop) (Hcalls : forall n, Forall allowed (on_call n)).

(** What holds through everything but the service of a timeout ... *)
Record quiet_closed (P : world -> Prop) : Prop := {
  cl_op : forall op w, allowed op -> P w -> holds bad P (do_op op w);
  cl_neutral : forall w w', neutral w w' -> P w -> P w';
  cl_clock : forall w, P w -> P (w <| n_clock := S (n_clock w) |>);
  cl_fds : forall type w, P w -> holds bad (fun _ => True) (eloop_sock_table_set_fds (eloop_get_sock_table type (el w)))
}.

(** ... and through that as well. *)
Definition fire_closed (P : world -> Prop) : Prop := forall t rest now w,
  timeout (el w) = t :: rest -> os_reltime_before now (time t) = false -> P w ->
  P (emit (EvTimeout t now) (upd (fun e => e <| timeout := rest |>) w)).

Section Quiet.
Context (P : world -> Prop) (HQ : quiet_closed P).

Lemma do_ops_closed ops w : Forall allowed ops -> P w -> holds bad P (do_ops ops w).
Proof using HQ.
  intros Ho. revert w. induction Ho as [|op ops Hop _ IH]; intros w Hw; [exact Hw|]. cbn [do_ops].
  apply (holds_bind bad P); [now apply (cl_op P HQ) | exact IH].
Qed.

Lemma next_call_neutral w : neutral w (w <| n_call := S (n_call w) |>).
Proof using Type. neutral_step. Qed.

Lemma fired_handler_closed e w : P (emit e w) -> holds bad P (call_handler e w).
Proof using HQ Hcalls.
  intros Hw. unfold call_handler. apply do_ops_closed; [apply Hcalls|].
  apply (cl_neutral P HQ (emit e w)); [apply next_call_neutral | done].
Qed.

(** A handler that is not one of a timeout. *)
Lemma call_handler_closed e w : about_timeouts e = false -> P w -> holds bad P (call_handler e w).
Proof using HQ Hcalls.
  intros He Hw. apply fired_handler_closed. apply (cl_neutral P HQ w); [|done].
  split; try reflexivity. eexists. split; [reflexivity|]. now repeat constructor.
Qed.

Lemma pending_signals_closed w : P w -> holds bad P (eloop_process_pending_signals w).
Proof using HQ Hcalls.
  unfold eloop_process_pending_signals. destruct (_ =? 0); [done|].
  set (w0 := upd _ w). intros Hw. assert (P w0) as H0 by (apply (cl_neutral P HQ w); [neutral_step | done]).
  clearbody w0. clear Hw. generalize (length (signals (el w0))) as n. intros n. generalize 0%nat as i.
  revert w0 H0. induction n as [|n IH]; intros w0 H0 i; cbn [pending_signals_loop]; [exact H0|].
  apply (holds_bind bad P); [|intros; now apply IH].
  destruct (signals (el w0) !! i) as [g|]; [|exact H0]. destruct (g_signaled g =? 0); [exact H0|].
  apply call_handler_closed; [reflexivity|]. apply (cl_neutral P HQ w0); [neutral_step | done].
Qed.

Lemma dispatch_closed type fds w : P w -> holds bad P (eloop_sock_table_dispatch type fds w).
Proof using HQ Hcalls.
  unfold eloop_sock_table_dispatch. set (w0 := upd _ w). intros Hw.
  assert (P w0) as H0 by (apply (cl_neutral P HQ w); [apply clear_changed_neutral | done]). clearbody w0. clear Hw.
  generalize (length (table (eloop_get_sock_table type (el w0)))) as n. intros n. generalize 0%nat as i.
  revert w0 H0. induction n as [|n IH]; intros w0 H0 i; cbn [dispatch_loop]; [exact H0|].
  destruct (table _ !! i) as [s|]; [|exact H0]. destruct (fds (sock s)); [|now apply IH].
  apply (holds_bind bad P); [now apply call_handler_closed|]. intros w1 H1.
  destruct (changed _); [exact H1 | now apply IH].
Qed.

Lemma get_reltime_closed old w : P w -> P (os_get_reltime old w).2.
Proof using HQ. intros Hw. unfold os_get_reltime. destruct (clock (n_clock w)); now apply (cl_clock P HQ). Qed.

Lemma select_timeout_closed now w : P w -> P (select_timeout now w).2.
Proof using HQ.
  intros Hw. unfold select_timeout. destruct (timeout (el w)); [done|].
  pose proof (get_reltime_closed now w Hw) as H1. now destruct (os_get_reltime now w) as [[? ?] ?].
Qed.

Lemma arrived_closed l w : P w -> P (upd (fun e => fold_left (fun e s => eloop_handle_signal s e) l e) w).
Proof using HQ.
  revert w. induction l as [|s l IH]; intros w Hw.
  - apply (cl_neutral P HQ w); [neutral_step | done].
  - apply (IH (upd (eloop_handle_signal s) w)). apply (cl_neutral P HQ w); [apply handle_signal_neutral | done].
Qed.

Lemma clear_all_neutral w : neutral w (upd (fun e => e ▸ clear_changed EVENT_TYPE_READ
    ▸ clear_changed EVENT_TYPE_WRITE ▸ clear_changed EVENT_TYPE_EXCEPTION) w).
Proof using Type. neutral_step. Qed.
End Quiet.

(** One iteration: [P] until the timeout is served, [Q] from there on. *)
Section Iteration.
Context (P Q : world -> Prop) (HP : quiet_closed P) (HQ : quiet_closed Q) (HPQ : forall w, Q w -> P w).
Context (Hfire : forall now w, P w -> holds bad (fun r => Q r.2) (check_timeout now w)).

Definition outcome (r : iteration) : Prop :=
  match r with Continue _ w => Q w | Break w | Out w => P w end.

Lemma run_body_outcome now w : P w -> holds bad outcome (run_body now w).
Proof using All.
  intros Hw. unfold run_body. pose proof (select_timeout_closed P HP now w Hw) as H1.
  destruct (select_timeout now w) as [[tv now1] w1]. cbn [snd] in H1.
  apply (holds_bind bad _ _ _ _ (cl_fds P HP EVENT_TYPE_READ w1 H1)). intros _ _.
  apply (holds_bind bad _ _ _ _ (cl_fds P HP EVENT_TYPE_WRITE w1 H1)). intros _ _.
  apply (holds_bind bad _ _ _ _ (cl_fds P HP EVENT_TYPE_EXCEPTION w1 H1)). intros _ _.
  set (a := select_ (n_select w1)) in *. set (w2 := upd _ (_ <| n_select := _ |>)).
  assert (P w2) as H2.
  { apply (arrived_closed P HP). apply (cl_neutral P HP w1); [neutral_step | done]. }
  clearbody w2. clear H1. destruct (_ && hard_error a); [exact H2|].
  set (w3 := upd _ w2). assert (P w3) as H3 by (apply (cl_neutral P HP w2); [apply clear_all_neutral | done]).
  clearbody w3. apply (holds_bind bad P); [now apply pending_signals_closed|]. intros w4 H4.
  apply (holds_bind bad _ _ _ _ (Hfire now1 w4 H4)). intros [now5 w5] H5. cbn [snd] in H5.
  destruct (res a <=? 0); [exact H5|]. destruct (any_changed (el w5)); [exact H5|].
  apply (holds_bind bad Q); [now apply dispatch_closed|]. intros w6 H6.
  apply (holds_bind bad Q); [now apply dispatch_closed|]. intros w7 H7.
  apply (holds_bind bad Q); [now apply dispatch_closed|]. done.
Qed.

Lemma run_once_outcome now w : P w -> holds bad outcome (run_once now w).
Proof using All.
  intros Hw. unfold run_once. destruct (pending_terminate (el w)); [|now apply run_body_outcome].
  apply (holds_bind bad P); [now apply pending_signals_closed|]. intros w1 H1.
  destruct (terminate (el w1)); [exact H1 | now apply run_body_outcome].
Qed.
End Iteration.

(** An invariant that survives the service of a timeout survives the whole loop. *)
Section Loop.
Context (P : world -> Prop) (HP : quiet_closed P) (Hf : fire_closed P).

Lemma check_timeout_closed now w : P w -> holds bad (fun r => P r.2) (check_timeout now w).
Proof using All.
  unfold check_timeout. intros Hw. destruct (timeout (el w)) as [|t rest] eqn:Et; [exact Hw|].
  assert (timeout (el (os_get_reltime now w).2) = t :: rest) as Et1
    by (unfold os_get_reltime; now destruct (clock (n_clock w))).
  pose proof (get_reltime_closed P HP now w Hw) as H1.
  destruct (os_get_reltime now w) as [[ok now1] w1]. cbn [snd] in *.
  destruct (os_reltime_before now1 (time t)) eqn:Eb; [exact H1|].
  apply (holds_bind bad P); [|done]. apply (fired_handler_closed P HP). exact (Hf t rest now1 w1 Et1 Eb H1).
Qed.

Lemma run_loop_closed fuel now w : P w -> holds bad (fun r => P r.2) (run_loop fuel now w).
Proof using All.
  revert now w. induction fuel as [|fuel IH]; intros now w Hw; cbn [run_loop]; [exact Hw|].
  assert (forall w, P w -> P (upd (fun e => e <| terminate := false |>) w)) as Ht
    by (intros w0 H0; apply (cl_neutral P HP w0); [neutral_step | done]).
  destruct (keeps_running (el w)); [|now apply Ht].
  apply (holds_bind bad _ _ _ _ (run_once_outcome P P HP HP (fun w H => H) check_timeout_closed now w Hw)).
  intros [now1 w1|w1|w1] Ho; [now apply IH | now apply Ht | exact Ho].
Qed.

Lemma eloop_run_closed fuel w : (forall w, P w -> P (w <| n_alloc := S (n_alloc w) |>)) ->
  P w -> holds bad (fun r => P r.2) (eloop_run fuel w).
Proof using All.
  intros Ha Hw. unfold eloop_run, os_alloc. destruct (negb _); [now do 3 apply Ha|].
  apply run_loop_closed. now do 3 apply Ha.
Qed.
End Loop.
End Closed.

(** Every operation is allowed. *)
Definition any_op (op : eloop_op) : Prop := True.

Lemma any_calls `{EloopEnv} n : Forall any_op (on_call n).
Proof. now apply Forall_true. Qed.

(** ** The invariant *)

Definition registered (l : list eloop_log) : list eloop_timeout :=
  omap (fun e => match e with EvRegistered t => Some t | _ => None end) l.
Definition cancelled (l : list eloop_log) : list eloop_timeout :=
  omap (fun e => match e with EvCancelled t => Some t | _ => None end) l.
Definition served (l : list eloop_log) : list eloop_timeout :=
  omap (fun e => match e with EvTimeout t _ => Some t | _ => None end) l.

Definition not_early (e : eloop_log) : Prop :=
  match e with EvTimeout t now => not_after (time t) now | _ => True end.

Record world_ok (w : world) : Prop := {
  (** the list is ordered by the time the timeouts are due *)
  ok_sorted : StronglySorted due_order (timeout (el w));
  (** what was registered is waiting, was cancelled or was served, and only one of these *)
  ok_ledger : registered (log w) ≡ₚ timeout (el w) ++ cancelled (log w) ++ served (log w);
  ok_unique : NoDup (t_id <$> registered (log w));
  ok_ids : Forall (fun t => (t_id t < n_alloc w)%nat) (registered (log w));
  (** no handler was called before its time *)
  ok_not_early : Forall not_early (log w);
  ok_count : count (el w) = zlen (table (readers (el w))) + zlen (table (writers (el w)))
                            + zlen (table (exceptions (el w)));
  ok_socks : forall type, Forall (fun s => 0 <= sock s <= max_sock (el w))
                            (table (eloop_get_sock_table type (el w)))
}.

Lemma init_world_ok : world_ok (World eloop_init 0 0 0 0 []).
Proof. split; try done; try constructor. intros []; constructor. Qed.

Lemma omap_quiet {B} (f : eloop_log -> option B) l :
  (forall e, about_timeouts e = false -> f e = None) ->
  Forall (fun e => about_timeouts e = false) l -> omap f l = [].
Proof. intros Hf. induction 1 as [|e l He _ IH]; [done|]. cbn. now rewrite (Hf e He). Qed.

Lemma world_ok_neutral w w' : neutral w w' -> world_ok w -> world_ok w'.
Proof.
  intros [Et Ea _ Em Ec Etab (l & El & Hl)] [H1 H2 H3 H4 H5 H6 H7].
  assert (registered (log w') = registered (log w)) as Er.
  { unfold registered. rewrite El, omap_app, (omap_quiet _ l), app_nil_r; [done | now intros [] | done]. }
  assert (cancelled (log w') = cancelled (log w)) as Ek.
  { unfold cancelled. rewrite El, omap_app, (omap_quiet _ l), app_nil_r; [done | now intros [] | done]. }
  assert (served (log w') = served (log w)) as Es.
  { unfold served. rewrite El, omap_app, (omap_quiet _ l), app_nil_r; [done | now intros [] | done]. }
  split; rewrite ?Er, ?Ek, ?Es, ?Et, ?Ea, ?Ec, ?Em; try done.
  - rewrite El. apply Forall_app. split; [done|]. eapply Forall_impl; [exact Hl|]. now intros [].
  - rewrite H6. pose proof (Etab EVENT_TYPE_READ) as E1. pose proof (Etab EVENT_TYPE_WRITE) as E2.
    pose proof (Etab EVENT_TYPE_EXCEPTION) as E3. cbn [eloop_get_sock_table] in *. now rewrite E1, E2, E3.
  - intros type. rewrite Etab. apply H7.
Qed.

Lemma world_ok_clock w : world_ok w -> world_ok (w <| n_clock := S (n_clock w) |>).
Proof. intros [H1 H2 H3 H4 H5 H6 H7]. now split. Qed.

Lemma world_ok_alloc w : world_ok w -> world_ok (w <| n_alloc := S (n_alloc w) |>).
Proof.
  intros [H1 H2 H3 H4 H5 H6 H7]. split; try done. cbn [n_alloc log over].
  eapply Forall_impl; [exact H4|]. cbn. lia.
Qed.

(** A new timeout, with an address of its own. *)
Lemma world_ok_insert t w : ~ In (t_id t) (t_id <$> registered (log w)) -> (t_id t < n_alloc w)%nat ->
  world_ok w ->
  world_ok (w ▸ upd (fun e => e <| timeout := insert_timeout t (timeout e) |>) ▸ emit (EvRegistered t)).
Proof.
  intros Hn Hid [H1 H2 H3 H4 H5 H6 H7].
  split; try done; unfold registered, cancelled, served; cbn [el log emit upd over timeout n_alloc];
    rewrite ?omap_app; cbn [omap list_omap]; rewrite ?app_nil_r.
  - now apply insert_timeout_sorted.
  - fold (registered (log w)) (cancelled (log w)) (served (log w)). rewrite H2, insert_timeout_perm. cbn [app].
    symmetry. apply Permutation_cons_append.
  - rewrite fmap_app. cbn [fmap list_fmap]. apply NoDup_app. split; [done|]. split; [|repeat constructor; set_solver].
    intros i Hi Hj. apply list_elem_of_singleton in Hj as ->. now apply Hn, list_elem_of_In.
  - apply Forall_app. split; [done | now repeat constructor].
  - apply Forall_app. split; [done | now repeat constructor].
Qed.

Lemma emit_all (f : eloop_timeout -> eloop_log) l w :
  fold_left (fun w t => emit (f t) w) l w = w <| log := log w ++ (f <$> l) |>.
Proof.
  revert w. induction l as [|t l IH]; intros w; cbn [fold_left fmap list_fmap].
  - rewrite app_nil_r. now destruct w.
  - rewrite IH. unfold emit, over. cbn [log]. now rewrite <- app_assoc.
Qed.

Lemma cancelled_map l : registered (EvCancelled <$> l) = [] /\ cancelled (EvCancelled <$> l) = l
  /\ served (EvCancelled <$> l) = [].
Proof.
  unfold registered, cancelled, served. induction l as [|t l (I1 & I2 & I3)]; [done|].
  cbn. rewrite I1, I3. repeat split. f_equal. exact I2.
Qed.

Lemma world_ok_cancel removed kept w :
  timeout (el w) ≡ₚ removed ++ kept -> StronglySorted due_order kept -> world_ok w ->
  world_ok (fold_left (fun w t => emit (EvCancelled t) w) removed (upd (fun e => e <| timeout := kept |>) w)).
Proof.
  intros Hp Hs [H1 H2 H3 H4 H5 H6 H7]. rewrite emit_all. destruct (cancelled_map removed) as (E1 & E2 & E3).
  assert (forall l, registered (l ++ (EvCancelled <$> removed)) = registered l) as Er
    by (intros l; unfold registered in *; now rewrite omap_app, E1, app_nil_r).
  split; try done; cbn [el log upd over timeout n_alloc]; rewrite ?Er; try done.
  - rewrite H2. unfold cancelled, served in *. rewrite !omap_app, E2, E3, app_nil_r, Hp, <- !app_assoc.
    rewrite (Permutation_app_comm removed). rewrite <- !app_assoc. do 2 f_equiv. apply Permutation_app_comm.
  - apply Forall_app. split; [done|]. apply Forall_fmap, Forall_true. done.
Qed.

Lemma world_ok_fire : fire_closed world_ok.
Proof.
  intros t rest now w Et Hnow [H1 H2 H3 H4 H5 H6 H7]. rewrite Et in *.
  assert (registered (log w ++ [EvTimeout t now]) = registered (log w)) as Er
    by (unfold registered; rewrite omap_app; apply app_nil_r).
  split; try done; cbn [el log emit upd over timeout n_alloc]; rewrite ?Er; try done.
  - now apply StronglySorted_inv in H1.
  - rewrite H2. unfold cancelled, served. rewrite !omap_app. cbn [omap list_omap]. rewrite app_nil_r. cbn [app].
    rewrite Permutation_cons_append, <- !app_assoc. done.
  - apply Forall_app. split; [done|]. constructor; [exact Hnow | constructor].
Qed.

Section Ops.
Context `{EloopEnv}.

Lemma register_timeout_cases secs usecs h d c w :
  let r := eloop_register_timeout secs usecs h d c w in
  (exists n, r.2 = w <| n_alloc := S (n_alloc w) |> <| n_clock := (n + n_clock w)%nat |>)
  \/ (exists tm, r.2 = w <| n_alloc := S (n_alloc w) |> <| n_clock := S (n_clock w) |>
         ▸ upd (fun e => e <| timeout := insert_timeout (Timeout (n_alloc w) tm d c h) (timeout e) |>)
         ▸ emit (EvRegistered (Timeout (n_alloc w) tm d c h))).
Proof.
  unfold eloop_register_timeout, os_alloc, os_get_reltime. cbn zeta.
  destruct (alloc_ok (n_alloc w)); cbn [negb]; [|left; exists 0%nat; reflexivity].
  cbn [n_clock over]. destruct (clock (n_clock w)) as [now|]; cbn [negb]; [|left; exists 1%nat; reflexivity].
  destruct (_ <? sec now); [left; exists 1%nat; reflexivity|].
  set (t := carry_usec _ _). clearbody t. destruct (sec t <? sec now); [left; exists 1%nat; reflexivity|].
  right. exists t. reflexivity.
Qed.

Lemma world_ok_clocks n w : world_ok w -> world_ok (w <| n_clock := n |>).
Proof using Type. intros [H1 H2 H3 H4 H5 H6 H7]. now split. Qed.

Lemma world_ok_register secs usecs h d c w :
  world_ok w -> world_ok (eloop_register_timeout secs usecs h d c w).2.
Proof.
  intros Hw. destruct (register_timeout_cases secs usecs h d c w) as [[n ->] | [tm ->]].
  - now apply world_ok_clocks, world_ok_alloc.
  - apply world_ok_insert; [|cbn; lia | now apply world_ok_clocks, world_ok_alloc].
    cbn [log over t_id]. intros Hin. apply list_elem_of_In, list_elem_of_fmap in Hin as (t & E & Ht).
    pose proof (ok_ids _ Hw) as Hi. rewrite Forall_forall in Hi. specialize (Hi t Ht). cbn in Hi. lia.
Qed.

Lemma world_ok_cancel_timeout h d c w : world_ok w -> world_ok (eloop_cancel_timeout h d c w).2.
Proof.
  intros Hw. apply world_ok_cancel; [apply filter_split | apply filter_sorted, Hw | done].
Qed.

Lemma world_ok_get_reltime old w : world_ok w -> world_ok (os_get_reltime old w).2.
Proof. intros Hw. unfold os_get_reltime. destruct (clock (n_clock w)); now apply world_ok_clock. Qed.

Lemma world_ok_cancel_one h d c w : world_ok w -> world_ok (eloop_cancel_timeout_one h d c w).2.
Proof.
  intros Hw. unfold eloop_cancel_timeout_one. pose proof (world_ok_get_reltime uninit w Hw) as H1.
  destruct (os_get_reltime uninit w) as [[ok now] w1]. cbn [snd] in H1.
  destruct (take_first _ (timeout (el w1))) as [[t rest]|] eqn:E; [|exact H1].
  apply take_first_split in E as (pre & post & Ep & -> & _).
  apply (world_ok_cancel [t] (pre ++ post) w1); [| |exact H1].
  - rewrite Ep. symmetry. exact (Permutation_middle pre post t).
  - apply (sorted_remove_middle _ pre t). rewrite <- Ep. apply H1.
Qed.

Lemma world_ok_adjust f secs usecs h d c w : world_ok w -> world_ok (adjust_timeout f secs usecs h d c w).2.
Proof.
  intros Hw. unfold adjust_timeout. destruct (find _ _) as [t|]; [|exact Hw].
  pose proof (world_ok_get_reltime uninit w Hw) as H1.
  destruct (os_get_reltime uninit w) as [[ok now] w1]. cbn [snd] in H1.
  destruct (f _ _); [|exact H1]. pose proof (world_ok_cancel_timeout h d c w1 H1) as H2.
  destruct (eloop_cancel_timeout h d c w1) as [r2 w2]. cbn [snd] in H2.
  match goal with |- context [eloop_register_timeout ?a ?b h d c w2] =>
    pose proof (world_ok_register a b h d c w2 H2) as H3; destruct (eloop_register_timeout a b h d c w2) as [r3 w3] end.
  exact H3.
Qed.

Lemma world_ok_add_sock type s h d c w : 0 <= s -> world_ok w ->
  world_ok (eloop_sock_table_add_sock type s h d c w).2.
Proof.
  intros Hs Hw. unfold eloop_sock_table_add_sock, os_alloc. destruct (alloc_ok _); cbn [negb];
    [|now apply world_ok_alloc].
  apply world_ok_alloc in Hw. set (w1 := w <| n_alloc := _ |>) in *. change (max_sock (el w)) with (max_sock (el w1)).
  clearbody w1. destruct Hw as [H1 H2 H3 H4 H5 H6 H7]. set (m := if _ <? _ then _ else _).
  assert (max_sock (el w1) <= m /\ s <= m) as [Hm Hsm] by (unfold m; destruct (Z.ltb_spec (max_sock (el w1)) s); lia).
  clearbody m. split; try (destruct type; done).
  - destruct type; cbn -[Z.add]; rewrite H6; unfold zlen; rewrite length_app; simpl length; lia.
  - intros ty. assert (forall l, Forall (fun x => 0 <= sock x <= max_sock (el w1)) l ->
      Forall (fun x => 0 <= sock x <= m) l) as Hl by (intros l Hl; eapply Forall_impl; [exact Hl|]; cbn; lia).
    pose proof (H7 ty) as Hty. pose proof (H7 type) as Htype.
    destruct type, ty; cbn in *; try (now apply Hl); apply Forall_app; (split; [now apply Hl | now repeat constructor]).
Qed.

Lemma world_ok_remove_sock type s w : world_ok w -> world_ok (eloop_sock_table_remove_sock type s w).
Proof.
  intros Hw. unfold eloop_sock_table_remove_sock. destruct (take_first _ _) as [[x rest]|] eqn:E; [|done].
  apply take_first_split in E as (pre & post & Ep & -> & _).
  destruct Hw as [H1 H2 H3 H4 H5 H6 H7]. split; try (destruct type; done).
  - destruct type; cbn -[Z.add] in *; rewrite H6, Ep; unfold zlen; rewrite !length_app; simpl length; lia.
  - intros ty. pose proof (H7 ty) as Hty. pose proof (H7 type) as Htype. rewrite Ep in Htype.
    apply Forall_app in Htype as [Ha Hb]. apply Forall_inv_tail in Hb.
    destruct type, ty; cbn in *; try done; now apply Forall_app.
Qed.

Lemma world_ok_op op w w' : do_op op w = Some w' -> world_ok w -> world_ok w'.
Proof.
  intros Hr Hw. destruct op; cbn [do_op] in Hr.
  - injection Hr as <-. now apply world_ok_register.
  - injection Hr as <-. now apply world_ok_cancel_timeout.
  - injection Hr as <-. now apply world_ok_cancel_one.
  - injection Hr as <-. now apply world_ok_adjust.
  - injection Hr as <-. now apply world_ok_adjust.
  - unfold eloop_register_sock in Hr. destruct (Z.ltb_spec s 0); [done|]. injection Hr as <-. now apply world_ok_add_sock.
  - injection Hr as <-. now apply world_ok_remove_sock.
  - injection Hr as <-. exact (world_ok_neutral w _ (handle_signal_neutral _ w) Hw).
  - injection Hr as <-. exact (world_ok_neutral w _ (terminate_neutral w) Hw).
Qed.

Lemma world_ok_closed : quiet_closed True any_op world_ok.
Proof.
  split; [| exact world_ok_neutral | exact world_ok_clock |].
  - intros op w _ Hw. destruct (do_op op w) as [w'|] eqn:E; [exact (world_ok_op op w w' E Hw) | exact I].
  - intros type w _. now destruct (eloop_sock_table_set_fds _).
Qed.

(** C25. Whatever the handlers do and however the environment answers: eloop_run()
    keeps the timeouts ordered by the time they are due, calls no handler early,
    loses or duplicates no timeout (each registered one is waiting, cancelled or
    served, once), and keeps the socket counters and max_sock right. *)
Theorem eloop_run_ok fuel w returned w' :
  eloop_run fuel w = Some (returned, w') -> world_ok w -> world_ok w'.
Proof.
  intros Hr Hw. pose proof (eloop_run_closed True any_op any_calls world_ok world_ok_closed world_ok_fire fuel w
    world_ok_alloc Hw) as Ho. now rewrite Hr in Ho.
Qed.
End Ops.

(** ** When a timeout is due *)

Lemma s64_small n : - 2 ^ 63 <= n < 2 ^ 63 -> s64 n = n.
Proof. intros. unfold s64. rewrite Z.mod_small; lia. Qed.

(** A clock value: normalised, and far from the end of the type. *)
Definition clock_value (t : os_reltime) : Prop := 0 <= sec t < 2 ^ 62 /\ 0 <= usec t < 1000000.

Lemma carry_usec_spec fuel t : 0 <= usec t -> usec t / 1000000 < Z.of_nat fuel ->
  0 <= sec t -> sec t + usec t / 1000000 < 2 ^ 63 ->
  carry_usec fuel t = Reltime (sec t + usec t / 1000000) (usec t mod 1000000).
Proof.
  revert t. induction fuel as [|fuel IH]; intros t Hu Hf Hs Hb; [Z.div_mod_to_equations; lia|]. cbn [carry_usec].
  destruct (Z.leb_spec 1000000 (usec t)).
  - rewrite s64_small by (Z.div_mod_to_equations; lia).
    assert ((usec t - 1000000) / 1000000 = usec t / 1000000 - 1) as Ed.
    { replace (usec t - 1000000) with (usec t + (-1) * 1000000) by lia. rewrite Z.div_add by lia. lia. }
    assert ((usec t - 1000000) mod 1000000 = usec t mod 1000000) as Em.
    { replace (usec t - 1000000) with (usec t + (-1) * 1000000) by lia. now rewrite Z.mod_add by lia. }
    rewrite IH; cbn [sec usec]; rewrite ?Ed, ?Em; try lia. f_equal. lia.
  - rewrite Z.div_small, Z.mod_small, Z.add_0_r by lia. now destruct t.
Qed.

(** Microseconds. *)
Definition us (t : os_reltime) : Z := sec t * 1000000 + usec t.

Lemma not_after_us a b : 0 <= usec a < 1000000 -> 0 <= usec b < 1000000 -> not_after a b <-> us a <= us b.
Proof. intros. rewrite not_after_spec. unfold us. lia. Qed.

Section Due.
Context `{EloopEnv}.

(** A registration by a clock that works: due after exactly the time asked for. *)
Lemma register_timeout_due secs usecs h d c w now :
  is_uint 32 secs -> is_uint 32 usecs ->
  alloc_ok (n_alloc w) = true -> clock (n_clock w) = Some now -> clock_value now ->
  exists tm, us tm = us now + secs * 1000000 + usecs /\ 0 <= usec tm < 1000000
  /\ eloop_register_timeout secs usecs h d c w
     = (0, w <| n_alloc := S (n_alloc w) |> <| n_clock := S (n_clock w) |>
         ▸ upd (fun e => e <| timeout := insert_timeout (Timeout (n_alloc w) tm d c h) (timeout e) |>)
         ▸ emit (EvRegistered (Timeout (n_alloc w) tm d c h))).
Proof.
  intros Hs Hu Ha Hc [Hn1 Hn2]. unfold is_uint in *.
  unfold eloop_register_timeout, os_alloc, os_get_reltime. rewrite Ha. cbn [negb n_clock over]. rewrite Hc. cbn [negb].
  rewrite (s64_small (sec now + secs)), (s64_small (usec now + usecs)) by lia.
  rewrite (proj2 (Z.ltb_ge (sec now + secs) (sec now))) by lia.
  set (u := usec now + usecs) in *. set (s := sec now + secs) in *.
  assert (0 <= u / 1000000 < 2 ^ 33) as Hd by (unfold u; Z.div_mod_to_equations; lia).
  rewrite carry_usec_spec by (cbn [sec usec]; unfold s, u in *; lia). cbn [sec usec].
  rewrite (proj2 (Z.ltb_ge (s + u / 1000000) (sec now))) by (unfold s; lia).
  eexists. split; [|split; [|reflexivity]].
  - unfold us. cbn [sec usec]. unfold s, u in *. Z.div_mod_to_equations. lia.
  - cbn [usec]. apply Z.mod_pos_bound. lia.
Qed.
End Due.

(** ** No due timeout starves *)

Definition answered (t : eloop_timeout) (l : list eloop_log) : Prop :=
  In (EvCancelled t) l \/ exists now, In (EvTimeout t now) l.

Lemma answered_app t l m : answered t l -> answered t (l ++ m).
Proof. intros [Hc | [now Hf]]; [left | right; exists now]; apply in_app_iff; auto. Qed.

Lemma insert_after_due tn t pre post :
  StronglySorted due_order (pre ++ t :: post) -> not_after (time t) (time tn) ->
  exists post', insert_timeout tn (pre ++ t :: post) = pre ++ t :: post'.
Proof.
  intros Hs Hn. induction pre as [|x pre IH]; cbn [app insert_timeout].
  - unfold not_after in Hn. rewrite Hn. now exists (insert_timeout tn post).
  - cbn [app] in Hs. apply StronglySorted_inv in Hs as [Hs Hx]. apply Forall_app in Hx as [_ Hx].
    apply Forall_inv in Hx. assert (not_after (time x) (time tn)) as Hxn by (unfold due_order in Hx; exact (transitivity Hx Hn)).
    unfold not_after in Hxn. rewrite Hxn. destruct (IH Hs) as [post' ->]. now exists post'.
Qed.

Lemma filter_keeps {A} (f : A -> bool) t pre post : f t = true ->
  exists pre' post', List.filter f (pre ++ t :: post) = pre' ++ t :: post' /\ (length pre' <= length pre)%nat.
Proof.
  intros Hf. exists (List.filter f pre), (List.filter f post). split.
  - rewrite List.filter_app. cbn [List.filter]. now rewrite Hf.
  - apply List.filter_length_le.
Qed.

Lemma remove_other {A} (t x : A) pre post a b : pre ++ t :: post = a ++ x :: b ->
  x = t \/ exists pre' post', a ++ b = pre' ++ t :: post' /\ (length pre' <= length pre)%nat.
Proof.
  revert a. induction pre as [|y pre IH]; intros [|z a] E; cbn [app] in E; injection E as E1 E2.
  - now left.
  - right. subst. now exists [], (a ++ b).
  - right. subst. exists pre, post. cbn [app length]. split; [done | lia].
  - destruct (IH a E2) as [-> | (pre' & post' & E' & Hl)]; [now left | right].
    exists (z :: pre'), post'. cbn [app length]. rewrite E'. split; [done | lia].
Qed.

Section Service.
Context `{EloopEnv} (t0 : eloop_timeout) (n0 : nat).

(** From question [n0] on the clock works and is past the time of the timeout. *)
Context (Hclock : forall n, (n0 <= n)%nat -> exists now,
  clock n = Some now /\ clock_value now /\ not_after (time t0) now).
Context (Ht0 : 0 <= usec (time t0) < 1000000).

(** Fewer than [k] timeouts are in front of it, or it was answered. *)
Record waiting (k : nat) (w : world) : Prop := {
  wt_ok : world_ok w;
  wt_clock : (n0 <= n_clock w)%nat;
  wt_place : answered t0 (log w)
             \/ exists pre post, timeout (el w) = pre ++ t0 :: post /\ (length pre < k)%nat
}.

(** Nothing happened to the timeouts. *)
Lemma waiting_same k w w' : waiting k w -> world_ok w' -> timeout (el w') = timeout (el w) ->
  (n_clock w <= n_clock w')%nat -> (exists l, log w' = log w ++ l) -> waiting k w'.
Proof using Type.
  intros [_ Hc Hp] Hok Et Hn [l El]. split; [done | lia |]. rewrite Et, El.
  destruct Hp as [Ha | Hp]; [left; now apply answered_app | now right].
Qed.

Lemma waiting_register k secs usecs h d c w : is_uint 32 secs -> is_uint 32 usecs ->
  waiting k w -> waiting k (eloop_register_timeout secs usecs h d c w).2.
Proof using Hclock Ht0.
  intros Hs Hu Hw. pose proof (world_ok_register secs usecs h d c w (wt_ok _ _ Hw)) as Hok.
  destruct (alloc_ok (n_alloc w)) eqn:Ea.
  - destruct (Hclock (n_clock w) (wt_clock _ _ Hw)) as (now & Hnow & Hv & Hpast).
    destruct (register_timeout_due secs usecs h d c w now Hs Hu Ea Hnow Hv) as (tm & Eus & Htm & E).
    rewrite E in *. cbn [snd] in *. set (tn := Timeout _ tm d c h) in *.
    assert (not_after (time t0) (time tn)) as Hn.
    { destruct Hv as [_ Hv]. rewrite not_after_us in Hpast by lia. rewrite not_after_us by (cbn; lia).
      cbn [time tn]. unfold is_uint in *. lia. }
    clearbody tn. destruct Hw as [H1 H2 H3]. split; [exact Hok | cbn; lia |]. cbn [el log upd emit over timeout].
    destruct H3 as [Ha | (pre & post & Ep & Hl)]; [left; now apply answered_app | right].
    pose proof (ok_sorted _ H1) as Hsort. rewrite Ep in *.
    destruct (insert_after_due tn t0 pre post Hsort Hn) as [post' E']. exists pre, post'. now rewrite E'.
  - apply (waiting_same k w); [done | exact Hok | | |];
      unfold eloop_register_timeout, os_alloc in *; rewrite Ea; cbn [negb]; [done | done | exists []].
    now rewrite app_nil_r.
Qed.

Lemma waiting_cancel k h d c w : waiting k w -> waiting k (eloop_cancel_timeout h d c w).2.
Proof using Type.
  intros Hw. pose proof (world_ok_cancel_timeout h d c w (wt_ok _ _ Hw)) as Hok. revert Hok.
  unfold eloop_cancel_timeout. cbn [snd]. rewrite emit_all. intros Hok. destruct Hw as [H1 H2 H3].
  split; [exact Hok | exact H2 |]. cbn [el log upd over timeout].
  destruct H3 as [Ha | (pre & post & Ep & Hl)]; [left; now apply answered_app|]. rewrite Ep.
  destruct (cancels h d c t0) eqn:Ec.
  - left. left. apply in_app_iff. right. apply in_map_iff. exists t0. split; [done|]. apply filter_In.
    split; [apply in_app_iff; right; now left | done].
  - right. destruct (filter_keeps (fun t => negb (cancels h d c t)) t0 pre post) as (pre' & post' & E & Hl');
      [now rewrite Ec|]. exists pre', post'. split; [exact E | lia].
Qed.

Lemma waiting_get_reltime k old w : waiting k w -> waiting k (os_get_reltime old w).2.
Proof using Type.
  intros Hw. pose proof (world_ok_get_reltime old w (wt_ok _ _ Hw)) as Hok. revert Hok. unfold os_get_reltime.
  destruct (clock (n_clock w)); intros Hok; (apply (waiting_same k w); [done | exact Hok | done | cbn; lia | exists []; now rewrite app_nil_r]).
Qed.

Lemma waiting_cancel_one k h d c w : waiting k w -> waiting k (eloop_cancel_timeout_one h d c w).2.
Proof using Type.
  intros Hw. pose proof (world_ok_cancel_one h d c w (wt_ok _ _ Hw)) as Hok. revert Hok.
  unfold eloop_cancel_timeout_one. pose proof (waiting_get_reltime k uninit w Hw) as H1.
  destruct (os_get_reltime uninit w) as [[ok now] w1]. cbn [snd] in H1.
  destruct (take_first _ (timeout (el w1))) as [[t rest]|] eqn:E; [|intros _; exact H1].
  apply take_first_split in E as (a & b & Eab & -> & _). intros Hok. destruct H1 as [G1 G2 G3].
  split; [exact Hok | exact G2 |]. cbn [el log upd emit over timeout].
  destruct G3 as [Ha | (pre & post & Ep & Hl)]; [left; now apply answered_app|]. rewrite Ep in Eab.
  destruct (remove_other t0 t pre post a b Eab) as [-> | (pre' & post' & E' & Hl')].
  - left. left. apply in_app_iff. right. now left.
  - right. exists pre', post'. split; [exact E' | lia].
Qed.

Lemma waiting_adjust f k secs usecs h d c w : waiting k w -> waiting k (adjust_timeout f secs usecs h d c w).2.
Proof using Hclock Ht0.
  intros Hw. unfold adjust_timeout. destruct (find _ _) as [t|]; [|exact Hw].
  pose proof (waiting_get_reltime k uninit w Hw) as H1.
  destruct (os_get_reltime uninit w) as [[ok now] w1]. cbn [snd] in H1.
  destruct (f _ _); [|exact H1]. pose proof (waiting_cancel k h d c w1 H1) as H2.
  destruct (eloop_cancel_timeout h d c w1) as [r2 w2]. cbn [snd sec usec] in *.
  pose proof (waiting_register k (u32 secs) (u32 usecs) h d c w2
    (Z.mod_pos_bound secs (2 ^ 32) ltac:(lia)) (Z.mod_pos_bound usecs (2 ^ 32) ltac:(lia)) H2) as H3.
  now destruct (eloop_register_timeout (u32 secs) (u32 usecs) h d c w2) as [r3 w3].
Qed.

Lemma waiting_neutral k w w' : neutral w w' -> waiting k w -> waiting k w'.
Proof using Type.
  intros Hn Hw. apply (waiting_same k w); [done | now apply (world_ok_neutral w), Hw | apply Hn | | ].
  - rewrite (nt_clock _ _ Hn). lia.
  - destruct (nt_log _ _ Hn) as (l & E & _). now exists l.
Qed.

Lemma waiting_op k op w w' : do_op op w = Some w' -> waiting k w -> waiting k w'.
Proof using Hclock Ht0.
  intros Hr Hw. pose proof (world_ok_op op w w' Hr (wt_ok _ _ Hw)) as Hok.
  assert (forall n, is_uint 32 (u32 n)) as Hu by (intros n; apply Z.mod_pos_bound; lia).
  destruct op; cbn [do_op] in Hr.
  - injection Hr as <-. now apply waiting_register.
  - injection Hr as <-. now apply waiting_cancel.
  - injection Hr as <-. now apply waiting_cancel_one.
  - injection Hr as <-. now apply waiting_adjust.
  - injection Hr as <-. now apply waiting_adjust.
  - unfold eloop_register_sock in Hr. destruct (s <? 0); [done|]. injection Hr as <-.
    apply (waiting_same k w); [done | exact Hok | | |]; unfold eloop_sock_table_add_sock, os_alloc;
      destruct (alloc_ok _), type; try reflexivity; exists []; now rewrite app_nil_r.
  - injection Hr as <-. apply (waiting_same k w); [done | exact Hok | | |];
      unfold eloop_unregister_sock, eloop_sock_table_remove_sock; destruct (take_first _ _) as [[? ?]|], type;
      try reflexivity; exists []; now rewrite app_nil_r.
  - injection Hr as <-. exact (waiting_neutral k w _ (handle_signal_neutral _ w) Hw).
  - injection Hr as <-. exact (waiting_neutral k w _ (terminate_neutral w) Hw).
Qed.

Lemma waiting_closed k : quiet_closed True any_op (waiting k).
Proof using Hclock Ht0.
  split; [| exact (waiting_neutral k) | |].
  { intros op w _ Hw. destruct (do_op op w) as [w'|] eqn:E; [exact (waiting_op k op w w' E Hw) | exact I]. }
  2: { intros type w _. now destruct (eloop_sock_table_set_fds _). }
  intros w Hw. apply (waiting_same k w); [done | apply world_ok_clock, Hw | done | cbn; lia | exists []; now rewrite app_nil_r].
Qed.

Lemma waiting_answered m k w : answered t0 (log w) -> waiting k w -> waiting m w.
Proof using Type. intros Ha [H1 H2 _]. split; auto. Qed.

(** The step that serves a timeout brings it one place forward. *)
Lemma waiting_served m now w : waiting (S m) w -> holds True (fun r => waiting m r.2) (check_timeout now w).
Proof using Hclock Ht0.
  intros Hw. unfold check_timeout. destruct (timeout (el w)) as [|t rest] eqn:Et.
  { destruct (wt_place _ _ Hw) as [Ha | ([|? ?] & post & Ep & _)];
      [now apply (waiting_answered m (S m)) | rewrite Et in Ep; discriminate ..]. }
  destruct (Hclock (n_clock w) (wt_clock _ _ Hw)) as (t1 & Ht1 & _ & Hpast).
  unfold os_get_reltime. rewrite Ht1. set (w1 := w <| n_clock := _ |>) in *.
  assert (waiting (S m) w1) as Hw1 by exact (cl_clock _ _ _ (waiting_closed (S m)) w Hw).
  assert (timeout (el w1) = t :: rest) as Et1 by exact Et. clearbody w1. clear Hw Et Ht1.
  pose proof (ok_sorted _ (wt_ok _ _ Hw1)) as Hsort. rewrite Et1 in Hsort.
  assert (forall (Hb : os_reltime_before t1 (time t) = false),
    waiting m (emit (EvTimeout t t1) (upd (fun e => e <| timeout := rest |>) w1)) ->
    holds True (fun r => waiting m r.2)
      (let? w := call_handler (EvTimeout t t1) (upd (fun e => e <| timeout := rest |>) w1) in Some (t1, w))) as Hcall.
  { intros _ H1. apply (holds_bind True (waiting m)); [|done].
    apply (fired_handler_closed True any_op any_calls _ (waiting_closed m)), H1. }
  destruct (wt_place _ _ Hw1) as [Ha | (pre & post & Ep & Hl)].
  - apply (waiting_answered m) in Hw1; [|exact Ha]. destruct (os_reltime_before t1 (time t)) eqn:Eb; [exact Hw1|].
    apply Hcall; [done|]. destruct Hw1 as [G1 G2 _].
    split; [exact (world_ok_fire t rest t1 w1 Et1 Eb G1) | exact G2 | left; now apply answered_app].
  - rewrite Et1 in Ep. assert (not_after (time t) t1) as Hd.
    { destruct pre as [|x pre]; injection Ep as -> ->; [exact Hpast|].
      apply StronglySorted_inv in Hsort as [_ Hx]. apply Forall_app in Hx as [_ Hx]. apply Forall_inv in Hx.
      unfold due_order in Hx. exact (transitivity Hx Hpast). }
    unfold not_after in Hd. rewrite Hd. apply Hcall; [done|].
    destruct Hw1 as [G1 G2 _]. split; [exact (world_ok_fire t rest t1 w1 Et1 Hd G1) | exact G2 |].
    cbn [el log upd emit over timeout]. destruct pre as [|x pre]; injection Ep as -> ->.
    + left. right. exists t1. apply in_app_iff. right. now left.
    + right. exists pre, post. cbn [length] in Hl. split; [done | lia].
Qed.

Lemma run_loop_service k now w w' : run_loop k now w = Some (false, w') -> waiting k w -> waiting 0 w'.
Proof using Hclock Ht0.
  revert now w. induction k as [|k IH]; intros now w; cbn [run_loop]; [now intros [= <-]|].
  destruct (keeps_running (el w)); [|done]. intros Hr Hw.
  assert (forall w, waiting k w -> waiting (S k) w) as Hle.
  { intros w0 [G1 G2 G3]. split; [done | done |]. destruct G3 as [? | (pre & post & ? & ?)]; [now left | right].
    exists pre, post. split; [done | lia]. }
  pose proof (run_once_outcome True any_op any_calls (waiting (S k)) (waiting k) (waiting_closed (S k))
    (waiting_closed k) Hle (waiting_served k) now w Hw) as Ho.
  destruct (run_once now w) as [[now1 w1|w1|w1]|]; [now apply (IH now1 w1) | done | done | done].
Qed.
End Service.

(** C26. No due timeout starves: once the clock is past the time of a timeout with
    [k] others in front of it, then [k + 1] iterations of the loop later the
    timeout was served or cancelled, whatever the handlers did in between (those
    that keep registering timeouts that are due at once included), unless the loop has
    returned. *)
Theorem due_timeout_served `{EloopEnv} t pre post now w returned w' :
  world_ok w -> timeout (el w) = pre ++ t :: post -> 0 <= usec (time t) < 1000000 ->
  (forall n, (n_clock w <= n)%nat -> exists now,
     clock n = Some now /\ clock_value now /\ not_after (time t) now) ->
  run_loop (S (length pre)) now w = Some (returned, w') ->
  returned = true \/ answered t (log w').
Proof.
  intros Hok Et Ht Hclock Hr. destruct returned; [now left | right].
  assert (waiting t (n_clock w) (S (length pre)) w) as Hw.
  { split; [done | lia |]. right. exists pre, post. split; [done | lia]. }
  pose proof (run_loop_service t (n_clock w) Hclock Ht _ _ _ _ Hr Hw) as [_ _ Ha].
  destruct Ha as [Ha | (? & ? & _ & Hlt)]; [exact Ha | lia].
Qed.

(** ** No assertion fails and no fd_set is overrun *)

Definition op_fd_ok (op : eloop_op) : Prop :=
  match op with OpRegisterSock s _ _ _ _ => 0 <= s < FD_SETSIZE | _ => True end.

Definition fds_ok (w : world) : Prop :=
  forall type, Forall (fun s => 0 <= sock s < FD_SETSIZE) (table (eloop_get_sock_table type (el w))).

Section Safe.
Context `{EloopEnv}.

(** The operations that do not touch the tables. *)
Lemma fds_ok_same w w' : (forall type, table (eloop_get_sock_table type (el w')) = table (eloop_get_sock_table type (el w))) ->
  fds_ok w -> fds_ok w'.
Proof using Type. intros E Hw type. rewrite E. apply Hw. Qed.

Lemma fds_ok_register secs usecs h d c w : fds_ok w -> fds_ok (eloop_register_timeout secs usecs h d c w).2.
Proof using Type.
  intros Hw. destruct (register_timeout_cases secs usecs h d c w) as [[n ->] | [tm ->]];
    (apply (fds_ok_same w); [intros []; reflexivity | exact Hw]).
Qed.

Lemma fds_ok_cancel h d c w : fds_ok w -> fds_ok (eloop_cancel_timeout h d c w).2.
Proof using Type.
  intros Hw. unfold eloop_cancel_timeout. cbn [snd]. rewrite emit_all.
  apply (fds_ok_same w); [intros []; reflexivity | exact Hw].
Qed.

Lemma fds_ok_reltime old w : fds_ok w -> fds_ok (os_get_reltime old w).2.
Proof using Type.
  intros Hw. unfold os_get_reltime. destruct (clock (n_clock w)); (apply (fds_ok_same w); [intros []; reflexivity | exact Hw]).
Qed.

Lemma fds_ok_cancel_one h d c w : fds_ok w -> fds_ok (eloop_cancel_timeout_one h d c w).2.
Proof using Type.
  intros Hw. unfold eloop_cancel_timeout_one. pose proof (fds_ok_reltime uninit w Hw) as H1.
  destruct (os_get_reltime uninit w) as [[ok now] w1]. cbn [snd] in H1.
  destruct (take_first _ _) as [[t rest]|]; [|exact H1]. apply (fds_ok_same w1); [intros []; reflexivity | exact H1].
Qed.

Lemma fds_ok_adjust f secs usecs h d c w : fds_ok w -> fds_ok (adjust_timeout f secs usecs h d c w).2.
Proof using Type.
  intros Hw. unfold adjust_timeout. destruct (find _ _) as [t|]; [|exact Hw].
  pose proof (fds_ok_reltime uninit w Hw) as H1. destruct (os_get_reltime uninit w) as [[ok now] w1]. cbn [snd] in H1.
  destruct (f _ _); [|exact H1]. pose proof (fds_ok_cancel h d c w1 H1) as H2.
  destruct (eloop_cancel_timeout h d c w1) as [r2 w2]. cbn [snd sec usec] in *.
  pose proof (fds_ok_register (u32 secs) (u32 usecs) h d c w2 H2) as H3.
  now destruct (eloop_register_timeout (u32 secs) (u32 usecs) h d c w2) as [r3 w3].
Qed.

Lemma fds_ok_add type s h d c w : 0 <= s < FD_SETSIZE -> fds_ok w ->
  fds_ok (eloop_sock_table_add_sock type s h d c w).2.
Proof using Type.
  intros Hs Hw. unfold eloop_sock_table_add_sock, os_alloc. destruct (alloc_ok _); [|exact Hw].
  intros ty. pose proof (Hw ty) as H1. pose proof (Hw type) as H2.
  destruct type, ty; cbn in *; try done; apply Forall_app; (split; [done | now repeat constructor]).
Qed.

Lemma fds_ok_remove type s w : fds_ok w -> fds_ok (eloop_sock_table_remove_sock type s w).
Proof using Type.
  intros Hw. unfold eloop_sock_table_remove_sock. destruct (take_first _ _) as [[x rest]|] eqn:E; [|done].
  apply take_first_split in E as (pre & post & Ep & -> & _). intros ty. pose proof (Hw ty) as H1.
  pose proof (Hw type) as H2. rewrite Ep in H2. apply Forall_app in H2 as [Ha Hb]. apply Forall_inv_tail in Hb.
  destruct type, ty; cbn in *; try done; now apply Forall_app.
Qed.

Lemma fds_ok_op op w : op_fd_ok op -> fds_ok w -> holds False fds_ok (do_op op w).
Proof using Type.
  intros Hop Hw. destruct op; cbn [do_op holds].
  - now apply fds_ok_register.
  - now apply fds_ok_cancel.
  - now apply fds_ok_cancel_one.
  - now apply fds_ok_adjust.
  - now apply fds_ok_adjust.
  - unfold eloop_register_sock. cbn in Hop. rewrite (proj2 (Z.ltb_ge s 0)) by lia. now apply fds_ok_add.
  - now apply fds_ok_remove.
  - exact (fds_ok_same w _ (nt_table _ _ (handle_signal_neutral _ w)) Hw).
  - exact (fds_ok_same w _ (nt_table _ _ (terminate_neutral w)) Hw).
Qed.

Lemma set_fds_safe type w : fds_ok w -> eloop_sock_table_set_fds (eloop_get_sock_table type (el w)) = Some tt.
Proof using Type.
  intros Hw. unfold eloop_sock_table_set_fds. specialize (Hw type). rewrite (proj2 (forallb_forall _ _)); [done|].
  intros s Hs. rewrite Forall_forall in Hw. specialize (Hw s (proj2 (list_elem_of_In _ _) Hs)). cbn in Hw. lia.
Qed.

Lemma fds_ok_closed : quiet_closed False op_fd_ok fds_ok.
Proof using Type.
  split; [exact fds_ok_op | | |].
  - intros w w' Hn. exact (fds_ok_same w w' (nt_table _ _ Hn)).
  - intros w Hw. exact Hw.
  - intros type w Hw. now rewrite set_fds_safe.
Qed.
End Safe.

(** C27. When no handler registers a descriptor outside of an fd_set, eloop_run() fails
    no assertion and writes inside its descriptor sets, for any number of iterations;
    nothing else in it can go wrong. *)
Theorem eloop_run_safe `{EloopEnv} fuel w :
  (forall n, Forall op_fd_ok (on_call n)) -> fds_ok w ->
  exists returned w', eloop_run fuel w = Some (returned, w') /\ fds_ok w'.
Proof.
  intros Hc Hw. pose proof (eloop_run_closed False op_fd_ok Hc fds_ok fds_ok_closed
    ltac:(intros t rest now w1 _ _ Hw1; exact Hw1) fuel w ltac:(intros w1 Hw1; exact Hw1) Hw) as Ho.
  destruct (eloop_run fuel w) as [[b w']|]; [now exists b, w' | contradiction].
Qed.

(** ** A concrete environment *)

(** The clock stands still; select() reports descriptor 5 in every set; the first
    handler closes what it had on descriptor 5 and registers it for writing again,
    all later ones register a timeout that is due at once. *)
#[local] Instance demo_env : EloopEnv := {|
  clock := fun _ => Some (Reltime 100 7);
  alloc_ok := fun _ => true;
  select_ := fun _ => SelectAnswer 2 false (fun s => s =? 5) (fun s => s =? 5) (fun _ => false) [];
  on_call := fun n => if (n =? 0)%nat
    then [OpUnregisterSock 5 EVENT_TYPE_WRITE; OpRegisterSock 5 EVENT_TYPE_WRITE 30 0 0]
    else [OpRegisterTimeout 0 0 20 0 0];
  uninit := Reltime 0 0
|}.

Definition demo_start : world :=
  let w := World eloop_init 0 0 0 0 [] in
  let w := (eloop_register_timeout 1 999995 11 0 0 w).2 in
  let w := (eloop_register_timeout 0 0 12 0 0 w).2 in
  (eloop_register_timeout 0 0 13 0 0 w).2.

Lemma demo_start_ok : world_ok demo_start.
Proof. do 3 apply world_ok_register. apply init_world_ok. Qed.

Lemma eloop_run_ok_witness : exists w, eloop_run 3 demo_start = Some (false, w) /\ world_ok w.
Proof.
  eexists. split; [vm_compute; reflexivity|].
  refine (eloop_run_ok 3 demo_start false _ _ demo_start_ok). vm_compute. reflexivity.
Defined.

Lemma eloop_run_safe_witness : exists returned w, eloop_run 3 demo_start = Some (returned, w) /\ fds_ok w.
Proof.
  apply (eloop_run_safe 3 demo_start).
  - intros [|n]; repeat constructor; unfold op_fd_ok, FD_SETSIZE; lia.
  - intros []; constructor.
Defined.

(** The timeout of handler 13 is served in the second iteration, after that of 12. *)
Lemma due_timeout_served_witness :
  let t := Timeout 2 (Reltime 100 7) 0 0 13 in
  exists w, run_loop 2 (Reltime 0 0) demo_start = Some (false, w) /\ answered t (log w).
Proof.
  intros t. eexists. split; [vm_compute; reflexivity|].
  edestruct (due_timeout_served t [Timeout 1 (Reltime 100 7) 0 0 12] [Timeout 0 (Reltime 102 2) 0 0 11]
    (Reltime 0 0) demo_start false) as [Hf | Ha];
    [exact demo_start_ok | reflexivity | cbn; lia | | vm_compute; reflexivity | discriminate Hf | exact Ha].
  intros n _. exists (Reltime 100 7). repeat split; cbn; lia.
Defined.

(** A handler of a readable socket that reopens a descriptor for writing: the
    handler registered for the new one is called in the same iteration, for the
    event select() reported for the old one. *)
Definition demo_reopen : world :=
  let w := World eloop_init 0 0 0 0 [] in
  let w := (eloop_sock_table_add_sock EVENT_TYPE_READ 5 10 0 0 w).2 in
  (eloop_sock_table_add_sock EVENT_TYPE_WRITE 5 15 0 0 w).2.

Lemma stale_write_event :
  (let? r := run_loop 1 (Reltime 0 0) demo_reopen in Some (log r.2))
  = Some [EvSelect None; EvSock EVENT_TYPE_READ (Sock 5 0 0 10); EvSock EVENT_TYPE_WRITE (Sock 5 0 0 30);
          EvRegistered (Timeout 3 (Reltime 100 7) 0 0 20)].
Proof. vm_compute. reflexivity. Qed.
