(* ===== verification/DlList.v ===== *)
(** * The doubly linked lists of src/utils/list.h

    A list is a ring of struct dl_list embedded in its elements, on an explicit
    heap of nodes; [None] is an access to an address that is not a node.  The
    operations, and the loops of eloop.c over its timeouts, are shown to do to the
    ring what the functions of Eloop.v do to a list. *)

From stdpp Require Import gmap.
From S2P Require Import Prelude WpaTypes Eloop.

(* utils/list.h struct dl_list *)
Record dl_list := DlNode { next : Z; prev : Z }.
Abbreviation heap := (gmap Z dl_list).
Definition NULL : Z := 0.

(** [p->next = v;] and [p->prev = v;] *)
Definition set_next (p v : Z) (h : heap) : option heap :=
  let? n := h !! p in Some (<[p := DlNode v (prev n)]> h).
Definition set_prev (p v : Z) (h : heap) : option heap :=
  let? n := h !! p in Some (<[p := DlNode (next n) v]> h).
Definition get_next (p : Z) (h : heap) : option Z := let? n := h !! p in Some (next n).
Definition get_prev (p : Z) (h : heap) : option Z := let? n := h !! p in Some (prev n).

(* utils/list.h dl_list_init *)
Definition dl_list_init (l : Z) (h : heap) : option heap :=
  let? h := set_next l l h in set_prev l l h.

(* utils/list.h dl_list_add *)
Definition dl_list_add (l item : Z) (h : heap) : option heap :=
  let? n := get_next l h in
  let? h := set_next item n h in
  let? h := set_prev item l h in
  let? n := get_next l h in
  let? h := set_prev n item h in
  set_next l item h.

(* utils/list.h dl_list_add_tail *)
Definition dl_list_add_tail (l item : Z) (h : heap) : option heap :=
  let? p := get_prev l h in dl_list_add p item h.

(* utils/list.h dl_list_del *)
Definition dl_list_del (item : Z) (h : heap) : option heap :=
  let? n := get_next item h in
  let? p := get_prev item h in
  let? h := set_prev n p h in
  let? p := get_prev item h in
  let? n := get_next item h in
  let? h := set_next p n h in
  let? h := set_next item NULL h in
  set_prev item NULL h.

(* utils/list.h dl_list_empty *)
Definition dl_list_empty (l : Z) (h : heap) : option bool :=
  let? n := get_next l h in Some (n =? l).

(** [for (item = list->next; item != list; item = item->next) count++;] *)
Fixpoint dl_len_loop (fuel : nat) (l item : Z) (h : heap) : option Z :=
  match fuel with
  | O => None
  | S fuel =>
      if item =? l then Some 0 else
      let? n := get_next item h in
      let? c := dl_len_loop fuel l n h in Some (c + 1)
  end.
(* utils/list.h dl_list_len *)
Definition dl_list_len (fuel : nat) (l : Z) (h : heap) : option Z :=
  let? n := get_next l h in dl_len_loop fuel l n h.

(** NULL when the list is empty. *)
(* utils/list.h dl_list_first @70-72 *)
Definition dl_list_first (l : Z) (h : heap) : option Z :=
  let? e := dl_list_empty l h in if e then Some NULL else get_next l h.
(* utils/list.h dl_list_last @74-76 *)
Definition dl_list_last (l : Z) (h : heap) : option Z :=
  let? e := dl_list_empty l h in if e then Some NULL else get_prev l h.

(** ** The loops of eloop.c over the ring *)

(** dl_list_for_each() up to the first element that is [later], and the new one in
    front of it; at the end when there is none. *)
(* eloop.c eloop_register_timeout @808-815 *)
Fixpoint ring_insert (later : Z -> bool) (fuel : nat) (l tmp item : Z) (h : heap) : option heap :=
  match fuel with
  | O => None
  | S fuel =>
      if tmp =? l then dl_list_add_tail l item h
      else if later tmp then let? p := get_prev tmp h in dl_list_add p item h
      else let? n := get_next tmp h in ring_insert later fuel l n item h
  end.

(** dl_list_for_each_safe(): [n] was read before the body removes the element. *)
(* eloop.c eloop_cancel_timeout @847-859 *)
Fixpoint ring_cancel (gone : Z -> bool) (fuel : nat) (l t n : Z) (h : heap) : option heap :=
  match fuel with
  | O => None
  | S fuel =>
      if t =? l then Some h else
      let? h := if gone t then dl_list_del t h else Some h in
      let? n' := get_next n h in
      ring_cancel gone fuel l n n' h
  end.

(** ** Rings *)

Definition edge (h : heap) (a b : Z) : Prop := get_next a h = Some b /\ get_prev b h = Some a.

(** Neighbours in [L] are linked in both directions. *)
Fixpoint chain (h : heap) (L : list Z) : Prop :=
  match L with
  | a :: ((b :: _) as L') => edge h a b /\ chain h L'
  | _ => True
  end.

(** The ring of the list head [l] with the elements [xs]. *)
Definition ring (h : heap) (l : Z) (xs : list Z) : Prop := NoDup (l :: xs) /\ chain h (l :: xs ++ [l]).

Lemma chain_cut h L1 a b L2 :
  chain h (L1 ++ a :: b :: L2) <-> chain h (L1 ++ [a]) /\ edge h a b /\ chain h (b :: L2).
Proof.
  induction L1 as [|c [|d L1] IH]; cbn [app chain] in *; [tauto | tauto|]. rewrite IH. tauto.
Qed.

(** Which fields a chain depends on. *)
Lemma chain_frame h h' L :
  (forall p, In p (removelast L) -> get_next p h' = get_next p h) ->
  (forall p, In p (tl L) -> get_prev p h' = get_prev p h) -> chain h L -> chain h' L.
Proof.
  induction L as [|a [|b L] IH]; intros Hn Hp; [done | done|].
  change (removelast (a :: b :: L)) with (a :: removelast (b :: L)) in Hn. cbn [tl] in Hp.
  intros [[E1 E2] Hc]. split.
  - split; [rewrite Hn | rewrite Hp]; auto using in_eq.
  - apply IH; [| |exact Hc]; intros q Hq; [apply Hn; now right | apply Hp; now right].
Qed.

Lemma get_next_insert p q n h : get_next p (<[q := n]> h) = if decide (p = q) then Some (next n) else get_next p h.
Proof.
  unfold get_next. destruct (decide (p = q)) as [-> | Hn].
  - now rewrite lookup_insert_eq.
  - now rewrite lookup_insert_ne.
Qed.
Lemma get_prev_insert p q n h : get_prev p (<[q := n]> h) = if decide (p = q) then Some (prev n) else get_prev p h.
Proof.
  unfold get_prev. destruct (decide (p = q)) as [-> | Hn].
  - now rewrite lookup_insert_eq.
  - now rewrite lookup_insert_ne.
Qed.

(** Writing one field of a node: both reading functions afterwards. *)
Lemma set_next_spec p v h : is_Some (h !! p) -> exists h', set_next p v h = Some h'
  /\ (forall q, get_next q h' = if decide (q = p) then Some v else get_next q h)
  /\ (forall q, get_prev q h' = get_prev q h) /\ (forall q, is_Some (h' !! q) <-> is_Some (h !! q))
  /\ (forall q, q <> p -> h' !! q = h !! q).
Proof.
  intros [n Hn]. unfold set_next. rewrite Hn. eexists. split; [reflexivity|]. repeat split.
  - intros q. now rewrite get_next_insert.
  - intros q. rewrite get_prev_insert. destruct (decide (q = p)) as [-> |]; [|done]. unfold get_prev. now rewrite Hn.
  - rewrite lookup_insert_is_Some. destruct (decide (p = q)) as [<- |]; [eauto | intros [|[]]; done].
  - rewrite lookup_insert_is_Some. destruct (decide (p = q)); auto.
  - intros q Hq. now rewrite lookup_insert_ne.
Qed.
Lemma set_prev_spec p v h : is_Some (h !! p) -> exists h', set_prev p v h = Some h'
  /\ (forall q, get_prev q h' = if decide (q = p) then Some v else get_prev q h)
  /\ (forall q, get_next q h' = get_next q h) /\ (forall q, is_Some (h' !! q) <-> is_Some (h !! q))
  /\ (forall q, q <> p -> h' !! q = h !! q).
Proof.
  intros [n Hn]. unfold set_prev. rewrite Hn. eexists. split; [reflexivity|]. repeat split.
  - intros q. now rewrite get_prev_insert.
  - intros q. rewrite get_next_insert. destruct (decide (q = p)) as [-> |]; [|done]. unfold get_next. now rewrite Hn.
  - rewrite lookup_insert_is_Some. destruct (decide (p = q)) as [<- |]; [eauto | intros [|[]]; done].
  - rewrite lookup_insert_is_Some. destruct (decide (p = q)); auto.
  - intros q Hq. now rewrite lookup_insert_ne.
Qed.

Lemma get_next_node p v h : get_next p h = Some v -> is_Some (h !! p).
Proof. unfold get_next. destruct (h !! p); [eauto | done]. Qed.
Lemma get_prev_node p v h : get_prev p h = Some v -> is_Some (h !! p).
Proof. unfold get_prev. destruct (h !! p); [eauto | done]. Qed.

(** The summary of an insertion after [a] and before [b], and of a removal between them. *)
Lemma dl_list_add_spec a b item h :
  get_next a h = Some b -> get_prev b h = Some a -> is_Some (h !! item) -> item <> a -> item <> b ->
  exists h', dl_list_add a item h = Some h'
  /\ (forall q, get_next q h' = if decide (q = a) then Some item else if decide (q = item) then Some b else get_next q h)
  /\ (forall q, get_prev q h' = if decide (q = b) then Some item else if decide (q = item) then Some a else get_prev q h)
  /\ (forall q, is_Some (h' !! q) <-> is_Some (h !! q)).
Proof.
  intros Ea Eb Hi Hia Hib. unfold dl_list_add. rewrite Ea.
  destruct (set_next_spec item b h Hi) as (h1 & -> & N1 & P1 & S1 & _).
  destruct (set_prev_spec item a h1) as (h2 & -> & P2 & N2 & S2 & _); [now apply S1|].
  assert (get_next a h2 = Some b) as -> by (rewrite N2, N1, decide_False by congruence; done).
  destruct (set_prev_spec b item h2) as (h3 & -> & P3 & N3 & S3 & _).
  { apply S2, S1. now apply (get_prev_node b a). }
  destruct (set_next_spec a item h3) as (h4 & -> & N4 & P4 & S4 & _).
  { apply S3, S2, S1. now apply (get_next_node a b). }
  exists h4. split; [reflexivity|]. split; [|split].
  - intros q. rewrite N4, N3, N2, N1. done.
  - intros q. rewrite P4, P3, P2, P1. done.
  - intros q. rewrite S4, S3, S2, S1. done.
Qed.

Lemma dl_list_del_spec a x b h :
  edge h a x -> edge h x b -> x <> a -> x <> b -> exists h', dl_list_del x h = Some h'
  /\ (forall q, get_next q h' = if decide (q = x) then Some NULL else if decide (q = a) then Some b else get_next q h)
  /\ (forall q, get_prev q h' = if decide (q = x) then Some NULL else if decide (q = b) then Some a else get_prev q h)
  /\ (forall q, is_Some (h' !! q) <-> is_Some (h !! q)).
Proof.
  intros [Ea1 Ea2] [Eb1 Eb2] Hxa Hxb. unfold dl_list_del. rewrite Eb1, Ea2.
  destruct (set_prev_spec b a h (get_prev_node _ _ _ Eb2)) as (h1 & -> & P1 & N1 & S1 & _).
  assert (get_prev x h1 = Some a) as -> by (rewrite P1, decide_False by done; done).
  assert (get_next x h1 = Some b) as -> by (rewrite N1; done).
  destruct (set_next_spec a b h1) as (h2 & -> & N2 & P2 & S2 & _).
  { apply S1. exact (get_next_node _ _ _ Ea1). }
  destruct (set_next_spec x NULL h2) as (h3 & -> & N3 & P3 & S3 & _).
  { apply S2, S1. exact (get_next_node _ _ _ Eb1). }
  destruct (set_prev_spec x NULL h3) as (h4 & -> & P4 & N4 & S4 & _).
  { apply S3, S2, S1. exact (get_next_node _ _ _ Eb1). }
  exists h4. split; [reflexivity|]. split; [|split].
  - intros q. now rewrite N4, N3, N2, N1.
  - intros q. now rewrite P4, P3, P2, P1.
  - intros q. now rewrite S4, S3, S2, S1.
Qed.

(** ** Operations on rings *)

(** The places of a ring: what is in front of an element, and what comes after it. *)
Lemma ring_place (l : Z) (xs ys : list Z) : exists L1 a b L2,
  l :: xs = L1 ++ [a] /\ ys ++ [l] = b :: L2 /\ l :: (xs ++ ys) ++ [l] = L1 ++ a :: b :: L2.
Proof.
  destruct (@exists_last Z (l :: xs) ltac:(done)) as (L1 & a & E1).
  destruct (ys ++ [l]) as [|b L2] eqn:E2; [now destruct ys|].
  exists L1, a, b, L2. repeat split; [done|]. rewrite <- app_assoc, E2.
  change (l :: xs ++ b :: L2) with ((l :: xs) ++ b :: L2). rewrite E1, <- app_assoc. done.
Qed.

Lemma removelast_snoc {A} (L : list A) x : removelast (L ++ [x]) = L.
Proof. now rewrite removelast_app, app_nil_r. Qed.

Lemma ring_parts (l : Z) (xs ys L1 : list Z) (a b : Z) (L2 : list Z) : NoDup (l :: xs ++ ys) -> l :: xs = L1 ++ [a] -> ys ++ [l] = b :: L2 ->
  ~ In a L1 /\ ~ In b (tl (L1 ++ [a])) /\ ~ In a (removelast (b :: L2)) /\ ~ In b L2
  /\ In a (l :: xs) /\ In b (l :: ys) /\ tl (L1 ++ [a]) = xs /\ removelast (b :: L2) = ys.
Proof.
  intros Hd E1 E2. rewrite <- E1, <- E2, removelast_snoc. cbn [tl].
  change (l :: xs ++ ys) with ((l :: xs) ++ ys) in Hd. pose proof Hd as Hd0. rewrite E1 in Hd.
  apply NoDup_app in Hd as (H1 & H2 & H3). apply NoDup_app in H1 as (H1 & H4 & _).
  apply NoDup_app in Hd0 as (G1 & G2 & _). apply NoDup_cons in G1 as [G1 _].
  assert (In a (l :: xs)) as Ha by (rewrite E1; apply in_app_iff; right; now left).
  assert (~ In a L1) as HaL by (intros Hin; apply (H4 a); [now apply list_elem_of_In | set_solver]).
  assert (~ In a ys) as Hay by (intros Hin; apply (G2 a); now apply list_elem_of_In).
  destruct ys as [|y ys]; cbn [app] in E2; injection E2 as <- <-.
  - repeat split; auto; [intros Hin; now apply G1, list_elem_of_In | now left].
  - assert (y <> l) as Hyl by (intros ->; apply (G2 l); set_solver).
    apply NoDup_cons in H3 as [H3 _]. repeat split; auto.
    + intros Hin. apply (G2 y); [right; now apply list_elem_of_In | set_solver].
    + rewrite in_app_iff. intros [Hin | [Hin | []]]; [now apply H3, list_elem_of_In | congruence].
    + right. now left.
Qed.

(** A new element behind the node [a] of a ring. *)
Lemma ring_add h l xs ys a item :
  ring h l (xs ++ ys) -> last (l :: xs) = Some a -> is_Some (h !! item) -> ~ In item (l :: xs ++ ys) ->
  exists h', dl_list_add a item h = Some h' /\ ring h' l (xs ++ item :: ys)
  /\ (forall q, is_Some (h' !! q) <-> is_Some (h !! q)).
Proof.
  intros [Hd Hc] Hl Hi Hn. destruct (ring_place l xs ys) as (L1 & a' & b & L2 & E1 & E2 & E3).
  rewrite E1, last_snoc in Hl. injection Hl as ->. rewrite E3 in Hc. apply chain_cut in Hc as (C1 & [Ea Eb] & C2).
  destruct (ring_parts l xs ys L1 a b L2 Hd E1 E2) as (A1 & A2 & A3 & A4 & A5 & A6 & A7 & A8).
  assert (~ In item (l :: xs) /\ ~ In item (ys ++ [l])) as [N1 N2].
  { split; intros Hin; apply Hn; cbn [In] in *; rewrite in_app_iff in *; cbn [In] in Hin; tauto. }
  assert (item <> a /\ item <> b) as [Hia Hib].
  { split; intros ->; [now apply N1|]. apply N2. rewrite in_app_iff. cbn [In] in *. tauto. }
  destruct (dl_list_add_spec a b item h Ea Eb Hi Hia Hib) as (h' & -> & En & Ep & Es).
  exists h'. split; [reflexivity|]. split; [|exact Es]. split.
  - change (l :: xs ++ item :: ys) with ((l :: xs) ++ item :: ys).
    rewrite <- Permutation_middle. apply NoDup_cons. split; [|exact Hd]. now rewrite list_elem_of_In.
  - assert (l :: (xs ++ item :: ys) ++ [l] = L1 ++ a :: item :: b :: L2) as ->.
    { rewrite <- app_assoc. cbn [app]. rewrite E2. change (l :: xs ++ item :: b :: L2) with ((l :: xs) ++ item :: b :: L2).
      now rewrite E1, <- app_assoc. }
    apply chain_cut. split; [|split].
    + apply (chain_frame h); [| |exact C1]; intros p Hp; [rewrite removelast_snoc in Hp; rewrite En | rewrite Ep];
        rewrite !decide_False; try done; intros ->; auto.
      * apply N1. rewrite E1. apply in_app_iff. now left.
      * apply N1. right. now rewrite A7 in Hp.
    + split; [now rewrite En, decide_True|]. rewrite Ep, decide_False, decide_True by done. done.
    + change (edge h' item b /\ chain h' (b :: L2)). split.
      * split; [rewrite En, decide_False, decide_True by done; done | now rewrite Ep, decide_True].
      * apply (chain_frame h); [| |exact C2]; intros p Hp; [rewrite En | cbn [tl] in Hp; rewrite Ep];
          rewrite !decide_False; try done; intros ->; auto.
        -- apply N2. apply in_app_iff. left. now rewrite <- A8.
        -- apply N2. rewrite E2. now right.
Qed.

(** Taking an element out of a ring. *)
Lemma ring_del h l xs x ys :
  ring h l (xs ++ x :: ys) ->
  exists h', dl_list_del x h = Some h' /\ ring h' l (xs ++ ys)
  /\ (forall q, is_Some (h' !! q) <-> is_Some (h !! q)).
Proof.
  intros [Hd Hc]. assert (NoDup (l :: xs ++ ys) /\ ~ In x (l :: xs ++ ys)) as [Hd' Hx].
  { change (l :: xs ++ x :: ys) with ((l :: xs) ++ x :: ys) in Hd. rewrite <- Permutation_middle in Hd.
    apply NoDup_cons in Hd as [H1 H2]. split; [exact H2|]. intros Hin. now apply H1, list_elem_of_In. }
  destruct (ring_place l xs ys) as (L1 & a & b & L2 & E1 & E2 & _).
  destruct (ring_parts l xs ys L1 a b L2 Hd' E1 E2) as (A1 & A2 & A3 & A4 & A5 & A6 & A7 & A8).
  assert (forall Z0, l :: (xs ++ Z0 ++ ys) ++ [l] = L1 ++ a :: Z0 ++ b :: L2) as Eall.
  { intros Z0. rewrite <- !app_assoc, E2. change (l :: xs ++ Z0 ++ b :: L2) with ((l :: xs) ++ Z0 ++ b :: L2).
    now rewrite E1, <- app_assoc. }
  pose proof (Eall [x]) as E. cbn [app] in E. rewrite E in Hc. clear E.
  apply chain_cut in Hc as (C1 & Ea & Hc). apply (chain_cut h [] x b L2) in Hc as (_ & Eb & C2).
  assert (x <> a /\ x <> b) as [Hxa Hxb].
  { split; intros ->; apply Hx; change (l :: xs ++ ys) with ((l :: xs) ++ ys); rewrite in_app_iff; cbn [In] in *; tauto. }
  destruct (dl_list_del_spec a x b h Ea Eb Hxa Hxb) as (h' & -> & En & Ep & Es).
  exists h'. split; [reflexivity|]. split; [|exact Es]. split; [exact Hd'|].
  pose proof (Eall []) as E. cbn [app] in E. rewrite E. clear E Eall. apply chain_cut. split; [|split].
  - apply (chain_frame h); [| |exact C1]; intros p Hp; [rewrite removelast_snoc in Hp; rewrite En | rewrite Ep];
      rewrite !decide_False; try done; intros ->; auto.
    + apply Hx. change (l :: xs ++ ys) with ((l :: xs) ++ ys). rewrite E1, !in_app_iff. auto.
    + apply Hx. right. rewrite A7 in Hp. apply in_app_iff. now left.
  - split; [rewrite En, decide_False, decide_True by congruence | rewrite Ep, decide_False, decide_True by congruence]; done.
  - apply (chain_frame h); [| |exact C2]; intros p Hp; [rewrite En | cbn [tl] in Hp; rewrite Ep];
      rewrite !decide_False; try done; intros ->; auto.
    + apply Hx. right. apply in_app_iff. right. now rewrite <- A8.
    + assert (In x (ys ++ [l])) as Hin by (rewrite E2; now right).
      apply Hx. rewrite in_app_iff in Hin. cbn [In]. rewrite in_app_iff. cbn [In] in Hin. tauto.
Qed.

(** Reading the neighbours. *)
Lemma ring_next h l xs a ys : ring h l (xs ++ ys) -> last (l :: xs) = Some a ->
  get_next a h = Some (hd l ys) /\ get_prev (hd l ys) h = Some a.
Proof.
  intros [_ Hc] Hl. destruct (ring_place l xs ys) as (L1 & a' & b & L2 & E1 & E2 & E3).
  rewrite E1, last_snoc in Hl. injection Hl as ->. rewrite E3 in Hc. apply chain_cut in Hc as (_ & [Ea Eb] & _).
  assert (b = hd l ys) as -> by (destruct ys; cbn in *; congruence). done.
Qed.

Lemma ring_in h l xs q : ring h l xs -> In q (l :: xs) -> is_Some (h !! q).
Proof.
  intros Hr Hq.
  destruct (in_split q (l :: xs) Hq) as ([|l' pre] & ys & E); injection E as E1 E2.
  - subst. destruct (ring_next h q [] q ys Hr eq_refl) as [E _]. exact (get_next_node _ _ _ E).
  - subst. rewrite <- (app_nil_r ys) in Hr. destruct (ring_next h l' (pre ++ [q]) q ys) as [E _].
    + rewrite <- app_assoc. cbn [app]. now rewrite app_nil_r in Hr.
    + rewrite app_comm_cons, last_snoc. done.
    + exact (get_next_node _ _ _ E).
Qed.

Lemma dl_list_add_tail_ring h l xs item : ring h l xs -> is_Some (h !! item) -> ~ In item (l :: xs) ->
  exists h', dl_list_add_tail l item h = Some h' /\ ring h' l (xs ++ [item])
  /\ (forall q, is_Some (h' !! q) <-> is_Some (h !! q)).
Proof.
  intros Hr Hi Hn. destruct (last (l :: xs)) as [a|] eqn:Ea; [|now apply last_None in Ea].
  pose proof (ring_next h l xs a []) as Hp. rewrite app_nil_r in Hp. destruct (Hp Hr Ea) as [_ Ep].
  unfold dl_list_add_tail. cbn [hd] in Ep. rewrite Ep.
  apply (ring_add h l xs [] a item); [now rewrite app_nil_r | done | done | now rewrite app_nil_r].
Qed.

Lemma dl_list_init_ring h l : is_Some (h !! l) -> exists h', dl_list_init l h = Some h' /\ ring h' l [].
Proof.
  intros Hl. unfold dl_list_init. destruct (set_next_spec l l h Hl) as (h1 & -> & N1 & P1 & S1 & _).
  destruct (set_prev_spec l l h1) as (h2 & -> & P2 & N2 & S2 & _); [now apply S1|]. exists h2. split; [done|].
  split; [repeat constructor; set_solver|]. cbn. repeat split; [rewrite N2, N1 | rewrite P2]; now rewrite decide_True.
Qed.

Lemma dl_list_first_ring h l xs : ring h l xs -> dl_list_first l h = Some (hd NULL xs).
Proof.
  intros Hr. destruct (ring_next h l [] l xs Hr eq_refl) as [E _]. unfold dl_list_first, dl_list_empty. rewrite E.
  destruct xs as [|x xs]; cbn [hd]; [now rewrite Z.eqb_refl|]. destruct (Z.eqb_spec x l) as [-> |]; [|done].
  destruct Hr as [Hd _]. apply NoDup_cons in Hd as [Hd _]. set_solver.
Qed.

(** ** The loops *)

Lemma hd_is_head l xs ys : NoDup (l :: xs ++ ys) -> (hd l ys =? l) = bool_decide (ys = []).
Proof.
  intros Hd. destruct ys as [|y ys]; cbn [hd]; [now rewrite Z.eqb_refl|]. destruct (Z.eqb_spec y l) as [-> |]; [|done].
  apply NoDup_cons in Hd as [Hd _]. set_solver.
Qed.

(** Insertion in front of the first element that is [later]. *)
Fixpoint insert_before (later : Z -> bool) (item : Z) (xs : list Z) : list Z :=
  match xs with
  | [] => [item]
  | x :: xs => if later x then item :: x :: xs else x :: insert_before later item xs
  end.

Lemma ring_insert_spec later h l xs ys item fuel :
  ring h l (xs ++ ys) -> is_Some (h !! item) -> ~ In item (l :: xs ++ ys) -> (length ys < fuel)%nat ->
  exists h', ring_insert later fuel l (hd l ys) item h = Some h' /\ ring h' l (xs ++ insert_before later item ys)
  /\ (forall q, is_Some (h' !! q) <-> is_Some (h !! q)).
Proof.
  revert xs ys. induction fuel as [|fuel IH]; intros xs ys Hr Hi Hn Hf; [lia|]. cbn [ring_insert].
  rewrite (hd_is_head l xs ys) by apply Hr. destruct ys as [|y ys]; cbn [hd insert_before].
  - rewrite bool_decide_true by done. rewrite app_nil_r in Hr, Hn. now apply dl_list_add_tail_ring.
  - rewrite bool_decide_false by done. destruct (last (l :: xs)) as [a|] eqn:Ea; [|now apply last_None in Ea].
    destruct (ring_next h l xs a (y :: ys) Hr Ea) as [_ Ep]. cbn [hd] in Ep. destruct (later y).
    + rewrite Ep. now apply (ring_add h l xs (y :: ys) a item).
    + assert (ring h l ((xs ++ [y]) ++ ys)) as Hr' by now rewrite <- app_assoc.
      destruct (ring_next h l (xs ++ [y]) y ys Hr') as [En _]; [now rewrite app_comm_cons, last_snoc|].
      rewrite En. destruct (IH (xs ++ [y]) ys Hr' Hi) as (h' & E & Hring & Hs);
        [now rewrite <- app_assoc | simpl in Hf; lia|].
      exists h'. split; [exact E|]. rewrite <- app_assoc in Hring. now split.
Qed.

Lemma ring_cancel_spec gone h l xs ys n fuel :
  ring h l (xs ++ ys) -> (length ys < fuel)%nat -> (ys <> [] -> n = hd l (tl ys)) ->
  exists h', ring_cancel gone fuel l (hd l ys) n h = Some h'
  /\ ring h' l (xs ++ List.filter (fun q => negb (gone q)) ys)
  /\ (forall q, is_Some (h' !! q) <-> is_Some (h !! q)).
Proof.
  revert h xs ys n. induction fuel as [|fuel IH]; intros h xs ys n Hr Hf Hn; [lia|]. cbn [ring_cancel].
  rewrite (hd_is_head l xs ys) by apply Hr. destruct ys as [|y ys]; [rewrite bool_decide_true by done; now exists h|].
  rewrite bool_decide_false by done. rewrite (Hn ltac:(done)). cbn [hd tl List.filter].
  assert (exists h1 xs1, (if gone y then dl_list_del y h else Some h) = Some h1 /\ ring h1 l (xs1 ++ ys)
    /\ (forall q, is_Some (h1 !! q) <-> is_Some (h !! q))
    /\ (forall k, xs ++ (if negb (gone y) then y :: k else k) = xs1 ++ k)) as (h1 & xs1 & -> & Hr1 & Hs1 & Hk).
  { destruct (gone y); cbn [negb].
    - destruct (ring_del h l xs y ys Hr) as (h1 & -> & Hr1 & Hs1). now exists h1, xs.
    - exists h, (xs ++ [y]). split; [done|]. split; [now rewrite <- app_assoc|]. split; [done|].
      intros k. now rewrite <- app_assoc. }
  assert (exists n', get_next (hd l ys) h1 = Some n' /\ (ys <> [] -> n' = hd l (tl ys))) as (n' & -> & Hn').
  { destruct ys as [|z ys]; cbn [hd tl].
    - destruct (ring_in h1 l _ l Hr1 (in_eq _ _)) as [v Hv]. unfold get_next. rewrite Hv. now exists (next v).
    - exists (hd l ys). split; [|done]. apply (ring_next h1 l (xs1 ++ [z])).
      + now rewrite <- app_assoc.
      + now rewrite app_comm_cons, last_snoc. }
  destruct (IH h1 xs1 ys n' Hr1 ltac:(simpl in Hf; lia) Hn') as (h' & E & Hring & Hs). exists h'.
  split; [exact E|]. rewrite Hk. split; [exact Hring|]. intros q. now rewrite Hs, Hs1.
Qed.

(** ** The timeout list of eloop.c *)

Lemma insert_before_timeout (pl : Z -> eloop_timeout) item xs :
  pl <$> insert_before (fun q => os_reltime_before (time (pl item)) (time (pl q))) item xs
  = insert_timeout (pl item) (pl <$> xs).
Proof.
  induction xs as [|x xs IH]; [done|]. cbn [insert_before fmap list_fmap insert_timeout].
  destruct (os_reltime_before _ _); cbn [fmap list_fmap]; [done|]. f_equal. exact IH.
Qed.

Lemma filter_map_timeouts (pl : Z -> eloop_timeout) f xs :
  pl <$> List.filter (fun q => negb (f (pl q))) xs = List.filter (fun t => negb (f t)) (pl <$> xs).
Proof.
  induction xs as [|x xs IH]; [done|]. cbn [List.filter fmap list_fmap]. destruct (f (pl x)); cbn [negb fmap list_fmap];
    [exact IH | f_equal; exact IH].
Qed.

(** The ring of [eloop.timeout] holds the timeouts [l]; [pl] is the structure around a node. *)
Definition timeout_ring (pl : Z -> eloop_timeout) (head : Z) (h : heap) (l : list eloop_timeout) : Prop :=
  exists xs, ring h head xs /\ pl <$> xs = l.

(** C28. The pointer operations of list.h do to the ring of timeouts what Eloop.v does
    to its list: from a ring that holds [l], the loops of eloop_register_timeout()
    and eloop_cancel_timeout() touch only nodes that exist, end within the length
    of the list, and leave a ring that holds [insert_timeout t l] and the timeouts that
    are not cancelled; and dl_list_first() finds the head of [l]. *)
Theorem timeout_ring_refines pl head h xs new handler eloop_data user_data fuel :
  ring h head xs -> (length xs < fuel)%nat -> is_Some (h !! new) -> ~ In new (head :: xs) ->
  let l := pl <$> xs in
  exists first second h_reg h_can,
    get_next head h = Some first /\ get_next first h = Some second
    /\ ring_insert (fun q => os_reltime_before (time (pl new)) (time (pl q))) fuel head first new h = Some h_reg
    /\ timeout_ring pl head h_reg (insert_timeout (pl new) l)
    /\ ring_cancel (fun q => cancels handler eloop_data user_data (pl q)) fuel head first second h = Some h_can
    /\ timeout_ring pl head h_can (List.filter (fun t => negb (cancels handler eloop_data user_data t)) l)
    /\ (exists p, dl_list_first head h = Some p /\ (if bool_decide (l = []) then p = NULL else hd_error l = Some (pl p))).
Proof.
  intros Hr Hf Hnode Hfresh l. destruct (ring_next h head [] head xs Hr eq_refl) as [E1 _].
  assert (exists second, get_next (hd head xs) h = Some second /\ (xs <> [] -> second = hd head (tl xs))) as (second & E2 & Hsec).
  { destruct xs as [|x xs]; cbn [hd tl]; [now exists head|].
    exists (hd head xs). split; [|done]. now apply (ring_next h head [x] x xs). }
  destruct (ring_insert_spec (fun q => os_reltime_before (time (pl new)) (time (pl q))) h head [] xs new fuel
    Hr Hnode Hfresh Hf) as (h1 & I1 & R1 & _).
  destruct (ring_cancel_spec (fun q => cancels handler eloop_data user_data (pl q)) h head [] xs second fuel Hr Hf Hsec)
    as (h2 & I2 & R2 & _).
  exists (hd head xs), second, h1, h2. split; [exact E1|]. split; [exact E2|]. split; [exact I1|]. split.
  - eexists. split; [exact R1 | apply insert_before_timeout].
  - split; [exact I2|]. split; [eexists; split; [exact R2 | apply filter_map_timeouts]|].
    exists (hd NULL xs). split; [now apply dl_list_first_ring|]. now destruct xs.
Qed.

(** A ring of two timeouts at 8 and 16 behind the head at 4, and a node at 24. *)
Definition demo_heap : heap :=
  list_to_map [(4, DlNode 8 16); (8, DlNode 16 4); (16, DlNode 4 8); (24, DlNode 0 0)].
Definition demo_pl (q : Z) : eloop_timeout := Timeout (Z.to_nat q) (Reltime q 0) 0 0 q.

Lemma demo_ring : ring demo_heap 4 [8; 16].
Proof. split; [apply (bool_decide_unpack _); vm_compute; exact I | vm_compute; tauto]. Qed.

Lemma timeout_ring_refines_witness : exists h,
  ring_insert (fun q => os_reltime_before (Reltime 24 0) (time (demo_pl q))) 3 4 8 24 demo_heap = Some h
  /\ timeout_ring demo_pl 4 h [demo_pl 8; demo_pl 16; demo_pl 24].
Proof.
  destruct (timeout_ring_refines demo_pl 4 demo_heap [8; 16] 24 0 0 0 3)
    as (f & s & h1 & h2 & E1 & E2 & I1 & R1 & _).
  - exact demo_ring.
  - simpl. lia.
  - eexists. vm_compute. reflexivity.
  - simpl. lia.
  - exists h1. injection E1 as <-. split; [exact I1 | exact R1].
Defined.
