(* ===== verification/Pmksa.v ===== *)
(** * PMKSA cache (src/rsn_supp/pmksa_cache.c)

    The cache is a linked list of heap-allocated entries, and wpa_sm keeps a
    pointer [cur_pmksa] to one of them.  The model keeps the pointers: [heap]
    maps the address of each allocated entry to its contents, [pmksa] is the list
    from the head pointer, and every access goes through the heap.  An operation
    returns [None] when it dereferences an address that is not allocated, so that
    "no use after free" is that no operation returns [None].

    [pmksa_st] is the part of struct wpa_sm the cache reads and writes, and it is
    a field of the [wpa_sm] of WpaSm.v.  wpa_sm_pmksa_free_cb() and
    wpa_sm_pmksa_is_current_cb() of wpa.c are the callbacks it was created with.
    os_get_reltime() does not fail; pmksa_cache_list() (text output) is not
    modelled. *)

From stdpp Require Import gmap.
From S2P Require Import Prelude WpaDefs WpaCommon Crypto WpaTypes.

(* pmksa_cache.c pmksa_cache_max_entries @20-20 *)
Definition pmksa_cache_max_entries : Z := 32.

(* pmksa_cache.h struct rsn_pmksa_cache_entry *)
Record rsn_pmksa_cache_entry := PmksaEntry {
  e_pmkid : bytes;
  e_pmk : bytes;                   (* PMK_LEN_MAX bytes *)
  e_pmk_len : Z;
  e_expiration : Z;
  e_akmp : Z;
  e_aa : bytes;
  e_fils_cache_id : option bytes;  (* fils_cache_id if fils_cache_id_set *)
  e_reauth_time : Z;
  e_network_ctx : Z;
  e_opportunistic : bool;
  e_external : bool
}.
#[export] Instance eta_pmksa_entry : Eta rsn_pmksa_cache_entry := fun e =>
  PmksaEntry (e_pmkid e) (e_pmk e) (e_pmk_len e) (e_expiration e) (e_akmp e) (e_aa e)
    (e_fils_cache_id e) (e_reauth_time e) (e_network_ctx e) (e_opportunistic e) (e_external e).

(* pmksa_cache.c struct rsn_pmksa_cache *)
Record pmksa_st := PmksaSt {
  heap : gmap nat rsn_pmksa_cache_entry;
  next_ptr : nat;                  (* addresses from here on were never allocated *)
  pmksa : list nat;
  pmksa_count : Z;
  cur_pmksa : option nat;
  pmk : bytes;                     (* PMK_LEN_MAX bytes *)
  pmk_len : Z;
  bssid : bytes;
  own_addr : bytes;
  dot11RSNAConfigPMKLifetime : Z;
  dot11RSNAConfigPMKReauthThreshold : Z;
  expire_timeout : option Z;       (* seconds of the pending pmksa_cache_expire() *)
  reauth_timeout : option Z;       (* seconds of the pending pmksa_cache_reauth() *)
  calls : nat;                     (* questions asked to the environment *)
  events : list wpa_event
}.
#[export] Instance eta_pmksa_st : Eta pmksa_st := fun s =>
  PmksaSt (heap s) (next_ptr s) (pmksa s) (pmksa_count s) (cur_pmksa s) (pmk s) (pmk_len s)
    (bssid s) (own_addr s) (dot11RSNAConfigPMKLifetime s) (dot11RSNAConfigPMKReauthThreshold s)
    (expire_timeout s) (reauth_timeout s) (calls s) (events s).

Definition emit (e : wpa_event) (s : pmksa_st) : pmksa_st := s <| events := events s ++ [e] |>.

Section Cache.
Context `{ENV : WpaEnv} `{HM : Hmac}.

(** os_get_reltime(&now): [now.sec]. *)
Definition get_time (s : pmksa_st) : Z * pmksa_st :=
  (env_time (calls s), s <| calls := S (calls s) |>).
(** Whether an allocation succeeds. *)
Definition ask_malloc (s : pmksa_st) : bool * pmksa_st :=
  (env_malloc (calls s), s <| calls := S (calls s) |>).

(** The cached PMK bytes of an entry. *)
Definition entry_key (e : rsn_pmksa_cache_entry) : bytes := key_of (e_pmk e) (e_pmk_len e).

(* wpa.c wpa_sm_pmksa_is_current_cb *)
Definition wpa_sm_pmksa_is_current_cb (p : nat) (s : pmksa_st) : bool :=
  bool_decide (cur_pmksa s = Some p).

(* pmksa_cache.c pmksa_cache_clear_current *)
Definition pmksa_cache_clear_current (s : pmksa_st) : pmksa_st := s <| cur_pmksa := None |>.

(* pmksa_cache.c pmksa_cache_get_current *)
Definition pmksa_cache_get_current (s : pmksa_st) : option nat := cur_pmksa s.

(* pmksa_cache.c pmksa_cache_head *)
Definition pmksa_cache_head (s : pmksa_st) : option nat := head (pmksa s).

(* wpa.c wpa_sm_pmksa_free_cb *)
Definition wpa_sm_pmksa_free_cb (p : nat) (e : rsn_pmksa_cache_entry) (reason : pmksa_free_reason)
    (s : pmksa_st) : pmksa_st :=
  let '(deauth, s) :=
    if bool_decide (cur_pmksa s = Some p)
    then (bool_decide (reason <> PMKSA_REPLACE), pmksa_cache_clear_current s)
    else (false, s) in
  let '(deauth, s) :=
    if bool_decide (reason = PMKSA_EXPIRE) && (pmk_len s =? e_pmk_len e)
       && bool_decide (key_of (pmk s) (pmk_len s) = key_of (e_pmk e) (pmk_len s))
    then (true, pmksa_cache_clear_current s)
    else (deauth, s) in
  if deauth then
    emit (EvDeauth WLAN_REASON_UNSPECIFIED)
      (s <| pmk_len := 0 |> <| pmk := replicate (Z.to_nat PMK_LEN_MAX) 0 |>)
  else s.

(* pmksa_cache.c _pmksa_cache_free_entry *)
Definition _pmksa_cache_free_entry (p : nat) (s : pmksa_st) : pmksa_st :=
  s <| heap := delete p (heap s) |>.

(* pmksa_cache.c pmksa_cache_free_entry *)
Definition pmksa_cache_free_entry (p : nat) (reason : pmksa_free_reason) (s : pmksa_st)
  : option pmksa_st :=
  let? e := heap s !! p in
  Some (s ▸ emit (EvRemovePmkid (e_network_ctx e) (e_aa e) (e_pmkid e) (e_fils_cache_id e))
          ▸ (fun s => s <| pmksa_count := pmksa_count s - 1 |>)
          ▸ wpa_sm_pmksa_free_cb p e reason
          ▸ _pmksa_cache_free_entry p).

(** The search loop of pmksa_cache_get(); [None] at the outside is an invalid
    access, at the inside a NULL result. *)
Fixpoint find_entry (f : rsn_pmksa_cache_entry -> bool) (h : gmap nat rsn_pmksa_cache_entry)
    (l : list nat) : option (option nat) :=
  match l with
  | [] => Some None
  | p :: l => let? e := h !! p in if f e then Some (Some p) else find_entry f h l
  end.

(** [x == NULL || x matches] *)
Definition opt_match (x : option bytes) (y : bytes) : bool :=
  match x with None => true | Some x => bool_decide (y = x) end.

(* pmksa_cache.c pmksa_cache_get *)
Definition pmksa_cache_get (aa pmkid : option bytes) (network_ctx akmp : Z) (s : pmksa_st)
  : option (option nat) :=
  find_entry (fun e =>
    opt_match aa (e_aa e) && opt_match pmkid (e_pmkid e)
    && ((akmp =? 0) || (akmp =? e_akmp e))
    && ((network_ctx =? 0) || (network_ctx =? e_network_ctx e))) (heap s) (pmksa s).

(* pmksa_cache.c pmksa_cache_set_expiration @116-137 *)
Definition expire_seconds (now : Z) (e : rsn_pmksa_cache_entry) (current : bool)
    (next : option rsn_pmksa_cache_entry) : Z :=
  let sec := s32 (e_expiration e - now) in
  if sec <? 0 then
    if wpa_key_mgmt_sae (e_akmp e) && current then
      match next with
      | Some n =>
          let sec := s32 (e_expiration n - now) in
          if sec <? 0 then 0 else if 600 <? sec then 600 else sec
      | None => 600
      end
    else 0
  else sec.

(* pmksa_cache.c pmksa_cache_set_expiration *)
Definition pmksa_cache_set_expiration (s : pmksa_st) : option pmksa_st :=
  let s := s <| expire_timeout := None |> <| reauth_timeout := None |> in
  match pmksa s with
  | [] => Some s
  | p :: rest =>
      let '(now, s) := get_time s in
      let? e := heap s !! p in
      let? next := match rest with
                   | [] => Some None
                   | q :: _ => let? n := heap s !! q in Some (Some n)
                   end in
      let sec := expire_seconds now e (wpa_sm_pmksa_is_current_cb p s) next in
      let s := s <| expire_timeout := Some (sec + 1) |> in
      let? entry := match cur_pmksa s with
                    | Some c => Some (Some c)
                    | None => pmksa_cache_get (Some (bssid s)) None 0 0 s
                    end in
      match entry with
      | None => Some s
      | Some c =>
          let? ce := heap s !! c in
          if negb (wpa_key_mgmt_sae (e_akmp ce)) then
            let sec := s32 (e_reauth_time e - now) in
            let sec := if sec <? 0 then 0 else sec in
            Some (s <| reauth_timeout := Some sec |>)
          else Some s
      end
  end.

(** [while (entry && entry->expiration <= now.sec)]: [kept] are the entries
    passed over, [rest] starts at [entry]. *)
Fixpoint expire_loop (now : Z) (kept rest : list nat) (s : pmksa_st) : option pmksa_st :=
  match rest with
  | [] => Some s
  | p :: rest =>
      let? e := heap s !! p in
      if e_expiration e <=? now then
        if wpa_key_mgmt_sae (e_akmp e) && wpa_sm_pmksa_is_current_cb p s
        then expire_loop now (kept ++ [p]) rest s
        else
          let s := s <| pmksa := kept ++ rest |> in
          let? s := pmksa_cache_free_entry p PMKSA_EXPIRE s in
          expire_loop now kept rest s
      else Some s
  end.

(* pmksa_cache.c pmksa_cache_expire *)
Definition pmksa_cache_expire (s : pmksa_st) : option pmksa_st :=
  let s := s <| expire_timeout := None |> in
  let '(now, s) := get_time s in
  let? s := expire_loop now [] (pmksa s) s in
  pmksa_cache_set_expiration s.

(** The condition of pmksa_cache_flush(). *)
Definition flush_match (network_ctx : Z) (key : option bytes) (external_only : bool)
    (e : rsn_pmksa_cache_entry) : bool :=
  ((e_network_ctx e =? network_ctx) || (network_ctx =? 0))
  && match key with
     | None => true
     | Some k => (zlen k =? e_pmk_len e) && bool_decide (k = entry_key e)
     end
  && (negb external_only || e_external e).

Fixpoint flush_loop (f : rsn_pmksa_cache_entry -> bool) (kept rest : list nat) (removed : bool)
    (s : pmksa_st) : option (bool * pmksa_st) :=
  match rest with
  | [] => Some (removed, s)
  | p :: rest =>
      let? e := heap s !! p in
      if f e then
        let s := s <| pmksa := kept ++ rest |> in
        let? s := pmksa_cache_free_entry p PMKSA_FREE s in
        flush_loop f kept rest true s
      else flush_loop f (kept ++ [p]) rest removed s
  end.

(* pmksa_cache.c pmksa_cache_flush *)
Definition pmksa_cache_flush (network_ctx : Z) (key : option bytes) (external_only : bool)
    (s : pmksa_st) : option pmksa_st :=
  let? (removed, s) :=
    flush_loop (flush_match network_ctx key external_only) [] (pmksa s) false s in
  if removed then pmksa_cache_set_expiration s else Some s.

(** ** Adding entries *)

(** The first entry for the address [aa]: the list around it. *)
Fixpoint find_aa (h : gmap nat rsn_pmksa_cache_entry) (aa : bytes) (pre l : list nat)
  : option (option (list nat * nat * list nat)) :=
  match l with
  | [] => Some None
  | p :: l =>
      let? e := h !! p in
      if bool_decide (aa = e_aa e) then Some (Some (pre, p, l)) else find_aa h aa (pre ++ [p]) l
  end.

(** "WPA: reusing previous PMKSA entry" *)
Definition same_pmksa (e pos : rsn_pmksa_cache_entry) : bool :=
  (e_pmk_len pos =? e_pmk_len e)
  && bool_decide (key_of (e_pmk pos) (e_pmk_len e) = entry_key e)
  && bool_decide (e_pmkid pos = e_pmkid e).

(** Remove the oldest entry that is not in use to make room. *)
(* pmksa_cache.c pmksa_cache_add_entry @266-288 *)
Definition evict_oldest (s : pmksa_st) : option pmksa_st :=
  if pmksa_count s <? pmksa_cache_max_entries then Some s else
  match pmksa s with
  | [] => Some s
  | head :: rest =>
      if bool_decide (cur_pmksa s = Some head) then
        match rest with
        | [] => Some (s <| pmksa := [head] |>)
        | pos :: rest => pmksa_cache_free_entry pos PMKSA_FREE (s <| pmksa := head :: rest |>)
        end
      else pmksa_cache_free_entry head PMKSA_FREE (s <| pmksa := rest |>)
  end.

(** The position of the new entry: behind every entry that expires no later. *)
Fixpoint insert_sorted (h : gmap nat rsn_pmksa_cache_entry) (new : nat) (expiration : Z)
    (l : list nat) : option (list nat) :=
  match l with
  | [] => Some [new]
  | p :: l =>
      let? e := h !! p in
      if expiration <? e_expiration e then Some (new :: p :: l)
      else let? l := insert_sorted h new expiration l in Some (p :: l)
  end.

(** Add the new entry; order by expiration time. *)
(* pmksa_cache.c pmksa_cache_add_entry @290-316 *)
Definition link_entry (p : nat) (entry : rsn_pmksa_cache_entry) (s : pmksa_st) : option pmksa_st :=
  let? l := insert_sorted (heap s) p (e_expiration entry) (pmksa s) in
  let s := s <| pmksa := l |> in
  let? s := if bool_decide (head l = Some p) then pmksa_cache_set_expiration s else Some s in
  Some (s ▸ (fun s => s <| pmksa_count := pmksa_count s + 1 |>)
          ▸ emit (EvAddPmkid (e_network_ctx entry) (e_aa entry) (e_pmkid entry)
                    (e_fils_cache_id entry) (entry_key entry) (dot11RSNAConfigPMKLifetime s)
                    (dot11RSNAConfigPMKReauthThreshold s) (e_akmp entry))).

(** Take the entry of the same authenticator out of the cache, with the entries
    that opportunistic caching made from its PMK. *)
(* pmksa_cache.c pmksa_cache_add_entry @238-259 *)
Definition replace_entry (pre : list nat) (pos : nat) (post : list nat) (network_ctx : Z)
    (s : pmksa_st) : option pmksa_st :=
  let? pe := heap s !! pos in
  let s := s <| pmksa := pre ++ post |> in
  let? s := if negb (e_opportunistic pe)
            then pmksa_cache_flush network_ctx (Some (entry_key pe)) false s
            else Some s in
  pmksa_cache_free_entry pos PMKSA_REPLACE s.

(* pmksa_cache.c pmksa_cache_add_entry *)
Definition pmksa_cache_add_entry (p : nat) (s : pmksa_st) : option (nat * pmksa_st) :=
  let? entry := heap s !! p in
  let? found := find_aa (heap s) (e_aa entry) [] (pmksa s) in
  match found with
  | Some (pre, pos, post) =>
      let? pe := heap s !! pos in
      if same_pmksa entry pe then Some (pos, _pmksa_cache_free_entry p s) else
      let? s := replace_entry pre pos post (e_network_ctx entry) s in
      let? s := evict_oldest s in
      let? s := link_entry p entry s in
      Some (p, s)
  | None =>
      let? s := evict_oldest s in
      let? s := link_entry p entry s in
      Some (p, s)
  end.

(** os_zalloc() of an entry with contents [e]. *)
Definition alloc_entry (e : rsn_pmksa_cache_entry) (s : pmksa_st) : nat * pmksa_st :=
  (next_ptr s, s <| heap := <[next_ptr s := e]> (heap s) |> <| next_ptr := S (next_ptr s) |>).

(* pmksa_cache.c pmksa_cache_add @192-199 *)
Definition add_pmkid_of (key : bytes) (pmkid kck : option bytes) (aa spa : bytes) (akmp : Z) : bytes :=
  match pmkid with
  | Some id => id
  | None =>
      if akmp =? WPA_KEY_MGMT_IEEE8021X_SUITE_B_192 then
        default (replicate 16 0) (rsn_pmkid_suite_b_192 (default [] kck) aa spa)
      else if wpa_key_mgmt_suite_b akmp then
        default (replicate 16 0) (rsn_pmkid_suite_b (default [] kck) aa spa)
      else rsn_pmkid key aa spa akmp
  end.

(** The result is the address of the entry, or NULL. *)
(* pmksa_cache.c pmksa_cache_add *)
Definition pmksa_cache_add (key : bytes) (pmkid kck : option bytes) (aa spa : bytes)
    (network_ctx akmp : Z) (cache_id : option bytes) (s : pmksa_st)
  : option (option nat * pmksa_st) :=
  if PMK_LEN_MAX <? zlen key then Some (None, s) else
  if wpa_key_mgmt_suite_b akmp && negb (bool_decide (is_Some kck)) then Some (None, s) else
  let '(ok, s) := ask_malloc s in
  if negb ok then Some (None, s) else
  let id := add_pmkid_of key pmkid kck aa spa akmp in
  let '(now, s) := get_time s in
  let lifetime := dot11RSNAConfigPMKLifetime s in
  let entry :=
    PmksaEntry id (overwrite (replicate (Z.to_nat PMK_LEN_MAX) 0) key) (zlen key)
      (now + lifetime) akmp aa cache_id
      (now + u32 (lifetime * dot11RSNAConfigPMKReauthThreshold s) / 100)
      network_ctx false false in
  let '(p, s) := alloc_entry entry s in
  let? (p, s) := pmksa_cache_add_entry p s in
  Some (Some p, s).

(** Assignment to a field of the entry at [p]. *)
Definition update_entry (p : nat) (f : rsn_pmksa_cache_entry -> rsn_pmksa_cache_entry) (s : pmksa_st)
  : option pmksa_st :=
  let? e := heap s !! p in Some (s <| heap := <[p := f e]> (heap s) |>).

(* pmksa_cache.c pmksa_cache_clone_entry *)
Definition pmksa_cache_clone_entry (old : nat) (aa : bytes) (s : pmksa_st)
  : option (option nat * pmksa_st) :=
  let? e := heap s !! old in
  let pmkid := if wpa_key_mgmt_sae (e_akmp e) || wpa_key_mgmt_fils (e_akmp e)
               then Some (e_pmkid e) else None in
  let? (new, s) := pmksa_cache_add (entry_key e) pmkid None aa (own_addr s) (e_network_ctx e)
                     (e_akmp e) (e_fils_cache_id e) s in
  match new with
  | None => Some (None, s)
  | Some p =>
      let? s := update_entry p (fun n => n <| e_expiration := e_expiration e |>
                                           <| e_reauth_time := e_reauth_time e |>
                                           <| e_opportunistic := true |>) s in
      Some (Some p, s)
  end.

Fixpoint opportunistic_loop (network_ctx akmp : Z) (aa : bytes) (l : list nat) (s : pmksa_st)
  : option (option nat * pmksa_st) :=
  match l with
  | [] => Some (None, s)
  | p :: l =>
      let? e := heap s !! p in
      if (e_network_ctx e =? network_ctx) && ((akmp =? 0) || (e_akmp e =? akmp)) then
        let '(late, s) :=
          if wpa_key_mgmt_sae (e_akmp e) then
            let '(now, s) := get_time s in (e_reauth_time e <? now, s)
          else (false, s) in
        if late then opportunistic_loop network_ctx akmp aa l s
        else pmksa_cache_clone_entry p aa s
      else opportunistic_loop network_ctx akmp aa l s
  end.

(* pmksa_cache.c pmksa_cache_get_opportunistic *)
Definition pmksa_cache_get_opportunistic (network_ctx : Z) (aa : bytes) (akmp : Z) (s : pmksa_st)
  : option (option nat * pmksa_st) :=
  if network_ctx =? 0 then Some (None, s)
  else opportunistic_loop network_ctx akmp aa (pmksa s) s.

(* pmksa_cache.c pmksa_cache_get_fils_cache_id *)
Definition pmksa_cache_get_fils_cache_id (network_ctx : Z) (cache_id : bytes) (s : pmksa_st)
  : option (option nat) :=
  find_entry (fun e => (network_ctx =? e_network_ctx e)
                       && bool_decide (e_fils_cache_id e = Some cache_id)) (heap s) (pmksa s).

(** [if (sm->cur_pmksa == NULL && c) sm->cur_pmksa = f(...)] *)
Definition try_current (c : bool) (f : pmksa_st -> option (option nat * pmksa_st)) (s : pmksa_st)
  : option pmksa_st :=
  if c && negb (bool_decide (is_Some (cur_pmksa s))) then
    let? (r, s) := f s in Some (s <| cur_pmksa := r |>)
  else Some s.

(** A lookup that does not change the cache. *)
Definition pure_get (f : pmksa_st -> option (option nat)) (s : pmksa_st)
  : option (option nat * pmksa_st) :=
  let? r := f s in Some (r, s).

(* pmksa_cache.c pmksa_cache_set_current *)
Definition pmksa_cache_set_current (pmkid sel_bssid : option bytes) (network_ctx : Z)
    (try_opportunistic : bool) (fils_cache_id : option bytes) (akmp : Z) (s : pmksa_st)
  : option (Z * pmksa_st) :=
  let s := s <| cur_pmksa := None |> in
  let? s := try_current (bool_decide (is_Some pmkid))
              (pure_get (pmksa_cache_get None pmkid network_ctx akmp)) s in
  let? s := try_current (bool_decide (is_Some sel_bssid))
              (pure_get (pmksa_cache_get sel_bssid None network_ctx akmp)) s in
  let? s := try_current (try_opportunistic && bool_decide (is_Some sel_bssid))
              (pmksa_cache_get_opportunistic network_ctx (default [] sel_bssid) akmp) s in
  let? s := try_current (bool_decide (is_Some fils_cache_id))
              (pure_get (pmksa_cache_get_fils_cache_id network_ctx (default [] fils_cache_id))) s in
  match cur_pmksa s with
  | None => Some (-1, s)
  | Some c =>
      let? e := heap s !! c in
      if wpa_key_mgmt_sae (e_akmp e) then
        let '(now, s) := get_time s in
        if e_reauth_time e <? now then Some (-1, s <| cur_pmksa := None |>) else Some (0, s)
      else Some (0, s)
  end.

Fixpoint reconfig_loop (now : Z) (l : list nat) (s : pmksa_st) : option pmksa_st :=
  match l with
  | [] => Some s
  | p :: l =>
      let? e := heap s !! p in
      if (e_expiration e - now <? 1) || (e_reauth_time e - now <? 1)
      then reconfig_loop now l s
      else
        let life_time := u32 (e_expiration e - now) in
        let reauth_threshold := u8 ((e_reauth_time e - now) * 100 / life_time) in
        if reauth_threshold =? 0 then reconfig_loop now l s else
        reconfig_loop now l
          (emit (EvAddPmkid (e_network_ctx e) (e_aa e) (e_pmkid e) (e_fils_cache_id e)
                   (entry_key e) life_time reauth_threshold (e_akmp e)) s)
  end.

(* pmksa_cache.c pmksa_cache_reconfig *)
Definition pmksa_cache_reconfig (s : pmksa_st) : option pmksa_st :=
  if bool_decide (pmksa s = []) then Some s else
  let '(now, s) := get_time s in
  reconfig_loop now (pmksa s) s.

(** All entries are freed without telling anybody; the head pointer is NULL when
    the timeouts are recomputed. *)
(* pmksa_cache.c pmksa_cache_deinit *)
Definition pmksa_cache_deinit (s : pmksa_st) : option pmksa_st :=
  let l := pmksa s in
  let s := s <| pmksa := [] |> in
  let s := fold_left (fun s p => _pmksa_cache_free_entry p s) l s in
  pmksa_cache_set_expiration s.

(** The cache of a state machine just allocated by wpa_sm_init(). *)
(* pmksa_cache.c pmksa_cache_init *)
Definition pmksa_cache_init : pmksa_st :=
  PmksaSt ∅ 0 [] 0 None (replicate (Z.to_nat PMK_LEN_MAX) 0) 0 (replicate 6 0) (replicate 6 0)
    43200 70 None None 0 [].
End Cache.
