(* ===== verification/PmksaProps.v ===== *)
(** * The PMKSA cache: memory safety, invariants and refinement

    [cache_ok D C s] is the state in the middle of an operation: [D] are entries
    that are allocated but not (or no longer) linked, [C] of them still counted in
    [pmksa_count].  Between operations nothing is detached ([pmksa_wf]). *)

From stdpp Require Import gmap.
From S2P Require Import Prelude WpaDefs WpaCommon Crypto WpaTypes Pmksa.

(** The entries behind a list of addresses. *)
Definition ents (h : gmap nat rsn_pmksa_cache_entry) (l : list nat) : list rsn_pmksa_cache_entry :=
  omap (fun p => h !! p) l.

(** The cache as the list of its entries. *)
Definition entries (s : pmksa_st) : list rsn_pmksa_cache_entry := ents (heap s) (pmksa s).

Record cache_ok (D : list nat) (C : Z) (s : pmksa_st) : Prop := {
  ok_nodup : NoDup (pmksa s ++ D);
  ok_heap : forall p, is_Some (heap s !! p) <-> p ∈ pmksa s ++ D;
  ok_fresh : forall p, p ∈ pmksa s ++ D -> (p < next_ptr s)%nat;
  ok_count : pmksa_count s = zlen (pmksa s) + C;
  ok_cur : forall c, cur_pmksa s = Some c -> c ∈ pmksa s ++ D;
  ok_aa : NoDup (e_aa <$> entries s)
}.

(** Every linked entry is allocated and every allocated entry is linked, the
    counter is right, there is at most one entry per authenticator, at most 32 in
    all, and [cur_pmksa] points into the cache. *)
Definition pmksa_wf (s : pmksa_st) : Prop := cache_ok [] 0 s /\ zlen (pmksa s) <= 32.

(** ** Lists of entries *)

Lemma ents_app h l k : ents h (l ++ k) = ents h l ++ ents h k.
Proof. apply omap_app. Qed.

Lemma ents_eq h p l :
  ents h (p :: l) = match h !! p with Some e => e :: ents h l | None => ents h l end.
Proof. done. Qed.

Lemma ents_cons h p l e : h !! p = Some e -> ents h (p :: l) = e :: ents h l.
Proof. intros H. now rewrite ents_eq, H. Qed.

Lemma ents_ext h h' l : (forall p, p ∈ l -> h !! p = h' !! p) -> ents h l = ents h' l.
Proof.
  induction l as [|p l IH]; intros H; [done|]. rewrite !ents_eq.
  rewrite (H p) by left. rewrite IH by (intros; apply H; now right). done.
Qed.

Lemma ents_delete h p l : p ∉ l -> ents (delete p h) l = ents h l.
Proof. intros H. apply ents_ext. intros q Hq. apply lookup_delete_ne. set_solver. Qed.

Lemma ents_insert h p e l : p ∉ l -> ents (<[p := e]> h) l = ents h l.
Proof. intros H. apply ents_ext. intros q Hq. apply lookup_insert_ne. set_solver. Qed.

Lemma elem_of_ents h l e : e ∈ ents h l <-> exists p, p ∈ l /\ h !! p = Some e.
Proof. apply list_elem_of_omap. Qed.

(** Dropping addresses drops entries. *)
Lemma ents_sublist h l k : sublist l k -> sublist (ents h l) (ents h k).
Proof.
  induction 1 as [|p l k H IH|p l k H IH]; rewrite ?ents_eq; [constructor| |];
    destruct (h !! p); auto using sublist_skip, sublist_cons.
Qed.

Lemma NoDup_aa_sublist l k :
  sublist l k -> NoDup (e_aa <$> k) -> NoDup (e_aa <$> l).
Proof. intros H Hk. eapply sublist_NoDup; [exact Hk | now apply fmap_sublist]. Qed.

Section Safe.
Context `{ENV : WpaEnv} `{HM : Hmac}.

(** ** Freeing an entry that has been unlinked *)

Lemma free_cb_frame p e reason s :
  let s' := wpa_sm_pmksa_free_cb p e reason s in
  heap s' = heap s /\ next_ptr s' = next_ptr s /\ pmksa s' = pmksa s
  /\ pmksa_count s' = pmksa_count s
  /\ (cur_pmksa s' = None \/ cur_pmksa s' = cur_pmksa s) /\ cur_pmksa s' <> Some p
  /\ (reason <> PMKSA_EXPIRE -> forall c, c <> p -> cur_pmksa s = Some c -> cur_pmksa s' = Some c).
Proof.
  unfold wpa_sm_pmksa_free_cb, pmksa_cache_clear_current.
  case_bool_decide as Hc; (case_bool_decide as He; cbn [andb]; [destruct (_ && _)|]);
    try (destruct (bool_decide (reason <> PMKSA_REPLACE)));
    cbn [heap next_ptr pmksa pmksa_count cur_pmksa over emit]; split_and!; auto; try congruence;
    intros Hr c Hcp; congruence.
Qed.

Lemma free_entry_ok D C p reason s :
  cache_ok (p :: D) C s ->
  exists s', pmksa_cache_free_entry p reason s = Some s' /\ cache_ok D (C - 1) s'
    /\ pmksa s' = pmksa s /\ heap s' = delete p (heap s) /\ next_ptr s' = next_ptr s
    /\ (cur_pmksa s' = None \/ cur_pmksa s' = cur_pmksa s)
    /\ (reason <> PMKSA_EXPIRE -> forall c, c <> p -> cur_pmksa s = Some c -> cur_pmksa s' = Some c).
Proof.
  intros H. unfold pmksa_cache_free_entry.
  assert (p ∈ pmksa s ++ p :: D) as Hp by set_solver.
  destruct (proj2 (ok_heap _ _ _ H p) Hp) as [e He]. rewrite He.
  eexists. split; [reflexivity|].
  match goal with |- context [wpa_sm_pmksa_free_cb p e reason ?s0] =>
    destruct (free_cb_frame p e reason s0) as (Eh & En & El & Ec & Ecur & Hne & Hsame);
    set (s1 := wpa_sm_pmksa_free_cb p e reason s0) in * end.
  cbn [heap next_ptr pmksa pmksa_count cur_pmksa over emit] in Eh, En, El, Ec, Ecur.
  unfold _pmksa_cache_free_entry. cbn [heap next_ptr pmksa over].
  rewrite Eh, En, El. split_and!; try done.
  destruct H as [Hnd Hheap Hfresh Hcount Hcur Haa].
  pose proof (proj1 (NoDup_Permutation_proper _ _ (symmetry (Permutation_middle (pmksa s) D p))) Hnd) as Hnd'.
  apply NoDup_cons in Hnd' as [Hpn Hnd'].
  split; unfold entries; cbn [heap next_ptr pmksa pmksa_count cur_pmksa over]; rewrite ?Eh, ?En, ?El.
  - done.
  - intros q. destruct (decide (q = p)) as [-> | Hqp].
    + rewrite lookup_delete_eq. split; [intros [? ?]; done | done].
    + rewrite lookup_delete_ne, Hheap by done. set_solver.
  - intros q Hq. apply Hfresh. set_solver.
  - rewrite Ec, Hcount. lia.
  - intros c Hc. destruct Ecur as [Ecur | Ecur]; [congruence|]. rewrite Ecur in Hc.
    assert (c <> p) by congruence. specialize (Hcur c Hc). set_solver.
  - rewrite ents_delete; [done|]. set_solver.
Qed.

(** Unlinking an entry. *)
Lemma unlink_ok D C kept p rest s :
  cache_ok D C s -> pmksa s = kept ++ p :: rest ->
  cache_ok (p :: D) (C + 1) (s <| pmksa := kept ++ rest |>).
Proof.
  intros [Hnd Hheap Hfresh Hcount Hcur Haa] Hl.
  assert (pmksa s ++ D ≡ₚ (kept ++ rest) ++ p :: D) as HP
    by (rewrite Hl, <- !app_assoc; simpl; rewrite !Permutation_middle; done).
  split; unfold entries; cbn [heap next_ptr pmksa pmksa_count cur_pmksa over].
  - now rewrite <- HP.
  - intros q. now rewrite Hheap, HP.
  - intros q Hq. apply Hfresh. now rewrite HP.
  - rewrite Hcount, Hl, !zlen_app, zlen_cons. lia.
  - intros c Hc. rewrite <- HP. now apply Hcur.
  - revert Haa. unfold entries. rewrite Hl. apply NoDup_aa_sublist, ents_sublist.
    apply sublist_app; [done|]. now apply sublist_cons.
Qed.

(** What every operation that removes entries guarantees: what is left was there
    before, in the same order, and unchanged. *)
Record shrinks (D : list nat) (s s' : pmksa_st) : Prop := {
  sh_sub : sublist (pmksa s') (pmksa s);
  sh_heap : forall p, p ∈ pmksa s' ++ D -> heap s' !! p = heap s !! p;
  sh_next : next_ptr s' = next_ptr s
}.

Lemma shrinks_refl D s : shrinks D s s.
Proof. now split. Qed.

Lemma shrinks_trans D s1 s2 s3 : shrinks D s1 s2 -> shrinks D s2 s3 -> shrinks D s1 s3.
Proof.
  intros [S1 H1 N1] [S2 H2 N2]. split; [now transitivity (pmksa s2) | | congruence].
  intros p Hp. rewrite H2, H1; [done | | done].
  apply elem_of_app in Hp as [Hp | Hp]; apply elem_of_app; [left | now right].
  now apply (elem_of_sublist (pmksa s3)).
Qed.

(** The current entry stays the current one while it is linked; no other entry
    becomes the current one. *)
Definition keeps_cur (s s' : pmksa_st) : Prop :=
  (cur_pmksa s' = None \/ cur_pmksa s' = cur_pmksa s)
  /\ forall c, c ∈ pmksa s' -> cur_pmksa s = Some c -> cur_pmksa s' = Some c.

Lemma keeps_cur_refl s s' : cur_pmksa s' = cur_pmksa s -> keeps_cur s s'.
Proof. intros H. split; [now right | intros; congruence]. Qed.

Lemma keeps_cur_trans s1 s2 s3 :
  sublist (pmksa s3) (pmksa s2) -> keeps_cur s1 s2 -> keeps_cur s2 s3 -> keeps_cur s1 s3.
Proof.
  intros Hsub [D1 H1] [D2 H2]. split.
  - destruct D2 as [-> | ->]; auto.
  - intros c Hc H. apply H2; [done|]. apply H1; [|done]. now apply (elem_of_sublist (pmksa s3)).
Qed.

(** Unlinking and freeing the entry [p]. *)
Lemma remove_ok D C kept p rest reason s :
  cache_ok D C s -> pmksa s = kept ++ p :: rest ->
  exists s', pmksa_cache_free_entry p reason (s <| pmksa := kept ++ rest |>) = Some s'
    /\ cache_ok D C s' /\ pmksa s' = kept ++ rest /\ shrinks D s s'
    /\ (reason <> PMKSA_EXPIRE -> keeps_cur s s').
Proof.
  intros H Hl. pose proof (unlink_ok D C kept p rest s H Hl) as Hu.
  destruct (free_entry_ok D (C + 1) p reason _ Hu) as (s' & Hs' & Hok & El & Eh & En & Hcur & Hsame).
  exists s'. split; [done|]. replace (C + 1 - 1) with C in Hok by lia. split; [done|].
  cbn [pmksa over] in El. split; [done|].
  assert (p ∉ kept ++ rest ++ D) as Hp.
  { destruct H as [Hnd _ _ _ _ _]. rewrite Hl in Hnd. rewrite <- app_assoc in Hnd. simpl in Hnd.
    apply NoDup_app in Hnd as (_ & Hd & Hnd). apply NoDup_cons in Hnd as [Hn _].
    clear -Hd Hn. set_solver. }
  split; [split|].
  - rewrite El, Hl. apply sublist_app; [done|]. now apply sublist_cons.
  - intros q Hq. rewrite Eh. cbn [heap over]. apply lookup_delete_ne.
    intros ->. rewrite El, <- app_assoc in Hq. done.
  - now rewrite En.
  - intros Hr. split; [exact Hcur|]. intros c Hc. apply (Hsame Hr). intros ->. rewrite El in Hc. clear -Hp Hc. set_solver.
Qed.

(** ** Lookups *)

Lemma find_entry_spec f h l :
  (forall p, p ∈ l -> is_Some (h !! p)) ->
  exists r, find_entry f h l = Some r
    /\ match r with
       | Some p => p ∈ l /\ exists e, h !! p = Some e /\ f e = true
       | None => Forall (fun e => f e = false) (ents h l)
       end.
Proof.
  induction l as [|p l IH]; intros Hl; cbn [find_entry]; [now exists None|].
  destruct (Hl p) as [e He]; [now left|]. rewrite ents_eq, He. destruct (f e) eqn:Hf.
  - exists (Some p). split; [done|]. split; [now left | eauto].
  - destruct IH as (r & Hr & Hspec); [intros; apply Hl; now right|].
    exists r. split; [done|]. destruct r as [q|]; [|now constructor].
    destruct Hspec as [Hq Hspec]. split; [now right | done].
Qed.

Lemma ok_linked D C s p : cache_ok D C s -> p ∈ pmksa s -> is_Some (heap s !! p).
Proof. intros H Hp. apply (ok_heap _ _ _ H). apply elem_of_app. now left. Qed.

Lemma get_ok D C s aa pmkid ctx akmp :
  cache_ok D C s ->
  exists r, pmksa_cache_get aa pmkid ctx akmp s = Some r
    /\ forall p, r = Some p -> p ∈ pmksa s.
Proof.
  intros H. unfold pmksa_cache_get.
  match goal with |- context [find_entry ?f _ _] =>
    destruct (find_entry_spec f (heap s) (pmksa s)) as (r & Hr & Hspec) end.
  - intros p Hp. now apply (ok_linked D C).
  - exists r. split; [done|]. intros p ->. apply Hspec.
Qed.

(** ** Operations that do not touch the cache *)

Definition same_cache (s s' : pmksa_st) : Prop :=
  heap s' = heap s /\ next_ptr s' = next_ptr s /\ pmksa s' = pmksa s
  /\ pmksa_count s' = pmksa_count s /\ cur_pmksa s' = cur_pmksa s.

Lemma same_cache_ok D C s s' : same_cache s s' -> cache_ok D C s -> cache_ok D C s'.
Proof.
  intros (Eh & En & El & Ec & Eu) [Hnd Hheap Hfresh Hcount Hcur Haa].
  split; unfold entries in *; rewrite ?Eh, ?En, ?El, ?Ec, ?Eu; assumption.
Qed.

Lemma same_cache_shrinks D s s' : same_cache s s' -> shrinks D s s'.
Proof. intros (Eh & En & El & _). split; [now rewrite El | now rewrite Eh | done]. Qed.

Lemma same_cache_trans s1 s2 s3 : same_cache s1 s2 -> same_cache s2 s3 -> same_cache s1 s3.
Proof. unfold same_cache. intros. destruct_and!. split_and!; congruence. Qed.

Lemma set_expiration_ok D C s :
  cache_ok D C s ->
  exists s', pmksa_cache_set_expiration s = Some s' /\ same_cache s s'.
Proof.
  intros H. unfold pmksa_cache_set_expiration.
  set (s0 := s <| expire_timeout := None |> <| reauth_timeout := None |>).
  assert (same_cache s s0) as H0 by done. pose proof (same_cache_ok _ _ _ _ H0 H) as Hok0.
  destruct (pmksa s0) as [|p rest] eqn:El; [eauto|]. unfold get_time. cbn [heap over].
  destruct (ok_linked D C s0 p Hok0) as [e He]; [rewrite El; now left|]. rewrite He.
  assert (exists next, match rest with
            | [] => Some None
            | q :: _ => let? n := heap s0 !! q in Some (Some n) end = Some next) as [next ->].
  { destruct rest as [|q rest]; [eauto|].
    destruct (ok_linked D C s0 q Hok0) as [n ->]; [rewrite El; right; now left | eauto]. }
  match goal with |- context [pmksa_cache_get _ _ _ _ ?t] => set (s1 := t) end.
  assert (same_cache s s1) as H1 by done. pose proof (same_cache_ok _ _ _ _ H1 H) as Hok1.
  assert (exists entry, match cur_pmksa s1 with
            | Some c => Some (Some c)
            | None => pmksa_cache_get (Some (bssid s1)) None 0 0 s1 end = Some entry
          /\ forall c, entry = Some c -> is_Some (heap s1 !! c)) as (entry & -> & Hentry).
  { destruct (cur_pmksa s1) as [c|] eqn:Ec.
    - eexists. split; [done|]. intros ? [= <-]. apply (ok_heap _ _ _ Hok1). now apply (ok_cur _ _ _ Hok1).
    - destruct (get_ok _ _ _ (Some (bssid s1)) None 0 0 Hok1) as (r & -> & Hr).
      exists r. split; [done|]. intros c Hc. apply (ok_linked _ _ _ _ Hok1). now apply Hr. }
  destruct entry as [c|]; [|eauto]. destruct (Hentry c eq_refl) as [ce Hce].
  change (heap s1) with (heap s0) in Hce. rewrite Hce.
  destruct (negb _); eexists; (split; [reflexivity|]); done.
Qed.

(** ** Expiry and flush *)

Lemma expire_loop_ok D C now rest : forall kept s,
  cache_ok D C s -> pmksa s = kept ++ rest ->
  exists s', expire_loop now kept rest s = Some s' /\ cache_ok D C s' /\ shrinks D s s'.
Proof.
  induction rest as [|p rest IH]; intros kept s H Hl; cbn [expire_loop].
  - eauto using shrinks_refl.
  - destruct (ok_linked D C s p H) as [e ->]; [rewrite Hl; set_solver|].
    destruct (_ <=? _); [|eauto using shrinks_refl].
    destruct (_ && _); [apply IH; [done|]; now rewrite Hl, <- app_assoc|].
    destruct (remove_ok D C kept p rest PMKSA_EXPIRE s H Hl) as (s1 & -> & H1 & El & Hs & _).
    destruct (IH kept s1 H1 El) as (s2 & -> & H2 & Hs2). eauto using shrinks_trans.
Qed.

Lemma expire_ok D C s :
  cache_ok D C s ->
  exists s', pmksa_cache_expire s = Some s' /\ cache_ok D C s' /\ shrinks D s s'.
Proof.
  intros H. unfold pmksa_cache_expire, get_time.
  match goal with |- context [expire_loop ?n [] _ ?t] => set (s0 := t); set (now := n) end.
  assert (same_cache s s0) as H0 by done.
  destruct (expire_loop_ok D C now (pmksa s0) [] s0) as (s1 & -> & H1 & Hs1); [|done|].
  { now apply (same_cache_ok _ _ s). }
  destruct (set_expiration_ok D C s1 H1) as (s2 & -> & H2). exists s2. split; [done|].
  split; [now apply (same_cache_ok _ _ s1)|].
  eauto using shrinks_trans, same_cache_shrinks.
Qed.


(** A step that removes entries: the cache stays consistent, [cur_pmksa] stays on
    the entry it was on if that is still there. *)
Definition removes (D : list nat) (C : Z) (s s' : pmksa_st) : Prop :=
  cache_ok D C s' /\ shrinks D s s' /\ keeps_cur s s'.

Lemma removes_refl D C s : cache_ok D C s -> removes D C s s.
Proof. intros H. split; [done | split; [apply shrinks_refl | now apply keeps_cur_refl]]. Qed.

Lemma removes_trans D C s1 s2 s3 :
  removes D C s1 s2 -> removes D C s2 s3 -> removes D C s1 s3.
Proof.
  intros (H1 & S1 & K1) (H2 & S2 & K2).
  split; [done|]. split; [now apply (shrinks_trans D s1 s2)|].
  eapply keeps_cur_trans; [apply S2 | done | done].
Qed.

Lemma same_cache_removes D C s s' : cache_ok D C s -> same_cache s s' -> removes D C s s'.
Proof.
  intros H Hs. split; [now apply (same_cache_ok _ _ s)|].
  split; [now apply same_cache_shrinks|].
  apply keeps_cur_refl, Hs.
Qed.

Lemma shrinks_ents D s s' l :
  shrinks D s s' -> (forall p, p ∈ l -> p ∈ pmksa s') -> ents (heap s') l = ents (heap s) l.
Proof. intros Hs Hl. apply ents_ext. intros p Hp. apply (sh_heap _ _ _ Hs). set_solver. Qed.

Lemma flush_loop_ok D C f rest : forall kept removed s,
  cache_ok D C s -> pmksa s = kept ++ rest ->
  exists r s', flush_loop f kept rest removed s = Some (r, s') /\ removes D C s s'
    /\ entries s' = ents (heap s) kept ++ filter (fun e => f e = false) (ents (heap s) rest).
Proof.
  induction rest as [|p rest IH]; intros kept removed s H Hl; cbn [flush_loop].
  - exists removed, s. split; [done|]. split; [now apply removes_refl|]. unfold entries.
    now rewrite Hl, ents_app.
  - destruct (ok_linked D C s p H) as [e He]; [rewrite Hl; set_solver|]. rewrite He.
    rewrite (ents_cons _ _ _ _ He), filter_cons. destruct (f e) eqn:Hf.
    + destruct (remove_ok D C kept p rest PMKSA_FREE s H Hl) as (s1 & -> & H1 & El & Hs & Hk).
      destruct (IH kept true s1 H1 El) as (r & s2 & -> & Hs2 & He2). exists r, s2.
      split; [done|]. split.
      { eapply removes_trans; [|exact Hs2]. split; [done | split; [done | now apply Hk]]. }
      rewrite He2. rewrite decide_False by done.
      rewrite !(shrinks_ents D s s1) by (done || (rewrite El; set_solver)). done.
    + destruct (IH (kept ++ [p]) removed s) as (r & s2 & -> & Hs2 & He2);
        [done | now rewrite Hl, <- app_assoc |].
      exists r, s2. split; [done|]. split; [done|].
      rewrite He2, ents_app, (ents_cons _ _ _ _ He), decide_True by done.
      now rewrite <- app_assoc.
Qed.

Lemma flush_ok D C ctx key ext s :
  cache_ok D C s ->
  exists s', pmksa_cache_flush ctx key ext s = Some s' /\ removes D C s s'
    /\ entries s' = filter (fun e => flush_match ctx key ext e = false) (entries s).
Proof.
  intros H. unfold pmksa_cache_flush.
  destruct (flush_loop_ok D C (flush_match ctx key ext) (pmksa s) [] false s H eq_refl)
    as (r & s1 & -> & Hs1 & He1).
  destruct r; [|eauto]. destruct (set_expiration_ok D C s1 (proj1 Hs1)) as (s2 & -> & H2).
  exists s2. split; [done|]. split.
  - eapply removes_trans; [exact Hs1|]. apply same_cache_removes; [apply Hs1 | done].
  - unfold entries in *. destruct H2 as (-> & _ & -> & _). exact He1.
Qed.
End Safe.
