(* ===== verification/PmksaSpec.v ===== *)
(** * The PMKSA cache as a sorted list of entries

    The abstract cache has no pointers: it is the list of entries and the address
    of the authenticator whose entry is in use.  The heap operations of Pmksa.v
    refine it. *)

From stdpp Require Import gmap.
From S2P Require Import Prelude WpaDefs WpaCommon Crypto WpaTypes Pmksa PmksaProps.

(** The entry of an authenticator and the rest of the cache. *)
Fixpoint take_aa (aa : bytes) (l : list rsn_pmksa_cache_entry)
  : option (rsn_pmksa_cache_entry * list rsn_pmksa_cache_entry) :=
  match l with
  | [] => None
  | e :: l => if decide (e_aa e = aa) then Some (e, l)
              else let? (x, r) := take_aa aa l in Some (x, e :: r)
  end.

(** A new entry goes behind every entry that expires no later. *)
Fixpoint spec_insert (new : rsn_pmksa_cache_entry) (l : list rsn_pmksa_cache_entry)
  : list rsn_pmksa_cache_entry :=
  match l with
  | [] => [new]
  | e :: l => if e_expiration new <? e_expiration e then new :: e :: l else e :: spec_insert new l
  end.

(** A full cache gives up its first entry that is not in use. *)
Definition spec_evict (cur : option bytes) (l : list rsn_pmksa_cache_entry)
  : list rsn_pmksa_cache_entry :=
  if zlen l <? pmksa_cache_max_entries then l else
  match l with
  | [] => []
  | e :: rest => if decide (cur = Some (e_aa e)) then e :: tail rest else rest
  end.

Definition spec_flush (network_ctx : Z) (key : option bytes) (external_only : bool)
    (l : list rsn_pmksa_cache_entry) : list rsn_pmksa_cache_entry :=
  filter (fun e => flush_match network_ctx key external_only e = false) l.

(** Replacing an entry that was used successfully takes every entry of the same
    network with its PMK along. *)
Definition spec_replace (old : rsn_pmksa_cache_entry) (network_ctx : Z)
    (rest : list rsn_pmksa_cache_entry) : list rsn_pmksa_cache_entry :=
  if e_opportunistic old then rest
  else spec_flush network_ctx (Some (entry_key old)) false rest.

(** The entries that stay when [new] is added, or nothing if it is in the cache
    already. *)
Definition spec_room (cur : option bytes) (new : rsn_pmksa_cache_entry)
    (l : list rsn_pmksa_cache_entry) : option (list rsn_pmksa_cache_entry) :=
  match take_aa (e_aa new) l with
  | Some (old, rest) =>
      if same_pmksa new old then None
      else Some (spec_evict cur (spec_replace old (e_network_ctx new) rest))
  | None => Some (spec_evict cur l)
  end.

(** The entry in use, as far as it is still in the cache. *)
Definition spec_keep (cur : option bytes) (l : list rsn_pmksa_cache_entry) : option bytes :=
  let? a := cur in if decide (a ∈ e_aa <$> l) then Some a else None.

Definition spec_add (new : rsn_pmksa_cache_entry) (c : list rsn_pmksa_cache_entry * option bytes)
  : list rsn_pmksa_cache_entry * option bytes :=
  match spec_room (snd c) new (fst c) with
  | None => c
  | Some l => (spec_insert new l, spec_keep (snd c) l)
  end.

Lemma spec_insert_perm e l : spec_insert e l ≡ₚ e :: l.
Proof.
  induction l as [|x l IH]; cbn [spec_insert]; [done|].
  destruct (_ <? _); [done|]. rewrite IH. apply Permutation_swap.
Qed.

Lemma take_aa_None aa l : take_aa aa l = None -> aa ∉ e_aa <$> l.
Proof.
  induction l as [|x l IH]; cbn [take_aa fmap list_fmap]; [set_solver|].
  destruct (decide (e_aa x = aa)); [done|]. destruct (take_aa aa l) as [[??]|]; [done|].
  intros _. specialize (IH eq_refl). set_solver.
Qed.

Lemma take_aa_Some aa l e r : take_aa aa l = Some (e, r) -> e_aa e = aa /\ l ≡ₚ e :: r.
Proof.
  revert r. induction l as [|x l IH]; cbn [take_aa]; [done|]. intros r.
  destruct (decide (e_aa x = aa)); [now intros [= <- <-]|].
  destruct (take_aa aa l) as [[f k]|]; [|done]. intros [= <- <-].
  destruct (IH k eq_refl) as [Haa HP]. split; [done|]. rewrite HP. apply Permutation_swap.
Qed.

Lemma take_aa_sublist aa l e r : take_aa aa l = Some (e, r) -> sublist r l.
Proof.
  revert r. induction l as [|x l IH]; cbn [take_aa]; [done|]. intros r.
  destruct (decide (e_aa x = aa)); [intros [= <- <-]; now apply sublist_cons|].
  destruct (take_aa aa l) as [[f k]|]; [|done]. intros [= <- <-].
  apply sublist_skip. now apply IH.
Qed.

Lemma spec_evict_sublist cur l : sublist (spec_evict cur l) l.
Proof.
  unfold spec_evict. destruct (_ <? _); [done|]. destruct l as [|e l]; [done|].
  destruct (decide _); [apply sublist_skip; destruct l; [done|now apply sublist_cons]|].
  now apply sublist_cons.
Qed.

Lemma spec_replace_sublist old ctx l : sublist (spec_replace old ctx l) l.
Proof. unfold spec_replace, spec_flush. destruct (e_opportunistic old); auto using sublist_filter. Qed.

(** ** Abstraction *)

Definition cur_aa (s : pmksa_st) : option bytes :=
  let? c := cur_pmksa s in let? e := heap s !! c in Some (e_aa e).

Definition abstract (s : pmksa_st) : list rsn_pmksa_cache_entry * option bytes :=
  (entries s, cur_aa s).

(** [cur] is the authenticator of the entry in use, which is linked. *)
Definition cur_abs (s : pmksa_st) (cur : option bytes) : Prop :=
  match cur_pmksa s with
  | None => cur = None
  | Some c => c ∈ pmksa s /\ exists e, heap s !! c = Some e /\ cur = Some (e_aa e)
  end.

Lemma cur_abs_aa s cur : cur_abs s cur -> cur_aa s = cur.
Proof.
  unfold cur_abs, cur_aa. destruct (cur_pmksa s) as [c|]; [|easy].
  intros (_ & e & -> & ->). done.
Qed.

Lemma wf_cur_abs s : pmksa_wf s -> cur_abs s (cur_aa s).
Proof.
  intros [H _]. unfold cur_abs, cur_aa. destruct (cur_pmksa s) as [c|] eqn:Ec; [|done].
  pose proof (ok_cur _ _ _ H c Ec) as Hc. rewrite app_nil_r in Hc. split; [done|].
  destruct (ok_linked _ _ _ c H Hc) as [e ->]. eauto.
Qed.

(** Different linked addresses hold entries of different authenticators. *)
Lemma ents_inj h l p q e f :
  NoDup (e_aa <$> ents h l) -> p ∈ l -> q ∈ l -> h !! p = Some e -> h !! q = Some f ->
  e_aa e = e_aa f -> p = q.
Proof.
  induction l as [|x l IH]; intros Hnd Hp Hq He Hf Haa; [set_solver|].
  rewrite ents_eq in Hnd.
  assert (forall y g, y ∈ l -> h !! y = Some g -> e_aa g ∈ e_aa <$> ents h l) as Hin
    by (intros y g Hy Hg; apply list_elem_of_fmap; exists g; split;
        [done | apply elem_of_ents; eauto]).
  apply elem_of_cons in Hp as [-> | Hp]; apply elem_of_cons in Hq as [-> | Hq]; [done| | |].
  - rewrite He in Hnd. apply NoDup_cons in Hnd as [Hn _]. destruct Hn. rewrite Haa. eauto.
  - rewrite Hf in Hnd. apply NoDup_cons in Hnd as [Hn _]. destruct Hn. rewrite <- Haa. eauto.
  - apply IH; try done. destruct (h !! x); [now apply NoDup_cons in Hnd as [_ ?] | done].
Qed.

Lemma cur_abs_iff D C s cur p e :
  cache_ok D C s -> cur_abs s cur -> p ∈ pmksa s -> heap s !! p = Some e ->
  cur_pmksa s = Some p <-> cur = Some (e_aa e).
Proof.
  intros H Hc Hp He. unfold cur_abs in Hc. destruct (cur_pmksa s) as [c|].
  - destruct Hc as (Hc & f & Hf & ->). split; [intros [= ->]; congruence|].
    intros [= Haa]. f_equal. apply (ents_inj (heap s) (pmksa s) c p f e); try done.
    apply (ok_aa _ _ _ H).
  - subst cur. split; discriminate.
Qed.

Lemma removes_cur_abs D C s s' cur :
  cache_ok D C s -> cur_abs s cur -> removes D C s s' -> cur_abs s' (spec_keep cur (entries s')).
Proof.
  intros H Hc (H' & Hs & Hd & Hk). unfold cur_abs in *.
  destruct (cur_pmksa s) as [c|] eqn:Ec.
  2:{ subst cur. cbn. destruct Hd as [-> | ->]; done. }
  destruct Hc as (Hc & e & He & ->). cbn [spec_keep].
  destruct (decide (c ∈ pmksa s')) as [Hc'|Hn].
  - rewrite (Hk c Hc' eq_refl). split; [done|]. exists e.
    rewrite (sh_heap _ _ _ Hs) by set_solver. split; [done|]. rewrite decide_True; [done|].
    apply list_elem_of_fmap. exists e. split; [done|]. apply elem_of_ents. exists c.
    rewrite (sh_heap _ _ _ Hs) by set_solver. done.
  - destruct Hd as [-> | Hd].
    + rewrite decide_False; [done|]. intros (f & Haa & Hf)%list_elem_of_fmap.
      apply elem_of_ents in Hf as (q & Hq & Hf). destruct Hn.
      rewrite (sh_heap _ _ _ Hs) in Hf by set_solver.
      replace c with q; [done|].
      apply (ents_inj (heap s) (pmksa s) q c f e); try done; [apply (ok_aa _ _ _ H)|].
      now apply (elem_of_sublist (pmksa s') (pmksa s)), Hs.
    + pose proof (ok_cur _ _ _ H' c Hd) as Hin. apply elem_of_app in Hin as [? | HD]; [done|].
      pose proof (ok_nodup _ _ _ H) as Hnd. apply NoDup_app in Hnd as (_ & Hdis & _).
      now destruct (Hdis c Hc).
Qed.

(** ** The parts of pmksa_cache_add_entry() *)

Lemma find_aa_spec h aa l : forall pre,
  (forall p, p ∈ l -> is_Some (h !! p)) ->
  exists r, find_aa h aa pre l = Some r
    /\ match r with
       | Some (pre', pos, post) =>
           exists mid e, pre' = pre ++ mid /\ l = mid ++ pos :: post /\ h !! pos = Some e
             /\ take_aa aa (ents h l) = Some (e, ents h (mid ++ post))
       | None => take_aa aa (ents h l) = None
       end.
Proof.
  induction l as [|p l IH]; intros pre Hl; cbn [find_aa]; [now exists None|].
  destruct (Hl p) as [e He]; [now left|]. rewrite (ents_cons _ _ _ _ He), He. cbn [take_aa].
  case_bool_decide as Haa.
  - rewrite decide_True by done. eexists. split; [reflexivity|]. exists [], e.
    now rewrite app_nil_r.
  - rewrite decide_False by congruence.
    destruct (IH (pre ++ [p])) as (r & -> & Hr); [intros; apply Hl; now right|].
    exists r. split; [done|]. destruct r as [[[pre' pos] post]|]; [|now rewrite Hr].
    destruct Hr as (mid & f & -> & -> & Hf & ->). exists (p :: mid), f.
    split_and!; [now rewrite <- app_assoc | done | done |].
    rewrite <- app_comm_cons. now rewrite (ents_cons _ _ _ _ He).
Qed.

Lemma insert_sorted_spec h new e l :
  (forall p, p ∈ l -> is_Some (h !! p)) -> h !! new = Some e ->
  exists l', insert_sorted h new (e_expiration e) l = Some l' /\ l' ≡ₚ new :: l
    /\ ents h l' = spec_insert e (ents h l).
Proof.
  intros Hl He. induction l as [|p l IH]; cbn [insert_sorted].
  - exists [new]. split_and!; [done | done |]. now rewrite (ents_cons _ _ _ _ He).
  - destruct (Hl p) as [f Hf]; [now left|]. rewrite Hf, (ents_cons _ _ _ _ Hf). cbn [spec_insert].
    destruct (_ <? _).
    + eexists. split_and!; [reflexivity | done |].
      now rewrite (ents_cons _ _ _ _ He), (ents_cons _ _ _ _ Hf).
    + destruct IH as (l' & -> & HP & Hents); [intros; apply Hl; now right|].
      eexists. split_and!; [reflexivity | rewrite HP; apply Permutation_swap |].
      now rewrite (ents_cons _ _ _ _ Hf), Hents.
Qed.

Section Add.
Context `{ENV : WpaEnv} `{HM : Hmac}.

Lemma replace_ok D pre pos post ctx pe s :
  cache_ok D 0 s -> pmksa s = pre ++ pos :: post -> heap s !! pos = Some pe ->
  exists s', replace_entry pre pos post ctx s = Some s' /\ removes D 0 s s'
    /\ entries s' = spec_replace pe ctx (ents (heap s) (pre ++ post)).
Proof.
  intros H Hl Hpe. unfold replace_entry, spec_replace. rewrite Hpe.
  pose proof (unlink_ok D 0 pre pos post s H Hl) as Hu.
  set (s0 := s <| pmksa := pre ++ post |>) in *.
  assert (exists s1, (if negb (e_opportunistic pe)
            then pmksa_cache_flush ctx (Some (entry_key pe)) false s0 else Some s0) = Some s1
          /\ removes (pos :: D) 1 s0 s1
          /\ entries s1 = if e_opportunistic pe then entries s0
                          else spec_flush ctx (Some (entry_key pe)) false (entries s0))
    as (s1 & -> & Hs1 & He1).
  { destruct (e_opportunistic pe); cbn [negb].
    - exists s0. split; [done|]. split; [now apply removes_refl | done].
    - now apply flush_ok. }
  destruct (free_entry_ok D 1 pos PMKSA_REPLACE s1 (proj1 Hs1))
    as (s2 & -> & Hok & El & Eh & En & Hcur & Hsame).
  exists s2. split; [done|]. destruct Hs1 as (Hok1 & Hsh & [Hc1 Hk1]).
  assert (forall q, q ∈ pmksa s2 ++ D -> q <> pos) as Hne.
  { intros q Hq ->. pose proof (proj1 (ok_heap _ _ _ Hok pos)) as Hx.
    apply (ok_heap _ _ _ Hok) in Hq. rewrite Eh, lookup_delete_eq in Hq. now destruct Hq. }
  split; [split; [done|split; [split|]]|].
  - rewrite El, Hl. transitivity (pre ++ post); [apply Hsh|].
    apply sublist_app; [done|]. now apply sublist_cons.
  - intros q Hq. rewrite Eh, lookup_delete_ne by (intros ->; now apply (Hne q)).
    rewrite (sh_heap _ _ _ Hsh); [done|]. rewrite El in Hq. clear -Hq. set_solver.
  - now rewrite En, (sh_next _ _ _ Hsh).
  - split; [destruct Hcur as [-> | ->]; [now left | exact Hc1]|].
    intros c Hc Hcs. apply Hsame; [done | apply Hne; set_solver |].
    apply Hk1; [now rewrite <- El | done].
  - unfold entries at 1. rewrite El, Eh, ents_delete; [exact He1|].
    intros Hp. apply (Hne pos); [|done]. rewrite El. set_solver.
Qed.

Lemma zlen_ents D C s : cache_ok D C s -> zlen (entries s) = zlen (pmksa s).
Proof.
  intros H. unfold entries, zlen.
  assert (forall p, p ∈ pmksa s -> is_Some (heap s !! p)) as Hl by (intros; now apply (ok_linked D C)).
  revert Hl. generalize (pmksa s). intros l. induction l as [|p l IH]; intros Hl; [done|].
  destruct (Hl p) as [e He]; [now left|]. rewrite (ents_cons _ _ _ _ He). cbn [length].
  specialize (IH ltac:(intros; apply Hl; now right)). lia.
Qed.

Lemma evict_ok D s cur :
  cache_ok D 0 s -> cur_abs s cur -> zlen (pmksa s) <= 32 ->
  exists s', evict_oldest s = Some s' /\ removes D 0 s s' /\ zlen (pmksa s') <= 31
    /\ entries s' = spec_evict cur (entries s).
Proof.
  intros H Hcur Hle. unfold evict_oldest, spec_evict.
  rewrite (zlen_ents D 0 s H), (ok_count _ _ _ H), Z.add_0_r.
  unfold pmksa_cache_max_entries. destruct (Z.ltb_spec (zlen (pmksa s)) 32).
  { exists s. split; [done|]. split; [now apply removes_refl|]. split; [lia | done]. }
  destruct (pmksa s) as [|p rest] eqn:El; [rewrite zlen_nil in *; lia|].
  rewrite zlen_cons in *.
  destruct (ok_linked D 0 s p H) as [e He]; [rewrite El; now left|].
  assert (entries s = e :: ents (heap s) rest) as Hents
    by (unfold entries; now rewrite El, (ents_cons _ _ _ _ He)).
  rewrite Hents.
  pose proof (cur_abs_iff D 0 s cur p e H Hcur ltac:(rewrite El; now left) He) as Hiff.
  case_bool_decide as Hc.
  - rewrite decide_True by now apply Hiff.
    destruct rest as [|q rest]; [rewrite zlen_nil in *; lia|]. rewrite zlen_cons in *.
    destruct (remove_ok D 0 [p] q rest PMKSA_FREE s H El) as (s1 & Hs1 & H1 & El1 & Hs & Hk).
    cbn [app] in Hs1. rewrite Hs1.
    exists s1. split; [done|]. split; [split; [done | split; [done | now apply Hk]]|].
    rewrite El1. split; [rewrite zlen_app, zlen_cons, zlen_nil; lia|].
    unfold entries. rewrite El1, (shrinks_ents D s s1) by (done || now rewrite El1).
    cbn [app]. rewrite (ents_cons _ _ _ _ He). f_equal.
    destruct (ok_linked D 0 s q H) as [f Hf]; [rewrite El; right; now left|].
    now rewrite (ents_cons _ _ _ _ Hf).
  - rewrite decide_False by now rewrite <- Hiff.
    destruct (remove_ok D 0 [] p rest PMKSA_FREE s H El) as (s1 & Hs1 & H1 & El1 & Hs & Hk).
    cbn [app] in Hs1. rewrite Hs1.
    exists s1. split; [done|]. split; [split; [done | split; [done | now apply Hk]]|].
    rewrite El1. split; [rewrite app_nil_l; lia|].
    unfold entries. now rewrite El1, (shrinks_ents D s s1) by (done || now rewrite El1).
Qed.

Lemma link_ok p e s :
  cache_ok [p] 0 s -> heap s !! p = Some e -> e_aa e ∉ e_aa <$> entries s ->
  exists s', link_entry p e s = Some s' /\ cache_ok [] 0 s' /\ pmksa s' ≡ₚ p :: pmksa s
    /\ entries s' = spec_insert e (entries s)
    /\ heap s' = heap s /\ next_ptr s' = next_ptr s /\ cur_pmksa s' = cur_pmksa s.
Proof.
  intros H He Haa. unfold link_entry.
  destruct (insert_sorted_spec (heap s) p e (pmksa s)) as (l & -> & HP & Hents);
    [intros; now apply (ok_linked [p] 0) | done |].
  set (s0 := s <| pmksa := l |>).
  assert (pmksa s ++ [p] ≡ₚ l ++ []) as HP'
    by (rewrite app_nil_r, HP; symmetry; apply Permutation_cons_append).
  assert (cache_ok [] (-1) s0) as H0.
  { destruct H as [Hnd Hheap Hfresh Hcount Hcur Haas].
    split; unfold entries, s0; cbn [heap next_ptr pmksa pmksa_count cur_pmksa over].
    - now rewrite <- HP'.
    - intros q. now rewrite Hheap, HP'.
    - intros q Hq. apply Hfresh. now rewrite HP'.
    - rewrite Hcount. unfold zlen. rewrite (Permutation_length HP). cbn [length]. lia.
    - intros c Hc. rewrite <- HP'. now apply Hcur.
    - rewrite Hents, spec_insert_perm. now apply NoDup_cons. }
  assert (exists s1, (if bool_decide (head l = Some p) then pmksa_cache_set_expiration s0
                      else Some s0) = Some s1 /\ same_cache s0 s1) as (s1 & -> & H1).
  { case_bool_decide; [now apply (set_expiration_ok [] (-1)) | eauto]. now exists s0. }
  eexists. split; [reflexivity|]. pose proof (same_cache_ok _ _ _ _ H1 H0) as Hok1.
  destruct H1 as (Eh & En & El & Ec & Eu).
  split; [|unfold entries; cbn [heap next_ptr pmksa pmksa_count cur_pmksa over emit];
           rewrite ?Eh, ?En, ?El, ?Eu; split_and!; done].
  destruct Hok1 as [Hnd Hheap Hfresh Hcount Hcur Haas].
  split; try assumption.
  cbn [pmksa pmksa_count over emit]. rewrite Hcount. lia.
Qed.

Lemma spec_evict_keep cur l : spec_evict (spec_keep cur l) l = spec_evict cur l.
Proof.
  unfold spec_evict. destruct (_ <? _); [done|]. destruct l as [|e l]; [done|].
  unfold spec_keep. destruct cur as [a|]; [|done].
  destruct (decide (a ∈ _)) as [|Hn]; [done|]. rewrite decide_False by done.
  rewrite decide_False; [done|]. intros [= ->]. apply Hn. rewrite fmap_cons. now left.
Qed.

Lemma spec_keep_keep cur l k : sublist k l -> spec_keep (spec_keep cur l) k = spec_keep cur k.
Proof.
  intros Hs. unfold spec_keep. destruct cur as [a|]; [|done].
  destruct (decide (a ∈ e_aa <$> l)) as [|Hn]; [done|].
  rewrite decide_False; [done|]. contradict Hn.
  apply (elem_of_sublist (e_aa <$> k)); [done | now apply fmap_sublist].
Qed.

Lemma room_link_ok p new s cur :
  cache_ok [p] 0 s -> zlen (pmksa s) <= 32 -> heap s !! p = Some new -> cur_abs s cur ->
  e_aa new ∉ e_aa <$> entries s ->
  exists s', (let? s := evict_oldest s in let? s := link_entry p new s in Some (p, s))
             = Some (p, s')
    /\ pmksa_wf s' /\ p ∈ pmksa s' /\ next_ptr s' = next_ptr s /\ heap s' !! p = Some new
    /\ abstract s' = (spec_insert new (spec_evict cur (entries s)),
                      spec_keep cur (spec_evict cur (entries s))).
Proof.
  intros H Hle Hnew Hcur Hn.
  destruct (evict_ok [p] s cur H Hcur Hle) as (s1 & -> & H1 & Hle1 & He1).
  destruct (link_ok p new s1) as (s2 & -> & H2 & HP & He2 & Eh & En & Eu).
  - apply H1.
  - rewrite (sh_heap _ _ _ (proj1 (proj2 H1))); [done | set_solver].
  - rewrite He1. contradict Hn. eapply elem_of_sublist; [exact Hn|].
    apply fmap_sublist, spec_evict_sublist.
  - exists s2. split; [done|]. split.
    { split; [done|]. unfold zlen in *. rewrite (Permutation_length HP). cbn [length]. lia. }
    split; [rewrite HP; now left|].
    split; [now rewrite En, (sh_next _ _ _ (proj1 (proj2 H1)))|].
    assert (heap s2 !! p = Some new) as Hp
      by (rewrite Eh, (sh_heap _ _ _ (proj1 (proj2 H1))); [done | set_solver]).
    split; [done|]. unfold abstract. rewrite He2, He1. f_equal.
    apply cur_abs_aa. pose proof (removes_cur_abs _ _ _ _ _ H Hcur H1) as Hc1.
    rewrite He1 in Hc1. unfold cur_abs in *. rewrite Eu, Eh.
    destruct (cur_pmksa s1); [|done]. split; [rewrite HP; now right | apply Hc1].
Qed.

(** Giving the new entry up again. *)
Lemma drop_ok p s cur :
  cache_ok [p] 0 s -> cur_abs s cur ->
  let s' := (_pmksa_cache_free_entry p s) in
  cache_ok [] 0 s' /\ (p ∉ pmksa s) /\ entries s' = entries s /\ cur_abs s' cur.
Proof.
  intros [Hnd Hheap Hfresh Hcount Hcur Haa] Hc s'.
  assert (p ∉ pmksa s) as Hp
    by (apply NoDup_app in Hnd as (_ & Hd & _); intros Hp; apply (Hd p Hp); now left).
  assert (entries s' = entries s) as He by (unfold entries; now apply ents_delete).
  split_and!; [|done|done|].
  - split; rewrite ?app_nil_r; rewrite ?He; unfold s', _pmksa_cache_free_entry;
      cbn [heap next_ptr pmksa pmksa_count cur_pmksa over]; try done.
    + now apply NoDup_app in Hnd.
    + intros q. destruct (decide (q = p)) as [-> | Hq].
      * rewrite lookup_delete_eq. split; [intros [? ?]; done | done].
      * rewrite lookup_delete_ne, Hheap by done. set_solver.
    + intros q Hq. apply Hfresh. set_solver.
    + intros c Hcc. unfold cur_abs in Hc. rewrite Hcc in Hc. apply Hc.
  - unfold cur_abs in *. change (cur_pmksa s') with (cur_pmksa s).
    destruct (cur_pmksa s) as [c|]; [|done]. destruct Hc as (Hin & e & He' & ->).
    split; [done|]. exists e. split; [|done]. cbn [s' heap _pmksa_cache_free_entry over].
    rewrite lookup_delete_ne; [done|]. congruence.
Qed.

(** From a consistent cache with one detached entry [p], what
    pmksa_cache_add_entry() does. *)
Lemma add_entry_ok p new s cur :
  cache_ok [p] 0 s -> zlen (pmksa s) <= 32 -> heap s !! p = Some new -> cur_abs s cur ->
  exists r s', pmksa_cache_add_entry p s = Some (r, s') /\ pmksa_wf s' /\ r ∈ pmksa s'
    /\ next_ptr s' = next_ptr s /\ abstract s' = spec_add new (entries s, cur)
    /\ exists e, heap s' !! r = Some e /\ e_aa e = e_aa new.
Proof.
  intros H Hle Hnew Hcur. unfold pmksa_cache_add_entry, spec_add, spec_room. rewrite Hnew.
  cbn [fst snd].
  destruct (find_aa_spec (heap s) (e_aa new) (pmksa s) []) as (r & -> & Hr);
    [intros; now apply (ok_linked [p] 0)|]. change (ents (heap s) (pmksa s)) with (entries s) in Hr.
  destruct r as [[[pre pos] post]|].
  - destruct Hr as (mid & old & -> & Hl & Hold & Htake). rewrite Hold, Htake. cbn [app].
    destruct (same_pmksa new old) eqn:Hsame.
    + destruct (drop_ok p s cur H Hcur) as (Hok & Hp & He & Hc).
      exists pos, (_pmksa_cache_free_entry p s).
      assert (pos ∈ pmksa s) as Hpos by (rewrite Hl; set_solver).
      split_and!; [done | split; [done | exact Hle] | done | done | |].
      * unfold abstract. now rewrite He, (cur_abs_aa _ _ Hc).
      * exists old. split; [|now apply take_aa_Some in Htake].
        cbn [heap _pmksa_cache_free_entry over]. rewrite lookup_delete_ne; [done|]. congruence.
    + destruct (replace_ok [p] mid pos post (e_network_ctx new) old s H Hl Hold)
        as (s1 & -> & H1 & He1).
      destruct (room_link_ok p new s1 (spec_keep cur (entries s1))) as (s2 & -> & Hs2).
      * apply H1.
      * etrans; [|exact Hle]. unfold zlen. apply inj_le, sublist_length, H1.
      * rewrite (sh_heap _ _ _ (proj1 (proj2 H1))); [done | set_solver].
      * exact (removes_cur_abs _ _ _ _ _ H Hcur H1).
      * rewrite He1. apply take_aa_Some in Htake as [Haa HP].
        pose proof (ok_aa _ _ _ H) as Hnd. rewrite HP in Hnd.
        apply NoDup_cons in Hnd as [Hn _]. rewrite <- Haa. contradict Hn.
        eapply elem_of_sublist; [exact Hn|]. apply fmap_sublist, spec_replace_sublist.
      * exists p, s2. rewrite <- He1. rewrite spec_evict_keep, spec_keep_keep in Hs2
          by apply spec_evict_sublist.
        destruct_and!. split_and!; eauto. rewrite (sh_next _ _ _ (proj1 (proj2 H1))) in *. done.
  - destruct (room_link_ok p new s cur H Hle Hnew Hcur) as (s2 & -> & Hs2).
    + now apply take_aa_None.
    + exists p, s2. rewrite Hr. destruct_and!. split_and!; eauto.
Qed.

Lemma alloc_ok e s :
  pmksa_wf s ->
  let '(p, s') := alloc_entry e s in
  cache_ok [p] 0 s' /\ heap s' !! p = Some e /\ pmksa s' = pmksa s /\ entries s' = entries s
  /\ cur_abs s' (cur_aa s).
Proof.
  intros Hwf. pose proof (wf_cur_abs s Hwf) as Hc. destruct Hwf as [[Hnd Hheap Hfresh Hcount Hcur Haa] _].
  rewrite app_nil_r in *.
  unfold alloc_entry. set (p := next_ptr s).
  assert (p ∉ pmksa s) as Hp by (intros Hp; apply Hfresh in Hp; lia).
  match goal with |- context [cache_ok [p] 0 ?t] => set (s' := t) end.
  assert (entries s' = entries s) as He by (unfold entries; now apply ents_insert).
  split_and!; [|cbn; now rewrite lookup_insert_eq | done | done |].
  - split; rewrite ?He; unfold s'; cbn [heap next_ptr pmksa pmksa_count cur_pmksa over]; try done.
    + apply NoDup_app. split_and!; [done | set_solver | apply NoDup_singleton].
    + intros q. destruct (decide (q = p)) as [-> | Hq].
      * rewrite lookup_insert_eq. split; [set_solver | eauto].
      * rewrite lookup_insert_ne, Hheap by done. set_solver.
    + intros q Hq. apply elem_of_app in Hq as [Hq | Hq]; [apply Hfresh in Hq; lia|].
      apply list_elem_of_singleton in Hq. subst q p. lia.
    + intros c Hcc. apply Hcur in Hcc. set_solver.
  - unfold cur_abs in *. change (cur_pmksa s') with (cur_pmksa s).
    destruct (cur_pmksa s) as [c|]; [|done]. destruct Hc as (Hin & f & Hf & Hcc).
    split; [done|]. exists f. split; [|done]. cbn [s' heap over].
    rewrite lookup_insert_ne; [done|]. congruence.
Qed.

Lemma same_cache_wf s s' : same_cache s s' -> pmksa_wf s -> pmksa_wf s'.
Proof.
  intros Hs [H Hle]. split; [now apply (same_cache_ok _ _ s)|]. now rewrite (proj1 (proj2 (proj2 Hs))).
Qed.

(** The entry pmksa_cache_add() makes at the time [now]. *)
Definition new_entry (key : bytes) (pmkid kck : option bytes) (aa spa : bytes)
    (network_ctx akmp : Z) (cache_id : option bytes) (now lifetime threshold : Z)
  : rsn_pmksa_cache_entry :=
  PmksaEntry (add_pmkid_of key pmkid kck aa spa akmp)
    (overwrite (replicate (Z.to_nat PMK_LEN_MAX) 0) key) (zlen key)
    (now + lifetime) akmp aa cache_id (now + u32 (lifetime * threshold) / 100)
    network_ctx false false.

Lemma add_ok key pmkid kck aa spa ctx akmp cache_id s :
  pmksa_wf s ->
  exists r s', pmksa_cache_add key pmkid kck aa spa ctx akmp cache_id s = Some (r, s')
    /\ pmksa_wf s'
    /\ match r with
       | None => same_cache s s'
       | Some p =>
           p ∈ pmksa s' /\ (exists e, heap s' !! p = Some e /\ e_aa e = aa)
           /\ abstract s' = spec_add (new_entry key pmkid kck aa spa ctx akmp cache_id
                (env_time (S (calls s))) (dot11RSNAConfigPMKLifetime s)
                (dot11RSNAConfigPMKReauthThreshold s)) (abstract s)
       end.
Proof.
  intros Hwf. unfold pmksa_cache_add.
  destruct (_ <? _); [exists None, s; done|]. destruct (_ && _); [exists None, s; done|].
  unfold ask_malloc. destruct (env_malloc _); cbn [negb].
  2:{ eexists None, _. split; [reflexivity|]. split; [|done]. now apply (same_cache_wf s). }
  unfold get_time. cbn [calls over dot11RSNAConfigPMKLifetime dot11RSNAConfigPMKReauthThreshold].
  fold (new_entry key pmkid kck aa spa ctx akmp cache_id (env_time (S (calls s)))
          (dot11RSNAConfigPMKLifetime s) (dot11RSNAConfigPMKReauthThreshold s)).
  set (new := new_entry _ _ _ _ _ _ _ _ _ _ _).
  match goal with |- context [alloc_entry new ?t] => set (s0 := t) end.
  assert (pmksa_wf s0) as Hwf0 by now apply (same_cache_wf s).
  pose proof (alloc_ok new s0 Hwf0) as Ha. destruct (alloc_entry new s0) as [p s1].
  destruct Ha as (H1 & Hp & El & He & Hc).
  destruct (add_entry_ok p new s1 (cur_aa s0) H1)
    as (r & s2 & -> & Hwf2 & Hr & _ & Habs & Hent); [rewrite El; apply Hwf | done | done |].
  exists (Some r), s2. split; [done|]. split; [done|]. split; [done|]. split; [exact Hent|].
  rewrite Habs, He. done.
Qed.
End Add.
