(* ===== verification/WpaDemo.v ===== *)
(** * A concrete environment for the WPA part

    [demo_env times]: the n-th question asks for the time [times n]; nothing fails. *)

From S2P Require Import Prelude WpaDefs WpaCommon WpaTypes.

Definition demo_bssid : bytes := [2; 0; 0; 0; 1; 0].
Definition demo_own_addr : bytes := [2; 0; 0; 0; 0; 0].

Definition demo_env (times : nat -> Z) : WpaEnv := {|
  env_time := times;
  env_malloc := fun _ => true;
  env_random := fun n => Some (map (fun i => Z.of_nat (n + i) mod 256) (seq 0 32));
  env_send := fun _ => 0;
  env_set_key := fun _ => true;
  env_get_bssid := fun _ => Some demo_bssid;
  env_beacon_ie := fun _ => (-1, None);
  env_network_ctx := fun _ => 7;
  env_eapol_version := 2
|}.
