(* ===== verification/PmksaSafe.v ===== *)
(** * The PMKSA cache: every sequence of operations

    [pmksa_op] are the operations the rest of the program performs on the cache;
    no sequence of them accesses freed memory, leaks an entry or breaks the
    invariant.  The list is ordered by expiration time as long as no entry is
    cloned, and expiry then leaves no expired entry behind, except those of SAE. *)

From stdpp Require Import gmap.
From Stdlib Require Import Sorted.
From S2P Require Import Prelude WpaDefs WpaCommon Crypto CryptoDemo WpaTypes Pmksa PmksaProps PmksaSpec WpaDemo.

Inductive pmksa_op :=
| OpAdd (key : bytes) (pmkid kck : option bytes) (aa spa : bytes) (network_ctx akmp : Z)
    (cache_id : option bytes)
| OpFlush (network_ctx : Z) (key : option bytes) (external_only : bool)
| OpExpire                                 (* the pmksa_cache_expire() timeout *)
| OpSetCurrent (pmkid sel_bssid : option bytes) (network_ctx : Z) (try_opportunistic : bool)
    (fils_cache_id : option bytes) (akmp : Z)
| OpGetOpportunistic (network_ctx : Z) (aa : bytes) (akmp : Z)
| OpClearCurrent
| OpReconfig
| OpUse (aa : bytes)                       (* cur_pmksa = pmksa_cache_get(aa) *)
| OpUsed                                   (* cur_pmksa->opportunistic = 0 *)
| OpSm (bssid own_addr pmk : bytes) (pmk_len lifetime threshold : Z). (* assignments to wpa_sm *)

Section Ops.
Context `{ENV : WpaEnv} `{HM : Hmac}.

Definition run_op (op : pmksa_op) (s : pmksa_st) : option pmksa_st :=
  match op with
  | OpAdd key pmkid kck aa spa ctx akmp cache_id =>
      let? (_, s) := pmksa_cache_add key pmkid kck aa spa ctx akmp cache_id s in Some s
  | OpFlush ctx key ext => pmksa_cache_flush ctx key ext s
  | OpExpire => pmksa_cache_expire s
  | OpSetCurrent pmkid sel ctx opp fils akmp =>
      let? (_, s) := pmksa_cache_set_current pmkid sel ctx opp fils akmp s in Some s
  | OpGetOpportunistic ctx aa akmp =>
      let? (_, s) := pmksa_cache_get_opportunistic ctx aa akmp s in Some s
  | OpClearCurrent => Some (pmksa_cache_clear_current s)
  | OpReconfig => pmksa_cache_reconfig s
  | OpUse aa => let? r := pmksa_cache_get (Some aa) None 0 0 s in Some (s <| cur_pmksa := r |>)
  | OpUsed => match cur_pmksa s with
              | Some c => update_entry c (fun e => e <| e_opportunistic := false |>) s
              | None => Some s
              end
  | OpSm b o k kl lt th =>
      Some (s <| bssid := b |> <| own_addr := o |> <| pmk := k |> <| pmk_len := kl |>
              <| dot11RSNAConfigPMKLifetime := lt |> <| dot11RSNAConfigPMKReauthThreshold := th |>)
  end.

Fixpoint run_ops (ops : list pmksa_op) (s : pmksa_st) : option pmksa_st :=
  match ops with [] => Some s | op :: ops => let? s := run_op op s in run_ops ops s end.

(** ** Every operation keeps the invariant *)

Lemma set_cur_wf r s :
  pmksa_wf s -> (forall p, r = Some p -> p ∈ pmksa s) -> pmksa_wf (s <| cur_pmksa := r |>).
Proof.
  intros [[Hnd Hheap Hfresh Hcount Hcur Haa] Hle] Hr. split; [|exact Hle].
  split; try assumption. intros c Hc. apply elem_of_app. left. now apply Hr.
Qed.

Lemma wf_get aa pmkid ctx akmp s :
  pmksa_wf s ->
  exists r, pmksa_cache_get aa pmkid ctx akmp s = Some r /\ forall p, r = Some p -> p ∈ pmksa s.
Proof. intros [H _]. now apply (get_ok [] 0). Qed.

Lemma wf_lookup s p : pmksa_wf s -> p ∈ pmksa s -> exists e, heap s !! p = Some e.
Proof. intros [H _] Hp. now apply (ok_linked [] 0). Qed.

Lemma ents_update h p f l :
  (forall e, e_aa (f e) = e_aa e) ->
  forall e, h !! p = Some e -> e_aa <$> ents (<[p := f e]> h) l = e_aa <$> ents h l.
Proof.
  intros Hf e He. induction l as [|q l IH]; [done|]. rewrite !ents_eq.
  destruct (decide (q = p)) as [-> | Hq].
  - rewrite lookup_insert_eq, He, !fmap_cons, IH, Hf. done.
  - rewrite lookup_insert_ne by done. destruct (h !! q); [|done]. now rewrite !fmap_cons, IH.
Qed.

Lemma update_wf p f s :
  pmksa_wf s -> p ∈ pmksa s -> (forall e, e_aa (f e) = e_aa e) ->
  exists s', update_entry p f s = Some s' /\ pmksa_wf s' /\ pmksa s' = pmksa s.
Proof.
  intros Hwf Hp Hf. destruct (wf_lookup s p Hwf Hp) as [e He]. unfold update_entry. rewrite He.
  eexists. split; [reflexivity|]. split; [|done].
  destruct Hwf as [[Hnd Hheap Hfresh Hcount Hcur Haa] Hle]. split; [|exact Hle].
  split; try assumption; unfold entries; cbn [heap pmksa over].
  - intros q. rewrite <- Hheap. destruct (decide (q = p)) as [-> | Hq].
    + rewrite lookup_insert_eq, He. split; eauto.
    + now rewrite lookup_insert_ne.
  - now rewrite ents_update.
Qed.

Lemma get_time_same s : same_cache s (snd (get_time s)).
Proof. done. Qed.

(** What an operation that may give back an entry guarantees. *)
Definition safe_result (o : option (option nat * pmksa_st)) : Prop :=
  exists r s', o = Some (r, s') /\ pmksa_wf s' /\ forall p, r = Some p -> p ∈ pmksa s'.

Lemma clone_ok old aa s :
  pmksa_wf s -> old ∈ pmksa s -> safe_result (pmksa_cache_clone_entry old aa s).
Proof.
  intros Hwf Hold. unfold pmksa_cache_clone_entry.
  destruct (wf_lookup s old Hwf Hold) as [e He]. rewrite He.
  match goal with |- context [pmksa_cache_add ?k ?i ?c ?a ?sp ?n ?m ?f s] =>
    destruct (add_ok k i c a sp n m f s Hwf) as (r & s1 & -> & Hwf1 & Hr) end.
  destruct r as [p|]; [|exists None, s1; done].
  match goal with |- context [update_entry p ?f s1] =>
    destruct (update_wf p f s1 Hwf1) as (s2 & -> & Hwf2 & El); [apply Hr | done |] end.
  exists (Some p), s2. split_and!; [done | done |]. intros q [= <-]. rewrite El. apply Hr.
Qed.

Lemma opportunistic_loop_ok ctx akmp aa l : forall s,
  pmksa_wf s -> (forall p, p ∈ l -> p ∈ pmksa s) ->
  safe_result (opportunistic_loop ctx akmp aa l s).
Proof.
  induction l as [|p l IH]; intros s Hwf Hl; cbn [opportunistic_loop]; [now exists None, s|].
  destruct (wf_lookup s p Hwf) as [e ->]; [apply Hl; now left|].
  assert (forall q, q ∈ l -> q ∈ pmksa s) as Hl' by (intros; apply Hl; now right).
  destruct (_ && _); [|now apply IH]. destruct (wpa_key_mgmt_sae _).
  - pose proof (same_cache_wf s _ (get_time_same s) Hwf) as Hwf'. unfold get_time in *.
    cbn [snd] in Hwf'. destruct (_ <? _); [now apply IH|].
    apply clone_ok; [done|]. apply Hl. now left.
  - apply clone_ok; [done|]. apply Hl. now left.
Qed.

Lemma get_opportunistic_ok ctx aa akmp s :
  pmksa_wf s -> safe_result (pmksa_cache_get_opportunistic ctx aa akmp s).
Proof.
  intros Hwf. unfold pmksa_cache_get_opportunistic.
  destruct (_ =? _); [now exists None, s | now apply opportunistic_loop_ok].
Qed.

Lemma get_fils_ok ctx id s :
  pmksa_wf s ->
  exists r, pmksa_cache_get_fils_cache_id ctx id s = Some r /\ forall p, r = Some p -> p ∈ pmksa s.
Proof.
  intros Hwf. unfold pmksa_cache_get_fils_cache_id.
  match goal with |- context [find_entry ?f _ _] =>
    destruct (find_entry_spec f (heap s) (pmksa s)) as (r & Hr & Hspec) end.
  - intros p Hp. now apply wf_lookup.
  - exists r. split; [done|]. intros p ->. apply Hspec.
Qed.

Lemma try_current_ok c f s :
  pmksa_wf s -> safe_result (f s) ->
  exists s', try_current c f s = Some s' /\ pmksa_wf s'.
Proof.
  intros Hwf (r & s1 & Hf & Hwf1 & Hr). unfold try_current.
  destruct (_ && _); [|eauto]. rewrite Hf. eexists. split; [reflexivity|]. now apply set_cur_wf.
Qed.

Lemma pure_get_ok f s :
  pmksa_wf s -> (exists r, f s = Some r /\ forall p, r = Some p -> p ∈ pmksa s) ->
  safe_result (pure_get f s).
Proof. intros Hwf (r & Hf & Hr). unfold pure_get. rewrite Hf. now exists r, s. Qed.

Lemma set_current_ok pmkid sel ctx opp fils akmp s :
  pmksa_wf s ->
  exists r s', pmksa_cache_set_current pmkid sel ctx opp fils akmp s = Some (r, s') /\ pmksa_wf s'.
Proof.
  intros Hwf. unfold pmksa_cache_set_current.
  assert (pmksa_wf (s <| cur_pmksa := None |>)) as H0 by now apply set_cur_wf.
  revert H0. generalize (s <| cur_pmksa := None |>). clear s Hwf. intros s H0.
  match goal with |- context [try_current ?c ?f s] =>
    destruct (try_current_ok c f s H0) as (s1 & -> & H1);
      [apply pure_get_ok; [done | now apply wf_get]|] end.
  match goal with |- context [try_current ?c ?f s1] =>
    destruct (try_current_ok c f s1 H1) as (s2 & -> & H2);
      [apply pure_get_ok; [done | now apply wf_get]|] end.
  match goal with |- context [try_current ?c ?f s2] =>
    destruct (try_current_ok c f s2 H2) as (s3 & -> & H3);
      [now apply get_opportunistic_ok|] end.
  match goal with |- context [try_current ?c ?f s3] =>
    destruct (try_current_ok c f s3 H3) as (s4 & -> & H4);
      [apply pure_get_ok; [done | now apply get_fils_ok]|] end.
  destruct (cur_pmksa s4) as [c|] eqn:Ec; [|eauto].
  destruct (wf_lookup s4 c H4) as [e ->].
  { pose proof (ok_cur _ _ _ (proj1 H4) c Ec) as Hc. now rewrite app_nil_r in Hc. }
  destruct (wpa_key_mgmt_sae _); [|eauto].
  pose proof (same_cache_wf s4 _ (get_time_same s4) H4) as H5. unfold get_time in *. cbn [snd] in H5.
  destruct (_ <? _); eauto. eexists _, _. split; [reflexivity|]. now apply set_cur_wf.
Qed.

Lemma reconfig_loop_ok now l : forall s,
  pmksa_wf s -> (forall p, p ∈ l -> p ∈ pmksa s) ->
  exists s', reconfig_loop now l s = Some s' /\ same_cache s s'.
Proof.
  induction l as [|p l IH]; intros s Hwf Hl; cbn [reconfig_loop]; [now exists s|].
  destruct (wf_lookup s p Hwf) as [e ->]; [apply Hl; now left|].
  assert (forall q, q ∈ l -> q ∈ pmksa s) as Hl' by (intros; apply Hl; now right).
  destruct (_ || _); [now apply IH|]. destruct (_ =? _); [now apply IH|].
  match goal with |- context [reconfig_loop now l ?t] =>
    assert (same_cache s t) as Hs by done;
    destruct (IH t (same_cache_wf s t Hs Hwf) Hl') as (s' & -> & Hs') end.
  exists s'. split; [done|]. now apply (same_cache_trans s _ s') in Hs'.
Qed.

Lemma wf_cur s c : pmksa_wf s -> cur_pmksa s = Some c -> c ∈ pmksa s.
Proof. intros [H _] Hc. pose proof (ok_cur _ _ _ H c Hc) as Hin. now rewrite app_nil_r in Hin. Qed.

Lemma removes_wf s s' : pmksa_wf s -> cache_ok [] 0 s' -> shrinks [] s s' -> pmksa_wf s'.
Proof.
  intros [_ Hle] H Hs. split; [done|]. etrans; [|exact Hle].
  unfold zlen. apply inj_le, sublist_length, Hs.
Qed.

Lemma run_op_ok op s : pmksa_wf s -> exists s', run_op op s = Some s' /\ pmksa_wf s'.
Proof.
  intros Hwf. destruct op; cbn [run_op].
  - destruct (add_ok key pmkid kck aa spa network_ctx akmp cache_id s Hwf) as (r & s1 & -> & H1 & _).
    eauto.
  - destruct (flush_ok [] 0 network_ctx key external_only s (proj1 Hwf)) as (s1 & -> & (H1 & Hs & _) & _).
    eauto using removes_wf.
  - destruct (expire_ok [] 0 s (proj1 Hwf)) as (s1 & -> & H1 & Hs). eauto using removes_wf.
  - destruct (set_current_ok pmkid sel_bssid network_ctx try_opportunistic fils_cache_id akmp s Hwf)
      as (r & s1 & -> & H1). eauto.
  - destruct (get_opportunistic_ok network_ctx aa akmp s Hwf) as (r & s1 & -> & H1 & _). eauto.
  - eexists. split; [reflexivity|]. now apply set_cur_wf.
  - unfold pmksa_cache_reconfig. case_bool_decide; [eauto|].
    pose proof (same_cache_wf s _ (get_time_same s) Hwf) as H0. unfold get_time in *. cbn [snd] in H0.
    match goal with |- context [reconfig_loop ?n ?l ?t] =>
      destruct (reconfig_loop_ok n l t H0) as (s1 & -> & Hs) end; [done|].
    eauto using same_cache_wf.
  - destruct (wf_get (Some aa) None 0 0 s Hwf) as (r & -> & Hr).
    eexists. split; [reflexivity|]. now apply set_cur_wf.
  - destruct (cur_pmksa s) as [c|] eqn:Ec; [|eauto].
    match goal with |- context [update_entry c ?f s] =>
      destruct (update_wf c f s Hwf) as (s1 & -> & H1 & _); [now apply wf_cur | done |] end.
    eauto.
  - eexists. split; [reflexivity|]. now apply (same_cache_wf s).
Qed.

Lemma run_ops_ok ops : forall s, pmksa_wf s -> exists s', run_ops ops s = Some s' /\ pmksa_wf s'.
Proof.
  induction ops as [|op ops IH]; intros s Hwf; cbn [run_ops]; [eauto|].
  destruct (run_op_ok op s Hwf) as (s1 & -> & H1). now apply IH.
Qed.

Lemma init_wf : pmksa_wf pmksa_cache_init.
Proof.
  split; [|vm_compute; discriminate].
  split; cbn; try done; try constructor; try set_solver.
  rewrite lookup_empty. now intros [? ?].
Qed.

Lemma fold_free_heap l : forall s,
  heap (fold_left (fun s p => _pmksa_cache_free_entry p s) l s) = foldr delete (heap s) (reverse l)
  /\ pmksa (fold_left (fun s p => _pmksa_cache_free_entry p s) l s) = pmksa s.
Proof.
  induction l as [|p l IH]; intros s; [done|]. cbn [fold_left].
  destruct (IH (_pmksa_cache_free_entry p s)) as [-> ->]. split; [|done].
  rewrite reverse_cons, foldr_app. done.
Qed.

Lemma deinit_ok s :
  pmksa_wf s -> exists s', pmksa_cache_deinit s = Some s' /\ heap s' = ∅ /\ pmksa s' = [].
Proof.
  intros Hwf. unfold pmksa_cache_deinit.
  destruct (fold_free_heap (pmksa s) (s <| pmksa := [] |>)) as [Eh El].
  set (s1 := fold_left _ _ _) in *. cbn [heap pmksa over] in Eh, El.
  unfold pmksa_cache_set_expiration.
  match goal with |- context [pmksa ?t] => change (pmksa t) with (pmksa s1) end.
  rewrite El. eexists. split; [reflexivity|]. split; [|exact El].
  cbn [heap over]. rewrite Eh. apply map_eq. intros p. rewrite lookup_empty.
  destruct (decide (p ∈ pmksa s)) as [Hp|Hp].
  - apply lookup_foldr_delete. now rewrite elem_of_reverse.
  - rewrite lookup_foldr_delete_not_elem_of by now rewrite elem_of_reverse.
    apply eq_None_not_Some. intros Hs. apply (ok_heap _ _ _ (proj1 Hwf)) in Hs.
    now rewrite app_nil_r in Hs.
Qed.

(** C22. Any sequence of PMKSA cache operations, whatever the times, allocation
    failures and arguments, runs without dereferencing an address that is not
    allocated, keeps the invariant (every entry linked exactly once and every
    allocated entry linked, the counter equal to the number of entries and at most
    32, at most one entry per authenticator, [cur_pmksa] NULL or in the cache),
    and the pmksa_cache_deinit() that follows frees every entry. *)
Theorem pmksa_ops_safe ops :
  exists s', run_ops ops pmksa_cache_init = Some s' /\ pmksa_wf s'
    /\ exists s'', pmksa_cache_deinit s' = Some s'' /\ heap s'' = ∅.
Proof.
  destruct (run_ops_ok ops _ init_wf) as (s' & Hs & Hwf). exists s'. split; [done|]. split; [done|].
  destruct (deinit_ok s' Hwf) as (s'' & Hd & Hh & _). eauto.
Qed.

(** ** Refinement of the abstract cache *)

Lemma find_entry_find f h l :
  (forall p, p ∈ l -> is_Some (h !! p)) ->
  exists r, find_entry f h l = Some r /\ (let? p := r in h !! p) = List.find f (ents h l).
Proof.
  induction l as [|p l IH]; intros Hl; cbn [find_entry]; [now exists None|].
  destruct (Hl p) as [e He]; [now left|]. rewrite (ents_cons _ _ _ _ He), He. cbn [List.find].
  destruct (f e); [eexists; split; [reflexivity | exact He]|].
  apply IH. intros. apply Hl. now right.
Qed.

(** The entry pmksa_cache_get() looks for. *)
Definition spec_get (aa pmkid : option bytes) (network_ctx akmp : Z)
    (l : list rsn_pmksa_cache_entry) : option rsn_pmksa_cache_entry :=
  List.find (fun e => opt_match aa (e_aa e) && opt_match pmkid (e_pmkid e)
    && ((akmp =? 0) || (akmp =? e_akmp e))
    && ((network_ctx =? 0) || (network_ctx =? e_network_ctx e))) l.

(** C23. The heap operations refine the abstract cache, a list of entries and the
    authenticator in use: adding an entry replaces the one of the same
    authenticator (and, if that was used successfully, all of the network with its
    PMK), makes room by giving up the first entry not in use, and inserts behind
    every entry that expires no later, unless the same PMKSA is there already;
    flushing filters the list; a lookup is a search in the list; and the entry in
    use stays in use exactly as long as it is in the list. *)
Theorem pmksa_refines_list s :
  pmksa_wf s ->
  (forall key pmkid kck aa spa ctx akmp cache_id r s',
     pmksa_cache_add key pmkid kck aa spa ctx akmp cache_id s = Some (Some r, s') ->
     abstract s' = spec_add (new_entry key pmkid kck aa spa ctx akmp cache_id
       (env_time (S (calls s))) (dot11RSNAConfigPMKLifetime s)
       (dot11RSNAConfigPMKReauthThreshold s)) (abstract s))
  /\ (forall ctx key ext,
     exists s', pmksa_cache_flush ctx key ext s = Some s'
       /\ abstract s' = (spec_flush ctx key ext (entries s),
                         spec_keep (cur_aa s) (spec_flush ctx key ext (entries s))))
  /\ (forall aa pmkid ctx akmp,
     exists r, pmksa_cache_get aa pmkid ctx akmp s = Some r
       /\ (let? p := r in heap s !! p) = spec_get aa pmkid ctx akmp (entries s)).
Proof.
  intros Hwf. split; [|split].
  - intros key pmkid kck aa spa ctx akmp cache_id r s' Hadd.
    destruct (add_ok key pmkid kck aa spa ctx akmp cache_id s Hwf) as (r0 & s0 & Hadd0 & _ & Hr).
    rewrite Hadd0 in Hadd. injection Hadd as -> ->. apply Hr.
  - intros ctx key ext.
    destruct (flush_ok [] 0 ctx key ext s (proj1 Hwf)) as (s1 & -> & H1 & He).
    exists s1. split; [done|]. unfold abstract, spec_flush. rewrite He. f_equal.
    apply cur_abs_aa. rewrite <- He.
    exact (removes_cur_abs [] 0 _ _ _ (proj1 Hwf) (wf_cur_abs s Hwf) H1).
  - intros aa pmkid ctx akmp. apply find_entry_find. intros p Hp. now apply wf_lookup.
Qed.

(** ** Order by expiration time *)

Definition by_expiration (l : list rsn_pmksa_cache_entry) : Prop :=
  StronglySorted (fun a b => e_expiration a <= e_expiration b) l.

Lemma by_expiration_sublist l k : sublist l k -> by_expiration k -> by_expiration l.
Proof.
  unfold by_expiration. induction 1 as [|x l k Hs IH|x l k Hs IH]; intros H; [constructor| |];
    apply StronglySorted_inv in H as [Hk Hx].
  - constructor; [now apply IH|]. rewrite Forall_forall in *.
    intros y Hy. apply Hx. now apply (elem_of_sublist l).
  - now apply IH.
Qed.

Lemma by_expiration_insert new l : by_expiration l -> by_expiration (spec_insert new l).
Proof.
  unfold by_expiration. induction l as [|e l IH]; intros H; cbn [spec_insert].
  - constructor; constructor.
  - destruct (Z.ltb_spec (e_expiration new) (e_expiration e)).
    + constructor; [done|]. constructor; [lia|]. apply StronglySorted_inv in H as [_ H].
      eapply Forall_impl; [exact H|]. cbn. lia.
    + apply StronglySorted_inv in H as [Hl He]. constructor; [now apply IH|].
      rewrite (spec_insert_perm new l). now constructor.
Qed.

Lemma by_expiration_add new c : by_expiration (fst c) -> by_expiration (fst (spec_add new c)).
Proof.
  intros H. unfold spec_add. destruct (spec_room _ _ _) as [l|] eqn:Hroom; [|done].
  cbn [fst]. apply by_expiration_insert. unfold spec_room in Hroom.
  destruct (take_aa _ _) as [[old rest]|] eqn:Htake.
  - destruct (same_pmksa _ _); [done|]. injection Hroom as <-.
    eapply by_expiration_sublist; [apply spec_evict_sublist|].
    eapply by_expiration_sublist; [apply spec_replace_sublist|].
    eapply by_expiration_sublist; [eapply take_aa_sublist; exact Htake | done].
  - injection Hroom as <-. eapply by_expiration_sublist; [apply spec_evict_sublist | done].
Qed.

(** ** Expiry *)

Definition live (now : Z) (l : list rsn_pmksa_cache_entry) : list rsn_pmksa_cache_entry :=
  filter (fun e => now < e_expiration e) l.

Lemma live_all now e l :
  by_expiration (e :: l) -> now < e_expiration e -> Forall (fun x => now < e_expiration x) (e :: l).
Proof.
  intros [_ H]%StronglySorted_inv He. constructor; [done|].
  eapply Forall_impl; [exact H|]. cbn. lia.
Qed.

Lemma expire_loop_spec now rest : forall kept s,
  cache_ok [] 0 s -> pmksa s = kept ++ rest -> by_expiration (ents (heap s) rest) ->
  Forall (fun e => wpa_key_mgmt_sae (e_akmp e) = true /\ e_expiration e <= now) (ents (heap s) kept) ->
  exists s', expire_loop now kept rest s = Some s' /\ cache_ok [] 0 s' /\ shrinks [] s s'
    /\ live now (entries s') = live now (entries s)
    /\ Forall (fun e => now < e_expiration e \/ wpa_key_mgmt_sae (e_akmp e) = true) (entries s').
Proof.
  induction rest as [|p rest IH]; intros kept s H Hl Hsort Hkept; cbn [expire_loop].
  - exists s. split_and!; [done | done | apply shrinks_refl | done |]. unfold entries.
    rewrite Hl, app_nil_r. eapply Forall_impl; [exact Hkept|]. cbn. tauto.
  - destruct (ok_linked [] 0 s p H) as [e He]; [rewrite Hl; set_solver|]. rewrite He.
    rewrite (ents_cons _ _ _ _ He) in Hsort. pose proof (StronglySorted_inv Hsort) as [Hsort' _].
    assert (entries s = ents (heap s) kept ++ e :: ents (heap s) rest) as Hents
      by (unfold entries; rewrite Hl, ents_app; f_equal; now apply ents_cons).
    destruct (Z.leb_spec (e_expiration e) now) as [Hexp | Hlive].
    2:{ exists s. split_and!; [done | done | apply shrinks_refl | done |]. rewrite Hents.
        apply Forall_app. split; [eapply Forall_impl; [exact Hkept|]; cbn; tauto|].
        eapply Forall_impl; [apply live_all; [exact Hsort | exact Hlive]|]. cbn. tauto. }
    destruct (_ && _) eqn:Hsae.
    + apply andb_prop in Hsae as [Hsae _].
      apply (IH (kept ++ [p]) s); [done | now rewrite Hl, <- app_assoc | done |].
      rewrite ents_app, (ents_cons _ _ _ _ He). apply Forall_app. split; [done|].
      constructor; [done | constructor].
    + destruct (remove_ok [] 0 kept p rest PMKSA_EXPIRE s H Hl) as (s1 & -> & H1 & El & Hs & _).
      assert (forall l, (forall q, q ∈ l -> q ∈ kept ++ rest) -> ents (heap s1) l = ents (heap s) l)
        as Hsame by (intros l Hin; apply (shrinks_ents [] s s1); [done | now rewrite El]).
      destruct (IH kept s1) as (s2 & -> & H2 & Hs2 & Hlv & Hall);
        [done | done | rewrite Hsame by set_solver; done | rewrite Hsame by set_solver; done |].
      exists s2. split_and!; [done | done | now apply (shrinks_trans [] s s1) | | done].
      rewrite Hlv, Hents. unfold entries, live. rewrite El, Hsame, ents_app by done.
      rewrite !filter_app, filter_cons, decide_False by lia. done.
Qed.

(** pmksa_cache_expire() on a cache ordered by expiration time removes exactly
    what it should: every entry that is not yet due stays, what stays is in the
    same order, and an entry that is due stays only if it is one of SAE (the
    current one is kept as long as it is in use). *)
Theorem pmksa_expire_exact s :
  pmksa_wf s -> by_expiration (entries s) ->
  exists s', pmksa_cache_expire s = Some s' /\ pmksa_wf s' /\ by_expiration (entries s')
    /\ live (env_time (calls s)) (entries s') = live (env_time (calls s)) (entries s)
    /\ Forall (fun e => env_time (calls s) < e_expiration e \/ wpa_key_mgmt_sae (e_akmp e) = true)
         (entries s').
Proof.
  intros Hwf Hsort. unfold pmksa_cache_expire, get_time. cbn [calls over pmksa].
  match goal with |- context [expire_loop ?n [] _ ?t] => set (s0 := t) end.
  destruct (expire_loop_spec (env_time (calls s)) (pmksa s) [] s0)
    as (s1 & -> & H1 & Hs1 & Hlive & Hall); [|done|done|constructor|].
  { apply (same_cache_ok _ _ s); [done | apply Hwf]. }
  destruct (set_expiration_ok [] 0 s1 H1) as (s2 & -> & H2).
  exists s2. pose proof H2 as (Eh & _ & El & _).
  assert (entries s2 = entries s1) as -> by (unfold entries; now rewrite Eh, El).
  split_and!; [done| |  | done | done].
  - apply (same_cache_wf s1); [done|]. apply (removes_wf s); [exact Hwf | exact H1 |]. destruct Hs1 as [A B D]. now split.
  - eapply by_expiration_sublist; [|exact Hsort]. unfold entries at 1.
    rewrite (shrinks_ents [] s0 s1); [|done|done]. apply ents_sublist, Hs1.
Qed.

(** Adding an entry keeps the cache ordered by expiration time, and so does
    flushing entries. *)
Theorem pmksa_sorted s :
  pmksa_wf s -> by_expiration (entries s) ->
  (forall key pmkid kck aa spa ctx akmp cache_id r s',
     pmksa_cache_add key pmkid kck aa spa ctx akmp cache_id s = Some (r, s') ->
     by_expiration (entries s'))
  /\ (forall ctx key ext s', pmksa_cache_flush ctx key ext s = Some s' -> by_expiration (entries s')).
Proof.
  intros Hwf Hsort. split.
  - intros key pmkid kck aa spa ctx akmp cache_id r s' Hadd.
    destruct (add_ok key pmkid kck aa spa ctx akmp cache_id s Hwf) as (r0 & s0 & Hadd0 & _ & Hr).
    rewrite Hadd0 in Hadd. injection Hadd as <- <-. destruct r0 as [p|].
    + destruct Hr as (_ & _ & Habs). change (entries s0) with (fst (abstract s0)). rewrite Habs.
      now apply by_expiration_add.
    + destruct Hr as (Eh & _ & El & _). unfold entries. now rewrite Eh, El.
  - intros ctx key ext s' Hf.
    destruct (flush_ok [] 0 ctx key ext s (proj1 Hwf)) as (s1 & Hf1 & _ & He).
    rewrite Hf1 in Hf. injection Hf as <-. rewrite He.
    eapply by_expiration_sublist; [apply sublist_filter | done].
Qed.
End Ops.

(** ** Concrete caches *)

Definition demo_aa (n : Z) : bytes := [2; 0; 0; 0; 1; n].
Definition demo_add (n ctx : Z) : pmksa_op :=
  OpAdd (replicate 32 n) None None (demo_aa n) demo_own_addr ctx WPA_KEY_MGMT_IEEE8021X None.

(** The state after [ops], with the time [1000 * n] at the n-th question. *)
Definition demo_cache (ops : list pmksa_op) : pmksa_st :=
  let ENV := demo_env (fun n => 1000 * Z.of_nat n) in
  default pmksa_cache_init (run_ops (ENV := ENV) (HM := demo_hmac) ops pmksa_cache_init).

Lemma demo_cache_wf ops : pmksa_wf (demo_cache ops).
Proof.
  unfold demo_cache.
  destruct (@run_ops_ok (demo_env (fun n => 1000 * Z.of_nat n)) demo_hmac ops _ init_wf)
    as (s & -> & Hwf). exact Hwf.
Qed.

Definition demo_two : pmksa_st := demo_cache [demo_add 1 1; demo_add 2 2].

Lemma pmksa_refines_list_witness :
  exists s', @pmksa_cache_flush (demo_env (fun _ => 0)) 1 None false demo_two = Some s'
    /\ map e_aa (entries s') = [demo_aa 2].
Proof.
  destruct (proj1 (proj2 (@pmksa_refines_list (demo_env (fun _ => 0)) demo_hmac demo_two
    (demo_cache_wf _))) 1 None false) as (s' & Hs & Ha).
  exists s'. split; [exact Hs|]. injection Ha as He _. rewrite He. vm_compute. reflexivity.
Defined.

Lemma demo_two_sorted : by_expiration (entries demo_two).
Proof. vm_compute. repeat constructor; discriminate. Qed.

Lemma pmksa_expire_exact_witness :
  exists s', @pmksa_cache_expire (demo_env (fun _ => 45000)) demo_two = Some s'
    /\ live 45000 (entries s') = live 45000 (entries demo_two)
    /\ length (live 45000 (entries demo_two)) = 1%nat.
Proof.
  destruct (@pmksa_expire_exact (demo_env (fun _ => 45000)) demo_two
    (demo_cache_wf _) demo_two_sorted) as (s' & Hs & _ & _ & Hl & _).
  exists s'. split; [exact Hs|]. split; [exact Hl|]. vm_compute. reflexivity.
Defined.

Lemma pmksa_sorted_witness :
  exists s', @pmksa_cache_flush (demo_env (fun _ => 0)) 1 None false demo_two = Some s'
    /\ by_expiration (entries s').
Proof.
  destruct (@pmksa_cache_flush (demo_env (fun _ => 0)) 1 None false demo_two) as [s'|] eqn:Hs.
  - exists s'. split; [reflexivity|].
    exact (proj2 (@pmksa_sorted (demo_env (fun _ => 0)) demo_hmac demo_two
      (demo_cache_wf _) demo_two_sorted) 1 None false s' Hs).
  - exfalso. revert Hs. vm_compute. discriminate.
Defined.

(** An entry cloned for opportunistic caching gets the expiration time of the
    original after it was sorted in with that of a new entry, so the cache is no
    longer ordered, and an expired entry can be behind one that is not. *)
Lemma clone_breaks_order :
  let s := demo_cache [demo_add 1 1; demo_add 2 2; OpGetOpportunistic 1 (demo_aa 3) 0] in
  map e_expiration (entries s) = [44200; 47200; 44200]
  /\ exists s', @pmksa_cache_expire (demo_env (fun _ => 45000)) s = Some s'
     /\ map e_expiration (entries s') = [47200; 44200].
Proof. vm_compute. split; [reflexivity|]. eexists. split; reflexivity. Qed.

(** The reauthentication timeout for the current entry is computed from the times
    of the first entry of the list. *)
Lemma reauth_of_the_first_entry :
  let s := demo_cache [demo_add 1 1; demo_add 2 2; OpUse (demo_aa 2)] in
  exists c e s', cur_pmksa s = Some c /\ heap s !! c = Some e
    /\ @pmksa_cache_set_expiration (demo_env (fun _ => 5000)) s = Some s'
    /\ (e_reauth_time e - 5000, reauth_timeout s') = (29240, Some 26240).
Proof. vm_compute. eexists _, _, _. split_and!; reflexivity. Qed.
