(* ===== verification/WpaSm.v ===== *)
(** * The WPA state machine: data and message construction (src/rsn_supp/wpa.c)

    struct wpa_sm with the part the PMKSA cache works on as the field [pm], the
    calls out of the machine, and the EAPOL-Key messages the supplicant sends.
    The EAPOL state machine behind [sm->eapol] is an interface ([EapolOps]),
    which WpaEapol.v implements with EapolSupp.v.

    A struct wpa_eapol_key is read from a received frame at its offsets.  An
    operation returns [None] when it accesses a PMKSA entry that is not allocated.

    Build options: CONFIG_SAE, CONFIG_SUITEB, CONFIG_SUITEB192 and CONFIG_WNM on;
    CONFIG_IEEE80211R, CONFIG_FILS, CONFIG_OCV, CONFIG_P2P, CONFIG_OWE,
    CONFIG_DPP2, CONFIG_TDLS, CONFIG_HS20, CONFIG_SAE_PK, CONFIG_TESTING_OPTIONS
    and CONFIG_NO_RC4 off. *)

From stdpp Require Import gmap.
From S2P Require Import Prelude WpaDefs WpaCommon Crypto Rc4 AesWrap RsnIe KeyData WpaTypes Pmksa.

(** ** The EAPOL state machine, as the WPA state machine uses it *)

Class EapolOps (E : Type) := {
  eapol_get_key : E -> bytes -> Z -> Z * bytes;   (* result and new contents of the buffer *)
  eapol_notify_portValid : bool -> E -> E;
  eapol_notify_eap_success : bool -> E -> E;
  eapol_notify_eap_fail : bool -> E -> E;
  eapol_notify_cached : E -> E;
  eapol_notify_tx_eapol_key : E -> E;
  eapol_notify_lower_layer_success : bool -> E -> E;
  eapol_request_reauth : E -> E
}.

(** eapol_sm_get_key() keeps within the buffer. *)
Class EapolLaws (E : Type) `{EapolOps E} := {
  eapol_get_key_len e key len :
    len <= zlen key -> length (eapol_get_key e key len).2 = length key
}.

(** ** struct wpa_sm *)

(* wpa_common.h struct wpa_gtk *)
Record wpa_gtk := WpaGtk { gtk_key : bytes; gtk_key_len : Z }.
#[export] Instance eta_wpa_gtk : Eta wpa_gtk := fun g => WpaGtk (gtk_key g) (gtk_key_len g).
Definition gtk_zero : wpa_gtk := WpaGtk (replicate 32 0) 0.

Section State.
Context {E : Type}.

(* wpa_i.h struct wpa_sm *)
Record wpa_sm := WpaSm {
  pm : pmksa_st;                   (* pmk, pmk_len, pmksa, cur_pmksa, addresses, lifetimes *)
  ptk : wpa_ptk;
  tptk : wpa_ptk;
  ptk_set : bool;
  tptk_set : bool;
  msg_3_of_4_ok : bool;
  snonce : bytes;
  anonce : bytes;
  renew_snonce : bool;
  rx_replay_counter : bytes;
  rx_replay_counter_set : bool;
  request_counter : bytes;
  gtk : wpa_gtk;
  gtk_wnm_sleep : wpa_gtk;
  igtk : wpa_gtk;
  igtk_wnm_sleep : wpa_gtk;
  bigtk : wpa_gtk;
  bigtk_wnm_sleep : wpa_gtk;
  sm_eapol : E;
  network_ctx : Z;
  allowed_pairwise_cipher : Z;
  proactive_key_caching : bool;
  eap_workaround : bool;
  ssid : bytes;
  wpa_ptk_rekey : Z;
  wpa_deny_ptk0_rekey : bool;
  p2p : bool;
  wpa_rsc_relaxation : bool;
  owe_ptk_workaround : bool;
  beacon_prot : bool;
  ext_key_id : bool;
  use_ext_key_id : bool;
  keyidx_active : Z;
  force_kdk_derivation : bool;
  secure_ltf : bool;
  dot11RSNAConfigSATimeout : Z;
  dot11RSNA4WayHandshakeFailures : Z;
  proto : Z;
  pairwise_cipher : Z;
  group_cipher : Z;
  key_mgmt : Z;
  mgmt_group_cipher : Z;
  rsn_enabled : bool;
  mfp : Z;
  ocv : bool;
  sae_pwe : Z;
  sae_pk : bool;
  assoc_wpa_ie : option bytes;
  assoc_wpa_ie_len : Z;            (* not reset when the copy could not be allocated *)
  assoc_rsnxe : option bytes;
  ap_wpa_ie : option bytes;
  ap_rsn_ie : option bytes;
  ap_rsnxe : option bytes;
  wpa_state : wpa_states;          (* ctx->get_state(): what ctx->set_state() stored *)
  rekey_timeout : option Z         (* seconds of the pending wpa_sm_rekey_ptk() *)
}.
End State.
#[global] Arguments wpa_sm : clear implicits.
#[export] Instance eta_wpa_sm {E} : Eta (wpa_sm E) := fun s =>
  WpaSm (pm s) (ptk s) (tptk s) (ptk_set s) (tptk_set s) (msg_3_of_4_ok s) (snonce s) (anonce s)
    (renew_snonce s) (rx_replay_counter s) (rx_replay_counter_set s) (request_counter s) (gtk s)
    (gtk_wnm_sleep s) (igtk s) (igtk_wnm_sleep s) (bigtk s) (bigtk_wnm_sleep s) (sm_eapol s)
    (network_ctx s) (allowed_pairwise_cipher s) (proactive_key_caching s) (eap_workaround s)
    (ssid s) (wpa_ptk_rekey s) (wpa_deny_ptk0_rekey s) (p2p s) (wpa_rsc_relaxation s)
    (owe_ptk_workaround s) (beacon_prot s) (ext_key_id s) (use_ext_key_id s) (keyidx_active s)
    (force_kdk_derivation s) (secure_ltf s) (dot11RSNAConfigSATimeout s)
    (dot11RSNA4WayHandshakeFailures s) (proto s) (pairwise_cipher s) (group_cipher s)
    (key_mgmt s) (mgmt_group_cipher s) (rsn_enabled s) (mfp s) (ocv s) (sae_pwe s) (sae_pk s)
    (assoc_wpa_ie s) (assoc_wpa_ie_len s) (assoc_rsnxe s) (ap_wpa_ie s) (ap_rsn_ie s) (ap_rsnxe s) (wpa_state s)
    (rekey_timeout s).

(** ** struct wpa_eapol_key in a frame *)

(* wpa_common.h struct wpa_eapol_key *)
Definition key_type (f : bytes) : Z := byte_at f 4.
Definition key_info (f : bytes) : Z := get_be16 (drop 5 f).
Definition key_length (f : bytes) : bytes := slice 7 2 f.
Definition replay_counter (f : bytes) : bytes := slice 9 WPA_REPLAY_COUNTER_LEN f.
Definition key_nonce (f : bytes) : bytes := slice 17 WPA_NONCE_LEN f.
Definition key_iv (f : bytes) : bytes := slice 49 16 f.
Definition key_rsc (f : bytes) : bytes := slice 65 8 f.
(** [(u8 ✶) (key + 1)]: the Key MIC, the Key Data Length and the Key Data. *)
Definition key_mic (f : bytes) (mic_len : Z) : bytes := slice 81 (Z.to_nat mic_len) f.
Definition key_data_length (f : bytes) (mic_len : Z) : Z := get_be16 (drop (81 + Z.to_nat mic_len) f).
Definition sizeof_ieee802_1x_hdr : Z := 4.
Definition sizeof_wpa_eapol_key : Z := 77.

(* eapol_common.h IEEE802_1X_TYPE_EAPOL_START *)
Definition IEEE802_1X_TYPE_EAPOL_START : Z := 1.
(* eapol_common.h IEEE802_1X_TYPE_EAPOL_KEY *)
Definition IEEE802_1X_TYPE_EAPOL_KEY : Z := 3.
(* eapol_common.h EAPOL_KEY_TYPE_RSN *)
Definition EAPOL_KEY_TYPE_RSN : Z := 2.
(* eapol_common.h EAPOL_KEY_TYPE_WPA *)
Definition EAPOL_KEY_TYPE_WPA : Z := 254.

(** Writing [src] into a buffer at an offset. *)
Definition put_at (off : nat) (src buf : bytes) : bytes := take off buf ++ overwrite (drop off buf) src.

(* utils/common.h is_zero_ether_addr *)
Definition is_zero_ether_addr (a : bytes) : bool := bool_decide (a = replicate ETH_ALEN 0).
(* utils/common.h broadcast_ether_addr *)
Definition broadcast_ether_addr : bytes := replicate ETH_ALEN 255.
(* wpa.c null_rsc @37-37 *)
Definition null_rsc : bytes := replicate 8 0.

(** [counter] with its last byte first. *)
Fixpoint inc_reversed (l : bytes) : bytes :=
  match l with
  | [] => []
  | b :: l => if u8 (b + 1) =? 0 then u8 (b + 1) :: inc_reversed l else u8 (b + 1) :: l
  end.
(* utils/common.c inc_byte_array *)
Definition inc_byte_array (counter : bytes) : bytes := reverse (inc_reversed (reverse counter)).

(** [rsnxe] points behind the element header. *)
(* ieee802_11_common.c ieee802_11_rsnx_capab_len *)
Definition ieee802_11_rsnx_capab_len (rsnxe : bytes) (capab : Z) : bool :=
  if zlen rsnxe =? 0 then false else
  let flen := Z.land (byte_at rsnxe 0) 0x0f + 1 in
  if zlen rsnxe <? flen then false else
  let flen := if 4 <? flen then 4 else flen in
  let capabs := fold_left (fun c i => Z.lor c (Z.shiftl (byte_at rsnxe i) (8 * Z.of_nat i)))
                  (seq 0 (Z.to_nat flen)) 0 in
  Z.testbit capabs capab.

(* ieee802_11_common.c ieee802_11_rsnx_capab *)
Definition ieee802_11_rsnx_capab (rsnxe : option bytes) (capab : Z) : bool :=
  match rsnxe with
  | None => false
  | Some r => ieee802_11_rsnx_capab_len (slice 2 (Z.to_nat (byte_at r 1)) r) capab
  end.
(* ieee802_11_defs.h WLAN_RSNX_CAPAB_SAE_H2E *)
Definition WLAN_RSNX_CAPAB_SAE_H2E : Z := 5.
(* ieee802_11_defs.h WLAN_RSNX_CAPAB_SECURE_LTF *)
Definition WLAN_RSNX_CAPAB_SECURE_LTF : Z := 8.

(** The message in a buffer of wpa_alloc_eapol() whose body is zero apart from
    the fields the supplicant sets. *)
(* wpa_supplicant/wpas_glue.c wpa_alloc_eapol *)
Definition eapol_frame (version type : Z) (body : bytes) : bytes :=
  [version; type] ++ put_be16 (zlen body) ++ body.

Definition eapol_key_body (type info : Z) (len replay nonce : bytes) (mic_len : Z) (data : bytes)
  : bytes :=
  [type] ++ put_be16 info ++ len ++ replay ++ nonce ++ replicate 16 0 ++ replicate 8 0
  ++ replicate 8 0 ++ replicate (Z.to_nat mic_len) 0 ++ put_be16 (zlen data) ++ data.

Section Sm.
Context {E : Type} `{EO : EapolOps E} `{ENV : WpaEnv} `{HM : Hmac}.

(** ** Calls out of the machine *)

(** A question to the environment. *)
Definition ask {A} (f : nat -> A) (s : wpa_sm E) : A * wpa_sm E :=
  (f (calls (pm s)), s <| pm := pm s <| calls := S (calls (pm s)) |> |>).

Definition sm_emit (e : wpa_event) (s : wpa_sm E) : wpa_sm E := s <| pm := emit e (pm s) |>.

(** An operation on the PMKSA cache. *)
Definition on_pm (f : pmksa_st -> option pmksa_st) (s : wpa_sm E) : option (wpa_sm E) :=
  let? p := f (pm s) in Some (s <| pm := p |>).
Definition on_pm' {A} (f : pmksa_st -> option (A * pmksa_st)) (s : wpa_sm E) : option (A * wpa_sm E) :=
  let? (r, p) := f (pm s) in Some (r, s <| pm := p |>).

Definition on_eapol (f : E -> E) (s : wpa_sm E) : wpa_sm E := s <| sm_eapol := f (sm_eapol s) |>.

(* wpa_i.h wpa_sm_set_state *)
Definition wpa_sm_set_state (st : wpa_states) (s : wpa_sm E) : wpa_sm E :=
  s <| wpa_state := st |> ▸ sm_emit (EvState st).

(* wpa_i.h wpa_sm_deauthenticate *)
Definition wpa_sm_deauthenticate (reason : Z) (s : wpa_sm E) : wpa_sm E := sm_emit (EvDeauth reason) s.

(** The driver is given the first [rsc_len] bytes of [rsc]. *)
(* wpa_i.h wpa_sm_set_key *)
Definition wpa_sm_set_key (alg : wpa_alg) (addr : option bytes) (key_idx : Z) (set_tx : bool)
    (rsc key : bytes) (key_flag : Z) (s : wpa_sm E) : bool * wpa_sm E :=
  let '(ok, s) := ask env_set_key s in
  (ok, sm_emit (EvSetKey alg addr key_idx set_tx rsc key key_flag ok) s).

(* wpa_i.h wpa_sm_ether_send *)
Definition wpa_sm_ether_send (dest frame : bytes) (s : wpa_sm E) : Z * wpa_sm E :=
  let '(ret, s) := ask env_send s in (ret, sm_emit (EvEtherSend dest frame) s).

(* wpa_i.h wpa_sm_cancel_auth_timeout *)
Definition wpa_sm_cancel_auth_timeout (s : wpa_sm E) : wpa_sm E := sm_emit EvCancelAuthTimeout s.

(* wpa_i.h wpa_sm_mlme_setprotection *)
Definition wpa_sm_mlme_setprotection (addr : bytes) (rx_tx : bool) (s : wpa_sm E) : wpa_sm E :=
  sm_emit (EvSetProtection addr rx_tx) s.

(* wpa_i.h wpa_sm_set_rekey_offload *)
Definition wpa_sm_set_rekey_offload (s : wpa_sm E) : wpa_sm E :=
  sm_emit (EvRekeyOffload (key_of (kek (ptk s)) (kek_len (ptk s)))
             (key_of (kck (ptk s)) (kck_len (ptk s))) (rx_replay_counter s)) s.

(** Whether the supplicant uses the RSN descriptor and an empty key length. *)
Definition is_rsn (s : wpa_sm E) : bool := (proto s =? WPA_PROTO_RSN) || (proto s =? WPA_PROTO_OSEN).
Definition sm_mic_len (s : wpa_sm E) : Z := wpa_mic_len (key_mgmt s) (pmk_len (pm s)).
Definition sm_pmk (s : wpa_sm E) : bytes := key_of (pmk (pm s)) (pmk_len (pm s)).
Definition key_desc_type (s : wpa_sm E) : Z := if is_rsn s then EAPOL_KEY_TYPE_RSN else EAPOL_KEY_TYPE_WPA.
(** The key length field of a reply to the message [f]. *)
Definition reply_key_length s (f : bytes) : bytes := if is_rsn s then put_be16 0 else key_length f.

(** ** Sending EAPOL-Key messages *)

(** [use_mic]: the caller passed a pointer to the Key MIC field. *)
(* wpa.c wpa_eapol_key_send *)
Definition wpa_eapol_key_send (p : wpa_ptk) (ver : Z) (dest msg : bytes) (use_mic : bool) (s : wpa_sm E)
  : Z * wpa_sm E :=
  let mic_len := sm_mic_len s in
  let '(dest, s) :=
    if is_zero_ether_addr dest && is_zero_ether_addr (bssid (pm s)) then
      let '(r, s) := ask env_get_bssid s in
      match r with
      | Some b => (b, s <| pm := pm s <| bssid := b |> |>)
      | None => (dest, s)
      end
    else (dest, s) in
  if mic_len =? 0 then (-1, s) else                (* AEAD needs CONFIG_FILS *)
  match
    if use_mic then
      if kck_len p =? 0 then None
      else let? mic := wpa_eapol_key_mic (key_of (kck p) (kck_len p)) (key_mgmt s) ver msg in
           Some (put_at 81 mic msg)
    else Some msg
  with
  | None => (-1, s)
  | Some msg =>
      let '(ret, s) := wpa_sm_ether_send dest msg s in
      (ret, on_eapol eapol_notify_tx_eapol_key s)
  end.

(** wpa_sm_alloc_eapol() of a message with the given body. *)
Definition alloc_eapol (type : Z) (body : bytes) (s : wpa_sm E) : option bytes * wpa_sm E :=
  let '(ok, s) := ask env_malloc s in
  (if ok then Some (eapol_frame env_eapol_version type body) else None, s).

(** The reply with the given key info, nonce and key data. *)
Definition send_key_msg (p : wpa_ptk) (ver info : Z) (dest len replay nonce data : bytes)
    (use_mic : bool) (s : wpa_sm E) : Z * wpa_sm E :=
  let '(rbuf, s) := alloc_eapol IEEE802_1X_TYPE_EAPOL_KEY
    (eapol_key_body (key_desc_type s) info len replay nonce (sm_mic_len s) data) s in
  match rbuf with
  | None => (-1, s)
  | Some rbuf => wpa_eapol_key_send p ver dest rbuf use_mic s
  end.

Definition mic_or_encr (s : wpa_sm E) : Z :=
  if sm_mic_len s =? 0 then WPA_KEY_INFO_ENCR_KEY_DATA else WPA_KEY_INFO_MIC.

(* wpa.c wpa_supplicant_send_2_of_4 *)
Definition wpa_supplicant_send_2_of_4 (dst f : bytes) (ver : Z) (nonce wpa_ie : bytes) (p : wpa_ptk) (s : wpa_sm E)
  : Z * wpa_sm E :=
  send_key_msg p ver (Z.lor (Z.lor ver WPA_KEY_INFO_KEY_TYPE) (mic_or_encr s)) dst
    (reply_key_length s f) (replay_counter f) nonce wpa_ie true s.

(* wpa.c wpa_supplicant_send_4_of_4 *)
Definition wpa_supplicant_send_4_of_4 (dst f : bytes) (ver info : Z) (p : wpa_ptk) (s : wpa_sm E)
  : Z * wpa_sm E :=
  let info := Z.lor (Z.lor (Z.land info WPA_KEY_INFO_SECURE) (Z.lor ver WPA_KEY_INFO_KEY_TYPE))
                (mic_or_encr s) in
  send_key_msg p ver info dst (reply_key_length s f) (replay_counter f)
    (replicate WPA_NONCE_LEN 0) [] true s.

(* wpa.c wpa_supplicant_send_2_of_2 *)
Definition wpa_supplicant_send_2_of_2 (f : bytes) (ver info : Z) (s : wpa_sm E) : Z * wpa_sm E :=
  let info := Z.lor (Z.lor (Z.land info WPA_KEY_INFO_KEY_INDEX_MASK) (Z.lor ver WPA_KEY_INFO_SECURE))
                (mic_or_encr s) in
  send_key_msg (ptk s) ver info (bssid (pm s)) (reply_key_length s f) (replay_counter f)
    (replicate WPA_NONCE_LEN 0) [] true s.

(** [flag b m]: [if (b) key_info |= m]. *)
Definition flag (b : bool) (m : Z) : Z := if b then m else 0.

(* wpa.c wpa_sm_key_request @196-204 *)
Definition key_request_ver (s : wpa_sm E) : Z :=
  if wpa_use_akm_defined (key_mgmt s) then WPA_KEY_INFO_TYPE_AKM_DEFINED
  else if wpa_key_mgmt_ft (key_mgmt s) || wpa_key_mgmt_sha256 (key_mgmt s)
  then WPA_KEY_INFO_TYPE_AES_128_CMAC
  else if negb (pairwise_cipher s =? WPA_CIPHER_TKIP) then WPA_KEY_INFO_TYPE_HMAC_SHA1_AES
  else WPA_KEY_INFO_TYPE_HMAC_MD5_RC4.

(* wpa.c wpa_sm_key_request *)
Definition wpa_sm_key_request (error pairwise : bool) (s : wpa_sm E) : wpa_sm E :=
  if pairwise && wpa_deny_ptk0_rekey s && negb (use_ext_key_id s)
     && bool_decide (wpa_state s = WPA_COMPLETED)
  then sm_emit EvReconnect s else
  let ver := key_request_ver s in
  let '(r, s) := ask env_get_bssid s in
  match r with
  | None => s
  | Some dest =>
      let mic := ptk_set s && negb (sm_mic_len s =? 0) in
      let info := fold_left Z.lor [ver; flag (ptk_set s) WPA_KEY_INFO_SECURE; flag mic WPA_KEY_INFO_MIC;
                    flag error WPA_KEY_INFO_ERROR; flag pairwise WPA_KEY_INFO_KEY_TYPE]
                    WPA_KEY_INFO_REQUEST in
      let body := eapol_key_body (key_desc_type s) info (put_be16 0) (request_counter s)
                    (replicate WPA_NONCE_LEN 0) (sm_mic_len s) [] in
      let '(rbuf, s) := alloc_eapol IEEE802_1X_TYPE_EAPOL_KEY body s in
      match rbuf with
      | None => s
      | Some rbuf =>
          let s := s <| request_counter := inc_byte_array (request_counter s) |> in
          snd (wpa_eapol_key_send (ptk s) ver dest rbuf mic s)
      end
  end.

(* wpa.c wpa_sm_rekey_ptk *)
Definition wpa_sm_rekey_ptk (s : wpa_sm E) : wpa_sm E :=
  wpa_sm_key_request false true (s <| rekey_timeout := None |>).

(** ** The PMK *)

(* wpa.c wpa_sm_set_pmk_from_pmksa *)
Definition wpa_sm_set_pmk_from_pmksa (s : wpa_sm E) : option (wpa_sm E) :=
  match cur_pmksa (pm s) with
  | Some c =>
      let? e := heap (pm s) !! c in
      Some (s <| pm := pm s <| pmk_len := e_pmk_len e |>
                            <| pmk := overwrite (pmk (pm s)) (entry_key e) |> |>)
  | None =>
      Some (s <| pm := pm s <| pmk_len := 0 |> <| pmk := replicate (Z.to_nat PMK_LEN_MAX) 0 |> |>)
  end.

(* wpa.c wpa_supplicant_key_mgmt_set_pmk *)
Definition wpa_supplicant_key_mgmt_set_pmk (s : wpa_sm E) : wpa_sm E := sm_emit (EvKeyMgmtPmk (sm_pmk s)) s.
End Sm.
