(* ===== verification/WpaHandshake.v ===== *)
(** * The 4-way and group key handshakes (src/rsn_supp/wpa.c)

    wpa_sm_rx_eapol() and everything it calls.  A C function with an [int] result
    returns it with the new state; [None] is an access to a PMKSA entry that is
    not allocated.  [f] is the received frame from the EAPOL header on, cut to its
    length field. *)

From stdpp Require Import gmap.
From S2P Require Import Prelude WpaDefs WpaCommon Crypto Rc4 AesWrap RsnIe KeyData WpaTypes Pmksa WpaSm.

(* wpa.c struct wpa_gtk_data *)
Record wpa_gtk_data := GtkData {
  gd_alg : wpa_alg;
  gd_tx : bool;
  gd_key_rsc_len : nat;
  gd_keyidx : Z;
  gd_gtk : bytes;                  (* 32 bytes *)
  gd_gtk_len : Z
}.

Section Handshake.
Context {E : Type} `{EO : EapolOps E} `{ENV : WpaEnv} `{HM : Hmac} `{AES : AesCipher}.

(** ** Message 1 of 4 *)

(** pmksa_cache_add() with the parameters of [sm], for the authenticator [aa]. *)
Definition sm_pmksa_add (key : bytes) (pmkid kck : option bytes) (aa : bytes) (s : wpa_sm E)
  : option (option nat * wpa_sm E) :=
  on_pm' (pmksa_cache_add key pmkid kck aa (own_addr (pm s)) (network_ctx s) (key_mgmt s) None) s.

Definition set_cur (r : option nat) (s : wpa_sm E) : wpa_sm E := s <| pm := pm s <| cur_pmksa := r |> |>.

(** The PMK of the EAPOL state machines: the result of eapol_sm_get_key() and
    the length that was asked for last. *)
(* wpa.c wpa_supplicant_get_pmk @322-336 *)
Definition get_eapol_pmk (s : wpa_sm E) : Z * Z * wpa_sm E :=
  let len := if wpa_key_mgmt_sha384 (key_mgmt s) then PMK_LEN_SUITE_B_192 else PMK_LEN in
  let '(res, buf) := eapol_get_key (sm_eapol s) (pmk (pm s)) len in
  let s := s <| pm := pm s <| pmk := buf |> |> in
  if negb (res =? 0) && (len =? PMK_LEN) then
    let '(res, buf) := eapol_get_key (sm_eapol s) (pmk (pm s)) 16 in
    (res, 16, s <| pm := pm s <| pmk := buf |> |>)
  else (res, len, s).

(** The PMK is there: put it into the cache.  The result is
    wpa_supplicant_get_pmk()'s return value -1, or the new [abort_cached]. *)
(* wpa.c wpa_supplicant_get_pmk @383-417 *)
Definition use_eapol_pmk (src : bytes) (pmkid : option bytes) (len : Z) (abort_cached : bool) (s : wpa_sm E)
  : option (option bool * wpa_sm E) :=
  let s := s <| pm := pm s <| pmk_len := len |> |> in
  let s := wpa_supplicant_key_mgmt_set_pmk s in
  let? (sa, s) :=
    if (proto s =? WPA_PROTO_RSN) && negb (wpa_key_mgmt_suite_b (key_mgmt s))
       && negb (wpa_key_mgmt_ft (key_mgmt s))
    then sm_pmksa_add (key_of (pmk (pm s)) len) None None src s
    else Some (None, s) in
  let no_cur := negb (bool_decide (is_Some (cur_pmksa (pm s)))) in
  let? found :=
    if no_cur && bool_decide (is_Some pmkid)
    then pmksa_cache_get (Some src) pmkid 0 0 (pm s) else Some None in
  if bool_decide (is_Some found) then Some (Some false, if no_cur then set_cur sa s else s)
  else if bool_decide (is_Some sa) && no_cur && bool_decide (is_Some pmkid) then Some (None, s)
  else Some (Some abort_cached, if no_cur then set_cur sa s else s).

(** No PMK: give up, or abort the PMKSA caching attempt. *)
(* wpa.c wpa_supplicant_get_pmk @423-437 *)
Definition no_eapol_pmk (abort_cached : bool) (s : wpa_sm E) : option bool * wpa_sm E :=
  if bool_decide (is_Some (cur_pmksa (pm s))) then (Some true, set_cur None s)
  else if negb abort_cached then (None, s) else (Some abort_cached, s).

(** "trigger full EAP authentication" *)
(* wpa.c wpa_supplicant_get_pmk @444-465 *)
Definition trigger_full_eap (s : wpa_sm E) : Z * wpa_sm E :=
  let '(buf, s) := alloc_eapol IEEE802_1X_TYPE_EAPOL_START [] s in
  match buf with
  | None => (-1, s)
  | Some buf =>
      let s := on_eapol (eapol_notify_eap_fail true) s in
      let s := on_eapol (eapol_notify_eap_fail false) s in
      (-2, snd (wpa_sm_ether_send (bssid (pm s)) buf s))
  end.

(** Look for the entry of the PMKID if there is no current one. *)
(* wpa.c wpa_supplicant_get_pmk @277-292 *)
Definition find_pmkid (src : bytes) (pmkid : option bytes) (s : wpa_sm E) : option (bool * wpa_sm E) :=
  if bool_decide (is_Some pmkid) && negb (bool_decide (is_Some (cur_pmksa (pm s)))) then
    let? r := pmksa_cache_get (Some src) pmkid 0 0 (pm s) in
    Some (negb (bool_decide (is_Some r)), set_cur r s)
  else Some (false, s).

(** Whether the PMKID is the one of the current entry. *)
Definition pmkid_matches (pmkid : option bytes) (s : wpa_sm E) : option bool :=
  match pmkid, cur_pmksa (pm s) with
  | Some id, Some c => let? e := heap (pm s) !! c in Some (bool_decide (id = e_pmkid e))
  | _, _ => Some false
  end.

(* wpa.c wpa_supplicant_get_pmk *)
Definition wpa_supplicant_get_pmk (src : bytes) (pmkid : option bytes) (s : wpa_sm E)
  : option (Z * wpa_sm E) :=
  let? (abort_cached, s) := find_pmkid src pmkid s in
  let? matched := pmkid_matches pmkid s in
  let? (r, s) :=
    if matched then
      let? s := wpa_sm_set_pmk_from_pmksa s in
      Some (Some abort_cached, on_eapol eapol_notify_cached s)
    else if wpa_key_mgmt_wpa_ieee8021x (key_mgmt s) then
      let '(res, len, s) := get_eapol_pmk s in
      if res =? 0 then use_eapol_pmk src pmkid len abort_cached s
      else Some (no_eapol_pmk abort_cached s)
    else Some (Some abort_cached, s) in
  match r with
  | None => Some (-1, s)
  | Some abort_cached =>
      if abort_cached && wpa_key_mgmt_wpa_ieee8021x (key_mgmt s)
         && negb (wpa_key_mgmt_suite_b (key_mgmt s)) && negb (wpa_key_mgmt_ft (key_mgmt s))
         && negb (key_mgmt s =? WPA_KEY_MGMT_OSEN)
      then Some (trigger_full_eap s)
      else Some (0, s)
  end.

(* wpa.c wpa_derive_ptk @611-616 *)
Definition derive_kdk_len (s : wpa_sm E) : Z :=
  if force_kdk_derivation s
     || (secure_ltf s && ieee802_11_rsnx_capab (ap_rsnxe s) WLAN_RSNX_CAPAB_SECURE_LTF)
  then Z.of_nat WPA_KDK_MAX_LEN else 0.

(* wpa.c wpa_derive_ptk *)
Definition wpa_derive_ptk (f : bytes) (p : wpa_ptk) (s : wpa_sm E) : bool * wpa_ptk :=
  wpa_pmk_to_ptk (sm_pmk s) pairwise_label (own_addr (pm s)) (bssid (pm s)) (snonce s)
    (key_nonce f) p (key_mgmt s) (pairwise_cipher s) [] (derive_kdk_len s).

(** The Michael MIC keys of TKIP for the other direction. *)
(* wpa.c wpa_supplicant_process_1_of_4 @741-746 *)
Definition swap_mic_keys (t : bytes) : bytes :=
  take 16 t ++ slice 24 8 t ++ slice 16 8 t ++ drop 32 t.

(** [os_memcpy(kde_buf, sm->assoc_wpa_ie, sm->assoc_wpa_ie_len)]; [None] is a read through
    NULL or behind the array. *)
(* wpa.c wpa_supplicant_process_1_of_4 @750-760 *)
Definition read_assoc_ie (s : wpa_sm E) : option bytes :=
  let ie := default [] (assoc_wpa_ie s) in
  if zlen ie <? assoc_wpa_ie_len s then None else Some (take (Z.to_nat (assoc_wpa_ie_len s)) ie).

(** [false]: [goto failed]; [None]: the read of the element above fails. *)
(* wpa.c wpa_supplicant_process_1_of_4 @724-836 *)
Definition answer_1_of_4 (f : bytes) (ver : Z) (s : wpa_sm E) : option (bool * wpa_sm E) :=
  let '(renewed, s) :=
    if renew_snonce s then
      let '(r, s) := ask env_random s in
      match r with
      | None => (false, s)
      | Some n => (true, s <| snonce := n |> <| renew_snonce := false |> ▸ sm_emit (EvRandom n))
      end
    else (true, s) in
  if negb renewed then Some (false, s) else
  let '(ok, p) := wpa_derive_ptk f (tptk s) s in
  let s := s <| tptk := p |> in
  if negb ok then Some (false, s) else
  let s := if pairwise_cipher s =? WPA_CIPHER_TKIP
           then s <| tptk := tptk s <| tk := swap_mic_keys (tk (tptk s)) |> |> else s in
  let s := s <| tptk_set := true |> in
  let '(ok, s) := ask env_malloc s in
  if negb ok then Some (false, s) else
  let? ie := read_assoc_ie s in
  let kde := ie ++ default [] (assoc_rsnxe s) in
  let '(ret, s) := wpa_supplicant_send_2_of_4 (bssid (pm s)) f ver (snonce s) kde (tptk s) s in
  Some (if ret <? 0 then (false, s) else (true, s <| anonce := key_nonce f |>)).

(* wpa.c wpa_supplicant_process_1_of_4 *)
Definition wpa_supplicant_process_1_of_4 (src f : bytes) (ver : Z) (key_data : bytes) (s : wpa_sm E)
  : option (wpa_sm E) :=
  let '(ctx, s) := ask env_network_ctx s in
  if ctx =? 0 then Some s else
  if wpa_deny_ptk0_rekey s && negb (use_ext_key_id s) && bool_decide (wpa_state s = WPA_COMPLETED)
  then Some (sm_emit EvReconnect s) else
  let s := wpa_sm_set_state WPA_4WAY_HANDSHAKE s in
  let '(res, ie) := if is_rsn s then wpa_supplicant_parse_ies key_data else (0, ie_zero) in
  if res <? 0 then Some (wpa_sm_deauthenticate WLAN_REASON_UNSPECIFIED s) else
  let pmkid := (fun off => slice off (Z.to_nat PMKID_LEN) key_data) <$> p_pmkid ie in
  let? (res, s) := wpa_supplicant_get_pmk src pmkid s in
  if res =? -2 then Some s else
  if negb (res =? 0) then Some (wpa_sm_deauthenticate WLAN_REASON_UNSPECIFIED s) else
  let? (ok, s) := answer_1_of_4 f ver s in
  Some (if ok then s else wpa_sm_deauthenticate WLAN_REASON_UNSPECIFIED s).

(** ** Installing keys *)

(* wpa.c wpa_supplicant_key_neg_complete *)
Definition wpa_supplicant_key_neg_complete (addr : bytes) (secure : bool) (s : wpa_sm E) : option (wpa_sm E) :=
  let s := wpa_sm_cancel_auth_timeout s in
  let s := wpa_sm_set_state WPA_COMPLETED s in
  let s :=
    if secure then
      let s := wpa_sm_mlme_setprotection addr true s in
      let s := on_eapol (eapol_notify_portValid true) s in
      if wpa_key_mgmt_wpa_psk (key_mgmt s) || (key_mgmt s =? WPA_KEY_MGMT_DPP)
         || (key_mgmt s =? WPA_KEY_MGMT_OWE)
      then on_eapol (eapol_notify_eap_success true) s else s
    else s in
  match cur_pmksa (pm s) with
  | None => Some s
  | Some c =>
      let? e := heap (pm s) !! c in
      if e_opportunistic e
      then on_pm (update_entry c (fun e => e <| e_opportunistic := false |>)) s
      else Some s
  end.

(* wpa.c wpa_supplicant_install_ptk *)
Definition wpa_supplicant_install_ptk (f : bytes) (key_flag : Z) (s : wpa_sm E) : Z * wpa_sm E :=
  if installed (ptk s) then (0, s) else
  if pairwise_cipher s =? WPA_CIPHER_NONE then (0, s) else
  if negb (wpa_cipher_valid_pairwise (pairwise_cipher s)) then (-1, s) else
  let alg := wpa_cipher_to_alg (pairwise_cipher s) in
  let keylen := wpa_cipher_key_len (pairwise_cipher s) in
  if (keylen <=? 0) || negb (keylen =? tk_len (ptk s)) then (-1, s) else
  let rsclen := wpa_cipher_rsc_len (pairwise_cipher s) in
  let rsc := if is_rsn s then null_rsc else key_rsc f in
  let '(ok, s) := wpa_sm_set_key alg (Some (bssid (pm s))) (keyidx_active s) true (take rsclen rsc)
                    (key_of (tk (ptk s)) keylen) (Z.lor KEY_FLAG_PAIRWISE key_flag) s in
  if negb ok then (-1, s) else
  let s := sm_emit (EvStorePtk (bssid (pm s)) (pairwise_cipher s)
                      (dot11RSNAConfigPMKLifetime (pm s)) (key_of (tk (ptk s)) keylen)) s in
  let s := s <| ptk := ptk s <| tk := replicate WPA_TK_MAX_LEN 0 |> <| tk_len := 0 |>
                             <| installed := true |> |> in
  (0, if negb (wpa_ptk_rekey s =? 0) then s <| rekey_timeout := Some (wpa_ptk_rekey s) |> else s).

(* wpa.c wpa_supplicant_activate_ptk *)
Definition wpa_supplicant_activate_ptk (s : wpa_sm E) : Z * wpa_sm E :=
  let '(ok, s) := wpa_sm_set_key WPA_ALG_NONE (Some (bssid (pm s))) (keyidx_active s) false [] []
                    KEY_FLAG_PAIRWISE_RX_TX_MODIFY s in
  (if ok then 0 else -1, s).

(** The key RSC length and algorithm, or nothing when the key does not fit. *)
(* wpa.c wpa_supplicant_check_group_cipher *)
Definition wpa_supplicant_check_group_cipher (cipher keylen maxkeylen : Z) : option (nat * wpa_alg) :=
  let alg := wpa_cipher_to_alg cipher in
  if bool_decide (alg = WPA_ALG_NONE) then None else
  let klen := wpa_cipher_key_len cipher in
  if negb (keylen =? klen) || (maxkeylen <? klen) then None
  else Some (wpa_cipher_rsc_len cipher, alg).

(** [len == gtk_len && os_memcmp(...) == 0] *)
Definition same_gtk (g : wpa_gtk) (key : bytes) (len : Z) : bool :=
  (gtk_key_len g =? len) && bool_decide (key_of (gtk_key g) len = key_of key len).

(** The key array after [os_memcpy(gtk, key, len)]. *)
Definition store_gtk (g : wpa_gtk) (key : bytes) (len : Z) : wpa_gtk :=
  WpaGtk (overwrite (gtk_key g) (key_of key len)) len.

(* wpa.c wpa_supplicant_install_gtk *)
Definition wpa_supplicant_install_gtk (gd : wpa_gtk_data) (rsc : bytes) (wnm_sleep : bool) (s : wpa_sm E)
  : Z * wpa_sm E :=
  if same_gtk (gtk s) (gd_gtk gd) (gd_gtk_len gd) || same_gtk (gtk_wnm_sleep s) (gd_gtk gd) (gd_gtk_len gd)
  then (0, s) else
  let key := if group_cipher s =? WPA_CIPHER_TKIP
             then take 16 (gd_gtk gd) ++ slice 24 8 (gd_gtk gd) ++ slice 16 8 (gd_gtk gd)
             else gd_gtk gd in
  let rsc := take (gd_key_rsc_len gd) rsc in
  let key := key_of key (gd_gtk_len gd) in
  let '(ok, s) :=
    if pairwise_cipher s =? WPA_CIPHER_NONE
    then wpa_sm_set_key (gd_alg gd) None (gd_keyidx gd) true rsc key KEY_FLAG_GROUP_RX_TX_DEFAULT s
    else wpa_sm_set_key (gd_alg gd) (Some broadcast_ether_addr) (gd_keyidx gd) (gd_tx gd) rsc key
           KEY_FLAG_GROUP_RX s in
  if negb ok then (-1, s) else
  (0, if wnm_sleep
      then s <| gtk_wnm_sleep := store_gtk (gtk_wnm_sleep s) (gd_gtk gd) (gd_gtk_len gd) |>
      else s <| gtk := store_gtk (gtk s) (gd_gtk gd) (gd_gtk_len gd) |>).

(* wpa.c wpa_supplicant_gtk_tx_bit_workaround *)
Definition wpa_supplicant_gtk_tx_bit_workaround (tx : bool) (s : wpa_sm E) : bool :=
  if tx && negb (pairwise_cipher s =? WPA_CIPHER_NONE) then false else tx.

(* wpa.c wpa_supplicant_rsc_relaxation *)
Definition rsc_relaxation (rsc : bytes) (s : wpa_sm E) : bool :=
  wpa_rsc_relaxation s && bool_decide (wpa_cipher_rsc_len (group_cipher s) = 6%nat)
  && ((negb (byte_at rsc 5 =? 0) && (byte_at rsc 0 =? 0)) || negb (byte_at rsc 6 =? 0)
      || negb (byte_at rsc 7 =? 0)).

Definition group_rsc (f : bytes) (s : wpa_sm E) : bytes := if rsc_relaxation (key_rsc f) s then null_rsc else key_rsc f.

(** The GTK KDE from the Key ID byte on. *)
(* wpa.c wpa_supplicant_pairwise_gtk *)
Definition wpa_supplicant_pairwise_gtk (f kde : bytes) (s : wpa_sm E) : Z * wpa_sm E :=
  if (zlen kde <? 2) || (32 <? zlen kde - 2) then (-1, s) else
  let key := drop 2 kde in
  if group_cipher s =? WPA_CIPHER_GTK_NOT_USED then (0, s) else
  match wpa_supplicant_check_group_cipher (group_cipher s) (zlen key) (zlen key) with
  | None => (-1, s)
  | Some (rsc_len, alg) =>
      let gd := GtkData alg (wpa_supplicant_gtk_tx_bit_workaround (Z.testbit (byte_at kde 0) 2) s)
                  rsc_len (Z.land (byte_at kde 0) 0x3) (overwrite (replicate 32 0) key) (zlen key) in
      let '(ret, s) := wpa_supplicant_install_gtk gd (group_rsc f s) false s in
      (if ret =? 0 then 0 else -1, s)
  end.

(** A struct wpa_igtk_kde or wpa_bigtk_kde: Key ID, PN and key. *)
(* wpa_common.h struct wpa_igtk_kde *)
Definition igtk_keyid (kde : bytes) : Z := get_le16 kde.
Definition igtk_pn (kde : bytes) : bytes := slice 2 6 kde.
Definition igtk_key (kde : bytes) : bytes := drop 8 kde.

(* wpa.c wpa_supplicant_install_igtk *)
Definition wpa_supplicant_install_igtk (kde : bytes) (wnm_sleep : bool) (s : wpa_sm E) : Z * wpa_sm E :=
  let len := wpa_cipher_key_len (mgmt_group_cipher s) in
  let keyidx := igtk_keyid kde in
  if same_gtk (igtk s) (igtk_key kde) len || same_gtk (igtk_wnm_sleep s) (igtk_key kde) len
  then (0, s) else
  if 4095 <? keyidx then (-1, s) else
  let '(ok, s) := wpa_sm_set_key (wpa_cipher_to_alg (mgmt_group_cipher s)) (Some broadcast_ether_addr)
                    keyidx false (igtk_pn kde) (key_of (igtk_key kde) len) KEY_FLAG_GROUP_RX s in
  if negb ok && negb ((keyidx =? 0x0400) || (keyidx =? 0x0500)) then (-1, s) else
  (0, if wnm_sleep then s <| igtk_wnm_sleep := store_gtk (igtk_wnm_sleep s) (igtk_key kde) len |>
      else s <| igtk := store_gtk (igtk s) (igtk_key kde) len |>).

(* wpa.c wpa_supplicant_install_bigtk *)
Definition wpa_supplicant_install_bigtk (kde : bytes) (wnm_sleep : bool) (s : wpa_sm E) : Z * wpa_sm E :=
  let len := wpa_cipher_key_len (mgmt_group_cipher s) in
  let keyidx := igtk_keyid kde in
  if same_gtk (bigtk s) (igtk_key kde) len || same_gtk (bigtk_wnm_sleep s) (igtk_key kde) len
  then (0, s) else
  if (keyidx <? 6) || (7 <? keyidx) then (-1, s) else
  let '(ok, s) := wpa_sm_set_key (wpa_cipher_to_alg (mgmt_group_cipher s)) (Some broadcast_ether_addr)
                    keyidx false (igtk_pn kde) (key_of (igtk_key kde) len) KEY_FLAG_GROUP_RX s in
  if negb ok then (-1, s) else
  (0, if wnm_sleep then s <| bigtk_wnm_sleep := store_gtk (bigtk_wnm_sleep s) (igtk_key kde) len |>
      else s <| bigtk := store_gtk (bigtk s) (igtk_key kde) len |>).

(** [ie] is parsed from [key_data]. *)
(* wpa.c ieee80211w_set_keys *)
Definition ieee80211w_set_keys (key_data : bytes) (ie : wpa_eapol_ie_parse) (s : wpa_sm E) : Z * wpa_sm E :=
  if negb (wpa_cipher_valid_mgmt_group (mgmt_group_cipher s))
     || (mgmt_group_cipher s =? WPA_CIPHER_GTK_NOT_USED) then (0, s) else
  let len := wpa_cipher_key_len (mgmt_group_cipher s) in
  let '(ret, s) :=
    match ref_bytes key_data (p_igtk ie) with
    | None => (0, s)
    | Some kde => if negb (zlen kde =? WPA_IGTK_KDE_PREFIX_LEN + len) then (-1, s)
                  else wpa_supplicant_install_igtk kde false s
    end in
  if ret <? 0 then (-1, s) else
  match ref_bytes key_data (p_bigtk ie) with
  | None => (0, s)
  | Some kde =>
      if negb (beacon_prot s) then (0, s) else
      if negb (zlen kde =? WPA_BIGTK_KDE_PREFIX_LEN + len) then (-1, s) else
      let '(ret, s) := wpa_supplicant_install_bigtk kde false s in
      (if ret <? 0 then -1 else 0, s)
  end.

(** ** Message 3 of 4 *)

(* wpa.c wpa_report_ie_mismatch *)
Definition wpa_report_ie_mismatch (s : wpa_sm E) : wpa_sm E :=
  wpa_sm_deauthenticate WLAN_REASON_IE_IN_4WAY_DIFFERS s.

(** ctx->get_beacon_ie(), which calls wpa_sm_set_ap_wpa_ie(), _rsn_ie() and _rsnxe(). *)
(* wpa_i.h wpa_sm_get_beacon_ie *)
Definition wpa_sm_get_beacon_ie (s : wpa_sm E) : Z * wpa_sm E :=
  let '((ret, ies), s) := ask env_beacon_ie s in
  (ret, match ies with
        | None => s
        | Some (wpa, rsn, rsnxe) =>
            s <| ap_wpa_ie := wpa |> <| ap_rsn_ie := rsn |> <| ap_rsnxe := rsnxe |>
        end).

(** Two elements that are both there and differ. *)
Definition ie_differs (a b : option bytes) : bool :=
  match a, b with Some a, Some b => negb (bool_decide (a = b)) | _, _ => false end.

(** The arguments are the elements of the message. *)
(* wpa.c wpa_supplicant_validate_ie *)
Definition wpa_supplicant_validate_ie (wpa_ie rsn_ie rsnxe : option bytes) (s : wpa_sm E)
  : Z * wpa_sm E :=
  let '(ret, s) := if bool_decide (ap_wpa_ie s = None) && bool_decide (ap_rsn_ie s = None)
                   then wpa_sm_get_beacon_ie s else (0, s) in
  if ret <? 0 then (-1, s) else
  if bool_decide (wpa_ie = None) && bool_decide (rsn_ie = None)
     && (bool_decide (is_Some (ap_wpa_ie s)) || bool_decide (is_Some (ap_rsn_ie s)))
  then (-1, wpa_report_ie_mismatch s) else
  if ie_differs wpa_ie (ap_wpa_ie s)
     || (bool_decide (is_Some rsn_ie) && bool_decide (is_Some (ap_rsn_ie s))
         && negb (wpa_compare_rsn_ie (ap_rsn_ie s) rsn_ie =? 0))
  then (-1, wpa_report_ie_mismatch s) else
  if (proto s =? WPA_PROTO_WPA) && bool_decide (is_Some rsn_ie)
     && bool_decide (ap_rsn_ie s = None) && rsn_enabled s
  then (-1, wpa_report_ie_mismatch s) else
  if (proto s =? WPA_PROTO_RSN) && negb (bool_decide (ap_rsnxe s = rsnxe))
  then (-1, wpa_sm_deauthenticate WLAN_REASON_IE_IN_4WAY_DIFFERS s) else (0, s).

(** [key_id] is the first byte of the Key ID KDE. *)
(* wpa.c wpa_handle_ext_key_id *)
Definition wpa_handle_ext_key_id (key_id : option Z) (s : wpa_sm E) : Z * wpa_sm E :=
  let id := Z.land (default 0 key_id) 0x03 in
  if ext_key_id s then
    if bool_decide (key_id = None)
    then (if use_ext_key_id s then -1 else 0, s <| keyidx_active := 0 |>)
    else if 1 <? id then (-1, s)
    else (0, s <| keyidx_active := id |> <| use_ext_key_id := true |>)
  else if negb (id =? 0) then (-1, s)
  else (0, s <| keyidx_active := 0 |> <| use_ext_key_id := false |>).

(** The checks of message 3/4 that come before any reply. *)
(* wpa.c wpa_supplicant_process_3_of_4 @1674-1717 *)
Definition check_3_of_4 (f key_data : bytes) (ie : wpa_eapol_ie_parse) (s : wpa_sm E)
  : bool * wpa_sm E :=
  let encr := has (key_info f) WPA_KEY_INFO_ENCR_KEY_DATA in
  if bool_decide (is_Some (p_gtk ie).1) && negb encr then (false, s) else
  if bool_decide (is_Some (p_igtk ie).1) && negb encr then (false, s) else
  if bool_decide (is_Some (p_igtk ie).1) && negb (mgmt_group_cipher s =? WPA_CIPHER_GTK_NOT_USED)
     && wpa_cipher_valid_mgmt_group (mgmt_group_cipher s)
     && negb ((p_igtk ie).2 =? WPA_IGTK_KDE_PREFIX_LEN + wpa_cipher_key_len (mgmt_group_cipher s))
  then (false, s) else
  let '(ret, s) := wpa_supplicant_validate_ie (ref_bytes key_data (p_wpa_ie ie))
                     (ref_bytes key_data (p_rsn_ie ie)) (ref_bytes key_data (p_rsnxe ie)) s in
  if ret <? 0 then (false, s) else
  let '(ret, s) := wpa_handle_ext_key_id (byte_at key_data <$> p_key_id ie) s in
  if negb (ret =? 0) then (false, s) else
  if negb (bool_decide (anonce s = key_nonce f)) then (false, s) else
  (get_be16 (key_length f) =? wpa_cipher_key_len (pairwise_cipher s), s).

(** Message 4/4 and the pairwise key. *)
(* wpa.c wpa_supplicant_process_3_of_4 @1762-1794 *)
Definition answer_3_of_4 (f : bytes) (ver : Z) (s : wpa_sm E) : bool * wpa_sm E :=
  let info := key_info f in
  let '(ret, s) := if use_ext_key_id s then wpa_supplicant_install_ptk f KEY_FLAG_RX s else (0, s) in
  if negb (ret =? 0) then (false, s) else
  let '(ret, s) := wpa_supplicant_send_4_of_4 (bssid (pm s)) f ver info (ptk s) s in
  if ret <? 0 then (false, s) else
  let s := s <| renew_snonce := true |> in
  let '(ret, s) :=
    if has info WPA_KEY_INFO_INSTALL then
      if use_ext_key_id s then wpa_supplicant_activate_ptk s
      else wpa_supplicant_install_ptk f KEY_FLAG_RX_TX s
    else (0, s) in
  if negb (ret =? 0) then (false, s) else
  let s :=
    if has info WPA_KEY_INFO_SECURE
    then on_eapol (eapol_notify_portValid true) (wpa_sm_mlme_setprotection (bssid (pm s)) false s)
    else s in
  (true, wpa_sm_set_state WPA_GROUP_HANDSHAKE s).

(** The group keys of message 3/4. *)
(* wpa.c wpa_supplicant_process_3_of_4 @1796-1814 *)
Definition group_keys_3_of_4 (f key_data : bytes) (ie : wpa_eapol_ie_parse) (s : wpa_sm E)
  : bool * wpa_sm E :=
  let '(ret, s) :=
    if group_cipher s =? WPA_CIPHER_GTK_NOT_USED then (0, s) else
    match ref_bytes key_data (p_gtk ie) with
    | None => (if proto s =? WPA_PROTO_RSN then -1 else 0, s)
    | Some kde => wpa_supplicant_pairwise_gtk f kde s
    end in
  if ret <? 0 then (false, s) else
  let '(ret, s) := ieee80211w_set_keys key_data ie s in
  (negb (ret <? 0), s).

(** What follows when every key is in place. *)
(* wpa.c wpa_supplicant_process_3_of_4 @1816-1842 *)
Definition complete_3_of_4 (f key_data : bytes) (ie : wpa_eapol_ie_parse) (s : wpa_sm E)
  : option (wpa_sm E) :=
  let has_gtk := bool_decide (is_Some (p_gtk ie).1) in
  let? s := if (group_cipher s =? WPA_CIPHER_GTK_NOT_USED) || has_gtk
            then wpa_supplicant_key_neg_complete (bssid (pm s))
                   (has (key_info f) WPA_KEY_INFO_SECURE) s
            else Some s in
  let s := if has_gtk then wpa_sm_set_rekey_offload s else s in
  let? s :=
    if (proto s =? WPA_PROTO_RSN) && wpa_key_mgmt_suite_b (key_mgmt s)
       && bool_decide (cur_pmksa (pm s) = None)
    then
      let? (sa, s) := sm_pmksa_add (sm_pmk s) None (Some (key_of (kck (ptk s)) (kck_len (ptk s))))
                        (bssid (pm s)) s in
      Some (if bool_decide (cur_pmksa (pm s) = None) then set_cur sa s else s)
    else Some s in
  let s := match (p_transition_disable ie).1 with
           | Some off => sm_emit (EvTransitionDisable (byte_at key_data off)) s
           | None => s
           end in
  Some (s <| msg_3_of_4_ok := true |>).

(* wpa.c wpa_supplicant_process_3_of_4 *)
Definition wpa_supplicant_process_3_of_4 (f : bytes) (ver : Z) (key_data : bytes) (s : wpa_sm E)
  : option (wpa_sm E) :=
  let failed s := Some (wpa_sm_deauthenticate WLAN_REASON_UNSPECIFIED s) in
  let s := wpa_sm_set_state WPA_4WAY_HANDSHAKE s in
  let '(res, ie) := wpa_supplicant_parse_ies key_data in
  if res <? 0 then failed s else
  let '(ok, s) := check_3_of_4 f key_data ie s in
  if negb ok then failed s else
  let '(ok, s) := answer_3_of_4 f ver s in
  if negb ok then failed s else
  let '(ok, s) := group_keys_3_of_4 f key_data ie s in
  if negb ok then failed s else
  complete_3_of_4 f key_data ie s.

(** ** Group key handshake *)

(** The GTK of an RSN message; nothing is an error. *)
(* wpa.c wpa_supplicant_process_1_of_2_rsn *)
Definition wpa_supplicant_process_1_of_2_rsn (f key_data : bytes) (s : wpa_sm E)
  : option wpa_gtk_data * wpa_sm E :=
  let '(res, ie) := wpa_supplicant_parse_ies key_data in
  if res <? 0 then (None, s) else
  match ref_bytes key_data (p_gtk ie) with
  | None => (None, s)
  | Some kde =>
      if negb (has (key_info f) WPA_KEY_INFO_ENCR_KEY_DATA) then (None, s) else
      let gtk_len := u16 (zlen kde) in
      if gtk_len <? 2 then (None, s) else
      let gtk_len := gtk_len - 2 in
      if 32 <? gtk_len then (None, s) else
      match wpa_supplicant_check_group_cipher (group_cipher s) gtk_len gtk_len with
      | None => (None, s)
      | Some (rsc_len, alg) =>
          let gd := GtkData alg
                      (wpa_supplicant_gtk_tx_bit_workaround (Z.testbit (byte_at kde 0) 2) s)
                      rsc_len (Z.land (byte_at kde 0) 0x3)
                      (overwrite (replicate 32 0) (slice 2 (Z.to_nat gtk_len) kde)) gtk_len in
          (Some gd, snd (ieee80211w_set_keys key_data ie s))
      end
  end.

(** RC4 with the key IV || KEK, the first 256 bytes of the key stream dropped. *)
Definition rc4_key_data (f : bytes) (p : wpa_ptk) (data : bytes) : bytes :=
  rc4_skip (key_iv f ++ key_of (kek p) (kek_len p)) 256 data.

(** The decrypted GTK of a WPA message. *)
(* wpa.c wpa_supplicant_process_1_of_2_wpa @1960-2010 *)
Definition decrypt_wpa_gtk (f : bytes) (ver maxkeylen : Z) (key_data : bytes) (s : wpa_sm E)
  : option bytes :=
  if (ver =? WPA_KEY_INFO_TYPE_HMAC_MD5_RC4) && (kek_len (ptk s) =? 16) then
    if 32 <? zlen key_data then None else Some (rc4_key_data f (ptk s) key_data)
  else if ver =? WPA_KEY_INFO_TYPE_HMAC_SHA1_AES then
    if negb (maxkeylen mod 8 =? 0) then None else
    if 32 <? maxkeylen then None else
    aes_unwrap (key_of (kek (ptk s)) (kek_len (ptk s))) (Z.to_nat (maxkeylen / 8)) key_data
  else None.

(* wpa.c wpa_supplicant_process_1_of_2_wpa *)
Definition wpa_supplicant_process_1_of_2_wpa (f : bytes) (ver : Z) (key_data : bytes) (s : wpa_sm E)
  : option wpa_gtk_data :=
  let gtk_len := get_be16 (key_length f) in
  let maxkeylen := zlen key_data in
  if (ver =? WPA_KEY_INFO_TYPE_HMAC_SHA1_AES) && (maxkeylen <? 8) then None else
  let maxkeylen := if ver =? WPA_KEY_INFO_TYPE_HMAC_SHA1_AES then maxkeylen - 8 else maxkeylen in
  if maxkeylen <? gtk_len then None else
  let? (rsc_len, alg) := wpa_supplicant_check_group_cipher (group_cipher s) gtk_len maxkeylen in
  let? key := decrypt_wpa_gtk f ver maxkeylen key_data s in
  Some (GtkData alg (wpa_supplicant_gtk_tx_bit_workaround (has (key_info f) WPA_KEY_INFO_TXRX) s)
          rsc_len
          (Z.shiftr (Z.land (key_info f) WPA_KEY_INFO_KEY_INDEX_MASK) WPA_KEY_INFO_KEY_INDEX_SHIFT)
          (overwrite (replicate 32 0) key) gtk_len).

(* wpa.c wpa_supplicant_process_1_of_2 *)
Definition wpa_supplicant_process_1_of_2 (f : bytes) (ver : Z) (key_data : bytes) (s : wpa_sm E)
  : option (wpa_sm E) :=
  let failed s := Some (wpa_sm_deauthenticate WLAN_REASON_UNSPECIFIED s) in
  if negb (msg_3_of_4_ok s) then failed s else
  let rekey := bool_decide (wpa_state s = WPA_COMPLETED) in
  let info := key_info f in
  let '(gd, s) := if is_rsn s then wpa_supplicant_process_1_of_2_rsn f key_data s
                  else (wpa_supplicant_process_1_of_2_wpa f ver key_data s, s) in
  let s := wpa_sm_set_state WPA_GROUP_HANDSHAKE s in
  match gd with
  | None => failed s
  | Some gd =>
      let '(ret, s) := wpa_supplicant_install_gtk gd (group_rsc f s) false s in
      if negb (ret =? 0) then failed s else
      let '(ret, s) := wpa_supplicant_send_2_of_2 f ver info s in
      if ret <? 0 then failed s else
      let? s :=
        if rekey then Some (wpa_sm_set_state WPA_COMPLETED (wpa_sm_cancel_auth_timeout s))
        else wpa_supplicant_key_neg_complete (bssid (pm s)) (has info WPA_KEY_INFO_SECURE) s in
      Some (wpa_sm_set_rekey_offload s)
  end.

(** ** Reception *)

(** Whether the Key MIC is the one [p] gives for the frame with a zero MIC. *)
Definition mic_valid (p : wpa_ptk) (akmp ver mic_len : Z) (f : bytes) : bool :=
  let zero := replicate (Z.to_nat mic_len) 0 in
  match wpa_eapol_key_mic (key_of (kck p) (kck_len p)) akmp ver (put_at 81 zero f) with
  | None => false
  | Some mic => bool_decide (key_mic f mic_len = take (Z.to_nat mic_len) (overwrite zero mic))
  end.

(* wpa.c wpa_supplicant_verify_eapol_key_mic *)
Definition wpa_supplicant_verify_eapol_key_mic (f : bytes) (ver : Z) (s : wpa_sm E)
  : bool * wpa_sm E :=
  let mic_len := sm_mic_len s in
  let '(ok, s) :=
    if tptk_set s && mic_valid (tptk s) (key_mgmt s) ver mic_len f
    then (true, s <| tptk_set := false |> <| ptk_set := true |> <| ptk := tptk s |>
                  <| tptk := ptk_zero |> <| renew_snonce := true |>)
    else (false, s) in
  let ok := ok || (ptk_set s && mic_valid (ptk s) (key_mgmt s) ver mic_len f) in
  if ok then (true, s <| rx_replay_counter := replay_counter f |> <| rx_replay_counter_set := true |>)
  else (false, s).

(** The decrypted Key Data. *)
(* wpa.c wpa_supplicant_decrypt_key_data *)
Definition wpa_supplicant_decrypt_key_data (f : bytes) (ver : Z) (key_data : bytes) (s : wpa_sm E)
  : option bytes * wpa_sm E :=
  if negb (ptk_set s) then (None, s) else
  if (ver =? WPA_KEY_INFO_TYPE_HMAC_MD5_RC4) && (kek_len (ptk s) =? 16)
  then (Some (rc4_key_data f (ptk s) key_data), s)
  else if (ver =? WPA_KEY_INFO_TYPE_HMAC_SHA1_AES) || (ver =? WPA_KEY_INFO_TYPE_AES_128_CMAC)
          || wpa_use_aes_key_wrap (key_mgmt s) then
    if (zlen key_data <? 8) || negb (zlen key_data mod 8 =? 0) then (None, s) else
    let '(ok, s) := ask env_malloc s in
    if negb ok then (None, s) else
    (aes_unwrap (key_of (kek (ptk s)) (kek_len (ptk s))) (Z.to_nat ((zlen key_data - 8) / 8)) key_data, s)
  else (None, s).

(** The descriptor version fits the key management and the ciphers. *)
(* wpa.c wpa_sm_rx_eapol @2576-2642 *)
Definition rx_version_ok (info : Z) (s : wpa_sm E) : bool :=
  let ver := Z.land info WPA_KEY_INFO_TYPE_MASK in
  let akm_defined := wpa_use_akm_defined (key_mgmt s) in
  let ver_is v := ver =? v in
  if negb (ver_is WPA_KEY_INFO_TYPE_HMAC_MD5_RC4) && negb (ver_is WPA_KEY_INFO_TYPE_AES_128_CMAC)
     && negb (ver_is WPA_KEY_INFO_TYPE_HMAC_SHA1_AES) && negb akm_defined then false else
  if akm_defined && negb (ver_is WPA_KEY_INFO_TYPE_AKM_DEFINED) then false else
  if wpa_key_mgmt_sha256 (key_mgmt s) then
    ver_is WPA_KEY_INFO_TYPE_AES_128_CMAC || akm_defined
  else if (pairwise_cipher s =? WPA_CIPHER_CCMP) && negb akm_defined
          && negb (ver_is WPA_KEY_INFO_TYPE_HMAC_SHA1_AES) then
    (negb (group_cipher s =? WPA_CIPHER_CCMP) && negb (has info WPA_KEY_INFO_KEY_TYPE))
    || ver_is WPA_KEY_INFO_TYPE_AES_128_CMAC
  else negb ((pairwise_cipher s =? WPA_CIPHER_GCMP) && negb akm_defined
             && negb (ver_is WPA_KEY_INFO_TYPE_HMAC_SHA1_AES)).

(** The Replay Counter is not one that was seen. *)
(* wpa.c wpa_sm_rx_eapol @2644-2651 *)
Definition rx_replay_ok (f : bytes) (s : wpa_sm E) : bool :=
  negb (rx_replay_counter_set s && (memcmp (replay_counter f) (rx_replay_counter s) <=? 0)).

(** The handler of a frame that has passed the checks, with its Key Data decrypted. *)
(* wpa.c wpa_sm_rx_eapol @2701-2731 *)
Definition rx_dispatch (src f key_data : bytes) (mic_len : Z) (s : wpa_sm E)
  : option (Z * wpa_sm E) :=
  let info := key_info f in
  let ver := Z.land info WPA_KEY_INFO_TYPE_MASK in
  if has info WPA_KEY_INFO_KEY_TYPE then
    if has info WPA_KEY_INFO_KEY_INDEX_MASK then Some (-1, s) else
    let? s := if any_of info [WPA_KEY_INFO_MIC; WPA_KEY_INFO_ENCR_KEY_DATA]
              then wpa_supplicant_process_3_of_4 f ver key_data s
              else wpa_supplicant_process_1_of_4 src f ver key_data s in
    Some (1, s)
  else if if mic_len =? 0 then has info WPA_KEY_INFO_ENCR_KEY_DATA else has info WPA_KEY_INFO_MIC
  then let? s := wpa_supplicant_process_1_of_2 f ver key_data s in Some (1, s)
  else Some (1, s).

(** The checks between the lower layer notification and the authentication. *)
(* wpa.c wpa_sm_rx_eapol @2576-2669 *)
Definition rx_acceptable (f : bytes) (s : wpa_sm E) : bool :=
  let info := key_info f in
  rx_version_ok info s && rx_replay_ok f s && negb (has info WPA_KEY_INFO_SMK_MESSAGE)
  && has info WPA_KEY_INFO_ACK && negb (has info WPA_KEY_INFO_REQUEST).

(** Authentication and decryption, then the handler. *)
(* wpa.c wpa_sm_rx_eapol @2671-2735 *)
Definition rx_authenticate (src f key_data : bytes) (mic_len : Z) (s : wpa_sm E)
  : option (Z * wpa_sm E) :=
  let info := key_info f in
  let ver := Z.land info WPA_KEY_INFO_TYPE_MASK in
  let '(ok, s) := if has info WPA_KEY_INFO_MIC then wpa_supplicant_verify_eapol_key_mic f ver s
                  else (true, s) in
  if negb ok then Some (-1, s) else
  if is_rsn s && has info WPA_KEY_INFO_ENCR_KEY_DATA && negb (mic_len =? 0) then
    if negb (has info WPA_KEY_INFO_MIC) then Some (-1, s) else
    let '(data, s) := wpa_supplicant_decrypt_key_data f ver key_data s in
    match data with
    | None => Some (-1, s)
    | Some data => rx_dispatch src f data mic_len s
    end
  else rx_dispatch src f key_data mic_len s.

(** The length of the Key MIC field of a received frame. *)
(* wpa.c wpa_sm_rx_eapol @2497-2500 *)
Definition rx_mic_len (s : wpa_sm E) : option Z :=
  let? len :=
    if pmk_len (pm s) =? 0 then
      match cur_pmksa (pm s) with
      | Some c => let? e := heap (pm s) !! c in Some (e_pmk_len e)
      | None => Some 0
      end
    else Some (pmk_len (pm s)) in
  Some (wpa_mic_len (key_mgmt s) len).

(* wpa.c wpa_sm_rx_eapol *)
Definition wpa_sm_rx_eapol (src buf : bytes) (s : wpa_sm E) : option (Z * wpa_sm E) :=
  let? mic_len := rx_mic_len s in
  let keyhdrlen := sizeof_wpa_eapol_key + mic_len + 2 in
  if zlen buf <? sizeof_ieee802_1x_hdr + keyhdrlen then Some (0, s) else
  let plen := get_be16 (drop 2 buf) in
  if negb (byte_at buf 1 =? IEEE802_1X_TYPE_EAPOL_KEY) then Some (0, s) else
  if (zlen buf - sizeof_ieee802_1x_hdr <? plen) || (plen <? keyhdrlen) then Some (0, s) else
  let '(ok, s) := ask env_malloc s in
  if negb ok then Some (-1, s) else
  let f := take (Z.to_nat (plen + sizeof_ieee802_1x_hdr)) buf in
  if negb (key_type f =? EAPOL_KEY_TYPE_WPA) && negb (key_type f =? EAPOL_KEY_TYPE_RSN)
  then Some (0, s) else
  let key_data_len := key_data_length f mic_len in
  if plen - keyhdrlen <? key_data_len then Some (-1, s) else
  let key_data := slice (83 + Z.to_nat mic_len) (Z.to_nat key_data_len) f in
  let s := on_eapol (eapol_notify_lower_layer_success false) s in
  if negb (rx_acceptable f s) then Some (-1, s)
  else rx_authenticate src f key_data mic_len s.
End Handshake.
