(* ===== verification/WpaOps.v ===== *)
(** * The WPA state machine: initialisation, notifications and configuration

    The remaining entry points of src/rsn_supp/wpa.c and wpa_ie.c, and the machine
    as a whole: [wpa_op] are the calls the rest of the program makes, in any
    order, with any arguments within the limits of its interface. *)

From stdpp Require Import gmap.
From S2P Require Import Prelude WpaDefs WpaCommon Crypto Rc4 AesWrap RsnIe KeyData WpaTypes Pmksa WpaSm WpaHandshake.

(* rsn_supp/wpa.h enum wpa_sm_conf_params *)
Inductive wpa_sm_conf_params :=
| RSNA_PMK_LIFETIME | RSNA_PMK_REAUTH_THRESHOLD | RSNA_SA_TIMEOUT | WPA_PARAM_PROTO
| WPA_PARAM_PAIRWISE | WPA_PARAM_GROUP | WPA_PARAM_KEY_MGMT | WPA_PARAM_MGMT_GROUP
| WPA_PARAM_RSN_ENABLED | WPA_PARAM_MFP | WPA_PARAM_OCV | WPA_PARAM_SAE_PWE | WPA_PARAM_SAE_PK
| WPA_PARAM_DENY_PTK0_REKEY | WPA_PARAM_EXT_KEY_ID | WPA_PARAM_USE_EXT_KEY_ID.

(* rsn_supp/wpa.h struct rsn_supp_config *)
Record rsn_supp_config := RsnSuppConfig {
  c_network_ctx : Z;
  c_allowed_pairwise_cipher : Z;
  c_proactive_key_caching : bool;
  c_eap_workaround : bool;
  c_ssid : bytes;
  c_wpa_ptk_rekey : Z;
  c_p2p : bool;
  c_wpa_rsc_relaxation : bool;
  c_owe_ptk_workaround : bool;
  c_beacon_prot : bool;
  c_force_kdk_derivation : bool
}.

(** The configuration a NULL pointer stands for. *)
Definition no_config : rsn_supp_config :=
  RsnSuppConfig 0 0 false false [] 0 false false false false false.

(* ieee802_11_defs.h WNM_SLEEP_SUBELEM_GTK @1927-1929 *)
Definition WNM_SLEEP_SUBELEM_GTK : Z := 0.
Definition WNM_SLEEP_SUBELEM_IGTK : Z := 1.
Definition WNM_SLEEP_SUBELEM_BIGTK : Z := 2.

Section Ops.
Context {E : Type} `{EO : EapolOps E} `{ENV : WpaEnv} `{HM : Hmac} `{AES : AesCipher}.

(** ** Life cycle *)

(* wpa.c wpa_sm_init *)
Definition wpa_sm_init (e : E) : wpa_sm E :=
  WpaSm pmksa_cache_init ptk_zero ptk_zero false false false (replicate WPA_NONCE_LEN 0)
    (replicate WPA_NONCE_LEN 0) true (replicate WPA_REPLAY_COUNTER_LEN 0) false
    (replicate WPA_REPLAY_COUNTER_LEN 0) gtk_zero gtk_zero gtk_zero gtk_zero gtk_zero gtk_zero e
    0 0 false false [] 0 false false false false false false false 0 false false 60 0
    0 0 0 0 0 false 0 false 0 false None 0 None None None None WPA_DISCONNECTED None.

(** Deleting the pairwise and group keys; the BIGTK stays. *)
Definition clear_keys (s : wpa_sm E) : wpa_sm E :=
  s <| ptk_set := false |> <| ptk := ptk_zero |> <| tptk_set := false |> <| tptk := ptk_zero |>
    <| gtk := gtk_zero |> <| gtk_wnm_sleep := gtk_zero |>
    <| igtk := gtk_zero |> <| igtk_wnm_sleep := gtk_zero |>.

(* wpa.c wpa_sm_drop_sa *)
Definition wpa_sm_drop_sa (s : wpa_sm E) : wpa_sm E :=
  clear_keys (s <| pm := pm s <| pmk_len := 0 |> <| pmk := replicate (Z.to_nat PMK_LEN_MAX) 0 |> |>).

(* wpa.c wpa_sm_notify_assoc *)
Definition wpa_sm_notify_assoc (bss : bytes) (s : wpa_sm E) : wpa_sm E :=
  s <| pm := pm s <| bssid := bss |> |>
    <| rx_replay_counter := replicate WPA_REPLAY_COUNTER_LEN 0 |> <| rx_replay_counter_set := false |>
    <| renew_snonce := true |>
    ▸ clear_keys
    ▸ (fun s => s <| keyidx_active := 0 |>).

(* wpa.c wpa_sm_notify_disassoc *)
Definition wpa_sm_notify_disassoc (s : wpa_sm E) : wpa_sm E :=
  let s := s <| rekey_timeout := None |> <| pm := pmksa_cache_clear_current (pm s) |> in
  let s := if bool_decide (wpa_state s = WPA_4WAY_HANDSHAKE)
           then s <| dot11RSNA4WayHandshakeFailures := u32 (dot11RSNA4WayHandshakeFailures s + 1) |>
           else s in
  wpa_sm_drop_sa s <| keyidx_active := 0 |> <| msg_3_of_4_ok := false |>
    ▸ (fun s => s <| pm := pm s <| bssid := replicate ETH_ALEN 0 |> |>).

(* wpa.c wpa_sm_deinit *)
Definition wpa_sm_deinit (s : wpa_sm E) : option (wpa_sm E) :=
  let? s := on_pm pmksa_cache_deinit s in
  Some (wpa_sm_drop_sa (s <| rekey_timeout := None |>)).

(** ** The PMK and the PMKSA cache *)

(** At most PMK_LEN_MAX bytes. *)
(* wpa.c wpa_sm_set_pmk *)
Definition wpa_sm_set_pmk (key : bytes) (pmkid aa : option bytes) (s : wpa_sm E) : option (wpa_sm E) :=
  let s := s <| pm := pm s <| pmk_len := zlen key |> <| pmk := overwrite (pmk (pm s)) key |> |> in
  match aa with
  | None => Some s
  | Some aa => let? (r, s) := sm_pmksa_add key pmkid None aa s in Some (set_cur r s)
  end.

(* wpa.c wpa_sm_pmksa_cache_add *)
Definition wpa_sm_pmksa_cache_add (key : bytes) (pmkid : option bytes) (aa : bytes)
    (fils_cache_id : option bytes) (s : wpa_sm E) : option (wpa_sm E) :=
  let? (r, s) := on_pm' (pmksa_cache_add key pmkid None aa (own_addr (pm s)) (network_ctx s)
                           (key_mgmt s) fils_cache_id) s in
  Some (set_cur r s).

(* wpa.c wpa_sm_pmksa_exists *)
Definition wpa_sm_pmksa_exists (aa : bytes) (ctx : Z) (s : wpa_sm E) : option bool :=
  let? r := pmksa_cache_get (Some aa) None ctx 0 (pm s) in Some (bool_decide (is_Some r)).

(* wpa.c wpa_sm_pmksa_cache_flush *)
Definition wpa_sm_pmksa_cache_flush (ctx : Z) (s : wpa_sm E) : option (wpa_sm E) :=
  on_pm (pmksa_cache_flush ctx None false) s.

(* wpa.c wpa_sm_external_pmksa_cache_flush *)
Definition wpa_sm_external_pmksa_cache_flush (ctx : Z) (s : wpa_sm E) : option (wpa_sm E) :=
  on_pm (pmksa_cache_flush ctx None true) s.

(* wpa.c wpa_sm_aborted_cached *)
Definition wpa_sm_aborted_cached (s : wpa_sm E) : wpa_sm E := set_cur None s.

(* wpa.c wpa_sm_aborted_external_cached *)
Definition wpa_sm_aborted_external_cached (s : wpa_sm E) : option (wpa_sm E) :=
  match cur_pmksa (pm s) with
  | None => Some s
  | Some c => let? e := heap (pm s) !! c in Some (if e_external e then set_cur None s else s)
  end.

(** The reauthentication timeout. *)
(* rsn_supp/pmksa_cache.c pmksa_cache_reauth *)
Definition pmksa_cache_reauth (s : wpa_sm E) : wpa_sm E :=
  on_eapol eapol_request_reauth
    (s <| pm := pm s <| reauth_timeout := None |> <| cur_pmksa := None |> |>).

(** ** Configuration *)

(* wpa.c wpa_sm_set_config *)
Definition wpa_sm_set_config (config : option rsn_supp_config) (s : wpa_sm E) : wpa_sm E :=
  let c := default no_config config in
  s <| network_ctx := c_network_ctx c |> <| allowed_pairwise_cipher := c_allowed_pairwise_cipher c |>
    <| proactive_key_caching := c_proactive_key_caching c |> <| eap_workaround := c_eap_workaround c |>
    <| ssid := c_ssid c |> <| wpa_ptk_rekey := c_wpa_ptk_rekey c |> <| p2p := c_p2p c |>
    <| wpa_rsc_relaxation := c_wpa_rsc_relaxation c |>
    <| owe_ptk_workaround := c_owe_ptk_workaround c |>
    <| force_kdk_derivation := c_force_kdk_derivation c |> <| beacon_prot := c_beacon_prot c |>.

(* wpa.c wpa_sm_set_own_addr *)
Definition wpa_sm_set_own_addr (addr : bytes) (s : wpa_sm E) : wpa_sm E :=
  s <| pm := pm s <| own_addr := addr |> |>.

(* wpa.c wpa_sm_set_param *)
Definition wpa_sm_set_param (param : wpa_sm_conf_params) (value : Z) (s : wpa_sm E) : Z * wpa_sm E :=
  let flag := negb (value =? 0) in
  match param with
  | RSNA_PMK_LIFETIME =>
      if 0 <? value then (0, s <| pm := pm s <| dot11RSNAConfigPMKLifetime := value |> |>) else (-1, s)
  | RSNA_PMK_REAUTH_THRESHOLD =>
      if (0 <? value) && (value <=? 100)
      then (0, s <| pm := pm s <| dot11RSNAConfigPMKReauthThreshold := value |> |>) else (-1, s)
  | RSNA_SA_TIMEOUT => if 0 <? value then (0, s <| dot11RSNAConfigSATimeout := value |>) else (-1, s)
  | WPA_PARAM_PROTO => (0, s <| proto := value |>)
  | WPA_PARAM_PAIRWISE => (0, s <| pairwise_cipher := value |>)
  | WPA_PARAM_GROUP => (0, s <| group_cipher := value |>)
  | WPA_PARAM_KEY_MGMT => (0, s <| key_mgmt := value |>)
  | WPA_PARAM_MGMT_GROUP => (0, s <| mgmt_group_cipher := value |>)
  | WPA_PARAM_RSN_ENABLED => (0, s <| rsn_enabled := flag |>)
  | WPA_PARAM_MFP => (0, s <| mfp := value |>)
  | WPA_PARAM_OCV => (0, s <| ocv := flag |>)
  | WPA_PARAM_SAE_PWE => (0, s <| sae_pwe := value |>)
  | WPA_PARAM_SAE_PK => (0, s <| sae_pk := Z.odd value |>)              (* a 1-bit field *)
  | WPA_PARAM_DENY_PTK0_REKEY => (0, s <| wpa_deny_ptk0_rekey := Z.odd value |>)
  | WPA_PARAM_EXT_KEY_ID => (0, s <| ext_key_id := flag |>)
  | WPA_PARAM_USE_EXT_KEY_ID => (0, s <| use_ext_key_id := flag |>)
  end.

(** Storing a copy of an element, or clearing it; the result of [os_memdup()]. *)
Definition dup_ie (ie : option bytes) (s : wpa_sm E) : Z * option bytes * wpa_sm E :=
  match ie with
  | None | Some [] => (0, None, s)
  | Some b => let '(ok, s) := ask env_malloc s in
              if ok then (0, Some b, s) else (-1, None, s)
  end.

(** When there is no memory for the copy, the pointer is NULL and the old length stays. *)
(* wpa.c wpa_sm_set_assoc_wpa_ie *)
Definition wpa_sm_set_assoc_wpa_ie (ie : option bytes) (s : wpa_sm E) : Z * wpa_sm E :=
  let '(ret, v, s) := dup_ie ie s in
  let len := if ret <? 0 then assoc_wpa_ie_len s else zlen (default [] v) in
  (ret, s <| assoc_wpa_ie := v |> <| assoc_wpa_ie_len := len |>).
(** The lengths of this and the following elements are read only behind a check of the
    pointer, so that they need no field of their own. *)
(* wpa.c wpa_sm_set_assoc_rsnxe *)
Definition wpa_sm_set_assoc_rsnxe (ie : option bytes) (s : wpa_sm E) : Z * wpa_sm E :=
  let '(ret, v, s) := dup_ie ie s in (ret, s <| assoc_rsnxe := v |>).
(* wpa.c wpa_sm_set_ap_wpa_ie *)
Definition wpa_sm_set_ap_wpa_ie (ie : option bytes) (s : wpa_sm E) : Z * wpa_sm E :=
  let '(ret, v, s) := dup_ie ie s in (ret, s <| ap_wpa_ie := v |>).
(* wpa.c wpa_sm_set_ap_rsn_ie *)
Definition wpa_sm_set_ap_rsn_ie (ie : option bytes) (s : wpa_sm E) : Z * wpa_sm E :=
  let '(ret, v, s) := dup_ie ie s in (ret, s <| ap_rsn_ie := v |>).
(* wpa.c wpa_sm_set_ap_rsnxe *)
Definition wpa_sm_set_ap_rsnxe (ie : option bytes) (s : wpa_sm E) : Z * wpa_sm E :=
  let '(ret, v, s) := dup_ie ie s in (ret, s <| ap_rsnxe := v |>).

(* wpa_ie.c rsn_supp_capab *)
Definition rsn_supp_capab (s : wpa_sm E) : Z :=
  fold_left Z.lor [flag (mfp s =? 2) WPA_CAPABILITY_MFPR; flag (ocv s) WPA_CAPABILITY_OCVC;
                   flag (ext_key_id s) WPA_CAPABILITY_EXT_KEY_ID_FOR_UNICAST]
    (flag (negb (mfp s =? 0)) WPA_CAPABILITY_MFPC).

(** The outer option is an invalid access, the inner one the error. *)
(* wpa_ie.c wpa_gen_wpa_ie *)
Definition wpa_gen_wpa_ie (buf_len : Z) (s : wpa_sm E) : option (option bytes) :=
  if proto s =? WPA_PROTO_RSN then
    let? pmkid := match cur_pmksa (pm s) with
                  | None => Some None
                  | Some c => let? e := heap (pm s) !! c in Some (Some (e_pmkid e))
                  end in
    Some (wpa_gen_wpa_ie_rsn buf_len (pairwise_cipher s) (group_cipher s) (key_mgmt s)
            (mgmt_group_cipher s) (rsn_supp_capab s) pmkid)
  else Some (wpa_gen_wpa_ie_wpa buf_len (pairwise_cipher s) (group_cipher s) (key_mgmt s)).

(* wpa_ie.c wpa_gen_rsnxe *)
Definition wpa_gen_rsnxe (buf_len : Z) (s : wpa_sm E) : option bytes :=
  let capab :=
    Z.lor (flag (wpa_key_mgmt_sae (key_mgmt s)
                 && ((sae_pwe s =? 1) || (sae_pwe s =? 2) || sae_pk s)) (2 ^ WLAN_RSNX_CAPAB_SAE_H2E))
          (flag (secure_ltf s) (2 ^ WLAN_RSNX_CAPAB_SECURE_LTF)) in
  let flen := if any_of capab [0xff00] then 2 else 1 in
  if capab =? 0 then Some [] else
  if buf_len <? 2 + flen then None else
  let capab := Z.lor capab (flen - 1) in
  Some ([WLAN_EID_RSNX; flen; Z.land capab 0xff]
        ++ (if Z.shiftr capab 8 =? 0 then [] else [Z.shiftr capab 8])).

(* wpa.c wpa_sm_set_assoc_wpa_ie_default *)
Definition wpa_sm_set_assoc_wpa_ie_default (buf_len : Z) (s : wpa_sm E)
  : option (option bytes * wpa_sm E) :=
  let? res := wpa_gen_wpa_ie buf_len s in
  match res with
  | None => Some (None, s)
  | Some ie =>
      if bool_decide (assoc_wpa_ie s = None) then
        let '(ok, s) := ask env_malloc s in
        if ok then Some (Some ie, s <| assoc_wpa_ie := Some ie |> <| assoc_wpa_ie_len := zlen ie |>)
        else Some (None, s)
      else Some (Some ie, s)
  end.

(* wpa.c wpa_sm_set_assoc_rsnxe_default *)
Definition wpa_sm_set_assoc_rsnxe_default (buf_len : Z) (s : wpa_sm E) : option bytes * wpa_sm E :=
  match wpa_gen_rsnxe buf_len s with
  | None => (None, s)
  | Some ie =>
      if bool_decide (assoc_rsnxe s = None) && negb (zlen ie =? 0) then
        let '(ok, s) := ask env_malloc s in
        if ok then (Some ie, s <| assoc_rsnxe := Some ie |>) else (None, s)
      else (Some ie, s)
  end.

(** The elements the AP announced are parsed on every question. *)
Definition ap_rsn_capab (s : wpa_sm E) : option Z :=
  let? ie := ap_rsn_ie s in
  let '(res, rsn) := wpa_parse_wpa_ie_rsn ie in
  if res <? 0 then None else Some (ie_capabilities rsn).

(* wpa.c wpa_sm_pmf_enabled *)
Definition wpa_sm_pmf_enabled (s : wpa_sm E) : bool :=
  negb (mfp s =? 0) && match ap_rsn_capab s with
                       | Some c => any_of c [WPA_CAPABILITY_MFPR; WPA_CAPABILITY_MFPC]
                       | None => false
                       end.

(* wpa.c wpa_sm_ocv_enabled *)
Definition wpa_sm_ocv_enabled (s : wpa_sm E) : bool :=
  ocv s && match ap_rsn_capab s with Some c => has c WPA_CAPABILITY_OCVC | None => false end.

(* wpa.c wpa_sm_parse_own_wpa_ie *)
Definition wpa_sm_parse_own_wpa_ie (s : wpa_sm E) : Z * option wpa_ie_data :=
  match assoc_wpa_ie s with
  | None => (-1, None)
  | Some ie => let '(res, d) := wpa_parse_wpa_ie ie in
               if negb (res =? 0) then (-2, None) else (0, Some d)
  end.

(* wpa.c wpa_sm_has_ptk *)
Definition wpa_sm_has_ptk (s : wpa_sm E) : bool := ptk_set s.
(* wpa.c wpa_sm_has_ptk_installed *)
Definition wpa_sm_has_ptk_installed (s : wpa_sm E) : bool := installed (ptk s).

(** ** Keys that the driver handles *)

(* wpa.c wpa_sm_update_replay_ctr *)
Definition wpa_sm_update_replay_ctr (ctr : bytes) (s : wpa_sm E) : wpa_sm E :=
  s <| rx_replay_counter := ctr |>.

(* wpa.c wpa_sm_set_rx_replay_ctr *)
Definition wpa_sm_set_rx_replay_ctr (ctr : option bytes) (s : wpa_sm E) : wpa_sm E :=
  match ctr with
  | None => s
  | Some ctr => s <| rx_replay_counter := ctr |> <| rx_replay_counter_set := true |>
  end.

(* wpa.c wpa_sm_set_ptk_kck_kek *)
Definition wpa_sm_set_ptk_kck_kek (new_kck new_kek : option bytes) (s : wpa_sm E) : wpa_sm E :=
  let p := ptk s in
  let p := match new_kck with
           | Some k => if zlen k <=? Z.of_nat WPA_KCK_MAX_LEN
                       then p <| kck := overwrite (kck p) k |> <| kck_len := zlen k |> else p
           | None => p
           end in
  let p := match new_kek with
           | Some k => if zlen k <=? Z.of_nat WPA_KEK_MAX_LEN
                       then p <| kek := overwrite (kek p) k |> <| kek_len := zlen k |> else p
           | None => p
           end in
  s <| ptk := p |> <| ptk_set := true |>.

(** [buf] is the subelement from its identifier on. *)
(* wpa.c wpa_wnmsleep_install_key *)
Definition wpa_wnmsleep_install_key (subelem_id : Z) (buf : bytes) (s : wpa_sm E) : Z * wpa_sm E :=
  if subelem_id =? WNM_SLEEP_SUBELEM_GTK then
    let keylen := wpa_cipher_key_len (group_cipher s) in
    let alg := wpa_cipher_to_alg (group_cipher s) in
    if bool_decide (alg = WPA_ALG_NONE) then (-1, s) else
    let keyinfo := get_le16 (drop 2 buf) in
    if negb (keylen =? byte_at buf 4) then (-1, s) else
    let gd := GtkData alg (wpa_supplicant_gtk_tx_bit_workaround (has keyinfo WPA_KEY_INFO_TXRX) s)
                (wpa_cipher_rsc_len (group_cipher s)) (Z.land keyinfo 0x03)
                (overwrite (replicate 32 0) (slice 13 (Z.to_nat keylen) buf)) keylen in
    let '(ret, s) := wpa_supplicant_install_gtk gd (drop 5 buf) true s in
    (if ret =? 0 then 0 else -1, s)
  else if subelem_id =? WNM_SLEEP_SUBELEM_IGTK then
    let '(ret, s) := wpa_supplicant_install_igtk (drop 2 buf) true s in
    (if ret <? 0 then -1 else 0, s)
  else if subelem_id =? WNM_SLEEP_SUBELEM_BIGTK then
    if negb (beacon_prot s) then (0, s) else
    let '(ret, s) := wpa_supplicant_install_bigtk (drop 2 buf) true s in
    (if ret <? 0 then -1 else 0, s)
  else (-1, s).

(** ** The machine in its surroundings *)

(** The calls of the rest of the program, and the timeouts. *)
Inductive wpa_op :=
| OpRxEapol (src buf : bytes)
| OpKeyRequest (error pairwise : bool)
| OpRekeyPtk
| OpNotifyAssoc (bss : bytes)
| OpNotifyDisassoc
| OpDropSa
| OpSetPmk (key : bytes) (pmkid aa : option bytes)
| OpSetPmkFromPmksa
| OpPmksaAdd (key : bytes) (pmkid : option bytes) (aa : bytes) (fils_cache_id : option bytes)
| OpPmksaFlush (ctx : Z)
| OpPmksaFlushExternal (ctx : Z)
| OpPmksaSetCurrent (pmkid sel_bssid : option bytes) (ctx : Z) (try_opportunistic : bool)
    (fils_cache_id : option bytes) (akmp : Z)
| OpPmksaReconfig
| OpPmksaExpire
| OpPmksaReauth
| OpAbortedCached
| OpAbortedExternalCached
| OpSetConfig (c : option rsn_supp_config)
| OpSetOwnAddr (addr : bytes)
| OpSetParam (param : wpa_sm_conf_params) (value : Z)
| OpSetAssocIe (ie : option bytes)
| OpSetAssocRsnxe (ie : option bytes)
| OpSetAssocIeDefault (buf_len : Z)
| OpSetAssocRsnxeDefault (buf_len : Z)
| OpSetApWpaIe (ie : option bytes)
| OpSetApRsnIe (ie : option bytes)
| OpSetApRsnxe (ie : option bytes)
| OpUpdateReplayCtr (ctr : bytes)
| OpSetRxReplayCtr (ctr : option bytes)
| OpSetKckKek (new_kck new_kek : option bytes)
| OpWnmInstallKey (subelem_id : Z) (buf : bytes)
| OpState (st : wpa_states)        (* the state is set from outside *)
| OpEapol (e : E).                 (* the EAPOL machine has moved *)

Definition run_wpa_op (op : wpa_op) (s : wpa_sm E) : option (wpa_sm E) :=
  match op with
  | OpRxEapol src buf => let? (_, s) := wpa_sm_rx_eapol src buf s in Some s
  | OpKeyRequest error pairwise => Some (wpa_sm_key_request error pairwise s)
  | OpRekeyPtk => Some (wpa_sm_rekey_ptk s)
  | OpNotifyAssoc bss => Some (wpa_sm_notify_assoc bss s)
  | OpNotifyDisassoc => Some (wpa_sm_notify_disassoc s)
  | OpDropSa => Some (wpa_sm_drop_sa s)
  | OpSetPmk key pmkid aa => wpa_sm_set_pmk key pmkid aa s
  | OpSetPmkFromPmksa => wpa_sm_set_pmk_from_pmksa s
  | OpPmksaAdd key pmkid aa cid => wpa_sm_pmksa_cache_add key pmkid aa cid s
  | OpPmksaFlush ctx => wpa_sm_pmksa_cache_flush ctx s
  | OpPmksaFlushExternal ctx => wpa_sm_external_pmksa_cache_flush ctx s
  | OpPmksaSetCurrent pmkid sel ctx opp fils akmp =>
      let? (_, s) := on_pm' (pmksa_cache_set_current pmkid sel ctx opp fils akmp) s in Some s
  | OpPmksaReconfig => on_pm pmksa_cache_reconfig s
  | OpPmksaExpire => on_pm pmksa_cache_expire s
  | OpPmksaReauth => Some (pmksa_cache_reauth s)
  | OpAbortedCached => Some (wpa_sm_aborted_cached s)
  | OpAbortedExternalCached => wpa_sm_aborted_external_cached s
  | OpSetConfig c => Some (wpa_sm_set_config c s)
  | OpSetOwnAddr addr => Some (wpa_sm_set_own_addr addr s)
  | OpSetParam param value => Some (snd (wpa_sm_set_param param value s))
  | OpSetAssocIe ie => Some (snd (wpa_sm_set_assoc_wpa_ie ie s))
  | OpSetAssocRsnxe ie => Some (snd (wpa_sm_set_assoc_rsnxe ie s))
  | OpSetAssocIeDefault n => let? (_, s) := wpa_sm_set_assoc_wpa_ie_default n s in Some s
  | OpSetAssocRsnxeDefault n => Some (snd (wpa_sm_set_assoc_rsnxe_default n s))
  | OpSetApWpaIe ie => Some (snd (wpa_sm_set_ap_wpa_ie ie s))
  | OpSetApRsnIe ie => Some (snd (wpa_sm_set_ap_rsn_ie ie s))
  | OpSetApRsnxe ie => Some (snd (wpa_sm_set_ap_rsnxe ie s))
  | OpUpdateReplayCtr ctr => Some (wpa_sm_update_replay_ctr ctr s)
  | OpSetRxReplayCtr ctr => Some (wpa_sm_set_rx_replay_ctr ctr s)
  | OpSetKckKek k1 k2 => Some (wpa_sm_set_ptk_kck_kek k1 k2 s)
  | OpWnmInstallKey id buf => Some (snd (wpa_wnmsleep_install_key id buf s))
  | OpState st => Some (s <| wpa_state := st |>)
  | OpEapol e => Some (s <| sm_eapol := e |>)
  end.

Fixpoint run_wpa_ops (ops : list wpa_op) (s : wpa_sm E) : option (wpa_sm E) :=
  match ops with
  | [] => Some s
  | op :: ops => let? s := run_wpa_op op s in run_wpa_ops ops s
  end.
End Ops.
