(* ===== verification/WpaFrame.v ===== *)
(** * What the operations of the WPA state machine leave alone

    [quiet s s']: from [s] to [s'] no key, no replay counter and no part of the
    configuration changed, the machine neither installed a key in the driver nor
    renewed the SNonce, the PMKSA cache and the PMK are as sound as before, and the
    EAPOL state machines were changed by their entry points only.
    Most functions of WpaSm.v and WpaHandshake.v are quiet; the theorems on the
    handshake only look at those that are not. *)

From stdpp Require Import gmap.
From S2P Require Import Prelude WpaDefs WpaCommon Crypto Rc4 AesWrap RsnIe KeyData WpaTypes Pmksa PmksaProps PmksaSpec PmksaSafe WpaSm WpaHandshake.

Definition quiet_event (e : wpa_event) : Prop :=
  match e with EvSetKey _ _ _ _ _ _ _ _ | EvRandom _ => False | _ => True end.

(** The events of [l'] continue those of [l] quietly. *)
Definition quiet_grow (l l' : list wpa_event) : Prop :=
  exists k, l' = l ++ k /\ Forall quiet_event k.

Lemma quiet_grow_refl l : quiet_grow l l.
Proof. exists []. now rewrite app_nil_r. Qed.

Lemma quiet_grow_trans l1 l2 l3 : quiet_grow l1 l2 -> quiet_grow l2 l3 -> quiet_grow l1 l3.
Proof.
  intros (k1 & -> & H1) (k2 & -> & H2). exists (k1 ++ k2). split; [now rewrite app_assoc|].
  now apply Forall_app.
Qed.

Lemma quiet_grow_one l e : quiet_event e -> quiet_grow l (l ++ [e]).
Proof. intros H. exists [e]. split; [done|]. now constructor. Qed.

Lemma quiet_grow_snoc l l' e : quiet_grow l l' -> quiet_event e -> quiet_grow l (l' ++ [e]).
Proof. intros H He. eapply quiet_grow_trans; [exact H | now apply quiet_grow_one]. Qed.

Create HintDb quiet discriminated.
#[export] Hint Resolve quiet_grow_refl quiet_grow_snoc : quiet.
#[export] Hint Extern 1 (quiet_event _) => exact I : quiet.

(** ** The PMKSA cache *)

(** The PMK array of an entry and its length. *)
Definition entry_typed (e : rsn_pmksa_cache_entry) : Prop :=
  zlen (e_pmk e) = PMK_LEN_MAX /\ 0 <= e_pmk_len e <= PMK_LEN_MAX.

(** Every PMK of the cache and of the state machine fits its array. *)
Definition pm_typed (s : pmksa_st) : Prop :=
  map_Forall (fun _ => entry_typed) (heap s) /\ zlen (pmk s) = PMK_LEN_MAX
  /\ 0 <= pmk_len s <= PMK_LEN_MAX.

(** The cache reports only its own events; the rest of the machine sees nothing. *)
Abbreviation grow s s' :=
  (quiet_grow (events s) (events s') /\ (pm_typed s -> pm_typed s')).

Section Cache.
Context `{ENV : WpaEnv} `{HM : Hmac}.

Lemma grow_refl s : grow s s.
Proof. split; auto with quiet. Qed.

Lemma grow_trans s1 s2 s3 : grow s1 s2 -> grow s2 s3 -> grow s1 s3.
Proof. intros [E1 T1] [E2 T2]. split; [exact (quiet_grow_trans _ _ _ E1 E2) | auto]. Qed.

(** Record updates of lists, counters and timeouts, and events. *)
Ltac grow_update :=
  split; [cbn [events over emit]; solve [auto with quiet] | exact id].

Lemma _free_entry_quiet p s : grow s (_pmksa_cache_free_entry p s).
Proof.
  split; [unfold _pmksa_cache_free_entry; cbn [events over]; auto with quiet|].
  intros (Hh & Hk & Hl). split; [now apply map_Forall_delete | auto].
Qed.

Lemma free_entry_quiet p reason s s' :
  pmksa_cache_free_entry p reason s = Some s' -> grow s s'.
Proof.
  unfold pmksa_cache_free_entry. destruct (heap s !! p) as [e|]; [|discriminate].
  intros [= <-]. unfold _pmksa_cache_free_entry, wpa_sm_pmksa_free_cb, pmksa_cache_clear_current.
  split.
  - eapply quiet_grow_trans; [apply (quiet_grow_one (events s)
      (EvRemovePmkid (e_network_ctx e) (e_aa e) (e_pmkid e) (e_fils_cache_id e))); exact I|].
    repeat case_match; simplify_eq; cbn [events over emit]; auto with quiet.
  - intros (Hh & Hk & Hl). unfold pm_typed.
    repeat case_match; simplify_eq; cbn [heap pmk pmk_len over emit];
      (split; [now apply map_Forall_delete|]); auto; now vm_compute.
Qed.

Lemma set_expiration_quiet s s' : pmksa_cache_set_expiration s = Some s' -> grow s s'.
Proof.
  unfold pmksa_cache_set_expiration, get_time. cbv zeta.
  repeat (case_match; try discriminate); intros [= <-]; grow_update.
Qed.

Lemma expire_loop_quiet now rest : forall kept s s',
  expire_loop now kept rest s = Some s' -> grow s s'.
Proof.
  induction rest as [|p rest IH]; intros kept s s'; cbn [expire_loop].
  - intros [= <-]. grow_update.
  - destruct (heap s !! p); [|discriminate]. destruct (_ <=? _); [|intros [= <-]; grow_update].
    destruct (_ && _); [apply IH|].
    destruct (pmksa_cache_free_entry _ _ _) as [s1|] eqn:Hf; [|discriminate].
    intros H. eapply grow_trans; [exact (free_entry_quiet _ _ _ _ Hf) | now apply IH in H].
Qed.

Lemma expire_quiet s s' : pmksa_cache_expire s = Some s' -> grow s s'.
Proof.
  unfold pmksa_cache_expire, get_time.
  destruct (expire_loop _ _ _ _) as [s1|] eqn:Hl; [|discriminate].
  intros H. eapply grow_trans; [exact (expire_loop_quiet _ _ _ _ _ Hl)|].
  now apply set_expiration_quiet.
Qed.

Lemma flush_loop_quiet f rest : forall kept removed s r s',
  flush_loop f kept rest removed s = Some (r, s') -> grow s s'.
Proof.
  induction rest as [|p rest IH]; intros kept removed s r s'; cbn [flush_loop].
  - intros [= <- <-]. grow_update.
  - destruct (heap s !! p); [|discriminate]. destruct (f _); [|apply IH].
    destruct (pmksa_cache_free_entry _ _ _) as [s1|] eqn:Hf; [|discriminate].
    intros H. eapply grow_trans; [exact (free_entry_quiet _ _ _ _ Hf) | now apply IH in H].
Qed.

Lemma flush_quiet ctx key ext s s' : pmksa_cache_flush ctx key ext s = Some s' -> grow s s'.
Proof.
  unfold pmksa_cache_flush. destruct (flush_loop _ _ _ _ _) as [[r s1]|] eqn:Hl; [|discriminate].
  apply flush_loop_quiet in Hl. destruct r; intros H.
  - eapply grow_trans; [exact Hl | now apply set_expiration_quiet].
  - now injection H as <-.
Qed.

Lemma evict_quiet s s' : evict_oldest s = Some s' -> grow s s'.
Proof.
  unfold evict_oldest. destruct (_ <? _); [intros [= <-]; grow_update|].
  destruct (pmksa s) as [|p rest]; [intros [= <-]; grow_update|].
  case_bool_decide; [destruct rest|]; intros Hs;
    try (injection Hs as <-; grow_update; fail); now apply free_entry_quiet in Hs.
Qed.

Lemma link_quiet p e s s' : link_entry p e s = Some s' -> grow s s'.
Proof.
  unfold link_entry. destruct (insert_sorted _ _ _ _) as [l|]; [|discriminate].
  set (s0 := s <| pmksa := l |>).
  destruct (if bool_decide _ then _ else _) as [s1|] eqn:H1; [|discriminate].
  assert (grow s0 s1) as Hg by (destruct (bool_decide _); [now apply set_expiration_quiet|];
                                injection H1 as <-; grow_update).
  intros [= <-]. eapply grow_trans; [exact Hg|].
  grow_update.
Qed.

Lemma replace_quiet pre pos post ctx s s' : replace_entry pre pos post ctx s = Some s' -> grow s s'.
Proof.
  unfold replace_entry. destruct (heap s !! pos) as [pe|]; [|discriminate].
  set (s0 := s <| pmksa := pre ++ post |>).
  destruct (if negb _ then _ else _) as [s1|] eqn:H1; [|discriminate].
  assert (grow s0 s1) as Hg by (destruct (negb _); [now apply flush_quiet in H1|];
                                injection H1 as <-; grow_update).
  intros H. eapply grow_trans; [exact Hg | now apply free_entry_quiet in H].
Qed.

Lemma room_link_quiet p e s r s' :
  (let? s := evict_oldest s in let? s := link_entry p e s in Some (p, s)) = Some (r, s') -> grow s s'.
Proof.
  destruct (evict_oldest s) as [s1|] eqn:H1; [|discriminate].
  destruct (link_entry p e s1) as [s2|] eqn:H2; [|discriminate]. intros [= <- <-].
  eapply grow_trans; [exact (evict_quiet _ _ H1) | exact (link_quiet _ _ _ _ H2)].
Qed.

Lemma add_entry_quiet p s r s' : pmksa_cache_add_entry p s = Some (r, s') -> grow s s'.
Proof.
  unfold pmksa_cache_add_entry. destruct (heap s !! p) as [e|]; [|discriminate].
  destruct (find_aa _ _ _ _) as [[[[pre pos] post]|]|]; [| |discriminate].
  - destruct (heap s !! pos); [|discriminate].
    destruct (same_pmksa _ _); [intros [= <- <-]; apply _free_entry_quiet|].
    destruct (replace_entry _ _ _ _ _) as [s1|] eqn:H1; [|discriminate]. intros H.
    eapply grow_trans; [exact (replace_quiet _ _ _ _ _ _ H1) | exact (room_link_quiet _ _ _ _ _ H)].
  - apply room_link_quiet.
Qed.

Lemma alloc_entry_quiet e s p s' : entry_typed e -> alloc_entry e s = (p, s') -> grow s s'.
Proof.
  intros He [= <- <-]. split; [cbn [events over]; auto with quiet|].
  intros (Hh & Hk & Hl). split; [now apply map_Forall_insert_2 | auto].
Qed.

Lemma new_entry_typed key : zlen key <= PMK_LEN_MAX ->
  zlen (overwrite (replicate (Z.to_nat PMK_LEN_MAX) 0) key) = PMK_LEN_MAX /\ 0 <= zlen key <= PMK_LEN_MAX.
Proof.
  intros Hk. pose proof (zlen_nonneg key). split; [|lia]. unfold zlen, PMK_LEN_MAX in *.
  rewrite length_overwrite; rewrite length_replicate; lia.
Qed.

Lemma add_quiet key pmkid kck aa spa ctx akmp cid s r s' :
  pmksa_cache_add key pmkid kck aa spa ctx akmp cid s = Some (r, s') -> grow s s'.
Proof.
  unfold pmksa_cache_add. destruct (Z.ltb_spec PMK_LEN_MAX (zlen key)) as [|Hk]; [intros [= <- <-]; grow_update|].
  destruct (_ && _); [intros [= <- <-]; grow_update|]. unfold ask_malloc.
  destruct (negb _); [intros [= <- <-]; grow_update|]. unfold get_time. cbv zeta.
  match goal with |- context [alloc_entry ?e ?t] => destruct (alloc_entry e t) as [p s1] eqn:H1;
    apply alloc_entry_quiet in H1; [|exact (new_entry_typed key Hk)] end.
  destruct (pmksa_cache_add_entry p s1) as [[q s2]|] eqn:H2; [|discriminate]. intros [= <- <-].
  apply add_entry_quiet in H2. exact (grow_trans _ _ _ H1 H2).
Qed.

(** Assignments that leave the PMK of the entry. *)
Lemma update_quiet p f s s' :
  (forall e, e_pmk (f e) = e_pmk e /\ e_pmk_len (f e) = e_pmk_len e) ->
  update_entry p f s = Some s' -> grow s s'.
Proof.
  intros Hf. unfold update_entry. destruct (heap s !! p) as [e|] eqn:He; [|discriminate]. intros [= <-].
  split; [cbn [events over]; auto with quiet|]. intros (Hh & Hk & Hl). split; [|auto].
  apply map_Forall_insert_2; [|done]. unfold entry_typed. destruct (Hf e) as [-> ->]. exact (Hh _ _ He).
Qed.

Lemma clone_quiet old aa s r s' : pmksa_cache_clone_entry old aa s = Some (r, s') -> grow s s'.
Proof.
  unfold pmksa_cache_clone_entry. destruct (heap s !! old) as [e|]; [|discriminate].
  destruct (pmksa_cache_add _ _ _ _ _ _ _ _ _) as [[[p|] s1]|] eqn:Ha; [| |discriminate].
  - destruct (update_entry p _ s1) as [s2|] eqn:Hu; [|discriminate]. intros [= <- <-].
    eapply grow_trans; [exact (add_quiet _ _ _ _ _ _ _ _ _ _ _ Ha) | apply update_quiet in Hu; [exact Hu | done]].
  - intros [= <- <-]. exact (add_quiet _ _ _ _ _ _ _ _ _ _ _ Ha).
Qed.

Lemma opportunistic_quiet ctx akmp aa l : forall s r s',
  opportunistic_loop ctx akmp aa l s = Some (r, s') -> grow s s'.
Proof.
  induction l as [|p l IH]; intros s r s'; cbn [opportunistic_loop]; [intros [= <- <-]; grow_update|].
  destruct (heap s !! p) as [e|]; [|discriminate]. destruct (_ && _); [|apply IH].
  unfold get_time. destruct (wpa_key_mgmt_sae _).
  - destruct (_ <? _); intros H; [apply IH in H | apply clone_quiet in H]; exact H.
  - apply clone_quiet.
Qed.

Lemma try_current_quiet c f s s' :
  (forall r s1, f s = Some (r, s1) -> grow s s1) -> try_current c f s = Some s' -> grow s s'.
Proof.
  unfold try_current. intros Hf. destruct (_ && _); [|intros [= <-]; grow_update].
  destruct (f s) as [[r s1]|]; [|discriminate]. intros [= <-]. exact (Hf r s1 eq_refl).
Qed.

Lemma pure_get_quiet f s r s' : pure_get f s = Some (r, s') -> grow s s'.
Proof. unfold pure_get. destruct (f s); [|discriminate]. intros [= <- <-]. grow_update. Qed.

Lemma get_opportunistic_quiet ctx aa akmp s r s' :
  pmksa_cache_get_opportunistic ctx aa akmp s = Some (r, s') -> grow s s'.
Proof.
  unfold pmksa_cache_get_opportunistic. destruct (_ =? _); [|apply opportunistic_quiet].
  intros [= <- <-]. grow_update.
Qed.

Lemma set_current_quiet pmkid sel ctx opp fils akmp s r s' :
  pmksa_cache_set_current pmkid sel ctx opp fils akmp s = Some (r, s') -> grow s s'.
Proof.
  unfold pmksa_cache_set_current. set (s0 := s <| cur_pmksa := None |>).
  destruct (try_current _ _ s0) as [s1|] eqn:H1; [|discriminate].
  destruct (try_current _ _ s1) as [s2|] eqn:H2; [|discriminate].
  destruct (try_current _ _ s2) as [s3|] eqn:H3; [|discriminate].
  destruct (try_current _ _ s3) as [s4|] eqn:H4; [|discriminate]. intros H.
  assert (grow s0 s4) as Hg.
  { eapply grow_trans; [eapply try_current_quiet; [|exact H1]; intros ? ?; apply pure_get_quiet|].
    eapply grow_trans; [eapply try_current_quiet; [|exact H2]; intros ? ?; apply pure_get_quiet|].
    eapply grow_trans; [eapply try_current_quiet; [|exact H3]; intros ? ?; apply get_opportunistic_quiet|].
    eapply try_current_quiet; [|exact H4]; intros ? ?; apply pure_get_quiet. }
  eapply grow_trans; [exact Hg|]. revert H. unfold get_time.
  repeat (case_match; try discriminate); intros [= <- <-]; grow_update.
Qed.

Lemma reconfig_loop_quiet now l : forall s s', reconfig_loop now l s = Some s' -> grow s s'.
Proof.
  induction l as [|p l IH]; intros s s'; cbn [reconfig_loop]; [intros [= <-]; grow_update|].
  destruct (heap s !! p) as [e|]; [|discriminate].
  destruct (_ || _); [apply IH|]. destruct (_ =? _); [apply IH|]. intros H.
  eapply grow_trans; [|apply IH; exact H]. grow_update.
Qed.

Lemma reconfig_quiet s s' : pmksa_cache_reconfig s = Some s' -> grow s s'.
Proof.
  unfold pmksa_cache_reconfig. destruct (bool_decide _); [intros [= <-]; grow_update|].
  unfold get_time. intros H. now apply reconfig_loop_quiet in H.
Qed.
End Cache.

(** ** The cache invariant, from the lemmas of PmksaSafe.v *)

Section CacheWf.
Context `{ENV : WpaEnv} `{HM : Hmac}.

Lemma add_spec key pmkid kck aa spa ctx akmp cid s r s' :
  pmksa_wf s -> pmksa_cache_add key pmkid kck aa spa ctx akmp cid s = Some (r, s') ->
  pmksa_wf s' /\ forall p, r = Some p -> p ∈ pmksa s'.
Proof.
  intros Hwf H. destruct (add_ok key pmkid kck aa spa ctx akmp cid s Hwf) as (q & t & H1 & Hwf1 & Hq).
  rewrite H in H1. injection H1 as <- <-. split; [done|]. intros p ->. apply Hq.
Qed.

Lemma add_wf key pmkid kck aa spa ctx akmp cid s r s' :
  pmksa_wf s -> pmksa_cache_add key pmkid kck aa spa ctx akmp cid s = Some (r, s') -> pmksa_wf s'.
Proof. intros Hwf H. exact (proj1 (add_spec _ _ _ _ _ _ _ _ _ _ _ Hwf H)). Qed.

Lemma update_opp_wf c s s' :
  pmksa_wf s -> update_entry c (fun e => e <| e_opportunistic := false |>) s = Some s' -> pmksa_wf s'.
Proof.
  intros Hwf H. assert (c ∈ pmksa s) as Hc.
  { rewrite <- (app_nil_r (pmksa s)). apply (ok_heap _ _ _ (proj1 Hwf)).
    revert H. unfold update_entry. destruct (heap s !! c); [eauto | discriminate]. }
  match goal with H : update_entry c ?f s = _ |- _ =>
    destruct (update_wf c f s Hwf Hc) as (t & H1 & Hwf1 & _); [done|] end.
  rewrite H in H1. now injection H1 as <-.
Qed.
End CacheWf.

(** ** The calls into the EAPOL state machines *)

Section Calls.
Context {E : Type} `{EO : EapolOps E}.

Inductive eapol_call : relation E :=
| C_portValid b e : eapol_call e (eapol_notify_portValid b e)
| C_eap_success b e : eapol_call e (eapol_notify_eap_success b e)
| C_eap_fail b e : eapol_call e (eapol_notify_eap_fail b e)
| C_cached e : eapol_call e (eapol_notify_cached e)
| C_tx_eapol_key e : eapol_call e (eapol_notify_tx_eapol_key e)
| C_lower_layer_success e : eapol_call e (eapol_notify_lower_layer_success false e)
| C_request_reauth e : eapol_call e (eapol_request_reauth e).

Definition eapol_calls : relation E := rtc eapol_call.

Lemma eapol_calls_refl e : eapol_calls e e.
Proof. apply rtc_refl. Qed.

Lemma eapol_calls_snoc e e1 e2 : eapol_calls e e1 -> eapol_call e1 e2 -> eapol_calls e e2.
Proof. apply rtc_r. Qed.
End Calls.

Create HintDb eapol discriminated.
#[export] Hint Constructors eapol_call : eapol.
#[export] Hint Resolve eapol_calls_refl eapol_calls_snoc : eapol.

(** ** The state machine *)

(** [quiet s s'] (below) for a record update that touches none of what it protects. *)
Ltac quiet_update :=
  split; [reflexivity | reflexivity | | exact id | apply same_cache_wf; split_and!; reflexivity |];
  unfold wpa_report_ie_mismatch, wpa_sm_set_state, wpa_sm_deauthenticate,
    wpa_sm_cancel_auth_timeout, wpa_sm_mlme_setprotection, wpa_sm_set_rekey_offload,
    wpa_supplicant_key_mgmt_set_pmk, on_eapol, sm_emit;
  cbn [pm events sm_eapol over emit]; solve [auto with quiet | eauto with eapol].

Section Sm.
Context {E : Type} `{EO : EapolOps E} `{EL : !EapolLaws E} `{ENV : WpaEnv} `{HM : Hmac} `{AES : AesCipher}.

(** Everything the handshake protects: keys, nonces and replay counters. *)
Definition keys (s : wpa_sm E) :=
  (ptk s, tptk s, ptk_set s, tptk_set s, renew_snonce s, snonce s, anonce s,
   rx_replay_counter s, rx_replay_counter_set s,
   gtk s, gtk_wnm_sleep s, igtk s, igtk_wnm_sleep s, bigtk s, bigtk_wnm_sleep s).

Lemma keys_inv s s' :
  keys s' = keys s ->
  ptk s' = ptk s /\ tptk s' = tptk s /\ ptk_set s' = ptk_set s /\ tptk_set s' = tptk_set s
  /\ renew_snonce s' = renew_snonce s.
Proof. intros H. injection H. auto 10. Qed.

Definition config (s : wpa_sm E) :=
  (proto s, key_mgmt s, pairwise_cipher s, group_cipher s, mgmt_group_cipher s, rsn_enabled s,
   beacon_prot s, ext_key_id s, wpa_rsc_relaxation s, assoc_wpa_ie s, assoc_wpa_ie_len s, assoc_rsnxe s).

Record quiet (s s' : wpa_sm E) : Prop := {
  q_keys : keys s' = keys s;
  q_config : config s' = config s;
  q_events : quiet_grow (events (pm s)) (events (pm s'));
  q_typed : pm_typed (pm s) -> pm_typed (pm s');
  q_wf : pmksa_wf (pm s) -> pmksa_wf (pm s');
  q_eapol : eapol_calls (sm_eapol s) (sm_eapol s')
}.

Lemma quiet_refl s : quiet s s.
Proof. split; auto with quiet eapol. Qed.

Lemma quiet_trans s1 s2 s3 : quiet s1 s2 -> quiet s2 s3 -> quiet s1 s3.
Proof.
  intros [K1 C1 E1 T1 W1 P1] [K2 C2 E2 T2 W2 P2]. split; [congruence | congruence | | auto | auto |].
  - exact (quiet_grow_trans _ _ _ E1 E2).
  - now transitivity (sm_eapol s2).
Qed.

Lemma ask_quiet {A} (f : nat -> A) s r s' : ask f s = (r, s') -> quiet s s'.
Proof. intros [= <- <-]. quiet_update. Qed.

Lemma sm_emit_quiet e s : quiet_event e -> quiet s (sm_emit e s).
Proof. intros. quiet_update. Qed.

Lemma on_eapol_quiet f s : (forall e, eapol_call e (f e)) -> quiet s (on_eapol f s).
Proof. intros Hf. quiet_update. Qed.

Lemma on_pm_quiet f s s' :
  (forall p, f (pm s) = Some p -> grow (pm s) p) ->
  (forall p, pmksa_wf (pm s) -> f (pm s) = Some p -> pmksa_wf p) ->
  on_pm f s = Some s' -> quiet s s'.
Proof.
  unfold on_pm. intros Hf Hw. destruct (f (pm s)) as [p|]; [|discriminate]. intros [= <-].
  destruct (Hf p eq_refl). split; eauto with eapol.
Qed.

Lemma on_pm'_quiet {A} (f : pmksa_st -> option (A * pmksa_st)) s r s' :
  (forall r p, f (pm s) = Some (r, p) -> grow (pm s) p) ->
  (forall r p, pmksa_wf (pm s) -> f (pm s) = Some (r, p) -> pmksa_wf p) ->
  on_pm' f s = Some (r, s') -> quiet s s'.
Proof.
  unfold on_pm'. intros Hf Hw. destruct (f (pm s)) as [[q p]|]; [|discriminate]. intros [= <- <-].
  destruct (Hf q p eq_refl). split; eauto with eapol.
Qed.

Lemma quiet_set_cur r (s s1 : wpa_sm E) :
  quiet s s1 -> (pmksa_wf (pm s) -> forall p, r = Some p -> p ∈ pmksa (pm s1)) ->
  quiet s (set_cur r s1).
Proof.
  intros [Hk Hc He Ht Hw Hp] Hr. split; try assumption.
  intros H. exact (set_cur_wf r _ (Hw H) (Hr H)).
Qed.

Lemma clear_cur_quiet (s : wpa_sm E) : quiet s (set_cur None s).
Proof. apply quiet_set_cur; [apply quiet_refl | done]. Qed.

Lemma set_state_quiet st s : quiet s (wpa_sm_set_state st s).
Proof. quiet_update. Qed.

Lemma deauth_quiet reason s : quiet s (wpa_sm_deauthenticate reason s).
Proof. quiet_update. Qed.

Lemma sm_pmksa_add_quiet key pmkid kck aa s r s' :
  sm_pmksa_add key pmkid kck aa s = Some (r, s') -> quiet s s'.
Proof. apply on_pm'_quiet; intros ? ?; [apply add_quiet | apply add_wf]. Qed.

(** The address of a new entry is in the cache. *)
Lemma sm_pmksa_add_in key pmkid kck aa (s : wpa_sm E) r (s' : wpa_sm E) :
  sm_pmksa_add key pmkid kck aa s = Some (r, s') -> pmksa_wf (pm s) ->
  forall p, r = Some p -> p ∈ pmksa (pm s').
Proof.
  unfold sm_pmksa_add, on_pm'. intros H Hwf.
  destruct (pmksa_cache_add _ _ _ _ _ _ _ _ _) as [[q t]|] eqn:Ha; [|discriminate].
  injection H as <- <-. exact (proj2 (add_spec _ _ _ _ _ _ _ _ _ _ _ Hwf Ha)).
Qed.

Lemma ether_send_quiet dest frame s r s' : wpa_sm_ether_send dest frame s = (r, s') -> quiet s s'.
Proof. unfold wpa_sm_ether_send, ask. intros [= <- <-]. quiet_update. Qed.

Lemma alloc_quiet type body s r s' : alloc_eapol type body s = (r, s') -> quiet s s'.
Proof. unfold alloc_eapol, ask. intros [= <- <-]. quiet_update. Qed.

Lemma key_send_quiet p ver dest msg mic s r s' :
  wpa_eapol_key_send p ver dest msg mic s = (r, s') -> quiet s s'.
Proof.
  unfold wpa_eapol_key_send, ask.
  destruct (if is_zero_ether_addr dest && _ then _ else _) as [d s1] eqn:H1.
  assert (quiet s s1) as Hq by (repeat case_match; simplify_eq; try quiet_update; apply quiet_refl).
  destruct (_ =? 0); [intros [= <- <-]; exact Hq|].
  destruct (if mic then _ else _) as [m|]; [|intros [= <- <-]; exact Hq].
  destruct (wpa_sm_ether_send d m s1) as [ret s2] eqn:H2. intros [= <- <-].
  eapply quiet_trans; [exact Hq|]. eapply quiet_trans; [exact (ether_send_quiet _ _ _ _ _ H2)|].
  apply on_eapol_quiet; auto with eapol.
Qed.

Lemma send_key_msg_quiet p ver info dest len replay nonce data mic s r s' :
  send_key_msg p ver info dest len replay nonce data mic s = (r, s') -> quiet s s'.
Proof.
  unfold send_key_msg. destruct (alloc_eapol _ _ s) as [rbuf s1] eqn:H1. apply alloc_quiet in H1.
  destruct rbuf as [m|]; [|intros [= <- <-]; exact H1].
  intros H. eapply quiet_trans; [exact H1 | exact (key_send_quiet _ _ _ _ _ _ _ _ H)].
Qed.

Lemma send_2_of_4_quiet dst f ver nonce ie p s r s' :
  wpa_supplicant_send_2_of_4 dst f ver nonce ie p s = (r, s') -> quiet s s'.
Proof. apply send_key_msg_quiet. Qed.
Lemma send_4_of_4_quiet dst f ver info p s r s' :
  wpa_supplicant_send_4_of_4 dst f ver info p s = (r, s') -> quiet s s'.
Proof. apply send_key_msg_quiet. Qed.
Lemma send_2_of_2_quiet f ver info s r s' :
  wpa_supplicant_send_2_of_2 f ver info s = (r, s') -> quiet s s'.
Proof. apply send_key_msg_quiet. Qed.

Lemma key_request_quiet error pairwise s : quiet s (wpa_sm_key_request error pairwise s).
Proof.
  unfold wpa_sm_key_request. destruct (_ && _ && _ && _); [quiet_update|].
  destruct (ask env_get_bssid s) as [r s1] eqn:H1. apply ask_quiet in H1.
  destruct r as [dest|]; [|exact H1]. cbv zeta.
  match goal with |- context [alloc_eapol ?t ?b s1] =>
    destruct (alloc_eapol t b s1) as [rbuf s2] eqn:H2 end.
  apply alloc_quiet in H2. pose proof (quiet_trans _ _ _ H1 H2) as H12.
  destruct rbuf as [m|]; [|exact H12].
  match goal with |- context [wpa_eapol_key_send ?p ?v ?d ?m ?b ?t] =>
    destruct (wpa_eapol_key_send p v d m b t) as [ret s3] eqn:H3; assert (quiet s2 t) as Hu by quiet_update end.
  apply key_send_quiet in H3. cbn [snd].
  eapply quiet_trans; [exact H12|]. eapply quiet_trans; [exact Hu | exact H3].
Qed.

Lemma set_pmk_from_pmksa_quiet s s' : wpa_sm_set_pmk_from_pmksa s = Some s' -> quiet s s'.
Proof.
  unfold wpa_sm_set_pmk_from_pmksa. destruct (cur_pmksa (pm s)) as [c|].
  - destruct (heap (pm s) !! c) as [e|] eqn:He; [|discriminate]. intros [= <-].
    split; [reflexivity | reflexivity | cbn; auto with quiet | | apply same_cache_wf; split_and!; reflexivity | apply eapol_calls_refl].
    intros (Hh & Hk & Hl). destruct (Hh _ _ He) as [Hek Hel]. split; [exact Hh|].
    cbn [pmk pmk_len pm over]. split; [|exact Hel]. unfold entry_key, key_of, zlen in *.
    rewrite length_overwrite; [exact Hk|]. rewrite length_take. lia.
  - intros [= <-]. split; [reflexivity | reflexivity | cbn; auto with quiet | |
      apply same_cache_wf; split_and!; reflexivity | apply eapol_calls_refl].
    intros (Hh & _ & _). split; [exact Hh|]. now vm_compute.
Qed.

(** Writing what the EAPOL machines give into the PMK. *)
Lemma set_pmk_quiet s len :
  len <= PMK_LEN_MAX ->
  quiet s (s <| pm := pm s <| pmk := (eapol_get_key (sm_eapol s) (pmk (pm s)) len).2 |> |>).
Proof.
  intros Hlen. split; [reflexivity | reflexivity | cbn; auto with quiet | |
    apply same_cache_wf; split_and!; reflexivity | apply eapol_calls_refl].
  intros (Hh & Hk & Hl). split; [exact Hh|]. cbn [pm over pmk pmk_len]. split; [|exact Hl].
  rewrite <- Hk. unfold zlen. f_equal. apply eapol_get_key_len. lia.
Qed.

Lemma get_eapol_pmk_quiet s r len s' : get_eapol_pmk s = (r, len, s') -> quiet s s'.
Proof.
  unfold get_eapol_pmk. cbv zeta.
  set (l := if wpa_key_mgmt_sha384 _ then _ else _).
  assert (l <= PMK_LEN_MAX) as Hl by (unfold l; destruct (wpa_key_mgmt_sha384 _); vm_compute; discriminate).
  pose proof (set_pmk_quiet s l Hl) as H1. destruct (eapol_get_key _ _ l) as [res buf]. cbn [snd] in H1.
  set (s1 := s <| pm := _ |>) in *. destruct (_ && _); [|intros [= <- <- <-]; exact H1].
  pose proof (set_pmk_quiet s1 16 ltac:(vm_compute; discriminate)) as H2.
  destruct (eapol_get_key _ _ 16) as [res' buf']. intros [= <- <- <-]. exact (quiet_trans _ _ _ H1 H2).
Qed.

Lemma get_eapol_pmk_len s r len s' : get_eapol_pmk s = (r, len, s') -> 0 <= len <= PMK_LEN_MAX.
Proof.
  unfold get_eapol_pmk. cbv zeta. destruct (eapol_get_key _ _ _) as [res buf].
  destruct (_ && _); [destruct (eapol_get_key _ _ 16) as [res' buf']|];
    intros [= _ <- _]; [now vm_compute|]. destruct (wpa_key_mgmt_sha384 _); now vm_compute.
Qed.

(** The PMK of the given length is in use. *)
Lemma use_pmk_quiet s len :
  0 <= len <= PMK_LEN_MAX ->
  quiet s (wpa_supplicant_key_mgmt_set_pmk (s <| pm := pm s <| pmk_len := len |> |>)).
Proof.
  intros Hlen. split; [reflexivity | reflexivity | | | apply same_cache_wf; split_and!; reflexivity | apply eapol_calls_refl].
  - unfold wpa_supplicant_key_mgmt_set_pmk, sm_emit. cbn [pm events over emit]. auto with quiet.
  - intros (Hh & Hk & _). split; [exact Hh|]. split; [exact Hk | exact Hlen].
Qed.

Lemma use_eapol_pmk_quiet src pmkid len ab s r s' :
  0 <= len <= PMK_LEN_MAX ->
  use_eapol_pmk src pmkid len ab s = Some (r, s') -> quiet s s'.
Proof.
  intros Hlen. unfold use_eapol_pmk. cbv zeta.
  pose proof (use_pmk_quiet s len Hlen) as H0. set (s0 := wpa_supplicant_key_mgmt_set_pmk _) in *.
  clearbody s0. destruct (if _ && _ && _ then _ else _) as [[sa s1]|] eqn:H1; [|discriminate].
  assert (quiet s0 s1 /\ (pmksa_wf (pm s0) -> forall p, sa = Some p -> p ∈ pmksa (pm s1))) as [Hq Hsa].
  { destruct (_ && _ && _); [|injection H1 as <- <-; split; [apply quiet_refl | done]].
    split; [exact (sm_pmksa_add_quiet _ _ _ _ _ _ _ H1) | exact (sm_pmksa_add_in _ _ _ _ _ _ _ H1)]. }
  clear H1. destruct (if _ && _ then _ else _) as [found|]; [|discriminate].
  assert (forall b : bool, quiet s (if b then set_cur sa s1 else s1)) as Hcur
    by (intros []; (eapply quiet_trans; [exact H0|]); [now apply quiet_set_cur | exact Hq]).
  apply (quiet_trans _ _ _ H0) in Hq.
  destruct (bool_decide (is_Some found)); [intros [= <- <-]; apply Hcur|].
  destruct (_ && _ && _); intros [= <- <-]; [exact Hq | apply Hcur].
Qed.

Lemma no_eapol_pmk_quiet ab s r s' : no_eapol_pmk ab s = (r, s') -> quiet s s'.
Proof.
  unfold no_eapol_pmk. destruct (bool_decide _); [intros [= <- <-]; apply clear_cur_quiet|].
  destruct (negb ab); intros [= <- <-]; apply quiet_refl.
Qed.

Lemma trigger_full_eap_quiet s r s' : trigger_full_eap s = (r, s') -> quiet s s'.
Proof.
  unfold trigger_full_eap. destruct (alloc_eapol _ _ s) as [buf s1] eqn:H1. apply alloc_quiet in H1.
  destruct buf as [b|]; [|intros [= <- <-]; exact H1]. cbv zeta.
  set (s2 := on_eapol _ (on_eapol _ s1)). assert (quiet s1 s2) as H2 by (unfold s2; quiet_update).
  destruct (wpa_sm_ether_send _ _ s2) as [ret s3] eqn:H3. intros [= <- <-].
  eapply quiet_trans; [exact H1|]. eapply quiet_trans; [exact H2 | exact (ether_send_quiet _ _ _ _ _ H3)].
Qed.

Lemma find_pmkid_quiet src pmkid s r s' : find_pmkid src pmkid s = Some (r, s') -> quiet s s'.
Proof.
  unfold find_pmkid. destruct (_ && _); [|intros [= <- <-]; apply quiet_refl].
  destruct (pmksa_cache_get _ _ _ _ _) as [q|] eqn:Hg; [|discriminate]. intros [= <- <-].
  apply quiet_set_cur; [apply quiet_refl|]. intros Hwf.
  destruct (wf_get (Some src) pmkid 0 0 _ Hwf) as (q' & Hg' & Hq). rewrite Hg in Hg'. injection Hg' as <-. exact Hq.
Qed.

Lemma get_pmk_quiet src pmkid s r s' :
  wpa_supplicant_get_pmk src pmkid s = Some (r, s') -> quiet s s'.
Proof.
  unfold wpa_supplicant_get_pmk.
  destruct (find_pmkid src pmkid s) as [[ab s1]|] eqn:H1; [|discriminate].
  apply find_pmkid_quiet in H1. destruct (pmkid_matches pmkid s1) as [matched|]; [|discriminate].
  destruct (if matched then _ else _) as [[q s2]|] eqn:H2; [|discriminate].
  assert (quiet s1 s2) as Hq.
  { destruct matched.
    - destruct (wpa_sm_set_pmk_from_pmksa s1) as [s3|] eqn:H3; [|discriminate].
      injection H2 as <- <-. eapply quiet_trans; [exact (set_pmk_from_pmksa_quiet _ _ H3)|].
      apply on_eapol_quiet; auto with eapol.
    - destruct (wpa_key_mgmt_wpa_ieee8021x _); [|injection H2 as <- <-; apply quiet_refl].
      destruct (get_eapol_pmk s1) as [[res len] s3] eqn:H3.
      pose proof (get_eapol_pmk_len _ _ _ _ H3) as Hlen. apply get_eapol_pmk_quiet in H3.
      eapply quiet_trans; [exact H3|]. destruct (res =? 0).
      + exact (use_eapol_pmk_quiet _ _ _ _ _ _ _ Hlen H2).
      + injection H2 as H2. exact (no_eapol_pmk_quiet _ _ _ _ H2). }
  intros H. eapply quiet_trans; [exact H1|]. eapply quiet_trans; [exact Hq|].
  destruct q as [ab'|]; [|injection H as <- <-; apply quiet_refl].
  destruct (_ && _ && _ && _ && _); injection H as H; [exact (trigger_full_eap_quiet _ _ _ H)|].
  subst s'. apply quiet_refl.
Qed.

Lemma key_neg_complete_quiet addr secure s s' :
  wpa_supplicant_key_neg_complete addr secure s = Some s' -> quiet s s'.
Proof.
  unfold wpa_supplicant_key_neg_complete. cbv zeta.
  set (s1 := if secure then _ else _).
  assert (quiet s s1) as H1 by (unfold s1; destruct secure; [destruct (_ || _ || _)|]; quiet_update).
  clearbody s1. destruct (cur_pmksa (pm s1)) as [c|]; [|intros [= <-]; exact H1].
  destruct (heap (pm s1) !! c) as [e|]; [|discriminate].
  destruct (e_opportunistic e); [|intros [= <-]; exact H1]. intros H.
  eapply quiet_trans; [exact H1|]. eapply on_pm_quiet; [| |exact H].
  - intros p. now apply update_quiet.
  - intros p. apply update_opp_wf.
Qed.

Lemma get_beacon_ie_quiet s r s' : wpa_sm_get_beacon_ie s = (r, s') -> quiet s s'.
Proof.
  unfold wpa_sm_get_beacon_ie, ask. destruct (env_beacon_ie _) as [ret [[[a b] c]|]];
    intros [= <- <-]; quiet_update.
Qed.

Lemma validate_ie_quiet wpa rsn rsnxe s r s' :
  wpa_supplicant_validate_ie wpa rsn rsnxe s = (r, s') -> quiet s s'.
Proof.
  unfold wpa_supplicant_validate_ie.
  destruct (if _ && _ then wpa_sm_get_beacon_ie s else _) as [ret s1] eqn:H1.
  assert (quiet s s1) as Hq by (destruct (_ && _); [exact (get_beacon_ie_quiet _ _ _ H1)|];
    injection H1 as <- <-; apply quiet_refl).
  clear H1. assert (forall t, quiet s1 t -> quiet s t) as Ht by (intros t; now apply quiet_trans).
  destruct (ret <? 0); [intros [= <- <-]; exact Hq|].
  repeat lazymatch goal with |- (if ?b then _ else _) = _ -> _ => destruct b end;
    intros [= <- <-]; try exact Hq; apply Ht; quiet_update.
Qed.
End Sm.
