(* ===== verification/WpaSteps.v ===== *)
(** * The elementary steps of the WPA state machine

    Whatever the functions of WpaHandshake.v and WpaOps.v do to the keys, the
    counters and the driver is a sequence of the steps of [prim].  An invariant of
    the state machine is proved on these steps, once for each kind of step, and
    holds for every operation ([run_wpa_op_steps]). *)

From stdpp Require Import gmap.
From S2P Require Import Prelude WpaDefs WpaCommon Crypto Rc4 AesWrap RsnIe KeyData WpaTypes Pmksa PmksaProps PmksaSpec PmksaSafe WpaSm WpaHandshake WpaOps WpaFrame.

(** The driver was given a pairwise key and took it. *)
Definition is_ptk_install (e : wpa_event) : bool :=
  match e with
  | EvSetKey alg _ _ _ _ _ flags ok =>
      negb (bool_decide (alg = WPA_ALG_NONE)) && has flags KEY_FLAG_PAIRWISE && ok
  | _ => false
  end.

(** The key arrays hold 32 bytes, and the lengths stay inside. *)
Definition gtk_typed (g : wpa_gtk) : Prop := length (gtk_key g) = 32%nat /\ 0 <= gtk_key_len g <= 32.

Lemma gtk_zero_typed : gtk_typed gtk_zero.
Proof. now split. Qed.

Lemma store_gtk_typed g key len : gtk_typed g -> 0 <= len <= 32 -> gtk_typed (store_gtk g key len).
Proof.
  intros [Hg _] Hlen. split; [|exact Hlen]. cbn [gtk_key store_gtk].
  rewrite length_overwrite; [exact Hg|]. unfold key_of. rewrite length_take. lia.
Qed.

Lemma check_group_cipher_len cipher keylen m r :
  wpa_supplicant_check_group_cipher cipher keylen m = Some r -> 0 <= keylen <= 32.
Proof.
  unfold wpa_supplicant_check_group_cipher. destruct (bool_decide _); [discriminate|]. cbv zeta.
  destruct (_ || _) eqn:H; [discriminate|]. intros _. apply orb_false_elim in H as [H _].
  apply negb_false_iff, Z.eqb_eq in H. rewrite H. apply wpa_cipher_key_len_range.
Qed.

Section Steps.
Context {E : Type} `{EO : EapolOps E} `{EL : !EapolLaws E} `{ENV : WpaEnv} `{HM : Hmac} `{AES : AesCipher}.

(** The keys without and with those of the group. *)
Definition pairwise (s : wpa_sm E) :=
  (ptk s, tptk s, ptk_set s, tptk_set s, renew_snonce s, snonce s, anonce s,
   rx_replay_counter s, rx_replay_counter_set s).
Definition group (s : wpa_sm E) : list wpa_gtk :=
  [gtk s; gtk_wnm_sleep s; igtk s; igtk_wnm_sleep s; bigtk s; bigtk_wnm_sleep s].

(** The element of the association, pointer and length. *)
Definition assoc_ie (s : wpa_sm E) := (assoc_wpa_ie s, assoc_wpa_ie_len s).

(** A length [n] beside a NULL pointer is the rest of a copy that found no memory. *)
Definition ie_typed (ie : option bytes) (n : Z) : Prop :=
  match ie with Some b => n = zlen b | None => n = 0 \/ exists k, env_malloc k = false end.
Definition ie_ok (s : wpa_sm E) : Prop := ie_typed (assoc_wpa_ie s) (assoc_wpa_ie_len s).

(** The length of an element that is gone; without one, the element is read whole. *)
Definition stale (s : wpa_sm E) : Prop := assoc_wpa_ie s = None /\ 0 < assoc_wpa_ie_len s.

Lemma ie_ok_read s : ie_ok s ->
  read_assoc_ie s = if bool_decide (assoc_wpa_ie s = None) && (0 <? assoc_wpa_ie_len s) then None
                    else Some (default [] (assoc_wpa_ie s)).
Proof.
  unfold ie_ok, ie_typed, read_assoc_ie. destruct (assoc_wpa_ie s) as [b|]; cbn [default].
  - intros ->. rewrite bool_decide_false by done. cbn [andb]. rewrite Z.ltb_irrefl.
    unfold zlen. now rewrite Nat2Z.id, firstn_all.
  - intros _. rewrite bool_decide_true by done. change (zlen []) with 0. cbn [andb].
    destruct (0 <? _); [done|]. now rewrite take_nil.
Qed.

Lemma ie_ok_whole s ie : ie_ok s -> read_assoc_ie s = Some ie -> ie = default [] (assoc_wpa_ie s).
Proof. intros Hok. rewrite (ie_ok_read s Hok). destruct (_ && _); congruence. Qed.

Lemma ie_ok_stale s : ie_ok s -> read_assoc_ie s = None -> stale s.
Proof.
  intros Hok. rewrite (ie_ok_read s Hok). destruct (_ && _) eqn:H; [|done]. intros _.
  apply andb_prop in H as [H1 H2]. apply bool_decide_eq_true in H1. apply Z.ltb_lt in H2. now split.
Qed.

(** The PTK is in the driver. *)
Definition ptk_installed (p : wpa_ptk) : wpa_ptk :=
  p <| tk := replicate WPA_TK_MAX_LEN 0 |> <| tk_len := 0 |> <| installed := true |>.

(** The temporary PTK has been confirmed by a valid MIC. *)
Definition accept_tptk (s : wpa_sm E) : wpa_sm E :=
  s <| tptk_set := false |> <| ptk_set := true |> <| ptk := tptk s |>
    <| tptk := ptk_zero |> <| renew_snonce := true |>.

(** The steps of an authenticated message: nothing but installing keys. *)
Inductive hs_step : wpa_sm E -> wpa_sm E -> Prop :=
| P_quiet s s' : quiet s s' -> hs_step s s'
| P_other s s' :
    keys s' = keys s -> pm s' = pm s -> sm_eapol s' = sm_eapol s -> assoc_ie s' = assoc_ie s -> hs_step s s'
| P_set_key alg addr idx tx rsc key fl s r s' :
    wpa_sm_set_key alg addr idx tx rsc key fl s = (r, s') ->
    is_ptk_install (EvSetKey alg addr idx tx rsc key fl r) = false -> hs_step s s'
| P_install alg addr idx tx rsc key fl s s1 s2 :
    installed (ptk s) = false -> tk_len (ptk s) <> 0 ->
    wpa_sm_set_key alg addr idx tx rsc key fl s = (true, s1) -> quiet s1 s2 ->
    hs_step s (s2 <| ptk := ptk_installed (ptk s2) |>)
| P_group s s' :
    pairwise s' = pairwise s -> pm s' = pm s -> sm_eapol s' = sm_eapol s ->
    (Forall gtk_typed (group s) -> Forall gtk_typed (group s')) -> assoc_ie s' = assoc_ie s -> hs_step s s'
| P_renew s : hs_step s (s <| renew_snonce := true |>).

Inductive prim : wpa_sm E -> wpa_sm E -> Prop :=
| P_hs s s' : hs_step s s' -> prim s s'
| P_snonce s k n :
    renew_snonce s = true -> env_random k = Some n ->
    prim s (s <| snonce := n |> <| renew_snonce := false |> ▸ sm_emit (EvRandom n))
| P_derive f s : prim s (s <| tptk := (wpa_derive_ptk f (tptk s) s).2 |>)
| P_swap s : prim s (s <| tptk := tptk s <| tk := swap_mic_keys (tk (tptk s)) |> |>)
| P_tptk_set s : renew_snonce s = false -> prim s (s <| tptk_set := true |>)
| P_accept s : tptk_set s = true -> prim s (accept_tptk s)
| P_counter s c : length c = WPA_REPLAY_COUNTER_LEN -> prim s (s <| rx_replay_counter := c |>)
| P_counter_set s b : prim s (s <| rx_replay_counter_set := b |>)
| P_anonce s n : length n = WPA_NONCE_LEN -> prim s (s <| anonce := n |>)
| P_clear s : prim s (clear_keys s)
| P_kck s p :
    (ptk_wf (ptk s) -> ptk_wf p) -> installed p = installed (ptk s) -> tk_len p = tk_len (ptk s) ->
    prim s (s <| ptk := p |> <| ptk_set := true |>)
| P_assoc s ie n :
    (ie_ok s -> ie_typed ie n) -> prim s (s <| assoc_wpa_ie := ie |> <| assoc_wpa_ie_len := n |>).

Definition steps : relation (wpa_sm E) := rtc prim.

Definition hsteps : relation (wpa_sm E) := rtc hs_step.

Lemma hs_hsteps s s' : hs_step s s' -> hsteps s s'.
Proof. apply rtc_once. Qed.
Lemma quiet_hsteps s s' : quiet s s' -> hsteps s s'.
Proof. intros H. now apply hs_hsteps, P_quiet. Qed.
Lemma hsteps_refl s : hsteps s s.
Proof. apply rtc_refl. Qed.
Lemma hsteps_trans s1 s2 s3 : hsteps s1 s2 -> hsteps s2 s3 -> hsteps s1 s3.
Proof. intros H1 H2. etrans; [exact H1 | exact H2]. Qed.
Lemma hsteps_steps s s' : hsteps s s' -> steps s s'.
Proof. apply rtc_subrel. intros t t'. apply P_hs. Qed.

Lemma prim_steps s s' : prim s s' -> steps s s'.
Proof. apply rtc_once. Qed.
Lemma quiet_steps s s' : quiet s s' -> steps s s'.
Proof. intros H. now apply hsteps_steps, quiet_hsteps. Qed.
Lemma steps_refl s : steps s s.
Proof. apply rtc_refl. Qed.
Lemma steps_trans s1 s2 s3 : steps s1 s2 -> steps s2 s3 -> steps s1 s3.
Proof. intros H1 H2. etrans; [exact H1 | exact H2]. Qed.

(** An invariant of the steps. *)
Lemma steps_invariant (P : wpa_sm E -> Prop) :
  (forall s s', prim s s' -> P s -> P s') -> forall s s', steps s s' -> P s -> P s'.
Proof. intros HP s s'. induction 1 as [|s s1 s2 H _ IH]; eauto. Qed.

Lemma counter_steps s c b :
  length c = WPA_REPLAY_COUNTER_LEN ->
  steps s (s <| rx_replay_counter := c |> <| rx_replay_counter_set := b |>).
Proof.
  intros Hc. eapply steps_trans; [exact (prim_steps _ _ (P_counter s c Hc))|].
  apply prim_steps, P_counter_set.
Qed.

(** The goal is one step of the given kind from where the lemma [H] ends. *)
Ltac step_after H := eapply steps_trans; [exact H|]; apply prim_steps.

(** ** Installing keys *)

Lemma install_ptk_steps f fl s r s' :
  wpa_supplicant_install_ptk f fl s = (r, s') -> hsteps s s'.
Proof.
  unfold wpa_supplicant_install_ptk. destruct (installed (ptk s)) eqn:Hi; [intros [= <- <-]; apply hsteps_refl|].
  destruct (_ =? WPA_CIPHER_NONE); [intros [= <- <-]; apply hsteps_refl|].
  destruct (negb (wpa_cipher_valid_pairwise _)); [intros [= <- <-]; apply hsteps_refl|].
  destruct (_ || _) eqn:Hlen; [intros [= <- <-]; apply hsteps_refl|].
  apply orb_false_elim in Hlen as [Hpos Heq]. apply Z.leb_gt in Hpos.
  apply negb_false_iff, Z.eqb_eq in Heq.
  destruct (wpa_sm_set_key _ _ _ _ _ _ _ s) as [ok s1] eqn:H1. destruct ok; cbn [negb].
  2:{ intros [= <- <-]. apply hs_hsteps. eapply P_set_key; [exact H1|].
      cbn [is_ptk_install]. apply andb_false_r. }
  match goal with |- context [sm_emit ?e s1] => set (s2 := sm_emit e s1) end.
  assert (quiet s1 s2) as H2 by (apply sm_emit_quiet; exact I).
  assert (hs_step s (s2 <| ptk := ptk_installed (ptk s2) |>)) as H3
    by (eapply P_install; [exact Hi | lia | exact H1 | exact H2]).
  change (s2 <| ptk := _ |>) with (s2 <| ptk := ptk_installed (ptk s2) |>).
  set (s3 := s2 <| ptk := _ |>) in *. clearbody s3. intros [= <- <-].
  destruct (negb _); [|exact (hs_hsteps _ _ H3)].
  eapply hsteps_trans; [exact (hs_hsteps _ _ H3)|]. apply hs_hsteps. now apply P_other.
Qed.

Lemma set_key_steps alg addr idx tx rsc key fl s r s' :
  has fl KEY_FLAG_PAIRWISE = false \/ alg = WPA_ALG_NONE ->
  wpa_sm_set_key alg addr idx tx rsc key fl s = (r, s') -> hsteps s s'.
Proof.
  intros Hf H. apply hs_hsteps. eapply P_set_key; [exact H|]. cbn [is_ptk_install].
  destruct Hf as [-> | ->]; [now rewrite andb_false_r | now rewrite bool_decide_true].
Qed.

Lemma activate_ptk_steps s r s' : wpa_supplicant_activate_ptk s = (r, s') -> hsteps s s'.
Proof.
  unfold wpa_supplicant_activate_ptk. destruct (wpa_sm_set_key _ _ _ _ _ _ _ s) as [ok s1] eqn:H1.
  intros [= <- <-]. eapply set_key_steps; [|exact H1]. now right.
Qed.

(** A group key array has been assigned. *)
Lemma store_steps (s s' : wpa_sm E) :
  pairwise s' = pairwise s -> pm s' = pm s -> sm_eapol s' = sm_eapol s -> assoc_ie s' = assoc_ie s ->
  (Forall gtk_typed (group s) -> Forall gtk_typed (group s')) -> hsteps s s'.
Proof. intros Hp Hm He Ha Hg. now apply hs_hsteps, P_group. Qed.

Ltac store :=
  apply store_steps; [reflexivity | reflexivity | reflexivity | reflexivity |];
  unfold group; rewrite ?Forall_cons; intros; destruct_and!; split_and!;
  try (apply store_gtk_typed); auto using wpa_cipher_key_len_range.

Lemma install_gtk_steps gd rsc wnm s r s' :
  0 <= gd_gtk_len gd <= 32 ->
  wpa_supplicant_install_gtk gd rsc wnm s = (r, s') -> hsteps s s'.
Proof.
  intros Hgd. unfold wpa_supplicant_install_gtk.
  destruct (_ || _); [intros [= <- <-]; apply hsteps_refl|]. cbv zeta.
  destruct (if pairwise_cipher s =? _ then _ else _) as [ok s1] eqn:H1.
  assert (hsteps s s1) as Hs
    by (destruct (_ =? _); (eapply set_key_steps; [|exact H1]); left; reflexivity).
  destruct (negb ok); intros [= <- <-]; [exact Hs|].
  eapply hsteps_trans; [exact Hs|]. destruct wnm; store.
Qed.

Lemma install_igtk_steps kde wnm s r s' :
  wpa_supplicant_install_igtk kde wnm s = (r, s') -> hsteps s s'.
Proof.
  unfold wpa_supplicant_install_igtk. destruct (_ || _); [intros [= <- <-]; apply hsteps_refl|]. cbv zeta.
  destruct (_ <? _); [intros [= <- <-]; apply hsteps_refl|].
  destruct (wpa_sm_set_key _ _ _ _ _ _ _ s) as [ok s1] eqn:H1.
  apply set_key_steps in H1; [|left; reflexivity].
  destruct (_ && _); intros [= <- <-]; [exact H1|].
  eapply hsteps_trans; [exact H1|]. destruct wnm; store.
Qed.

Lemma install_bigtk_steps kde wnm s r s' :
  wpa_supplicant_install_bigtk kde wnm s = (r, s') -> hsteps s s'.
Proof.
  unfold wpa_supplicant_install_bigtk. destruct (_ || _); [intros [= <- <-]; apply hsteps_refl|]. cbv zeta.
  destruct (_ || _); [intros [= <- <-]; apply hsteps_refl|].
  destruct (wpa_sm_set_key _ _ _ _ _ _ _ s) as [ok s1] eqn:H1.
  apply set_key_steps in H1; [|left; reflexivity].
  destruct (negb ok); intros [= <- <-]; [exact H1|].
  eapply hsteps_trans; [exact H1|]. destruct wnm; store.
Qed.

Lemma pairwise_gtk_steps f kde s r s' :
  wpa_supplicant_pairwise_gtk f kde s = (r, s') -> hsteps s s'.
Proof.
  unfold wpa_supplicant_pairwise_gtk. destruct (_ || _); [intros [= <- <-]; apply hsteps_refl|]. cbv zeta.
  destruct (_ =? _); [intros [= <- <-]; apply hsteps_refl|].
  destruct (wpa_supplicant_check_group_cipher _ _ _) as [[n alg]|] eqn:Hc; [|intros [= <- <-]; apply hsteps_refl].
  apply check_group_cipher_len in Hc.
  destruct (wpa_supplicant_install_gtk _ _ _ s) as [ret s1] eqn:H1. intros [= <- <-].
  eapply install_gtk_steps; [|exact H1]. exact Hc.
Qed.

Lemma set_keys_steps kd ie s r s' : ieee80211w_set_keys kd ie s = (r, s') -> hsteps s s'.
Proof.
  unfold ieee80211w_set_keys. destruct (_ || _); [intros [= <- <-]; apply hsteps_refl|]. cbv zeta.
  destruct (match ref_bytes kd (p_igtk ie) with Some _ => _ | None => _ end) as [ret s1] eqn:H1.
  assert (hsteps s s1) as Hs.
  { destruct (ref_bytes kd (p_igtk ie)); [|injection H1 as <- <-; apply hsteps_refl].
    destruct (negb _); [injection H1 as <- <-; apply hsteps_refl|]. exact (install_igtk_steps _ _ _ _ _ H1). }
  clear H1. destruct (ret <? 0); [intros [= <- <-]; exact Hs|].
  destruct (ref_bytes kd (p_bigtk ie)); [|intros [= <- <-]; exact Hs].
  destruct (negb _); [intros [= <- <-]; exact Hs|]. destruct (negb _); [intros [= <- <-]; exact Hs|].
  destruct (wpa_supplicant_install_bigtk _ _ s1) as [ret' s2] eqn:H2. intros [= <- <-].
  eapply hsteps_trans; [exact Hs | exact (install_bigtk_steps _ _ _ _ _ H2)].
Qed.

(** ** The messages *)

Lemma other_hsteps (s s' : wpa_sm E) :
  keys s' = keys s -> pm s' = pm s -> sm_eapol s' = sm_eapol s -> assoc_ie s' = assoc_ie s -> hsteps s s'.
Proof. intros. now apply hs_hsteps, P_other. Qed.

Lemma handle_ext_key_id_steps id s r s' :
  wpa_handle_ext_key_id id s = (r, s') -> hsteps s s'.
Proof.
  unfold wpa_handle_ext_key_id. cbv zeta. intros H.
  repeat case_match; injection H as _ <-; try apply hsteps_refl; apply other_hsteps; reflexivity.
Qed.

Lemma check_3_of_4_steps f kd ie s r s' : check_3_of_4 f kd ie s = (r, s') -> hsteps s s'.
Proof.
  unfold check_3_of_4. cbv zeta. do 3 (destruct (_ && _); [intros [= <- <-]; apply hsteps_refl|]).
  destruct (wpa_supplicant_validate_ie _ _ _ s) as [ret s1] eqn:H1.
  apply validate_ie_quiet, quiet_hsteps in H1.
  destruct (ret <? 0); [intros [= <- <-]; exact H1|].
  destruct (wpa_handle_ext_key_id _ s1) as [ret' s2] eqn:H2.
  apply handle_ext_key_id_steps in H2. pose proof (hsteps_trans _ _ _ H1 H2) as Hs.
  destruct (negb _); [intros [= <- <-]; exact Hs|]. destruct (negb _); intros [= <- <-]; exact Hs.
Qed.

Lemma answer_3_of_4_steps f ver s r s' : answer_3_of_4 f ver s = (r, s') -> hsteps s s'.
Proof.
  unfold answer_3_of_4. cbv zeta.
  destruct (if use_ext_key_id s then _ else _) as [ret s1] eqn:H1.
  assert (hsteps s s1) as Hs1
    by (destruct (use_ext_key_id s); [exact (install_ptk_steps _ _ _ _ _ H1)|]; injection H1 as <- <-; apply hsteps_refl).
  clear H1. destruct (negb _); [intros [= <- <-]; exact Hs1|].
  destruct (wpa_supplicant_send_4_of_4 _ _ _ _ _ s1) as [ret' s2] eqn:H2.
  apply send_4_of_4_quiet, quiet_hsteps in H2. apply (hsteps_trans _ _ _ Hs1) in H2.
  destruct (ret' <? 0); [intros [= <- <-]; exact H2|].
  pose proof (hsteps_trans _ _ _ H2 (hs_hsteps _ _ (P_renew s2))) as H3.
  set (s3 := s2 <| renew_snonce := true |>) in *. clearbody s3.
  destruct (if has _ WPA_KEY_INFO_INSTALL then _ else _) as [ret4 s4] eqn:H4.
  assert (hsteps s s4) as Hs4.
  { eapply hsteps_trans; [exact H3|]. destruct (has _ WPA_KEY_INFO_INSTALL); [|injection H4 as <- <-; apply hsteps_refl].
    destruct (use_ext_key_id s3); [exact (activate_ptk_steps _ _ _ H4) | exact (install_ptk_steps _ _ _ _ _ H4)]. }
  clear H4. destruct (negb _); intros [= <- <-]; [exact Hs4|].
  eapply hsteps_trans; [exact Hs4|]. apply quiet_hsteps. eapply quiet_trans; [|apply set_state_quiet].
  destruct (has _ WPA_KEY_INFO_SECURE); [|apply quiet_refl].
  eapply quiet_trans; [|apply on_eapol_quiet; auto with eapol]. apply sm_emit_quiet. exact I.
Qed.

Lemma group_keys_steps f kd ie s r s' : group_keys_3_of_4 f kd ie s = (r, s') -> hsteps s s'.
Proof.
  unfold group_keys_3_of_4. destruct (if _ =? _ then _ else _) as [ret s1] eqn:H1.
  assert (hsteps s s1) as Hs.
  { destruct (_ =? _); [injection H1 as <- <-; apply hsteps_refl|].
    destruct (ref_bytes _ _); [exact (pairwise_gtk_steps _ _ _ _ _ H1) | injection H1 as <- <-; apply hsteps_refl]. }
  clear H1. destruct (ret <? 0); [intros [= <- <-]; exact Hs|].
  destruct (ieee80211w_set_keys _ _ s1) as [ret' s2] eqn:H2. intros [= <- <-].
  exact (hsteps_trans _ _ _ Hs (set_keys_steps _ _ _ _ _ H2)).
Qed.

Lemma complete_3_of_4_quiet f kd ie s s' : complete_3_of_4 f kd ie s = Some s' -> quiet s s'.
Proof.
  unfold complete_3_of_4. cbv zeta.
  destruct (if _ || _ then _ else _) as [s1|] eqn:H1; [|discriminate].
  assert (quiet s s1) as Hq1
    by (destruct (_ || _); [exact (key_neg_complete_quiet _ _ _ _ H1) | injection H1 as <-; apply quiet_refl]).
  clear H1. set (s2 := if bool_decide (is_Some (p_gtk ie).1) then _ else _).
  assert (quiet s1 s2) as Hq2
    by (unfold s2; destruct (bool_decide _); [apply sm_emit_quiet; exact I | apply quiet_refl]).
  clearbody s2. destruct (if _ && _ && _ then _ else _) as [s3|] eqn:H3; [|discriminate].
  assert (quiet s2 s3) as Hq3.
  { destruct (_ && _ && _); [|injection H3 as <-; apply quiet_refl].
    destruct (sm_pmksa_add _ _ _ _ s2) as [[sa s4]|] eqn:H4; [|discriminate].
    pose proof (sm_pmksa_add_in _ _ _ _ _ _ _ H4) as Hin. apply sm_pmksa_add_quiet in H4.
    injection H3 as <-. destruct (bool_decide _); [now apply quiet_set_cur | exact H4]. }
  clear H3. pose proof (quiet_trans _ _ _ (quiet_trans _ _ _ Hq1 Hq2) Hq3) as Hq. intros [= <-].
  eapply quiet_trans; [exact Hq|].
  destruct ((p_transition_disable ie).1); quiet_update.
Qed.

Lemma process_3_of_4_steps f ver kd s s' :
  wpa_supplicant_process_3_of_4 f ver kd s = Some s' -> hsteps s s'.
Proof.
  unfold wpa_supplicant_process_3_of_4. cbv zeta. intros H.
  eapply hsteps_trans; [apply quiet_hsteps, (set_state_quiet WPA_4WAY_HANDSHAKE)|]. revert H.
  generalize (wpa_sm_set_state WPA_4WAY_HANDSHAKE s). clear s. intros s.
  assert (forall t u, hsteps s t -> Some (wpa_sm_deauthenticate WLAN_REASON_UNSPECIFIED t) = Some u -> hsteps s u)
    as Hd by (intros t u Ht [= <-]; exact (hsteps_trans _ _ _ Ht (quiet_hsteps _ _ (deauth_quiet _ _)))).
  destruct (wpa_supplicant_parse_ies kd) as [res ie].
  destruct (res <? 0); [apply Hd, hsteps_refl|].
  destruct (check_3_of_4 f kd ie s) as [ok s1] eqn:H1. apply check_3_of_4_steps in H1.
  destruct (negb ok); [now apply Hd|].
  destruct (answer_3_of_4 f ver s1) as [ok2 s2] eqn:H2.
  apply answer_3_of_4_steps, (hsteps_trans _ _ _ H1) in H2. destruct (negb ok2); [now apply Hd|].
  destruct (group_keys_3_of_4 f kd ie s2) as [ok3 s3] eqn:H3.
  apply group_keys_steps, (hsteps_trans _ _ _ H2) in H3. destruct (negb ok3); [now apply Hd|].
  intros H. eapply hsteps_trans; [exact H3 | exact (quiet_hsteps _ _ (complete_3_of_4_quiet _ _ _ _ _ H))].
Qed.

Lemma other_steps (s s' : wpa_sm E) :
  keys s' = keys s -> pm s' = pm s -> sm_eapol s' = sm_eapol s -> assoc_ie s' = assoc_ie s -> steps s s'.
Proof. intros. now apply hsteps_steps, other_hsteps. Qed.

(** Drawing an SNonce if the last one is used up. *)
Definition renew (s : wpa_sm E) : bool * wpa_sm E :=
  if renew_snonce s then
    let '(r, s) := ask env_random s in
    match r with
    | None => (false, s)
    | Some n => (true, s <| snonce := n |> <| renew_snonce := false |> ▸ sm_emit (EvRandom n))
    end
  else (true, s).

Lemma renew_steps s r s' :
  renew s = (r, s') -> steps s s' /\ (r = true -> renew_snonce s' = false).
Proof.
  unfold renew. destruct (renew_snonce s) eqn:Hr; [|intros [= <- <-]; split; [apply steps_refl | done]].
  destruct (ask env_random s) as [n s0] eqn:H0.
  assert (n = env_random (calls (pm s))) as Hn by (unfold ask in H0; now injection H0).
  apply ask_quiet in H0. destruct (keys_inv _ _ (q_keys _ _ H0)) as (_ & _ & _ & _ & F5).
  destruct n as [n|]; intros [= <- <-]; [|split; [now apply quiet_steps | done]].
  split; [|done]. step_after (quiet_steps _ _ H0). eapply P_snonce; [congruence | exact (eq_sym Hn)].
Qed.

(** The new temporary PTK, before it is announced. *)
Lemma derive_steps f s ok p :
  wpa_derive_ptk f (tptk s) s = (ok, p) -> steps s (s <| tptk := p |>).
Proof. intros Hd. pose proof (prim_steps _ _ (P_derive f s)) as H. now rewrite Hd in H. Qed.

Lemma answer_1_of_4_steps f ver s r s' :
  (49 <= length f)%nat -> answer_1_of_4 f ver s = Some (r, s') -> steps s s'.
Proof.
  intros Hf. unfold answer_1_of_4. cbv zeta. change (if renew_snonce s then _ else _) with (renew s).
  destruct (renew s) as [renewed s1] eqn:H1. apply renew_steps in H1 as [H1 Hr1].
  destruct renewed; cbn [negb]; [|intros [= <- <-]; exact H1]. specialize (Hr1 eq_refl).
  destruct (wpa_derive_ptk f (tptk s1) s1) as [ok p] eqn:Hd.
  pose proof (steps_trans _ _ _ H1 (derive_steps _ _ _ _ Hd)) as H2.
  assert (renew_snonce (s1 <| tptk := p |>) = false) as Hr2 by exact Hr1.
  set (s2 := s1 <| tptk := p |>) in *. clearbody s2. clear Hd H1 Hr1 p s1.
  destruct (negb ok); [intros [= <- <-]; exact H2|].
  set (s3 := if pairwise_cipher s2 =? WPA_CIPHER_TKIP then _ else s2).
  assert (steps s s3 /\ renew_snonce s3 = false) as [H3 Hr3].
  { unfold s3. destruct (_ =? _); split; [|exact Hr2 | exact H2 | exact Hr2].
    step_after H2. apply P_swap. }
  clearbody s3. pose proof (steps_trans _ _ _ H3 (prim_steps _ _ (P_tptk_set s3 Hr3))) as H4.
  set (s4 := s3 <| tptk_set := true |>) in *. clearbody s4.
  destruct (ask env_malloc s4) as [ok5 s5] eqn:H5.
  apply ask_quiet, quiet_steps, (steps_trans _ _ _ H4) in H5.
  destruct (negb ok5); [intros [= <- <-]; exact H5|].
  destruct (read_assoc_ie s5) as [ie|]; [|discriminate].
  destruct (wpa_supplicant_send_2_of_4 _ _ _ _ _ _ s5) as [ret s6] eqn:H6.
  apply send_2_of_4_quiet, quiet_steps, (steps_trans _ _ _ H5) in H6.
  destruct (ret <? 0); intros [= <- <-]; [exact H6|].
  step_after H6. apply P_anonce, length_slice. unfold WPA_NONCE_LEN. lia.
Qed.

Lemma process_1_of_4_steps src f ver kd s s' :
  (49 <= length f)%nat -> wpa_supplicant_process_1_of_4 src f ver kd s = Some s' -> steps s s'.
Proof.
  intros Hf. unfold wpa_supplicant_process_1_of_4. cbv zeta.
  assert (forall t u, steps s t -> Some (wpa_sm_deauthenticate WLAN_REASON_UNSPECIFIED t) = Some u -> steps s u)
    as Hd by (intros t u Ht [= <-]; exact (steps_trans _ _ _ Ht (quiet_steps _ _ (deauth_quiet _ _)))).
  destruct (ask env_network_ctx s) as [ctx s0] eqn:H0. apply ask_quiet in H0.
  destruct (ctx =? 0); [intros [= <-]; now apply quiet_steps|].
  destruct (_ && _).
  { intros [= <-]. apply quiet_steps. eapply quiet_trans; [exact H0 | apply sm_emit_quiet; exact I]. }
  pose proof (quiet_trans _ _ _ H0 (set_state_quiet WPA_4WAY_HANDSHAKE s0)) as H1.
  set (s1 := wpa_sm_set_state WPA_4WAY_HANDSHAKE s0) in *. clearbody s1.
  destruct (if is_rsn s1 then _ else _) as [res ie].
  destruct (res <? 0); [now apply Hd, quiet_steps|].
  destruct (wpa_supplicant_get_pmk _ _ s1) as [[res2 s2]|] eqn:H2; [|discriminate].
  apply get_pmk_quiet, (quiet_trans _ _ _ H1), quiet_steps in H2.
  destruct (res2 =? -2); [intros [= <-]; exact H2|]. destruct (negb _); [now apply Hd|].
  destruct (answer_1_of_4 f ver s2) as [[ok s3]|] eqn:H3; [|discriminate].
  apply answer_1_of_4_steps, (steps_trans _ _ _ H2) in H3; [|exact Hf].
  destruct ok; [intros [= <-]; exact H3 | now apply Hd].
Qed.

Lemma process_1_of_2_rsn_steps f kd s r s' :
  wpa_supplicant_process_1_of_2_rsn f kd s = (r, s') ->
  hsteps s s' /\ forall gd, r = Some gd -> 0 <= gd_gtk_len gd <= 32.
Proof.
  unfold wpa_supplicant_process_1_of_2_rsn.
  assert (forall t : wpa_sm E, (@None wpa_gtk_data, t) = (r, s') -> t = s ->
    hsteps s s' /\ forall gd, r = Some gd -> 0 <= gd_gtk_len gd <= 32) as Hn
    by (intros t [= <- <-] ->; split; [apply hsteps_refl | done]).
  destruct (wpa_supplicant_parse_ies kd) as [res ie]. destruct (res <? 0); [intros H; now apply Hn in H|].
  destruct (ref_bytes kd (p_gtk ie)) as [kde|]; [|intros H; now apply Hn in H]. cbv zeta.
  destruct (negb _); [intros H; now apply Hn in H|]. destruct (_ <? 2); [intros H; now apply Hn in H|].
  destruct (32 <? _); [intros H; now apply Hn in H|].
  destruct (wpa_supplicant_check_group_cipher _ _ _) as [[n alg]|] eqn:Hc; [|intros H; now apply Hn in H].
  apply check_group_cipher_len in Hc.
  destruct (ieee80211w_set_keys kd ie s) as [ret s1] eqn:H1. intros [= <- <-].
  split; [exact (set_keys_steps _ _ _ _ _ H1)|]. intros gd [= <-]. exact Hc.
Qed.

Lemma process_1_of_2_wpa_len f ver kd (s : wpa_sm E) gd :
  wpa_supplicant_process_1_of_2_wpa f ver kd s = Some gd -> 0 <= gd_gtk_len gd <= 32.
Proof.
  unfold wpa_supplicant_process_1_of_2_wpa. destruct (_ && _); [discriminate|]. cbv zeta.
  destruct (_ <? _); [discriminate|].
  destruct (wpa_supplicant_check_group_cipher _ _ _) as [[n alg]|] eqn:Hc; [|discriminate].
  apply check_group_cipher_len in Hc. destruct (decrypt_wpa_gtk _ _ _ _ _); [|discriminate].
  intros [= <-]. exact Hc.
Qed.

Lemma process_1_of_2_steps f ver kd s s' :
  wpa_supplicant_process_1_of_2 f ver kd s = Some s' -> hsteps s s'.
Proof.
  unfold wpa_supplicant_process_1_of_2. cbv zeta.
  assert (forall t u, hsteps s t -> Some (wpa_sm_deauthenticate WLAN_REASON_UNSPECIFIED t) = Some u -> hsteps s u)
    as Hd by (intros t u Ht [= <-]; exact (hsteps_trans _ _ _ Ht (quiet_hsteps _ _ (deauth_quiet _ _)))).
  destruct (negb _); [apply Hd, hsteps_refl|].
  destruct (if is_rsn s then _ else _) as [gd s1] eqn:H1.
  assert (hsteps s s1 /\ forall g, gd = Some g -> 0 <= gd_gtk_len g <= 32) as [Hs Hgd].
  { destruct (is_rsn s); [exact (process_1_of_2_rsn_steps _ _ _ _ _ H1)|].
    injection H1 as <- <-. split; [apply hsteps_refl | apply process_1_of_2_wpa_len]. }
  clear H1. pose proof (hsteps_trans _ _ _ Hs (quiet_hsteps _ _ (set_state_quiet WPA_GROUP_HANDSHAKE s1))) as H2.
  set (s2 := wpa_sm_set_state WPA_GROUP_HANDSHAKE s1) in *. clearbody s2. clear Hs.
  destruct gd as [gd|]; [|now apply Hd].
  destruct (wpa_supplicant_install_gtk _ _ _ s2) as [ret s3] eqn:H3.
  apply install_gtk_steps, (hsteps_trans _ _ _ H2) in H3; [|now apply Hgd].
  destruct (negb _); [now apply Hd|].
  destruct (wpa_supplicant_send_2_of_2 _ _ _ s3) as [ret' s4] eqn:H4.
  apply send_2_of_2_quiet, quiet_hsteps, (hsteps_trans _ _ _ H3) in H4.
  destruct (ret' <? 0); [now apply Hd|].
  destruct (if bool_decide (wpa_state s = WPA_COMPLETED) then _ else _) as [s5|] eqn:H5; [|discriminate].
  assert (quiet s4 s5) as Hq.
  { destruct (bool_decide _); [|exact (key_neg_complete_quiet _ _ _ _ H5)]. injection H5 as <-.
    eapply quiet_trans; [|apply set_state_quiet]. apply sm_emit_quiet. exact I. }
  intros [= <-]. eapply hsteps_trans; [exact H4|]. apply quiet_hsteps.
  eapply quiet_trans; [exact Hq|]. apply sm_emit_quiet. exact I.
Qed.

(** ** Reception *)

Lemma verify_mic_steps f ver s r s' :
  (17 <= length f)%nat -> wpa_supplicant_verify_eapol_key_mic f ver s = (r, s') -> steps s s'.
Proof.
  intros Hf. unfold wpa_supplicant_verify_eapol_key_mic. cbv zeta.
  destruct (if tptk_set s && _ then _ else _) as [ok s1] eqn:H1.
  assert (steps s s1) as Hs.
  { destruct (tptk_set s) eqn:Ht; cbn [andb] in H1; [|injection H1 as <- <-; apply steps_refl].
    destruct (mic_valid _ _ _ _ _); injection H1 as <- <-; [|apply steps_refl].
    exact (prim_steps _ _ (P_accept s Ht)). }
  clear H1. destruct (ok || _); intros [= <- <-]; [|exact Hs].
  eapply steps_trans; [exact Hs|]. apply counter_steps, length_slice. unfold WPA_REPLAY_COUNTER_LEN. lia.
Qed.

Lemma decrypt_quiet f ver kd (s : wpa_sm E) r s' :
  wpa_supplicant_decrypt_key_data f ver kd s = (r, s') -> quiet s s'.
Proof.
  unfold wpa_supplicant_decrypt_key_data. destruct (negb _); [intros [= <- <-]; apply quiet_refl|].
  destruct (_ && _); [intros [= <- <-]; apply quiet_refl|]. destruct (_ || _); [|intros [= <- <-]; apply quiet_refl].
  destruct (_ || _); [intros [= <- <-]; apply quiet_refl|].
  destruct (ask env_malloc s) as [ok s1] eqn:H1. apply ask_quiet in H1.
  destruct (negb ok); intros [= <- <-]; exact H1.
Qed.

Lemma rx_dispatch_steps src f kd m s r s' :
  (49 <= length f)%nat -> rx_dispatch src f kd m s = Some (r, s') -> steps s s'.
Proof.
  intros Hf. unfold rx_dispatch. cbv zeta. destruct (has _ WPA_KEY_INFO_KEY_TYPE).
  - destruct (has _ _); [intros [= <- <-]; apply steps_refl|].
    destruct (if any_of _ _ then _ else _) as [s1|] eqn:H1; [|discriminate]. intros [= <- <-].
    destruct (any_of _ _); [exact (hsteps_steps _ _ (process_3_of_4_steps _ _ _ _ _ H1))
                           | exact (process_1_of_4_steps _ _ _ _ _ _ Hf H1)].
  - destruct (if m =? 0 then _ else _); [|intros [= <- <-]; apply steps_refl].
    destruct (wpa_supplicant_process_1_of_2 _ _ _ s) as [s1|] eqn:H1; [|discriminate].
    intros [= <- <-]. exact (hsteps_steps _ _ (process_1_of_2_steps _ _ _ _ _ H1)).
Qed.

Lemma rx_authenticate_steps src f kd m s r s' :
  (49 <= length f)%nat -> rx_authenticate src f kd m s = Some (r, s') -> steps s s'.
Proof.
  intros Hf. unfold rx_authenticate. cbv zeta.
  destruct (if has _ WPA_KEY_INFO_MIC then _ else _) as [ok s1] eqn:H1.
  assert (steps s s1) as Hs.
  { destruct (has _ _); [|injection H1 as <- <-; apply steps_refl].
    eapply verify_mic_steps; [|exact H1]. lia. }
  clear H1. destruct (negb ok); [intros [= <- <-]; exact Hs|].
  destruct (_ && _ && _);
    [|intros H; exact (steps_trans _ _ _ Hs (rx_dispatch_steps _ _ _ _ _ _ _ Hf H))].
  destruct (negb _); [intros [= <- <-]; exact Hs|].
  destruct (wpa_supplicant_decrypt_key_data _ _ _ s1) as [data s2] eqn:H2.
  apply decrypt_quiet, quiet_steps, (steps_trans _ _ _ Hs) in H2.
  destruct data; [|intros [= <- <-]; exact H2].
  intros H. exact (steps_trans _ _ _ H2 (rx_dispatch_steps _ _ _ _ _ _ _ Hf H)).
Qed.

(** The Key MIC field starts inside the smallest acceptable frame. *)
Lemma rx_mic_len_nonneg (s : wpa_sm E) m : pm_typed (pm s) -> rx_mic_len s = Some m -> 0 <= m.
Proof.
  intros (Hh & _ & Hl). unfold rx_mic_len.
  destruct (if pmk_len (pm s) =? 0 then _ else _) as [n|] eqn:Hn; [|discriminate]. intros [= <-].
  assert (0 <= n) as Hn0.
  { destruct (pmk_len (pm s) =? 0); [|injection Hn as <-; lia].
    destruct (cur_pmksa (pm s)) as [c|]; [|injection Hn as <-; lia].
    destruct (heap (pm s) !! c) as [e|] eqn:He; [|discriminate]. injection Hn as <-.
    destruct (Hh _ _ He). lia. }
  unfold wpa_mic_len. repeat case_match; Z.div_mod_to_equations; lia.
Qed.

Lemma rx_eapol_steps src buf (s : wpa_sm E) r s' :
  pm_typed (pm s) -> wpa_sm_rx_eapol src buf s = Some (r, s') -> steps s s'.
Proof.
  intros Ht. unfold wpa_sm_rx_eapol. destruct (rx_mic_len s) as [m|] eqn:Hm; [|discriminate].
  apply rx_mic_len_nonneg in Hm; [|exact Ht]. cbv zeta. unfold sizeof_ieee802_1x_hdr, sizeof_wpa_eapol_key.
  destruct (_ <? _); [intros [= <- <-]; apply steps_refl|].
  destruct (negb _); [intros [= <- <-]; apply steps_refl|].
  destruct (_ || _) eqn:Hlen; [intros [= <- <-]; apply steps_refl|].
  apply orb_false_elim in Hlen as [H1 H2]. apply Z.ltb_ge in H1, H2.
  set (f := take _ buf). assert (49 <= length f)%nat as Hf
    by (unfold f, zlen in *; rewrite length_take; lia).
  clearbody f. clear H1 H2.
  destruct (ask env_malloc s) as [ok s1] eqn:H1. apply ask_quiet, quiet_steps in H1.
  destruct (negb ok); [intros [= <- <-]; exact H1|].
  destruct (_ && _); [intros [= <- <-]; exact H1|]. destruct (_ <? _); [intros [= <- <-]; exact H1|].
  match goal with |- context [on_eapol ?g s1] =>
    pose proof (steps_trans _ _ _ H1 (quiet_steps _ _ (on_eapol_quiet g s1 C_lower_layer_success))) as H2; set (s2 := on_eapol g s1) in * end.
  destruct (negb _); [intros [= <- <-]; exact H2|].
  intros H. exact (steps_trans _ _ _ H2 (rx_authenticate_steps _ _ _ _ _ _ _ Hf H)).
Qed.

(** ** The other operations *)

(** Assignments to the fields of the cache part. *)
Lemma pm_steps (s : wpa_sm E) p :
  events p = events (pm s) -> (pm_typed (pm s) -> pm_typed p) -> same_cache (pm s) p ->
  steps s (s <| pm := p |>).
Proof.
  intros He Ht Hc. apply quiet_steps. split; [reflexivity | reflexivity | | exact Ht | | apply eapol_calls_refl].
  - cbn [pm over]. rewrite He. auto with quiet.
  - cbn [pm over]. now apply same_cache_wf.
Qed.

Lemma drop_sa_steps (s : wpa_sm E) : steps s (wpa_sm_drop_sa s).
Proof.
  unfold wpa_sm_drop_sa. eapply steps_trans; [|apply prim_steps, P_clear]. apply pm_steps; [done | | done].
  intros (Hh & _). split; [exact Hh | now vm_compute].
Qed.

Lemma notify_assoc_steps bss s : steps s (wpa_sm_notify_assoc bss s).
Proof.
  unfold wpa_sm_notify_assoc.
  set (s1 := s <| pm := _ |>). assert (steps s s1) as H1 by now apply pm_steps. clearbody s1.
  set (s2 := s1 <| rx_replay_counter := _ |> <| rx_replay_counter_set := false |>).
  assert (steps s s2) as H2 by (eapply steps_trans; [exact H1 | now apply counter_steps]). clearbody s2.
  pose proof (steps_trans _ _ _ H2 (hsteps_steps _ _ (hs_hsteps _ _ (P_renew s2)))) as H3.
  set (s3 := s2 <| renew_snonce := true |>) in *. clearbody s3.
  pose proof (steps_trans _ _ _ H3 (prim_steps _ _ (P_clear s3))) as H4.
  set (s4 := clear_keys s3) in *. clearbody s4. eapply steps_trans; [exact H4|].
  apply other_steps; reflexivity.
Qed.

Lemma notify_disassoc_steps s : steps s (wpa_sm_notify_disassoc s).
Proof.
  unfold wpa_sm_notify_disassoc. cbv zeta.
  match goal with |- context [wpa_sm_drop_sa ?t] => set (s1 := t) end.
  assert (steps s s1) as H1.
  { eapply steps_trans; [apply quiet_steps, (clear_cur_quiet s)|].
    apply other_steps; unfold s1; destruct (bool_decide _); reflexivity. }
  clearbody s1. pose proof (steps_trans _ _ _ H1 (drop_sa_steps s1)) as H2.
  set (s2 := wpa_sm_drop_sa s1) in *. clearbody s2.
  set (s3 := s2 <| keyidx_active := 0 |> <| msg_3_of_4_ok := false |>).
  assert (steps s s3) as H3
    by (eapply steps_trans; [exact H2 | apply other_steps; reflexivity]). clearbody s3.
  eapply steps_trans; [exact H3|]. now apply pm_steps.
Qed.

Lemma set_pmk_steps key pmkid aa s s' :
  zlen key <= PMK_LEN_MAX -> wpa_sm_set_pmk key pmkid aa s = Some s' -> steps s s'.
Proof.
  intros Hk. unfold wpa_sm_set_pmk. set (s0 := s <| pm := _ |>).
  assert (steps s s0) as H0.
  { apply pm_steps; [done | | done]. intros (Hh & Hp & _). split; [exact Hh|].
    cbn [pmk pmk_len over]. pose proof (zlen_nonneg key). split; [|lia].
    rewrite <- Hp. unfold zlen in *. f_equal. apply length_overwrite. lia. }
  clearbody s0. destruct aa as [aa|]; [|now intros [= <-]].
  destruct (sm_pmksa_add _ _ _ _ s0) as [[r s1]|] eqn:H1; [|discriminate]. intros [= <-].
  eapply steps_trans; [exact H0|]. apply quiet_steps, quiet_set_cur.
  - exact (sm_pmksa_add_quiet _ _ _ _ _ _ _ H1).
  - exact (sm_pmksa_add_in _ _ _ _ _ _ _ H1).
Qed.

Lemma cache_add_steps key pmkid aa cid s s' :
  wpa_sm_pmksa_cache_add key pmkid aa cid s = Some s' -> steps s s'.
Proof.
  unfold wpa_sm_pmksa_cache_add. destruct (on_pm' _ s) as [[r s1]|] eqn:H1; [|discriminate].
  intros [= <-]. apply quiet_steps, quiet_set_cur.
  - eapply on_pm'_quiet; [| |exact H1]; intros ? ?; [apply add_quiet | apply add_wf].
  - revert H1. unfold on_pm'. intros H Hwf.
    destruct (pmksa_cache_add _ _ _ _ _ _ _ _ _) as [[q t]|] eqn:Ha; [|discriminate].
    injection H as <- <-. exact (proj2 (add_spec _ _ _ _ _ _ _ _ _ _ _ Hwf Ha)).
Qed.

(** An operation of PmksaSafe.v. *)
Lemma on_pm_op op f (s s' : wpa_sm E) :
  (forall p, run_op op p = f p) -> (forall p, f (pm s) = Some p -> grow (pm s) p) ->
  on_pm f s = Some s' -> steps s s'.
Proof.
  intros Hop Hg H. apply quiet_steps. eapply on_pm_quiet; [exact Hg | | exact H].
  intros p Hwf Hp. destruct (run_op_ok op (pm s) Hwf) as (q & Hq & Hwf').
  rewrite Hop, Hp in Hq. now injection Hq as <-.
Qed.

Lemma set_current_steps pmkid sel ctx opp fils akmp s r s' :
  on_pm' (pmksa_cache_set_current pmkid sel ctx opp fils akmp) s = Some (r, s') -> steps s s'.
Proof.
  intros H. apply quiet_steps. eapply on_pm'_quiet; [| |exact H]; intros q p.
  - apply set_current_quiet.
  - intros Hwf Hp. destruct (set_current_ok pmkid sel ctx opp fils akmp (pm s) Hwf) as (q' & p' & Hq & Hwf').
    rewrite Hp in Hq. now injection Hq as <- <-.
Qed.

Lemma dup_ie_quiet ie (s : wpa_sm E) r v s' : dup_ie ie s = (r, v, s') -> quiet s s'.
Proof.
  unfold dup_ie. destruct ie as [[|b ie]|]; try (intros [= <- <- <-]; apply quiet_refl).
  destruct (ask env_malloc s) as [ok s1] eqn:H1. apply ask_quiet in H1.
  destruct ok; intros [= <- <- <-]; exact H1.
Qed.

(** The result and the copy; the length [old] is that of an earlier element. *)
Lemma dup_ie_typed ie (s : wpa_sm E) r v s' old :
  dup_ie ie s = (r, v, s') -> ie_typed v (if r <? 0 then old else zlen (default [] v)).
Proof.
  unfold dup_ie, ask. destruct ie as [[|b ie]|]; try (intros [= <- <- <-]; now left).
  destruct (env_malloc _) eqn:Hk; intros [= <- <- <-]; [done|]. right. eauto.
Qed.

Ltac ie_steps f :=
  unfold f; lazymatch goal with |- context [dup_ie ?ie ?s] =>
    generalize (dup_ie_quiet ie s); destruct (dup_ie ie s) as [[? ?] ?] end;
  let H := fresh in intros H; eapply steps_trans; [exact (quiet_steps _ _ (H _ _ _ eq_refl))|];
  apply other_steps; reflexivity.

Lemma set_assoc_wpa_ie_steps ie s : steps s (snd (wpa_sm_set_assoc_wpa_ie ie s)).
Proof.
  unfold wpa_sm_set_assoc_wpa_ie. destruct (dup_ie ie s) as [[r v] s1] eqn:H1. cbv zeta. cbn [snd].
  step_after (quiet_steps _ _ (dup_ie_quiet _ _ _ _ _ H1)). apply P_assoc. intros _.
  exact (dup_ie_typed _ _ _ _ _ _ H1).
Qed.
Lemma set_assoc_rsnxe_steps ie s : steps s (snd (wpa_sm_set_assoc_rsnxe ie s)).
Proof. ie_steps @wpa_sm_set_assoc_rsnxe. Qed.
Lemma set_ap_wpa_ie_steps ie s : steps s (snd (wpa_sm_set_ap_wpa_ie ie s)).
Proof. ie_steps @wpa_sm_set_ap_wpa_ie. Qed.
Lemma set_ap_rsn_ie_steps ie s : steps s (snd (wpa_sm_set_ap_rsn_ie ie s)).
Proof. ie_steps @wpa_sm_set_ap_rsn_ie. Qed.
Lemma set_ap_rsnxe_steps ie s : steps s (snd (wpa_sm_set_ap_rsnxe ie s)).
Proof. ie_steps @wpa_sm_set_ap_rsnxe. Qed.

Lemma set_param_steps param value s : steps s (snd (wpa_sm_set_param param value s)).
Proof.
  destruct param; cbn [wpa_sm_set_param];
    try (destruct (0 <? value)); try (destruct (_ && _)); cbn [snd];
    first [apply steps_refl | apply other_steps; reflexivity | now apply pm_steps].
Qed.

Lemma assoc_ie_default_steps n s r s' :
  wpa_sm_set_assoc_wpa_ie_default n s = Some (r, s') -> steps s s'.
Proof.
  unfold wpa_sm_set_assoc_wpa_ie_default.
  destruct (wpa_gen_wpa_ie n s) as [[ie|]|]; [|intros [= <- <-]; apply steps_refl | discriminate].
  destruct (bool_decide _); [|intros [= <- <-]; apply steps_refl].
  destruct (ask env_malloc s) as [ok s1] eqn:H1. apply ask_quiet, quiet_steps in H1.
  destruct ok; intros [= <- <-]; [|exact H1].
  step_after H1. now apply P_assoc.
Qed.

Lemma assoc_rsnxe_default_steps n s : steps s (snd (wpa_sm_set_assoc_rsnxe_default n s)).
Proof.
  unfold wpa_sm_set_assoc_rsnxe_default. destruct (wpa_gen_rsnxe n s); [|apply steps_refl].
  destruct (_ && _); [|apply steps_refl].
  destruct (ask env_malloc s) as [ok s1] eqn:H1. apply ask_quiet, quiet_steps in H1.
  destruct ok; cbn [snd]; [|exact H1]. eapply steps_trans; [exact H1|]. apply other_steps; reflexivity.
Qed.

Lemma set_kck_kek_steps k1 k2 s : steps s (wpa_sm_set_ptk_kck_kek k1 k2 s).
Proof.
  unfold wpa_sm_set_ptk_kck_kek. cbv zeta. apply prim_steps, P_kck;
    [|destruct k1; try destruct (_ <=? _); (destruct k2; try destruct (_ <=? _)); reflexivity ..].
  assert (forall p k, zlen k <= Z.of_nat WPA_KCK_MAX_LEN -> ptk_wf p ->
    ptk_wf (p <| kck := overwrite (kck p) k |> <| kck_len := zlen k |>)) as Hkck.
  { intros p k Hk [H1 H2 H3 H4 H5 H6 H7 H8]. pose proof (zlen_nonneg k).
    unfold WPA_KCK_MAX_LEN, zlen in *. split; cbn [kck kek tk kdk kck_len kek_len tk_len kdk_len over]; try assumption; [|lia].
    rewrite length_overwrite; [exact H1|]. unfold WPA_KCK_MAX_LEN in H1. lia. }
  assert (forall p k, zlen k <= Z.of_nat WPA_KEK_MAX_LEN -> ptk_wf p ->
    ptk_wf (p <| kek := overwrite (kek p) k |> <| kek_len := zlen k |>)) as Hkek.
  { intros p k Hk [H1 H2 H3 H4 H5 H6 H7 H8]. pose proof (zlen_nonneg k).
    unfold WPA_KEK_MAX_LEN, zlen in *. split; cbn [kck kek tk kdk kck_len kek_len tk_len kdk_len over]; try assumption; [|lia].
    rewrite length_overwrite; [exact H2|]. unfold WPA_KEK_MAX_LEN in H2. lia. }
  intros Hp. destruct k1 as [k1|]; [destruct (Z.leb_spec (zlen k1) (Z.of_nat WPA_KCK_MAX_LEN))|];
    (destruct k2 as [k2|]; [destruct (Z.leb_spec (zlen k2) (Z.of_nat WPA_KEK_MAX_LEN))|]); auto.
Qed.

Lemma wnm_install_steps id buf s r s' : wpa_wnmsleep_install_key id buf s = (r, s') -> steps s s'.
Proof.
  unfold wpa_wnmsleep_install_key. cbv zeta. destruct (id =? WNM_SLEEP_SUBELEM_GTK).
  - destruct (bool_decide _); [intros [= <- <-]; apply steps_refl|].
    destruct (negb _); [intros [= <- <-]; apply steps_refl|].
    destruct (wpa_supplicant_install_gtk _ _ _ s) as [ret s1] eqn:H1. intros [= <- <-].
    apply hsteps_steps. eapply install_gtk_steps; [|exact H1]. apply wpa_cipher_key_len_range.
  - destruct (id =? WNM_SLEEP_SUBELEM_IGTK).
    + destruct (wpa_supplicant_install_igtk _ _ s) as [ret s1] eqn:H1. intros [= <- <-].
      exact (hsteps_steps _ _ (install_igtk_steps _ _ _ _ _ H1)).
    + destruct (id =? WNM_SLEEP_SUBELEM_BIGTK); [|intros [= <- <-]; apply steps_refl].
      destruct (negb _); [intros [= <- <-]; apply steps_refl|].
      destruct (wpa_supplicant_install_bigtk _ _ s) as [ret s1] eqn:H1. intros [= <- <-].
      exact (hsteps_steps _ _ (install_bigtk_steps _ _ _ _ _ H1)).
Qed.

Lemma aborted_external_steps s s' : wpa_sm_aborted_external_cached s = Some s' -> steps s s'.
Proof.
  unfold wpa_sm_aborted_external_cached. destruct (cur_pmksa (pm s)) as [c|]; [|intros [= <-]; apply steps_refl].
  destruct (heap (pm s) !! c) as [e|]; [|discriminate]. intros [= <-].
  destruct (e_external e); [apply quiet_steps, clear_cur_quiet | apply steps_refl].
Qed.

Lemma reauth_steps s : steps s (pmksa_cache_reauth s).
Proof.
  unfold pmksa_cache_reauth. apply quiet_steps. eapply quiet_trans; [|apply on_eapol_quiet; auto with eapol].
  eapply quiet_trans; [apply (clear_cur_quiet s)|]. quiet_update.
Qed.

(** ** Every operation *)

(** The sizes of what the rest of the program passes in. *)
Definition op_ok (op : wpa_op (E := E)) : Prop :=
  match op with
  | OpSetPmk key _ _ => zlen key <= PMK_LEN_MAX
  | OpUpdateReplayCtr ctr | OpSetRxReplayCtr (Some ctr) => length ctr = WPA_REPLAY_COUNTER_LEN
  | _ => True
  end.

(** The operations that cannot fail. *)
Lemma run_wpa_op_steps_total op s s' :
  op_ok op -> run_wpa_op op s = Some s' ->
  match op with
  | OpKeyRequest _ _ | OpRekeyPtk | OpNotifyAssoc _ | OpNotifyDisassoc | OpDropSa | OpPmksaReauth
  | OpAbortedCached | OpSetConfig _ | OpSetOwnAddr _ | OpSetParam _ _ | OpSetAssocIe _
  | OpSetAssocRsnxe _ | OpSetAssocRsnxeDefault _ | OpSetApWpaIe _ | OpSetApRsnIe _ | OpSetApRsnxe _
  | OpUpdateReplayCtr _ | OpSetRxReplayCtr _ | OpSetKckKek _ _ | OpWnmInstallKey _ _ | OpState _ =>
      steps s s'
  | _ => True
  end.
Proof.
  intros Hop. destruct op; cbn [run_wpa_op]; try (intros _; exact I); intros [= <-].
  - apply quiet_steps, key_request_quiet.
  - unfold wpa_sm_rekey_ptk. eapply steps_trans; [|apply quiet_steps, key_request_quiet].
    apply other_steps; reflexivity.
  - apply notify_assoc_steps.
  - apply notify_disassoc_steps.
  - apply drop_sa_steps.
  - apply reauth_steps.
  - apply quiet_steps, clear_cur_quiet.
  - apply other_steps; reflexivity.
  - now apply pm_steps.
  - apply set_param_steps.
  - apply set_assoc_wpa_ie_steps.
  - apply set_assoc_rsnxe_steps.
  - apply assoc_rsnxe_default_steps.
  - apply set_ap_wpa_ie_steps.
  - apply set_ap_rsn_ie_steps.
  - apply set_ap_rsnxe_steps.
  - now apply prim_steps, P_counter.
  - destruct ctr; [now apply counter_steps | apply steps_refl].
  - apply set_kck_kek_steps.
  - destruct (wpa_wnmsleep_install_key _ _ s) as [r s1] eqn:H1. exact (wnm_install_steps _ _ _ _ _ H1).
  - apply other_steps; reflexivity.
Qed.

Lemma run_wpa_op_steps op s s' :
  op_ok op -> pm_typed (pm s) -> run_wpa_op op s = Some s' ->
  match op with OpEapol e => s' = s <| sm_eapol := e |> | _ => steps s s' end.
Proof.
  intros Hop Ht H. pose proof (run_wpa_op_steps_total op s s' Hop H) as Hs. revert H Hs.
  destruct op; cbn [run_wpa_op]; try (intros _ Hs; exact Hs); intros H _.
  - destruct (wpa_sm_rx_eapol _ _ s) as [[r s1]|] eqn:H1; [|discriminate]. injection H as <-.
    exact (rx_eapol_steps _ _ _ _ _ Ht H1).
  - exact (set_pmk_steps _ _ _ _ _ Hop H).
  - exact (quiet_steps _ _ (set_pmk_from_pmksa_quiet _ _ H)).
  - exact (cache_add_steps _ _ _ _ _ _ H).
  - eapply (on_pm_op (OpFlush ctx None false)); [done | | exact H]. intros p. apply flush_quiet.
  - eapply (on_pm_op (OpFlush ctx None true)); [done | | exact H]. intros p. apply flush_quiet.
  - destruct (on_pm' _ s) as [[r s1]|] eqn:H1; [|discriminate]. injection H as <-.
    exact (set_current_steps _ _ _ _ _ _ _ _ _ H1).
  - eapply (on_pm_op OpReconfig); [done | | exact H]. intros p. apply reconfig_quiet.
  - eapply (on_pm_op OpExpire); [done | | exact H]. intros p. apply expire_quiet.
  - exact (aborted_external_steps _ _ H).
  - destruct (wpa_sm_set_assoc_wpa_ie_default _ s) as [[r s1]|] eqn:H1; [|discriminate].
    injection H as <-. exact (assoc_ie_default_steps _ _ _ _ H1).
  - now injection H as <-.
Qed.

(** The PMKs keep their sizes. *)
Lemma prim_pm_typed s s' : prim s s' -> pm_typed (pm s) -> pm_typed (pm s').
Proof.
  assert (forall alg addr idx tx rsc key fl (t : wpa_sm E) r t',
    wpa_sm_set_key alg addr idx tx rsc key fl t = (r, t') -> pm_typed (pm t) -> pm_typed (pm t')) as Hkey
    by (intros ???????? r t'; unfold wpa_sm_set_key, ask; intros [= <- <-]; exact id).
  destruct 1 as [? ? [s s' Hq|s s' _ Hm _ _|* Hs _|* _ _ Hs Hq|s s' _ Hm _ _ _|]| | | | | | | | | | |]; try exact id.
  - exact (q_typed _ _ Hq).
  - now rewrite Hm.
  - exact (Hkey _ _ _ _ _ _ _ _ _ _ Hs).
  - intros Ht. exact (q_typed _ _ Hq (Hkey _ _ _ _ _ _ _ _ _ _ Hs Ht)).
  - now rewrite Hm.
Qed.

Lemma steps_pm_typed s s' : steps s s' -> pm_typed (pm s) -> pm_typed (pm s').
Proof. apply (steps_invariant (fun s => pm_typed (pm s)) prim_pm_typed). Qed.

(** The EAPOL machines move by their entry points only. *)
Lemma prim_eapol s s' : prim s s' -> eapol_calls (sm_eapol s) (sm_eapol s').
Proof.
  assert (forall alg addr idx tx rsc key fl (t : wpa_sm E) r t',
    wpa_sm_set_key alg addr idx tx rsc key fl t = (r, t') -> sm_eapol t' = sm_eapol t) as Hkey
    by (intros ???????? r t'; unfold wpa_sm_set_key, ask; intros [= <- <-]; reflexivity).
  destruct 1 as [? ? [s s' Hq|s s' _ _ He _|* Hs _|* _ _ Hs Hq|s s' _ _ He _ _|]| | | | | | | | | | |];
    try apply eapol_calls_refl.
  - exact (q_eapol _ _ Hq).
  - rewrite He. apply eapol_calls_refl.
  - rewrite (Hkey _ _ _ _ _ _ _ _ _ _ Hs). apply eapol_calls_refl.
  - pose proof (q_eapol _ _ Hq) as Hc. rewrite (Hkey _ _ _ _ _ _ _ _ _ _ Hs) in Hc. exact Hc.
  - rewrite He. apply eapol_calls_refl.
Qed.

Lemma steps_eapol s s' : steps s s' -> eapol_calls (sm_eapol s) (sm_eapol s').
Proof.
  induction 1 as [s|s s1 s2 H _ IH]; [apply eapol_calls_refl|].
  transitivity (sm_eapol s1); [exact (prim_eapol _ _ H) | exact IH].
Qed.

(** *** Invariants of runs *)
Section Runs.
Context (P : wpa_sm E -> Prop).
Context (Hprim : forall s s', prim s s' -> P s -> P s').
Context (Heapol : forall s e, P s -> P (s <| sm_eapol := e |>)).

Lemma run_wpa_op_invariant op s s' :
  op_ok op -> pm_typed (pm s) -> run_wpa_op op s = Some s' -> P s -> P s'.
Proof.
  intros Hop Ht H. apply run_wpa_op_steps in H; [|assumption ..].
  destruct op; try exact (steps_invariant P Hprim _ _ H). subst s'. apply Heapol.
Qed.
End Runs.

Lemma run_wpa_op_pm_typed op s s' :
  op_ok op -> run_wpa_op op s = Some s' -> pm_typed (pm s) -> pm_typed (pm s').
Proof.
  intros Hop H Ht. refine (run_wpa_op_invariant (fun s => pm_typed (pm s)) prim_pm_typed _ _ _ _ Hop Ht H Ht).
  done.
Qed.

Lemma run_wpa_ops_invariant (P : wpa_sm E -> Prop) :
  (forall s s', prim s s' -> P s -> P s') -> (forall s e, P s -> P (s <| sm_eapol := e |>)) ->
  forall ops s s', Forall op_ok ops -> pm_typed (pm s) -> run_wpa_ops ops s = Some s' -> P s -> P s'.
Proof.
  intros Hprim He. induction ops as [|op ops IH]; intros s s' Hops Ht; cbn [run_wpa_ops]; [now intros [= <-]|].
  apply Forall_cons in Hops as [Hop Hops]. destruct (run_wpa_op op s) as [s1|] eqn:H1; [|discriminate].
  intros H' Hp. apply (IH s1 s' Hops (run_wpa_op_pm_typed _ _ _ Hop H1 Ht) H').
  exact (run_wpa_op_invariant P Hprim He _ _ _ Hop Ht H1 Hp).
Qed.

Lemma init_pm_typed (e : E) : pm_typed (pm (wpa_sm_init e)).
Proof. split; [apply map_Forall_empty | now vm_compute]. Qed.
End Steps.
