(* ===== verification/WpaSession.v ===== *)
(** * A concrete session

    An access point to talk to: it derives the same PTK and sends the messages of
    the 4-way and group key handshakes, so that the theorems on the supplicant are
    seen at work on complete runs.  The EAPOL machine of [demo_eapol] does
    nothing; the keyed hash and the cipher are those of CryptoDemo.v. *)

From stdpp Require Import gmap.
From S2P Require Import Prelude WpaDefs WpaCommon Crypto CryptoDemo Rc4 AesWrap RsnIe KeyData WpaTypes Pmksa WpaDemo WpaSm WpaHandshake WpaOps.

#[export] Instance demo_eapol : EapolOps unit := {|
  eapol_get_key _ key _ := (-1, key);
  eapol_notify_portValid _ e := e;
  eapol_notify_eap_success _ e := e;
  eapol_notify_eap_fail _ e := e;
  eapol_notify_cached e := e;
  eapol_notify_tx_eapol_key e := e;
  eapol_notify_lower_layer_success _ e := e;
  eapol_request_reauth e := e
|}.

#[export] Instance demo_eapol_laws : EapolLaws unit.
Proof. now split. Qed.

#[export] Instance demo_world : WpaEnv := demo_env (fun _ => 1000).

Definition demo_pmk : bytes := replicate 32 0x5a.
Definition demo_anonce : bytes := replicate 32 0xa0.

(** WPA2-PSK with CCMP. *)
Definition demo_rsn_ie : bytes :=
  default [] (wpa_gen_wpa_ie_rsn 100 WPA_CIPHER_CCMP WPA_CIPHER_CCMP WPA_KEY_MGMT_PSK
                WPA_CIPHER_AES_128_CMAC 0 None).

(** Association with a network of the given protocol and ciphers. *)
Definition demo_assoc {E} (version pairwise group : Z) (ap_wpa ap_rsn : option bytes) : list (wpa_op (E := E)) :=
  [OpSetOwnAddr demo_own_addr; OpSetPmk demo_pmk None None; OpSetParam WPA_PARAM_PROTO version;
   OpSetParam WPA_PARAM_RSN_ENABLED 1; OpSetParam WPA_PARAM_PAIRWISE pairwise;
   OpSetParam WPA_PARAM_GROUP group; OpSetParam WPA_PARAM_MGMT_GROUP WPA_CIPHER_AES_128_CMAC;
   OpSetParam WPA_PARAM_KEY_MGMT WPA_KEY_MGMT_PSK; OpSetApWpaIe ap_wpa; OpSetApRsnIe ap_rsn;
   OpSetAssocIe (if version =? WPA_PROTO_RSN then ap_rsn else ap_wpa); OpNotifyAssoc demo_bssid].

(** ** The access point *)

Definition ap_counter (n : Z) : bytes := replicate 7 0 ++ [n].

(** A message with a zero Key MIC. *)
Definition ap_frame (type info key_len n : Z) (nonce data : bytes) : bytes :=
  eapol_frame 2 IEEE802_1X_TYPE_EAPOL_KEY
    (eapol_key_body type info (put_be16 key_len) (ap_counter n) nonce 16 data).

(** The PTK for the SNonce the supplicant has sent. *)
Definition ap_ptk (cipher : Z) (nonce : bytes) : wpa_ptk :=
  (wpa_pmk_to_ptk demo_pmk pairwise_label demo_bssid demo_own_addr demo_anonce nonce ptk_zero
     WPA_KEY_MGMT_PSK cipher [] 0).2.

Definition ap_sign (p : wpa_ptk) (f : bytes) : bytes :=
  let ver := Z.land (key_info f) WPA_KEY_INFO_TYPE_MASK in
  put_at 81 (default [] (wpa_eapol_key_mic (key_of (kck p) (kck_len p)) WPA_KEY_MGMT_PSK ver f)) f.

(** Key Data of a multiple of 8 bytes, wrapped with the KEK. *)
Definition ap_wrap (p : wpa_ptk) (data : bytes) : bytes :=
  let n := Nat.div (length data + 7) 8 in
  let pad := replicate (n * 8 - length data) 0 in
  default [] (aes_wrap (key_of (kek p) (kek_len p)) n (data ++ match pad with [] => [] | _ :: z => 0xdd :: z end)).

Definition gtk_kde (idx : Z) (key : bytes) : bytes :=
  [0xdd; 6 + zlen key; 0x00; 0x0f; 0xac; 1; idx; 0] ++ key.

Definition demo_gtk : bytes := replicate 16 0x77.

Definition msg_1_of_4 (n : Z) : bytes := ap_frame EAPOL_KEY_TYPE_RSN 0x008a 16 n demo_anonce [].

Definition msg_3_of_4 (n : Z) (p : wpa_ptk) (rsn_ie : bytes) : bytes :=
  ap_sign p (ap_frame EAPOL_KEY_TYPE_RSN 0x13ca 16 n demo_anonce
               (ap_wrap p (rsn_ie ++ gtk_kde 1 demo_gtk))).

Definition msg_1_of_2 (n : Z) (p : wpa_ptk) (key : bytes) : bytes :=
  ap_sign p (ap_frame EAPOL_KEY_TYPE_RSN 0x1382 0 n (replicate 32 0) (ap_wrap p (gtk_kde 2 key))).

(** ** Runs *)

Definition demo_run (ops : list (wpa_op (E := unit))) : option (wpa_sm unit) := run_wpa_ops ops (wpa_sm_init tt).

Definition rsn_assoc : list (wpa_op (E := unit)) :=
  demo_assoc WPA_PROTO_RSN WPA_CIPHER_CCMP WPA_CIPHER_CCMP None (Some demo_rsn_ie).

(** The state before message 3/4, and the PTK of the access point. *)
Definition rsn_waiting : option (wpa_sm unit) :=
  demo_run (rsn_assoc ++ [OpRxEapol demo_bssid (msg_1_of_4 1)]).
Definition rsn_ptk : wpa_ptk :=
  match rsn_waiting with Some s => ap_ptk WPA_CIPHER_CCMP (snonce s) | None => ptk_zero end.

Definition rsn_handshake : list (wpa_op (E := unit)) :=
  rsn_assoc ++ [OpRxEapol demo_bssid (msg_1_of_4 1);
                OpRxEapol demo_bssid (msg_3_of_4 2 rsn_ptk demo_rsn_ie)].

(** The keys given to the driver: index, address and key. *)
Definition set_keys (l : list wpa_event) : list (Z * option bytes * bytes) :=
  omap (fun e => match e with EvSetKey _ addr idx _ _ key _ true => Some (idx, addr, key) | _ => None end) l.
