(* ===== verification/WpaKrack.v ===== *)
(** * Key reinstallation

    A pairwise key is installed at most once for every SNonce the supplicant
    draws, whatever is received, retransmitted or replayed and whatever the driver
    and the rest of the program do.  [balance] counts installations minus SNonces,
    plus what the state could still install without drawing one; no operation
    increases it. *)

From stdpp Require Import gmap.
From S2P Require Import Prelude WpaDefs WpaCommon Crypto CryptoDemo Rc4 AesWrap RsnIe KeyData WpaTypes Pmksa WpaDemo WpaSm WpaHandshake WpaOps WpaFrame WpaSteps WpaSession.

(** ** Counting events *)

Definition count (f : wpa_event -> bool) (l : list wpa_event) : Z := zlen (List.filter f l).

Lemma count_app f l k : count f (l ++ k) = count f l + count f k.
Proof. unfold count. now rewrite List.filter_app, zlen_app. Qed.

Lemma count_nil f : count f [] = 0.
Proof. reflexivity. Qed.

Lemma count_one f e : count f [e] = if f e then 1 else 0.
Proof. unfold count. cbn. now destruct (f e). Qed.

(** A new SNonce was drawn. *)
Definition is_snonce (e : wpa_event) : bool := match e with EvRandom _ => true | _ => false end.

Lemma count_quiet f k :
  (forall e, quiet_event e -> f e = false) -> Forall quiet_event k -> count f k = 0.
Proof.
  intros Hf. induction 1 as [|e k He Hk IH]; [done|].
  change (e :: k) with ([e] ++ k). rewrite count_app, count_one, (Hf e He). lia.
Qed.

Lemma quiet_not_install e : quiet_event e -> is_ptk_install e = false.
Proof. now destruct e. Qed.
Lemma quiet_not_snonce e : quiet_event e -> is_snonce e = false.
Proof. now destruct e. Qed.

Section Krack.
Context {E : Type} `{EO : EapolOps E} `{EL : !EapolLaws E} `{ENV : WpaEnv} `{HM : Hmac} `{AES : AesCipher}.

Definition installs (s : wpa_sm E) : Z := count is_ptk_install (events (pm s)).
Definition snonces (s : wpa_sm E) : Z := count is_snonce (events (pm s)).

(** 1 if the PTK has a temporal key that was not installed, and 1 if a PTK can
    become the next one without a new SNonce. *)
Definition potential (s : wpa_sm E) : Z :=
  (if negb (installed (ptk s)) && negb (tk_len (ptk s) =? 0) then 1 else 0)
  + (if tptk_set s || negb (renew_snonce s) then 1 else 0).

Definition balance (s : wpa_sm E) : Z := installs s - snonces s + potential s.

Lemma potential_nonneg s : 0 <= potential s.
Proof. unfold potential. repeat case_match; lia. Qed.

(** States with the same keys, and events that differ by those of [k]. *)
Lemma balance_ext s s' k :
  keys s' = keys s -> events (pm s') = events (pm s) ++ k ->
  balance s' = balance s + count is_ptk_install k - count is_snonce k.
Proof.
  intros Hk He. unfold balance, installs, snonces. rewrite He, !count_app.
  assert (potential s' = potential s) as ->.
  { destruct (keys_inv s s' Hk) as (E1 & _ & _ & E4 & E5). unfold potential. now rewrite E1, E4, E5. }
  lia.
Qed.

Lemma grow_balance s s' :
  keys s' = keys s -> quiet_grow (events (pm s)) (events (pm s')) -> balance s' = balance s.
Proof.
  intros Hk (k & He & Hq). rewrite (balance_ext s s' k Hk He).
  rewrite (count_quiet _ _ quiet_not_install Hq), (count_quiet _ _ quiet_not_snonce Hq). lia.
Qed.

(** ** The steps *)

Lemma balance_le s s' :
  events (pm s') = events (pm s) -> potential s' <= potential s -> balance s' <= balance s.
Proof. intros He Hp. unfold balance, installs, snonces. rewrite He. lia. Qed.

Lemma set_key_keys alg addr idx tx rsc key fl (s : wpa_sm E) r s' :
  wpa_sm_set_key alg addr idx tx rsc key fl s = (r, s') ->
  keys s' = keys s /\ events (pm s') = events (pm s) ++ [EvSetKey alg addr idx tx rsc key fl r].
Proof. unfold wpa_sm_set_key, ask. now intros [= <- <-]. Qed.

(** Installing the PTK uses it up. *)
Lemma install_balance alg addr idx tx rsc key fl (s s1 s2 : wpa_sm E) :
  installed (ptk s) = false -> tk_len (ptk s) <> 0 ->
  wpa_sm_set_key alg addr idx tx rsc key fl s = (true, s1) -> quiet s1 s2 ->
  balance (s2 <| ptk := ptk_installed (ptk s2) |>) <= balance s.
Proof.
  intros Hi Hlen H1 [H2 _ He2 _ _]. destruct (set_key_keys _ _ _ _ _ _ _ _ _ _ H1) as [Hk He].
  pose proof (balance_ext s s1 _ Hk He) as Hb. rewrite !count_one in Hb. cbn [is_snonce] in Hb.
  pose proof (grow_balance s1 s2 H2 He2) as Hb2.
  destruct (keys_inv s s1 Hk) as (E1 & _ & _ & E4 & E5).
  destruct (keys_inv s1 s2 H2) as (F1 & _ & _ & F4 & F5).
  set (s3 := s2 <| ptk := _ |>). assert (balance s3 = balance s2 - 1) as H3.
  { unfold balance. change (installs s3) with (installs s2). change (snonces s3) with (snonces s2).
    unfold potential. change (tptk_set s3) with (tptk_set s2).
    change (renew_snonce s3) with (renew_snonce s2). change (installed (ptk s3)) with true.
    rewrite F1, E1, Hi. destruct (Z.eqb_spec (tk_len (ptk s)) 0); [lia|]. cbn [negb andb]. lia. }
  destruct (is_ptk_install _) in Hb; lia.
Qed.

(** Drawing an SNonce pays for the next PTK. *)
Lemma draw_snonce_balance n s :
  renew_snonce s = true ->
  balance (s <| snonce := n |> <| renew_snonce := false |> ▸ sm_emit (EvRandom n)) <= balance s.
Proof.
  intros Hr. set (s1 := sm_emit _ _). unfold balance, installs, snonces.
  assert (events (pm s1) = events (pm s) ++ [EvRandom n]) as -> by reflexivity.
  rewrite !count_app, !count_one. cbn [is_ptk_install is_snonce]. unfold potential.
  assert (ptk s1 = ptk s /\ tptk_set s1 = tptk_set s /\ renew_snonce s1 = false) as (-> & -> & ->) by done.
  rewrite Hr. cbn [negb]. destruct (tptk_set s); cbn [orb]; lia.
Qed.

(** A step without events that ends with the given flags. *)
Lemma balance_flags (s s' : wpa_sm E) i l t r :
  events (pm s') = events (pm s) ->
  installed (ptk s') = i -> tk_len (ptk s') = l -> tptk_set s' = t -> renew_snonce s' = r ->
  (if negb i && negb (l =? 0) then 1 else 0) + (if t || negb r then 1 else 0) <= potential s ->
  balance s' <= balance s.
Proof. intros He <- <- <- <- H. exact (balance_le s s' He H). Qed.

Lemma accept_balance (s : wpa_sm E) : tptk_set s = true -> balance (accept_tptk s) <= balance s.
Proof.
  intros Ht. apply (balance_flags _ _ (installed (tptk s)) (tk_len (tptk s)) false true); try reflexivity.
  unfold potential. rewrite Ht. cbn [negb orb]. destruct (_ && _), (_ && _); lia.
Qed.

Lemma clear_balance (s : wpa_sm E) : balance (clear_keys s) <= balance s.
Proof.
  apply (balance_flags _ _ false 0 false (renew_snonce s)); try reflexivity. unfold potential.
  generalize (negb (installed (ptk s)) && negb (tk_len (ptk s) =? 0)). intros b.
  destruct b, (tptk_set s), (renew_snonce s); cbn; lia.
Qed.

Lemma renew_balance (s : wpa_sm E) : balance (s <| renew_snonce := true |>) <= balance s.
Proof.
  apply (balance_flags _ _ (installed (ptk s)) (tk_len (ptk s)) (tptk_set s) true); try reflexivity.
  unfold potential. destruct (tptk_set s), (renew_snonce s); cbn [negb orb]; lia.
Qed.

Lemma tptk_set_balance (s : wpa_sm E) :
  renew_snonce s = false -> balance (s <| tptk_set := true |>) <= balance s.
Proof.
  intros Hr. apply (balance_flags _ _ (installed (ptk s)) (tk_len (ptk s)) true (renew_snonce s)); try reflexivity.
  unfold potential. rewrite Hr. cbn [negb]. rewrite !orb_true_r. lia.
Qed.

Lemma hs_balance s s' : hs_step s s' -> balance s' <= balance s.
Proof.
  destruct 1 as [s s' [Hk _ He _ _ _]|s s' Hk Hm _ _|* Hs Hi|* Hi Hl Hs Hq|s s' Hp Hm _ _ _|s].
  - rewrite (grow_balance s s' Hk He). reflexivity.
  - rewrite (balance_ext s s' [] Hk), !count_nil; [lia|]. now rewrite Hm, app_nil_r.
  - destruct (set_key_keys _ _ _ _ _ _ _ _ _ _ Hs) as [Hk He].
    rewrite (balance_ext s s' _ Hk He), !count_one, Hi. cbn [is_snonce]. lia.
  - exact (install_balance _ _ _ _ _ _ _ _ _ _ Hi Hl Hs Hq).
  - injection Hp as E1 E2 E3 E4 E5 E6 E7 E8 E9.
    apply balance_le; [now rewrite Hm|]. unfold potential. rewrite E1, E4, E5. lia.
  - apply renew_balance.
Qed.

Lemma prim_balance s s' : prim s s' -> balance s' <= balance s.
Proof.
  destruct 1 as [s s' Hs|s k n Hr _|f s|s|s Hr|s Ht|s c _|s b|s n _|s|s p _ Hi Hl|s ie n _];
    try (apply balance_le; reflexivity).
  - now apply hs_balance.
  - now apply draw_snonce_balance.
  - now apply tptk_set_balance.
  - now apply accept_balance.
  - apply clear_balance.
  - apply (balance_flags _ _ (installed p) (tk_len p) (tptk_set s) (renew_snonce s)); try reflexivity.
    unfold potential. rewrite Hi, Hl. lia.
Qed.

(** C1. Key reinstallation is impossible: after any sequence of received frames,
    notifications, timeouts and configuration changes, the number of pairwise keys
    installed in the driver is at most the number of SNonces drawn, so that every
    installed pairwise key was derived with an SNonce that no other installed key
    was derived with. *)
Theorem ptk_installs_bounded e ops s' :
  Forall op_ok ops -> run_wpa_ops ops (wpa_sm_init e) = Some s' -> installs s' <= snonces s'.
Proof.
  intros Hops H. assert (balance (wpa_sm_init e) = 0) as H0 by reflexivity.
  assert (balance s' <= 0) as H1.
  { refine (run_wpa_ops_invariant (fun s => balance s <= 0) _ _ _ _ _ Hops (init_pm_typed e) H _);
      [|done | now rewrite H0].
    intros s1 s2 Hp. apply prim_balance in Hp. lia. }
  pose proof (potential_nonneg s'). unfold balance in *. lia.
Qed.
End Krack.

(** A handshake whose message 3/4 the access point repeats twice. *)
Definition repeated_message_3 : list (wpa_op (E := unit)) :=
  rsn_handshake ++ [OpRxEapol demo_bssid (msg_3_of_4 3 rsn_ptk demo_rsn_ie);
                    OpRxEapol demo_bssid (msg_3_of_4 4 rsn_ptk demo_rsn_ie)].

Lemma ptk_installs_bounded_witness :
  match run_wpa_ops repeated_message_3 (wpa_sm_init tt) with
  | Some s' => installs s' = 1 /\ installs s' <= snonces s'
  | None => False
  end.
Proof.
  assert (match run_wpa_ops repeated_message_3 (wpa_sm_init tt) with Some s' => installs s' = 1 | None => False end) as H
    by (vm_compute; reflexivity).
  destruct (run_wpa_ops repeated_message_3 (wpa_sm_init tt)) as [s'|] eqn:Hr; [|exact H].
  split; [exact H|]. assert (Forall (@op_ok unit) repeated_message_3) as Hops
    by (unfold repeated_message_3; repeat constructor; vm_compute; intros [=]).
  exact (@ptk_installs_bounded unit demo_eapol demo_eapol_laws demo_world demo_hmac demo_aes tt _ s' Hops Hr).
Defined.
