(* ===== verification/WpaSafe.v ===== *)
(** * The WPA state machine: types and memory safety

    [sm_typed]: every key array of struct wpa_sm keeps its size and every length
    field stays inside its array, so that no copy overflows ([overwrite] makes an
    array longer when the source does not fit).  [pmksa_wf] is the invariant of
    the PMKSA cache.  No operation leaves them, and an operation that starts in
    such a state finishes: it never accesses a cache entry that is not allocated. *)

From stdpp Require Import gmap.
From S2P Require Import Prelude WpaDefs WpaCommon Crypto CryptoDemo Rc4 AesWrap RsnIe KeyData WpaTypes Pmksa PmksaProps PmksaSpec PmksaSafe WpaDemo WpaSm WpaHandshake WpaOps WpaFrame WpaSteps WpaSession.

(** random_get_bytes() fills the buffer of WPA_NONCE_LEN bytes. *)
Class EnvLaws `{WpaEnv} := {
  env_random_len k n : env_random k = Some n -> length n = WPA_NONCE_LEN
}.

#[export] Instance demo_env_laws times : @EnvLaws (demo_env times).
Proof. split. intros k n [= <-]. reflexivity. Qed.

Section Safe.
Context {E : Type} `{EO : EapolOps E} `{EL : !EapolLaws E} `{ENV : WpaEnv} `{ENVL : !EnvLaws}.
Context `{HM : Hmac} `{HL : !HmacLaws} `{AES : AesCipher}.

Record sm_typed (s : wpa_sm E) : Prop := {
  ty_pm : pm_typed (pm s);
  ty_ptk : ptk_wf (ptk s);
  ty_tptk : ptk_wf (tptk s);
  ty_snonce : length (snonce s) = WPA_NONCE_LEN;
  ty_anonce : length (anonce s) = WPA_NONCE_LEN;
  ty_replay : length (rx_replay_counter s) = WPA_REPLAY_COUNTER_LEN;
  ty_group : Forall gtk_typed (group s);
  ty_assoc : ie_ok s
}.

Definition sm_wf (s : wpa_sm E) : Prop := sm_typed s /\ pmksa_wf (pm s).

Lemma sm_init_wf (e : E) : sm_wf (wpa_sm_init e).
Proof.
  split; [|exact init_wf]. split; try reflexivity; try apply ptk_zero_wf; [apply init_pm_typed| |].
  - repeat (constructor; [apply gtk_zero_typed|]). constructor.
  - now left.
Qed.

(** ** The steps keep the types *)

Lemma quiet_assoc (s s' : wpa_sm E) : quiet s s' -> assoc_ie s' = assoc_ie s.
Proof. intros Hq. pose proof (q_config _ _ Hq) as H. injection H. unfold assoc_ie. congruence. Qed.

Lemma read_assoc (s s' : wpa_sm E) : assoc_ie s' = assoc_ie s -> read_assoc_ie s' = read_assoc_ie s.
Proof. intros [= H1 H2]. unfold read_assoc_ie. now rewrite H1, H2. Qed.

(** The part of the types that [keys] determines. *)
Lemma typed_keys s s' :
  keys s' = keys s -> assoc_ie s' = assoc_ie s -> pm_typed (pm s') -> sm_typed s -> sm_typed s'.
Proof.
  intros Hk Ha Hp [_ H1 H2 H3 H4 H5 H6 H7]. injection Ha as A1 A2. injection Hk as E1 E2 E3 E4 E5 E6 E7 E8 E9 E10 E11 E12 E13 E14 E15.
  split; rewrite ?E1, ?E2, ?E6, ?E7, ?E8; try assumption.
  - unfold group in *. now rewrite E10, E11, E12, E13, E14, E15.
  - unfold ie_ok. now rewrite A1, A2.
Qed.

Lemma typed_quiet s s' : quiet s s' -> sm_typed s -> sm_typed s'.
Proof.
  intros Hq Ht. exact (typed_keys _ _ (q_keys _ _ Hq) (quiet_assoc _ _ Hq) (q_typed _ _ Hq (ty_pm _ Ht)) Ht).
Qed.

Lemma typed_group s s' :
  pairwise s' = pairwise s -> pm s' = pm s -> (Forall gtk_typed (group s) -> Forall gtk_typed (group s')) ->
  assoc_ie s' = assoc_ie s -> sm_typed s -> sm_typed s'.
Proof.
  intros Hk Hm Hg Ha [H0 H1 H2 H3 H4 H5 H6 H7]. injection Ha as A1 A2. injection Hk as E1 E2 E3 E4 E5 E6 E7 E8 E9.
  split; rewrite ?Hm, ?E1, ?E2, ?E6, ?E7, ?E8; auto. unfold ie_ok. now rewrite A1, A2.
Qed.

(** A change of the pairwise keys only. *)
Lemma typed_ptk (s s' : wpa_sm E) :
  pm s' = pm s -> group s' = group s -> snonce s' = snonce s -> anonce s' = anonce s ->
  rx_replay_counter s' = rx_replay_counter s -> assoc_ie s' = assoc_ie s ->
  ptk_wf (ptk s') -> ptk_wf (tptk s') -> sm_typed s -> sm_typed s'.
Proof.
  intros Hm Hg H1 H2 H3 [= A1 A2] Hp Ht []. split; try congruence. unfold ie_ok. now rewrite A1, A2.
Qed.

Lemma ptk_installed_wf p : ptk_wf p -> ptk_wf (ptk_installed p).
Proof. intros []. split; try assumption; [reflexivity | now vm_compute]. Qed.

Lemma derive_ptk_wf f (s : wpa_sm E) : sm_typed s -> ptk_wf (wpa_derive_ptk f (tptk s) s).2.
Proof.
  intros [(_ & Hk & Hl) _ Ht _ _ _ _ _]. unfold wpa_derive_ptk. apply wpa_pmk_to_ptk_wf; [| |exact Ht].
  - unfold sm_pmk, key_of, zlen, PMK_LEN_MAX in *. rewrite length_take. lia.
  - unfold derive_kdk_len. destruct (_ || _); unfold WPA_KDK_MAX_LEN; lia.
Qed.

Lemma swap_mic_keys_wf p : ptk_wf p -> ptk_wf (p <| tk := swap_mic_keys (tk p) |>).
Proof.
  intros [H1 H2 H3 H4 H5 H6 H7 H8]. split; try assumption. cbn [tk over].
  unfold swap_mic_keys, slice, WPA_TK_MAX_LEN in *.
  rewrite !length_app, !length_take, !length_drop. lia.
Qed.

Lemma set_key_pm alg addr idx tx rsc key fl (s : wpa_sm E) r s' :
  wpa_sm_set_key alg addr idx tx rsc key fl s = (r, s') ->
  (keys s' = keys s /\ assoc_ie s' = assoc_ie s) /\ (pm_typed (pm s) -> pm_typed (pm s')) /\ same_cache (pm s) (pm s').
Proof.
  unfold wpa_sm_set_key, ask. intros [= <- <-]. split; [split; reflexivity|]. split; [exact id | now split_and!].
Qed.

Lemma clear_typed (s : wpa_sm E) : sm_typed s -> sm_typed (clear_keys s).
Proof.
  intros [H0 H1 H2 H3 H4 H5 H6 H7]. split; try assumption; try exact ptk_zero_wf.
  unfold group in *. rewrite !Forall_cons in *. destruct_and!. split_and!; auto using gtk_zero_typed.
Qed.

Lemma hs_typed s s' : hs_step s s' -> sm_typed s -> sm_typed s'.
Proof.
  destruct 1 as [s s' Hq|s s' Hk Hm _ Ha|* Hs _|* _ _ Hs Hq|s s' Hp Hm _ Hg Ha|s]; intros Ht.
  - exact (typed_quiet _ _ Hq Ht).
  - apply (typed_keys s); [exact Hk | exact Ha | rewrite Hm; apply Ht | exact Ht].
  - destruct (set_key_pm _ _ _ _ _ _ _ _ _ _ Hs) as ([Hk Ha] & Hm & _).
    exact (typed_keys _ _ Hk Ha (Hm (ty_pm _ Ht)) Ht).
  - destruct (set_key_pm _ _ _ _ _ _ _ _ _ _ Hs) as ([Hk Ha] & Hm & _).
    assert (sm_typed s2) as H2 by exact (typed_quiet _ _ Hq (typed_keys _ _ Hk Ha (Hm (ty_pm _ Ht)) Ht)).
    apply (typed_ptk s2); try reflexivity; [apply ptk_installed_wf, H2 | apply H2 | exact H2].
  - exact (typed_group _ _ Hp Hm Hg Ha Ht).
  - apply (typed_ptk s); try reflexivity; [apply Ht | apply Ht | exact Ht].
Qed.

Lemma prim_typed s s' : prim s s' -> sm_typed s -> sm_typed s'.
Proof.
  destruct 1 as [s s' Hs|s k n _ Hn|f s|s|s _|s _|s c Hc|s b|s n Hn|s|s p Hp _ _|s ie n Hn]; intros Ht.
  - exact (hs_typed _ _ Hs Ht).
  - destruct Ht. split; try assumption. exact (env_random_len k n Hn).
  - apply (typed_ptk s); try reflexivity; [apply Ht | exact (derive_ptk_wf f s Ht) | exact Ht].
  - apply (typed_ptk s); try reflexivity; [apply Ht | apply swap_mic_keys_wf, Ht | exact Ht].
  - apply (typed_ptk s); try reflexivity; [apply Ht | apply Ht | exact Ht].
  - apply (typed_ptk s); try reflexivity; [apply Ht | apply ptk_zero_wf | exact Ht].
  - destruct Ht. split; assumption.
  - destruct Ht. split; assumption.
  - destruct Ht. split; assumption.
  - exact (clear_typed s Ht).
  - apply (typed_ptk s); try reflexivity; [apply Hp, Ht | apply Ht | exact Ht].
  - destruct Ht. split; try assumption. now apply Hn.
Qed.

Lemma hs_pmksa_wf (s s' : wpa_sm E) : hs_step s s' -> pmksa_wf (pm s) -> pmksa_wf (pm s').
Proof.
  destruct 1 as [s s' Hq|s s' Hk Hm _ _|* Hs _|* _ _ Hs Hq|s s' Hp Hm _ Hg _|]; try exact id.
  - exact (q_wf _ _ Hq).
  - now rewrite Hm.
  - destruct (set_key_pm _ _ _ _ _ _ _ _ _ _ Hs) as (_ & _ & Hc). now apply same_cache_wf.
  - destruct (set_key_pm _ _ _ _ _ _ _ _ _ _ Hs) as (_ & _ & Hc). intros Hw.
    exact (q_wf _ _ Hq (same_cache_wf _ _ Hc Hw)).
  - now rewrite Hm.
Qed.

Lemma prim_pmksa_wf (s s' : wpa_sm E) : prim s s' -> pmksa_wf (pm s) -> pmksa_wf (pm s').
Proof.
  destruct 1 as [s s' Hs| | | | | | | | | | | ]; try exact id; [exact (hs_pmksa_wf _ _ Hs)|].
  intros Hw. now apply (same_cache_wf (pm s)).
Qed.

Lemma steps_pmksa_wf (s s' : wpa_sm E) : steps s s' -> pmksa_wf (pm s) -> pmksa_wf (pm s').
Proof. apply (steps_invariant (fun s => pmksa_wf (pm s)) prim_pmksa_wf). Qed.

Lemma hsteps_pmksa_wf (s s' : wpa_sm E) : hsteps s s' -> pmksa_wf (pm s) -> pmksa_wf (pm s').
Proof. intros H. exact (steps_pmksa_wf _ _ (hsteps_steps _ _ H)). Qed.

Lemma prim_wf s s' : prim s s' -> sm_wf s -> sm_wf s'.
Proof. intros H [Ht Hw]. split; [exact (prim_typed _ _ H Ht) | exact (prim_pmksa_wf _ _ H Hw)]. Qed.

(** The EAPOL machines are not part of the invariant. *)
Lemma eapol_wf (s : wpa_sm E) e : sm_wf s -> sm_wf (s <| sm_eapol := e |>).
Proof. intros [[H0 H1 H2 H3 H4 H5 H6 H7] Hw]. split; [split; assumption | exact Hw]. Qed.

(** ** Every operation finishes *)

Lemma cur_entry (s : wpa_sm E) c :
  pmksa_wf (pm s) -> cur_pmksa (pm s) = Some c -> is_Some (heap (pm s) !! c).
Proof. intros Hw Hc. destruct (wf_lookup _ _ Hw (wf_cur _ _ Hw Hc)) as [e He]. eauto. Qed.

(** A lookup of the current entry in the goal. *)
Ltac current_entry Hw :=
  lazymatch goal with
  | |- context [match cur_pmksa (pm ?s) with _ => _ end] =>
      let Hc := fresh in let e := fresh "e" in
      destruct (cur_pmksa (pm s)) eqn:Hc;
      [destruct (cur_entry s _ Hw Hc) as [e ->] | ]
  end.

Lemma get_some aa pmkid (s : wpa_sm E) :
  pmksa_wf (pm s) -> is_Some (pmksa_cache_get aa pmkid 0 0 (pm s)).
Proof. intros Hw. destruct (wf_get aa pmkid 0 0 _ Hw) as (r & -> & _). eauto. Qed.

Lemma pmksa_add_some key pmkid kck aa (s : wpa_sm E) :
  pmksa_wf (pm s) -> is_Some (sm_pmksa_add key pmkid kck aa s).
Proof.
  intros Hw. unfold sm_pmksa_add, on_pm'.
  destruct (add_ok key pmkid kck aa (own_addr (pm s)) (network_ctx s) (key_mgmt s) None (pm s) Hw)
    as (r & p & -> & _). eauto.
Qed.

Lemma find_pmkid_some src pmkid (s : wpa_sm E) : pmksa_wf (pm s) -> is_Some (find_pmkid src pmkid s).
Proof.
  intros Hw. unfold find_pmkid. destruct (_ && _); [|eauto].
  destruct (get_some (Some src) pmkid s Hw) as [r ->]. eauto.
Qed.

Lemma pmkid_matches_some pmkid (s : wpa_sm E) : pmksa_wf (pm s) -> is_Some (pmkid_matches pmkid s).
Proof. intros Hw. unfold pmkid_matches. destruct pmkid; [|eauto]. current_entry Hw; eauto. Qed.

Lemma set_pmk_from_pmksa_some (s : wpa_sm E) : pmksa_wf (pm s) -> is_Some (wpa_sm_set_pmk_from_pmksa s).
Proof. intros Hw. unfold wpa_sm_set_pmk_from_pmksa. current_entry Hw; eauto. Qed.

Lemma use_eapol_pmk_some src pmkid len ab (s : wpa_sm E) :
  0 <= len <= PMK_LEN_MAX -> pmksa_wf (pm s) -> is_Some (use_eapol_pmk src pmkid len ab s).
Proof.
  intros Hlen Hw. unfold use_eapol_pmk. cbv zeta.
  pose proof (q_wf _ _ (use_pmk_quiet s len Hlen) Hw) as H0.
  set (s0 := wpa_supplicant_key_mgmt_set_pmk _) in *. clearbody s0.
  match goal with |- is_Some (match ?b with _ => _ end) => assert (exists sa s1, b = Some (sa, s1) /\ pmksa_wf (pm s1)) as (sa & s1 & -> & H1) end.
  { destruct (_ && _ && _); [|eauto].
    match goal with |- context [sm_pmksa_add ?k ?i ?c ?a s0] =>
      destruct (pmksa_add_some k i c a s0 H0) as [[sa s1] H1] end.
    rewrite H1. exists sa, s1. split; [done|]. exact (q_wf _ _ (sm_pmksa_add_quiet _ _ _ _ _ _ _ H1) H0). }
  match goal with |- is_Some (match ?b with _ => _ end) => assert (is_Some b) as [found ->] end.
  { destruct (_ && _); [now apply get_some | eauto]. }
  destruct (bool_decide (is_Some found)); [eauto|]. destruct (_ && _ && _); eauto.
Qed.

Lemma get_pmk_some src pmkid (s : wpa_sm E) :
  pmksa_wf (pm s) -> is_Some (wpa_supplicant_get_pmk src pmkid s).
Proof.
  intros Hw. unfold wpa_supplicant_get_pmk.
  destruct (find_pmkid_some src pmkid s Hw) as [[ab s1] H1]. rewrite H1.
  apply find_pmkid_quiet in H1. pose proof (q_wf _ _ H1 Hw) as Hw1.
  destruct (pmkid_matches_some pmkid s1 Hw1) as [matched ->].
  match goal with |- is_Some (match ?b with _ => _ end) => assert (is_Some b) as [[r s2] ->] end.
  { destruct matched.
    - destruct (set_pmk_from_pmksa_some s1 Hw1) as [s2 ->]. eauto.
    - destruct (wpa_key_mgmt_wpa_ieee8021x _); [|eauto].
      destruct (get_eapol_pmk s1) as [[res len] s3] eqn:H3.
      pose proof (get_eapol_pmk_len _ _ _ _ H3) as Hlen. apply get_eapol_pmk_quiet in H3.
      destruct (res =? 0); [|eauto]. apply use_eapol_pmk_some; [exact Hlen | exact (q_wf _ _ H3 Hw1)]. }
  destruct r as [ab'|]; [|eauto]. destruct (_ && _ && _ && _ && _); eauto.
Qed.

Lemma renew_assoc (s : wpa_sm E) r s' : renew s = (r, s') -> assoc_ie s' = assoc_ie s.
Proof.
  unfold renew, ask. destruct (renew_snonce s); [destruct (env_random _)|]; now intros [= _ <-].
Qed.

Lemma answer_1_of_4_some f ver (s : wpa_sm E) :
  is_Some (read_assoc_ie s) -> is_Some (answer_1_of_4 f ver s).
Proof.
  intros Hr. unfold answer_1_of_4. cbv zeta. change (if renew_snonce s then _ else _) with (renew s).
  destruct (renew s) as [renewed s1] eqn:H1. apply renew_assoc, read_assoc in H1. rewrite <- H1 in Hr.
  destruct (negb renewed); [eauto|]. destruct (wpa_derive_ptk f (tptk s1) s1) as [ok p].
  destruct (negb ok); [eauto|].
  set (s4 := (if _ =? _ then _ else _) <| tptk_set := true |>).
  assert (assoc_ie s4 = assoc_ie s1) as H4 by (unfold s4; destruct (_ =? _); reflexivity).
  clearbody s4. apply read_assoc in H4. rewrite <- H4 in Hr.
  destruct (ask env_malloc s4) as [ok5 s5] eqn:H5.
  apply ask_quiet, quiet_assoc, read_assoc in H5. rewrite <- H5 in Hr.
  destruct (negb ok5); [eauto|]. destruct Hr as [ie ->].
  destruct (wpa_supplicant_send_2_of_4 _ _ _ _ _ _ s5) as [ret s6]. eauto.
Qed.

Lemma process_1_of_4_some src f ver kd (s : wpa_sm E) :
  pmksa_wf (pm s) -> is_Some (read_assoc_ie s) -> is_Some (wpa_supplicant_process_1_of_4 src f ver kd s).
Proof.
  intros Hw Hr. unfold wpa_supplicant_process_1_of_4. cbv zeta.
  destruct (ask env_network_ctx s) as [ctx s0] eqn:H0. apply ask_quiet in H0.
  destruct (ctx =? 0); [eauto|]. destruct (_ && _); [eauto|].
  pose proof (quiet_trans _ _ _ H0 (set_state_quiet WPA_4WAY_HANDSHAKE s0)) as H1.
  pose proof (q_wf _ _ H1 Hw) as Hw1. set (s1 := wpa_sm_set_state _ s0) in *. clearbody s1.
  destruct (if is_rsn _ then _ else _) as [res ie]. destruct (res <? 0); [eauto|].
  match goal with |- context [wpa_supplicant_get_pmk src ?p s1] =>
    destruct (get_pmk_some src p s1 Hw1) as [[res2 s2] H2] end. rewrite H2.
  destruct (res2 =? -2); [eauto|]. destruct (negb _); [eauto|].
  apply get_pmk_quiet, (quiet_trans _ _ _ H1), quiet_assoc, read_assoc in H2. rewrite <- H2 in Hr.
  destruct (answer_1_of_4_some f ver s2 Hr) as [[ok s3] ->]. eauto.
Qed.

Lemma key_neg_complete_some addr secure (s : wpa_sm E) :
  pmksa_wf (pm s) -> is_Some (wpa_supplicant_key_neg_complete addr secure s).
Proof.
  intros Hw. unfold wpa_supplicant_key_neg_complete. cbv zeta.
  set (s1 := if secure then _ else _).
  assert (quiet s s1) as H1 by (unfold s1; destruct secure; [destruct (_ || _ || _)|]; quiet_update).
  clearbody s1. apply q_wf in H1; [|exact Hw]. unfold on_pm, update_entry. current_entry H1; [|eauto].
  destruct (e_opportunistic e); eauto.
Qed.

Lemma complete_3_of_4_some f kd ie (s : wpa_sm E) :
  pmksa_wf (pm s) -> is_Some (complete_3_of_4 f kd ie s).
Proof.
  intros Hw. unfold complete_3_of_4. cbv zeta.
  match goal with |- is_Some (match ?b with _ => _ end) =>
    assert (exists s1, b = Some s1 /\ pmksa_wf (pm s1)) as (s1 & -> & H1) end.
  { destruct (_ || _); [|eauto].
    match goal with |- context [wpa_supplicant_key_neg_complete ?a ?b s] =>
      destruct (key_neg_complete_some a b s Hw) as [s1 H1] end.
    rewrite H1. exists s1. split; [done|]. exact (q_wf _ _ (key_neg_complete_quiet _ _ _ _ H1) Hw). }
  set (s2 := if bool_decide (is_Some (p_gtk ie).1) then _ else _).
  assert (quiet s1 s2) as Hq2
    by (unfold s2; destruct (bool_decide _); [apply sm_emit_quiet; exact I | apply quiet_refl]).
  clearbody s2. pose proof (q_wf _ _ Hq2 H1) as H2.
  match goal with |- is_Some (match ?b with _ => _ end) => assert (is_Some b) as [s3 ->]; [|eauto] end.
  destruct (_ && _ && _); [|eauto].
  match goal with |- context [sm_pmksa_add ?k ?i ?c ?a s2] =>
    destruct (pmksa_add_some k i c a s2 H2) as [[sa s3] ->] end. eauto.
Qed.

Lemma process_3_of_4_some f ver kd (s : wpa_sm E) :
  pmksa_wf (pm s) -> is_Some (wpa_supplicant_process_3_of_4 f ver kd s).
Proof.
  intros Hw. unfold wpa_supplicant_process_3_of_4. cbv zeta.
  pose proof (q_wf _ _ (set_state_quiet WPA_4WAY_HANDSHAKE s) Hw) as Hw0.
  set (s0 := wpa_sm_set_state _ s) in *. clearbody s0.
  destruct (wpa_supplicant_parse_ies kd) as [res ie]. destruct (res <? 0); [eauto|].
  destruct (check_3_of_4 f kd ie s0) as [ok s1] eqn:H1. apply check_3_of_4_steps in H1.
  destruct (negb ok); [eauto|].
  destruct (answer_3_of_4 f ver s1) as [ok2 s2] eqn:H2. apply answer_3_of_4_steps in H2.
  destruct (negb ok2); [eauto|].
  destruct (group_keys_3_of_4 f kd ie s2) as [ok3 s3] eqn:H3. apply group_keys_steps in H3.
  destruct (negb ok3); [eauto|]. apply complete_3_of_4_some.
  exact (hsteps_pmksa_wf _ _ (hsteps_trans _ _ _ (hsteps_trans _ _ _ H1 H2) H3) Hw0).
Qed.

Lemma process_1_of_2_some f ver kd (s : wpa_sm E) :
  pmksa_wf (pm s) -> is_Some (wpa_supplicant_process_1_of_2 f ver kd s).
Proof.
  intros Hw. unfold wpa_supplicant_process_1_of_2. cbv zeta. destruct (negb _); [eauto|].
  destruct (if is_rsn s then _ else _) as [gd s1] eqn:H1.
  assert (hsteps s s1 /\ forall g, gd = Some g -> 0 <= gd_gtk_len g <= 32) as [Hs Hgd].
  { destruct (is_rsn s); [exact (process_1_of_2_rsn_steps _ _ _ _ _ H1)|].
    injection H1 as <- <-. split; [apply hsteps_refl | apply process_1_of_2_wpa_len]. }
  clear H1. pose proof (hsteps_trans _ _ _ Hs (quiet_hsteps _ _ (set_state_quiet WPA_GROUP_HANDSHAKE s1))) as H2.
  set (s2 := wpa_sm_set_state WPA_GROUP_HANDSHAKE s1) in *. clearbody s2. clear Hs.
  destruct gd as [gd|]; [|eauto].
  destruct (wpa_supplicant_install_gtk _ _ _ s2) as [ret s3] eqn:H3.
  apply install_gtk_steps, (hsteps_trans _ _ _ H2) in H3; [|now apply Hgd]. destruct (negb _); [eauto|].
  destruct (wpa_supplicant_send_2_of_2 _ _ _ s3) as [ret' s4] eqn:H4.
  apply send_2_of_2_quiet, quiet_hsteps, (hsteps_trans _ _ _ H3) in H4.
  destruct (ret' <? 0); [eauto|].
  lazymatch goal with |- is_Some (match ?b with _ => _ end) => assert (is_Some b) as [s5 ->]; [|eauto] end.
  destruct (bool_decide _); [eauto|]. apply key_neg_complete_some. exact (hsteps_pmksa_wf _ _ H4 Hw).
Qed.

Lemma verify_mic_pm f ver (s : wpa_sm E) r s' :
  wpa_supplicant_verify_eapol_key_mic f ver s = (r, s') -> pm s' = pm s /\ assoc_ie s' = assoc_ie s.
Proof.
  unfold wpa_supplicant_verify_eapol_key_mic. cbv zeta.
  destruct (tptk_set s && _); destruct (_ || _); intros [= <- <-]; split; reflexivity.
Qed.

Lemma rx_dispatch_some src f kd m (s : wpa_sm E) :
  pmksa_wf (pm s) -> is_Some (read_assoc_ie s) -> is_Some (rx_dispatch src f kd m s).
Proof.
  intros Hw Hr. unfold rx_dispatch. cbv zeta. destruct (has _ WPA_KEY_INFO_KEY_TYPE).
  - destruct (has _ _); [eauto|]. destruct (any_of _ _).
    + destruct (process_3_of_4_some f (Z.land (key_info f) WPA_KEY_INFO_TYPE_MASK) kd s Hw) as [? ->]. eauto.
    + destruct (process_1_of_4_some src f (Z.land (key_info f) WPA_KEY_INFO_TYPE_MASK) kd s Hw Hr) as [? ->]. eauto.
  - destruct (if m =? 0 then _ else _); [|eauto].
    destruct (process_1_of_2_some f (Z.land (key_info f) WPA_KEY_INFO_TYPE_MASK) kd s Hw) as [? ->]. eauto.
Qed.

Lemma rx_authenticate_some src f kd m (s : wpa_sm E) :
  pmksa_wf (pm s) -> is_Some (read_assoc_ie s) -> is_Some (rx_authenticate src f kd m s).
Proof.
  intros Hw Hr. unfold rx_authenticate. cbv zeta.
  destruct (if has _ WPA_KEY_INFO_MIC then _ else _) as [ok s1] eqn:H1.
  assert (pm s1 = pm s /\ assoc_ie s1 = assoc_ie s) as [E1 E2]
    by (destruct (has _ _); [exact (verify_mic_pm _ _ _ _ _ H1) | now injection H1 as _ <-]).
  rewrite <- E1 in Hw. apply read_assoc in E2. rewrite <- E2 in Hr.
  clear H1. destruct (negb ok); [eauto|].
  destruct (_ && _ && _); [|now apply rx_dispatch_some]. destruct (negb _); [eauto|].
  destruct (wpa_supplicant_decrypt_key_data _ _ _ s1) as [data s2] eqn:H2.
  apply decrypt_quiet in H2. destruct data; [|eauto]. apply rx_dispatch_some; [exact (q_wf _ _ H2 Hw)|].
  now rewrite (read_assoc _ _ (quiet_assoc _ _ H2)).
Qed.

Lemma rx_mic_len_some (s : wpa_sm E) : pmksa_wf (pm s) -> is_Some (rx_mic_len s).
Proof.
  intros Hw. unfold rx_mic_len. destruct (_ =? 0); [|eauto]. current_entry Hw; eauto.
Qed.

Lemma rx_eapol_some src buf (s : wpa_sm E) :
  pmksa_wf (pm s) -> is_Some (read_assoc_ie s) -> is_Some (wpa_sm_rx_eapol src buf s).
Proof.
  intros Hw Hr. unfold wpa_sm_rx_eapol. destruct (rx_mic_len_some s Hw) as [m ->]. cbv zeta.
  destruct (_ <? _); [eauto|]. destruct (negb _); [eauto|]. destruct (_ || _); [eauto|].
  destruct (ask env_malloc s) as [ok s1] eqn:H1. apply ask_quiet in H1. destruct (negb ok); [eauto|].
  destruct (_ && _); [eauto|]. destruct (_ <? _); [eauto|].
  match goal with |- context [on_eapol ?g s1] =>
    pose proof (quiet_trans _ _ _ H1 (on_eapol_quiet g s1 C_lower_layer_success)) as Hq; set (s2 := on_eapol g s1) in * end.
  destruct (negb _); [eauto|]. apply rx_authenticate_some; [exact (q_wf _ _ Hq Hw)|].
  now rewrite (read_assoc _ _ (quiet_assoc _ _ Hq)).
Qed.

Lemma on_pm_some op f (s : wpa_sm E) :
  (forall p, run_op op p = f p) -> pmksa_wf (pm s) -> is_Some (on_pm f s).
Proof.
  intros Hop Hw. unfold on_pm. destruct (run_op_ok op (pm s) Hw) as (p & Hp & _).
  rewrite Hop in Hp. rewrite Hp. eauto.
Qed.

Lemma set_pmk_some key pmkid aa (s : wpa_sm E) : pmksa_wf (pm s) -> is_Some (wpa_sm_set_pmk key pmkid aa s).
Proof.
  intros Hw. unfold wpa_sm_set_pmk. set (s0 := s <| pm := _ |>). assert (pmksa_wf (pm s0)) as H0
    by (apply (same_cache_wf (pm s)); [now split_and! | exact Hw]).
  clearbody s0. destruct aa as [aa|]; [|eauto].
  destruct (pmksa_add_some key pmkid None aa s0 H0) as [[r s1] ->]. eauto.
Qed.

(** The only access that can fail: the element of the association in message 1/4. *)
Definition faults (op : wpa_op (E := E)) (s : wpa_sm E) : Prop :=
  exists src buf, op = OpRxEapol src buf /\ wpa_sm_rx_eapol src buf s = None /\ stale s.

Lemma rx_eapol_cases src buf (s : wpa_sm E) :
  pmksa_wf (pm s) -> ie_ok s -> faults (OpRxEapol src buf) s \/ is_Some (wpa_sm_rx_eapol src buf s).
Proof.
  intros Hw Hok. destruct (wpa_sm_rx_eapol src buf s) as [r|] eqn:Hrx; [eauto|]. left.
  exists src, buf. split; [done|]. split; [exact Hrx|]. apply (ie_ok_stale s Hok).
  destruct (read_assoc_ie s) as [ie|] eqn:Hr; [|done].
  destruct (rx_eapol_some src buf s Hw) as [x Hx]; [rewrite Hr; eauto | congruence].
Qed.

Lemma run_wpa_op_some op (s : wpa_sm E) :
  pmksa_wf (pm s) -> ie_ok s -> faults op s \/ is_Some (run_wpa_op op s).
Proof.
  intros Hw Hok. destruct op; cbn [run_wpa_op].
  { destruct (rx_eapol_cases src buf s Hw Hok) as [Hf|[[r s1] ->]]; eauto. }
  all: right; try (eexists; reflexivity).
  - now apply set_pmk_some.
  - now apply set_pmk_from_pmksa_some.
  - unfold wpa_sm_pmksa_cache_add, on_pm'.
    destruct (add_ok key pmkid None aa (own_addr (pm s)) (network_ctx s) (key_mgmt s) fils_cache_id (pm s) Hw)
      as (r & p & -> & _). eauto.
  - now apply (on_pm_some (OpFlush ctx None false)).
  - now apply (on_pm_some (OpFlush ctx None true)).
  - unfold on_pm'.
    destruct (set_current_ok pmkid sel_bssid ctx try_opportunistic fils_cache_id akmp (pm s) Hw) as (r & p & -> & _).
    eauto.
  - now apply (on_pm_some OpReconfig).
  - now apply (on_pm_some OpExpire).
  - unfold wpa_sm_aborted_external_cached. current_entry Hw; eauto.
  - unfold wpa_sm_set_assoc_wpa_ie_default. assert (is_Some (wpa_gen_wpa_ie buf_len s)) as [[ie|] ->]; [ | |eauto].
    + unfold wpa_gen_wpa_ie. destruct (_ =? _); [|eauto]. current_entry Hw; eauto.
    + destruct (bool_decide _); [|eauto]. destruct (ask env_malloc s) as [[] s1]; eauto.
Qed.

(** A sequence stops at its first faulting frame. *)
Definition faulty (ops : list (wpa_op (E := E))) (s0 : wpa_sm E) : Prop :=
  exists pre op post s, ops = pre ++ op :: post
    /\ run_wpa_ops pre s0 = Some s /\ sm_wf s /\ faults op s.

Lemma faulty_cons op ops (s s1 : wpa_sm E) :
  run_wpa_op op s = Some s1 -> faulty ops s1 -> faulty (op :: ops) s.
Proof.
  intros H1 (pre & op' & post & s2 & -> & Hpre & Hs2). exists (op :: pre), op', post, s2.
  split; [done|]. split; [|exact Hs2]. cbn [run_wpa_ops]. now rewrite H1.
Qed.

Lemma run_wpa_ops_ok ops : forall s : wpa_sm E,
  Forall op_ok ops -> sm_wf s ->
  (exists s', run_wpa_ops ops s = Some s' /\ sm_wf s') \/ (run_wpa_ops ops s = None /\ faulty ops s).
Proof.
  induction ops as [|op ops IH]; intros s Hops Hs; cbn [run_wpa_ops]; [eauto|].
  apply Forall_cons in Hops as [Hop Hops].
  destruct (run_wpa_op_some op s (proj2 Hs) (ty_assoc _ (proj1 Hs))) as [Hf|[s1 H1]].
  { right. split; [|exists [], op, ops, s; auto]. destruct Hf as (src & buf & -> & Hrx & _).
    cbn [run_wpa_op]. now rewrite Hrx. }
  rewrite H1. destruct (IH s1 Hops) as [Hr | [Hr Hf]].
  - refine (run_wpa_op_invariant sm_wf _ _ _ _ _ Hop _ H1 Hs); [exact prim_wf | exact eapol_wf | apply Hs].
  - left. exact Hr.
  - right. split; [exact Hr | exact (faulty_cons _ _ _ _ H1 Hf)].
Qed.

Lemma faulty_malloc ops s : faulty ops s -> exists k, env_malloc k = false.
Proof.
  intros (pre & op & post & s1 & _ & _ & [Ht _] & (src & buf & _ & _ & [Hn Hl])).
  pose proof (ty_assoc _ Ht) as Hok. unfold ie_ok, ie_typed in Hok. rewrite Hn in Hok.
  destruct Hok as [H0 | Hk]; [lia | exact Hk].
Qed.

(** C3. Memory safety and types of the state machine.  Any sequence of calls from
    the rest of the program, received frames and timeouts, whatever their contents
    and whatever the driver, the allocator and the clock answer, does one of two
    things.  Either it runs to its end, without accessing a PMKSA entry that is not
    allocated, and in the resulting state every key array, nonce and replay counter
    has the size it is declared with, every length field is inside its array, and
    the PMKSA cache is well formed.  Or an allocation failed: a frame arrives in a
    (well-formed) state where the copy of the element of the association could not
    be allocated and its length is that of an earlier element, and handling the
    frame copies that many bytes from NULL. *)
Theorem wpa_ops_safe (e : E) ops :
  Forall op_ok ops ->
  (exists s', run_wpa_ops ops (wpa_sm_init e) = Some s' /\ sm_wf s')
  \/ (run_wpa_ops ops (wpa_sm_init e) = None /\ (exists k, env_malloc k = false)
      /\ exists pre src buf post s, ops = pre ++ OpRxEapol src buf :: post
         /\ run_wpa_ops pre (wpa_sm_init e) = Some s /\ sm_wf s
         /\ assoc_wpa_ie s = None /\ 0 < assoc_wpa_ie_len s /\ wpa_sm_rx_eapol src buf s = None).
Proof.
  intros Hops. destruct (run_wpa_ops_ok ops _ Hops (sm_init_wf e)) as [H | [H Hf]]; [now left|].
  right. split; [exact H|]. split; [exact (faulty_malloc _ _ Hf)|].
  destruct Hf as (pre & op & post & s & -> & Hp & Hs & (src & buf & -> & Hrx & [Hn Hl])).
  exists pre, src, buf, post, s. auto 10.
Qed.
End Safe.

(** The sizes of the arguments in the handshake of WpaSession.v. *)
Lemma rsn_handshake_ok : Forall (@op_ok unit) rsn_handshake.
Proof. unfold rsn_handshake. repeat constructor; vm_compute; intros [=]. Qed.

Lemma wpa_ops_safe_witness :
  (exists s', run_wpa_ops rsn_handshake (wpa_sm_init tt) = Some s' /\ sm_wf s')
  \/ (run_wpa_ops rsn_handshake (wpa_sm_init tt) = None /\ (exists k, env_malloc k = false)
      /\ exists pre src buf post s, rsn_handshake = pre ++ OpRxEapol src buf :: post
         /\ run_wpa_ops pre (wpa_sm_init tt) = Some s /\ sm_wf s
         /\ assoc_wpa_ie s = None /\ 0 < assoc_wpa_ie_len s /\ wpa_sm_rx_eapol src buf s = None).
Proof.
  exact (@wpa_ops_safe unit demo_eapol demo_eapol_laws demo_world (demo_env_laws _)
           demo_hmac demo_hmac_laws demo_aes tt rsn_handshake rsn_handshake_ok).
Defined.

(** The second case is reached.  The third question of the allocator, for the copy of
    the element of a new association, is answered with no; the next message 1/4 is
    answered from NULL. *)
Definition short_memory : WpaEnv := {|
  env_time := env_time; env_malloc := fun k => negb (k =? 2)%nat; env_random := env_random;
  env_send := env_send; env_set_key := env_set_key; env_get_bssid := env_get_bssid;
  env_beacon_ie := env_beacon_ie; env_network_ctx := env_network_ctx;
  env_eapol_version := env_eapol_version
|}.

Example stale_length_fault :
  let run ops := run_wpa_ops (ENV := short_memory) ops (wpa_sm_init tt) in
  let ops := rsn_assoc ++ [OpSetAssocIe (Some demo_rsn_ie)] in
  match run ops with
  | Some s => assoc_wpa_ie s = None /\ assoc_wpa_ie_len s = zlen demo_rsn_ie
  | None => False
  end /\ run (ops ++ [OpRxEapol demo_bssid (msg_1_of_4 1)]) = None.
Proof. vm_compute. auto. Qed.
