(* ===== verification/WpaRx.v ===== *)
(** * Reception of EAPOL-Key frames: authenticity, replay protection, answers

    [unkeyed s s']: from [s] to [s'] the PTK in use, the group keys and the replay
    counter are the same and no key was given to the driver. *)

From stdpp Require Import gmap.
From S2P Require Import Prelude WpaDefs WpaCommon Crypto CryptoDemo Rc4 AesWrap RsnIe KeyData WpaTypes Pmksa PmksaSpec WpaDemo WpaSm WpaHandshake WpaOps WpaFrame WpaSteps WpaSession.

Definition no_key_event (e : wpa_event) : Prop :=
  match e with EvSetKey _ _ _ _ _ _ _ _ => False | _ => True end.

(** The event logs grow, and no key is installed. *)
Definition unkeyed_grow (l l' : list wpa_event) : Prop := exists k, l' = l ++ k /\ Forall no_key_event k.

Lemma unkeyed_grow_trans l1 l2 l3 : unkeyed_grow l1 l2 -> unkeyed_grow l2 l3 -> unkeyed_grow l1 l3.
Proof.
  intros (k1 & -> & H1) (k2 & -> & H2). exists (k1 ++ k2). split; [now rewrite app_assoc|].
  now apply Forall_app.
Qed.

Lemma quiet_unkeyed_grow l l' : quiet_grow l l' -> unkeyed_grow l l'.
Proof.
  intros (k & -> & Hk). exists k. split; [done|]. eapply Forall_impl; [exact Hk|]. now intros [].
Qed.

Section Rx.
Context {E : Type} `{EO : EapolOps E} `{EL : !EapolLaws E} `{ENV : WpaEnv} `{HM : Hmac} `{AES : AesCipher}.

Record unkeyed (s s' : wpa_sm E) : Prop := {
  u_ptk : ptk s' = ptk s;
  u_ptk_set : ptk_set s' = ptk_set s;
  u_group : group s' = group s;
  u_replay : rx_replay_counter s' = rx_replay_counter s;
  u_replay_set : rx_replay_counter_set s' = rx_replay_counter_set s;
  u_events : unkeyed_grow (events (pm s)) (events (pm s'))
}.

Lemma unkeyed_trans (s1 s2 s3 : wpa_sm E) : unkeyed s1 s2 -> unkeyed s2 s3 -> unkeyed s1 s3.
Proof.
  intros [A1 B1 C1 D1 F1 G1] [A2 B2 C2 D2 F2 G2]. split; try congruence.
  exact (unkeyed_grow_trans _ _ _ G1 G2).
Qed.

Lemma quiet_unkeyed (s s' : wpa_sm E) : quiet s s' -> unkeyed s s'.
Proof.
  intros [Hk _ He _ _ _]. injection Hk as E1 E2 E3 E4 E5 E6 E7 E8 E9 E10 E11 E12 E13 E14 E15.
  split; try assumption; [unfold group; congruence | exact (quiet_unkeyed_grow _ _ He)].
Qed.

Lemma unkeyed_refl (s : wpa_sm E) : unkeyed s s.
Proof. apply quiet_unkeyed, quiet_refl. Qed.

(** Changes of the temporary PTK and of the nonces. *)
Lemma unkeyed_same (s s' : wpa_sm E) :
  pm s' = pm s -> ptk s' = ptk s -> ptk_set s' = ptk_set s -> group s' = group s ->
  rx_replay_counter s' = rx_replay_counter s -> rx_replay_counter_set s' = rx_replay_counter_set s ->
  unkeyed s s'.
Proof.
  intros Hm. intros. split; try assumption. rewrite Hm. exists []. now rewrite app_nil_r.
Qed.

(** ** Message 1/4 *)

Lemma renew_unkeyed (s : wpa_sm E) r s' : renew s = (r, s') -> unkeyed s s'.
Proof.
  unfold renew. destruct (renew_snonce s); [|intros [= <- <-]; apply unkeyed_refl].
  destruct (ask env_random s) as [n s0] eqn:H0. apply ask_quiet, quiet_unkeyed in H0.
  destruct n as [n|]; intros [= <- <-]; [|exact H0].
  eapply unkeyed_trans; [exact H0|]. split; try reflexivity.
  exists [EvRandom n]. split; [reflexivity|]. now constructor.
Qed.

Lemma answer_1_of_4_unkeyed f ver (s : wpa_sm E) r s' : answer_1_of_4 f ver s = Some (r, s') -> unkeyed s s'.
Proof.
  unfold answer_1_of_4. cbv zeta. change (if renew_snonce s then _ else _) with (renew s).
  destruct (renew s) as [renewed s1] eqn:H1. apply renew_unkeyed in H1.
  destruct renewed; cbn [negb]; [|intros [= <- <-]; exact H1].
  destruct (wpa_derive_ptk f (tptk s1) s1) as [ok p].
  assert (unkeyed s (s1 <| tptk := p |>)) as H2
    by (eapply unkeyed_trans; [exact H1 | apply unkeyed_same; reflexivity]).
  set (s2 := s1 <| tptk := p |>) in *. clearbody s2.
  destruct (negb ok); [intros [= <- <-]; exact H2|].
  set (s3 := if pairwise_cipher s2 =? WPA_CIPHER_TKIP then _ else s2).
  assert (unkeyed s (s3 <| tptk_set := true |>)) as H3.
  { eapply unkeyed_trans; [exact H2|]. unfold s3. destruct (_ =? _); apply unkeyed_same; reflexivity. }
  set (s4 := s3 <| tptk_set := true |>) in *. clearbody s4.
  destruct (ask env_malloc s4) as [ok5 s5] eqn:H5.
  apply ask_quiet, quiet_unkeyed, (unkeyed_trans _ _ _ H3) in H5.
  destruct (negb ok5); [intros [= <- <-]; exact H5|]. destruct (read_assoc_ie s5); [|discriminate].
  destruct (wpa_supplicant_send_2_of_4 _ _ _ _ _ _ s5) as [ret s6] eqn:H6.
  apply send_2_of_4_quiet, quiet_unkeyed, (unkeyed_trans _ _ _ H5) in H6.
  destruct (ret <? 0); intros [= <- <-]; [exact H6|].
  eapply unkeyed_trans; [exact H6 | apply unkeyed_same; reflexivity].
Qed.

Lemma process_1_of_4_unkeyed src f ver kd (s s' : wpa_sm E) :
  wpa_supplicant_process_1_of_4 src f ver kd s = Some s' -> unkeyed s s'.
Proof.
  unfold wpa_supplicant_process_1_of_4. cbv zeta.
  assert (forall t u : wpa_sm E, unkeyed s t -> Some (wpa_sm_deauthenticate WLAN_REASON_UNSPECIFIED t) = Some u ->
    unkeyed s u) as Hd
    by (intros t u Ht [= <-]; exact (unkeyed_trans _ _ _ Ht (quiet_unkeyed _ _ (deauth_quiet _ _)))).
  destruct (ask env_network_ctx s) as [ctx s0] eqn:H0. apply ask_quiet in H0.
  destruct (ctx =? 0); [intros [= <-]; now apply quiet_unkeyed|].
  destruct (_ && _).
  { intros [= <-]. apply quiet_unkeyed. eapply quiet_trans; [exact H0 | apply sm_emit_quiet; exact I]. }
  pose proof (quiet_trans _ _ _ H0 (set_state_quiet WPA_4WAY_HANDSHAKE s0)) as H1.
  set (s1 := wpa_sm_set_state WPA_4WAY_HANDSHAKE s0) in *. clearbody s1.
  destruct (if is_rsn s1 then _ else _) as [res ie].
  destruct (res <? 0); [now apply Hd, quiet_unkeyed|].
  destruct (wpa_supplicant_get_pmk _ _ s1) as [[res2 s2]|] eqn:H2; [|discriminate].
  apply get_pmk_quiet, (quiet_trans _ _ _ H1), quiet_unkeyed in H2.
  destruct (res2 =? -2); [intros [= <-]; exact H2|]. destruct (negb _); [now apply Hd|].
  destruct (answer_1_of_4 f ver s2) as [[ok s3]|] eqn:H3; [|discriminate].
  apply answer_1_of_4_unkeyed, (unkeyed_trans _ _ _ H2) in H3.
  destruct ok; [intros [= <-]; exact H3 | now apply Hd].
Qed.

(** ** Authentication *)

(** The frame is authenticated by a PTK the supplicant has derived. *)
Definition authentic (f : bytes) (s : wpa_sm E) : Prop :=
  let ver := Z.land (key_info f) WPA_KEY_INFO_TYPE_MASK in
  has (key_info f) WPA_KEY_INFO_MIC = true
  /\ ((tptk_set s = true /\ mic_valid (tptk s) (key_mgmt s) ver (sm_mic_len s) f = true)
      \/ (ptk_set s = true /\ mic_valid (ptk s) (key_mgmt s) ver (sm_mic_len s) f = true)).

Lemma verify_mic_spec f (s : wpa_sm E) r s' :
  has (key_info f) WPA_KEY_INFO_MIC = true ->
  wpa_supplicant_verify_eapol_key_mic f (Z.land (key_info f) WPA_KEY_INFO_TYPE_MASK) s = (r, s') ->
  if r then authentic f s else s' = s.
Proof.
  intros Hm. unfold wpa_supplicant_verify_eapol_key_mic. cbv zeta. unfold authentic.
  destruct (tptk_set s) eqn:Ht; cbn [andb].
  - destruct (mic_valid (tptk s) _ _ _ _) eqn:Hv; cbn [orb]; [intros [= <- <-]; auto|].
    destruct (ptk_set s) eqn:Hp; cbn [andb]; [|intros [= <- <-]; done].
    destruct (mic_valid (ptk s) _ _ _ _) eqn:Hv'; intros [= <- <-]; auto.
  - cbn [orb]. destruct (ptk_set s) eqn:Hp; cbn [andb]; [|intros [= <- <-]; done].
    destruct (mic_valid (ptk s) _ _ _ _) eqn:Hv'; intros [= <- <-]; auto.
Qed.

(** ** What an authenticated message leaves alone *)

Definition counter (s : wpa_sm E) : bytes * bool := (rx_replay_counter s, rx_replay_counter_set s).

Lemma keys_counter (s s' : wpa_sm E) : keys s' = keys s -> counter s' = counter s.
Proof. intros H. injection H. unfold counter. congruence. Qed.

Lemma hs_counter (s s' : wpa_sm E) : hs_step s s' -> counter s' = counter s.
Proof.
  assert (forall alg addr idx tx rsc key fl (t : wpa_sm E) r t',
    wpa_sm_set_key alg addr idx tx rsc key fl t = (r, t') -> counter t' = counter t) as Hkey
    by (intros ???????? r t'; unfold wpa_sm_set_key, ask; intros [= <- <-]; reflexivity).
  destruct 1 as [s s' Hq|s s' Hk _ _ _|* Hs _|* _ _ Hs Hq|s s' Hp _ _ _ _|s].
  - exact (keys_counter _ _ (q_keys _ _ Hq)).
  - exact (keys_counter _ _ Hk).
  - exact (Hkey _ _ _ _ _ _ _ _ _ _ Hs).
  - rewrite <- (Hkey _ _ _ _ _ _ _ _ _ _ Hs), <- (keys_counter _ _ (q_keys _ _ Hq)). reflexivity.
  - injection Hp. unfold counter. congruence.
  - reflexivity.
Qed.

Lemma hsteps_counter (s s' : wpa_sm E) : hsteps s s' -> counter s' = counter s.
Proof. induction 1 as [|s s1 s2 H _ IH]; [done|]. now rewrite IH, (hs_counter _ _ H). Qed.

(** With the MIC flag, only messages 3/4 and 1/2 are handled. *)
Lemma rx_dispatch_mic src f kd m (s : wpa_sm E) r s' :
  has (key_info f) WPA_KEY_INFO_MIC = true ->
  rx_dispatch src f kd m s = Some (r, s') -> hsteps s s'.
Proof.
  intros Hm. unfold rx_dispatch. cbv zeta.
  assert (any_of (key_info f) [WPA_KEY_INFO_MIC; WPA_KEY_INFO_ENCR_KEY_DATA] = true) as ->.
  { revert Hm. unfold has, any_of. rewrite !negb_true_iff, !Z.eqb_neq. cbn [fold_right].
    rewrite Z.lor_0_r. intros Hm H. apply Hm.
    rewrite Z.land_lor_distr_r in H. now apply Z.lor_eq_0_l in H. }
  destruct (has _ WPA_KEY_INFO_KEY_TYPE).
  - destruct (has _ WPA_KEY_INFO_KEY_INDEX_MASK); [intros [= <- <-]; apply hsteps_refl|].
    destruct (wpa_supplicant_process_3_of_4 _ _ _ s) as [s1|] eqn:H1; [|discriminate].
    intros [= <- <-]. exact (process_3_of_4_steps _ _ _ _ _ H1).
  - destruct (if m =? 0 then _ else _); [|intros [= <- <-]; apply hsteps_refl].
    destruct (wpa_supplicant_process_1_of_2 _ _ _ s) as [s1|] eqn:H1; [|discriminate].
    intros [= <- <-]. exact (process_1_of_2_steps _ _ _ _ _ H1).
Qed.

Lemma no_mic_no_encr info :
  has info WPA_KEY_INFO_MIC = false -> has info WPA_KEY_INFO_ENCR_KEY_DATA = false ->
  any_of info [WPA_KEY_INFO_MIC; WPA_KEY_INFO_ENCR_KEY_DATA] = false.
Proof.
  unfold has, any_of. rewrite !negb_false_iff, !Z.eqb_eq. cbn [fold_right].
  rewrite !Z.lor_0_r. intros Hm He. now rewrite Z.land_lor_distr_r, Hm, He.
Qed.

(** With neither the MIC nor the encryption flag, only message 1/4 is handled. *)
Lemma rx_dispatch_plain src f kd m (s : wpa_sm E) r s' :
  has (key_info f) WPA_KEY_INFO_MIC = false -> has (key_info f) WPA_KEY_INFO_ENCR_KEY_DATA = false ->
  m <> 0 -> rx_dispatch src f kd m s = Some (r, s') -> unkeyed s s'.
Proof.
  intros Hm He Hm0. unfold rx_dispatch. cbv zeta.
  rewrite (no_mic_no_encr _ Hm He).
  destruct (has _ WPA_KEY_INFO_KEY_TYPE).
  - destruct (has _ WPA_KEY_INFO_KEY_INDEX_MASK); [intros [= <- <-]; apply unkeyed_refl|].
    destruct (wpa_supplicant_process_1_of_4 _ _ _ _ s) as [s1|] eqn:H1; [|discriminate].
    intros [= <- <-]. exact (process_1_of_4_unkeyed _ _ _ _ _ _ H1).
  - destruct (Z.eqb_spec m 0); [done|]. rewrite Hm. intros [= <- <-]. apply unkeyed_refl.
Qed.

(** A frame changes keys only when it is authentic, and then its counter is the
    last one seen. *)
Definition rx_authentic (f : bytes) (s s' : wpa_sm E) : Prop :=
  unkeyed s s' \/ (authentic f s /\ counter s' = (replay_counter f, true)).

Lemma rx_authenticate_authentic src f kd m (s : wpa_sm E) r s' :
  is_rsn s = true -> m <> 0 -> rx_authenticate src f kd m s = Some (r, s') -> rx_authentic f s s'.
Proof.
  intros Hrsn Hm. unfold rx_authenticate. cbv zeta.
  destruct (has (key_info f) WPA_KEY_INFO_MIC) eqn:Hmic.
  - destruct (wpa_supplicant_verify_eapol_key_mic _ _ s) as [ok s1] eqn:H1.
    pose proof (verify_mic_spec f s ok s1 Hmic H1) as Ha. destruct ok; cbn [negb].
    2:{ intros [= <- <-]. left. subst s1. apply unkeyed_refl. }
    assert (counter s1 = (replay_counter f, true)) as Hc.
    { revert H1. unfold wpa_supplicant_verify_eapol_key_mic. cbv zeta.
      destruct (tptk_set s && _); destruct (_ || _); now intros [= <-]. }
    intros H. right. split; [exact Ha|]. rewrite <- Hc. clear Ha Hc H1.
    destruct (_ && _ && _); [|exact (hsteps_counter _ _ (rx_dispatch_mic _ _ _ _ _ _ _ Hmic H))].
    destruct (wpa_supplicant_decrypt_key_data _ _ _ s1) as [data s2] eqn:H2.
    apply decrypt_quiet, q_keys, keys_counter in H2. rewrite <- H2. clear H2.
    destruct data; [exact (hsteps_counter _ _ (rx_dispatch_mic _ _ _ _ _ _ _ Hmic H)) | now injection H as <- <-].
  - cbn [negb]. rewrite Hrsn. destruct (Z.eqb_spec m 0) as [|_]; [done|].
    cbn [andb negb]. rewrite andb_true_r.
    destruct (has (key_info f) WPA_KEY_INFO_ENCR_KEY_DATA) eqn:He.
    + intros [= <- <-]. left. apply unkeyed_refl.
    + intros H. left. exact (rx_dispatch_plain _ _ _ _ _ _ _ Hmic He Hm H).
Qed.

(** The EAPOL frame at the start of a received buffer. *)
Definition rx_frame (buf : bytes) : bytes :=
  take (Z.to_nat (get_be16 (drop 2 buf) + sizeof_ieee802_1x_hdr)) buf.

(** C2. In an RSN no frame changes the PTK in use, the group keys or the replay
    counter, or makes the supplicant hand a key to the driver, unless it carries
    the Key MIC of a PTK the supplicant has derived and a Key Replay Counter larger
    than every one accepted before; that counter is then the one to beat. *)
Theorem rx_eapol_authentic src buf (s : wpa_sm E) r s' :
  is_rsn s = true -> rx_mic_len s <> Some 0 -> wpa_sm_rx_eapol src buf s = Some (r, s') ->
  unkeyed s s'
  \/ (authentic (rx_frame buf) s
      /\ (rx_replay_counter_set s = true ->
          0 < memcmp (replay_counter (rx_frame buf)) (rx_replay_counter s))
      /\ rx_replay_counter s' = replay_counter (rx_frame buf) /\ rx_replay_counter_set s' = true).
Proof.
  intros Hrsn Hm. unfold wpa_sm_rx_eapol. destruct (rx_mic_len s) as [m|]; [|discriminate].
  assert (m <> 0) as Hm0 by congruence. clear Hm. cbv zeta.
  destruct (_ <? _); [intros [= <- <-]; left; apply unkeyed_refl|].
  destruct (negb _); [intros [= <- <-]; left; apply unkeyed_refl|].
  destruct (_ || _); [intros [= <- <-]; left; apply unkeyed_refl|].
  change (take _ buf) with (rx_frame buf). unfold ask. cbv beta iota.
  assert (forall g, (forall e, eapol_calls e (g e)) ->
    unkeyed s (on_eapol g (s <| pm := pm s <| calls := S (calls (pm s)) |> |>))) as Hu
    by (intros g Hg; apply quiet_unkeyed; split; [reflexivity | reflexivity | apply quiet_grow_refl |
          exact id | apply same_cache_wf; split_and!; reflexivity | apply Hg]).
  destruct (negb _); [intros [= <- <-]; left; exact (Hu id eapol_calls_refl)|].
  destruct (_ && _); [intros [= <- <-]; left; exact (Hu id eapol_calls_refl)|].
  destruct (_ <? _); [intros [= <- <-]; left; exact (Hu id eapol_calls_refl)|].
  match goal with |- context [on_eapol ?g ?t] => specialize (Hu g ltac:(eauto with eapol)); set (s2 := on_eapol g t) in * end.
  destruct (rx_acceptable (rx_frame buf) s2) eqn:Hacc; cbn [negb]; [|intros [= <- <-]; left; exact Hu].
  intros H. apply rx_authenticate_authentic in H; [|exact Hrsn | exact Hm0].
  destruct H as [H | [Ha Hc]]; [left; exact (unkeyed_trans _ _ _ Hu H)|]. right.
  injection Hc as -> ->. split; [exact Ha|]. split; [|done]. intros Hset.
  unfold rx_acceptable in Hacc. rewrite !andb_true_iff in Hacc. destruct Hacc as [[[[_ Hr] _] _] _].
  unfold rx_replay_ok in Hr. change (rx_replay_counter_set s2) with (rx_replay_counter_set s) in Hr.
  rewrite Hset in Hr. cbn [andb] in Hr. apply negb_true_iff, Z.leb_gt in Hr. exact Hr.
Qed.
End Rx.

(** Message 3/4 in the session of WpaSession.v. *)
Definition demo_msg_3 : bytes := msg_3_of_4 2 rsn_ptk demo_rsn_ie.

Lemma rx_eapol_authentic_witness :
  match rsn_waiting with
  | Some s =>
      match wpa_sm_rx_eapol demo_bssid demo_msg_3 s with
      | Some (_, s') =>
          ptk_set s = false /\ ptk_set s' = true
          /\ (unkeyed s s'
              \/ (authentic (rx_frame demo_msg_3) s
                  /\ (rx_replay_counter_set s = true ->
                      0 < memcmp (replay_counter (rx_frame demo_msg_3)) (rx_replay_counter s))
                  /\ rx_replay_counter s' = replay_counter (rx_frame demo_msg_3)
                  /\ rx_replay_counter_set s' = true))
      | None => False
      end
  | None => False
  end.
Proof.
  assert (match rsn_waiting with
          | Some s => match wpa_sm_rx_eapol demo_bssid demo_msg_3 s with
                      | Some (_, s') => (is_rsn s, rx_mic_len s, ptk_set s, ptk_set s') = (true, Some 16, false, true)
                      | None => False end
          | None => False end) as H by (vm_compute; reflexivity).
  destruct rsn_waiting as [s|]; [|exact H].
  destruct (wpa_sm_rx_eapol demo_bssid demo_msg_3 s) as [[r s']|] eqn:Hr; [|exact H].
  injection H as H1 H2 H3 H4. split; [exact H3|]. split; [exact H4|].
  refine (@rx_eapol_authentic unit demo_eapol demo_eapol_laws demo_world demo_hmac demo_aes
            demo_bssid demo_msg_3 s r s' H1 _ Hr).
  rewrite H2. intros [=].
Defined.
