(* ===== verification/WpaMsgs.v ===== *)
(** * The messages of the 4-way handshake

    What the supplicant answers, seen from the authenticator: the Key MIC of
    message 2/4 is the one of the PTK that the authenticator derives from the same
    PMK and the nonces of both messages. *)

From stdpp Require Import gmap.
From S2P Require Import Prelude WpaDefs WpaCommon Crypto CryptoDemo Rc4 AesWrap RsnIe KeyData WpaTypes Pmksa WpaDemo WpaSm WpaHandshake WpaOps WpaFrame WpaSteps WpaSession.

(** ** The layout of a message *)

(** Everything in front of the Key MIC. *)
Definition key_hdr (type info body_len : Z) (len replay nonce : bytes) (version ptype : Z) : bytes :=
  [version; ptype] ++ put_be16 body_len ++ [type] ++ put_be16 info ++ len ++ replay ++ nonce
  ++ replicate 16 0 ++ replicate 8 0 ++ replicate 8 0.

Lemma eapol_key_frame version ptype type info len replay nonce n data :
  exists l, eapol_frame version ptype (eapol_key_body type info len replay nonce n data)
  = key_hdr type info l len replay nonce version ptype
    ++ replicate (Z.to_nat n) 0 ++ put_be16 (zlen data) ++ data.
Proof.
  eexists. unfold eapol_frame, eapol_key_body, key_hdr. rewrite <- !app_assoc. reflexivity.
Qed.

Section Layout.
Context (type info l : Z) (len replay nonce : bytes) (version ptype : Z).
Context (Hlen : length len = 2%nat) (Hreplay : length replay = WPA_REPLAY_COUNTER_LEN)
  (Hnonce : length nonce = WPA_NONCE_LEN).

Abbreviation hdr := (key_hdr type info l len replay nonce version ptype).

Lemma key_hdr_length : length hdr = 81%nat.
Proof.
  unfold key_hdr. rewrite !length_app, Hlen, Hreplay, Hnonce, !length_replicate. reflexivity.
Qed.

Lemma slice_app a b k n : length a = k -> slice k n (a ++ b) = take n b.
Proof. intros <-. unfold slice. now rewrite drop_app_length. Qed.

Lemma key_hdr_replay x : replay_counter (hdr ++ x) = replay.
Proof.
  unfold replay_counter, key_hdr.
  replace (_ ++ x) with (([version; ptype] ++ put_be16 l ++ [type] ++ put_be16 info ++ len)
    ++ replay ++ (nonce ++ replicate 16 0 ++ replicate 8 0 ++ replicate 8 0 ++ x))
    by now rewrite <- !app_assoc.
  rewrite slice_app by now rewrite !length_app, Hlen. now rewrite <- Hreplay, take_app_length.
Qed.

Lemma key_hdr_nonce x : key_nonce (hdr ++ x) = nonce.
Proof.
  unfold key_nonce, key_hdr.
  replace (_ ++ x) with (([version; ptype] ++ put_be16 l ++ [type] ++ put_be16 info ++ len ++ replay)
    ++ nonce ++ (replicate 16 0 ++ replicate 8 0 ++ replicate 8 0 ++ x))
    by now rewrite <- !app_assoc.
  rewrite slice_app by now rewrite !length_app, Hlen, Hreplay. now rewrite <- Hnonce, take_app_length.
Qed.
End Layout.

Lemma put_at_app k h z t m :
  length h = k -> (length m <= length z)%nat -> put_at k m (h ++ z ++ t) = h ++ overwrite z m ++ t.
Proof.
  intros <- Hm. unfold put_at, overwrite. rewrite take_app_length, drop_app_length.
  f_equal. rewrite <- app_assoc. f_equal. now rewrite drop_app_le.
Qed.

(** ** Signing and verifying *)

Section Mic.
Context `{HM : Hmac} `{HL : !HmacLaws}.

(** A message signed with the key of [p] is accepted with it. *)
Lemma mic_valid_signed p akmp ver n h t mic :
  length h = 81%nat -> zlen mic <= n ->
  wpa_eapol_key_mic (key_of (kck p) (kck_len p)) akmp ver (h ++ replicate (Z.to_nat n) 0 ++ t) = Some mic ->
  mic_valid p akmp ver n (put_at 81 mic (h ++ replicate (Z.to_nat n) 0 ++ t)) = true.
Proof.
  intros Hh Hn Hmic. unfold zlen in Hn. set (z := replicate (Z.to_nat n) 0) in *.
  assert (length z = Z.to_nat n) as Hz by apply length_replicate.
  assert (length (overwrite z mic) = length z) as Hov by (apply length_overwrite; lia).
  rewrite put_at_app by (exact Hh || lia). unfold mic_valid. fold z.
  rewrite put_at_app by (exact Hh || lia).
  assert (overwrite (overwrite z mic) z = z) as ->.
  { unfold overwrite at 1. rewrite drop_ge by lia. apply app_nil_r. }
  rewrite Hmic. apply bool_decide_eq_true. unfold key_mic. rewrite slice_app by exact Hh.
  rewrite take_app_le by lia. reflexivity.
Qed.

(** The Key MIC fits its field. *)
Lemma key_mic_fits key akmp ver buf mic n :
  16 <= wpa_mic_len akmp n -> wpa_eapol_key_mic key akmp ver buf = Some mic -> zlen mic <= wpa_mic_len akmp n.
Proof.
  intros Hn. unfold wpa_eapol_key_mic.
  assert (forall l h k b m, digest_law l h -> h k b = Some m -> length m = l) as Hlaw
    by (intros l h k b m Hd Hm; exact (proj1 (Hd k b m Hm))).
  assert (length mic = 16%nat -> zlen mic <= wpa_mic_len akmp n) as H16 by (unfold zlen; lia).
  destruct (_ =? 0); [discriminate|].
  destruct (ver =? WPA_KEY_INFO_TYPE_HMAC_MD5_RC4).
  { intros H. apply H16. exact (Hlaw _ _ _ _ _ hmac_md5_law H). }
  destruct (ver =? WPA_KEY_INFO_TYPE_HMAC_SHA1_AES).
  { destruct (hmac_sha1 key buf) as [h|] eqn:H; [|discriminate]. intros [= <-]. apply H16.
    now rewrite length_take, (Hlaw _ _ _ _ _ hmac_sha1_law H). }
  destruct (ver =? WPA_KEY_INFO_TYPE_AES_128_CMAC).
  { intros H. apply H16. exact (Hlaw _ _ _ _ _ omac1_aes_128_law H). }
  destruct (ver =? WPA_KEY_INFO_TYPE_AKM_DEFINED); [|discriminate].
  destruct (_ || _).
  { intros H. apply H16. exact (Hlaw _ _ _ _ _ omac1_aes_128_law H). }
  destruct (akmp =? WPA_KEY_MGMT_IEEE8021X_SUITE_B).
  { destruct (hmac_sha256 key buf) as [h|] eqn:H; [|discriminate]. intros [= <-]. apply H16.
    now rewrite length_take, (Hlaw _ _ _ _ _ hmac_sha256_law H). }
  destruct (Z.eqb_spec akmp WPA_KEY_MGMT_IEEE8021X_SUITE_B_192) as [-> |]; [|discriminate].
  destruct (hmac_sha384 key buf) as [h|] eqn:H; [|discriminate]. intros [= <-].
  unfold zlen. rewrite length_take, (Hlaw _ _ _ _ _ hmac_sha384_law H). vm_compute. discriminate.
Qed.

(** The KCK depends on what the two ends share only. *)
Lemma derived_kck pmk label a1 a2 n1 n2 p q akmp cipher z kl p' q' :
  0 <= wpa_kck_len akmp (zlen pmk) -> 0 <= kl ->
  length a1 = length a2 -> length n1 = length n2 ->
  wpa_pmk_to_ptk pmk label a1 a2 n1 n2 p akmp cipher z kl = (true, p') ->
  wpa_pmk_to_ptk pmk label a2 a1 n2 n1 q akmp cipher z kl = (true, q') ->
  key_of (kck q') (kck_len q') = key_of (kck p') (kck_len p').
Proof.
  intros Hk Hkl Ha Hn. unfold wpa_pmk_to_ptk, ptk_context.
  rewrite (in_order_comm a2 a1), (in_order_comm n2 n1) by done.
  destruct (zlen pmk =? 0); [discriminate|]. destruct (66 <? zlen z); [discriminate|].
  destruct (Z.of_nat WPA_KDK_MAX_LEN <? kl); [discriminate|]. cbn [tk_len over kck_len kek_len kdk_len].
  destruct (wpa_cipher_key_len cipher =? 0); [discriminate|].
  destruct (ptk_prf _ _ _ _ _) as [tmp|] eqn:E; [|discriminate].
  apply ptk_prf_spec in E as [E _].
  assert (length (slice 0 (Z.to_nat (wpa_kck_len akmp (zlen pmk))) tmp)
          = Z.to_nat (wpa_kck_len akmp (zlen pmk))) as Hs by (apply length_slice; lia).
  intros H1 H2. assert (forall r : wpa_ptk, key_of (overwrite (kck r)
    (slice 0 (Z.to_nat (wpa_kck_len akmp (zlen pmk))) tmp)) (wpa_kck_len akmp (zlen pmk))
    = slice 0 (Z.to_nat (wpa_kck_len akmp (zlen pmk))) tmp) as Hko
    by (intros r; unfold key_of; apply take_overwrite'; now rewrite Hs).
  injection H1 as <-. injection H2 as <-.
  destruct (kl =? 0); cbn [kck kck_len over]; now rewrite !Hko.
Qed.
End Mic.

Section Answers.
Context {E : Type} `{EO : EapolOps E} `{EL : !EapolLaws E} `{ENV : WpaEnv} `{HM : Hmac} `{HL : !HmacLaws}.
Context `{AES : AesCipher}.

(** A sent message ends the event log and carries the MIC. *)
Lemma key_send_spec p ver dest msg (s : wpa_sm E) r s' :
  wpa_eapol_key_send p ver dest msg true s = (r, s') -> 0 <= r ->
  exists mic d, wpa_eapol_key_mic (key_of (kck p) (kck_len p)) (key_mgmt s) ver msg = Some mic
    /\ events (pm s') = events (pm s) ++ [EvEtherSend d (put_at 81 mic msg)]
    /\ snonce s' = snonce s /\ tptk s' = tptk s.
Proof.
  unfold wpa_eapol_key_send.
  destruct (if is_zero_ether_addr dest && _ then _ else _) as [d s1] eqn:H1.
  assert (key_mgmt s1 = key_mgmt s /\ events (pm s1) = events (pm s) /\ snonce s1 = snonce s /\ tptk s1 = tptk s)
    as (E1 & E2 & E3 & E4).
  { unfold ask in H1. repeat case_match; injection H1 as <- <-; auto. }
  clear H1. destruct (_ =? 0); [intros [= <- <-]; lia|]. destruct (kck_len p =? 0); [intros [= <- <-]; lia|].
  rewrite E1. destruct (wpa_eapol_key_mic _ _ _ _) as [mic|]; [|intros [= <- <-]; lia].
  unfold wpa_sm_ether_send, ask. intros [= <- <-] _. exists mic, d. split; [done|].
  rewrite <- E2, <- E3, <- E4. split; [reflexivity|]. split; reflexivity.
Qed.

(** The supplicant's reply to [f]: replay counter, nonce and Key Data, and a Key
    MIC that is accepted with the key it was made with. *)
Record answer (f nonce data : bytes) (p : wpa_ptk) (akmp ver n : Z) (m : bytes) : Prop := {
  an_replay : replay_counter m = replay_counter f;
  an_nonce : key_nonce m = nonce;
  an_data : drop (83 + Z.to_nat n) m = data;
  an_mic : mic_valid p akmp ver n m = true
}.

Lemma send_key_msg_answer p ver info dest len (s : wpa_sm E) f nonce data r s' :
  length len = 2%nat -> length (replay_counter f) = WPA_REPLAY_COUNTER_LEN ->
  length nonce = WPA_NONCE_LEN -> 16 <= sm_mic_len s ->
  send_key_msg p ver info dest len (replay_counter f) nonce data true s = (r, s') -> 0 <= r ->
  exists m d, events (pm s') = events (pm s) ++ [EvEtherSend d m]
    /\ answer f nonce data p (key_mgmt s) ver (sm_mic_len s) m
    /\ snonce s' = snonce s /\ tptk s' = tptk s.
Proof.
  intros Hlen Hrep Hnon Hmic. unfold send_key_msg, alloc_eapol, ask.
  destruct (env_malloc _); [|intros [= <- <-]; lia].
  destruct (eapol_key_frame env_eapol_version IEEE802_1X_TYPE_EAPOL_KEY (key_desc_type s) info len
              (replay_counter f) nonce (sm_mic_len s) data) as [l ->].
  set (h := key_hdr _ _ _ _ _ _ _ _). intros H Hr.
  destruct (key_send_spec _ _ _ _ _ _ _ H Hr) as (mic & d & Hm & He & E1 & E2).
  change (key_mgmt (s <| pm := _ |>)) with (key_mgmt s) in Hm.
  assert (length h = 81%nat) as Hh by now apply key_hdr_length.
  assert (zlen mic <= sm_mic_len s) as Hfit by exact (key_mic_fits _ _ _ _ _ _ Hmic Hm).
  assert (length (overwrite (replicate (Z.to_nat (sm_mic_len s)) 0) mic) = Z.to_nat (sm_mic_len s)) as Hov.
  { unfold zlen in Hfit. rewrite length_overwrite; rewrite length_replicate; lia. }
  eexists _, d. split; [exact He|]. split; [|split; [exact E1 | exact E2]]. split.
  - rewrite put_at_app by (exact Hh || (unfold zlen in Hfit; rewrite length_replicate; lia)).
    now apply key_hdr_replay.
  - rewrite put_at_app by (exact Hh || (unfold zlen in Hfit; rewrite length_replicate; lia)).
    now apply key_hdr_nonce.
  - rewrite put_at_app by (exact Hh || (unfold zlen in Hfit; rewrite length_replicate; lia)).
    rewrite !app_assoc. apply drop_app_length'.
    rewrite !length_app, Hh, Hov. change (length (put_be16 (zlen data))) with 2%nat. lia.
  - now apply mic_valid_signed.
Qed.

(** The PTK an authenticator derives for the answer [m] to its message [f]; [ap] is
    its struct wpa_ptk before the derivation. *)
Definition authenticator_ptk (f m : bytes) (ap : wpa_ptk) (s : wpa_sm E) : bool * wpa_ptk :=
  wpa_pmk_to_ptk (sm_pmk s) pairwise_label (bssid (pm s)) (own_addr (pm s)) (key_nonce f)
    (key_nonce m) ap (key_mgmt s) (pairwise_cipher s) [] (derive_kdk_len s).

(** What the derivation and the answer read, besides the nonces. *)
Definition params (s : wpa_sm E) :=
  (sm_pmk s, own_addr (pm s), bssid (pm s), key_mgmt s, pairwise_cipher s, derive_kdk_len s,
   sm_mic_len s, read_assoc_ie s, assoc_rsnxe s).

Lemma renew_params (s : wpa_sm E) r s' : renew s = (r, s') -> params s' = params s.
Proof.
  unfold renew, ask. destruct (renew_snonce s); [destruct (env_random _)|]; now intros [= <- <-].
Qed.

Lemma mic_valid_kck p q akmp ver n m :
  key_of (kck q) (kck_len q) = key_of (kck p) (kck_len p) ->
  mic_valid q akmp ver n m = mic_valid p akmp ver n m.
Proof. intros H. unfold mic_valid. now rewrite H. Qed.

(** The steps of the answer that succeeds. *)
Lemma answer_1_of_4_inv f ver (s : wpa_sm E) s' :
  answer_1_of_4 f ver s = Some (true, s') ->
  exists s1 p s5 ie ret s6, renew s = (true, s1) /\ wpa_derive_ptk f (tptk s1) s1 = (true, p)
    /\ params s5 = params s1 /\ snonce s5 = snonce s1
    /\ key_of (kck (tptk s5)) (kck_len (tptk s5)) = key_of (kck p) (kck_len p)
    /\ read_assoc_ie s5 = Some ie
    /\ wpa_supplicant_send_2_of_4 (bssid (pm s5)) f ver (snonce s5)
         (ie ++ default [] (assoc_rsnxe s5)) (tptk s5) s5 = (ret, s6)
    /\ 0 <= ret /\ s' = s6 <| anonce := key_nonce f |>.
Proof.
  unfold answer_1_of_4. cbv zeta. change (if renew_snonce s then _ else _) with (renew s).
  destruct (renew s) as [[] s1]; cbn [negb]; [|discriminate].
  destruct (wpa_derive_ptk f (tptk s1) s1) as [[] p] eqn:Hd; cbn [negb]; [|discriminate].
  set (s4 := (if _ =? _ then _ else _) <| tptk_set := true |>).
  assert (params s4 = params s1 /\ snonce s4 = snonce s1
          /\ key_of (kck (tptk s4)) (kck_len (tptk s4)) = key_of (kck p) (kck_len p)) as (E1 & E2 & E3)
    by (unfold s4; destruct (_ =? _); done).
  clearbody s4. unfold ask. set (s5 := s4 <| pm := _ |>).
  assert (params s5 = params s4 /\ snonce s5 = snonce s4 /\ tptk s5 = tptk s4) as (F1 & F2 & F3) by done.
  destruct (env_malloc _); cbn [negb]; [|discriminate].
  change (snonce s4) with (snonce s5) in *.
  destruct (read_assoc_ie s5) as [ie|] eqn:Hie; [|discriminate].
  destruct (wpa_supplicant_send_2_of_4 _ _ _ _ _ _ s5) as [ret s6] eqn:H6.
  destruct (Z.ltb_spec ret 0); [discriminate|]. intros [= <-].
  exists s1, p, s5, ie, ret, s6. split; [done|]. split; [exact Hd|]. split; [congruence|].
  split; [congruence|]. split; [rewrite F3; exact E3|]. split; [exact Hie|]. split; [exact H6|]. done.
Qed.

(** C6. When the supplicant answers message 1/4, the last thing it does is to send
    a message 2/4 that echoes the Replay Counter of message 1/4, carries the SNonce
    of the temporary PTK and the RSN/WPA element and RSNXE of the association (the
    whole element where its length is right, [ie_ok], as in every state the
    operations reach), and has a Key MIC that an authenticator with the same PMK accepts: it is valid for
    the PTK derived from the nonces of the two messages at the other end. *)
Theorem msg_2_of_4_accepted f ver (s : wpa_sm E) s' :
  (49 <= length f)%nat -> length (own_addr (pm s)) = length (bssid (pm s)) ->
  0 <= pmk_len (pm s) <= 64 -> 16 <= sm_mic_len s -> length (snonce s') = WPA_NONCE_LEN ->
  answer_1_of_4 f ver s = Some (true, s') ->
  exists ie l m d, read_assoc_ie s = Some ie /\ (ie_ok s -> ie = default [] (assoc_wpa_ie s))
    /\ events (pm s') = l ++ [EvEtherSend d m]
    /\ answer f (snonce s') (ie ++ default [] (assoc_rsnxe s))
         (tptk s') (key_mgmt s) ver (sm_mic_len s) m
    /\ forall ap p, authenticator_ptk f m ap s = (true, p) ->
         mic_valid p (key_mgmt s) ver (sm_mic_len s) m = true.
Proof.
  intros Hf Haddr Hpmk Hmic Hsn H.
  destruct (answer_1_of_4_inv _ _ _ _ H) as (s1 & p & s5 & ie & ret & s6 & H1 & Hd & E1 & E2 & Ek & Hie & H6 & Hr & ->).
  pose proof (eq_trans E1 (renew_params _ _ _ H1)) as E0. clear H.
  assert (length (replay_counter f) = WPA_REPLAY_COUNTER_LEN) as Hrep
    by (apply length_slice; unfold WPA_REPLAY_COUNTER_LEN; lia).
  assert (length (key_nonce f) = WPA_NONCE_LEN) as Hn
    by (apply length_slice; unfold WPA_NONCE_LEN; lia).
  assert (length (reply_key_length s5 f) = 2%nat) as Hl.
  { unfold reply_key_length. destruct (is_rsn s5); [done|]. apply length_slice. lia. }
  pose proof (quiet_trans _ _ _ (quiet_refl s5) (send_2_of_4_quiet _ _ _ _ _ _ _ _ _ H6)) as Hq.
  injection (q_keys _ _ Hq) as _ Ht _ _ _ Hs6 _ _ _ _ _ _ _ _ _. clear Hq.
  change (snonce (s6 <| anonce := _ |>)) with (snonce s6) in *.
  change (tptk (s6 <| anonce := _ |>)) with (tptk s6).
  change (events (pm (s6 <| anonce := _ |>))) with (events (pm s6)).
  injection E0 as P1 P2 P3 P4 P5 P6 P7 P8 P9. unfold wpa_supplicant_send_2_of_4 in H6.
  assert (length (snonce s5) = WPA_NONCE_LEN) as Hs5 by (rewrite <- Hs6; exact Hsn).
  assert (16 <= sm_mic_len s5) as Hm5 by (rewrite P7; exact Hmic).
  destruct (send_key_msg_answer _ _ _ _ _ s5 f _ _ _ _ Hl Hrep Hs5 Hm5 H6 Hr)
    as (m & d & He & Han & _ & _).
  rewrite P4, P7, P9 in Han. rewrite Hie in P8. exists ie, (events (pm s5)), m, d.
  split; [exact (eq_sym P8)|]. split; [intros Hok; exact (ie_ok_whole _ _ Hok (eq_sym P8))|]. split; [exact He|].
  split; [rewrite Hs6, Ht; exact Han|]. intros ap q Hap. rewrite <- (an_mic _ _ _ _ _ _ _ _ Han).
  apply mic_valid_kck. rewrite Ek. injection (renew_params _ _ _ H1) as R1 R2 R3 R4 R5 R6 _ _ _.
  unfold wpa_derive_ptk in Hd. rewrite R1, R2, R3, R4, R5, R6 in Hd.
  unfold authenticator_ptk in Hap. rewrite (an_nonce _ _ _ _ _ _ _ _ Han), E2 in Hap.
  eapply derived_kck; [| | | | exact Hd | exact Hap].
  - apply wpa_kck_len_range. unfold sm_pmk, key_of, zlen. rewrite length_take. lia.
  - unfold derive_kdk_len. destruct (_ || _); unfold WPA_KDK_MAX_LEN; lia.
  - exact Haddr.
  - congruence.
Qed.
End Answers.

(** At the first answer of [rsn_assoc], 2 being the version of the key descriptor. *)
Lemma msg_2_of_4_accepted_witness :
  match demo_run rsn_assoc with
  | Some s =>
      match answer_1_of_4 (msg_1_of_4 1) 2 s with
      | Some (true, s') =>
          exists ie l m d, read_assoc_ie s = Some ie /\ (ie_ok s -> ie = default [] (assoc_wpa_ie s))
            /\ events (pm s') = l ++ [EvEtherSend d m]
            /\ answer (msg_1_of_4 1) (snonce s') (ie ++ default [] (assoc_rsnxe s))
                 (tptk s') (key_mgmt s) 2 (sm_mic_len s) m
            /\ forall ap p, authenticator_ptk (msg_1_of_4 1) m ap s = (true, p) ->
                 mic_valid p (key_mgmt s) 2 (sm_mic_len s) m = true
      | _ => False
      end
  | None => False
  end.
Proof.
  assert (match demo_run rsn_assoc with
          | Some s => match answer_1_of_4 (msg_1_of_4 1) 2 s with
                      | None => False
                      | Some (b, s') => (b, length (own_addr (pm s)), length (bssid (pm s)), pmk_len (pm s),
                                    sm_mic_len s, length (snonce s')) = (true, 6%nat, 6%nat, 32, 16, 32%nat) end
          | None => False end) as H by (vm_compute; reflexivity).
  destruct (demo_run rsn_assoc) as [s|]; [|exact H].
  destruct (answer_1_of_4 (msg_1_of_4 1) 2 s) as [[[] s']|] eqn:Hr; [|discriminate|exact H].
  injection H as H1 H2 H3 H4 H5.
  refine (@msg_2_of_4_accepted unit demo_eapol demo_world demo_hmac demo_hmac_laws
            _ _ s s' _ _ _ _ _ Hr).
  - vm_compute. lia.
  - now rewrite H1, H2.
  - rewrite H3. lia.
  - rewrite H4. lia.
  - exact H5.
Defined.
