(* ===== verification/WpaBeacon.v ===== *)
(** * Message 3/4 confirms the elements of the Beacon

    The elements an access point advertises in Beacon and Probe Response frames
    are not authenticated.  Message 3/4 repeats them, and the supplicant goes on
    only if they are the ones it selected the network by. *)

From stdpp Require Import gmap.
From S2P Require Import Prelude WpaDefs WpaCommon Crypto CryptoDemo Rc4 AesWrap RsnIe KeyData WpaTypes Pmksa WpaDemo WpaSm WpaHandshake WpaOps WpaFrame WpaSession.

Section Beacon.
Context {E : Type} `{EO : EapolOps E} `{ENV : WpaEnv} `{HM : Hmac} `{AES : AesCipher}.

(** The elements of the message agree with those of the AP, as far as both are there. *)
Record confirmed (wpa rsn rsnxe : option bytes) (s : wpa_sm E) : Prop := {
  cf_present : is_Some wpa \/ is_Some rsn;
  cf_wpa : forall a b, wpa = Some a -> ap_wpa_ie s = Some b -> a = b;
  cf_rsn : forall a b, rsn = Some a -> ap_rsn_ie s = Some b -> a = b;
  cf_no_downgrade : proto s = WPA_PROTO_WPA -> rsn_enabled s = true -> is_Some rsn -> is_Some (ap_rsn_ie s);
  cf_rsnxe : proto s = WPA_PROTO_RSN -> rsnxe = ap_rsnxe s
}.

(** The supplicant knows an element of the AP. *)
Definition advertised (s : wpa_sm E) : Prop := is_Some (ap_wpa_ie s) \/ is_Some (ap_rsn_ie s).

Lemma ie_differs_false a b x y : ie_differs a b = false -> a = Some x -> b = Some y -> x = y.
Proof. intros Hd -> ->. cbn in Hd. now apply negb_false_iff, bool_decide_eq_true in Hd. Qed.

Lemma compare_rsn_ie_zero a b : wpa_compare_rsn_ie (Some a) (Some b) = 0 -> a = b.
Proof. cbn. case_bool_decide; [done | discriminate]. Qed.

Lemma validate_ie_confirmed wpa rsn rsnxe (s s' : wpa_sm E) r :
  advertised s -> wpa_supplicant_validate_ie wpa rsn rsnxe s = (r, s') ->
  r < 0 \/ confirmed wpa rsn rsnxe s.
Proof.
  intros Had. unfold wpa_supplicant_validate_ie.
  assert (bool_decide (ap_wpa_ie s = None) && bool_decide (ap_rsn_ie s = None) = false) as ->
    by (destruct Had as [[x Hx] | [x Hx]]; rewrite Hx; [done | apply andb_false_r]).
  change (0 <? 0) with false. cbv iota.
  assert (bool_decide (is_Some (ap_wpa_ie s)) || bool_decide (is_Some (ap_rsn_ie s)) = true) as ->
    by (rewrite orb_true_iff, !bool_decide_eq_true; exact Had).
  rewrite andb_true_r.
  destruct (bool_decide (wpa = None) && bool_decide (rsn = None)) eqn:E1; [intros [= <- _]; left; lia|].
  match goal with |- (if ?b then _ else _) = _ -> _ => destruct b eqn:E2 end; [intros [= <- _]; left; lia|].
  match goal with |- (if ?b then _ else _) = _ -> _ => destruct b eqn:E3 end; [intros [= <- _]; left; lia|].
  match goal with |- (if ?b then _ else _) = _ -> _ => destruct b eqn:E4 end; [intros [= <- _]; left; lia|].
  intros [= _ _]. right. apply orb_false_iff in E2 as [E2 E5]. split.
  - destruct wpa; [left; eauto|]. destruct rsn; [right; eauto | discriminate].
  - intros a b. now apply ie_differs_false.
  - intros a b -> Hb. rewrite Hb in E5. rewrite !bool_decide_eq_true_2 in E5 by eauto. cbn [andb] in E5.
    apply negb_false_iff, Z.eqb_eq in E5. symmetry. now apply compare_rsn_ie_zero.
  - intros Hp He [x ->]. rewrite Hp, He, (bool_decide_eq_true_2 (is_Some (Some x))), andb_true_r in E3 by eauto.
    destruct (ap_rsn_ie s); [eauto | discriminate].
  - intros Hp. rewrite Hp in E4. cbn [andb] in E4. change (WPA_PROTO_RSN =? WPA_PROTO_RSN) with true in E4.
    apply negb_false_iff, bool_decide_eq_true in E4. congruence.
Qed.

Lemma check_3_of_4_confirmed f kd ie (s s' : wpa_sm E) r :
  advertised s -> check_3_of_4 f kd ie s = (r, s') ->
  (r = false /\ quiet s s')
  \/ confirmed (ref_bytes kd (p_wpa_ie ie)) (ref_bytes kd (p_rsn_ie ie)) (ref_bytes kd (p_rsnxe ie)) s.
Proof.
  intros Had. unfold check_3_of_4. cbv zeta.
  do 3 (destruct (_ && _); [intros [= <- <-]; left; split; [reflexivity | apply quiet_refl]|]).
  destruct (wpa_supplicant_validate_ie _ _ _ s) as [ret s1] eqn:H1.
  pose proof (validate_ie_quiet _ _ _ _ _ _ H1) as Hq.
  destruct (validate_ie_confirmed _ _ _ _ _ _ Had H1) as [Hr | Hc]; [|now right].
  apply Z.ltb_lt in Hr as ->. intros [= <- <-]. now left.
Qed.

(** The supplicant gave up: nothing changed but the log, which ends with the request
    to leave the network. *)
Definition gave_up (s s' : wpa_sm E) : Prop :=
  quiet s s' /\ exists l, events (pm s') = l ++ [EvDeauth WLAN_REASON_UNSPECIFIED].

Lemma gave_up_deauth (s s' : wpa_sm E) : quiet s s' -> gave_up s (wpa_sm_deauthenticate WLAN_REASON_UNSPECIFIED s').
Proof. intros H. split; [exact (quiet_trans _ _ _ H (deauth_quiet _ _)) | now exists (events (pm s'))]. Qed.

(** C4. Message 3/4 confirms the Beacon.  Let the supplicant know a WPA or RSN element
    of the AP.  Then either the message carries a WPA or an RSN element; its WPA element
    equals the one of the AP, if both are there, and so does its RSN element; it has no
    RSN element that the AP did not advertise, with the protocol WPA and RSN enabled; and
    with the protocol RSN its RSNXE is that of the AP or missing like it.  Or the
    supplicant gives up: it leaves the network with no key, nonce or replay counter
    changed and no key handed to the driver.  An element that only one side has is not
    compared in the other cases. *)
Theorem msg_3_of_4_confirms_beacon f ver kd res ie (s s' : wpa_sm E) :
  advertised s -> wpa_supplicant_parse_ies kd = (res, ie) ->
  wpa_supplicant_process_3_of_4 f ver kd s = Some s' ->
  confirmed (ref_bytes kd (p_wpa_ie ie)) (ref_bytes kd (p_rsn_ie ie)) (ref_bytes kd (p_rsnxe ie)) s
  \/ gave_up s s'.
Proof.
  intros Had Hp. unfold wpa_supplicant_process_3_of_4. cbv zeta. rewrite Hp.
  pose proof (set_state_quiet WPA_4WAY_HANDSHAKE s) as Hq.
  assert (forall a b c, confirmed a b c (wpa_sm_set_state WPA_4WAY_HANDSHAKE s) -> confirmed a b c s) as Hc
    by (intros a b c []; now split).
  change (advertised (wpa_sm_set_state WPA_4WAY_HANDSHAKE s)) in Had.
  set (s1 := wpa_sm_set_state _ s) in *. clearbody s1.
  destruct (res <? 0); [intros [= <-]; right; now apply gave_up_deauth|].
  destruct (check_3_of_4 f kd ie s1) as [ok s2] eqn:H2.
  destruct (check_3_of_4_confirmed _ _ _ _ _ _ Had H2) as [[-> Hq2] | Hcf]; [|left; now apply Hc].
  cbn [negb]. intros [= <-]. right. apply gave_up_deauth. exact (quiet_trans _ _ _ Hq Hq2).
Qed.
End Beacon.

(** The AP of the session, in a message whose RSN element has a weaker group
    cipher than the one of the Beacon. *)
Definition other_rsn_ie : bytes :=
  default [] (wpa_gen_wpa_ie_rsn 100 WPA_CIPHER_CCMP WPA_CIPHER_TKIP WPA_KEY_MGMT_PSK
                WPA_CIPHER_AES_128_CMAC 0 None).

Lemma msg_3_of_4_confirms_beacon_witness :
  match rsn_waiting with
  | Some s =>
      match wpa_supplicant_process_3_of_4 (msg_3_of_4 2 rsn_ptk other_rsn_ie) 2
              (other_rsn_ie ++ gtk_kde 1 demo_gtk) s with
      | Some s' => ap_rsn_ie s = Some demo_rsn_ie /\ gave_up s s'
      | None => False
      end
  | None => False
  end.
Proof.
  assert (match rsn_waiting with
          | Some s => match wpa_supplicant_process_3_of_4 (msg_3_of_4 2 rsn_ptk other_rsn_ie) 2
                              (other_rsn_ie ++ gtk_kde 1 demo_gtk) s with
                      | Some _ => ap_rsn_ie s = Some demo_rsn_ie | None => False end
          | None => False end) as H by (vm_compute; reflexivity).
  destruct rsn_waiting as [s|]; [|exact H].
  destruct (wpa_supplicant_process_3_of_4 _ _ _ s) as [s'|] eqn:Hr; [|exact H].
  split; [exact H|].
  destruct (wpa_supplicant_parse_ies (other_rsn_ie ++ gtk_kde 1 demo_gtk)) as [res ie] eqn:Hp.
  assert (ref_bytes (other_rsn_ie ++ gtk_kde 1 demo_gtk) (p_rsn_ie ie) = Some other_rsn_ie) as Hi
    by (vm_compute in Hp; injection Hp as <- <-; vm_compute; reflexivity).
  destruct (@msg_3_of_4_confirms_beacon unit demo_eapol demo_world demo_hmac
              _ _ _ res ie s s' (or_intror (ex_intro _ _ H)) Hp Hr) as [Hc | Hg]; [|exact Hg].
  pose proof (cf_rsn _ _ _ _ Hc _ _ Hi H) as Heq. vm_compute in Heq. discriminate.
Defined.
