(* ===== verification/EapolClosed.v ===== *)
(** * The controlled port without 802.1X keys

    In WPA and RSN the EAPOL machine does not accept 802.1X EAPOL-Key frames and
    portValid is set from outside, when the key handshake is complete.  Until then
    the port stays closed, whatever is received and whatever the EAP peer does. *)

From stdpp Require Import strings.
From S2P Require Import Prelude Wpabuf EapCommon EapPeer EapPeerFrame EapPeerDemo EapolSupp EapolDemo EapolProps.

(** The port is blocked and nothing has allowed it to open. *)
Record closed (sm : eapol_sm) : Prop := {
  cl_no_keys : accept_802_1x_keys (conf sm) = false;
  cl_not_valid : portValid sm = false;
  cl_not_forced : portControl sm <> ForceAuthorized;
  cl_port : suppPortStatus sm = Unauthorized
}.

(** What [closed] looks at. *)
Definition port_view (sm : eapol_sm) := (accept_802_1x_keys (conf sm), portValid sm, portControl sm, suppPortStatus sm).

Lemma closed_view sm sm' : port_view sm' = port_view sm -> closed sm -> closed sm'.
Proof. intros [= E1 E2 E3 E4] []. split; congruence. Qed.

Section Closed.
Context {priv : Type} `{EM : EapMethods priv} `{EE : EapolEnv} `{OA : OsAlloc} `{SH : Sha1}.
Abbreviation world := (world priv eapol_sm).

Lemma tick_view sm : port_view (eapol_enable_timer_tick sm) = port_view sm.
Proof. unfold eapol_enable_timer_tick, register_tick. by repeat case_match. Qed.

Lemma closed_tick sm : closed sm -> closed (eapol_enable_timer_tick sm).
Proof. apply closed_view, tick_view. Qed.

Lemma closed_on f (w : world) :
  (forall sm, port_view (f sm) = port_view sm) -> closed (eapol w) -> closed (eapol (on_eapol f w)).
Proof. intros Hf. apply (closed_view (eapol w)), Hf. Qed.

Ltac view := intros ?; cbv beta; unfold emit_if, be_entry, key_rx_entry, register_step; repeat case_match; reflexivity.
Ltac closed_peel := repeat (apply closed_on; [solve [view]|]).

#[export] Instance closed_lower : LowerStable closed.
Proof.
  constructor.
  - intros v b s _. apply closed_view. by destruct v.
  - intros [] n s Hc. cbn. case_match; [apply closed_tick|]; by apply (closed_view s).
  - intros f s. by apply closed_view.
  - intros a b s. apply closed_view. cbn. unfold eapol_sm_notify_status, emit_if. by case_match.
  - intros e s. apply closed_view. cbn. unfold eapol_sm_notify_eap_error, emit_if. by case_match.
  - intros f s. apply closed_view. cbn. unfold eapol_sm_eap_param_needed, emit_if. by case_match.
Qed.

(** ** Supplicant PAE *)

Lemma closed_unauth sm : closed sm -> closed (eapol_sm_set_port_unauthorized sm).
Proof. intros []. unfold eapol_sm_set_port_unauthorized. case_match; by split. Qed.

Lemma closed_entry g st sm : closed sm -> closed (pae_entry g st sm).
Proof. apply closed_view. unfold pae_entry. by case_match. Qed.

Lemma closed_start b sm : closed sm -> closed (if b : bool then eapol_sm_txStart sm else sm).
Proof. apply closed_view. by destruct b. Qed.

Lemma closed_logoff g sm : closed sm -> closed (SUPP_PAE_LOGOFF_Enter g sm).
Proof.
  intros H. apply closed_unauth. apply (closed_entry g SUPP_PAE_LOGOFF) in H.
  refine (closed_view _ _ _ H); reflexivity.
Qed.

(** What the state entries do around closing the port, as two changes of other fields. *)
Lemma closed_around f h sm :
  (forall sm, port_view (f sm) = port_view sm) -> (forall sm, port_view (h sm) = port_view sm) ->
  closed sm -> closed (h (eapol_sm_set_port_unauthorized (f sm))).
Proof.
  intros Hf Hh H. eapply closed_view; [apply Hh|]. apply closed_unauth.
  eapply closed_view; [apply Hf | exact H].
Qed.

Lemma closed_disconnected g sm : closed sm -> closed (SUPP_PAE_DISCONNECTED_Enter g sm).
Proof.
  intros H. apply (closed_entry g SUPP_PAE_DISCONNECTED) in H. revert H. unfold SUPP_PAE_DISCONNECTED_Enter.
  generalize (pae_entry g SUPP_PAE_DISCONNECTED sm). intros sm1.
  apply (closed_around (fun sm => sm <| sPortMode := Auto |> <| startCount := 0 |> <| eapTriggerStart := false |>
                                     <| logoffSent := false |>)
           (fun sm => sm <| suppAbort := true |> <| unicast_key_received := false |>
                         <| broadcast_key_received := false |> <| heldWhile := 0 |>)); reflexivity.
Qed.
Lemma closed_held g sm : closed sm -> closed (SUPP_PAE_HELD_Enter g sm).
Proof.
  intros H. apply (closed_entry g SUPP_PAE_HELD) in H. revert H. unfold SUPP_PAE_HELD_Enter.
  generalize (pae_entry g SUPP_PAE_HELD sm). intros sm1.
  apply (closed_around (fun sm => eapol_enable_timer_tick (sm <| heldWhile := heldPeriod sm |>))
           (fun sm => sm <| cb_status := EAPOL_CB_FAILURE |>)); [|reflexivity].
  intros sm2. exact (tick_view (sm2 <| heldWhile := heldPeriod sm2 |>)).
Qed.
Lemma closed_force_unauth g sm : closed sm -> closed (SUPP_PAE_S_FORCE_UNAUTH_Enter g sm).
Proof.
  intros H. apply (closed_entry g SUPP_PAE_S_FORCE_UNAUTH) in H. revert H. unfold SUPP_PAE_S_FORCE_UNAUTH_Enter.
  generalize (pae_entry g SUPP_PAE_S_FORCE_UNAUTH sm). intros sm1.
  apply (closed_around (fun sm => sm) (fun sm => eapol_sm_txLogoff (sm <| sPortMode := ForceUnauthorized |>)));
    reflexivity.
Qed.
Lemma closed_authenticating g sm : closed sm -> closed (SUPP_PAE_AUTHENTICATING_Enter g sm).
Proof. intros H. apply (closed_entry g SUPP_PAE_AUTHENTICATING) in H. refine (closed_view _ _ _ H); reflexivity. Qed.
Lemma closed_restart g sm : closed sm -> closed (SUPP_PAE_RESTART_Enter g sm).
Proof.
  intros H. unfold SUPP_PAE_RESTART_Enter. case_match; [done|].
  apply (closed_entry g SUPP_PAE_RESTART) in H. case_match; refine (closed_view _ _ _ H); reflexivity.
Qed.
Lemma closed_connecting g sm : closed sm -> closed (SUPP_PAE_CONNECTING_Enter g sm).
Proof.
  intros H. unfold SUPP_PAE_CONNECTING_Enter. cbv zeta. apply (closed_entry g SUPP_PAE_CONNECTING) in H.
  set (sm0 := pae_entry g SUPP_PAE_CONNECTING sm) in *. clearbody sm0. apply closed_start.
  match goal with |- context [eapol_enable_timer_tick ?x] => set (sm1 := x) end.
  assert (H1 : closed sm1) by (unfold sm1; repeat case_match; refine (closed_view _ _ _ H); reflexivity).
  apply closed_tick in H1. refine (closed_view _ _ _ H1); reflexivity.
Qed.

Create HintDb closed.
#[local] Hint Resolve closed_logoff closed_disconnected closed_held closed_force_unauth
  closed_authenticating closed_restart closed_connecting : closed.

Lemma closed_step_local sm : closed sm -> closed (supp_pae_step_local sm).
Proof.
  intros H. pose proof (cl_no_keys _ H) as Ek. pose proof (cl_not_valid _ H) as Ev.
  unfold supp_pae_step_local. rewrite Ek, !andb_false_r. cbn [andb]. cbv zeta. rewrite Ev, !andb_false_r.
  destruct (SUPP_PAE_state sm); repeat case_match; auto with closed.
Qed.

Lemma closed_pae sm : closed sm -> closed (SUPP_PAE_Step sm).
Proof.
  intros H. unfold SUPP_PAE_Step. cbv zeta. rewrite (bool_decide_eq_false_2 _ (cl_not_forced _ H)). cbn [andb].
  repeat case_match; auto using closed_step_local with closed.
Qed.

(** ** Key Receive and Backend *)

Lemma closed_process_key (w : world) : closed (eapol w) -> eapol_sm_processKey w = w.
Proof.
  intros H. unfold eapol_sm_processKey. rewrite (cl_no_keys _ H). by case_match.
Qed.

Lemma closed_key (w : world) : closed (eapol w) -> closed (eapol (KEY_RX_Step w)).
Proof.
  intros H. unfold KEY_RX_Step, KEY_RX_NO_KEY_RECEIVE_Enter, KEY_RX_KEY_RECEIVE_Enter. cbv zeta.
  set (w1 := if _ : bool then _ else w).
  assert (H1 : closed (eapol w1)) by (unfold w1; case_match; closed_peel; exact H).
  clearbody w1. repeat case_match; try exact H1.
  all: rewrite closed_process_key by (closed_peel; exact H1); closed_peel; exact H1.
Qed.

Lemma closed_be (w : world) : closed (eapol w) -> closed (eapol (SUPP_BE_Step w)).
Proof.
  intros Hp. unfold SUPP_BE_Step, SUPP_BE_REQUEST_Enter, SUPP_BE_FAIL_Enter, SUPP_BE_TIMEOUT_Enter,
    SUPP_BE_IDLE_Enter, SUPP_BE_SUCCESS_Enter, SUPP_BE_INITIALIZE_Enter, eapol_sm_abortSupp,
    SUPP_BE_RESPONSE_Enter, SUPP_BE_RECEIVE_Enter, eapol_sm_txSuppRsp, eap_get_eapRespData,
    eapol_sm_getSuppRsp.
  assert (Ht : closed (eapol (on_eapol (fun sm => eapol_enable_timer_tick (sm <| authWhile := authPeriod sm |>)
     <| eapolEap := false |> <| eapNoResp := false |> <| initial_req := false |>)
     (on_eapol (fun sm => be_entry false SUPP_BE_RECEIVE sm) w)))).
  { apply closed_on; [|closed_peel; exact Hp]. intros sm. exact (tick_view (sm <| authWhile := authPeriod sm |>)). }
  cbv zeta. repeat case_match; try exact Hp; try exact Ht; closed_peel; try exact Hp.
Qed.

#[export] Instance closed_step : StepInv (priv := priv) closed.
Proof.
  constructor.
  - apply _.
  - intros sm b. by apply closed_view.
  - apply closed_pae.
  - apply closed_key.
  - apply closed_be.
  - intros sm. apply closed_view. unfold register_step. by case_match.
  - intros sm r. by apply closed_view.
Qed.
(** ** Entry points *)

#[local] Opaque eapol_sm_step.

Lemma closed_sm_step (w : world) : closed (eapol w) -> closed (eapol (eapol_sm_step w)).
Proof. apply (inv_step closed). Qed.

Lemma closed_eap_fail b (w : world) : closed (eapol w) -> closed (eapol (eapol_sm_notify_eap_fail b w)).
Proof. intros H. unfold eapol_sm_notify_eap_fail. apply closed_sm_step. closed_peel. exact H. Qed.

Lemma closed_cached (w : world) : closed (eapol w) -> closed (eapol (eapol_sm_notify_cached w)).
Proof.
  intros H. unfold eapol_sm_notify_cached. apply closed_sm_step.
  change (closed (eapol (on_eapol (fun sm => sm <| eapSuccess := true |>) w))). closed_peel. exact H.
Qed.

Lemma closed_tx_eapol_key (w : world) : closed (eapol w) -> closed (eapol (eapol_sm_notify_tx_eapol_key w)).
Proof. intros H. unfold eapol_sm_notify_tx_eapol_key. closed_peel. exact H. Qed.

Lemma closed_lower_layer_success b (w : world) :
  closed (eapol w) -> closed (eapol (eapol_sm_notify_lower_layer_success b w)).
Proof.
  intros H. apply (low_lower_layer_success closed) in H. unfold eapol_sm_notify_lower_layer_success. cbv zeta.
  destruct (negb b); [by apply closed_sm_step | exact H].
Qed.

Lemma closed_abort_cached sm : closed sm -> closed (eapol_sm_abort_cached sm).
Proof.
  apply (closed_around (fun sm => sm <| cached_pmk := false |> <| SUPP_PAE_state := SUPP_PAE_CONNECTING |>)
    (fun sm => emit_if (has_aborted_cached (ctx (eapol_enable_timer_tick (sm <| startWhen := 3 |>))))
       EvAbortedCached (eapol_enable_timer_tick (sm <| startWhen := 3 |>)))); [reflexivity|].
  intros sm2. transitivity (port_view (eapol_enable_timer_tick (sm2 <| startWhen := 3 |>)));
    [|exact (tick_view (sm2 <| startWhen := 3 |>))].
  generalize (eapol_enable_timer_tick (sm2 <| startWhen := 3 |>)). intros sm3. unfold emit_if. by case_match.
Qed.

Lemma closed_rx src buf (w : world) : closed (eapol w) -> closed (eapol (eapol_sm_rx_eapol src buf w).2).
Proof.
  intros Hp. unfold eapol_sm_rx_eapol. cbv zeta.
  assert (Hc : forall w : world, closed (eapol w) ->
    closed (eapol (on_eapol (fun sm => if cached_pmk sm then eapol_sm_abort_cached sm else sm) w))).
  { intros w' Hw. cbn. case_match; [by apply closed_abort_cached|exact Hw]. }
  repeat (match goal with |- closed (eapol (if ?b then _ else _).2) => destruct b end; cbn [snd]);
    repeat first
      [ assumption
      | lazymatch goal with
        | |- closed (eapol (eapol_sm_step _)) => apply closed_sm_step
        | |- closed (eapol (on_eapol (fun sm => if cached_pmk sm then _ else _) _)) => apply Hc
        | |- closed (eapol (on_eapol _ _)) => apply closed_on; [solve [view]|]
        end ].
Qed.
End Closed.
