(* ===== verification/WpaCalm.v ===== *)
(** * What an unauthenticated frame does to the EAPOL machines

    Until a frame has proved that its sender knows the PTK, the WPA state machine
    makes four kinds of calls into the EAPOL machines: that a frame arrived, that
    one was sent, that a cached PMK is used, and that a full authentication is
    needed.  A property that survives these ([Calm]) survives the frame. *)

From stdpp Require Import gmap.
From S2P Require Import Prelude WpaDefs WpaCommon Crypto Rc4 AesWrap RsnIe KeyData WpaTypes Pmksa WpaSm WpaHandshake WpaFrame WpaSteps WpaRx.

Class Calm {E} `{EapolOps E} (P : E -> Prop) : Prop := {
  calm_eap_fail b e : P e -> P (eapol_notify_eap_fail b e);
  calm_cached e : P e -> P (eapol_notify_cached e);
  calm_tx_eapol_key e : P e -> P (eapol_notify_tx_eapol_key e);
  calm_lower_layer_success e : P e -> P (eapol_notify_lower_layer_success false e)
}.

Section Calm.
Context {E : Type} `{EO : EapolOps E} `{ENV : WpaEnv} `{HM : Hmac} `{AES : AesCipher}.
Context (P : E -> Prop) `{!Calm P}.

(** The property before and after. *)
Definition kept (s s' : wpa_sm E) : Prop := P (sm_eapol s) -> P (sm_eapol s').

Lemma kept_same s s' : sm_eapol s' = sm_eapol s -> kept s s'.
Proof. intros Hs Hp. now rewrite Hs. Qed.

Lemma kept_trans s1 s2 s3 : kept s1 s2 -> kept s2 s3 -> kept s1 s3.
Proof. intros H1 H2 Hp. exact (H2 (H1 Hp)). Qed.

Lemma kept_on_eapol f s : (forall e, P e -> P (f e)) -> kept s (on_eapol f s).
Proof. intros Hf Hp. exact (Hf _ Hp). Qed.

Lemma on_pm'_same {A} (f : pmksa_st -> option (A * pmksa_st)) (s : wpa_sm E) r s' :
  on_pm' f s = Some (r, s') -> sm_eapol s' = sm_eapol s.
Proof. unfold on_pm'. destruct (f (pm s)) as [[q p]|]; [|discriminate]. now intros [= _ <-]. Qed.

Lemma ask_same {A} (f : nat -> A) (s : wpa_sm E) r s' : ask f s = (r, s') -> sm_eapol s' = sm_eapol s.
Proof. now intros [= _ <-]. Qed.

(** ** Sending *)

Lemma key_send_kept p ver dest msg mic s r s' :
  wpa_eapol_key_send p ver dest msg mic s = (r, s') -> kept s s'.
Proof.
  unfold wpa_eapol_key_send. cbv zeta.
  destruct (if is_zero_ether_addr dest && _ then _ else _) as [d s1] eqn:H1.
  assert (sm_eapol s1 = sm_eapol s) as Hs.
  { destruct (_ && _); [|now injection H1 as _ <-].
    destruct (ask env_get_bssid s) as [b s0] eqn:H0. apply ask_same in H0.
    destruct b; injection H1 as _ <-; exact H0. }
  apply kept_same in Hs. destruct (_ =? 0); [intros [= <- <-]; exact Hs|].
  destruct (if mic then _ else _) as [m|]; [|intros [= <- <-]; exact Hs].
  unfold wpa_sm_ether_send, ask. intros [= _ <-]. eapply kept_trans; [exact Hs|].
  intros Hp. exact (calm_tx_eapol_key _ Hp).
Qed.

Lemma send_2_of_4_kept dst f ver nonce ie p s r s' :
  wpa_supplicant_send_2_of_4 dst f ver nonce ie p s = (r, s') -> kept s s'.
Proof.
  unfold wpa_supplicant_send_2_of_4, send_key_msg.
  destruct (alloc_eapol _ _ s) as [rbuf s1] eqn:H1.
  assert (sm_eapol s1 = sm_eapol s) as Hs by (unfold alloc_eapol, ask in H1; now injection H1 as _ <-).
  apply kept_same in Hs. destruct rbuf as [m|]; [|intros [= _ <-]; exact Hs].
  intros H. exact (kept_trans _ _ _ Hs (key_send_kept _ _ _ _ _ _ _ _ H)).
Qed.

(** ** The PMK *)

Lemma set_pmk_from_pmksa_same (s s' : wpa_sm E) :
  wpa_sm_set_pmk_from_pmksa s = Some s' -> sm_eapol s' = sm_eapol s.
Proof.
  unfold wpa_sm_set_pmk_from_pmksa. destruct (cur_pmksa (pm s)) as [c|]; [|now intros [= <-]].
  destruct (heap (pm s) !! c); [now intros [= <-] | discriminate].
Qed.

Lemma get_eapol_pmk_same (s : wpa_sm E) r len s' : get_eapol_pmk s = (r, len, s') -> sm_eapol s' = sm_eapol s.
Proof.
  unfold get_eapol_pmk. cbv zeta. destruct (eapol_get_key _ _ _) as [res buf].
  destruct (_ && _); [destruct (eapol_get_key _ _ 16) as [res' buf']|]; now intros [= _ _ <-].
Qed.

Lemma use_eapol_pmk_same src pmkid len ab (s : wpa_sm E) r s' :
  use_eapol_pmk src pmkid len ab s = Some (r, s') -> sm_eapol s' = sm_eapol s.
Proof.
  unfold use_eapol_pmk. cbv zeta.
  set (s0 := wpa_supplicant_key_mgmt_set_pmk _).
  assert (sm_eapol s0 = sm_eapol s) as <- by reflexivity. clearbody s0.
  destruct (if _ && _ && _ then _ else _) as [[sa s1]|] eqn:H1; [|discriminate].
  assert (sm_eapol s1 = sm_eapol s0) as <-
    by (destruct (_ && _ && _); [exact (on_pm'_same _ _ _ _ H1) | now injection H1 as _ <-]).
  clear H1. destruct (if _ && _ then _ else _) as [found|]; [|discriminate].
  repeat match goal with |- (if ?b then _ else _) = _ -> _ => destruct b end; intros [= _ <-]; try reflexivity;
    destruct (negb _); reflexivity.
Qed.

Lemma no_eapol_pmk_same ab (s : wpa_sm E) r s' : no_eapol_pmk ab s = (r, s') -> sm_eapol s' = sm_eapol s.
Proof. unfold no_eapol_pmk. destruct (bool_decide _); [|destruct (negb ab)]; now intros [= _ <-]. Qed.

Lemma trigger_full_eap_kept s r s' : trigger_full_eap s = (r, s') -> kept s s'.
Proof.
  unfold trigger_full_eap, alloc_eapol, ask. cbv zeta. destruct (env_malloc _); [|now intros [= _ <-]].
  unfold wpa_sm_ether_send, ask. cbn [snd]. intros [= _ <-] Hp.
  exact (calm_eap_fail false _ (calm_eap_fail true _ Hp)).
Qed.

Lemma find_pmkid_same src pmkid (s : wpa_sm E) r s' :
  find_pmkid src pmkid s = Some (r, s') -> sm_eapol s' = sm_eapol s.
Proof.
  unfold find_pmkid. destruct (_ && _); [|now intros [= _ <-]].
  destruct (pmksa_cache_get _ _ _ _ _); [|discriminate]. now intros [= _ <-].
Qed.

Lemma get_pmk_kept src pmkid s r s' : wpa_supplicant_get_pmk src pmkid s = Some (r, s') -> kept s s'.
Proof.
  unfold wpa_supplicant_get_pmk. destruct (find_pmkid src pmkid s) as [[ab s1]|] eqn:H1; [|discriminate].
  apply find_pmkid_same, kept_same in H1. destruct (pmkid_matches pmkid s1) as [matched|]; [|discriminate].
  destruct (if matched then _ else _) as [[q s2]|] eqn:H2; [|discriminate].
  assert (kept s1 s2) as Hq.
  { destruct matched.
    - destruct (wpa_sm_set_pmk_from_pmksa s1) as [s3|] eqn:H3; [|discriminate]. injection H2 as _ <-.
      eapply kept_trans; [exact (kept_same _ _ (set_pmk_from_pmksa_same _ _ H3))|].
      apply kept_on_eapol, calm_cached.
    - destruct (wpa_key_mgmt_wpa_ieee8021x _); [|injection H2 as _ <-; now apply kept_same].
      destruct (get_eapol_pmk s1) as [[res len] s3] eqn:H3. apply get_eapol_pmk_same, kept_same in H3.
      eapply kept_trans; [exact H3|]. apply kept_same. destruct (res =? 0).
      + exact (use_eapol_pmk_same _ _ _ _ _ _ _ H2).
      + injection H2 as H2. exact (no_eapol_pmk_same _ _ _ _ H2). }
  intros H. eapply kept_trans; [exact H1|]. eapply kept_trans; [exact Hq|].
  destruct q as [ab'|]; [|injection H as _ <-; now apply kept_same].
  destruct (_ && _ && _ && _ && _); injection H as H; [exact (trigger_full_eap_kept _ _ _ H)|].
  subst s'. now apply kept_same.
Qed.

(** ** Message 1/4 *)

Lemma answer_1_of_4_kept f ver (s : wpa_sm E) r s' : answer_1_of_4 f ver s = Some (r, s') -> kept s s'.
Proof.
  unfold answer_1_of_4. cbv zeta. change (if renew_snonce s then _ else _) with (renew s).
  destruct (renew s) as [renewed s1] eqn:H1.
  assert (kept s s1) as Hs.
  { apply kept_same. unfold renew in H1. destruct (renew_snonce s); [|now injection H1 as _ <-].
    unfold ask in H1. destruct (env_random _); now injection H1 as _ <-. }
  clear H1. destruct renewed; cbn [negb]; [|intros [= _ <-]; exact Hs].
  destruct (wpa_derive_ptk f (tptk s1) s1) as [ok p]. destruct (negb ok); [intros [= _ <-]; exact Hs|].
  set (s4 := (if _ =? _ then _ else _) <| tptk_set := true |>).
  assert (sm_eapol s4 = sm_eapol s1) as H4 by (unfold s4; destruct (_ =? _); reflexivity).
  apply kept_same, (kept_trans _ _ _ Hs) in H4. clearbody s4. clear Hs.
  destruct (ask env_malloc s4) as [ok5 s5] eqn:H5. apply ask_same, kept_same, (kept_trans _ _ _ H4) in H5.
  destruct (negb ok5); [intros [= _ <-]; exact H5|]. destruct (read_assoc_ie s5); [|discriminate].
  destruct (wpa_supplicant_send_2_of_4 _ _ _ _ _ _ s5) as [ret s6] eqn:H6.
  apply send_2_of_4_kept, (kept_trans _ _ _ H5) in H6.
  destruct (ret <? 0); intros [= _ <-]; exact H6.
Qed.

Lemma process_1_of_4_kept src f ver kd (s s' : wpa_sm E) :
  wpa_supplicant_process_1_of_4 src f ver kd s = Some s' -> kept s s'.
Proof.
  unfold wpa_supplicant_process_1_of_4. cbv zeta.
  destruct (ask env_network_ctx s) as [ctx s0] eqn:H0. apply ask_same, kept_same in H0.
  destruct (ctx =? 0); [intros [= <-]; exact H0|]. destruct (_ && _); [intros [= <-]; exact H0|].
  assert (kept s (wpa_sm_set_state WPA_4WAY_HANDSHAKE s0)) as H1 by exact H0.
  set (s1 := wpa_sm_set_state WPA_4WAY_HANDSHAKE s0) in *. clearbody s1.
  destruct (if is_rsn s1 then _ else _) as [res ie]. destruct (res <? 0); [intros [= <-]; exact H1|].
  destruct (wpa_supplicant_get_pmk _ _ s1) as [[res2 s2]|] eqn:H2; [|discriminate].
  apply get_pmk_kept, (kept_trans _ _ _ H1) in H2.
  destruct (res2 =? -2); [intros [= <-]; exact H2|]. destruct (negb _); [intros [= <-]; exact H2|].
  destruct (answer_1_of_4 f ver s2) as [[ok s3]|] eqn:H3; [|discriminate].
  apply answer_1_of_4_kept, (kept_trans _ _ _ H2) in H3. destruct ok; intros [= <-]; exact H3.
Qed.

(** ** Reception *)

Lemma rx_dispatch_kept src f kd m (s : wpa_sm E) r s' :
  has (key_info f) WPA_KEY_INFO_MIC = false -> has (key_info f) WPA_KEY_INFO_ENCR_KEY_DATA = false ->
  m <> 0 -> rx_dispatch src f kd m s = Some (r, s') -> kept s s'.
Proof.
  intros Hm He Hm0. unfold rx_dispatch. cbv zeta. rewrite (no_mic_no_encr _ Hm He).
  destruct (has _ WPA_KEY_INFO_KEY_TYPE).
  - destruct (has _ WPA_KEY_INFO_KEY_INDEX_MASK); [intros [= _ <-]; now apply kept_same|].
    destruct (wpa_supplicant_process_1_of_4 _ _ _ _ s) as [s1|] eqn:H1; [|discriminate].
    intros [= _ <-]. exact (process_1_of_4_kept _ _ _ _ _ _ H1).
  - destruct (Z.eqb_spec m 0); [done|]. rewrite Hm. intros [= _ <-]. now apply kept_same.
Qed.

Lemma rx_authenticate_kept src f kd m (s : wpa_sm E) r s' :
  is_rsn s = true -> m <> 0 -> rx_authenticate src f kd m s = Some (r, s') -> kept s s' \/ authentic f s.
Proof.
  intros Hrsn Hm. unfold rx_authenticate. cbv zeta.
  destruct (has (key_info f) WPA_KEY_INFO_MIC) eqn:Hmic.
  - destruct (wpa_supplicant_verify_eapol_key_mic _ _ s) as [ok s1] eqn:H1.
    pose proof (verify_mic_spec f s ok s1 Hmic H1) as Ha. destruct ok; cbn [negb]; [now right|].
    intros [= _ <-]. left. apply kept_same. now rewrite Ha.
  - cbn [negb]. rewrite Hrsn. destruct (Z.eqb_spec m 0) as [|_]; [done|].
    cbn [andb negb]. rewrite andb_true_r.
    destruct (has (key_info f) WPA_KEY_INFO_ENCR_KEY_DATA) eqn:He.
    + intros [= _ <-]. left. now apply kept_same.
    + intros H. left. now apply rx_dispatch_kept in H.
Qed.

Lemma rx_eapol_kept src buf (s : wpa_sm E) r s' :
  is_rsn s = true -> rx_mic_len s <> Some 0 -> wpa_sm_rx_eapol src buf s = Some (r, s') ->
  kept s s' \/ authentic (rx_frame buf) s.
Proof.
  intros Hrsn Hm. unfold wpa_sm_rx_eapol. destruct (rx_mic_len s) as [m|]; [|discriminate].
  assert (m <> 0) as Hm0 by congruence. clear Hm. cbv zeta. assert (kept s s) as Hs by (intros H; exact H).
  destruct (_ <? _); [intros [= _ <-]; now left|]. destruct (negb _); [intros [= _ <-]; now left|].
  destruct (_ || _); [intros [= _ <-]; now left|].
  change (take _ buf) with (rx_frame buf). unfold ask. cbv beta iota.
  destruct (negb _); [intros [= _ <-]; left; exact Hs|]. destruct (_ && _); [intros [= _ <-]; left; exact Hs|].
  destruct (_ <? _); [intros [= _ <-]; left; exact Hs|].
  match goal with |- context [on_eapol ?g ?t] =>
    assert (kept s (on_eapol g t)) as H2 by (intros H; exact (calm_lower_layer_success _ H));
    assert (is_rsn (on_eapol g t) = true) as Hr2 by exact Hrsn;
    assert (authentic (rx_frame buf) (on_eapol g t) -> authentic (rx_frame buf) s) as Ha by exact id;
    set (s2 := on_eapol g t) in * end.
  clearbody s2. destruct (negb _); [intros [= _ <-]; now left|].
  intros H. apply rx_authenticate_kept in H; [|assumption ..].
  destruct H as [H | H]; [left; exact (kept_trans _ _ _ H2 H) | right; exact (Ha H)].
Qed.
End Calm.
