(* ===== verification/WpaSupplicant.v ===== *)
(** * Reception of EAPOL frames by wpa_supplicant (wpa_supplicant/wpa_supplicant.c)

    wpa_supplicant_rx_eapol() hands a frame to the EAPOL machine and to the WPA
    state machine, and the association event hands over a frame that came too
    early.  The two machines are put together here: the EAPOL machine [world] of
    EapolSupp.v is the [sm_eapol] of the WPA state machine.  Built without CONFIG_AP,
    CONFIG_IBSS_RSN and CONFIG_TESTING_OPTIONS. *)

From stdpp Require Import gmap.
From S2P Require Import Prelude Wpabuf EapCommon EapPeer EapolSupp EapolProps.
From S2P Require Import WpaDefs WpaCommon Crypto Rc4 AesWrap RsnIe KeyData WpaTypes Pmksa WpaSm WpaHandshake WpaOps.

(* common/defs.h WPA_KEY_MGMT_NONE @29-30 *)
Definition WPA_KEY_MGMT_NONE : Z := 2 ^ 2.
Definition WPA_KEY_MGMT_IEEE8021X_NO_WPA : Z := 2 ^ 3.
(* common/defs.h WPA_KEY_MGMT_WPS *)
Definition WPA_KEY_MGMT_WPS : Z := 2 ^ 9.
(* drivers/driver.h WPA_DRIVER_FLAGS_WIRED *)
Definition WPA_DRIVER_FLAGS_WIRED : Z := 0x10.
(* drivers/driver.h WPA_DRIVER_FLAGS_4WAY_HANDSHAKE_PSK *)
Definition WPA_DRIVER_FLAGS_4WAY_HANDSHAKE_PSK : Z := 0x0200000000000000.

(** The values of enum wpa_states in order. *)
Definition state_number (st : wpa_states) : Z :=
  match st with
  | WPA_DISCONNECTED => 0 | WPA_INTERFACE_DISABLED => 1 | WPA_INACTIVE => 2 | WPA_SCANNING => 3
  | WPA_AUTHENTICATING => 4 | WPA_ASSOCIATING => 5 | WPA_ASSOCIATED => 6 | WPA_4WAY_HANDSHAKE => 7
  | WPA_GROUP_HANDSHAKE => 8 | WPA_COMPLETED => 9
  end.

(** ** The interface to the EAPOL machine *)

Section Eapol.
Context {priv : Type} `{EM : EapMethods priv} `{EE : EapolEnv} `{OA : OsAlloc} `{SH : Sha1}.

#[export] Instance supp_eapol : EapolOps (world priv eapol_sm) := {|
  eapol_get_key := eapol_sm_get_key;
  eapol_notify_portValid := eapol_sm_notify_portValid;
  eapol_notify_eap_success := eapol_sm_notify_eap_success;
  eapol_notify_eap_fail := eapol_sm_notify_eap_fail;
  eapol_notify_cached := eapol_sm_notify_cached;
  eapol_notify_tx_eapol_key := eapol_sm_notify_tx_eapol_key;
  eapol_notify_lower_layer_success := eapol_sm_notify_lower_layer_success;
  eapol_request_reauth := eapol_sm_request_reauth
|}.

#[export] Instance supp_eapol_laws : EapolLaws (world priv eapol_sm).
Proof.
  split. intros w key len Hlen. cbn [eapol_get_key supp_eapol]. unfold eapol_sm_get_key.
  destruct (negb _); [done|]. destruct (eap_get_eapKeyData w) as [k|]; [|done].
  destruct (Z.ltb_spec (zlen k) len); [done|]. unfold zlen in *. cbn [snd].
  rewrite length_app, length_take, length_drop. lia.
Qed.
End Eapol.

(** ** struct wpa_supplicant *)

(** The fields wpa_supplicant_rx_eapol() uses, apart from the two machines;
    [pending_eapol_rx] is the pending frame with its source and time in
    microseconds, [auth_timeout] the registered authentication timeout. *)
(* wpa_supplicant/wpa_supplicant_i.h struct wpa_supplicant @946-949 *)
Record wpas_fields := WpasFields {
  own_disconnect_req : bool;
  ws_bssid : bytes;
  last_eapol_matches_bssid : bool;
  pending_eapol_rx : option (bytes * bytes * Z);
  ws_key_mgmt : Z;
  eapol_received : Z;
  drv_flags : Z;
  ssid_is_ibss : bool;          (* current_ssid is set and in IBSS mode *)
  ap_scan : Z;                  (* conf->ap_scan *)
  countermeasures : bool;
  last_eapol_src : bytes;
  last_auth_timeout_sec : Z;
  auth_timeout : option Z
}.
#[export] Instance eta_wpas_fields : Eta wpas_fields := fun f =>
  WpasFields (own_disconnect_req f) (ws_bssid f) (last_eapol_matches_bssid f) (pending_eapol_rx f)
    (ws_key_mgmt f) (eapol_received f) (drv_flags f) (ssid_is_ibss f) (ap_scan f) (countermeasures f)
    (last_eapol_src f) (last_auth_timeout_sec f) (auth_timeout f).

(* wpa_supplicant/wpa_supplicant.c wpa_supplicant_req_auth_timeout *)
Definition wpa_supplicant_req_auth_timeout (sec : Z) (f : wpas_fields) : wpas_fields :=
  if (ap_scan f =? 0) && has (drv_flags f) WPA_DRIVER_FLAGS_WIRED then f
  else f <| last_auth_timeout_sec := sec |> <| auth_timeout := Some sec |>.

Section Wpas.
Context {priv : Type} `{EM : EapMethods priv} `{EE : EapolEnv} `{OA : OsAlloc} `{SH : Sha1}.
Context `{ENV : WpaEnv} `{HM : Hmac} `{AES : AesCipher}.
Abbreviation world := (world priv eapol_sm).

(** WPS: the AP of a PIN enrollee has not authorized this station
    (eap_is_wps_pin_enrollee(), wpa_bss_get_vendor_ie_multi(), wps_is_addr_authorized()). *)
Context (wps_not_authorized : wpas_fields -> bool).

Record wpa_supplicant := WpaSupplicant { wpas : wpas_fields; wpa : wpa_sm world }.

(** The authentication timeout that is set for the first frame. *)
(* wpa_supplicant/wpa_supplicant.c wpa_supplicant_rx_eapol @5062-5099 *)
Definition rx_auth_timeout (st : wpa_states) (f : wpas_fields) : wpas_fields :=
  if (eapol_received f =? 0)
     && (negb (has (drv_flags f) WPA_DRIVER_FLAGS_4WAY_HANDSHAKE_PSK)
         || negb (wpa_key_mgmt_wpa_psk (ws_key_mgmt f)) || negb (bool_decide (st = WPA_COMPLETED)))
     && negb (ssid_is_ibss f)
  then
    let timeout := if wpa_key_mgmt_wpa_ieee8021x (ws_key_mgmt f)
                      || (ws_key_mgmt f =? WPA_KEY_MGMT_IEEE8021X_NO_WPA)
                      || (ws_key_mgmt f =? WPA_KEY_MGMT_WPS) then 70 else 10 in
    wpa_supplicant_req_auth_timeout (if wps_not_authorized f then 10 else timeout) f
  else f.

(** The EAPOL machine first, unless the keys do not come from EAP; then the WPA
    state machine, unless the driver does the 4-way handshake. *)
(* wpa_supplicant/wpa_supplicant.c wpa_supplicant_rx_eapol @5123-5141 *)
Definition rx_machines (src buf : bytes) (f : wpas_fields) (s : wpa_sm world) : option (wpa_sm world) :=
  let '(taken, s) :=
    if negb (wpa_key_mgmt_wpa_psk (ws_key_mgmt f)) && negb (ws_key_mgmt f =? WPA_KEY_MGMT_OWE)
       && negb (ws_key_mgmt f =? WPA_KEY_MGMT_DPP)
    then let '(r, e) := eapol_sm_rx_eapol src buf (sm_eapol s) in (0 <? r, s <| sm_eapol := e |>)
    else (false, s) in
  if taken then Some s
  else if negb (has (drv_flags f) WPA_DRIVER_FLAGS_4WAY_HANDSHAKE_PSK)
  then let? (_, s) := wpa_sm_rx_eapol src buf s in Some s
  else if wpa_key_mgmt_wpa_ieee8021x (ws_key_mgmt f)
  then Some (on_eapol (eapol_notify_portValid true) s)
  else Some s.

(** [now]: os_get_reltime() in microseconds. *)
(* wpa_supplicant/wpa_supplicant.c wpa_supplicant_rx_eapol *)
Definition wpa_supplicant_rx_eapol (src buf : bytes) (now : Z) (w : wpa_supplicant) : option wpa_supplicant :=
  let f := wpas w in
  let st := wpa_state (wpa w) in
  if own_disconnect_req f then Some w else
  if (state_number st <? state_number WPA_ASSOCIATED)
     || (last_eapol_matches_bssid f && negb (bool_decide (src = ws_bssid f)))
  then
    let pending := (fun b => (src, wpabuf_head b, now)) <$> wpabuf_alloc_copy buf in
    Some (WpaSupplicant (f <| pending_eapol_rx := pending |>) (wpa w))
  else
  let f := f <| last_eapol_matches_bssid := bool_decide (src = ws_bssid f) |> in
  if ws_key_mgmt f =? WPA_KEY_MGMT_NONE then Some (WpaSupplicant f (wpa w)) else
  let f := rx_auth_timeout st f in
  let f := f <| eapol_received := eapol_received f + 1 |> in
  if countermeasures f then Some (WpaSupplicant f (wpa w)) else
  let f := f <| last_eapol_src := src |> in
  let? s := rx_machines src buf f (wpa w) in
  Some (WpaSupplicant f s).

(** The frame that came before the association event. *)
(* wpa_supplicant/events.c wpa_supplicant_event_assoc @3457-3474 *)
Definition rx_pending_eapol (bssid : bytes) (now : Z) (w : wpa_supplicant) : option wpa_supplicant :=
  match pending_eapol_rx (wpas w) with
  | None => Some w
  | Some (src, buf, time) =>
      let? w := if (0 <=? now - time) && (now - time <? 200000) && bool_decide (src = bssid)
                then wpa_supplicant_rx_eapol src buf now w else Some w in
      Some (WpaSupplicant (wpas w <| pending_eapol_rx := None |>) (wpa w))
  end.

(** ** The machines together *)

Inductive wpas_op :=
| RxFrame (src buf : bytes) (now : Z)
| Associated (bssid : bytes) (now : Z)
| Wpa (op : wpa_op (E := world))          (* the rest of the program calls the WPA state machine *)
| Eapol (op : op)                         (* it calls the EAPOL machine, or a timeout fires *)
| Fields (f : wpas_fields).               (* it changes struct wpa_supplicant *)

Definition run_wpas_op (o : wpas_op) (w : wpa_supplicant) : option wpa_supplicant :=
  match o with
  | RxFrame src buf now => wpa_supplicant_rx_eapol src buf now w
  | Associated bssid now => rx_pending_eapol bssid now w
  | Wpa op => let? s := run_wpa_op op (wpa w) in Some (WpaSupplicant (wpas w) s)
  | Eapol op => Some (WpaSupplicant (wpas w) (on_eapol (run_op op) (wpa w)))
  | Fields f => Some (WpaSupplicant f (wpa w))
  end.

Fixpoint run_wpas_ops (ops : list wpas_op) (w : wpa_supplicant) : option wpa_supplicant :=
  match ops with
  | [] => Some w
  | o :: ops => let? w := run_wpas_op o w in run_wpas_ops ops w
  end.
End Wpas.
