(* ===== verification/WpaEapol.v ===== *)
(** * The WPA and EAPOL machines together

    A run of the two machines projects to a run of the EAPOL machine, whose
    theorems therefore hold in it; and the controlled port, closed before the key
    handshake, is opened by no frame that does not prove knowledge of the PTK. *)

From stdpp Require Import gmap.
From S2P Require Import Prelude Wpabuf EapCommon EapPeer EapolSupp EapolProps EapolClosed EapPeerDemo EapolDemo.
From S2P Require Import WpaDefs WpaCommon Crypto CryptoDemo Rc4 AesWrap RsnIe KeyData WpaTypes Pmksa WpaDemo WpaSm WpaHandshake WpaOps WpaFrame WpaSteps WpaSession WpaRx WpaCalm WpaSupplicant.

Section Projection.
Context {priv : Type} `{EM : EapMethods priv} `{EE : EapolEnv} `{OA : OsAlloc} `{SH : Sha1}.
Context `{ENV : WpaEnv} `{HM : Hmac} `{AES : AesCipher} (wps_not_authorized : wpas_fields -> bool).
Abbreviation world := (world priv eapol_sm).
Abbreviation program := (wpa_supplicant (priv := priv)).

(** ** The projection to the EAPOL machine *)

(** What may happen next: the sizes of the arguments are right, and the event loop
    runs only timeouts that are registered. *)
Definition wpas_op_ok (o : wpas_op (priv := priv)) (w : program) : Prop :=
  match o with
  | Wpa (OpEapol _) => False
  | Wpa op => op_ok op
  | Eapol op => op_enabled op (sm_eapol (wpa w))
  | _ => True
  end.

(** The states of wpa_supplicant, from wpa_sm_init() and eapol_sm_init() on. *)
Inductive wpas_reachable : program -> Prop :=
| wpas_init c tls e f : eapol_sm_init c tls = Some e -> wpas_reachable (WpaSupplicant f (wpa_sm_init e))
| wpas_step o w w' :
    wpas_reachable w -> wpas_op_ok o w -> run_wpas_op wps_not_authorized o w = Some w' -> wpas_reachable w'.

#[local] Opaque eapol_sm_step.

(** A call of the WPA state machine is an operation of the EAPOL machine. *)
Lemma eapol_call_reachable (e e' : world) : eapol_call e e' -> reachable e -> reachable e'.
Proof.
  intros Hc H.
  assert (forall op, op_enabled op e -> e' = run_op op e -> reachable e') as Hop
    by (intros op Hen ->; exact (reach_op op e H Hen)).
  destruct Hc as [b x|b x|b x|x|x|x|x].
  - exact (Hop (OpPortValid b) I eq_refl).
  - exact (Hop (OpEapSuccess b) I eq_refl).
  - exact (Hop (OpEapFail b) I eq_refl).
  - exact (Hop OpCached I eq_refl).
  - exact (Hop OpTxEapolKey I eq_refl).
  - exact (Hop OpLowerLayerSuccess I eq_refl).
  - exact (Hop OpRequestReauth I eq_refl).
Qed.

Lemma eapol_calls_reachable (e e' : world) : eapol_calls e e' -> reachable e -> reachable e'.
Proof. induction 1 as [|x y z H _ IH]; [done|]. intros Hx. exact (IH (eapol_call_reachable _ _ H Hx)). Qed.

(** Typed PMKs and a reachable EAPOL machine. *)
Definition sound (s : wpa_sm world) : Prop := pm_typed (pm s) /\ reachable (sm_eapol s).

Lemma steps_sound s s' : steps s s' -> sound s -> sound s'.
Proof.
  intros H [Ht He]. split; [exact (steps_pm_typed _ _ H Ht)|].
  exact (eapol_calls_reachable _ _ (steps_eapol _ _ H) He).
Qed.

Lemma sound_eapol s op : op_enabled op (sm_eapol s) -> sound s -> sound (s <| sm_eapol := run_op op (sm_eapol s) |>).
Proof. intros Hop [Ht He]. split; [exact Ht | exact (reach_op op _ He Hop)]. Qed.

Lemma rx_machines_sound src buf f s s' : rx_machines src buf f s = Some s' -> sound s -> sound s'.
Proof.
  unfold rx_machines. intros H Hs.
  destruct (if _ && _ && _ then _ else _) as [taken s1] eqn:H1.
  assert (sound s1) as Hs1.
  { destruct (_ && _ && _); [|now injection H1 as _ <-].
    pose proof (sound_eapol s (OpRx src buf) I Hs) as Hrx. cbn [run_op] in Hrx.
    destruct (eapol_sm_rx_eapol src buf (sm_eapol s)) as [r e]. injection H1 as _ <-. exact Hrx. }
  clear H1. destruct taken; [now injection H as <-|]. destruct (negb _).
  - destruct (wpa_sm_rx_eapol src buf s1) as [[r s2]|] eqn:H2; [|discriminate]. injection H as <-.
    exact (steps_sound _ _ (rx_eapol_steps _ _ _ _ _ (proj1 Hs1) H2) Hs1).
  - destruct (wpa_key_mgmt_wpa_ieee8021x _); injection H as <-; [|exact Hs1].
    exact (sound_eapol s1 (OpPortValid true) I Hs1).
Qed.

Lemma rx_frame_sound src buf now (w w' : program) :
  wpa_supplicant_rx_eapol wps_not_authorized src buf now w = Some w' -> sound (wpa w) -> sound (wpa w').
Proof.
  unfold wpa_supplicant_rx_eapol. cbv zeta. intros H Hs.
  destruct (own_disconnect_req _); [now injection H as <-|].
  destruct (_ || _); [now injection H as <-|]. destruct (_ =? _); [now injection H as <-|].
  destruct (countermeasures _); [now injection H as <-|].
  destruct (rx_machines _ _ _ _) as [s|] eqn:H1; [|discriminate]. injection H as <-.
  exact (rx_machines_sound _ _ _ _ _ H1 Hs).
Qed.

Lemma run_wpas_op_sound o (w w' : program) :
  wpas_op_ok o w -> run_wpas_op wps_not_authorized o w = Some w' -> sound (wpa w) -> sound (wpa w').
Proof.
  intros Hop H Hs. destruct o as [src buf now|bss now|op|op|f]; cbn [run_wpas_op] in H.
  - exact (rx_frame_sound _ _ _ _ _ H Hs).
  - unfold rx_pending_eapol in H. destruct (pending_eapol_rx _) as [[[src buf] time]|]; [|now injection H as <-].
    destruct (if _ && _ && _ then _ else _) as [w1|] eqn:H1; [|discriminate]. injection H as <-.
    destruct (_ && _ && _); [exact (rx_frame_sound _ _ _ _ _ H1 Hs) | now injection H1 as <-].
  - destruct (run_wpa_op op (wpa w)) as [s|] eqn:H1; [|discriminate]. injection H as <-.
    assert (op_ok op) as Hop1 by (destruct op; try exact Hop; exact I).
    apply run_wpa_op_steps in H1; [|exact Hop1 | exact (proj1 Hs)].
    destruct op; try exact (steps_sound _ _ H1 Hs). destruct Hop.
  - injection H as <-. exact (sound_eapol _ op Hop Hs).
  - injection H as <-. exact Hs.
Qed.

(** However frames, timeouts, associations and calls of the rest of the program
    are interleaved, the EAPOL machine inside wpa_supplicant goes through a run of
    its own transition system: its state is reachable there, so every theorem on
    the reachable states of the EAPOL machine (the port follows the Supplicant PAE,
    no timer is forgotten) holds in the combined program. *)
Lemma wpas_projects_to_eapol (w : program) : wpas_reachable w -> reachable (sm_eapol (wpa w)).
Proof.
  intros H. enough (sound (wpa w)) as Hs by apply Hs. induction H as [c tls e f H|o w w' _ IH Hop Hr].
  - split; [apply init_pm_typed | exact (reach_init c tls e H)].
  - exact (run_wpas_op_sound _ _ _ Hop Hr IH).
Qed.

(** Operations that may always happen. *)
Definition wpas_op_free (o : wpas_op (priv := priv)) : Prop :=
  match o with
  | Wpa (OpEapol _) | Eapol OpTick | Eapol OpStepTimeout => False
  | Wpa op => op_ok op
  | _ => True
  end.

Lemma run_wpas_ops_reachable ops : forall w w' : program,
  Forall wpas_op_free ops -> run_wpas_ops wps_not_authorized ops w = Some w' ->
  wpas_reachable w -> wpas_reachable w'.
Proof.
  induction ops as [|o ops IH]; intros w w' Hops; cbn [run_wpas_ops]; [now intros [= <-]|].
  apply Forall_cons in Hops as [Ho Hops]. destruct (run_wpas_op _ o w) as [w1|] eqn:H1; [|discriminate].
  intros H Hw. apply (IH w1 w' Hops H). refine (wpas_step o w w1 Hw _ H1).
  destruct o as [| |op|op|]; try exact I; destruct op; try exact Ho; try exact I; destruct Ho.
Qed.

(** ** The controlled port *)

#[export] Instance closed_calm : Calm (E := world) (fun e => closed (eapol e)).
Proof.
  split.
  - intros b e. apply closed_eap_fail.
  - intros e. apply closed_cached.
  - intros e. apply closed_tx_eapol_key.
  - intros e. apply closed_lower_layer_success.
Qed.

(** The controlled port is closed. *)
Definition port_closed (s : wpa_sm world) : Prop := closed (eapol (sm_eapol s)).

Lemma rx_machines_closed src buf f s s' :
  is_rsn s = true -> rx_mic_len s <> Some 0 ->
  has (drv_flags f) WPA_DRIVER_FLAGS_4WAY_HANDSHAKE_PSK = false ->
  rx_machines src buf f s = Some s' -> port_closed s -> port_closed s' \/ authentic (rx_frame buf) s.
Proof.
  intros Hrsn Hm Hf H Hc. revert H. unfold rx_machines. rewrite Hf. cbn [negb].
  destruct (_ && _ && _).
  - destruct (eapol_sm_rx_eapol src buf (sm_eapol s)) as [r e] eqn:He.
    assert (closed (eapol e)) as Hc1 by (pose proof (closed_rx src buf (sm_eapol s) Hc) as H; now rewrite He in H).
    destruct (0 <? r); [intros [= <-]; now left|].
    set (s1 := s <| sm_eapol := e |>). assert (port_closed s1) as Hs1 by exact Hc1.
    assert (authentic (rx_frame buf) s1 -> authentic (rx_frame buf) s) as Ha by exact id.
    change (is_rsn s1 = true) in Hrsn. change (rx_mic_len s1 <> Some 0) in Hm. clearbody s1.
    destruct (wpa_sm_rx_eapol src buf s1) as [[r2 s2]|] eqn:H2; [|discriminate]. intros [= <-].
    destruct (rx_eapol_kept (fun e => closed (eapol e)) _ _ _ _ _ Hrsn Hm H2) as [H | H];
      [left; exact (H Hs1) | right; exact (Ha H)].
  - destruct (wpa_sm_rx_eapol src buf s) as [[r2 s2]|] eqn:H2; [|discriminate]. intros [= <-].
    destruct (rx_eapol_kept (fun e => closed (eapol e)) _ _ _ _ _ Hrsn Hm H2) as [H | H];
      [left; exact (H Hc) | right; exact H].
Qed.

(** C5. In an RSN, with a driver without the flag of the offloaded handshake for PSK
    and a Key MIC of its own (its length is not 0), a received frame opens the closed
    controlled port only if it carries the Key MIC of a PTK the supplicant has derived:
    EAP messages, 802.1X keys, EAP-Success and every other unauthenticated frame leave
    it closed.  Closed means blocked, with portValid not set, not forced to be
    authorized, and 802.1X (WEP) keys not accepted by the configuration. *)
Theorem port_opens_authentic src buf now (w w' : program) :
  is_rsn (wpa w) = true -> rx_mic_len (wpa w) <> Some 0 ->
  has (drv_flags (wpas w)) WPA_DRIVER_FLAGS_4WAY_HANDSHAKE_PSK = false ->
  port_closed (wpa w) -> wpa_supplicant_rx_eapol wps_not_authorized src buf now w = Some w' ->
  port_closed (wpa w') \/ authentic (rx_frame buf) (wpa w).
Proof.
  intros Hrsn Hm Hf Hc. unfold wpa_supplicant_rx_eapol. cbv zeta.
  destruct (own_disconnect_req _); [intros [= <-]; now left|].
  destruct (_ || _); [intros [= <-]; now left|]. destruct (_ =? _); [intros [= <-]; now left|].
  destruct (countermeasures _); [intros [= <-]; now left|].
  match goal with |- context [rx_machines src buf ?f _] => set (f1 := f) end.
  assert (has (drv_flags f1) WPA_DRIVER_FLAGS_4WAY_HANDSHAKE_PSK = false) as Hf1.
  { rewrite <- Hf. unfold f1, rx_auth_timeout, wpa_supplicant_req_auth_timeout.
    destruct (_ && _ && _); [|reflexivity]. destruct (_ && _); reflexivity. }
  clearbody f1. destruct (rx_machines src buf f1 (wpa w)) as [s|] eqn:H1; [|discriminate]. intros [= <-].
  exact (rx_machines_closed _ _ _ _ _ Hrsn Hm Hf1 H1 Hc).
Qed.
End Projection.

(** ** A session of the combined program *)

(** PSK: 802.1X keys are not accepted; the interface is up and associated. *)
Definition demo_fields : wpas_fields :=
  WpasFields false demo_bssid false None WPA_KEY_MGMT_PSK 0 0 false 1 false [] 0 None.

Definition demo_program : wpa_supplicant (priv := unit) := WpaSupplicant demo_fields (wpa_sm_init demo_boot).

Definition program_assoc : list (wpas_op (priv := unit)) :=
  [Eapol (OpConfig None (Some (EapolConfig false 0 false false false 0))); Eapol (OpPortEnabled true)]
  ++ map Wpa (demo_assoc WPA_PROTO_RSN WPA_CIPHER_CCMP WPA_CIPHER_CCMP None (Some demo_rsn_ie))
  ++ [Wpa (OpState WPA_ASSOCIATED); RxFrame demo_bssid (msg_1_of_4 1) 0].

(** The state before message 3/4 and the one after it. *)
Definition program_session : list (wpas_op (priv := unit)) := program_assoc ++ [RxFrame demo_bssid demo_msg_3 1].

Definition port_status (w : wpa_supplicant (priv := unit)) : PortStatus := suppPortStatus (eapol (sm_eapol (wpa w))).

Lemma program_session_free : Forall wpas_op_free program_session.
Proof. unfold program_session, program_assoc. repeat constructor; vm_compute; intros [=]. Qed.

(** After the session the port is open, and the EAPOL machine is in a state of its
    own transition system. *)
Lemma wpas_projects_to_eapol_witness :
  match run_wpas_ops (fun _ => false) program_session demo_program with
  | Some w => port_status w = Authorized /\ wpa_state (wpa w) = WPA_COMPLETED /\ reachable (sm_eapol (wpa w))
  | None => False
  end.
Proof.
  assert (match run_wpas_ops (fun _ => false) program_session demo_program with
          | Some w => port_status w = Authorized /\ wpa_state (wpa w) = WPA_COMPLETED
          | None => False end) as H by (vm_compute; split; reflexivity).
  destruct (run_wpas_ops _ program_session demo_program) as [w|] eqn:Hr; [|exact H]. destruct H as [H1 H2].
  split; [exact H1|]. split; [exact H2|].
  assert (wpas_reachable (fun _ => false) demo_program) as H0 by exact (wpas_init _ _ _ _ _ demo_boot_init).
  exact (wpas_projects_to_eapol (fun _ => false) w
           (run_wpas_ops_reachable (fun _ => false) _ _ _ program_session_free Hr H0)).
Defined.

(** Message 3/4 opens the port, hence it is authentic. *)
Lemma port_opens_authentic_witness :
  match run_wpas_ops (fun _ => false) program_assoc demo_program with
  | Some w =>
      match wpa_supplicant_rx_eapol (fun _ => false) demo_bssid demo_msg_3 1 w with
      | Some w' => port_status w = Unauthorized /\ port_status w' = Authorized
                   /\ authentic (rx_frame demo_msg_3) (wpa w)
      | None => False
      end
  | None => False
  end.
Proof.
  assert (match run_wpas_ops (fun _ => false) program_assoc demo_program with
          | Some w =>
              match wpa_supplicant_rx_eapol (fun _ => false) demo_bssid demo_msg_3 1 w with
              | Some w' => let sm := eapol (sm_eapol (wpa w)) in
                  (is_rsn (wpa w), rx_mic_len (wpa w), has (drv_flags (wpas w)) WPA_DRIVER_FLAGS_4WAY_HANDSHAKE_PSK,
                   accept_802_1x_keys (EapolSupp.conf sm), portValid sm, EapolSupp.portControl sm, suppPortStatus sm,
                   port_status w')
                  = (true, Some 16, false, false, false, Auto, Unauthorized, Authorized)
              | None => False
              end
          | None => False end) as H by (vm_compute; reflexivity).
  destruct (run_wpas_ops (fun _ => false) program_assoc demo_program) as [w|]; [|exact H].
  destruct (wpa_supplicant_rx_eapol _ _ _ _ w) as [w'|] eqn:Hr; [|exact H].
  injection H as H1 H2 H3 H4 H5 H6 H7 H8. split; [exact H7|]. split; [exact H8|].
  assert (port_closed (wpa w)) as Hc by (split; [exact H4 | exact H5 | now rewrite H6 | exact H7]).
  assert (rx_mic_len (wpa w) <> Some 0) as Hm by now rewrite H2.
  destruct (port_opens_authentic (fun _ => false) demo_bssid demo_msg_3 1 w w' H1 Hm H3 Hc Hr) as [Ho | Ha];
    [|exact Ha].
  pose proof (cl_port _ Ho) as Hp. unfold port_status in H8. rewrite H8 in Hp. discriminate.
Defined.
