(* ===== verification/WpaBigtk.v ===== *)
(** * The Beacon protection key across associations

    The supplicant installs a group key it already has only once: a key equal to
    the stored one is not given to the driver again.  The stored keys therefore
    have to be forgotten when the driver loses its keys.  This is done for the GTK
    and the IGTK, but not for the BIGTK. *)

From stdpp Require Import gmap.
From S2P Require Import Prelude WpaDefs WpaCommon Crypto CryptoDemo Rc4 AesWrap RsnIe KeyData WpaTypes Pmksa WpaDemo WpaSm WpaHandshake WpaOps WpaSession.

Section Bigtk.
Context {E : Type} `{EO : EapolOps E} `{ENV : WpaEnv} `{HM : Hmac}.

(** The key that was stored is recognised. *)
Lemma same_store_gtk g key len : 0 <= len <= zlen key -> same_gtk (store_gtk g key len) key len = true.
Proof.
  intros Hlen. unfold same_gtk, store_gtk. cbn [gtk_key gtk_key_len]. rewrite Z.eqb_refl. cbn [andb].
  apply bool_decide_eq_true. unfold key_of. apply take_overwrite'. rewrite length_take. unfold zlen in Hlen. lia.
Qed.

(** The stored keys after a disassociation and a new association. *)
Lemma reassociation_keys bss (s : wpa_sm E) :
  let s' := wpa_sm_notify_assoc bss (wpa_sm_notify_disassoc s) in
  gtk s' = gtk_zero /\ igtk s' = gtk_zero /\ bigtk s' = bigtk s
  /\ mgmt_group_cipher s' = mgmt_group_cipher s.
Proof. unfold wpa_sm_notify_disassoc. cbv zeta. destruct (bool_decide _); now split_and!. Qed.

(** C7. A BIGTK that was given to the driver is not given to it again in the next
    association, although the driver has dropped it: wpa_sm_notify_disassoc() and
    wpa_sm_notify_assoc() forget the GTK and the IGTK but keep the BIGTK, and
    wpa_supplicant_install_bigtk() skips a key equal to the stored one. *)
Theorem bigtk_not_reinstalled kde bss (s s1 : wpa_sm E) :
  let len := wpa_cipher_key_len (mgmt_group_cipher s) in
  len <= zlen (igtk_key kde) -> same_gtk (bigtk s) (igtk_key kde) len = false ->
  same_gtk (bigtk_wnm_sleep s) (igtk_key kde) len = false ->
  wpa_supplicant_install_bigtk kde false s = (0, s1) ->
  (exists ok, events (pm s1) = events (pm s)
     ++ [EvSetKey (wpa_cipher_to_alg (mgmt_group_cipher s)) (Some broadcast_ether_addr) (igtk_keyid kde) false
           (igtk_pn kde) (key_of (igtk_key kde) len) KEY_FLAG_GROUP_RX ok])
  /\ let s2 := wpa_sm_notify_assoc bss (wpa_sm_notify_disassoc s1) in
     gtk s2 = gtk_zero /\ igtk s2 = gtk_zero /\ wpa_supplicant_install_bigtk kde false s2 = (0, s2).
Proof.
  cbv zeta. set (len := wpa_cipher_key_len (mgmt_group_cipher s)). intros Hlen H1 H2.
  pose proof (wpa_cipher_key_len_range (mgmt_group_cipher s)) as Hr.
  unfold wpa_supplicant_install_bigtk at 1. cbv zeta. fold len. rewrite H1, H2. cbn [orb].
  destruct (_ || _); [discriminate|]. unfold wpa_sm_set_key, ask.
  destruct (negb _); [discriminate|]. intros [= <-]. split; [eexists; reflexivity|].
  match goal with |- context [wpa_sm_notify_disassoc ?t] => destruct (reassociation_keys bss t) as (G & I & B & M);
    assert (bigtk t = store_gtk (bigtk s) (igtk_key kde) len) as Hb by reflexivity;
    assert (mgmt_group_cipher t = mgmt_group_cipher s) as Hm by reflexivity;
    rewrite Hb in B; rewrite Hm in M; set (s2 := wpa_sm_notify_assoc bss (wpa_sm_notify_disassoc t)) in * end.
  clearbody s2. split; [exact G|]. split; [exact I|]. unfold wpa_supplicant_install_bigtk. cbv zeta.
  rewrite M, B. fold len. rewrite same_store_gtk by (unfold len in *; lia). reflexivity.
Qed.
End Bigtk.

(** A BIGTK KDE: key identifier 6, packet number 0 and the key. *)
Definition demo_bigtk_kde : bytes := [6; 0] ++ replicate 6 0 ++ replicate 16 0xb1.

Lemma bigtk_not_reinstalled_witness :
  match demo_run rsn_assoc with
  | Some s =>
      exists s1, wpa_supplicant_install_bigtk demo_bigtk_kde false s = (0, s1)
        /\ let s2 := wpa_sm_notify_assoc demo_bssid (wpa_sm_notify_disassoc s1) in
           wpa_supplicant_install_bigtk demo_bigtk_kde false s2 = (0, s2)
  | None => False
  end.
Proof.
  assert (match demo_run rsn_assoc with
          | Some s => let len := wpa_cipher_key_len (mgmt_group_cipher s) in
              (len <=? zlen (igtk_key demo_bigtk_kde), same_gtk (bigtk s) (igtk_key demo_bigtk_kde) len,
               same_gtk (bigtk_wnm_sleep s) (igtk_key demo_bigtk_kde) len,
               fst (wpa_supplicant_install_bigtk demo_bigtk_kde false s)) = (true, false, false, 0)
          | None => False end) as H by (vm_compute; reflexivity).
  destruct (demo_run rsn_assoc) as [s|]; [|exact H].
  destruct (wpa_supplicant_install_bigtk demo_bigtk_kde false s) as [r s1] eqn:Hr.
  injection H as H1 H2 H3 H4. cbn [fst] in H4. subst r. exists s1. split; [reflexivity|].
  exact (proj2 (proj2 (proj2 (@bigtk_not_reinstalled unit demo_world demo_bigtk_kde demo_bssid s s1
                               (proj1 (Z.leb_le _ _) H1) H2 H3 Hr)))).
Defined.
